(* ===== verification/_CoqProject ===== *)
-Q . S2P
Prelude.v
Bitmap.v
LinkedList.v
HashTable.v
LibTest.v
Stacks.v
Machine.v
Mips.v
MipsSafety.v
Unaligned.v
FileSysStub.v
Syscall.v
SyscallNum.v
TtyConsole.v
FileCalls.v
SyscallSafety.v
AddrSpace.v
Disk.v
FileHdr.v
Coff.v
OpenFile.v
Directory.v
FileSys.v
FileSysInv.v
FileSysSpec.v
Threads.v
ThreadsInv.v
ThreadsSafe.v
ThreadsTest.v
Delivery.v
Devices.v
Tokens.v
Fifo.v
Switch.v
Run.v
Exclusion.v
SynchApply.v
Wakeup.v
Console.v
Network.v
Post.v
Main.v
Debugger.v
