(* ===== verification/Prelude.v ===== *)
(** * A verification development for NachOS 4.0

    ** The program

    Nachos is an instructional operating system that runs as one UNIX process:
    a simulated MIPS machine with its devices (code/machine), a kernel with
    threads and synchronisation (code/threads), system calls and address spaces
    for user programs (code/userprog), two file systems of which the build
    chooses one (code/filesys), a post office over a simulated network
    (code/network), container classes (code/lib), and a converter that makes
    the executables user programs are loaded from (coff2noff).

    How the parts interact.  The machine executes user instructions and traps
    into the exception handler for system calls and faults; system calls use the
    file system and the console.  Devices are UNIX files or sockets; they call
    the kernel back through the queue of pending interrupts, which is looked at
    whenever the simulated clock ticks; the clock ticks when interrupts are
    turned on and after each user instruction.  The timer's interrupt makes the
    current thread yield.  Threads wait for devices and for one another on
    semaphores.

    ** The files

    Paths are relative to src/NachOS-4.0/code except for coff2noff.

    - Prelude.v: results, faults, machine integers, the state monad, [wp] and
      [keeps], and the tactics and lemmas all files share (lib/debug.h's ASSERT,
      lib/utility.h's rounding macros).
    - Bitmap.v: lib/bitmap.  LinkedList.v: lib/list, over a heap of elements.
      HashTable.v: lib/hash.  LibTest.v: lib/libtest.
    - Machine.v: machine/machine, machine/translate: registers, memory, page
      table and TLB.  Mips.v: machine/mipssim.  MipsSafety.v: its theorems, over
      any trap handler of the class [TrapHandler].
    - FileSysStub.v: filesys/filesys.h and openfile.h of the FILESYS_STUB build,
      the files of lib/sysdep.cc.  Syscall.v: userprog/ksyscall.h,
      userprog/exception.cc.  SyscallNum.v, SyscallSafety.v: their theorems; the
      second discharges [TrapHandler].  AddrSpace.v: userprog/addrspace, the
      start of the initial program in threads/main.cc.
    - Disk.v: machine/disk, filesys/synchdisk.  FileHdr.v, OpenFile.v,
      Directory.v, FileSys.v: filesys/filehdr, openfile, directory, pbitmap,
      filesys without FILESYS_STUB.  FileSysInv.v, FileSysSpec.v: the invariant
      of a disk, the abstract file system and the refinement.
    - Coff.v: coff2noff/coff2noff.c.
    - Threads.v: threads/thread, scheduler, synch, synchlist, alarm,
      machine/interrupt, timer.  ThreadsInv.v, ThreadsSafe.v: the scheduler's
      invariant and that every step keeps it.  ThreadsTest.v: the self test of
      threads/kernel.cc.  Devices.v: what a device may do to the thread system.
      Tokens.v, Exclusion.v, SynchApply.v: invariants of programs of threads that
      no interleaving upsets; locks; a device behind a lock; SynchList::Apply.  Fifo.v: the order in
      which threads run.  Switch.v: the registers of user programs across
      switches, and [AddrSpace::Execute] in a thread.  Run.v: [Machine::Run] in a
      thread, with its time slices.  Wakeup.v: what becomes of the units a semaphore is
      signalled with.
    - Console.v: machine/console, userprog/synchconsole.  Network.v, Post.v:
      machine/network, network/post, the sockets of lib/sysdep.cc.
    - Main.v: the arguments of threads/main.cc and of the constructor of
      threads/kernel.cc, the file commands of main, and the Print methods of
      the file system.
    - Debugger.v: the debugger of machine/machine.cc, the dumps and statistics of
      machine/interrupt.cc and machine/stats.cc, lib/debug.cc.
    - Stacks.v: the C++ tutorial in c++example (beside code).

    ** How state and operations correspond

    A class is a [Record] of its fields, a method a definition of the same name
    (with the class in front where a name would be ambiguous) in the monad
    [stM S] over the state it touches; a constructor is [new_...], a destructor
    [delete_...].  A result is [Ok] or [Fail] with one of six faults, see
    [fault] below.  Guards, early returns and assertions are kept in the order
    of the source.  Integers are [Z] with their width written out: [to_i32],
    [to_u32] where the source wraps, [Undefined] where C++ gives an overflow no
    meaning and the code does not rely on it.  Pointers are keys of finite maps
    where aliasing matters (lists, threads, semaphores, mails) and values where
    it does not.  Uninitialised memory is an arbitrary function [uninit].

    Threads.  The kernel runs on one processor, and control changes hands only
    inside [Scheduler::Run].  What a thread has still to do is a list of
    [instr]; one step executes the stretch of source up to the next point where
    the thread can be switched out.  Every interleaving the kernel can produce is
    a sequence of steps ([reachable]).

    Code that is not in the repository is a parameter: the UNIX calls are the
    fields of [UnixOps], [PollOps] and [SocketOps], and what the code relies on
    are the classes [UnixLaws], [UnixFiles], [UnixSeek], [UnixStore], [UnixTree]
    and [SocketLaws], each with an executable instance on a small host.

    Between components stand classes: [TrapHandler] (what the machine needs of
    the kernel), [Console] (what system calls need of the console),
    [SectorDisk] (what the file system needs of the disk), [DeviceOk] and
    [RequestOk] (what the thread system needs of a device), [DeviceTokens],
    [DeviceFifo], [DeviceHolds], [DeviceAside] and [DeviceWakes] (what the
    theorems of Tokens.v, Fifo.v, Switch.v, Run.v and Wakeup.v need of it), [Stack] and [StackLaws] (an abstract class of C++ and
    its contract).

    ** What the theorems show

    - Threads: no step of any program of threads breaks the scheduler or fires
      an assertion of it ([scheduler_safe]); a thread is in one place at a time
      ([one_place]); a clock tick ends with every due interrupt delivered
      ([interrupts_delivered]); every ready thread gets its turn
      ([ready_runs]); a user program does not see that it was switched out
      ([user_state_preserved]), and what it does is what it would do alone
      ([time_slices_invisible]), with the kernel none the worse for it
      ([run_safe]); no unit a semaphore was signalled with is lost
      ([no_lost_wakeup]); locks exclude ([mutual_exclusion],
      [apply_exclusive]); the display and
      the network are used by one thread at a time ([putchar_exclusive],
      [send_exclusive]); mail arrives as it was sent ([mail_roundtrip]); the
      kernel's own tests pass ([thread_selftest_passes],
      [network_test_passes]).
    - Machine and user programs: no instruction, program, system call or
      executable can break the machine or the kernel ([one_instruction_safe],
      [user_program_safe], [syscall_resumes], [main_user_safe]); translation,
      memory, arithmetic, multiplication, unaligned access and delay slots do
      what the R2000 does ([translate_correct], [memory_roundtrip],
      [mult_correct], [unaligned_access_correct], [arithmetic_correct],
      [delay_slots]), with one difference ([srl_is_arithmetic]); the debugger
      comes back ([debugger_returns]) and after <return> listens no more
      ([return_is_final]); numbers printed
      are read back ([print_read_num], [readnum_correct]).
    - Loading: a NOFF executable ends up in memory as its header says
      ([load_correct]), and the one coff2noff makes of a COFF file holds its
      sections ([coff2noff_loads]).
    - File systems: the Nachos file system refines a map from names to contents
      and keeps every sector accounted for ([fs_refines], [fs_consistent],
      [file_roundtrip], [create_errors]) on any store of sectors, of which the
      simulated disk is one ([synchdisk_roundtrip], [disk_latency]); a UNIX file
      copied in is printed as it was ([copy_then_print]), from the command line
      on ([format_copy_print]); the UNIX stub keeps its descriptor table in order ([fd_table_correct],
      [remove_spares_open_files]) except where its Create closes another file
      ([create_closes_open_slot]).
    - Containers: bitmap, list, sorted list and hash table refine their abstract
      types ([bitmap_refines], [list_refines], [sorted_list_in_order],
      [hash_refines]), and the self tests pass; the two stacks of the tutorial
      answer alike ([stacks_agree]).

    ** Bounds and fuel

    Loops of the source are structural recursions over what bounds them, or
    [for_up] over a range.  Fuel occurs where the source itself sets no bound:
    loops along [next] pointers (one more than the elements that exist), the
    loop that fires due interrupts (one more than the interrupts pending, enough
    by [interrupts_delivered]), scans for a NUL in a kernel buffer (its length),
    reading a number (the buffer); copying and printing a file (more than its
    bytes).  [reachable] runs while the clock is far from
    the end of its 32 bits ([room]: 2^21 ticks before overflow), since the code
    compares ticks as signed integers.

    ** Not modelled, and why

    The context switch itself (threads/switch.S, switch.h) is assembler: its
    effect, that a thread goes on where it was switched out, is the list of
    instructions of a thread.  Debug messages and the printing of threads and
    instructions only print.  User programs in test/ are input of the system.  Each device
    is composed with the thread system by itself, not all in one kernel.  A
    system call is one step of the thread that makes it: that a call for the
    console can wait for a character, with other threads running meanwhile, is
    in Console.v for threads of the kernel and not for user programs. *)


From stdpp Require Export base tactics list numbers option gmap.
From Stdlib Require Export ZArith Lia.

Open Scope Z_scope.

(** ** Faults and results

    C++ code that runs to its end yields [Ok]; code that does not yields
    [Fail] with the reason:
    - [AssertFail]: an [ASSERT]/[ASSERTNOTREACHED] of lib/debug.h fired and
      the process aborted;
    - [Undefined]: the code did something C++ gives no meaning to (an index
      outside an array, a NULL dereference, a trapping division);
    - [Uncaught]: [new] threw (a negative size, or no memory) and nothing
      catches the exception, so the process aborts;
    - [Halted]: [Interrupt::Halt] ran, which deletes the kernel and exits;
    - [Waiting]: the code waits for ever for an event that never comes;
    - [OutOfFuel]: a loop whose bound is a fuel argument of the model did not
      finish within it (a loop that the code itself may never leave). *)

Inductive fault : Set :=
  | AssertFail
  | Undefined
  | Uncaught
  | Halted
  | Waiting
  | OutOfFuel.

#[global] Instance fault_eq_dec : EqDecision fault.
Proof. solve_decision. Defined.

Inductive res (A : Type) : Type :=
  | Ok (a : A)
  | Fail (f : fault).
Arguments Ok {A} _.
Arguments Fail {A} _.

#[global] Instance res_ret : MRet res := fun A a => Ok a.
#[global] Instance res_bind : MBind res := fun A B f m =>
  match m with Ok a => f a | Fail e => Fail e end.

Definition is_ok {A} (r : res A) : bool :=
  match r with Ok _ => true | Fail _ => false end.

(** [ASSERT(condition)] of lib/debug.h. *)
Definition ASSERT (condition : bool) : res unit :=
  if condition then Ok tt else Fail AssertFail.

(** ** Machine integers

    The program is built with -m32: [int] is 32 bits, [char] is signed. *)

Definition to_i32 (z : Z) : Z := (z + 2 ^ 31) mod 2 ^ 32 - 2 ^ 31.
Definition to_u32 (z : Z) : Z := z mod 2 ^ 32.
Definition to_u16 (z : Z) : Z := z mod 2 ^ 16.
Definition to_u8 (z : Z) : Z := z mod 2 ^ 8.
Definition to_i8 (z : Z) : Z := (z + 2 ^ 7) mod 2 ^ 8 - 2 ^ 7.

Definition is_i32 (z : Z) : Prop := - 2 ^ 31 <= z < 2 ^ 31.
Definition is_u32 (z : Z) : Prop := 0 <= z < 2 ^ 32.
Definition is_i8 (z : Z) : Prop := - 2 ^ 7 <= z < 2 ^ 7.

#[global] Instance is_i32_dec z : Decision (is_i32 z).
Proof. unfold is_i32. apply _. Defined.
#[global] Instance is_u32_dec z : Decision (is_u32 z).
Proof. unfold is_u32. apply _. Defined.
#[global] Instance is_i8_dec z : Decision (is_i8 z).
Proof. unfold is_i8. apply _. Defined.

(** The result of an operation on [int]; C++ gives an overflow no meaning. *)
Definition int_op (z : Z) : res Z :=
  if (- 2 ^ 31 <=? z) && (z <? 2 ^ 31) then Ok z else Fail Undefined.

(** lib/utility.h: [/] and [%] of C truncate towards zero. *)
Definition divRoundDown (n s : Z) : Z := Z.quot n s.
Definition divRoundUp (n s : Z) : Z :=
  Z.quot n s + (if 0 <? Z.rem n s then 1 else 0).

(** ** Arrays

    [a[i]] with a C index.  An index outside the array is [Undefined]. *)

Definition zget {A} (l : list A) (i : Z) : res A :=
  if 0 <=? i then
    match l !! Z.to_nat i with Some a => Ok a | None => Fail Undefined end
  else Fail Undefined.

Definition zset {A} (l : list A) (i : Z) (x : A) : res (list A) :=
  if (0 <=? i) && (i <? Z.of_nat (length l)) then Ok (<[Z.to_nat i := x]> l)
  else Fail Undefined.

(** ** Counted loops: [for (i = lo; i < lo + n; i++) s = body(i, s)] *)

Fixpoint for_n {S} (n : nat) (i : Z) (body : Z -> S -> res S) (s : S) : res S :=
  match n with
  | O => Ok s
  | S n' => s' ← body i s; for_n n' (i + 1) body s'
  end.

(** [for (i = lo; i < hi; i++)] *)
Definition for_up {S} (lo hi : Z) (body : Z -> S -> res S) (s : S) : res S :=
  for_n (Z.to_nat (hi - lo)) lo body s.

(** ** Stateful code

    Code that reads and changes a state [S] and may fail.  A fault keeps no
    state: the process has stopped. *)

Definition stM (S A : Type) : Type := S -> res (A * S).

#[global] Instance stM_ret {S} : MRet (stM S) := fun A a s => Ok (a, s).
#[global] Instance stM_bind {S} : MBind (stM S) := fun A B f m s =>
  match m s with Ok (a, s') => f a s' | Fail e => Fail e end.

Definition lift {S A} (r : res A) : stM S A :=
  fun s => match r with Ok a => Ok (a, s) | Fail e => Fail e end.
Definition gets {S A} (f : S -> A) : stM S A := fun s => Ok (f s, s).
Definition modify {S} (f : S -> S) : stM S unit := fun s => Ok (tt, f s).

(** [wp E Q m s]: [m] run from [s] ends in a result and a state that satisfy
    [Q], or in a fault that [E] admits.  With [E] empty, [m] cannot fail. *)
Definition wp {S A} (E : fault -> Prop) (Q : A -> S -> Prop) (m : stM S A) (s : S) : Prop :=
  match m s with Ok (a, s') => Q a s' | Fail f => E f end.

Definition no_fault (f : fault) : Prop := False.

(** ** Automation *)

#[global] Arguments Z.ldiff : simpl never.
#[global] Arguments Z.land : simpl never.
#[global] Arguments Z.lor : simpl never.
#[global] Arguments Z.lxor : simpl never.
#[global] Arguments Z.lnot : simpl never.
#[global] Arguments Z.shiftl : simpl never.
#[global] Arguments Z.shiftr : simpl never.
#[global] Arguments Z.pow : simpl never.
#[global] Arguments Z.ones : simpl never.
#[global] Arguments Z.testbit : simpl never.
#[global] Arguments Z.div : simpl never.
#[global] Arguments Z.modulo : simpl never.
#[global] Arguments Z.quot : simpl never.
#[global] Arguments Z.rem : simpl never.
#[global] Arguments Z.of_nat : simpl never.
#[global] Arguments Z.to_nat : simpl never.
#[global] Arguments Z.add : simpl never.
#[global] Arguments Z.sub : simpl never.
#[global] Arguments Z.mul : simpl never.
#[global] Arguments Z.leb : simpl never.
#[global] Arguments Z.ltb : simpl never.
#[global] Arguments Z.eqb : simpl never.

(** Runs binds whose first part is a value. *)
Ltac rsimp := cbn [mbind res_bind mret res_ret ASSERT fst snd].

(** Unfolds the monads, so that the code is plain matches on results. *)
Ltac run :=
  unfold lift, gets, modify, mbind, mret, stM_bind, stM_ret, res_bind, res_ret in *; cbn [fst snd].

Create HintDb nachos.
Create Rewrite HintDb nachos.

(** [cint] computes the powers of two a width is made of and calls [lia] with
    division and remainder by them eliminated. *)
Ltac pow2 :=
  change (2 ^ 7) with 128 in *; change (2 ^ 8) with 256 in *;
  change (2 ^ 16) with 65536 in *;
  change (2 ^ 31) with 2147483648 in *; change (2 ^ 32) with 4294967296 in *.

Ltac cint :=
  unfold to_i32, to_u32, to_u16, to_u8, to_i8, is_i32, is_u32, is_i8 in *; pow2;
  Z.div_mod_to_equations; lia.

(** [res_inv H] takes a bind in [H] that ended in [Ok] apart. *)
Ltac res_step :=
  match goal with
  | H : mbind _ ?m = Ok _ |- _ =>
      let E := fresh "E" in destruct m eqn:E; simpl in H; [ | discriminate H]
  | H : Ok _ = Ok _ |- _ => injection H as H; subst
  | H : Fail _ = Ok _ |- _ => discriminate H
  | H : Ok _ = Fail _ |- _ => discriminate H
  | H : ASSERT ?b = Ok _ |- _ =>
      let E := fresh "E" in destruct b eqn:E; simpl in H; [ | discriminate H]
  | H : (let '(_, _) := ?p in _) = Ok _ |- _ => destruct p
  end.
Ltac res_inv := repeat (simpl in *; res_step).

(** Booleans of the source's conditions as propositions. *)
Ltac bool_prop :=
  repeat match goal with
  | H : (_ && _)%bool = true |- _ => apply andb_true_iff in H as [? ?]
  | H : (_ || _)%bool = false |- _ => apply orb_false_iff in H as [? ?]
  | H : negb _ = true |- _ => apply negb_true_iff in H
  | H : negb _ = false |- _ => apply negb_false_iff in H
  | H : (_ <=? _) = true |- _ => apply Z.leb_le in H
  | H : (_ <=? _) = false |- _ => apply Z.leb_gt in H
  | H : (_ <? _) = true |- _ => apply Z.ltb_lt in H
  | H : (_ <? _) = false |- _ => apply Z.ltb_ge in H
  | H : (_ =? _) = true |- _ => apply Z.eqb_eq in H
  | H : (_ =? _) = false |- _ => apply Z.eqb_neq in H
  end.

(** ** Lemmas on results, arrays and loops *)

Lemma ASSERT_true (b : bool) : b = true -> ASSERT b = Ok tt.
Proof. by intros ->. Qed.

Lemma bind_ok {A B} (m : res A) (k : A -> res B) a :
  m = Ok a -> (m ≫= k) = k a.
Proof. by intros ->. Qed.

Lemma zget_lookup {A} (l : list A) i a :
  0 <= i -> l !! Z.to_nat i = Some a -> zget l i = Ok a.
Proof. intros Hi H. unfold zget. apply Z.leb_le in Hi. by rewrite Hi, H. Qed.

Lemma zget_ok {A} (l : list A) i a :
  zget l i = Ok a -> 0 <= i < Z.of_nat (length l) /\ l !! Z.to_nat i = Some a.
Proof.
  unfold zget. destruct (0 <=? i) eqn:E; [ | discriminate].
  destruct (l !! Z.to_nat i) eqn:L; [ | discriminate].
  intros [= ->]. bool_prop. apply lookup_lt_Some in L as ?. split; [lia | done].
Qed.

Lemma zget_in_range {A} (l : list A) i :
  0 <= i < Z.of_nat (length l) ->
  exists a, l !! Z.to_nat i = Some a /\ zget l i = Ok a.
Proof.
  intros Hi. destruct (lookup_lt_is_Some_2 l (Z.to_nat i)) as [a Ha]; [lia | ].
  exists a. split; [done | ]. apply zget_lookup; [lia | done].
Qed.

Lemma zset_in_range {A} (l : list A) i x :
  0 <= i < Z.of_nat (length l) -> zset l i x = Ok (<[Z.to_nat i := x]> l).
Proof.
  intros Hi. unfold zset.
  rewrite (proj2 (Z.leb_le 0 i)), (proj2 (Z.ltb_lt i _)) by lia. done.
Qed.

(** The rule for a counted loop whose body never fails: an invariant indexed
    by the loop variable that every iteration carries forward. *)
Lemma for_n_inv {S} (I : Z -> S -> Prop) body n i (s : S) :
  (forall j s', i <= j < i + Z.of_nat n -> I j s' ->
     exists s'', body j s' = Ok s'' /\ I (j + 1) s'') ->
  I i s ->
  exists s', for_n n i body s = Ok s' /\ I (i + Z.of_nat n) s'.
Proof.
  revert i s. induction n as [ | n IH]; intros i s Hb Hi.
  - exists s. split; [done | ]. by replace (i + Z.of_nat 0) with i by lia.
  - destruct (Hb i s) as (s1 & E1 & H1); [lia | done | ].
    destruct (IH (i + 1) s1) as (s2 & E2 & H2); [ | done | ].
    + intros j s' Hj. apply Hb. lia.
    + exists s2. simpl. rewrite E1. simpl. split; [done | ].
      by replace (i + Z.of_nat (Datatypes.S n)) with (i + 1 + Z.of_nat n) by lia.
Qed.

Lemma for_up_inv {S} (I : Z -> S -> Prop) body lo hi (s : S) :
  lo <= hi ->
  (forall j s', lo <= j < hi -> I j s' -> exists s'', body j s' = Ok s'' /\ I (j + 1) s'') ->
  I lo s ->
  exists s', for_up lo hi body s = Ok s' /\ I hi s'.
Proof.
  intros Hle Hb Hi. unfold for_up.
  destruct (for_n_inv I body (Z.to_nat (hi - lo)) lo s) as (s' & E & H).
  - intros j s' Hj. apply Hb. lia.
  - done.
  - exists s'. split; [done | ]. by replace hi with (lo + Z.of_nat (Z.to_nat (hi - lo))) by lia.
Qed.

Lemma for_n_app {S} n m i body (s : S) :
  for_n (n + m) i body s = s' ← for_n n i body s; for_n m (i + Z.of_nat n) body s'.
Proof.
  revert i s. induction n as [ | n IH]; intros i s; cbn [Nat.add for_n].
  - rsimp. by rewrite Z.add_0_r.
  - destruct (body i s) as [s' | f]; rsimp; [ | done]. rewrite IH.
    by replace (i + 1 + Z.of_nat n) with (i + Z.of_nat (Datatypes.S n)) by lia.
Qed.

(** ** Lemmas on stateful code *)

Section WP.
Context {S : Type} {E : fault -> Prop}.

Lemma wp_ret {A} (Q : A -> S -> Prop) a s : Q a s -> wp E Q (mret a) s.
Proof. done. Qed.

Lemma wp_bind {A B} (Q : B -> S -> Prop) (m : stM S A) (k : A -> stM S B) s :
  wp E (fun a s' => wp E Q (k a) s') m s -> wp E Q (m ≫= k) s.
Proof. unfold wp, mbind, stM_bind. by destruct (m s) as [[a s'] | f]. Qed.

Lemma wp_bind_inv {A B} (Q : B -> S -> Prop) (m : stM S A) (k : A -> stM S B) s :
  wp E Q (m ≫= k) s -> wp E (fun a s' => wp E Q (k a) s') m s.
Proof. unfold wp, mbind, stM_bind. by destruct (m s) as [[a s'] | f]. Qed.

Lemma wp_mono {A} (Q Q' : A -> S -> Prop) (m : stM S A) s :
  wp E Q m s -> (forall a s', Q a s' -> Q' a s') -> wp E Q' m s.
Proof. unfold wp. destruct (m s) as [[a s'] | f]; auto. Qed.

Lemma wp_ok {A} (Q : A -> S -> Prop) (m : stM S A) s a s' :
  m s = Ok (a, s') -> Q a s' -> wp E Q m s.
Proof. unfold wp. by intros ->. Qed.

Lemma wp_lift {A} (Q : A -> S -> Prop) (r : res A) a s :
  r = Ok a -> Q a s -> wp E Q (lift r) s.
Proof. intros ->. done. Qed.

Lemma wp_gets {A} (Q : A -> S -> Prop) (f : S -> A) s : Q (f s) s -> wp E Q (gets f) s.
Proof. done. Qed.

Lemma wp_modify (Q : unit -> S -> Prop) (f : S -> S) s : Q tt (f s) -> wp E Q (modify f) s.
Proof. done. Qed.

Lemma wp_if {A} (Q : A -> S -> Prop) (b : bool) (m1 m2 : stM S A) s :
  (b = true -> wp E Q m1 s) -> (b = false -> wp E Q m2 s) ->
  wp E Q (if b then m1 else m2) s.
Proof. destruct b; auto. Qed.

End WP.

Lemma wp_no_fault {S A} (Q : A -> S -> Prop) (m : stM S A) s :
  wp no_fault Q m s -> exists a s', m s = Ok (a, s') /\ Q a s'.
Proof. unfold wp. destruct (m s) as [[a s'] | f]; [eauto | done]. Qed.

Lemma wp_is_ok {S A} (E : fault -> Prop) (Q : A -> S -> Prop) (m : stM S A) s :
  is_ok (m s) = true -> wp E Q m s -> exists a s', m s = Ok (a, s') /\ Q a s'.
Proof. unfold wp. destruct (m s) as [[a s'] | f]; [eauto | done]. Qed.

(** [keeps E I P m]: from a state that satisfies [I], [m] ends in one that
    does, with a result that satisfies [P], or in a fault that [E] admits. *)
Definition keeps {S A} (E : fault -> Prop) (I : S -> Prop) (P : A -> Prop) (m : stM S A) : Prop :=
  forall s, I s -> wp E (fun a s' => P a /\ I s') m s.

Section Keeps.
Context {S : Type} {E : fault -> Prop} {I : S -> Prop}.

Lemma keeps_ret {A} (P : A -> Prop) a : P a -> keeps E I P (mret a).
Proof. intros HP s Hs. by apply wp_ret. Qed.

Lemma keeps_bind {A B} (P : A -> Prop) (Q : B -> Prop) (m : stM S A) (k : A -> stM S B) :
  keeps E I P m -> (forall a, P a -> keeps E I Q (k a)) -> keeps E I Q (m ≫= k).
Proof.
  intros Hm Hk s Hs. apply wp_bind. eapply wp_mono; [by apply Hm | ].
  intros a s' [HP Hs']. by apply Hk.
Qed.

Lemma keeps_if {A} (P : A -> Prop) (b : bool) (m1 m2 : stM S A) :
  (b = true -> keeps E I P m1) -> (b = false -> keeps E I P m2) ->
  keeps E I P (if b then m1 else m2).
Proof. destruct b; auto. Qed.

Lemma keeps_lift {A} (P : A -> Prop) (r : res A) :
  (forall a, r = Ok a -> P a) -> (forall f, r = Fail f -> E f) -> keeps E I P (lift r).
Proof. intros HP HE s Hs. unfold wp, lift. destruct r; auto. Qed.

Lemma keeps_fail {A} (P : A -> Prop) f : E f -> keeps E I P (lift (Fail f)).
Proof. by intros HE s Hs. Qed.

Lemma keeps_gets {A} (P : A -> Prop) (f : S -> A) : (forall s, I s -> P (f s)) -> keeps E I P (gets f).
Proof. intros HP s Hs. apply wp_gets. auto. Qed.

Lemma keeps_impl {A} (P Q : A -> Prop) (m : stM S A) :
  keeps E I P m -> (forall a, P a -> Q a) -> keeps E I Q m.
Proof. intros Hm HPQ s Hs. eapply wp_mono; [by apply Hm | ]. intros a s' [HP Hs']. auto. Qed.

End Keeps.

(** Every loop comes to an end within its fuel. *)
Definition ends (f : fault) : Prop := f <> OutOfFuel.

Definition anything {A} (a : A) : Prop := True.

Lemma keeps_ASSERT {S} {E : fault -> Prop} (I : S -> Prop) b :
  E AssertFail -> keeps E I (fun _ => b = true) (lift (ASSERT b)).
Proof. intros HE. by apply keeps_lift; destruct b; intros ? [= <-]. Qed.

Lemma wp_weaken {S A} (E F : fault -> Prop) (Q : A -> S -> Prop) (m : stM S A) s :
  (forall f, E f -> F f) -> wp E Q m s -> wp F Q m s.
Proof. unfold wp. destruct (m s) as [[a s'] | f]; auto. Qed.

Lemma keeps_weaken {S A} (E E' : fault -> Prop) (I : S -> Prop) (P : A -> Prop) (m : stM S A) :
  keeps E I P m -> (forall f, E f -> E' f) -> keeps E' I P m.
Proof. intros Hm HE s Hs. by eapply wp_weaken, Hm. Qed.

(** Takes stateful code apart by its structure. *)
Ltac keep1 :=
  match goal with
  | |- keeps _ _ _ (_ ≫= _) => eapply keeps_bind; [ | intros ? ?]
  | |- keeps _ _ ?P (mret _) => first [is_evar P; apply (keeps_ret anything); exact I | apply keeps_ret]
  | |- keeps _ _ ?P (lift (ASSERT _)) =>
      first [is_evar P; apply keeps_ASSERT; done | eapply keeps_impl; [apply keeps_ASSERT; done | intros; exact I]]
  | |- keeps _ _ _ (lift (Fail _)) => by apply keeps_fail
  | |- keeps _ _ _ (gets _) => apply (keeps_gets anything); intros; exact I
  | |- keeps _ _ _ (if _ then _ else _) => apply keeps_if; intros ?
  | |- keeps _ _ _ (match ?x with _ => _ end) => destruct x
  | |- anything _ => exact I
  end.
Ltac keep := repeat keep1.

#[export] Hint Resolve wp_ret wp_gets wp_modify : nachos.

(** ** Lemmas on machine integers *)

(** The test [w & (1 << k)] of C reads bit [k]. *)
Lemma land_pow2_testbit w k :
  0 <= k -> Z.land w (2 ^ k) = if Z.testbit w k then 2 ^ k else 0.
Proof.
  intros Hk. apply Z.bits_inj'. intros j Hj. rewrite Z.land_spec.
  rewrite Z.pow2_bits_eqb by done.
  destruct (Z.eqb_spec k j) as [<- | Hne].
  - rewrite andb_true_r. destruct (Z.testbit w k).
    + by rewrite Z.pow2_bits_true.
    + by rewrite Z.bits_0.
  - rewrite andb_false_r. destruct (Z.testbit w k).
    + by rewrite Z.pow2_bits_false.
    + by rewrite Z.bits_0.
Qed.

Lemma land_pow2_eqb w k :
  0 <= k -> negb (Z.land w (2 ^ k) =? 0) = Z.testbit w k.
Proof.
  intros Hk. rewrite land_pow2_testbit by done.
  pose proof (Z.pow_pos_nonneg 2 k ltac:(lia) Hk).
  destruct (Z.testbit w k); [ | done].
  destruct (Z.eqb_spec (2 ^ k) 0); [lia | done].
Qed.

Lemma divRoundUp_spec n s :
  0 <= n -> 0 < s -> n <= divRoundUp n s * s < n + s.
Proof.
  intros Hn Hs. unfold divRoundUp.
  rewrite Z.quot_div_nonneg, Z.rem_mod_nonneg by lia.
  pose proof (Z.div_mod n s ltac:(lia)). pose proof (Z.mod_pos_bound n s Hs).
  destruct (Z.ltb_spec 0 (n mod s)); nia.
Qed.

Lemma divRoundUp_nonneg n s : 0 <= n -> 0 < s -> 0 <= divRoundUp n s.
Proof. intros Hn Hs. pose proof (divRoundUp_spec n s Hn Hs). nia. Qed.

Lemma to_i32_range z : is_i32 (to_i32 z).
Proof. cint. Qed.

Lemma to_u32_range z : is_u32 (to_u32 z).
Proof. cint. Qed.

Lemma to_i8_range z : is_i8 (to_i8 z).
Proof. cint. Qed.

Lemma to_i32_id z : is_i32 z -> to_i32 z = z.
Proof. intros. cint. Qed.

Lemma int_op_ok z : is_i32 z -> int_op z = Ok z.
Proof.
  intros [? ?]. unfold int_op.
  by rewrite (proj2 (Z.leb_le _ _)), (proj2 (Z.ltb_lt _ _)).
Qed.

Lemma to_u32_id z : is_u32 z -> to_u32 z = z.
Proof. intros. cint. Qed.

Lemma to_i8_id z : is_i8 z -> to_i8 z = z.
Proof. intros. cint. Qed.

#[export] Hint Resolve to_i32_range to_u32_range to_i8_range : nachos.
#[export] Hint Rewrite to_i32_id to_u32_id to_i8_id using (solve [auto with nachos]) : nachos.
