(* ===== verification/Bitmap.v ===== *)
(** * Bitmaps (lib/bitmap.cc, lib/bitmap.h)

    A bitmap is an array of 32-bit words.  The operations are the class's
    methods, with their [ASSERT]s; [bits] is what a client sees: one boolean
    per item.  The theorems show that each method is the corresponding
    operation on that list of booleans, and that [SelfTest] passes. *)

From S2P Require Import Prelude.

Definition BitsInByte : Z := 8.
Definition BitsInWord : Z := 4 * BitsInByte.

Record Bitmap := mkBitmap {
  numBits : Z;
  numWords : Z;
  words : list Z
}.

(** [1 << k] on [int]; for [k = 31] the host gives the sign bit. *)
Definition one_shl (k : Z) : Z := to_i32 (Z.shiftl 1 k).

Definition in_range (b : Bitmap) (which : Z) : bool :=
  (0 <=? which) && (which <? numBits b).

Definition with_words (b : Bitmap) (ws : list Z) : Bitmap :=
  mkBitmap (numBits b) (numWords b) ws.

Definition Test (b : Bitmap) (which : Z) : res bool :=
  ASSERT (in_range b which);;
  w ← zget (words b) (Z.quot which BitsInWord);
  mret (negb (Z.land w (to_u32 (one_shl (Z.rem which BitsInWord))) =? 0)).

Definition Mark (b : Bitmap) (which : Z) : res Bitmap :=
  ASSERT (in_range b which);;
  w ← zget (words b) (Z.quot which BitsInWord);
  ws ← zset (words b) (Z.quot which BitsInWord)
         (Z.lor w (to_u32 (one_shl (Z.rem which BitsInWord))));
  let b' := with_words b ws in
  t ← Test b' which;
  ASSERT t;;
  mret b'.

Definition Clear (b : Bitmap) (which : Z) : res Bitmap :=
  ASSERT (in_range b which);;
  w ← zget (words b) (Z.quot which BitsInWord);
  ws ← zset (words b) (Z.quot which BitsInWord)
         (Z.land w (to_u32 (Z.lnot (one_shl (Z.rem which BitsInWord)))));
  let b' := with_words b ws in
  t ← Test b' which;
  ASSERT (negb t);;
  mret b'.

(** The constructor.  [uninit] is what the freshly allocated array happens to
    hold before the loops clear it. *)
Definition new_Bitmap (uninit : nat -> Z) (numItems : Z) : res Bitmap :=
  ASSERT (0 <? numItems);;
  let nw := divRoundUp numItems BitsInWord in
  ws ← for_up 0 nw (fun i ws => zset ws i 0) (uninit <$> seq 0 (Z.to_nat nw));
  for_up 0 numItems (fun i b => Clear b i) (mkBitmap numItems nw ws).

Fixpoint FindAndSet_loop (n : nat) (i : Z) (b : Bitmap) : res (Z * Bitmap) :=
  match n with
  | O => mret (-1, b)
  | S n' =>
      t ← Test b i;
      if negb t then b' ← Mark b i; mret (i, b')
      else FindAndSet_loop n' (i + 1) b
  end.

Definition FindAndSet (b : Bitmap) : res (Z * Bitmap) :=
  FindAndSet_loop (Z.to_nat (numBits b)) 0 b.

Definition NumClear (b : Bitmap) : res Z :=
  for_up 0 (numBits b)
    (fun i count => t ← Test b i; mret (if negb t then count + 1 else count)) 0.

Definition SelfTest (b : Bitmap) : res Bitmap :=
  ASSERT (BitsInWord <=? numBits b);;
  n ← NumClear b;
  ASSERT (n =? numBits b);;
  '(r, b) ← FindAndSet b;
  ASSERT (r =? 0);;
  b ← Mark b 31;
  t0 ← Test b 0;
  t31 ← Test b 31;
  ASSERT (t0 && t31);;
  '(r, b) ← FindAndSet b;
  ASSERT (r =? 1);;
  b ← Clear b 0;
  b ← Clear b 1;
  b ← Clear b 31;
  b ← for_up 0 (numBits b) (fun i b => Mark b i) b;
  '(r, b) ← FindAndSet b;
  ASSERT (r =? -1);;
  for_up 0 (numBits b) (fun i b => Clear b i) b.

(** ** The specification: a list of booleans *)

Definition bit_at (b : Bitmap) (i : Z) : bool :=
  Z.testbit (words b !!! Z.to_nat (i / BitsInWord)) (i mod BitsInWord).

Definition bits (b : Bitmap) : list bool :=
  (fun i : nat => bit_at b (Z.of_nat i)) <$> seq 0 (Z.to_nat (numBits b)).

Record bitmap_wf (b : Bitmap) : Prop := {
  wf_bits : 0 < numBits b;
  wf_words : numWords b = divRoundUp (numBits b) BitsInWord;
  wf_len : Z.of_nat (length (words b)) = numWords b;
  wf_u32 : Forall is_u32 (words b)
}.

(** Number of [false]s: what [NumClear] counts. *)
Definition count_clear (l : list bool) : Z :=
  Z.of_nat (length (filter (fun x => x = false) l)).

(** ** Words and bits *)

Lemma one_shl_u32 k : 0 <= k < BitsInWord -> to_u32 (one_shl k) = 2 ^ k.
Proof.
  intros Hk. unfold one_shl. rewrite Z.shiftl_1_l.
  assert (1 <= 2 ^ k < 2 ^ 32); [ | cint].
  split; [ | apply Z.pow_lt_mono_r; unfold BitsInWord, BitsInByte in *; lia].
  change 1 with (2 ^ 0). apply Z.pow_le_mono_r; lia.
Qed.

Lemma mask_u32 k :
  0 <= k < BitsInWord -> to_u32 (Z.lnot (one_shl k)) = Z.ldiff (Z.ones 32) (2 ^ k).
Proof.
  intros Hk. pose proof (one_shl_u32 k Hk) as H1. unfold BitsInWord, BitsInByte in *.
  transitivity (Z.lnot (2 ^ k) mod 2 ^ 32).
  - unfold Z.lnot. rewrite <- H1. clear H1. unfold one_shl. cint.
  - rewrite <- Z.land_ones by lia. apply Z.bits_inj'. intros j Hj.
    rewrite Z.land_spec, Z.ldiff_spec, Z.lnot_spec by done. apply andb_comm.
Qed.

Lemma lor_u32 a b : is_u32 a -> is_u32 b -> is_u32 (Z.lor a b).
Proof.
  intros [Ha1 Ha2] [Hb1 Hb2]. split; [by apply Z.lor_nonneg | ].
  apply Z.log2_lt_cancel. rewrite Z.log2_lor by done.
  change (Z.log2 (2 ^ 32)) with 32.
  assert (forall x, 0 <= x < 2 ^ 32 -> Z.log2 x < 32) as Hlog.
  { intros x Hx. destruct (Z.eq_dec x 0) as [-> | ]; [done | ]. apply Z.log2_lt_pow2; lia. }
  pose proof (Hlog a). pose proof (Hlog b). lia.
Qed.

Lemma land_u32 a b : is_u32 a -> 0 <= b -> is_u32 (Z.land a b).
Proof.
  intros [Ha1 Ha2] Hb. split; [apply Z.land_nonneg; by left | ].
  apply Z.le_lt_trans with a; [ | done].
  apply Z.ldiff_le; [done | ]. apply Z.bits_inj'. intros j Hj.
  rewrite Z.ldiff_spec, Z.land_spec, Z.bits_0.
  by destruct (Z.testbit a j), (Z.testbit b j).
Qed.

Lemma word_index b i :
  bitmap_wf b -> 0 <= i < numBits b ->
  0 <= i / BitsInWord < Z.of_nat (length (words b)) /\ 0 <= i mod BitsInWord < BitsInWord.
Proof.
  intros [? Hw Hl _] Hi. rewrite Hl, Hw.
  pose proof (divRoundUp_spec (numBits b) BitsInWord ltac:(lia) ltac:(done)).
  unfold BitsInWord, BitsInByte in *. Z.div_mod_to_equations. lia.
Qed.

Lemma word_index_nat b i :
  bitmap_wf b -> 0 <= i < numBits b -> (Z.to_nat (i / BitsInWord) < length (words b))%nat.
Proof.
  intros Hwf Hi. destruct (word_index b i Hwf Hi) as [Hw _]. clear - Hw. lia.
Qed.

Lemma in_range_true b i : 0 <= i < numBits b -> in_range b i = true.
Proof.
  intros ?. unfold in_range. apply andb_true_iff. rewrite Z.leb_le, Z.ltb_lt. lia.
Qed.

Lemma quot_rem_word i :
  0 <= i -> Z.quot i BitsInWord = i / BitsInWord /\ Z.rem i BitsInWord = i mod BitsInWord.
Proof.
  intros ?. split; [apply Z.quot_div_nonneg | apply Z.rem_mod_nonneg];
    unfold BitsInWord, BitsInByte; lia.
Qed.

Lemma length_bits b : length (bits b) = Z.to_nat (numBits b).
Proof. unfold bits. by rewrite length_fmap, length_seq. Qed.

Lemma bits_lookup b i :
  0 <= i < numBits b -> bits b !! Z.to_nat i = Some (bit_at b i).
Proof.
  intros Hi. unfold bits. rewrite list_lookup_fmap, lookup_seq_lt by lia.
  simpl. by rewrite Z2Nat.id by lia.
Qed.

(** ** Each method against the specification *)

Lemma Test_spec b i :
  bitmap_wf b -> 0 <= i < numBits b -> Test b i = Ok (bit_at b i).
Proof.
  intros Hwf Hi. destruct (word_index b i Hwf Hi) as [Hw Hb].
  destruct (quot_rem_word i) as [Eq Er]; [lia | ].
  destruct (zget_in_range (words b) (i / BitsInWord) Hw) as (w & Hlk & Hget).
  unfold Test, bit_at. rewrite in_range_true by done. simpl.
  rewrite Eq, Er, Hget. simpl.
  rewrite one_shl_u32, land_pow2_eqb by lia.
  by rewrite (list_lookup_total_correct _ _ _ Hlk).
Qed.

Lemma Test_out_of_range b i :
  ~ (0 <= i < numBits b) -> Test b i = Fail AssertFail.
Proof.
  intros Hi. unfold Test, in_range.
  destruct ((0 <=? i) && (i <? numBits b))%bool eqn:E; [ | done]. bool_prop. lia.
Qed.

(** Replacing the word that holds bit [i] by one that differs at most there. *)
Lemma word_update b i w v :
  bitmap_wf b -> 0 <= i < numBits b -> is_u32 w ->
  (forall k, 0 <= k < BitsInWord ->
     Z.testbit w k = if k =? i mod BitsInWord then v
                     else Z.testbit (words b !!! Z.to_nat (i / BitsInWord)) k) ->
  let b' := with_words b (<[Z.to_nat (i / BitsInWord) := w]> (words b)) in
  bitmap_wf b' /\ bits b' = <[Z.to_nat i := v]> (bits b).
Proof.
  intros Hwf Hi Hu Hbits b'. destruct (word_index b i Hwf Hi) as [Hw _].
  split.
  { destruct Hwf as [? ? ? ?]. split; simpl; try done.
    - by rewrite length_insert.
    - by apply Forall_insert. }
  apply list_eq_same_length with (n := length (bits b)).
  - by rewrite length_insert.
  - rewrite !length_bits. done.
  - intros n x y Hn Hx Hy. rewrite length_bits in Hn.
    rewrite <- (Nat2Z.id n) in Hx. rewrite bits_lookup in Hx by (simpl; lia).
    injection Hx as <-. unfold bit_at, b'. simpl.
    destruct (decide (n = Z.to_nat i)) as [-> | Hne].
    + rewrite list_lookup_insert_eq in Hy by (rewrite length_bits; lia).
      injection Hy as <-. rewrite Z2Nat.id by lia.
      rewrite list_lookup_total_insert_eq by (by apply word_index_nat).
      rewrite Hbits by (apply Z.mod_pos_bound; done). by rewrite Z.eqb_refl.
    + rewrite list_lookup_insert_ne in Hy by done.
      rewrite <- (Nat2Z.id n), bits_lookup in Hy by lia. injection Hy as <-.
      unfold bit_at. set (j := Z.of_nat n) in *.
      destruct (Z.eq_dec (j / BitsInWord) (i / BitsInWord)) as [Ej | Ej].
      * rewrite Ej, list_lookup_total_insert_eq by (by apply word_index_nat).
        rewrite Hbits by (apply Z.mod_pos_bound; done).
        destruct (Z.eqb_spec (j mod BitsInWord) (i mod BitsInWord)) as [Em | ]; [ | done].
        assert (j = i); [ | lia].
        rewrite (Z.div_mod j BitsInWord), (Z.div_mod i BitsInWord), Ej, Em by done. done.
      * rewrite list_lookup_total_insert_ne; [done | ].
        intros E. apply Ej. symmetry in E. apply Z2Nat.inj; [ | lia | done].
        apply Z.div_pos; [lia | done].
Qed.

Lemma update_sets_bit b i v :
  0 <= i < numBits b -> forall b', bits b' = <[Z.to_nat i := v]> (bits b) ->
  numBits b' = numBits b -> bit_at b' i = v.
Proof.
  intros Hi b' Hb Hn. pose proof (bits_lookup b' i ltac:(lia)) as H.
  rewrite Hb, list_lookup_insert_eq in H by (rewrite length_bits; lia). congruence.
Qed.

Lemma Mark_spec b i :
  bitmap_wf b -> 0 <= i < numBits b ->
  exists b', Mark b i = Ok b' /\ bitmap_wf b' /\ numBits b' = numBits b /\
    bits b' = <[Z.to_nat i := true]> (bits b).
Proof.
  intros Hwf Hi. destruct (word_index b i Hwf Hi) as [Hw Hb].
  destruct (quot_rem_word i) as [Eq Er]; [lia | ].
  destruct (zget_in_range (words b) (i / BitsInWord) Hw) as (w & Hlk & Hget).
  assert (is_u32 w) by (eapply Forall_lookup_1; [apply Hwf | done]).
  unfold Mark. rewrite in_range_true by done. simpl.
  rewrite Eq, Er, Hget, one_shl_u32 by done. simpl.
  rewrite zset_in_range by done. simpl.
  destruct (word_update b i (Z.lor w (2 ^ (i mod BitsInWord))) true) as [Hwf' Hbits]; try done.
  - apply lor_u32; [done | ]. rewrite <- one_shl_u32 by done. apply to_u32_range.
  - intros k Hk. rewrite (list_lookup_total_correct _ _ _ Hlk), Z.lor_spec, Z.pow2_bits_eqb by lia.
    destruct (Z.eqb_spec k (i mod BitsInWord)) as [-> | Hne].
    + by rewrite Z.eqb_refl, orb_true_r.
    + rewrite (proj2 (Z.eqb_neq _ _)) by auto. apply orb_false_r.
  - eexists. split; [ | by split_and!].
    rewrite Test_spec by done. simpl. by erewrite update_sets_bit by done.
Qed.

Lemma Clear_spec b i :
  bitmap_wf b -> 0 <= i < numBits b ->
  exists b', Clear b i = Ok b' /\ bitmap_wf b' /\ numBits b' = numBits b /\
    bits b' = <[Z.to_nat i := false]> (bits b).
Proof.
  intros Hwf Hi. destruct (word_index b i Hwf Hi) as [Hw Hb].
  destruct (quot_rem_word i) as [Eq Er]; [lia | ].
  destruct (zget_in_range (words b) (i / BitsInWord) Hw) as (w & Hlk & Hget).
  assert (is_u32 w) by (eapply Forall_lookup_1; [apply Hwf | done]).
  unfold Clear. rewrite in_range_true by done. simpl.
  rewrite Eq, Er, Hget, mask_u32 by done. simpl.
  rewrite zset_in_range by done. simpl.
  set (m := Z.ldiff (Z.ones 32) (2 ^ (i mod BitsInWord))).
  destruct (word_update b i (Z.land w m) false) as [Hwf' Hbits]; try done.
  - apply land_u32; [done | ]. unfold m. rewrite <- mask_u32 by done. apply to_u32_range.
  - intros k Hk. unfold m.
    rewrite (list_lookup_total_correct _ _ _ Hlk), Z.land_spec, Z.ldiff_spec, Z.pow2_bits_eqb by lia.
    rewrite Z.ones_spec_low by (unfold BitsInWord, BitsInByte in *; lia).
    destruct (Z.eqb_spec k (i mod BitsInWord)) as [-> | Hne].
    + by rewrite Z.eqb_refl, andb_false_r.
    + rewrite (proj2 (Z.eqb_neq _ _)) by auto. apply andb_true_r.
  - eexists. split; [ | by split_and!].
    rewrite Test_spec by done. simpl. by erewrite update_sets_bit by done.
Qed.

(** [FindAndSet] on the list of booleans: the first clear item, now set. *)
Definition spec_find_and_set (l : list bool) : Z * list bool :=
  match list_find (fun x => x = false) l with
  | Some (i, _) => (Z.of_nat i, <[i := true]> l)
  | None => (-1, l)
  end.

Lemma FindAndSet_loop_spec n b i :
  bitmap_wf b -> 0 <= i -> numBits b = i + Z.of_nat n ->
  (forall j, 0 <= j < i -> bit_at b j = true) ->
  exists r b', FindAndSet_loop n i b = Ok (r, b') /\ bitmap_wf b' /\ numBits b' = numBits b /\
    (r, bits b') = spec_find_and_set (bits b).
Proof.
  revert i. induction n as [ | n IH]; intros i Hwf Hi Hn Hbefore; simpl.
  - exists (-1), b. split_and!; try done. unfold spec_find_and_set.
    destruct (list_find (fun x => x = false) (bits b)) as [[k x] | ] eqn:E; [ | done].
    apply list_find_Some in E as (Hk & -> & _).
    pose proof (lookup_lt_Some _ _ _ Hk) as Hlt. rewrite length_bits in Hlt.
    rewrite <- (Nat2Z.id k), bits_lookup, Hbefore in Hk by lia. done.
  - rewrite Test_spec by (done || lia). simpl. destruct (bit_at b i) eqn:Eb; simpl.
    + apply IH; try done; try lia. intros j Hj.
      destruct (Z.eq_dec j i) as [-> | ]; [done | ]. apply Hbefore. lia.
    + destruct (Mark_spec b i) as (b' & -> & Hwf' & Hnb & Hbits); [done | lia | ].
      exists i, b'. rsimp. split_and!; try done.
      unfold spec_find_and_set. rewrite (proj2 (list_find_Some _ _ (Z.to_nat i) false)).
      * by rewrite Hbits, Z2Nat.id by lia.
      * split_and!; [by rewrite bits_lookup, Eb by lia | done | ].
        intros j y Hy Hj. rewrite <- (Nat2Z.id j), bits_lookup, Hbefore in Hy by lia.
        injection Hy as <-. done.
Qed.

Lemma FindAndSet_spec b :
  bitmap_wf b ->
  exists r b', FindAndSet b = Ok (r, b') /\ bitmap_wf b' /\ numBits b' = numBits b /\
    (r, bits b') = spec_find_and_set (bits b).
Proof.
  intros Hwf. unfold FindAndSet. destruct Hwf as [Hpos ? ? ?] eqn:E.
  apply FindAndSet_loop_spec; try done; lia.
Qed.

Lemma count_clear_snoc l x :
  count_clear (l ++ [x]) = count_clear l + (if x then 0 else 1).
Proof.
  unfold count_clear. rewrite filter_app, length_app.
  destruct x; simpl; lia.
Qed.

Lemma NumClear_spec b :
  bitmap_wf b -> NumClear b = Ok (count_clear (bits b)).
Proof.
  intros Hwf. pose proof (wf_bits b Hwf) as Hpos. unfold NumClear.
  destruct (for_up_inv (fun i c => c = count_clear (take (Z.to_nat i) (bits b)))
    (fun i count => t ← Test b i; mret (if negb t then count + 1 else count)) 0 (numBits b) 0)
    as (c & -> & ->).
  - lia.
  - intros j c Hj ->. rewrite Test_spec by done. rsimp. eexists. split; [done | ].
    rewrite Z2Nat.inj_add, Nat.add_1_r by lia.
    rewrite (take_S_r _ _ (bit_at b j)) by (by apply bits_lookup).
    rewrite count_clear_snoc. destruct (bit_at b j); simpl; lia.
  - done.
  - by rewrite take_ge by (by rewrite length_bits).
Qed.

(** [for (i = 0; i < numBits; i++) Mark(i)] and the same loop with [Clear]. *)
Lemma fill_loop (op : Bitmap -> Z -> res Bitmap) (v : bool) b :
  (forall b i, bitmap_wf b -> 0 <= i < numBits b ->
     exists b', op b i = Ok b' /\ bitmap_wf b' /\ numBits b' = numBits b /\
       bits b' = <[Z.to_nat i := v]> (bits b)) ->
  bitmap_wf b ->
  exists b', for_up 0 (numBits b) (fun i b => op b i) b = Ok b' /\ bitmap_wf b' /\
    numBits b' = numBits b /\ bits b' = replicate (Z.to_nat (numBits b)) v.
Proof.
  intros Hop Hwf. pose proof (wf_bits b Hwf).
  destruct (for_up_inv (fun i b' => bitmap_wf b' /\ numBits b' = numBits b /\
      bits b' = replicate (Z.to_nat i) v ++ drop (Z.to_nat i) (bits b))
    (fun i b => op b i) 0 (numBits b) b) as (b' & E & Hwf' & Hn & Hb); [lia | | done | ].
  - intros j b1 Hj (Hwf1 & Hn1 & Hb1). destruct (Hop b1 j) as (b2 & E2 & Hwf2 & Hn2 & Hb2);
      [done | lia | ].
    exists b2. split_and!; [done | done | lia | ]. rewrite Hb2, Hb1.
    rewrite insert_app_r_alt by (rewrite length_replicate; lia).
    rewrite length_replicate, Nat.sub_diag.
    replace (Z.to_nat (j + 1)) with (S (Z.to_nat j)) by lia.
    rewrite (drop_S (bits b) (bit_at b j) (Z.to_nat j)) by (by apply bits_lookup).
    rewrite replicate_S_end, <- app_assoc. done.
  - exists b'. split_and!; try done. rewrite Hb, drop_ge, app_nil_r; [done | ].
    rewrite length_bits. lia.
Qed.

Lemma new_Bitmap_spec uninit numItems :
  0 < numItems ->
  exists b, new_Bitmap uninit numItems = Ok b /\ bitmap_wf b /\ numBits b = numItems /\
    bits b = replicate (Z.to_nat numItems) false.
Proof.
  intros Hpos. unfold new_Bitmap. rewrite (proj2 (Z.ltb_lt 0 numItems)) by done. rsimp.
  set (nw := divRoundUp numItems BitsInWord).
  assert (0 <= nw).
  { pose proof (divRoundUp_spec numItems BitsInWord ltac:(lia) ltac:(done)) as Hd.
    fold nw in Hd. unfold BitsInWord, BitsInByte in *. lia. }
  set (m0 := uninit <$> seq 0 (Z.to_nat nw)).
  assert (Hlen : length m0 = Z.to_nat nw) by (unfold m0; by rewrite length_fmap, length_seq).
  destruct (for_up_inv (fun i ws => length ws = Z.to_nat nw /\
      forall k : nat, Z.of_nat k < i -> (k < Z.to_nat nw)%nat -> ws !! k = Some 0)
    (fun i ws => zset ws i 0) 0 nw m0) as (ws & -> & Hl & Hz); [done | | split; [done | lia] | ].
  { intros j ws Hj [Hl Hz]. rewrite zset_in_range by lia. eexists. split_and!; [done | | ].
    - by rewrite length_insert.
    - intros k Hk Hk'. destruct (decide (k = Z.to_nat j)) as [-> | ].
      + apply list_lookup_insert_eq. lia.
      + rewrite list_lookup_insert_ne by done. apply Hz; lia. }
  rsimp. set (b0 := mkBitmap numItems nw ws).
  assert (bitmap_wf b0) as Hwf.
  { split; simpl; try done; try lia. apply Forall_lookup. intros k x Hk.
    apply lookup_lt_Some in Hk as Hlt. rewrite Hz in Hk by lia. injection Hk as <-. done. }
  destruct (fill_loop Clear false b0) as (b & E & ? & ? & ?); [ | done | ].
  - intros. by apply Clear_spec.
  - exists b. done.
Qed.

Lemma Test_bits b i v :
  bitmap_wf b -> 0 <= i -> bits b !! Z.to_nat i = Some v -> Test b i = Ok v.
Proof.
  intros Hwf Hi Hv. apply lookup_lt_Some in Hv as Hlt. rewrite length_bits in Hlt.
  rewrite Test_spec by (done || lia). rewrite bits_lookup in Hv by lia. congruence.
Qed.

Lemma count_clear_replicate n : count_clear (replicate n false) = Z.of_nat n.
Proof.
  unfold count_clear. induction n as [ | n IH]; [done | ]. simpl. lia.
Qed.

Lemma spec_find_and_set_full n :
  spec_find_and_set (replicate n true) = (-1, replicate n true).
Proof.
  unfold spec_find_and_set.
  destruct (list_find (fun x => x = false) (replicate n true)) as [[k x] | ] eqn:E; [ | done].
  apply list_find_Some in E as (Hk & -> & _). by apply lookup_replicate in Hk as [? _].
Qed.

(** The run of [SelfTest] on an empty bitmap, one statement after the other. *)
Lemma SelfTest_spec b :
  bitmap_wf b -> BitsInWord <= numBits b -> bits b = replicate (Z.to_nat (numBits b)) false ->
  exists b', SelfTest b = Ok b' /\ bitmap_wf b' /\ numBits b' = numBits b /\
    bits b' = replicate (Z.to_nat (numBits b)) false.
Proof.
  intros Hwf Hn Hb. assert (HB : BitsInWord = 32) by done. unfold SelfTest.
  rewrite (proj2 (Z.leb_le _ _)) by done. rsimp.
  rewrite NumClear_spec, Hb, count_clear_replicate, Z2Nat.id by (done || lia). rsimp.
  rewrite Z.eqb_refl. rsimp.
  remember (numBits b) as n eqn:En.
  destruct (Z.to_nat n) as [ | [ | k]] eqn:Ek; [lia | lia | ].
  destruct (FindAndSet_spec b Hwf) as (r1 & b1 & -> & Hwf1 & Hn1 & Hf1).
  rewrite Hb in Hf1. injection Hf1 as -> Hb1. rsimp. simpl in Hb1.
  destruct (Mark_spec b1 31 Hwf1) as (b2 & -> & Hwf2 & Hn2 & Hb2); [lia | ]. rsimp.
  rewrite Hb1 in Hb2. change (Z.to_nat 31) with 31%nat in Hb2. simpl in Hb2.
  rewrite (Test_bits b2 0 true), (Test_bits b2 31 true); try done; try (rewrite Hb2).
  2: { change (Z.to_nat 31) with 31%nat. simpl. apply list_lookup_insert_eq.
       rewrite length_replicate. lia. }
  2: done.
  rsimp. simpl.
  destruct (FindAndSet_spec b2 Hwf2) as (r3 & b3 & -> & Hwf3 & Hn3 & Hf3).
  rewrite Hb2 in Hf3. injection Hf3 as -> Hb3. rsimp. simpl.
  destruct (Clear_spec b3 0 Hwf3) as (b4 & -> & Hwf4 & Hn4 & _); [lia | ]. rsimp.
  destruct (Clear_spec b4 1 Hwf4) as (b5 & -> & Hwf5 & Hn5 & _); [lia | ]. rsimp.
  destruct (Clear_spec b5 31 Hwf5) as (b6 & -> & Hwf6 & Hn6 & _); [lia | ]. rsimp.
  destruct (fill_loop Mark true b6 Mark_spec Hwf6) as (b7 & -> & Hwf7 & Hn7 & Hb7). rsimp.
  destruct (FindAndSet_spec b7 Hwf7) as (r8 & b8 & -> & Hwf8 & Hn8 & Hf8).
  rewrite Hb7, spec_find_and_set_full in Hf8. injection Hf8 as -> Hb8. rsimp. simpl.
  destruct (fill_loop Clear false b8 Clear_spec Hwf8) as (b9 & -> & Hwf9 & Hn9 & Hb9).
  exists b9. split_and!; [done | done | lia | ]. rewrite Hb9.
  replace (numBits b8) with n by lia. by rewrite Ek.
Qed.

(** ** Properties *)

(** C30: every method of the bitmap is the operation it names on a plain list
    of booleans, one per item, whatever the word layout: [Test] reads the
    item, [Mark] and [Clear] set and reset it and nothing else, [NumClear]
    counts the clear items, and [FindAndSet] takes the first clear item and
    answers -1 exactly when there is none.  No [ASSERT] inside them fires. *)
Theorem bitmap_refines (b : Bitmap) (Hwf : bitmap_wf b) :
  NumClear b = Ok (count_clear (bits b)) /\
  (exists r b', FindAndSet b = Ok (r, b') /\ bitmap_wf b' /\
     numBits b' = numBits b /\ (r, bits b') = spec_find_and_set (bits b)) /\
  forall i, 0 <= i < numBits b ->
    (exists v, Test b i = Ok v /\ bits b !! Z.to_nat i = Some v) /\
    (exists b', Mark b i = Ok b' /\ bitmap_wf b' /\ numBits b' = numBits b /\
       bits b' = <[Z.to_nat i := true]> (bits b)) /\
    (exists b', Clear b i = Ok b' /\ bitmap_wf b' /\ numBits b' = numBits b /\
       bits b' = <[Z.to_nat i := false]> (bits b)).
Proof.
  split_and!; [by apply NumClear_spec | by apply FindAndSet_spec | ].
  intros i Hi. split_and!; [ | by apply Mark_spec | by apply Clear_spec].
  exists (bit_at b i). split; [by apply Test_spec | by apply bits_lookup].
Qed.

Definition sample_bitmap : Bitmap := mkBitmap 40 2 [4294967295; 253].

Lemma bitmap_refines_witness :
  bitmap_wf sample_bitmap /\ NumClear sample_bitmap = Ok 1 /\
  exists r b', FindAndSet sample_bitmap = Ok (r, b') /\ r = 33.
Proof.
  assert (Hwf : bitmap_wf sample_bitmap).
  { split; [done | done | done | ]. repeat constructor; done. }
  destruct (bitmap_refines sample_bitmap Hwf) as (Hn & (r & b' & Hf & _) & _).
  split; [exact Hwf | ]. split; [exact Hn | ]. exists r, b'.
  split; [exact Hf | ]. vm_compute in Hf. injection Hf as <- _. reflexivity.
Defined.

(** the constructor, whatever the fresh memory held, gives a bitmap with
    every item clear, and on such a bitmap of at least one word the class's
    own [SelfTest] runs through without an assertion failing and leaves every
    item clear again. *)
Theorem bitmap_selftest_passes (uninit : nat -> Z) (n : Z) (Hn : BitsInWord <= n) :
  exists b b', new_Bitmap uninit n = Ok b /\ bits b = replicate (Z.to_nat n) false /\
    SelfTest b = Ok b' /\ bits b' = replicate (Z.to_nat n) false.
Proof.
  destruct (new_Bitmap_spec uninit n) as (b & E & Hwf & Hnb & Hb).
  { unfold BitsInWord, BitsInByte in *. lia. }
  destruct (SelfTest_spec b Hwf) as (b' & E' & _ & _ & Hb'); [lia | by rewrite Hnb | ].
  exists b, b'. rewrite Hnb in Hb'. done.
Qed.
