(* ===== verification/LinkedList.v ===== *)
(** * Singly linked lists (lib/list.cc, lib/list.h)

    [List<T>] with its [first] and [last] pointers and its element count over
    a heap of [ListElement]s, [SortedList<T>] with its comparison function,
    and [ListIterator<T>].  A pointer is [Some p], [NULL] is [None]; reading
    or writing through [NULL] or a freed element is [Undefined].  The loops
    that follow [next] pointers carry fuel one more than the number of
    elements that exist: only a cyclic list can exhaust it.

    [list_repr l xs] says that the structure represents the sequence [xs];
    the theorems show that every method acts on the structure as the named
    operation acts on the sequence. *)

From Stdlib Require Import Sorting.Sorted.
From S2P Require Import Prelude.

Definition ptr := positive.

Record ListElement (T : Type) := mkElement { next : option ptr; item : T }.
Arguments mkElement {T} _ _.
Arguments next {T} _.
Arguments item {T} _.

Record List (T : Type) := mkList {
  heap : gmap ptr (ListElement T);
  first : option ptr;
  last_ : option ptr;
  numInList : Z
}.
Arguments mkList {T} _ _ _ _.
Arguments heap {T} _.
Arguments first {T} _.
Arguments last_ {T} _.
Arguments numInList {T} _.

Section Lists.
Context {T : Type} `{EqDecision T}.

Implicit Types (h : gmap ptr (ListElement T)) (l : List T) (x : T).

(** ** Memory *)

Definition deref h (p : option ptr) : res (ListElement T) :=
  match p with
  | Some q => match h !! q with Some e => Ok e | None => Fail Undefined end
  | None => Fail Undefined
  end.

(** [p->next = q] *)
Definition set_next h (p q : option ptr) : res (gmap ptr (ListElement T)) :=
  match p with
  | Some r =>
      match h !! r with
      | Some e => Ok (<[r := mkElement q (item e)]> h)
      | None => Fail Undefined
      end
  | None => Fail Undefined
  end.

(** [delete p] *)
Definition free h (p : option ptr) : res (gmap ptr (ListElement T)) :=
  match p with
  | Some r => match h !! r with Some _ => Ok (delete r h) | None => Fail Undefined end
  | None => Fail Undefined
  end.

(** [new ListElement<T>(item)] *)
Definition new_ListElement (x : T) h : ptr * gmap ptr (ListElement T) :=
  let p := fresh (dom h) in (p, <[p := mkElement None x]> h).

Definition fuel_of h : nat := S (size h).

(** ** List<T> *)

Definition new_List : List T := mkList ∅ None None 0.

Definition IsEmpty l : bool := numInList l =? 0.
Definition NumInList l : Z := to_u32 (numInList l).

Definition Front l : res T := e ← deref (heap l) (first l); mret (item e).

Fixpoint IsInList_loop (fuel : nat) h (p : option ptr) x : res bool :=
  match fuel with
  | O => Fail OutOfFuel
  | S f =>
      match p with
      | None => mret false
      | Some _ =>
          e ← deref h p;
          if bool_decide (x = item e) then mret true
          else IsInList_loop f h (next e) x
      end
  end.

Definition IsInList l x : res bool := IsInList_loop (fuel_of (heap l)) (heap l) (first l) x.

Definition Append l x : res (List T) :=
  let '(p, h) := new_ListElement x (heap l) in
  let l := mkList h (first l) (last_ l) (numInList l) in
  b ← IsInList l x;
  ASSERT (negb b);;
  l' ← (if IsEmpty l then mret (mkList h (Some p) (Some p) (numInList l))
        else
          h' ← set_next h (last_ l) (Some p);
          mret (mkList h' (first l) (Some p) (numInList l)));
  let l' := mkList (heap l') (first l') (last_ l') (numInList l' + 1) in
  b ← IsInList l' x;
  ASSERT b;;
  mret l'.

Definition Prepend l x : res (List T) :=
  let '(p, h) := new_ListElement x (heap l) in
  let l := mkList h (first l) (last_ l) (numInList l) in
  b ← IsInList l x;
  ASSERT (negb b);;
  l' ← (if IsEmpty l then mret (mkList h (Some p) (Some p) (numInList l))
        else
          h' ← set_next h (Some p) (first l);
          mret (mkList h' (Some p) (last_ l) (numInList l)));
  let l' := mkList (heap l') (first l') (last_ l') (numInList l' + 1) in
  b ← IsInList l' x;
  ASSERT b;;
  mret l'.

Definition RemoveFront l : res (T * List T) :=
  let element := first l in
  ASSERT (negb (IsEmpty l));;
  e ← deref (heap l) (first l);
  let thing := item e in
  '(f, la) ← (if bool_decide (first l = last_ l) then mret (None, None)
              else e ← deref (heap l) element; mret (next e, last_ l));
  h ← free (heap l) element;
  mret (thing, mkList h f la (numInList l - 1)).

(** The [for] loop of [Remove]; the result says whether it left by [break]. *)
Fixpoint Remove_loop (fuel : nat) l (prev p : option ptr) x : res (bool * List T) :=
  match fuel with
  | O => Fail OutOfFuel
  | S f =>
      match p with
      | None => mret (false, l)
      | Some _ =>
          e ← deref (heap l) p;
          if bool_decide (x = item e) then
            h1 ← set_next (heap l) prev (next e);
            e1 ← deref h1 prev;
            let la := match next e1 with None => prev | Some _ => last_ l end in
            h2 ← free h1 p;
            mret (true, mkList h2 (first l) la (numInList l - 1))
          else Remove_loop f l p (next e) x
      end
  end.

(** The [if] of [Remove], between its first and its last [ASSERT]. *)
Definition Remove_body l x : res (List T) :=
  e ← deref (heap l) (first l);
  if bool_decide (x = item e) then
    '(removed, l') ← RemoveFront l;
    ASSERT (bool_decide (x = removed));;
    mret l'
  else
    '(found, l') ← Remove_loop (fuel_of (heap l)) l (first l) (next e) x;
    ASSERT found;;
    mret l'.

Definition Remove l x : res (List T) :=
  b ← IsInList l x;
  ASSERT b;;
  l' ← Remove_body l x;
  b ← IsInList l' x;
  ASSERT (negb b);;
  mret l'.

(** [Apply(func)]; [func] may act on a state [s]. *)
Fixpoint Apply_loop {S} (fuel : nat) h (p : option ptr) (func : T -> S -> res S) (s : S) : res S :=
  match fuel with
  | O => Fail OutOfFuel
  | Datatypes.S f =>
      match p with
      | None => mret s
      | Some _ => e ← deref h p; s' ← func (item e) s; Apply_loop f h (next e) func s'
      end
  end.

Definition Apply {S} l (func : T -> S -> res S) (s : S) : res S :=
  Apply_loop (fuel_of (heap l)) (heap l) (first l) func s.

(** The counting loop of [SanityCheck]: from [ptr] to [last]. *)
Fixpoint SanityCheck_loop (fuel : nat) l (p : option ptr) (numFound : Z) : res Z :=
  match fuel with
  | O => Fail OutOfFuel
  | S f =>
      if bool_decide (p = last_ l) then mret numFound
      else
        e ← deref (heap l) p;
        ASSERT (numFound + 1 <=? numInList l);;
        SanityCheck_loop f l (next e) (numFound + 1)
  end.

Definition SanityCheck l : res unit :=
  match first l with
  | None => ASSERT ((numInList l =? 0) && bool_decide (last_ l = None))
  | Some _ =>
      if bool_decide (first l = last_ l) then
        e ← deref (heap l) (last_ l);
        ASSERT ((numInList l =? 1) && bool_decide (next e = None))
      else
        numFound ← SanityCheck_loop (fuel_of (heap l)) l (first l) 1;
        ASSERT (numFound =? numInList l);;
        e ← deref (heap l) (last_ l);
        ASSERT (bool_decide (next e = None))
  end.

(** ** ListIterator<T>: [current] *)

Definition new_ListIterator l : option ptr := first l.
Definition IsDone (it : option ptr) : bool := bool_decide (it = None).
Definition Item h (it : option ptr) : res T :=
  ASSERT (negb (IsDone it));; e ← deref h it; mret (item e).
Definition Next h (it : option ptr) : res (option ptr) := e ← deref h it; mret (next e).

(** [SelfTest] calls [Append] and [SanityCheck], which are virtual:
    [SortedList<T>] overrides them, so they are arguments here. *)
Fixpoint append_all (vAppend : List T -> T -> res (List T)) l (p : list T) : res (List T) :=
  match p with
  | [] => mret l
  | x :: p' =>
      l ← vAppend l x;
      b ← IsInList l x;
      ASSERT b;;
      ASSERT (negb (IsEmpty l));;
      append_all vAppend l p'
  end.

Fixpoint remove_all l (p : list T) : res (List T) :=
  match p with
  | [] => mret l
  | x :: p' =>
      l ← Remove l x;
      b ← IsInList l x;
      ASSERT (negb b);;
      remove_all l p'
  end.

Definition SelfTest_virtual (vAppend : List T -> T -> res (List T))
    (vSanityCheck : List T -> res unit) l (p : list T) : res (List T) :=
  let it := new_ListIterator l in
  vSanityCheck l;;
  ASSERT (IsEmpty l && bool_decide (first l = None));;
  ASSERT (IsDone it);;
  l ← append_all vAppend l p;
  vSanityCheck l;;
  l ← remove_all l p;
  ASSERT (IsEmpty l);;
  vSanityCheck l;;
  mret l.

Definition SelfTest l (p : list T) : res (List T) := SelfTest_virtual Append SanityCheck l p.

(** ** SortedList<T> *)

Context (compare : T -> T -> Z).

(** The [for] loop of [Insert]: [true] when it inserted and returned. *)
Fixpoint Insert_loop (fuel : nat) l (p : option ptr) (elem : ptr) x : res (bool * List T) :=
  match fuel with
  | O => Fail OutOfFuel
  | S f =>
      e ← deref (heap l) p;
      match next e with
      | None => mret (false, l)
      | Some q =>
          en ← deref (heap l) (Some q);
          if compare x (item en) <? 0 then
            h1 ← set_next (heap l) (Some elem) (next e);
            h2 ← set_next h1 p (Some elem);
            mret (true, mkList h2 (first l) (last_ l) (numInList l + 1))
          else Insert_loop f l (Some q) elem x
      end
  end.

Definition Insert l x : res (List T) :=
  let '(p, h) := new_ListElement x (heap l) in
  let l := mkList h (first l) (last_ l) (numInList l) in
  b ← IsInList l x;
  ASSERT (negb b);;
  '(returned, l') ←
    (if IsEmpty l then mret (false, mkList h (Some p) (Some p) (numInList l))
     else
       e ← deref h (first l);
       if compare x (item e) <? 0 then
         h' ← set_next h (Some p) (first l);
         mret (false, mkList h' (Some p) (last_ l) (numInList l))
       else
         '(r, l') ← Insert_loop (fuel_of h) l (first l) p x;
         if (r : bool) then mret (true, l')
         else
           h' ← set_next (heap l') (last_ l') (Some p);
           mret (false, mkList h' (first l') (Some p) (numInList l')));
  if (returned : bool) then mret l'
  else
    let l' := mkList (heap l') (first l') (last_ l') (numInList l' + 1) in
    b ← IsInList l' x;
    ASSERT b;;
    mret l'.

Fixpoint sorted_check (fuel : nat) h (prev : T) (p : option ptr) : res unit :=
  match fuel with
  | O => Fail OutOfFuel
  | S f =>
      match p with
      | None => mret tt
      | Some _ =>
          e ← deref h p;
          ASSERT (compare prev (item e) <=? 0);;
          sorted_check f h (item e) (next e)
      end
  end.

Definition Sorted_SanityCheck l : res unit :=
  SanityCheck l;;
  if bool_decide (first l = last_ l) then mret tt
  else
    e ← deref (heap l) (first l);
    sorted_check (fuel_of (heap l)) (heap l) (item e) (next e).

Fixpoint insert_all l (p : list T) : res (List T) :=
  match p with
  | [] => mret l
  | x :: p' => l ← Insert l x; b ← IsInList l x; ASSERT b;; insert_all l p'
  end.

Fixpoint drain (n : nat) l : res (list T * List T) :=
  match n with
  | O => mret ([], l)
  | S n' =>
      '(x, l) ← RemoveFront l;
      b ← IsInList l x;
      ASSERT (negb b);;
      '(q, l) ← drain n' l;
      mret (x :: q, l)
  end.

Fixpoint in_order (q : list T) : res unit :=
  match q with
  | x :: ((y :: _) as q') => ASSERT (compare x y <=? 0);; in_order q'
  | _ => mret tt
  end.

(** The private [Prepend] and [Append] of [SortedList] both insert. *)
Definition Sorted_Append l x : res (List T) := Insert l x.

Definition Sorted_SelfTest l (p : list T) : res (List T) :=
  l ← SelfTest_virtual Sorted_Append Sorted_SanityCheck l p;
  l ← insert_all l p;
  Sorted_SanityCheck l;;
  '(q, l) ← drain (length p) l;
  ASSERT (IsEmpty l);;
  in_order q;;
  Sorted_SanityCheck l;;
  mret l.

End Lists.

(** ** The represented sequence *)

Section Representation.
Context {T : Type}.
Implicit Types (h : gmap ptr (ListElement T)).

(** [lseg h p ps xs q]: following [next] from [p], the elements [ps] hold the
    items [xs], and the pointer after them is [q]. *)
Inductive lseg h : option ptr -> list ptr -> list T -> option ptr -> Prop :=
  | lseg_nil q : lseg h q [] [] q
  | lseg_cons p e ps xs q :
      h !! p = Some e -> lseg h (next e) ps xs q ->
      lseg h (Some p) (p :: ps) (item e :: xs) q.

Record list_shape (l : List T) (ps : list ptr) (xs : list T) : Prop := {
  shape_chain : lseg (heap l) (first l) ps xs None;
  shape_nodup : NoDup ps;
  shape_last : last_ l = last ps;
  shape_num : numInList l = Z.of_nat (length xs);
  shape_dom : dom (heap l) = list_to_set ps
}.

Definition list_repr (l : List T) (xs : list T) : Prop := exists ps, list_shape l ps xs.

Lemma lseg_app h p ps1 ps2 xs1 xs2 m q :
  lseg h p ps1 xs1 m -> lseg h m ps2 xs2 q -> lseg h p (ps1 ++ ps2) (xs1 ++ xs2) q.
Proof. induction 1; simpl; [done | ]. intros. econstructor; eauto. Qed.

Lemma lseg_split h p ps1 ps2 xs q :
  lseg h p (ps1 ++ ps2) xs q ->
  exists xs1 xs2 m, xs = xs1 ++ xs2 /\ lseg h p ps1 xs1 m /\ lseg h m ps2 xs2 q.
Proof.
  revert p xs. induction ps1 as [ | r ps1 IH]; intros p xs H; simpl in *.
  - exists [], xs, p. split_and!; [done | constructor | done].
  - inversion H as [ | ? e ? xs' ? He Hseg]; subst.
    destruct (IH _ _ Hseg) as (xs1 & xs2 & m & -> & H1 & H2).
    exists (item e :: xs1), xs2, m. split_and!; [done | by constructor | done].
Qed.

Lemma lseg_length h p ps xs q : lseg h p ps xs q -> length ps = length xs.
Proof. induction 1; simpl; congruence. Qed.

(** Only the elements on the path matter. *)
Lemma lseg_frame h h' p ps xs q :
  lseg h p ps xs q -> (forall r, r ∈ ps -> h' !! r = h !! r) -> lseg h' p ps xs q.
Proof.
  induction 1 as [ | p e ps xs q He Hseg IH]; intros Hag; [constructor | ].
  constructor; [rewrite Hag by set_solver; done | ]. apply IH. set_solver.
Qed.

Lemma lseg_insert_ne h r e p ps xs q :
  lseg h p ps xs q -> r ∉ ps -> lseg (<[r := e]> h) p ps xs q.
Proof.
  intros H Hr. eapply lseg_frame; [done | ]. intros s Hs.
  apply lookup_insert_ne. by intros ->.
Qed.

Lemma lseg_delete h r p ps xs q :
  lseg h p ps xs q -> r ∉ ps -> lseg (delete r h) p ps xs q.
Proof.
  intros H Hr. eapply lseg_frame; [done | ]. intros s Hs.
  apply lookup_delete_ne. by intros ->.
Qed.

Lemma lseg_one h r e q : h !! r = Some e -> next e = q -> lseg h (Some r) [r] [item e] q.
Proof. intros He <-. econstructor; [done | constructor]. Qed.

Lemma lseg_in_heap h p ps xs q r : lseg h p ps xs q -> r ∈ ps -> is_Some (h !! r).
Proof.
  induction 1 as [ | p e ps xs q He Hseg IH]; [by intros ?%elem_of_nil | ].
  intros [-> | Hin]%elem_of_cons; [by eexists | by apply IH].
Qed.

Lemma lseg_size h p ps xs q : lseg h p ps xs q -> NoDup ps -> (length ps <= size h)%nat.
Proof.
  intros Hseg Hnd. rewrite <- (size_list_to_set (C := gset ptr) ps), <- size_dom by done.
  apply subseteq_size. intros r Hr%elem_of_list_to_set. apply elem_of_dom.
  by eapply lseg_in_heap.
Qed.

Lemma lseg_nil_inv h p xs q : lseg h p [] xs q -> xs = [] /\ p = q.
Proof. by inversion 1. Qed.

Lemma lseg_cons_inv h p r ps xs q :
  lseg h p (r :: ps) xs q ->
  exists e xs', p = Some r /\ xs = item e :: xs' /\ h !! r = Some e /\ lseg h (next e) ps xs' q.
Proof. inversion 1; subst. by eexists _, _. Qed.

(** A segment that ends in NULL starts at NULL exactly when it is empty. *)
Lemma lseg_None h ps xs q : lseg h None ps xs q -> ps = [] /\ xs = [] /\ q = None.
Proof. by inversion 1. Qed.

Lemma shape_empty l ps xs : list_shape l ps xs -> IsEmpty l = bool_decide (xs = []).
Proof.
  intros [_ _ _ Hn _]. unfold IsEmpty. rewrite Hn. destruct xs; simpl; [done | ].
  apply Z.eqb_neq. lia.
Qed.
End Representation.

(** ** Each method against the sequence *)

Section Refinement.
Context {T : Type} `{EqDecision T}.
Implicit Types (h : gmap ptr (ListElement T)) (l : List T) (x : T) (xs : list T).

Lemma deref_Some h p e : h !! p = Some e -> deref h (Some p) = Ok e.
Proof. intros H. simpl. by rewrite H. Qed.

Lemma set_next_Some h p e q :
  h !! p = Some e -> set_next h (Some p) q = Ok (<[p := mkElement q (item e)]> h).
Proof. intros H. simpl. by rewrite H. Qed.

Lemma IsInList_loop_spec fuel h p ps xs x :
  lseg h p ps xs None -> (length ps < fuel)%nat ->
  IsInList_loop fuel h p x = Ok (bool_decide (x ∈ xs)).
Proof.
  revert p ps xs. induction fuel as [ | f IH]; intros p ps xs Hseg Hlen; [lia | ].
  inversion Hseg as [q | p' e ps' xs' q He Hseg']; subst; simpl.
  - done.
  - rewrite He. rsimp. case_bool_decide as Ex.
    + rewrite bool_decide_eq_true_2 by (rewrite elem_of_cons; auto). done.
    + rewrite (IH _ _ _ Hseg') by (simpl in Hlen; lia). f_equal.
      apply bool_decide_ext. rewrite elem_of_cons. tauto.
Qed.

Lemma IsInList_spec h p la n ps xs x :
  lseg h p ps xs None -> NoDup ps ->
  IsInList (mkList h p la n) x = Ok (bool_decide (x ∈ xs)).
Proof.
  intros Hseg Hnd. apply IsInList_loop_spec with ps; [done | ].
  simpl. unfold fuel_of. pose proof (lseg_size _ _ _ _ _ Hseg Hnd). lia.
Qed.

Lemma shape_IsInList l ps xs x :
  list_shape l ps xs -> IsInList l x = Ok (bool_decide (x ∈ xs)).
Proof. destruct l. intros [? ? _ _ _]. by eapply IsInList_spec. Qed.

Lemma fresh_notin h ps : dom h = list_to_set ps -> fresh (dom h) ∉ ps.
Proof.
  intros Hd Hin. apply (is_fresh (dom h)). rewrite Hd at 2. by apply elem_of_list_to_set.
Qed.

Lemma fresh_None h : h !! fresh (dom h) = None.
Proof. apply not_elem_of_dom, is_fresh. Qed.

(** A list with items after allocating a new element that is not linked yet. *)
Lemma shape_alloc l ps xs x :
  list_shape l ps xs ->
  let p := fresh (dom (heap l)) in
  let h := <[p := mkElement None x]> (heap l) in
  (p ∉ ps) /\ lseg h (first l) ps xs None /\
  forall y, IsInList (mkList h (first l) (last_ l) (numInList l)) y = Ok (bool_decide (y ∈ xs)).
Proof.
  intros [Hc Hnd Hla Hn Hd] p h. assert (p ∉ ps) as Hp by by apply fresh_notin.
  assert (lseg h (first l) ps xs None) by by apply lseg_insert_ne.
  split_and!; [done | done | ]. intros y. by eapply IsInList_spec.
Qed.

Lemma last_snoc_inv {A} (zs : list A) y : last zs = Some y -> exists zs', zs = zs' ++ [y].
Proof. intros H. apply last_Some in H as [zs' ->]. by exists zs'. Qed.

Lemma shape_nonempty l ps xs :
  list_shape l ps xs -> xs <> [] ->
  exists ps0 q xs0 y e, ps = ps0 ++ [q] /\ xs = xs0 ++ [y] /\ last_ l = Some q /\
    lseg (heap l) (first l) ps0 xs0 (Some q) /\ heap l !! q = Some e /\ next e = None /\
    item e = y /\ (q ∉ ps0).
Proof.
  intros [Hc Hnd Hla Hn Hd] Hne.
  destruct (last ps) as [q | ] eqn:El.
  - apply last_snoc_inv in El as [ps0 ->].
    apply lseg_split in Hc as (xs0 & xs1 & m & -> & H1 & H2).
    apply lseg_cons_inv in H2 as (e & xs' & -> & -> & He & H3).
    apply lseg_nil_inv in H3 as [-> Hnx].
    exists ps0, q, xs0, (item e), e. split_and!; try done.
    apply NoDup_app in Hnd as (_ & Hd' & _). intros Hq. apply (Hd' q Hq). set_solver.
  - apply last_None in El as ->. apply lseg_nil_inv in Hc as [-> _]. done.
Qed.

(** Linking the fresh element [p] into the structure: alone, in front, at the
    end, and after [pr]. *)
Lemma link_single l x (p := fresh (dom (heap l))) :
  list_shape l [] [] ->
  list_shape (mkList (<[p := mkElement None x]> (heap l)) (Some p) (Some p) (numInList l + 1))
    [p] [x].
Proof.
  intros [_ _ _ Hn Hd]. split; simpl; try done.
  - apply (lseg_one _ p (mkElement None x)); [apply lookup_insert_eq | done].
  - apply NoDup_singleton.
  - by rewrite Hn.
  - rewrite dom_insert_L, Hd. set_solver.
Qed.

Lemma link_first l ps xs x (p := fresh (dom (heap l))) :
  list_shape l ps xs -> xs <> [] ->
  list_shape (mkList (<[p := mkElement (first l) x]> (heap l)) (Some p) (last_ l) (numInList l + 1))
    (p :: ps) (x :: xs).
Proof.
  intros Hs Hne. assert (p ∉ ps) by apply fresh_notin, Hs. split; simpl.
  - apply (lseg_cons _ p (mkElement (first l) x)); [apply lookup_insert_eq | ].
    apply lseg_insert_ne; [apply Hs | done].
  - constructor; [done | apply Hs].
  - destruct (shape_nonempty _ _ _ Hs Hne) as (ps0 & q & xs0 & y & e & -> & _ & Hla & _).
    by rewrite Hla, app_comm_cons, last_snoc.
  - rewrite (shape_num _ _ _ Hs). lia.
  - by rewrite dom_insert_L, (shape_dom _ _ _ Hs).
Qed.

Lemma link_last l ps xs x (p := fresh (dom (heap l))) (h := <[p := mkElement None x]> (heap l)) :
  list_shape l ps xs -> xs <> [] ->
  exists h', set_next h (last_ l) (Some p) = Ok h' /\
    list_shape (mkList h' (first l) (Some p) (numInList l + 1)) (ps ++ [p]) (xs ++ [x]).
Proof.
  intros Hs Hne. assert (Hp : p ∉ ps) by apply fresh_notin, Hs.
  destruct (shape_nonempty _ _ _ Hs Hne) as (ps0 & q & xs0 & y & e & -> & -> & Hla & H1 & Hq & Hnx & Hy & Hnq).
  assert (p <> q) by set_solver.
  rewrite Hla. erewrite set_next_Some by (unfold h; rewrite lookup_insert_ne by done; exact Hq).
  set (h' := <[q := mkElement (Some p) (item e)]> h). exists h'. split; [done | ].
  split; simpl.
  - eapply lseg_app with (m := Some p).
    + eapply lseg_app with (m := Some q).
      * apply lseg_insert_ne; [ | done]. apply lseg_insert_ne; [done | set_solver].
      * rewrite <- Hy. apply (lseg_one h' q (mkElement (Some p) (item e)));
          [apply lookup_insert_eq | done].
    + apply (lseg_one h' p (mkElement None x)); [ | done].
      unfold h'. rewrite lookup_insert_ne by done. apply lookup_insert_eq.
  - apply NoDup_app. split_and!; [apply Hs | set_solver | apply NoDup_singleton].
  - by rewrite last_snoc.
  - rewrite (shape_num _ _ _ Hs), !length_app. simpl. lia.
  - unfold h', h. rewrite !dom_insert_L, (shape_dom _ _ _ Hs). set_solver.
Qed.

Lemma shape_middle l ps1 pr ps2 xs1 y xs2 :
  list_shape l (ps1 ++ pr :: ps2) (xs1 ++ y :: xs2) -> length ps1 = length xs1 ->
  exists e, heap l !! pr = Some e /\ item e = y /\
    lseg (heap l) (first l) ps1 xs1 (Some pr) /\ lseg (heap l) (next e) ps2 xs2 None.
Proof.
  intros Hs Hlen.
  destruct (lseg_split _ _ _ _ _ _ (shape_chain _ _ _ Hs)) as (xa & xb & m & Hxs & H1 & H2).
  apply app_inj_1 in Hxs as [<- <-]; [ | rewrite <- Hlen; by eapply lseg_length].
  apply lseg_cons_inv in H2 as (e & xs'' & -> & [= -> <-] & Hpr & H2). by exists e.
Qed.

Lemma link_after l ps1 pr ps2 xs1 y xs2 e x (p := fresh (dom (heap l))) :
  list_shape l (ps1 ++ pr :: ps2) (xs1 ++ y :: xs2) -> length ps1 = length xs1 -> xs2 <> [] ->
  heap l !! pr = Some e ->
  list_shape
    (mkList (<[pr := mkElement (Some p) y]> (<[p := mkElement (next e) x]> (heap l)))
       (first l) (last_ l) (numInList l + 1))
    (ps1 ++ pr :: p :: ps2) (xs1 ++ y :: x :: xs2).
Proof.
  intros Hs Hlen Hne He. assert (Hp : p ∉ ps1 ++ pr :: ps2) by apply fresh_notin, Hs.
  destruct (shape_middle _ _ _ _ _ _ _ Hs Hlen) as (e' & He' & Hy & H1 & H2).
  rewrite He in He'. injection He' as <-.
  destruct Hs as [_ Hnd Hla Hn Hd].
  apply NoDup_app in Hnd as (Hnd1 & Hdis & Hnd2). apply NoDup_cons in Hnd2 as [Hpr Hnd2].
  assert (p <> pr) by set_solver. assert (p ∉ ps1) by set_solver. assert (p ∉ ps2) by set_solver.
  split; simpl.
  - eapply lseg_app.
    + apply lseg_insert_ne; [apply lseg_insert_ne | ]; [done | done | ].
      intros ?. eapply Hdis; set_solver.
    + apply (lseg_cons _ pr (mkElement (Some p) y)); [apply lookup_insert_eq | ].
      apply (lseg_cons _ p (mkElement (next e) x)).
      * rewrite lookup_insert_ne by done. apply lookup_insert_eq.
      * apply lseg_insert_ne; [apply lseg_insert_ne | ]; done.
  - apply NoDup_app. split_and!; [done | set_solver | ].
    repeat (apply NoDup_cons; split; [set_solver | ]). done.
  - rewrite Hla, !last_app. simpl. destruct ps2; [ | done].
    by apply lseg_nil_inv in H2 as [-> _].
  - rewrite Hn, !length_app. simpl. lia.
  - rewrite !dom_insert_L, Hd. set_solver.
Qed.

Lemma shape_nil l ps : list_shape l ps [] -> ps = [].
Proof. intros Hs. apply nil_length_inv. by erewrite lseg_length by apply Hs. Qed.

Lemma Append_repr l xs x :
  list_repr l xs -> x ∉ xs ->
  exists l', Append l x = Ok l' /\ list_repr l' (xs ++ [x]).
Proof.
  intros [ps Hs] Hx. unfold Append, new_ListElement.
  destruct (shape_alloc l ps xs x Hs) as (_ & _ & Hin).
  rewrite Hin, bool_decide_eq_false_2 by done. rsimp. cbn [negb].
  unfold IsEmpty. cbn [numInList]. fold (IsEmpty l). rewrite (shape_empty _ _ _ Hs).
  case_bool_decide as He.
  - subst xs. rewrite (shape_nil _ _ Hs) in Hs. rsimp. cbn [heap first last_ numInList].
    erewrite shape_IsInList by (by apply link_single). rewrite bool_decide_eq_true_2 by set_solver.
    eexists. split; [done | ]. eexists. by apply link_single.
  - cbn [last_ first]. destruct (link_last l ps xs x Hs He) as (h' & -> & Hs'). rsimp.
    cbn [heap first last_ numInList]. erewrite shape_IsInList by done.
    rewrite bool_decide_eq_true_2 by set_solver. eexists. split; [done | by eexists].
Qed.

Lemma Append_dup l xs x :
  list_repr l xs -> x ∈ xs -> Append l x = Fail AssertFail.
Proof.
  intros [ps Hs] Hx. unfold Append, new_ListElement.
  destruct (shape_alloc l ps xs x Hs) as (_ & _ & ->).
  by rewrite bool_decide_eq_true_2 by done.
Qed.

Lemma Prepend_repr l xs x :
  list_repr l xs -> x ∉ xs ->
  exists l', Prepend l x = Ok l' /\ list_repr l' (x :: xs).
Proof.
  intros [ps Hs] Hx. unfold Prepend, new_ListElement.
  destruct (shape_alloc l ps xs x Hs) as (_ & _ & Hin).
  rewrite Hin, bool_decide_eq_false_2 by done. rsimp. cbn [negb].
  unfold IsEmpty. cbn [numInList]. fold (IsEmpty l). rewrite (shape_empty _ _ _ Hs).
  case_bool_decide as He.
  - subst xs. rewrite (shape_nil _ _ Hs) in Hs. rsimp. cbn [heap first last_ numInList].
    erewrite shape_IsInList by (by apply link_single). rewrite bool_decide_eq_true_2 by set_solver.
    eexists. split; [done | ]. eexists. by apply link_single.
  - cbn [last_ first]. erewrite set_next_Some by apply lookup_insert_eq. rsimp.
    rewrite insert_insert_eq. cbn [heap first last_ numInList item].
    pose proof (link_first l ps xs x Hs He) as Hs'. erewrite shape_IsInList by done.
    rewrite bool_decide_eq_true_2 by set_solver. eexists. split; [done | by eexists].
Qed.

Lemma shape_cons l ps x xs :
  list_shape l ps (x :: xs) ->
  exists p ps' e, ps = p :: ps' /\ first l = Some p /\ heap l !! p = Some e /\ item e = x /\
    lseg (heap l) (next e) ps' xs None /\ (p ∉ ps') /\ NoDup ps' /\
    (first l = last_ l <-> xs = []).
Proof.
  intros [Hc Hnd Hla _ _]. destruct ps as [ | p ps'].
  { by apply lseg_nil_inv in Hc as [? _]. }
  apply lseg_cons_inv in Hc as (e & xs' & Hf & [= -> <-] & He & Hseg).
  apply NoDup_cons in Hnd as [Hp Hnd].
  exists p, ps', e. split_and!; try done. rewrite Hf, Hla.
  pose proof (lseg_length _ _ _ _ _ Hseg) as Hlen.
  destruct ps' as [ | q ps''] using rev_ind; [by destruct xs | ].
  rewrite app_comm_cons, last_snoc. split; [intros [= ->]; set_solver | intros ->].
  rewrite length_app in Hlen. simpl in Hlen. lia.
Qed.

Lemma RemoveFront_repr l x xs :
  list_repr l (x :: xs) ->
  exists l', RemoveFront l = Ok (x, l') /\ list_repr l' xs.
Proof.
  intros [ps Hs].
  destruct (shape_cons _ _ _ _ Hs) as (p & ps' & e & -> & Hf & He & Hx & Hseg & Hp & Hnd & Hfl).
  subst x. unfold RemoveFront. rewrite (shape_empty _ _ _ Hs). simpl.
  rsimp. rewrite Hf. erewrite !deref_Some by done. rsimp.
  assert (Hseg' : lseg (delete p (heap l)) (next e) ps' xs None) by by apply lseg_delete.
  assert (Hdom : dom (delete p (heap l)) = list_to_set ps').
  { rewrite dom_delete_L, (shape_dom _ _ _ Hs). set_solver. }
  assert (Hnum : numInList l - 1 = Z.of_nat (length xs)).
  { rewrite (shape_num _ _ _ Hs). simpl. lia. }
  rewrite Hf in Hfl. case_bool_decide as Hlast; rsimp; simpl; rewrite He; rsimp;
    eexists; (split; [done | ]); exists ps'; split; simpl; try done.
  - apply Hfl in Hlast as ->. apply lseg_length in Hseg as Hl. apply nil_length_inv in Hl as ->.
    constructor.
  - apply Hfl in Hlast as ->. apply lseg_length in Hseg as Hl. by apply nil_length_inv in Hl as ->.
  - rewrite (shape_last _ _ _ Hs). destruct ps' as [ | q ps'']; [ | done].
    apply lseg_nil_inv in Hseg as [-> _]. by destruct Hlast; apply Hfl.
Qed.

Lemma RemoveFront_empty l : list_repr l [] -> RemoveFront l = Fail AssertFail.
Proof.
  intros [ps Hs]. unfold RemoveFront.
  by rewrite (shape_empty _ _ _ Hs).
Qed.

(** Unlinking the element after [pr]. *)
Lemma unlink_shape l ps1 pr p ps3 xs1 y e b :
  list_shape l (ps1 ++ pr :: p :: ps3) (xs1 ++ y :: item e :: b) ->
  length ps1 = length xs1 -> heap l !! p = Some e ->
  list_shape
    (mkList (delete p (<[pr := mkElement (next e) y]> (heap l))) (first l)
       (match next e with None => Some pr | Some _ => last_ l end) (numInList l - 1))
    (ps1 ++ pr :: ps3) (xs1 ++ y :: b).
Proof.
  intros Hs Hlen He. destruct Hs as [Hc Hnd Hla Hn Hd].
  apply lseg_split in Hc as (xs1' & xs2 & m & Hxs & H1 & H2).
  apply app_inj_1 in Hxs as [<- <-]; [ | rewrite <- Hlen; by eapply lseg_length].
  apply lseg_cons_inv in H2 as (epr & xs' & -> & [= -> <-] & Hpr & H2).
  apply lseg_cons_inv in H2 as (e' & xs' & Hnx & [= Hit <-] & He' & H3).
  rewrite He in He'. injection He' as <-.
  apply NoDup_app in Hnd as (Hnd1 & Hdis & Hnd2).
  apply NoDup_cons in Hnd2 as [Hpr2 Hnd2]. apply NoDup_cons in Hnd2 as [Hp2 Hnd3].
  split; simpl.
  - eapply lseg_app.
    + apply lseg_delete; [apply lseg_insert_ne | ]; [done | | ]; intros ?; eapply Hdis; set_solver.
    + apply (lseg_cons _ pr (mkElement (next e) (item epr))).
      * rewrite lookup_delete_ne by set_solver. apply lookup_insert_eq.
      * apply lseg_delete; [apply lseg_insert_ne | ]; [done | set_solver | done].
  - apply NoDup_app. split_and!; [done | set_solver | ]. apply NoDup_cons. split; [set_solver | done].
  - destruct ps3 as [ | r ps3].
    + apply lseg_nil_inv in H3 as [_ ->]. by rewrite last_snoc.
    + apply lseg_cons_inv in H3 as (? & ? & -> & _). rewrite Hla.
      rewrite !last_app. simpl. by destruct (last ps3).
  - rewrite Hn, !length_app. simpl. lia.
  - rewrite dom_delete_L, dom_insert_L, Hd. set_solver.
Qed.

Lemma Remove_loop_spec x a : forall fuel l ps1 pr ps2 xs1 y b p,
  list_shape l (ps1 ++ pr :: ps2) (xs1 ++ y :: a ++ x :: b) ->
  length ps1 = length xs1 -> lseg (heap l) p ps2 (a ++ x :: b) None ->
  x ∉ a -> (length a < fuel)%nat ->
  exists l', Remove_loop fuel l (Some pr) p x = Ok (true, l') /\ list_repr l' (xs1 ++ y :: a ++ b).
Proof.
  induction a as [ | z a IH]; intros fuel l ps1 pr ps2 xs1 y b p Hs Hlen Hseg Hx Hf;
    (destruct fuel as [ | f]; [simpl in Hf; lia | ]);
    (destruct ps2 as [ | p' ps3]; [by apply lseg_nil_inv in Hseg as [? _] | ]);
    apply lseg_cons_inv in Hseg as (e & xs' & -> & [= -> <-] & He & Hseg); simpl; rewrite He; rsimp.
  - rewrite bool_decide_eq_true_2 by done.
    destruct (shape_middle _ _ _ _ _ _ _ Hs Hlen) as (epr & Hpr & Hy & _).
    rewrite Hpr. rsimp. rewrite lookup_insert_eq. rsimp. simpl. rewrite Hy.
    assert (p' <> pr) as Hne.
    { pose proof (shape_nodup _ _ _ Hs) as Hnd. apply NoDup_app in Hnd as (_ & _ & Hnd).
      apply NoDup_cons in Hnd as [Hn _]. set_solver. }
    rewrite lookup_insert_ne by done. rewrite He. rsimp.
    eexists. split; [done | ]. eexists. apply unlink_shape with (e := e); try done.
  - rewrite bool_decide_eq_false_2 by set_solver.
    destruct (IH f l (ps1 ++ [pr]) p' ps3 (xs1 ++ [y]) (item e) b (next e)) as (l' & -> & Hr).
    + rewrite <- !app_assoc. done.
    + rewrite !length_app. simpl. lia.
    + done.
    + set_solver.
    + simpl in Hf. lia.
    + exists l'. split; [done | ]. rewrite <- !app_assoc in Hr. done.
Qed.

Lemma shape_fuel l ps xs : list_shape l ps xs -> (length xs < fuel_of (heap l))%nat.
Proof.
  intros [Hc Hnd _ _ _]. unfold fuel_of. pose proof (lseg_size _ _ _ _ _ Hc Hnd).
  apply lseg_length in Hc. lia.
Qed.

Lemma Remove_body_repr l a x b :
  list_repr l (a ++ x :: b) -> x ∉ a ->
  exists l', Remove_body l x = Ok l' /\ list_repr l' (a ++ b).
Proof.
  intros [ps Hs] Ha. unfold Remove_body. destruct a as [ | z a]; simpl in Hs;
    destruct (shape_cons _ _ _ _ Hs) as (p & ps' & e & -> & Hf & He & Hx & Hseg & _);
    rewrite Hf; erewrite deref_Some by done; rsimp.
  - rewrite bool_decide_eq_true_2 by done.
    destruct (RemoveFront_repr l x b) as (l' & -> & Hr); [by eexists | ].
    rsimp. rewrite bool_decide_eq_true_2 by done. by exists l'.
  - rewrite bool_decide_eq_false_2 by set_solver. subst z.
    destruct (Remove_loop_spec x a (fuel_of (heap l)) l [] p ps' [] (item e) b (next e))
      as (l' & -> & Hr); try done.
    + set_solver.
    + pose proof (shape_fuel _ _ _ Hs) as Hfu. simpl in Hfu. rewrite length_app in Hfu. lia.
    + by exists l'.
Qed.

Lemma Remove_repr l a x b :
  list_repr l (a ++ x :: b) -> x ∉ a -> x ∉ b ->
  exists l', Remove l x = Ok l' /\ list_repr l' (a ++ b).
Proof.
  intros [ps Hs] Ha Hb. unfold Remove. rewrite (shape_IsInList _ _ _ _ Hs).
  rewrite bool_decide_eq_true_2 by set_solver. rsimp.
  destruct (Remove_body_repr l a x b) as (l' & -> & [ps' Hs']); [by eexists | done | ].
  rsimp.   rewrite (shape_IsInList _ _ _ _ Hs'), bool_decide_eq_false_2 by set_solver.
  exists l'. split; [done | by eexists].
Qed.

Lemma Remove_missing l xs x : list_repr l xs -> x ∉ xs -> Remove l x = Fail AssertFail.
Proof.
  intros [ps Hs] Hx. unfold Remove. rewrite (shape_IsInList _ _ _ _ Hs).
  by rewrite bool_decide_eq_false_2 by done.
Qed.

Lemma Apply_spec {S} l xs (func : T -> S -> res S) s :
  list_repr l xs ->
  Apply l func s = foldl (fun r x => r ≫= func x) (Ok s) xs.
Proof.
  intros [ps Hs]. unfold Apply. pose proof (shape_fuel _ _ _ Hs) as Hf.
  generalize (fuel_of (heap l)) Hf. clear Hf.
  destruct Hs as [Hc _ _ _ _]. revert Hc. generalize (first l) s. clear s.
  intros p s Hc. revert s. remember (heap l) as h eqn:Eh. remember None as q eqn:Eq.
  revert Eq. induction Hc as [q | p e ps xs q He Hc IH]; intros -> s [ | f] Hf; simpl in *;
    try lia; [done | ].
  rewrite He. rsimp. destruct (func (item e) s) as [s' | ft] eqn:Es; rsimp.
  - apply IH; [done | lia].
  - clear. induction xs; [done | ]. simpl. done.
Qed.

(** ** SanityCheck *)

Lemma last_NoDup {A} (zs1 : list A) r zs2 :
  NoDup (zs1 ++ r :: zs2) -> Some r = last (zs1 ++ r :: zs2) -> zs2 = [].
Proof.
  intros Hnd Hla. destruct zs2 as [ | w zs2 _] using rev_ind; [done | ].
  rewrite app_comm_cons, app_assoc, last_snoc in Hla. injection Hla as ->.
  apply NoDup_app in Hnd as (_ & _ & Hnd). apply NoDup_cons in Hnd as [Hr _].
  set_solver.
Qed.

Lemma SanityCheck_loop_spec l ps xs : list_shape l ps xs ->
  forall xs2 ps1 ps2 p n fuel,
    ps = ps1 ++ ps2 -> lseg (heap l) p ps2 xs2 None -> xs2 <> [] ->
    numInList l = n + Z.of_nat (length xs2) - 1 -> (length xs2 <= fuel)%nat ->
    SanityCheck_loop fuel l p n = Ok (numInList l).
Proof.
  intros Hs. induction xs2 as [ | y xs2 IH]; [done | ].
  intros ps1 ps2 p n fuel Hps Hseg _ Hn Hf. destruct fuel as [ | f]; [simpl in Hf; lia | ].
  destruct ps2 as [ | r ps2]; [by apply lseg_nil_inv in Hseg as [? _] | ].
  apply lseg_cons_inv in Hseg as (e & xs' & -> & [= -> <-] & He & Hseg). simpl.
  pose proof (shape_last _ _ _ Hs) as Hla. rewrite Hps in Hla.
  pose proof (shape_nodup _ _ _ Hs) as Hnd. rewrite Hps in Hnd.
  destruct xs2 as [ | z xs2].
  - apply lseg_length in Hseg as Hl. apply nil_length_inv in Hl as ->.
    rewrite Hla, last_snoc, bool_decide_eq_true_2 by done. simpl in Hn. f_equal. lia.
  - destruct ps2 as [ | r2 ps2]; [by apply lseg_nil_inv in Hseg as [? _] | ].
    rewrite bool_decide_eq_false_2.
    + rewrite He. rsimp. rewrite (proj2 (Z.leb_le _ _)) by (simpl in Hn; lia). rsimp.
      apply (IH (ps1 ++ [r]) (r2 :: ps2)); [by rewrite <- app_assoc | done | done | | ];
        simpl in *; lia.
    + rewrite Hla. intros Heq. by apply (last_NoDup ps1 r (r2 :: ps2)) in Hnd.
Qed.

Lemma SanityCheck_repr l xs : list_repr l xs -> SanityCheck l = Ok tt.
Proof.
  intros [ps Hs]. unfold SanityCheck. destruct xs as [ | x xs].
  - pose proof (shape_nil _ _ Hs) as ->. destruct Hs as [Hc _ Hla Hn _].
    apply lseg_nil_inv in Hc as [_ ->]. by rewrite Hn, Hla.
  - destruct (shape_cons _ _ _ _ Hs) as (p & ps' & e & -> & Hf & He & Hx & Hseg & _ & _ & Hfl).
    destruct (shape_nonempty _ _ _ Hs) as (ps0 & q & xs0 & y & e2 & _ & _ & Hla & _ & Hq & Hnx & _); [done | ].
    rewrite Hf in *. rewrite Hla in Hfl |- *. case_bool_decide as Hone.
    + apply Hfl in Hone as Hxs. subst xs. injection Hone as ->. rewrite He in Hq.
      injection Hq as ->. erewrite deref_Some by done. rsimp.
      rewrite (shape_num _ _ _ Hs), Hnx. done.
    + erewrite (SanityCheck_loop_spec l _ _ Hs (x :: xs) [] (p :: ps')); try done.
      * rsimp. rewrite Z.eqb_refl. rsimp. erewrite deref_Some by done. rsimp. by rewrite Hnx.
      * rewrite <- Hf. apply Hs.
      * rewrite (shape_num _ _ _ Hs). lia.
      * pose proof (shape_fuel _ _ _ Hs). lia.
Qed.

Lemma new_List_repr : list_repr (new_List (T := T)) [].
Proof.
  exists []. split; simpl; [constructor | constructor | done | done | ].
  by rewrite dom_empty_L.
Qed.

Lemma Prepend_dup l xs x : list_repr l xs -> x ∈ xs -> Prepend l x = Fail AssertFail.
Proof.
  intros [ps Hs] Hx. unfold Prepend, new_ListElement.
  destruct (shape_alloc l ps xs x Hs) as (_ & _ & ->).
  by rewrite bool_decide_eq_true_2 by done.
Qed.

Lemma filter_ne_notin x xs : x ∉ xs -> filter (fun y => y <> x) xs = xs.
Proof.
  induction xs as [ | y xs IH]; intros Hx; [done | ].
  rewrite filter_cons_True by set_solver. by rewrite IH by set_solver.
Qed.

Lemma NoDup_split x xs :
  NoDup xs -> x ∈ xs ->
  exists a b, xs = a ++ x :: b /\ (x ∉ a) /\ (x ∉ b) /\ filter (fun y => y <> x) xs = a ++ b.
Proof.
  intros Hnd (a & b & ->)%list_elem_of_split. exists a, b.
  apply NoDup_app in Hnd as (_ & Hab & Hb). apply NoDup_cons in Hb as [Hb _].
  assert (x ∉ a) by set_solver. split_and!; [done.. | ].
  rewrite filter_app, filter_cons_False by (intros ?; done). by rewrite !filter_ne_notin.
Qed.

(** ** SortedList::Insert on sequences *)

Context (compare : T -> T -> Z).

(** Before the first item that compares greater. *)
Fixpoint sorted_insert (x : T) (xs : list T) : list T :=
  match xs with
  | [] => [x]
  | y :: ys => if compare x y <? 0 then x :: y :: ys else y :: sorted_insert x ys
  end.

Lemma sorted_insert_perm x xs : sorted_insert x xs ≡ₚ x :: xs.
Proof.
  induction xs as [ | y ys IH]; simpl; [done | ].
  case_match; [done | ]. rewrite IH. constructor.
Qed.

Lemma sorted_insert_end x xs :
  Forall (fun y => (compare x y <? 0) = false) xs -> sorted_insert x xs = xs ++ [x].
Proof. induction 1 as [ | y ys Hy _ IH]; simpl; [done | ]. by rewrite Hy, IH. Qed.

Lemma Insert_loop_spec x xs2 : forall fuel l ps1 pr ps2 xs1 y,
  let p := fresh (dom (heap l)) in
  let l0 := mkList (<[p := mkElement None x]> (heap l)) (first l) (last_ l) (numInList l) in
  list_shape l (ps1 ++ pr :: ps2) (xs1 ++ y :: xs2) -> length ps1 = length xs1 ->
  (length xs2 < fuel)%nat ->
  (Forall (fun z => (compare x z <? 0) = false) xs2 /\
     Insert_loop compare fuel l0 (Some pr) p x = Ok (false, l0)) \/
  (exists l', Insert_loop compare fuel l0 (Some pr) p x = Ok (true, l') /\
     list_repr l' (xs1 ++ y :: sorted_insert x xs2)).
Proof.
  induction xs2 as [ | z xs2 IH]; intros fuel l ps1 pr ps2 xs1 y p l0 Hs Hlen Hf;
    (destruct fuel as [ | f]; [simpl in Hf; lia | ]);
    destruct (shape_middle _ _ _ _ _ _ _ Hs Hlen) as (e & He & Hy & H1 & H2);
    (assert (Hp : p ∉ ps1 ++ pr :: ps2) by apply fresh_notin, Hs);
    (assert (Hpr : p <> pr) by set_solver); cbn [Insert_loop];
    (assert (Hd : heap l0 !! pr = Some e) by (by simpl; rewrite lookup_insert_ne));
    rewrite (deref_Some _ _ _ Hd); rsimp.
  - left. split; [constructor | ]. apply lseg_length in H2 as Hl.
    apply nil_length_inv in Hl as ->. apply lseg_nil_inv in H2 as [_ ->]. done.
  - destruct ps2 as [ | q ps2]; [by apply lseg_nil_inv in H2 as [? _] | ].
    destruct (lseg_cons_inv _ _ _ _ _ _ H2) as (eq & xs' & Hnx & [= -> <-] & Hq & H3).
    rewrite Hnx. assert (p <> q) by set_solver.
    rewrite (deref_Some _ q eq) by (by unfold l0; cbn [heap]; rewrite lookup_insert_ne). rsimp.
    destruct (compare x (item eq) <? 0) eqn:Ec.
    + right. unfold l0. cbn [heap first last_ numInList].
      rewrite (set_next_Some _ p (mkElement None x)) by apply lookup_insert_eq. rsimp.
      rewrite insert_insert_eq. cbn [item].
      rewrite (set_next_Some _ pr e) by (by rewrite lookup_insert_ne). rsimp.
      eexists. split; [done | ]. simpl. rewrite Ec, Hy, <- Hnx. eexists.
      by apply link_after.
    + destruct (IH f l (ps1 ++ [pr]) q ps2 (xs1 ++ [y]) (item eq)) as [[HF E] | (l' & E & Hr)].
      * by rewrite <- !app_assoc.
      * rewrite !length_app. simpl. lia.
      * simpl in Hf. lia.
      * left. split; [by constructor | done].
      * right. exists l'. split; [done | ]. simpl. rewrite Ec.
        by rewrite <- app_assoc in Hr.
Qed.

Lemma Insert_repr l xs x :
  list_repr l xs -> x ∉ xs ->
  exists l', Insert compare l x = Ok l' /\ list_repr l' (sorted_insert x xs).
Proof.
  intros [ps Hs] Hx. unfold Insert, new_ListElement.
  destruct (shape_alloc l ps xs x Hs) as (_ & Hseg & Hin).
  rewrite Hin, bool_decide_eq_false_2 by done. rsimp. cbn [negb].
  unfold IsEmpty. cbn [numInList]. fold (IsEmpty l). rewrite (shape_empty _ _ _ Hs).
  set (p := fresh (dom (heap l))) in *.
  case_bool_decide as He.
  - subst xs. rewrite (shape_nil _ _ Hs) in Hs. rsimp. cbn [heap first last_ numInList].
    erewrite shape_IsInList by (by apply link_single). rewrite bool_decide_eq_true_2 by set_solver.
    eexists. split; [done | ]. eexists. by apply link_single.
  - destruct xs as [ | y xs]; [done | ].
    destruct (shape_cons _ _ _ _ Hs) as (r & ps' & e & -> & Hf & He' & Hy & H2 & _).
    assert (p ∉ r :: ps') by apply fresh_notin, Hs. assert (p <> r) by set_solver.
    cbn [heap first last_ numInList]. rewrite Hf.
    rewrite (deref_Some _ r e) by (by rewrite lookup_insert_ne). rsimp. rewrite Hy. cbn [sorted_insert].
    destruct (compare x y <? 0) eqn:Ec.
    + rewrite (set_next_Some _ p (mkElement None x)) by apply lookup_insert_eq. rsimp. rewrite insert_insert_eq. rsimp. cbn [item heap first last_ numInList].
      pose proof (link_first l _ _ x Hs He) as Hs'. rewrite Hf in Hs'.
      erewrite shape_IsInList by done.
      rewrite bool_decide_eq_true_2 by set_solver. eexists. split; [done | by eexists].
    + destruct (Insert_loop_spec x xs (fuel_of (<[p := mkElement None x]> (heap l))) l [] r ps' [] y)
        as [[HF E] | (l' & E & Hr)]; try done.
      { pose proof (lseg_size _ _ _ _ _ Hseg (shape_nodup _ _ _ Hs)) as Hsz.
        rewrite (lseg_length _ _ _ _ _ (shape_chain _ _ _ Hs)) in Hsz. unfold fuel_of.
        fold p in Hsz. simpl in Hsz. lia. }
      * fold p in E. rewrite Hf in E. rewrite E. rsimp. cbn [heap first last_ numInList].
        destruct (link_last l _ _ x Hs He) as (h' & Eh & Hs'). fold p in Eh, Hs'.
        rewrite Hf in Hs'. rewrite Eh. rsimp. cbn [heap first last_ numInList].
        erewrite shape_IsInList by done. rewrite bool_decide_eq_true_2 by set_solver.
        eexists. split; [done | ]. eexists. rewrite sorted_insert_end by done. done.
      * fold p in E. rewrite Hf in E. rewrite E. rsimp. by eexists.
Qed.

Lemma Insert_dup l xs x :
  list_repr l xs -> x ∈ xs -> Insert compare l x = Fail AssertFail.
Proof.
  intros [ps Hs] Hx. unfold Insert, new_ListElement.
  destruct (shape_alloc l ps xs x Hs) as (_ & _ & ->).
  by rewrite bool_decide_eq_true_2 by done.
Qed.

End Refinement.

(** ** Sequences of method calls *)

Section Runs.
Context {T : Type} `{EqDecision T} (compare : T -> T -> Z).
Implicit Types (l : List T) (x : T) (xs : list T).

(** A call of a state-changing method: of [List<T>], and [Insert] of
    [SortedList<T>]. *)
Inductive list_call :=
  | CAppend (x : T)
  | CPrepend (x : T)
  | CInsert (x : T)
  | CRemove (x : T)
  | CRemoveFront.

Definition list_exec (c : list_call) l : res (option T * List T) :=
  match c with
  | CAppend x => l' ← Append l x; mret (None, l')
  | CPrepend x => l' ← Prepend l x; mret (None, l')
  | CInsert x => l' ← Insert compare l x; mret (None, l')
  | CRemove x => l' ← Remove l x; mret (None, l')
  | CRemoveFront => '(x, l') ← RemoveFront l; mret (Some x, l')
  end.

(** What the call means on a sequence without repetitions; [None] where the
    code's assertions stop the program. *)
Definition list_spec (c : list_call) xs : option (option T * list T) :=
  match c with
  | CAppend x => if bool_decide (x ∈ xs) then None else Some (None, xs ++ [x])
  | CPrepend x => if bool_decide (x ∈ xs) then None else Some (None, x :: xs)
  | CInsert x => if bool_decide (x ∈ xs) then None else Some (None, sorted_insert compare x xs)
  | CRemove x => if bool_decide (x ∈ xs) then Some (None, filter (fun y => y <> x) xs) else None
  | CRemoveFront => match xs with [] => None | x :: xs' => Some (Some x, xs') end
  end.

Fixpoint list_exec_all (cs : list list_call) l : res (list (option T) * List T) :=
  match cs with
  | [] => mret ([], l)
  | c :: cs' =>
      '(o, l) ← list_exec c l; '(os, l) ← list_exec_all cs' l; mret (o :: os, l)
  end.

Fixpoint list_spec_all (cs : list list_call) xs : option (list (option T) * list T) :=
  match cs with
  | [] => Some ([], xs)
  | c :: cs' =>
      '(o, xs) ← list_spec c xs; '(os, xs) ← list_spec_all cs' xs; Some (o :: os, xs)
  end.

Lemma list_spec_NoDup c xs o xs' : NoDup xs -> list_spec c xs = Some (o, xs') -> NoDup xs'.
Proof.
  intros Hnd. destruct c; simpl; repeat case_bool_decide; try case_match; intros; simplify_eq.
  - apply NoDup_app. split_and!; [done | set_solver | apply NoDup_singleton].
  - by constructor.
  - rewrite sorted_insert_perm. by constructor.
  - by apply NoDup_filter.
  - by apply NoDup_cons in Hnd as [_ ?].
Qed.

(** One call: the same answer, or the assertion the specification predicts. *)
Lemma list_exec_spec c l xs :
  list_repr l xs -> NoDup xs ->
  match list_spec c xs with
  | Some (o, xs') => exists l', list_exec c l = Ok (o, l') /\ list_repr l' xs'
  | None => list_exec c l = Fail AssertFail
  end.
Proof.
  intros Hr Hnd. destruct c as [x | x | x | x | ]; simpl; try case_bool_decide.
  - by erewrite Append_dup.
  - destruct (Append_repr l xs x) as (l' & -> & H'); eauto.
  - by erewrite Prepend_dup.
  - destruct (Prepend_repr l xs x) as (l' & -> & H'); eauto.
  - by erewrite Insert_dup.
  - destruct (Insert_repr compare l xs x) as (l' & -> & H'); eauto.
  - destruct (NoDup_split x xs) as (a & b & -> & Ha & Hb & ->); [done.. | ].
    destruct (Remove_repr l a x b) as (l' & -> & H'); eauto.
  - by erewrite Remove_missing.
  - destruct xs as [ | x xs]; [by erewrite RemoveFront_empty | ].
    destruct (RemoveFront_repr l x xs) as (l' & -> & H'); eauto.
Qed.

Lemma list_exec_all_spec cs : forall l xs,
  list_repr l xs -> NoDup xs ->
  match list_spec_all cs xs with
  | Some (os, xs') => exists l', list_exec_all cs l = Ok (os, l') /\ list_repr l' xs' /\ NoDup xs'
  | None => list_exec_all cs l = Fail AssertFail
  end.
Proof.
  induction cs as [ | c cs IH]; intros l xs Hr Hnd; simpl; [by exists l | ].
  pose proof (list_exec_spec c l xs Hr Hnd) as Hc.
  destruct (list_spec c xs) as [[o xs1] | ] eqn:E; simpl; [ | by rewrite Hc].
  destruct Hc as (l1 & -> & Hr1). rsimp.
  specialize (IH l1 xs1 Hr1 (list_spec_NoDup _ _ _ _ Hnd E)).
  destruct (list_spec_all cs xs1) as [[os xs'] | ]; simpl; [ | by rewrite IH].
  destruct IH as (l' & -> & Hr' & Hnd'). by exists l'.
Qed.

End Runs.

(** ** Iteration, ordering and the self tests *)

(** What a comparison function passed to [SortedList] must satisfy for the
    list to come out in order. *)
Class TotalCompare {T} (compare : T -> T -> Z) : Prop :=
  compare_total x y : 0 <= compare x y -> compare y x <= 0.

Section SelfTests.
Context {T : Type} `{EqDecision T}.
Implicit Types (l : List T) (x : T) (xs : list T).

(** The loop [for (; !it->IsDone(); it->Next()) ... it->Item() ...]. *)
Fixpoint iterate (fuel : nat) (h : gmap ptr (ListElement T)) (it : option ptr) : res (list T) :=
  if IsDone it then mret []
  else
    match fuel with
    | O => Fail OutOfFuel
    | S f =>
        x ← Item h it;
        it' ← Next h it;
        xs ← iterate f h it';
        mret (x :: xs)
    end.

Lemma iterate_spec fuel h p ps xs :
  lseg h p ps xs None -> (length ps <= fuel)%nat -> iterate fuel h p = Ok xs.
Proof.
  revert p ps xs. induction fuel as [ | f IH]; intros p ps xs Hseg Hlen.
  - destruct ps; simpl in *; [ | lia]. apply lseg_nil_inv in Hseg as [-> ->]. done.
  - inversion Hseg as [ | q e ps' xs' ? He Hseg']; subst; [done | ].
    cbn [iterate]. unfold Item, Next. rewrite (deref_Some _ _ _ He).
    change (IsDone (Some q)) with false. cbn [negb]. rsimp.
    by rewrite (IH _ _ _ Hseg') by (simpl in *; lia).
Qed.

Lemma iterate_repr l xs :
  list_repr l xs -> iterate (fuel_of (heap l)) (heap l) (new_ListIterator l) = Ok xs.
Proof.
  intros [ps Hs]. eapply iterate_spec; [apply Hs | ].
  pose proof (shape_fuel _ _ _ Hs). rewrite (lseg_length _ _ _ _ _ (shape_chain _ _ _ Hs)). lia.
Qed.

Lemma repr_queries l xs :
  list_repr l xs ->
  IsEmpty l = bool_decide (xs = []) /\ NumInList l = to_u32 (Z.of_nat (length xs)) /\
  (forall x, IsInList l x = Ok (bool_decide (x ∈ xs))) /\
  Front l = (match xs with [] => Fail Undefined | x :: _ => Ok x end).
Proof.
  intros [ps Hs]. split_and!.
  - by eapply shape_empty.
  - unfold NumInList. by rewrite (shape_num _ _ _ Hs).
  - intros x. by eapply shape_IsInList.
  - unfold Front. pose proof (shape_chain _ _ _ Hs) as Hc. destruct xs as [ | x xs].
    + rewrite (shape_nil _ _ Hs) in Hc. by apply lseg_nil_inv in Hc as [_ ->].
    + destruct (shape_cons _ _ _ _ Hs) as (p & ps' & e & -> & -> & He & <- & _).
      by erewrite deref_Some.
Qed.

(** The first half of a self test: what a virtual [Append] puts in. *)
Lemma append_all_repr vAppend (ins : T -> list T -> list T) :
  (forall l xs x, list_repr l xs -> x ∉ xs ->
     exists l', vAppend l x = Ok l' /\ list_repr l' (ins x xs)) ->
  (forall x xs, ins x xs ≡ₚ x :: xs) ->
  forall p l xs, list_repr l xs -> NoDup p -> (forall x, x ∈ p -> x ∉ xs) ->
  exists l', append_all vAppend l p = Ok l' /\ list_repr l' (foldl (flip ins) xs p).
Proof.
  intros HA Hperm p. induction p as [ | x p IH]; intros l xs Hr Hnd Hdis; simpl; [by exists l | ].
  apply NoDup_cons in Hnd as [Hx Hnd].
  destruct (HA l xs x Hr) as (l1 & -> & Hr1); [apply Hdis; set_solver | ]. rsimp.
  destruct (repr_queries _ _ Hr1) as (Hemp & _ & Hin & _). rewrite Hin, Hemp. rsimp.
  rewrite (bool_decide_eq_true_2 (x ∈ _)) by (rewrite Hperm; set_solver). rsimp.
  rewrite bool_decide_eq_false_2.
  - rsimp. cbn [negb]. rsimp. apply IH; [done | done | ].
    intros y Hy. rewrite Hperm. specialize (Hdis y). set_solver.
  - intros Heq. specialize (Hperm x xs). rewrite Heq in Hperm.
    by apply Permutation_nil_cons in Hperm.
Qed.

Lemma foldl_ins_perm (ins : T -> list T -> list T) p : forall xs,
  (forall x xs, ins x xs ≡ₚ x :: xs) -> foldl (flip ins) xs p ≡ₚ xs ++ p.
Proof.
  induction p as [ | x p IH]; intros xs Hperm; simpl; [by rewrite app_nil_r | ].
  rewrite IH by done. unfold flip. rewrite Hperm. simpl. by rewrite Permutation_middle.
Qed.

Lemma remove_all_repr p : forall l xs,
  list_repr l xs -> NoDup xs -> xs ≡ₚ p ->
  exists l', remove_all l p = Ok l' /\ list_repr l' [].
Proof.
  induction p as [ | x p IH]; intros l xs Hr Hnd Hp; simpl.
  - apply Permutation_nil_r in Hp as ->. by exists l.
  - destruct (NoDup_split x xs) as (a & b & -> & Ha & Hb & _); [done | rewrite Hp; set_solver | ].
    destruct (Remove_repr l a x b) as (l1 & -> & Hr1); [done.. | ]. rsimp.
    destruct (repr_queries _ _ Hr1) as (_ & _ & Hin & _). rewrite Hin. rsimp.
    rewrite bool_decide_eq_false_2 by set_solver. cbn [negb]. rsimp.
    rewrite <- Permutation_middle in Hp, Hnd. apply (IH _ _ Hr1).
    + by apply NoDup_cons in Hnd as [_ ?].
    + by apply Permutation_cons_inv in Hp.
Qed.

Lemma SelfTest_virtual_repr vAppend vSanityCheck (ins : T -> list T -> list T)
    (good : list T -> Prop) l p :
  (forall l xs x, list_repr l xs -> x ∉ xs ->
     exists l', vAppend l x = Ok l' /\ list_repr l' (ins x xs)) ->
  (forall x xs, ins x xs ≡ₚ x :: xs) ->
  (forall l xs, list_repr l xs -> good xs -> vSanityCheck l = Ok tt) ->
  good [] -> good (foldl (flip ins) [] p) ->
  list_repr l [] -> NoDup p ->
  exists l', SelfTest_virtual vAppend vSanityCheck l p = Ok l' /\ list_repr l' [].
Proof.
  intros HA Hperm HS Hg0 Hg Hr Hnd. unfold SelfTest_virtual.
  rewrite (HS _ _ Hr Hg0). rsimp. destruct (repr_queries _ _ Hr) as (-> & _).
  pose proof Hr as [ps Hs]. pose proof (shape_chain _ _ _ Hs) as Hc.
  rewrite (shape_nil _ _ Hs) in Hc. apply lseg_nil_inv in Hc as [_ Hf].
  unfold new_ListIterator. rewrite Hf. simpl.
  destruct (append_all_repr vAppend ins HA Hperm p l []) as (l1 & -> & Hr1);
    [by exists ps | done | set_solver | ]. rsimp.
  rewrite (HS _ _ Hr1 Hg). rsimp.
  pose proof (foldl_ins_perm ins p [] Hperm) as Hp. simpl in Hp.
  destruct (remove_all_repr p l1 _ Hr1) as (l2 & -> & Hr2); [by rewrite Hp | done | ]. rsimp.
  destruct (repr_queries _ _ Hr2) as (-> & _). simpl. rewrite (HS _ _ Hr2 Hg0). rsimp.
  by exists l2.
Qed.

(** *** SortedList *)

Context (compare : T -> T -> Z) `{!TotalCompare compare}.

Definition ordered (x y : T) : Prop := compare x y <= 0.

Lemma sorted_insert_head x y ys :
  ordered y x -> HdRel ordered y ys -> HdRel ordered y (sorted_insert compare x ys).
Proof.
  intros Hyx Hh. destruct ys as [ | z ys]; simpl; [by constructor | ].
  case_match; constructor; [done | by inversion Hh].
Qed.

Lemma sorted_insert_Sorted x xs :
  Sorted ordered xs -> Sorted ordered (sorted_insert compare x xs).
Proof.
  induction 1 as [ | y ys Hs IH Hh]; simpl; [repeat constructor | ].
  destruct (Z.ltb_spec (compare x y) 0).
  - constructor; [by constructor | ]. constructor. unfold ordered. lia.
  - constructor; [done | ]. apply sorted_insert_head; [ | done].
    by apply compare_total.
Qed.

Lemma foldl_insert_Sorted p : forall xs,
  Sorted ordered xs -> Sorted ordered (foldl (flip (sorted_insert compare)) xs p).
Proof.
  induction p as [ | x p IH]; intros xs Hs; simpl; [done | ].
  by apply IH, sorted_insert_Sorted.
Qed.

Lemma sorted_check_spec fuel h p ps prev xs :
  lseg h p ps xs None -> (length ps < fuel)%nat -> Sorted ordered (prev :: xs) ->
  sorted_check compare fuel h prev p = Ok tt.
Proof.
  revert p ps prev xs. induction fuel as [ | f IH]; intros p ps prev xs Hseg Hlen Hs; [lia | ].
  inversion Hseg as [ | q e ps' xs' ? He Hseg']; subst; [done | ].
  cbn [sorted_check]. rewrite (deref_Some _ _ _ He). rsimp.
  apply Sorted_inv in Hs as [Hs Hh]. apply HdRel_inv in Hh.
  rewrite (proj2 (Z.leb_le _ _) Hh). rsimp.
  apply (IH _ _ _ _ Hseg'); [simpl in *; lia | done].
Qed.

Lemma Sorted_SanityCheck_repr l xs :
  list_repr l xs -> Sorted ordered xs -> Sorted_SanityCheck compare l = Ok tt.
Proof.
  intros Hr Hsort. unfold Sorted_SanityCheck. rewrite (SanityCheck_repr _ _ Hr). rsimp.
  case_bool_decide as Hfl; [done | ]. destruct Hr as [ps Hs].
  destruct xs as [ | x xs].
  - exfalso. apply Hfl. pose proof (shape_chain _ _ _ Hs) as Hc. rewrite (shape_last _ _ _ Hs).
    rewrite (shape_nil _ _ Hs) in Hc |- *. by apply lseg_nil_inv in Hc as [_ ->].
  - destruct (shape_cons _ _ _ _ Hs) as (p & ps' & e & -> & -> & He & Hx & Hseg & _).
    rewrite (deref_Some _ _ _ He). rsimp. eapply sorted_check_spec; [done | | by rewrite Hx].
    pose proof (shape_fuel _ _ _ Hs) as Hf. apply lseg_length in Hseg. simpl in Hf. lia.
Qed.

Lemma insert_all_repr p : forall l xs,
  list_repr l xs -> NoDup p -> (forall x, x ∈ p -> x ∉ xs) ->
  exists l', insert_all compare l p = Ok l' /\
    list_repr l' (foldl (flip (sorted_insert compare)) xs p).
Proof.
  induction p as [ | x p IH]; intros l xs Hr Hnd Hdis; simpl; [by exists l | ].
  apply NoDup_cons in Hnd as [Hx Hnd].
  destruct (Insert_repr compare l xs x Hr) as (l1 & -> & Hr1); [apply Hdis; set_solver | ]. rsimp.
  destruct (repr_queries _ _ Hr1) as (_ & _ & Hin & _). rewrite Hin. rsimp.
  rewrite bool_decide_eq_true_2 by (rewrite sorted_insert_perm; set_solver). rsimp.
  apply IH; [done | done | ].
  intros y Hy. rewrite sorted_insert_perm. specialize (Hdis y). set_solver.
Qed.

Lemma drain_repr xs : forall l,
  list_repr l xs -> NoDup xs ->
  exists l', drain (length xs) l = Ok (xs, l') /\ list_repr l' [].
Proof.
  induction xs as [ | x xs IH]; intros l Hr Hnd; [by exists l | ].
  apply NoDup_cons in Hnd as [Hx Hnd]. simpl.
  destruct (RemoveFront_repr _ _ _ Hr) as (l1 & -> & Hr1). rsimp.
  destruct (repr_queries _ _ Hr1) as (_ & _ & Hin & _). rewrite Hin. rsimp.
  rewrite bool_decide_eq_false_2 by done. cbn [negb]. rsimp.
  destruct (IH l1 Hr1 Hnd) as (l2 & -> & Hr2). rsimp. by exists l2.
Qed.

Lemma in_order_spec q : Sorted ordered q -> in_order compare q = Ok tt.
Proof.
  induction 1 as [ | x q Hs IH Hh]; [done | ]. destruct q as [ | y q]; [done | ].
  apply HdRel_inv in Hh. simpl. rewrite (proj2 (Z.leb_le _ _) Hh). rsimp. apply IH.
Qed.

Lemma Sorted_SelfTest_repr l p :
  list_repr l [] -> NoDup p ->
  exists l', Sorted_SelfTest compare l p = Ok l' /\ list_repr l' [].
Proof.
  intros Hr Hnd. unfold Sorted_SelfTest.
  pose proof (sorted_insert_perm compare) as Hperm.
  pose proof (foldl_insert_Sorted p [] ltac:(constructor)) as Hsort.
  pose proof (foldl_ins_perm _ p [] Hperm) as Hp. simpl in Hp.
  destruct (SelfTest_virtual_repr (Sorted_Append compare) (Sorted_SanityCheck compare)
              (sorted_insert compare) (Sorted ordered) l p) as (l1 & -> & Hr1); try done.
  { apply Insert_repr. }
  { apply Sorted_SanityCheck_repr. }
  rsimp. destruct (insert_all_repr p l1 [] Hr1 Hnd) as (l2 & -> & Hr2); [set_solver | ]. rsimp.
  rewrite (Sorted_SanityCheck_repr _ _ Hr2 Hsort). rsimp.
  rewrite <- (Permutation_length Hp).
  destruct (drain_repr _ l2 Hr2) as (l3 & -> & Hr3); [by rewrite Hp | ]. rsimp.
  destruct (repr_queries _ _ Hr3) as (-> & _). simpl.
  rewrite (in_order_spec _ Hsort). rsimp.
  rewrite (Sorted_SanityCheck_repr _ _ Hr3) by constructor. rsimp. by exists l3.
Qed.

End SelfTests.

(** ** The properties *)

Definition sorted_call {T} (c : list_call (T := T)) : bool :=
  match c with CInsert _ | CRemove _ | CRemoveFront => true | _ => false end.

Section Properties.
Context {T : Type} `{EqDecision T} (compare : T -> T -> Z).

Lemma Sorted_filter (P : T -> Prop) `{forall x, Decision (P x)} xs :
  Transitive (ordered compare) -> Sorted (ordered compare) xs ->
  Sorted (ordered compare) (filter P xs).
Proof.
  intros Htr Hs. apply Sorted_StronglySorted in Hs; [ | done].
  apply StronglySorted_Sorted. induction Hs as [ | x xs Hs IH Hall]; [constructor | ].
  rewrite filter_cons. case_decide; [ | done]. constructor; [done | ].
  apply Forall_forall. intros y Hy. apply list_elem_of_filter in Hy as [_ Hy].
  by eapply Forall_forall in Hall.
Qed.

Lemma list_spec_Sorted c xs o xs' :
  TotalCompare compare -> Transitive (ordered compare) ->
  sorted_call c = true -> Sorted (ordered compare) xs ->
  list_spec compare c xs = Some (o, xs') -> Sorted (ordered compare) xs'.
Proof.
  intros Htot Htr Hc Hs. destruct c; simpl in *; try done;
    try case_bool_decide; try case_match; intros; simplify_eq.
  - by apply sorted_insert_Sorted.
  - by apply Sorted_filter.
  - by apply Sorted_inv in Hs as [? _].
Qed.

Lemma list_spec_all_Sorted cs : forall xs os xs',
  TotalCompare compare -> Transitive (ordered compare) ->
  forallb sorted_call cs = true -> Sorted (ordered compare) xs ->
  list_spec_all compare cs xs = Some (os, xs') -> Sorted (ordered compare) xs'.
Proof.
  induction cs as [ | c cs IH]; simpl; intros xs os xs' Htot Htr Hcs Hs E; [by simplify_eq | ].
  apply andb_true_iff in Hcs as [Hc Hcs].
  destruct (list_spec compare c xs) as [[o xs1] | ] eqn:E1; simpl in E; [ | done].
  destruct (list_spec_all compare cs xs1) as [[os1 xs2] | ] eqn:E2; simpl in E; [ | done].
  simplify_eq. eapply IH; [done.. | | done]. by eapply list_spec_Sorted.
Qed.

(** C15: Every sequence of calls of Append, Prepend, Insert, Remove and
    RemoveFront on a new list returns what the same calls return on a
    sequence without repetitions, and fails an assertion exactly where the
    specification has no result (a duplicate is added, a missing item is
    removed, the front of an empty list is taken).  The list that results
    passes SanityCheck, and IsEmpty, NumInList, IsInList, Front and a loop
    with an iterator agree with the specification's sequence. *)
Theorem list_refines cs :
  match list_spec_all compare cs [] with
  | Some (os, xs) =>
      exists l, list_exec_all compare cs new_List = Ok (os, l) /\ SanityCheck l = Ok tt /\
        IsEmpty l = bool_decide (xs = []) /\ NumInList l = to_u32 (Z.of_nat (length xs)) /\
        (forall x, IsInList l x = Ok (bool_decide (x ∈ xs))) /\
        Front l = (match xs with [] => Fail Undefined | x :: _ => Ok x end) /\
        iterate (fuel_of (heap l)) (heap l) (new_ListIterator l) = Ok xs /\
        (forall S (func : T -> S -> res S) s,
           Apply l func s = foldl (fun r x => r ≫= func x) (Ok s) xs)
  | None => list_exec_all compare cs new_List = Fail AssertFail
  end.
Proof.
  pose proof (list_exec_all_spec compare cs new_List [] new_List_repr (NoDup_nil_2)) as H.
  destruct (list_spec_all compare cs []) as [[os xs] | ]; [ | done].
  destruct H as (l & E & Hr & _). exists l.
  destruct (repr_queries l xs Hr) as (H1 & H2 & H3 & H4).
  split_and!; try done.
  - by eapply SanityCheck_repr.
  - by apply iterate_repr.
  - intros S func s. by apply Apply_spec.
Qed.

(** Where the comparison function is a total preorder, a sorted list
    stays in order under every sequence of its public calls Insert, Remove
    and RemoveFront, so that SortedList::SanityCheck passes after each. *)
Theorem sorted_list_in_order cs os l :
  TotalCompare compare -> Transitive (ordered compare) ->
  forallb sorted_call cs = true ->
  list_exec_all compare cs new_List = Ok (os, l) ->
  exists xs, iterate (fuel_of (heap l)) (heap l) (new_ListIterator l) = Ok xs /\
    Sorted (ordered compare) xs /\ Sorted_SanityCheck compare l = Ok tt.
Proof.
  intros Htot Htr Hcs E.
  pose proof (list_exec_all_spec compare cs new_List [] new_List_repr (NoDup_nil_2)) as H.
  destruct (list_spec_all compare cs []) as [[os' xs] | ] eqn:Es; [ | congruence].
  destruct H as (l' & E' & Hr & _). rewrite E in E'. injection E' as <- <-. exists xs.
  assert (Sorted (ordered compare) xs)
    by (eapply list_spec_all_Sorted; [done.. | constructor | done]).
  split_and!; [by apply iterate_repr | done | by eapply Sorted_SanityCheck_repr].
Qed.

(** The self tests of both list classes pass on a new list for every
    vector of distinct entries (SortedList's for every total comparison) and
    leave the list empty. *)
Theorem list_selftests_pass p :
  TotalCompare compare -> NoDup p ->
  (exists l, SelfTest new_List p = Ok l /\ IsEmpty l = true) /\
  (exists l, Sorted_SelfTest compare new_List p = Ok l /\ IsEmpty l = true).
Proof.
  intros Htot Hnd. split.
  - destruct (SelfTest_virtual_repr Append SanityCheck (fun x xs => xs ++ [x]) (fun _ => True)
                new_List p) as (l & E & Hr); auto using new_List_repr, Append_repr.
    + intros x xs. by rewrite Permutation_app_comm.
    + eauto using SanityCheck_repr.
    + exists l. split; [done | ]. by destruct (repr_queries _ _ Hr) as (-> & _).
  - destruct (Sorted_SelfTest_repr compare new_List p) as (l & E & Hr); auto using new_List_repr.
    exists l. split; [done | ]. by destruct (repr_queries _ _ Hr) as (-> & _).
Qed.

End Properties.

(** lib/libtest.cc [IntCompare]. *)
Definition IntCompare (x y : Z) : Z := if x <? y then -1 else if x =? y then 0 else 1.

#[global] Instance IntCompare_total : TotalCompare IntCompare.
Proof.
  intros x y. unfold IntCompare.
  destruct (Z.ltb_spec x y), (Z.eqb_spec x y), (Z.ltb_spec y x), (Z.eqb_spec y x); lia.
Qed.

#[global] Instance IntCompare_trans : Transitive (ordered IntCompare).
Proof.
  intros x y z. unfold ordered, IntCompare.
  destruct (Z.ltb_spec x y), (Z.eqb_spec x y), (Z.ltb_spec y z), (Z.eqb_spec y z),
    (Z.ltb_spec x z), (Z.eqb_spec x z); lia.
Qed.

(** The list part of [LibSelfTest]: the test vector and both self tests. *)
Definition listTestVector : list Z := [9; 5; 7].

Lemma sorted_list_in_order_witness :
  exists xs, match list_exec_all IntCompare (CInsert <$> listTestVector) new_List with
    | Ok (_, l) =>
        iterate (fuel_of (heap l)) (heap l) (new_ListIterator l) = Ok xs /\
        Sorted (ordered IntCompare) xs /\ Sorted_SanityCheck IntCompare l = Ok tt
    | Fail _ => False
    end.
Proof.
  destruct (list_exec_all IntCompare (CInsert <$> listTestVector) new_List) as [[os l] | f] eqn:E.
  - exact (sorted_list_in_order IntCompare (CInsert <$> listTestVector) os l
             IntCompare_total IntCompare_trans eq_refl E).
  - vm_compute in E. discriminate E.
Defined.

