(* ===== verification/HashTable.v ===== *)
(** * Hash tables (lib/hash.cc, lib/hash.h)

    [HashTable<Key, T>]: an array of [List<T>] buckets that grows by a factor
    of four when its lists get long, and [HashIterator<Key, T>].  The function
    pointers [getKey] and [hash] given to the constructor are arguments of the
    section; [*itemPtr = NULL] of a failed lookup is [None].  Arithmetic of
    type [int] that leaves 32 bits is [Undefined].

    [holds ht m] says that the table holds exactly the finite map [m] from
    keys to items; the theorems show that every method acts on the table as
    the named operation acts on the map. *)

From S2P Require Import Prelude LinkedList.

Definition InitialBuckets : Z := 4.
Definition ResizeRatio : Z := 3.
Definition IncreaseSizeBy : Z := 4.

Record HashTable (T : Type) := mkTable {
  buckets : list (List T);
  numBuckets : Z;
  numItems : Z
}.
Arguments mkTable {T} _ _ _.
Arguments buckets {T} _.
Arguments numBuckets {T} _.
Arguments numItems {T} _.

(** [bucket] and [bucketIter], a pointer to a [ListIterator] or NULL. *)
Record HashIterator := mkHashIterator { bucket : Z; bucketIter : option (option ptr) }.

Section HashTables.
Context {Key T : Type} `{EqDecision Key, EqDecision T}.
Context (getKey : T -> Key) (hash : Key -> Z).
Implicit Types (ht : HashTable T) (key : Key) (x : T).

(** ** HashTable<Key, T> *)

Definition InitBuckets (sz : Z) (items : Z) : HashTable T :=
  mkTable (replicate (Z.to_nat sz) new_List) sz items.

Definition new_HashTable : HashTable T := InitBuckets InitialBuckets 0.

Definition Table_IsEmpty ht : bool := numItems ht =? 0.

(** [delete] of a table: the destructor's assertion. *)
Definition delete_HashTable ht : res unit := ASSERT (Table_IsEmpty ht).

(** [hash(key) % numBuckets] is an unsigned remainder. *)
Definition HashValue ht key : res Z :=
  if numBuckets ht =? 0 then Fail Undefined
  else
    let result := to_i32 (to_u32 (hash key) mod to_u32 (numBuckets ht)) in
    ASSERT ((0 <=? result) && (result <? numBuckets ht));;
    mret result.

(** The loop of [FindInBucket]. *)
Fixpoint Find_loop (fuel : nat) (h : gmap ptr (ListElement T)) (it : option ptr) key
    : res (option T) :=
  if IsDone it then mret None
  else
    match fuel with
    | O => Fail OutOfFuel
    | S f =>
        x ← Item h it;
        if bool_decide (key = getKey x) then mret (Some x)
        else it' ← Next h it; Find_loop f h it' key
    end.

Definition FindInBucket ht (bucket : Z) key : res (option T) :=
  b ← zget (buckets ht) bucket;
  Find_loop (fuel_of (heap b)) (heap b) (new_ListIterator b) key.

Definition Find ht key : res (option T) :=
  bucket ← HashValue ht key; FindInBucket ht bucket key.

Definition IsInTable ht key : res bool :=
  r ← Find ht key; mret (match r with Some _ => true | None => false end).

(** [buckets[HashValue(getKey(item))]->Append(item)] *)
Definition AppendTo ht x : res (HashTable T) :=
  i ← HashValue ht (getKey x);
  b ← zget (buckets ht) i;
  b' ← Append b x;
  bs ← zset (buckets ht) i b';
  mret (mkTable bs (numBuckets ht) (numItems ht)).

(** [for (; !iterator->IsDone(); iterator->Next()) ASSERT(i == HashValue(...))] *)
Fixpoint home_loop (fuel : nat) ht (i : Z) (h : gmap ptr (ListElement T)) (it : option ptr)
    : res unit :=
  if IsDone it then mret tt
  else
    match fuel with
    | O => Fail OutOfFuel
    | S f =>
        x ← Item h it;
        v ← HashValue ht (getKey x);
        ASSERT (i =? v);;
        it' ← Next h it;
        home_loop f ht i h it'
    end.

Definition Table_SanityCheck ht : res unit :=
  numFound ←
    for_up 0 (numBuckets ht) (fun i numFound =>
      b ← zget (buckets ht) i;
      SanityCheck b;;
      home_loop (fuel_of (heap b)) ht i (heap b) (new_ListIterator b);;
      mret (to_i32 (numFound + NumInList b))) 0;
  ASSERT (numItems ht =? numFound).

(** The inner loop of [ReHash]: empties one bucket of the old table. *)
Fixpoint ReHash_loop (fuel : nat) (b : List T) ht : res (HashTable T) :=
  if IsEmpty b then mret ht
  else
    match fuel with
    | O => Fail OutOfFuel
    | S f =>
        '(x, b') ← RemoveFront b;
        ht' ← AppendTo ht x;
        ReHash_loop f b' ht'
    end.

Definition ReHash ht : res (HashTable T) :=
  let oldTable := buckets ht in
  let oldSize := numBuckets ht in
  Table_SanityCheck ht;;
  sz ← int_op (numBuckets ht * IncreaseSizeBy);
  ht ← for_up 0 oldSize (fun i ht =>
         b ← zget oldTable i; ReHash_loop (fuel_of (heap b)) b ht)
       (InitBuckets sz (numItems ht));
  Table_SanityCheck ht;;
  mret ht.

Definition Table_Insert ht x : res (HashTable T) :=
  let key := getKey x in
  b ← IsInTable ht key;
  ASSERT (negb b);;
  if numBuckets ht =? 0 then Fail Undefined
  else
    ht ← (if ResizeRatio <=? Z.quot (numItems ht) (numBuckets ht) then ReHash ht else mret ht);
    ht ← AppendTo ht x;
    n ← int_op (numItems ht + 1);
    let ht := mkTable (buckets ht) (numBuckets ht) n in
    b ← IsInTable ht key;
    ASSERT b;;
    mret ht.

Definition Table_Remove ht key : res (T * HashTable T) :=
  i ← HashValue ht key;
  r ← FindInBucket ht i key;
  match r with
  | None => Fail AssertFail
  | Some x =>
      b ← zget (buckets ht) i;
      b' ← Remove b x;
      bs ← zset (buckets ht) i b';
      n ← int_op (numItems ht - 1);
      let ht := mkTable bs (numBuckets ht) n in
      b ← IsInTable ht key;
      ASSERT (negb b);;
      mret (x, ht)
  end.

Definition Table_Apply {S} ht (func : T -> S -> res S) (s : S) : res S :=
  for_up 0 (numBuckets ht) (fun i s => b ← zget (buckets ht) i; Apply b func s) s.

Fixpoint FullBucket_loop (n : nat) ht (bucket : Z) : res Z :=
  match n with
  | O => mret bucket
  | S n' =>
      b ← zget (buckets ht) bucket;
      if IsEmpty b then FullBucket_loop n' ht (bucket + 1) else mret bucket
  end.

(** [for (; bucket < numBuckets; bucket++)] makes [numBuckets - bucket] turns. *)
Definition FindNextFullBucket ht (bucket : Z) : res Z :=
  FullBucket_loop (Z.to_nat (numBuckets ht - bucket)) ht bucket.

(** ** HashIterator<Key, T> *)

(** The end of the constructor and of [Next]: a [ListIterator] on the bucket. *)
Definition at_bucket ht (bucket : Z) : res HashIterator :=
  if bucket <? numBuckets ht then
    b ← zget (buckets ht) bucket; mret (mkHashIterator bucket (Some (new_ListIterator b)))
  else mret (mkHashIterator bucket None).

Definition new_HashIterator ht : res HashIterator :=
  bucket ← FindNextFullBucket ht 0; at_bucket ht bucket.

Definition Hash_IsDone ht (it : HashIterator) : bool := bucket it =? numBuckets ht.

(** [bucketIter] refers to elements of the bucket the iterator is in. *)
Definition Hash_Item ht (it : HashIterator) : res T :=
  ASSERT (negb (Hash_IsDone ht it));;
  match bucketIter it with
  | None => Fail Undefined
  | Some li => b ← zget (buckets ht) (bucket it); Item (heap b) li
  end.

Definition Hash_Next ht (it : HashIterator) : res HashIterator :=
  match bucketIter it with
  | None => Fail Undefined
  | Some li =>
      b ← zget (buckets ht) (bucket it);
      li' ← Next (heap b) li;
      if IsDone li' then
        bucket ← FindNextFullBucket ht (bucket it + 1);
        at_bucket ht bucket
      else mret (mkHashIterator (bucket it) (Some li'))
  end.

(** The loop [for (; !iter->IsDone(); iter->Next()) ... iter->Item() ...]. *)
Fixpoint hash_iterate (fuel : nat) ht (it : HashIterator) : res (list T) :=
  if Hash_IsDone ht it then mret []
  else
    match fuel with
    | O => Fail OutOfFuel
    | S f =>
        x ← Hash_Item ht it;
        it' ← Hash_Next ht it;
        xs ← hash_iterate f ht it';
        mret (x :: xs)
    end.

(** ** SelfTest *)

Fixpoint table_insert_all ht (p : list T) : res (HashTable T) :=
  match p with
  | [] => mret ht
  | x :: p' =>
      ht ← Table_Insert ht x;
      b ← IsInTable ht (getKey x);
      ASSERT b;;
      ASSERT (negb (Table_IsEmpty ht));;
      table_insert_all ht p'
  end.

Fixpoint table_remove_all ht (p : list T) : res (HashTable T) :=
  match p with
  | [] => mret ht
  | x :: p' =>
      '(y, ht) ← Table_Remove ht (getKey x);
      ASSERT (bool_decide (y = x));;
      table_remove_all ht p'
  end.

Definition Table_SelfTest ht (p : list T) : res (HashTable T) :=
  it ← new_HashIterator ht;
  Table_SanityCheck ht;;
  ASSERT (Table_IsEmpty ht);;
  ASSERT (Hash_IsDone ht it);;
  ht ← table_insert_all ht p;
  ht ← table_remove_all ht p;
  ASSERT (Table_IsEmpty ht);;
  Table_SanityCheck ht;;
  mret ht.

End HashTables.

(** ** The table as a finite map *)

Section Keys.
Context {Key T : Type} `{EqDecision Key} (getKey : T -> Key).
Implicit Types (key : Key) (x : T).

Lemma key_inj xs x y :
  NoDup (getKey <$> xs) -> x ∈ xs -> y ∈ xs -> getKey x = getKey y -> x = y.
Proof.
  intros Hnd Hx Hy E. apply list_elem_of_lookup_1 in Hx as [i Hi], Hy as [j Hj].
  assert (i = j) as ->; [ | by simplify_eq].
  eapply NoDup_lookup; [done | rewrite list_lookup_fmap, Hi; done | ].
  rewrite list_lookup_fmap, Hj. simpl. by rewrite E.
Qed.

(** Looking a key up. *)
Definition lookup_key key xs : option T := head (filter (fun x => getKey x = key) xs).

Lemma lookup_key_Some key xs x :
  NoDup (getKey <$> xs) -> lookup_key key xs = Some x <-> x ∈ xs /\ getKey x = key.
Proof.
  intros Hnd. unfold lookup_key. split.
  - intros [? ?]%head_Some_elem_of%list_elem_of_filter. done.
  - intros [Hx Hk]. destruct (filter (fun x => getKey x = key) xs) as [ | y ys] eqn:E.
    + by destruct (filter_nil_not_elem_of _ _ x E Hk).
    + assert (y ∈ xs /\ getKey y = key) as [Hy Hk'].
      { assert (y ∈ filter (fun x => getKey x = key) xs) as H by (rewrite E; set_solver).
        apply list_elem_of_filter in H. tauto. }
      simpl. f_equal. eapply key_inj; [done.. | congruence].
Qed.

Lemma lookup_key_None key xs : lookup_key key xs = None <-> key ∉ getKey <$> xs.
Proof.
  unfold lookup_key. rewrite head_None, list_elem_of_fmap. split.
  - intros E (x & -> & Hx). by destruct (filter_nil_not_elem_of _ _ x E eq_refl).
  - intros H. destruct (filter (fun x => getKey x = key) xs) as [ | y ys] eqn:E; [done | ]. destruct H.
    assert (y ∈ filter (fun x => getKey x = key) xs) as Hy by (rewrite E; set_solver).
    apply list_elem_of_filter in Hy as [? ?]. by exists y.
Qed.

Lemma lookup_key_cons key x xs :
  lookup_key key (x :: xs) =
    if decide (getKey x = key) then Some x else lookup_key key xs.
Proof. unfold lookup_key. rewrite filter_cons. by case_decide. Qed.

Lemma lookup_key_perm key xs ys :
  NoDup (getKey <$> xs) -> xs ≡ₚ ys -> lookup_key key xs = lookup_key key ys.
Proof.
  intros Hnd Hp. apply option_eq. intros x.
  rewrite !lookup_key_Some by (done || by rewrite <- Hp). by rewrite Hp.
Qed.

End Keys.

Section Representation.
Context {Key T : Type} `{EqDecision Key, EqDecision T}.
Context (getKey : T -> Key) (hash : Key -> Z).
Implicit Types (ht : HashTable T) (key : Key) (x : T) (bs : list (List T)).

(** The bucket of a key in a table of [n] buckets. *)
Definition home (n : Z) key : nat := Z.to_nat (to_u32 (hash key) mod n).

(** An array of [n] buckets that holds the items [xs], each in its bucket. *)
Record stores bs (n : Z) (xs : list T) (xss : list (list T)) : Prop := {
  s_lists : Forall2 list_repr bs xss;
  s_len : n = Z.of_nat (length xss);
  s_home i ys x : xss !! i = Some ys -> x ∈ ys -> home n (getKey x) = i;
  s_items : concat xss ≡ₚ xs;
  s_keys : NoDup (getKey <$> xs)
}.

(** A table that holds the items [xs], with a bound [c] on its size. *)
Record table_ok ht (c : Z) (xs : list T) : Prop := {
  t_stores : exists xss, stores (buckets ht) (numBuckets ht) xs xss;
  t_pos : 0 < numBuckets ht;
  t_num : numItems ht = Z.of_nat (length xs);
  t_items : numItems ht <= c;
  t_size : numBuckets ht <= 4 + 2 * c;
  t_int : c < 2 ^ 29
}.

Lemma table_i32 ht c xs : table_ok ht c xs -> 0 < numBuckets ht < 2 ^ 31.
Proof. intros [_ Hp _ Hi Hs Hc]. pow2. change (2 ^ 29) with 536870912 in Hc. lia. Qed.

Lemma HashValue_home ht key :
  0 < numBuckets ht < 2 ^ 31 -> HashValue hash ht key = Ok (Z.of_nat (home (numBuckets ht) key)).
Proof.
  intros Hn. unfold HashValue, home. destruct (Z.eqb_spec (numBuckets ht) 0); [lia | ].
  rewrite (to_u32_id (numBuckets ht)) by cint.
  pose proof (Z.mod_pos_bound (to_u32 (hash key)) (numBuckets ht) ltac:(lia)) as Hm.
  rewrite to_i32_id by cint.
  rewrite ASSERT_true by (apply andb_true_iff; rewrite Z.leb_le, Z.ltb_lt; lia).
  rsimp. by rewrite Z2Nat.id by lia.
Qed.

Lemma stores_bucket bs n xs xss key :
  stores bs n xs xss -> 0 < n ->
  exists b ys, zget bs (Z.of_nat (home n key)) = Ok b /\ bs !! home n key = Some b /\
    xss !! home n key = Some ys /\ list_repr b ys.
Proof.
  intros Hs Hn. pose proof (s_len _ _ _ _ Hs) as Hl.
  assert (home n key < length xss)%nat as Hlt.
  { unfold home. pose proof (Z.mod_pos_bound (to_u32 (hash key)) n Hn). lia. }
  destruct (lookup_lt_is_Some_2 xss _ Hlt) as [ys Hys].
  destruct (Forall2_lookup_r _ _ _ _ _ (s_lists _ _ _ _ Hs) Hys) as (b & Hb & Hr).
  exists b, ys. split_and!; try done. apply zget_lookup; [lia | ]. by rewrite Nat2Z.id.
Qed.

Lemma stores_elem bs n xs xss i ys x :
  stores bs n xs xss -> xss !! i = Some ys -> x ∈ ys -> x ∈ xs.
Proof.
  intros Hs Hi Hx. rewrite <- (s_items _ _ _ _ Hs). apply list_elem_of_In, in_concat.
  exists ys. split; apply list_elem_of_In; [by eapply list_elem_of_lookup_2 | done].
Qed.

Lemma stores_in_home bs n xs xss x ys :
  stores bs n xs xss -> x ∈ xs -> xss !! home n (getKey x) = Some ys -> x ∈ ys.
Proof.
  intros Hs Hx Hys. rewrite <- (s_items _ _ _ _ Hs) in Hx.
  apply list_elem_of_In, in_concat in Hx as (zs & Hzs & Hx).
  apply list_elem_of_In in Hzs, Hx. apply list_elem_of_lookup_1 in Hzs as [i Hi].
  pose proof (s_home _ _ _ _ Hs i zs x Hi Hx). by simplify_eq.
Qed.

Lemma concat_lookup (xss : list (list T)) i ys :
  xss !! i = Some ys ->
  exists rest, concat xss ≡ₚ ys ++ rest /\ forall zs, concat (<[i := zs]> xss) ≡ₚ zs ++ rest.
Proof.
  intros Hi. exists (concat (take i xss) ++ concat (drop (S i) xss)).
  pose proof (lookup_lt_Some _ _ _ Hi) as Hlt. split.
  - rewrite <- (take_drop_middle xss i ys Hi) at 1. rewrite concat_app. simpl. solve_Permutation.
  - intros zs. rewrite insert_take_drop by done. rewrite concat_app. simpl. solve_Permutation.
Qed.

(** Changing one bucket. *)
Lemma stores_change bs n xs xss i ys :
  stores bs n xs xss -> xss !! i = Some ys ->
  exists rest, xs ≡ₚ ys ++ rest /\
    forall b' zs xs', list_repr b' zs -> (forall x, x ∈ zs -> home n (getKey x) = i) ->
      xs' ≡ₚ zs ++ rest -> NoDup (getKey <$> xs') ->
      stores (<[i := b']> bs) n xs' (<[i := zs]> xss).
Proof.
  intros Hs Hi. destruct (concat_lookup xss i ys Hi) as (rest & E & Hc).
  exists rest. split; [by rewrite <- (s_items _ _ _ _ Hs) | ].
  intros b' zs xs' Hr Hh Hp Hnd. split.
  - apply Forall2_insert; [apply Hs | done].
  - rewrite length_insert. apply Hs.
  - intros j ws x Hj Hx. destruct (decide (j = i)) as [-> | Hne].
    + rewrite list_lookup_insert_eq in Hj by by eapply lookup_lt_Some. simplify_eq. auto.
    + rewrite list_lookup_insert_ne in Hj by done. by eapply Hs.
  - by rewrite Hc, Hp.
  - done.
Qed.

(** Appending to the bucket of the key. *)
Lemma AppendTo_stores ht xs xss x :
  stores (buckets ht) (numBuckets ht) xs xss -> 0 < numBuckets ht < 2 ^ 31 ->
  getKey x ∉ getKey <$> xs ->
  exists bs xss', AppendTo getKey hash ht x = Ok (mkTable bs (numBuckets ht) (numItems ht)) /\
    stores bs (numBuckets ht) (x :: xs) xss'.
Proof.
  intros Hs Hn Hx. unfold AppendTo. rewrite HashValue_home by done. rsimp.
  destruct (stores_bucket _ _ _ _ (getKey x) Hs ltac:(lia)) as (b & ys & -> & Hb & Hys & Hr).
  rsimp. assert (x ∉ ys) as Hnx.
  { intros Hin. apply Hx, list_elem_of_fmap_2. by eapply stores_elem. }
  destruct (Append_repr b ys x Hr Hnx) as (b' & -> & Hr'). rsimp.
  pose proof (lookup_lt_Some _ _ _ Hb).
  rewrite zset_in_range by lia. rsimp. rewrite Nat2Z.id.
  destruct (stores_change _ _ _ _ _ _ Hs Hys) as (rest & E & Hch).
  eexists _, _. split; [done | ]. apply (Hch b' (ys ++ [x])); [done | | | ].
  - intros y [Hy | Hy%list_elem_of_singleton]%elem_of_app; [by eapply Hs | by subst].
  - rewrite E. solve_Permutation.
  - simpl. constructor; [done | apply Hs].
Qed.

Lemma Find_loop_spec key : forall fuel h p ps ys,
  lseg h p ps ys None -> (length ps <= fuel)%nat ->
  Find_loop getKey fuel h p key = Ok (lookup_key getKey key ys).
Proof.
  induction fuel as [ | f IH]; intros h p ps ys Hseg Hlen.
  - destruct ps; simpl in *; [ | lia]. by apply lseg_nil_inv in Hseg as [-> ->].
  - inversion Hseg as [ | q e ps' xs' ? He Hseg']; subst; [done | ].
    cbn [Find_loop]. unfold Item, Next. rewrite (deref_Some _ _ _ He).
    change (IsDone (Some q)) with false. cbn [negb]. rsimp. unfold lookup_key.
    rewrite filter_cons. case_bool_decide; case_decide; try congruence; [done | ].
    eapply IH; [done | simpl in *; lia].
Qed.

Lemma FindInBucket_spec ht b ys key i :
  zget (buckets ht) i = Ok b -> list_repr b ys ->
  FindInBucket getKey ht i key = Ok (lookup_key getKey key ys).
Proof.
  intros E [ps Hs]. unfold FindInBucket. rewrite E. rsimp.
  eapply Find_loop_spec; [apply Hs | ].
  pose proof (shape_fuel _ _ _ Hs). rewrite (lseg_length _ _ _ _ _ (shape_chain _ _ _ Hs)). lia.
Qed.

Lemma lookup_key_home bs n xs xss key ys :
  stores bs n xs xss -> xss !! home n key = Some ys -> lookup_key getKey key ys = lookup_key getKey key xs.
Proof.
  intros Hs Hys. destruct (lookup_key getKey key xs) as [x | ] eqn:E.
  - apply lookup_key_Some in E as [Hx <-]; [ | apply Hs].
    pose proof (stores_in_home _ _ _ _ x ys Hs Hx Hys) as Hin.
    destruct (lookup_key getKey (getKey x) ys) as [y | ] eqn:E'.
    + apply head_Some_elem_of, list_elem_of_filter in E' as [Hk Hy].
      f_equal. eapply key_inj; [apply Hs | by eapply stores_elem | done | done].
    + apply lookup_key_None in E'. destruct E'. by apply list_elem_of_fmap_2.
  - apply lookup_key_None. apply lookup_key_None in E. intros (y & -> & Hy)%list_elem_of_fmap.
    apply E, list_elem_of_fmap_2. by eapply stores_elem.
Qed.

Lemma Find_stores ht xs xss key :
  stores (buckets ht) (numBuckets ht) xs xss -> 0 < numBuckets ht < 2 ^ 31 ->
  Find getKey hash ht key = Ok (lookup_key getKey key xs).
Proof.
  intros Hs Hn. unfold Find. rewrite HashValue_home by done. rsimp.
  destruct (stores_bucket _ _ _ _ key Hs ltac:(lia)) as (b & ys & E & Hb & Hys & Hr).
  rewrite (FindInBucket_spec _ _ _ _ _ E Hr). f_equal. by eapply lookup_key_home.
Qed.

Lemma IsInTable_stores ht xs xss key :
  stores (buckets ht) (numBuckets ht) xs xss -> 0 < numBuckets ht < 2 ^ 31 ->
  IsInTable getKey hash ht key = Ok (bool_decide (key ∈ getKey <$> xs)).
Proof.
  intros Hs Hn. unfold IsInTable. erewrite Find_stores by done. rsimp.
  destruct (lookup_key getKey key xs) as [x | ] eqn:E.
  - apply lookup_key_Some in E as [Hx <-]; [ | apply Hs].
    rewrite bool_decide_eq_true_2; [done | by apply list_elem_of_fmap_2].
  - apply lookup_key_None in E. by rewrite bool_decide_eq_false_2.
Qed.

Lemma stores_perm bs n xs xs' xss : stores bs n xs xss -> xs ≡ₚ xs' -> stores bs n xs' xss.
Proof.
  intros [H1 H2 H3 H4 H5] Hp. split; [done.. | by rewrite <- Hp | by rewrite <- Hp].
Qed.

(** ** SanityCheck *)

Lemma home_loop_spec ht i : 0 < numBuckets ht < 2 ^ 31 -> forall fuel h p ps ys,
  lseg h p ps ys None -> (length ps <= fuel)%nat ->
  (forall x, x ∈ ys -> Z.of_nat (home (numBuckets ht) (getKey x)) = i) ->
  home_loop getKey hash fuel ht i h p = Ok tt.
Proof.
  intros Hn. induction fuel as [ | f IH]; intros h p ps ys Hseg Hlen Hh.
  - destruct ps; simpl in *; [ | lia]. by apply lseg_nil_inv in Hseg as [-> ->].
  - inversion Hseg as [ | q e ps' xs' ? He Hseg']; subst; [done | ].
    cbn [home_loop]. unfold Item, Next. rewrite (deref_Some _ _ _ He).
    change (IsDone (Some q)) with false. cbn [negb]. rsimp.
    rewrite HashValue_home by done. rsimp. rewrite (Hh (item e)) by set_solver.
    rewrite Z.eqb_refl. rsimp. eapply IH; [done | simpl in *; lia | set_solver].
Qed.

Lemma length_concat_take (xss : list (list T)) j ys :
  xss !! j = Some ys ->
  length (concat (take (S j) xss)) = (length (concat (take j xss)) + length ys)%nat /\
  (length (concat (take (S j) xss)) <= length (concat xss))%nat.
Proof.
  intros Hj. split.
  - rewrite (take_S_r _ _ _ Hj), concat_app, length_app. simpl. by rewrite app_nil_r.
  - rewrite <- (take_drop (S j) xss) at 2. rewrite concat_app, length_app. lia.
Qed.

Lemma Table_SanityCheck_stores ht xs xss :
  stores (buckets ht) (numBuckets ht) xs xss -> 0 < numBuckets ht < 2 ^ 31 ->
  numItems ht = Z.of_nat (length xs) -> Z.of_nat (length xs) < 2 ^ 31 ->
  Table_SanityCheck getKey hash ht = Ok tt.
Proof.
  intros Hs Hn Hi Hx. unfold Table_SanityCheck.
  pose proof (s_len _ _ _ _ Hs) as Hl. pose proof (Permutation_length (s_items _ _ _ _ Hs)) as Hc.
  destruct (for_up_inv (fun j k => k = Z.of_nat (length (concat (take (Z.to_nat j) xss))))
    (fun i numFound =>
      b ← zget (buckets ht) i;
      SanityCheck b;;
      home_loop getKey hash (fuel_of (heap b)) ht i (heap b) (new_ListIterator b);;
      mret (to_i32 (numFound + NumInList b))) 0 (numBuckets ht) 0) as (k & -> & ->); try done; [lia | | ].
  - intros j ? Hj ->. destruct (lookup_lt_is_Some_2 xss (Z.to_nat j) ltac:(lia)) as [ys Hys].
    destruct (Forall2_lookup_r _ _ _ _ _ (s_lists _ _ _ _ Hs) Hys) as (b & Hb & Hr).
    rewrite (zget_lookup _ _ _ (proj1 Hj) Hb). rsimp. rewrite (SanityCheck_repr _ _ Hr). rsimp.
    destruct Hr as [ps Hsh]. pose proof (shape_fuel _ _ _ Hsh).
    erewrite home_loop_spec; [ | done | apply Hsh | | intros x Hx'; rewrite (s_home _ _ _ _ Hs _ _ _ Hys Hx'); lia].
    2:{ rewrite (lseg_length _ _ _ _ _ (shape_chain _ _ _ Hsh)). lia. }
    rsimp. eexists. split; [done | ].
    unfold NumInList. rewrite (shape_num _ _ _ Hsh).
    destruct (length_concat_take _ _ _ Hys) as [E1 E2].
    rewrite Z2Nat.inj_add by lia. change (Z.to_nat 1) with 1%nat. rewrite Nat.add_1_r, E1 in *. cint.
  - rsimp. apply ASSERT_true, Z.eqb_eq. rewrite Hi, take_ge by lia. lia.
Qed.

(** ** ReHash *)

Lemma ReHash_loop_spec : forall fuel b ys ht zs xss,
  list_repr b ys -> (length ys <= fuel)%nat ->
  stores (buckets ht) (numBuckets ht) zs xss -> 0 < numBuckets ht < 2 ^ 31 ->
  NoDup (getKey <$> ys ++ zs) ->
  exists bs xss', ReHash_loop getKey hash fuel b ht = Ok (mkTable bs (numBuckets ht) (numItems ht)) /\
    stores bs (numBuckets ht) (ys ++ zs) xss'.
Proof.
  induction fuel as [ | f IH]; intros b ys ht zs xss Hr Hlen Hs Hn Hnd;
    cbn [ReHash_loop]; rewrite (proj1 (repr_queries _ _ Hr)).
  - destruct ys; [ | simpl in *; lia]. simpl. destruct ht. eauto.
  - destruct ys as [ | y ys]; simpl; [destruct ht; by eauto | ].
    destruct (RemoveFront_repr b y ys Hr) as (b' & -> & Hr'). rsimp.
    rewrite <- app_comm_cons, fmap_cons, fmap_app in Hnd. apply NoDup_cons in Hnd as [Hy Hnd].
    destruct (AppendTo_stores ht zs xss y) as (bs & xss' & -> & Hs'); [done.. | set_solver | ].
    rsimp. destruct (IH b' ys (mkTable bs (numBuckets ht) (numItems ht)) (y :: zs) xss')
      as (bs' & xss2 & -> & Hs2); try done; [simpl in *; lia | | ].
    + rewrite fmap_app, fmap_cons. rewrite <- Permutation_middle. apply NoDup_cons. split; done.
    + eexists _, _. split; [done | ]. eapply stores_perm; [done | ]. solve_Permutation.
Qed.

Lemma stores_empty sz : 0 <= sz -> exists xss, stores (replicate (Z.to_nat sz) new_List) sz [] xss.
Proof.
  intros Hsz. exists (replicate (Z.to_nat sz) []). split.
  - apply Forall2_replicate. apply new_List_repr.
  - rewrite length_replicate. lia.
  - intros i ys x [-> _]%lookup_replicate Hx. by apply not_elem_of_nil in Hx.
  - induction (Z.to_nat sz); simpl; done.
  - constructor.
Qed.

Lemma concat_take_S (xss : list (list T)) j ys :
  xss !! j = Some ys -> concat (take (S j) xss) ≡ₚ ys ++ concat (take j xss).
Proof.
  intros Hj. rewrite (take_S_r _ _ _ Hj), concat_app. simpl. solve_Permutation.
Qed.

Lemma ReHash_stores ht xs xss :
  stores (buckets ht) (numBuckets ht) xs xss -> 0 < numBuckets ht -> numBuckets ht * 4 < 2 ^ 31 ->
  numItems ht = Z.of_nat (length xs) -> Z.of_nat (length xs) < 2 ^ 31 ->
  exists bs xss', ReHash getKey hash ht = Ok (mkTable bs (numBuckets ht * 4) (numItems ht)) /\
    stores bs (numBuckets ht * 4) xs xss'.
Proof.
  intros Hs Hp Hn Hi Hx. unfold ReHash, IncreaseSizeBy.
  erewrite Table_SanityCheck_stores; [ | done | lia | done..]. rsimp.
  rewrite int_op_ok by (unfold is_i32; lia). rsimp.
  pose proof (s_len _ _ _ _ Hs) as Hl. pose proof (s_keys _ _ _ _ Hs) as Hk.
  destruct (for_up_inv (fun j h => exists bs ws,
      h = mkTable bs (numBuckets ht * 4) (numItems ht) /\
      stores bs (numBuckets ht * 4) (concat (take (Z.to_nat j) xss)) ws)
    (fun i ht' => b ← zget (buckets ht) i; ReHash_loop getKey hash (fuel_of (heap b)) b ht')
    0 (numBuckets ht) (InitBuckets (numBuckets ht * 4) (numItems ht)))
    as (h & -> & bs & ws & -> & Hs'); [lia | | | ].
  - intros j ? Hj (bs & ws & -> & Hw).
    destruct (lookup_lt_is_Some_2 xss (Z.to_nat j) ltac:(lia)) as [ys Hys].
    destruct (Forall2_lookup_r _ _ _ _ _ (s_lists _ _ _ _ Hs) Hys) as (b & Hb & Hr).
    rewrite (zget_lookup _ _ _ (proj1 Hj) Hb). rsimp.
    destruct (ReHash_loop_spec (fuel_of (heap b)) b ys
      (mkTable bs (numBuckets ht * 4) (numItems ht))
      (concat (take (Z.to_nat j) xss)) ws Hr) as (bs' & ws' & -> & Hw');
      [ | done | simpl; lia | | ].
    + destruct Hr as [ps Hsh]. pose proof (shape_fuel _ _ _ Hsh). lia.
    + rewrite <- (concat_take_S _ _ _ Hys). rewrite <- (s_items _ _ _ _ Hs) in Hk.
      rewrite <- (take_drop (S (Z.to_nat j)) xss), concat_app, fmap_app in Hk.
      by apply NoDup_app in Hk as [? _].
    + eexists. split; [done | ]. exists bs', ws'. split; [done | ].
      replace (Z.to_nat (j + 1)) with (S (Z.to_nat j)) by lia.
      eapply stores_perm; [done | ]. by rewrite <- (concat_take_S _ _ _ Hys).
  - destruct (stores_empty (numBuckets ht * 4) ltac:(lia)) as [ws Hw].
    eexists _, ws. by split.
  - rsimp. rewrite take_ge in Hs' by lia.
    assert (stores bs (numBuckets ht * 4) xs ws) as Hs2.
    { eapply stores_perm; [done | apply Hs]. }
    erewrite Table_SanityCheck_stores; [ | done | simpl; lia | done..]. rsimp. eauto.
Qed.

(** ** Insert and Remove *)

Lemma new_HashTable_ok : table_ok new_HashTable 0 [].
Proof.
  split; simpl; try done. apply (stores_empty 4). lia.
Qed.

Lemma Table_Insert_ok ht c xs x :
  table_ok ht c xs -> c + 1 < 2 ^ 29 -> getKey x ∉ getKey <$> xs ->
  exists ht', Table_Insert getKey hash ht x = Ok ht' /\ table_ok ht' (c + 1) (x :: xs).
Proof.
  intros Hok Hc Hx. pose proof (table_i32 _ _ _ Hok) as Hn.
  destruct Hok as [[xss Hs] Hp Hnum Hi Hsz Hc29].
  change (2 ^ 29) with 536870912 in *. change (2 ^ 31) with 2147483648 in *.
  unfold Table_Insert. erewrite IsInTable_stores by done.
  rewrite bool_decide_eq_false_2 by done. rsimp. cbn [negb].
  destruct (Z.eqb_spec (numBuckets ht) 0); [lia | ]. unfold ResizeRatio.
  assert (exists bs n xss', (if 3 <=? Z.quot (numItems ht) (numBuckets ht) then ReHash getKey hash ht
      else mret ht) = Ok (mkTable bs n (numItems ht)) /\ stores bs n xs xss' /\ 0 < n <= 4 + 2 * c)
    as (bs & n' & xss' & -> & Hs' & Hn').
  { rewrite Z.quot_div_nonneg by lia. destruct (Z.leb_spec 3 (numItems ht / numBuckets ht)) as [Hq | Hq].
    - assert (numBuckets ht * 3 <= numItems ht).
      { pose proof (Z.mul_div_le (numItems ht) (numBuckets ht) ltac:(lia)). nia. }
      destruct (ReHash_stores ht xs xss) as (bs & xss' & -> & Hs'); try done; [lia.. | ].
      eexists bs, _, xss'. split_and!; [done | done | lia | lia].
    - destruct ht as [bs n' k]. exists bs, n', xss. done. }
  rsimp. destruct (AppendTo_stores (mkTable bs n' (numItems ht)) xs xss' x)
    as (bs2 & xss2 & -> & Hs2); simpl; [done | lia | done | ].
  rsimp. simpl. rewrite int_op_ok by (unfold is_i32; pow2; lia). rsimp.
  erewrite IsInTable_stores; [ | done | simpl; lia].
  rewrite bool_decide_eq_true_2 by (rewrite fmap_cons; set_solver). rsimp.
  eexists. split; [done | ]. split; simpl; [by eauto | lia.. | done].
Qed.

Lemma Table_Insert_dup ht c xs x :
  table_ok ht c xs -> getKey x ∈ getKey <$> xs -> Table_Insert getKey hash ht x = Fail AssertFail.
Proof.
  intros Hok Hx. pose proof (table_i32 _ _ _ Hok). destruct (t_stores _ _ _ Hok) as [xss Hs].
  unfold Table_Insert. erewrite IsInTable_stores by done. by rewrite bool_decide_eq_true_2.
Qed.

Lemma Table_Remove_ok ht c xs x :
  table_ok ht c xs -> x ∈ xs ->
  exists ht' xs', Table_Remove getKey hash ht (getKey x) = Ok (x, ht') /\ xs ≡ₚ x :: xs' /\
    table_ok ht' c xs'.
Proof.
  intros Hok Hx. pose proof (table_i32 _ _ _ Hok) as Hn.
  destruct Hok as [[xss Hs] Hp Hnum Hi Hsz Hc29].
  unfold Table_Remove. rewrite HashValue_home by done. rsimp.
  destruct (stores_bucket _ _ _ _ (getKey x) Hs Hp) as (b & ys & E & Hb & Hys & Hr).
  rewrite (FindInBucket_spec _ _ _ _ _ E Hr), E. rsimp.
  erewrite lookup_key_home by done.
  rewrite (proj2 (lookup_key_Some getKey _ xs x (s_keys _ _ _ _ Hs)) (conj Hx eq_refl)).
  destruct (stores_change _ _ _ _ _ _ Hs Hys) as (rest & Ep & Hch).
  pose proof (s_keys _ _ _ _ Hs) as Hnd. rewrite Ep, fmap_app in Hnd.
  apply NoDup_app in Hnd as (Hnd & _ & _).
  pose proof (stores_in_home _ _ _ _ x ys Hs Hx Hys) as Hxy.
  destruct (NoDup_split x ys) as (u & v & -> & Hu & Hv & _); [by eapply NoDup_fmap_1 | done | ].
  destruct (Remove_repr b u x v Hr Hu Hv) as (b' & -> & Hr'). rsimp.
  pose proof (lookup_lt_Some _ _ _ Hb). rewrite zset_in_range by lia. rsimp. rewrite Nat2Z.id.
  assert (xs ≡ₚ x :: (u ++ v) ++ rest) as Ex by (rewrite Ep; solve_Permutation).
  pose proof (Permutation_length Ex) as Hlen. simpl in Hlen.
  assert (NoDup (getKey <$> x :: (u ++ v) ++ rest)) as [Hk Hnd']%NoDup_cons.
  { rewrite <- Ex. apply Hs. }
  rewrite int_op_ok by (unfold is_i32; pow2; change (2 ^ 29) with 536870912 in *; lia). rsimp.
  assert (stores (<[home (numBuckets ht) (getKey x) := b']> (buckets ht)) (numBuckets ht)
    ((u ++ v) ++ rest) (<[home (numBuckets ht) (getKey x) := u ++ v]> xss)) as Hs'.
  { apply Hch; [done | | done | done]. intros y Hy. eapply Hs; [done | ]. set_solver. }
  erewrite IsInTable_stores; [ | done | simpl; lia].
  rewrite bool_decide_eq_false_2 by done. rsimp.
  eexists _, _. split; [done | ]. split; [done | ]. split; simpl; [by eauto | lia.. | done].
Qed.

Lemma Table_Remove_missing ht c xs key :
  table_ok ht c xs -> key ∉ getKey <$> xs -> Table_Remove getKey hash ht key = Fail AssertFail.
Proof.
  intros Hok Hk. pose proof (table_i32 _ _ _ Hok) as Hn. destruct (t_stores _ _ _ Hok) as [xss Hs].
  unfold Table_Remove. rewrite HashValue_home by done. rsimp.
  destruct (stores_bucket _ _ _ _ key Hs ltac:(lia)) as (b & ys & E & Hb & Hys & Hr).
  rewrite (FindInBucket_spec _ _ _ _ _ E Hr). rsimp. erewrite lookup_key_home by done.
  by rewrite (proj2 (lookup_key_None getKey _ _) Hk).
Qed.

Lemma Table_IsEmpty_ok ht c xs : table_ok ht c xs -> Table_IsEmpty ht = bool_decide (xs = []).
Proof.
  intros Hok. unfold Table_IsEmpty. rewrite (t_num _ _ _ Hok).
  destruct xs; [done | ]. rewrite bool_decide_eq_false_2 by done. apply Z.eqb_neq. simpl. lia.
Qed.

Lemma Table_SanityCheck_ok ht c xs : table_ok ht c xs -> Table_SanityCheck getKey hash ht = Ok tt.
Proof.
  intros Hok. pose proof (table_i32 _ _ _ Hok) as Hn. destruct (t_stores _ _ _ Hok) as [xss Hs].
  eapply Table_SanityCheck_stores; [done.. | apply Hok | ].
  destruct Hok as [_ _ ? ? ? Hc]. pow2. change (2 ^ 29) with 536870912 in Hc. lia.
Qed.

(** ** Iteration *)

(** Where an iterator stands: [rest] is still to come. *)
Inductive iter_at ht (xss : list (list T)) : HashIterator -> list T -> Prop :=
  | iter_end : iter_at ht xss (mkHashIterator (numBuckets ht) None) []
  | iter_in k b li ps zs :
      buckets ht !! k = Some b -> lseg (heap b) li ps zs None -> zs <> [] ->
      (k < length xss)%nat ->
      iter_at ht xss (mkHashIterator (Z.of_nat k) (Some li)) (zs ++ concat (drop (S k) xss)).

Lemma next_bucket ht xs xss :
  stores (buckets ht) (numBuckets ht) xs xss -> forall n j,
  (j + n = length xss)%nat ->
  exists k it, FullBucket_loop n ht (Z.of_nat j) = Ok k /\ at_bucket ht k = Ok it /\
    iter_at ht xss it (concat (drop j xss)).
Proof.
  intros Hs. pose proof (s_len _ _ _ _ Hs) as Hl.
  induction n as [ | n IH]; intros j Hj.
  - exists (Z.of_nat j). unfold at_bucket.
    destruct (Z.ltb_spec (Z.of_nat j) (numBuckets ht)); [lia | ].
    eexists. split_and!; [done | done | ]. rewrite drop_ge by lia.
    replace (Z.of_nat j) with (numBuckets ht) by lia. constructor.
  - destruct (lookup_lt_is_Some_2 xss j ltac:(lia)) as [ys Hys].
    destruct (Forall2_lookup_r _ _ _ _ _ (s_lists _ _ _ _ Hs) Hys) as (b & Hb & Hr).
    assert (zget (buckets ht) (Z.of_nat j) = Ok b) as E.
    { apply zget_lookup; [lia | by rewrite Nat2Z.id]. }
    cbn [FullBucket_loop]. rewrite E. rsimp. rewrite (proj1 (repr_queries _ _ Hr)).
    rewrite (drop_S _ _ _ Hys). case_bool_decide as Hy.
    + subst ys. destruct (IH (S j) ltac:(lia)) as (k & it & E1 & E2 & Hit).
      replace (Z.of_nat j + 1) with (Z.of_nat (S j)) by lia. eauto.
    + exists (Z.of_nat j). rsimp. unfold at_bucket.
      destruct (Z.ltb_spec (Z.of_nat j) (numBuckets ht)); [ | lia].
      rewrite E. rsimp. eexists. split_and!; [done | done | ].
      destruct Hr as [ps Hsh]. simpl. econstructor; [exact Hb | apply Hsh | done | lia].
Qed.

Lemma hash_iterate_at ht xs xss :
  stores (buckets ht) (numBuckets ht) xs xss -> forall fuel it rest,
  iter_at ht xss it rest -> (length rest <= fuel)%nat -> hash_iterate fuel ht it = Ok rest.
Proof.
  intros Hs. pose proof (s_len _ _ _ _ Hs) as Hl.
  induction fuel as [ | f IH]; intros it rest Hit Hlen; inversion Hit as [ | k b li ps zs Hb Hseg Hz Hk];
    subst; simpl; unfold Hash_IsDone; simpl.
  - by rewrite Z.eqb_refl.
  - destruct zs; simpl in *; [done | lia].
  - by rewrite Z.eqb_refl.
  - destruct (Z.eqb_spec (Z.of_nat k) (numBuckets ht)) as [ | Hne]; [lia | ].
    unfold Hash_Item, Hash_Next, Hash_IsDone. simpl.
    rewrite (proj2 (Z.eqb_neq _ _) Hne). simpl.
    rewrite (zget_lookup (buckets ht) (Z.of_nat k) b) by (rewrite ?Nat2Z.id; lia || done). rsimp.
    inversion Hseg as [ | q e ps' zs' ? He Hseg']; subst; [done | ].
    unfold Item, Next. rewrite (deref_Some _ _ _ He). change (IsDone (Some q)) with false.
    cbn [negb]. rsimp.
    assert (exists it', (if IsDone (next e) then
        bucket0 ← FindNextFullBucket ht (Z.of_nat k + 1); at_bucket ht bucket0
      else mret (mkHashIterator (Z.of_nat k) (Some (next e)))) = Ok it' /\
      iter_at ht xss it' (zs' ++ concat (drop (S k) xss))) as (it' & -> & Hit').
    { destruct (next e) as [p | ] eqn:En.
      - eexists. split; [done | ]. econstructor; [exact Hb | exact Hseg' | | done].
        inversion Hseg'; by subst.
      - apply lseg_None in Hseg' as (_ & -> & _). change (IsDone None) with true. cbv iota.
        unfold FindNextFullBucket.
        destruct (next_bucket ht xs xss Hs (Z.to_nat (numBuckets ht - (Z.of_nat k + 1))) (S k) ltac:(lia))
          as (k' & it' & E1 & E2 & Hit').
        replace (Z.of_nat k + 1) with (Z.of_nat (S k)) in * by lia. rewrite E1. rsimp. eauto. }
    rsimp. rewrite (IH _ _ Hit') by (simpl in *; lia). done.
Qed.

Lemma Table_Apply_stores {S} ht xs xss (func : T -> S -> res S) :
  stores (buckets ht) (numBuckets ht) xs xss -> forall n j s,
  (j + n = length xss)%nat ->
  for_n n (Z.of_nat j) (fun i s => b ← zget (buckets ht) i; Apply b func s) s =
    foldl (fun r x => r ≫= func x) (Ok s) (concat (drop j xss)).
Proof.
  intros Hs. induction n as [ | n IH]; intros j s Hj.
  - by rewrite drop_ge by lia.
  - destruct (lookup_lt_is_Some_2 xss j ltac:(lia)) as [ys Hys].
    destruct (Forall2_lookup_r _ _ _ _ _ (s_lists _ _ _ _ Hs) Hys) as (b & Hb & Hr).
    cbn [for_n]. rewrite (zget_lookup (buckets ht) (Z.of_nat j) b) by (rewrite ?Nat2Z.id; lia || done).
    rsimp. rewrite (Apply_spec _ _ _ _ Hr), (drop_S _ _ _ Hys). simpl. rewrite foldl_app.
    destruct (foldl _ (Ok s) ys) as [s' | f]; rsimp.
    + replace (Z.of_nat j + 1) with (Z.of_nat (Datatypes.S j)) by lia. apply IH. lia.
    + generalize (concat (drop (Datatypes.S j) xss)) as zs. by induction zs.
Qed.

(** The order in which an iterator and [Apply] visit the items. *)
Lemma visits_ok ht c xs :
  table_ok ht c xs ->
  exists ys, ys ≡ₚ xs /\
    (exists it, new_HashIterator ht = Ok it /\ hash_iterate (length xs) ht it = Ok ys) /\
    (forall S (func : T -> S -> res S) s,
       Table_Apply ht func s = foldl (fun r x => r ≫= func x) (Ok s) ys).
Proof.
  intros Hok. destruct (t_stores _ _ _ Hok) as [xss Hs]. pose proof (s_len _ _ _ _ Hs) as Hl.
  exists (concat xss). split_and!; [apply Hs | | ].
  - destruct (next_bucket ht xs xss Hs (Z.to_nat (numBuckets ht - 0)) 0 ltac:(lia)) as (k & it & E1 & E2 & Hit).
    exists it. unfold new_HashIterator, FindNextFullBucket.
    change (Z.of_nat 0) with 0 in E1. rewrite E1. rsimp. split; [done | ].
    eapply hash_iterate_at; [done.. | ]. simpl. by rewrite (s_items _ _ _ _ Hs).
  - intros S func s. unfold Table_Apply, for_up. change 0 with (Z.of_nat 0) at 2.
    by rewrite (Table_Apply_stores ht xs xss func Hs) by lia.
Qed.

End Representation.

(** ** Sequences of method calls *)

Section Runs.
Context {Key T : Type} `{Countable Key, EqDecision T}.
Context (getKey : T -> Key) (hash : Key -> Z).
Implicit Types (ht : HashTable T) (key : Key) (x : T) (m : gmap Key T).

Inductive table_call :=
  | TInsert (x : T)
  | TRemove (key : Key)
  | TFind (key : Key).

Definition table_exec (c : table_call) ht : res (option T * HashTable T) :=
  match c with
  | TInsert x => ht' ← Table_Insert getKey hash ht x; mret (None, ht')
  | TRemove key => '(x, ht') ← Table_Remove getKey hash ht key; mret (Some x, ht')
  | TFind key => r ← Find getKey hash ht key; mret (r, ht)
  end.

(** What the call means on a finite map; [None] where an assertion stops the
    program. *)
Definition table_spec (c : table_call) m : option (option T * gmap Key T) :=
  match c with
  | TInsert x =>
      match m !! getKey x with Some _ => None | None => Some (None, <[getKey x := x]> m) end
  | TRemove key => match m !! key with Some x => Some (Some x, delete key m) | None => None end
  | TFind key => Some (m !! key, m)
  end.

Fixpoint table_exec_all (cs : list table_call) ht : res (list (option T) * HashTable T) :=
  match cs with
  | [] => mret ([], ht)
  | c :: cs' =>
      '(o, ht) ← table_exec c ht; '(os, ht) ← table_exec_all cs' ht; mret (o :: os, ht)
  end.

Fixpoint table_spec_all (cs : list table_call) m : option (list (option T) * gmap Key T) :=
  match cs with
  | [] => Some ([], m)
  | c :: cs' =>
      '(o, m) ← table_spec c m; '(os, m) ← table_spec_all cs' m; Some (o :: os, m)
  end.

(** The table holds the finite map [m]. *)
Definition holds ht (c : Z) m : Prop :=
  exists xs, table_ok getKey hash ht c xs /\ forall key, m !! key = lookup_key getKey key xs.

Lemma table_keys ht c xs : table_ok getKey hash ht c xs -> NoDup (getKey <$> xs).
Proof. intros Hok. destruct (t_stores _ _ _ _ _ Hok) as [xss Hs]. apply Hs. Qed.

Lemma table_mono ht c c' xs :
  table_ok getKey hash ht c xs -> c <= c' < 2 ^ 29 -> table_ok getKey hash ht c' xs.
Proof. intros [? ? ? ? ? ?] ?. split; [done | lia..]. Qed.

Lemma table_exec_spec call ht c m :
  holds ht c m -> c + 1 < 2 ^ 29 ->
  match table_spec call m with
  | Some (o, m') => exists ht', table_exec call ht = Ok (o, ht') /\ holds ht' (c + 1) m'
  | None => table_exec call ht = Fail AssertFail
  end.
Proof.
  intros (xs & Hok & Hm) Hc. pose proof (table_keys _ _ _ Hok) as Hnd.
  destruct call as [x | key | key]; simpl; try rewrite Hm.
  - destruct (lookup_key getKey (getKey x) xs) as [y | ] eqn:E.
    + apply (lookup_key_Some getKey _ xs y Hnd) in E as [Hy Ey].
      rewrite (Table_Insert_dup _ _ ht c xs x Hok); [done | ]. rewrite <- Ey. by apply list_elem_of_fmap_2.
    + apply lookup_key_None in E.
      destruct (Table_Insert_ok getKey hash ht c xs x) as (ht' & -> & Hok'); [done.. | ].
      rsimp. eexists. split; [done | ]. exists (x :: xs). split; [done | ]. intros key.
      rewrite lookup_key_cons. case_decide as Hd.
      * subst key. by rewrite lookup_insert_eq.
      * by rewrite lookup_insert_ne, Hm by done.
  - destruct (lookup_key getKey key xs) as [x | ] eqn:E.
    + apply (lookup_key_Some getKey _ xs x Hnd) in E as [Hx <-].
      destruct (Table_Remove_ok getKey hash ht c xs x) as (ht' & xs' & -> & Hp & Hok'); [done.. | ].
      rsimp. eexists. split; [done | ]. exists xs'.
      split; [eapply table_mono; [done | lia] | ]. intros key'.
      rewrite Hp in Hnd. apply NoDup_cons in Hnd as [Hx' Hnd'].
      destruct (decide (key' = getKey x)) as [-> | Hne].
      * rewrite lookup_delete_eq. symmetry. by apply lookup_key_None.
      * rewrite lookup_delete_ne, Hm by done.
        rewrite (lookup_key_perm getKey _ xs (x :: xs')) by (done || by eapply table_keys).
        rewrite lookup_key_cons. by rewrite decide_False.
    + rewrite (Table_Remove_missing _ _ ht c xs key Hok); [done | by apply lookup_key_None].
  - destruct (t_stores _ _ _ _ _ Hok) as [xss Hs]. pose proof (table_i32 _ _ _ _ _ Hok).
    erewrite Find_stores by done. rsimp. eexists. split; [done | ].
    exists xs. split; [eapply table_mono; [done | lia] | done].
Qed.

Lemma table_exec_all_spec cs : forall ht c m,
  holds ht c m -> c + Z.of_nat (length cs) < 2 ^ 29 ->
  match table_spec_all cs m with
  | Some (os, m') => exists ht' c', table_exec_all cs ht = Ok (os, ht') /\ holds ht' c' m'
  | None => table_exec_all cs ht = Fail AssertFail
  end.
Proof.
  induction cs as [ | call cs IH]; intros ht c m Hh Hc; cbn [length table_spec_all table_exec_all] in *.
  { by eexists _, _. }
  pose proof (table_exec_spec call ht c m Hh ltac:(lia)) as H1.
  destruct (table_spec call m) as [[o m1] | ]; simpl; [ | by rewrite H1].
  destruct H1 as (ht1 & -> & Hh1). rsimp.
  specialize (IH ht1 (c + 1) m1 Hh1 ltac:(lia)).
  destruct (table_spec_all cs m1) as [[os m'] | ]; simpl; [ | by rewrite IH].
  destruct IH as (ht' & c' & -> & Hh'). eauto.
Qed.

(** The items of the map. *)
Lemma holds_items ht c m :
  holds ht c m -> exists xs, table_ok getKey hash ht c xs /\ xs ≡ₚ (map_to_list m).*2 /\
    (forall key, m !! key = lookup_key getKey key xs).
Proof.
  intros (xs & Hok & Hm). exists xs. split_and!; [done | | done].
  pose proof (table_keys _ _ _ Hok) as Hnd.
  set (kvs := (fun x => (getKey x, x)) <$> xs).
  assert (kvs.*1 = getKey <$> xs) as E1 by (unfold kvs; by rewrite <- list_fmap_compose).
  assert (kvs.*2 = xs) as E2.
  { unfold kvs. rewrite <- list_fmap_compose. by rewrite list_fmap_id. }
  assert (m = list_to_map kvs) as ->.
  { apply map_eq. intros key. rewrite Hm. apply option_eq. intros x.
    rewrite lookup_key_Some by done. rewrite <- elem_of_list_to_map by by rewrite E1.
    unfold kvs. rewrite list_elem_of_fmap. naive_solver. }
  rewrite map_to_list_to_map by by rewrite E1. by rewrite E2.
Qed.

End Runs.

(** ** Properties *)

Section Properties.
Context {Key T : Type} `{Countable Key, EqDecision T}.
Context (getKey : T -> Key) (hash : Key -> Z).

(** C16: Every sequence of fewer than 2^29 calls of Insert, Remove and Find on
    a new hash table, whatever the hash function, returns what the same calls
    return on a finite map from keys to items, and fails an assertion exactly
    where the map has no answer (a key is inserted twice, a missing key is
    removed); no arithmetic overflows and every growth of the table succeeds.
    The table that results passes SanityCheck, its IsEmpty and Find agree with
    the map, and a loop with an iterator and Apply visit every item of the map
    once, in the same order. *)
Theorem hash_refines (cs : list table_call) (Hcs : Z.of_nat (length cs) < 2 ^ 29) :
  match table_spec_all getKey cs ∅ with
  | Some (os, m) =>
      exists ht, table_exec_all getKey hash cs new_HashTable = Ok (os, ht) /\
        Table_SanityCheck getKey hash ht = Ok tt /\
        Table_IsEmpty ht = bool_decide (m = ∅) /\
        (forall key, Find getKey hash ht key = Ok (m !! key)) /\
        exists ys, ys ≡ₚ (map_to_list m).*2 /\
          (exists it, new_HashIterator ht = Ok it /\ hash_iterate (size m) ht it = Ok ys) /\
          (forall S (func : T -> S -> res S) s,
             Table_Apply ht func s = foldl (fun r x => r ≫= func x) (Ok s) ys)
  | None => table_exec_all getKey hash cs new_HashTable = Fail AssertFail
  end.
Proof.
  pose proof (table_exec_all_spec getKey hash cs new_HashTable 0 ∅) as Hall.
  destruct (table_spec_all getKey cs ∅) as [[os m] | ]; [ | apply Hall; [ | lia]].
  2:{ exists []. split; [apply new_HashTable_ok | done]. }
  destruct Hall as (ht & c & E & Hh); [ | lia | ].
  { exists []. split; [apply new_HashTable_ok | done]. }
  destruct (holds_items getKey hash ht c m Hh) as (xs & Hok & Hp & Hm).
  destruct (visits_ok getKey hash ht c xs Hok) as (ys & Hy & (it & Ei & Eit) & Ha).
  pose proof (Permutation_length Hp) as Hlen. rewrite length_fmap, length_map_to_list in Hlen.
  exists ht. split_and!; [done | by eapply Table_SanityCheck_ok | | | ].
  - rewrite (Table_IsEmpty_ok _ _ _ _ _ Hok). apply bool_decide_ext.
    rewrite <- map_size_empty_iff, <- Hlen. by destruct xs.
  - intros key. destruct (t_stores _ _ _ _ _ Hok) as [xss Hs].
    rewrite Hm. eapply Find_stores; [done | by eapply table_i32].
  - exists ys. split_and!; [by rewrite Hy | exists it; by rewrite <- Hlen | done].
Qed.

End Properties.

(** ** SelfTest *)

Section SelfTests.
Context {Key T : Type} `{Countable Key, EqDecision T}.
Context (getKey : T -> Key) (hash : Key -> Z).

Lemma table_insert_all_ok p : forall ht c xs,
  table_ok getKey hash ht c xs -> c + Z.of_nat (length p) < 2 ^ 29 ->
  NoDup (getKey <$> p ++ xs) ->
  exists ht', table_insert_all getKey hash ht p = Ok ht' /\
    table_ok getKey hash ht' (c + Z.of_nat (length p)) (reverse p ++ xs).
Proof.
  induction p as [ | x p IH]; intros ht c xs Hok Hc Hnd; cbn [length table_insert_all] in *.
  { exists ht. split; [done | ]. by rewrite Z.add_0_r. }
  rewrite <- app_comm_cons, fmap_cons, fmap_app in Hnd. apply NoDup_cons in Hnd as [Hx Hnd].
  destruct (Table_Insert_ok getKey hash ht c xs x) as (ht1 & -> & Hok1); [done | lia | set_solver | ].
  rsimp. destruct (t_stores _ _ _ _ _ Hok1) as [xss Hs].
  erewrite IsInTable_stores by (done || by eapply table_i32).
  rewrite bool_decide_eq_true_2 by (rewrite fmap_cons; set_solver). rsimp.
  rewrite (Table_IsEmpty_ok _ _ _ _ _ Hok1). simpl.
  destruct (IH ht1 (c + 1) (x :: xs) Hok1) as (ht' & -> & Hok'); [lia | | ].
  - rewrite fmap_app, fmap_cons, <- Permutation_middle, <- fmap_app. apply NoDup_cons.
    by rewrite fmap_app.
  - exists ht'. split; [done | ]. rewrite reverse_cons, <- app_assoc. simpl.
    by replace (c + Z.of_nat (S (length p))) with (c + 1 + Z.of_nat (length p)) by lia.
Qed.

Lemma table_remove_all_ok p : forall ht c xs,
  table_ok getKey hash ht c xs -> xs ≡ₚ p ->
  exists ht', table_remove_all getKey hash ht p = Ok ht' /\ table_ok getKey hash ht' c [].
Proof.
  induction p as [ | x p IH]; intros ht c xs Hok Hp; cbn [table_remove_all].
  { exists ht. split; [done | ]. by apply Permutation_nil_r in Hp as ->. }
  destruct (Table_Remove_ok getKey hash ht c xs x) as (ht1 & xs' & -> & Hp' & Hok1);
    [done | rewrite Hp; set_solver | ].
  rsimp. rewrite bool_decide_eq_true_2 by done. rsimp.
  eapply IH; [done | ]. rewrite Hp' in Hp. by apply Permutation.Permutation_cons_inv in Hp.
Qed.

Lemma Table_SelfTest_ok p :
  NoDup (getKey <$> p) -> Z.of_nat (length p) < 2 ^ 29 ->
  exists ht, Table_SelfTest getKey hash new_HashTable p = Ok ht /\ Table_IsEmpty ht = true.
Proof.
  intros Hnd Hlen. pose proof (new_HashTable_ok getKey hash) as Hok. unfold Table_SelfTest.
  destruct (visits_ok _ _ _ _ _ Hok) as (ys & Hy & (it & Ei & Eit) & _).
  apply Permutation_nil_r in Hy as ->. rewrite Ei. rsimp.
  rewrite (Table_SanityCheck_ok _ _ _ _ _ Hok). rsimp.
  rewrite (Table_IsEmpty_ok _ _ _ _ _ Hok). rewrite bool_decide_eq_true_2 by done. rsimp.
  simpl in Eit. destruct (Hash_IsDone new_HashTable it); [ | done]. rsimp.
  destruct (table_insert_all_ok p new_HashTable 0 [] Hok) as (h1 & -> & Hok1);
    [lia | by rewrite app_nil_r | ]. rsimp.
  destruct (table_remove_all_ok p h1 _ _ Hok1) as (h2 & -> & Hok2).
  { rewrite app_nil_r. apply reverse_Permutation. }
  rsimp. rewrite (Table_IsEmpty_ok _ _ _ _ _ Hok2), bool_decide_eq_true_2 by done. rsimp.
  rewrite (Table_SanityCheck_ok _ _ _ _ _ Hok2). rsimp. exists h2. split; [done | ].
  rewrite (Table_IsEmpty_ok _ _ _ _ _ Hok2). by rewrite bool_decide_eq_true_2.
Qed.

End SelfTests.

(** A run that fills the table beyond its first growth. *)
Definition demo_calls : list (table_call (Key := Z) (T := Z)) :=
  (TInsert <$> [0; 4; 8; 12; 16; 20; 24; 28; 32; 36; 40; 44; 7]) ++ [TRemove 12; TFind 7; TFind 12].

Lemma hash_refines_witness :
  Z.of_nat (length demo_calls) < 2 ^ 29 /\
  exists os ht, table_exec_all (fun x => x) (fun k => k) demo_calls new_HashTable = Ok (os, ht) /\
    numBuckets ht = 16 /\ drop 13 os = [Some 12; Some 7; None].
Proof.
  assert (Z.of_nat (length demo_calls) < 2 ^ 29) as Hlen by reflexivity.
  split; [exact Hlen | ].
  pose proof (hash_refines (fun x => x) (fun k => k) demo_calls Hlen) as H.
  assert (match table_exec_all (fun x => x) (fun k => k) demo_calls new_HashTable with
    | Ok (os, ht) => (numBuckets ht, drop 13 os) | Fail _ => (0, []) end = (16, [Some 12; Some 7; None]))
    as Hex by (vm_compute; reflexivity).
  destruct (table_spec_all (fun x => x) demo_calls ∅) as [[os m] | ].
  - destruct H as (ht & H & _). rewrite H in Hex. injection Hex as Hn Hos.
    exists os, ht. split; [exact H | split; [exact Hn | exact Hos]].
  - rewrite H in Hex. discriminate Hex.
Defined.
