(* ===== verification/LibTest.v ===== *)
(** * The library self test (lib/libtest.cc)

    [LibSelfTest] runs the self tests of the bitmap, the list, the sorted list
    and the hash table on the vectors of lib/libtest.cc.  The items of the
    hash table are [char *] to pairwise different literals: a pointer stands
    for the string it points to. *)

From Stdlib Require Import Strings.Ascii Strings.String.
From stdpp Require Import strings.
From S2P Require Import Prelude Bitmap LinkedList HashTable.

(** [atoi] of the C library: white space, a sign, digits. *)
Definition is_space (c : ascii) : bool :=
  let n := Z.of_nat (nat_of_ascii c) in (n =? 32) || ((9 <=? n) && (n <=? 13)).

Fixpoint digits (acc : Z) (s : string) : Z :=
  match s with
  | String c s' =>
      let n := Z.of_nat (nat_of_ascii c) in
      if (48 <=? n) && (n <=? 57) then digits (10 * acc + (n - 48)) s' else acc
  | EmptyString => acc
  end.

Fixpoint atoi (s : string) : Z :=
  match s with
  | String c s' =>
      if is_space c then atoi s'
      else if Ascii.eqb c "-" then - digits 0 s'
      else if Ascii.eqb c "+" then digits 0 s'
      else digits 0 s
  | EmptyString => 0
  end.

Definition HashInt (key : Z) : Z := to_u32 key.
Definition HashKey (str : string) : Z := atoi str.

Definition hashTestVector : list string :=
  ["0"; "1"; "2"; "3"; "4"; "5"; "6"; "7"; "8"; "9"; "10"; "11"; "12"; "13"; "14"]%string.

Definition LibSelfTest (uninit : nat -> Z) : res unit :=
  map ← new_Bitmap uninit 200;
  let list := new_List (T := Z) in
  let sortList := new_List (T := Z) in
  let hashTable := new_HashTable (T := string) in
  Bitmap.SelfTest map;;
  LinkedList.SelfTest list listTestVector;;
  Sorted_SelfTest IntCompare sortList listTestVector;;
  hashTable ← Table_SelfTest HashKey HashInt hashTable hashTestVector;
  delete_HashTable hashTable.

(** LibSelfTest runs to its end, whatever the new bitmap's memory held
    before: the self tests of the bitmap, the list, the sorted list and the
    hash table (which grows on the way) pass, and the hash table is empty when
    it is deleted. *)
Theorem lib_selftest_passes (uninit : nat -> Z) : LibSelfTest uninit = Ok tt.
Proof.
  unfold LibSelfTest.
  destruct (new_Bitmap_spec uninit 200) as (b & -> & Hwf & Hnb & Hb); [done | ]. rsimp.
  destruct (SelfTest_spec b Hwf) as (b' & -> & _); [by rewrite Hnb | by rewrite Hnb | ]. rsimp.
  assert (exists l, LinkedList.SelfTest new_List listTestVector = Ok l) as [l ->].
  { eexists. vm_compute. reflexivity. }
  assert (exists l, Sorted_SelfTest IntCompare new_List listTestVector = Ok l) as [l' ->].
  { eexists. vm_compute. reflexivity. }
  destruct (Table_SelfTest_ok HashKey HashInt hashTestVector) as (ht & -> & He).
  { apply (bool_decide_unpack _). vm_compute. reflexivity. }
  { done. }
  rsimp. unfold delete_HashTable. by rewrite He.
Qed.
