(* ===== verification/Stacks.v ===== *)
(** * Stacks (c++example/stack.cc, inheritstack.cc, templatestack.cc, list.cc)

    The stacks of the C++ tutorial beside the kernel.  The abstract class
    [Stack] of inheritstack.h is the type class [Stack], with [SelfTest] written
    against it; [StackLaws] is what an implementation promises: to be a list of
    values, of at most [cap] of them where there is a bound.  Two classes
    implement it: an array with an index, and a linked list, whose elements are
    in a heap.  stack.cc and templatestack.cc have the array again, for [int]
    and for any type. *)

From S2P Require Import Prelude.

(** ** The abstract class *)

Class Stack (S : Type) := {
  Push : Z -> stM S unit;
  Pop : stM S Z;
  Full : S -> bool;
  Empty : S -> bool
}.

(** What a self test prints *)
Inductive message (T : Type) := Pushing (v : T) | Popping (v : T).
Arguments Pushing {T} _.
Arguments Popping {T} _.

Section SelfTest.
Context {S : Type} `{!Stack S}.

(** [for (int i = 0; i < numToPush; i++)] *)
Fixpoint push_loop (n : nat) (count : Z) : stM S (list (message Z)) :=
  match n with
  | O => mret []
  | Datatypes.S n' =>
      f ← gets Full;
      lift (ASSERT (negb f));;
      Push count;;
      next ← lift (int_op (count + 1));
      out ← push_loop n' next;
      mret (Pushing count :: out)
  end.

(** [while (!Empty())] *)
Fixpoint pop_loop (fuel : nat) : stM S (list (message Z)) :=
  match fuel with
  | O => lift (Fail OutOfFuel)
  | Datatypes.S f =>
      e ← gets Empty;
      if (e : bool) then mret []
      else
        v ← Pop;
        out ← pop_loop f;
        mret (Popping v :: out)
  end.

Definition SelfTest (fuel : nat) (numToPush : Z) : stM S (list (message Z)) :=
  out1 ← push_loop (Z.to_nat numToPush) 17;
  out2 ← pop_loop fuel;
  mret (out1 ++ out2).

End SelfTest.

(** ** The array (templatestack.cc) *)

Record ArrayStack (T : Type) := mkArrayStack { size : Z; top : Z; stack : list T }.
Arguments mkArrayStack {T} _ _ _.
Arguments size {T} _.
Arguments top {T} _.
Arguments stack {T} _.

Section Array.
Context {T : Type} (uninit : nat -> T).

Definition new_ArrayStack (sz : Z) : res (ArrayStack T) :=
  ASSERT (1 <=? sz);;
  mret (mkArrayStack sz 0 (uninit <$> seq 0 (Z.to_nat sz))).

Definition Array_Full (s : ArrayStack T) : bool := top s =? size s.
Definition Array_Empty (s : ArrayStack T) : bool := top s =? 0.

Definition Array_Push (value : T) : stM (ArrayStack T) unit := fun s =>
  ASSERT (negb (Array_Full s));;
  a ← zset (stack s) (top s) value;
  t ← int_op (top s + 1);
  mret (tt, mkArrayStack (size s) t a).

Definition Array_Pop : stM (ArrayStack T) T := fun s =>
  ASSERT (negb (Array_Empty s));;
  let t := top s - 1 in
  v ← zget (stack s) t;
  mret (v, mkArrayStack (size s) t (stack s)).

(** [SelfTest]: pushes until the stack is full.  [next] is [count++] on a [T]. *)
Fixpoint fill_loop (next : T -> res T) (fuel : nat) (count : T) : stM (ArrayStack T) (list (message T)) :=
  match fuel with
  | O => lift (Fail OutOfFuel)
  | Datatypes.S f =>
      full ← gets Array_Full;
      if (full : bool) then mret []
      else
        Array_Push count;;
        count' ← lift (next count);
        out ← fill_loop next f count';
        mret (Pushing count :: out)
  end.

Fixpoint drain_loop (fuel : nat) : stM (ArrayStack T) (list (message T)) :=
  match fuel with
  | O => lift (Fail OutOfFuel)
  | Datatypes.S f =>
      e ← gets Array_Empty;
      if (e : bool) then mret []
      else
        v ← Array_Pop;
        out ← drain_loop f;
        mret (Popping v :: out)
  end.

Definition Array_SelfTest (next : T -> res T) (fuel : nat) (start : T) : stM (ArrayStack T) (list (message T)) :=
  out1 ← fill_loop next fuel start;
  out2 ← drain_loop fuel;
  mret (out1 ++ out2).

End Array.

(** class ArrayStack of inheritstack.cc: the same text for [int] *)
Definition new_IntArrayStack (uninit : nat -> Z) (sz : Z) : res (ArrayStack Z) := new_ArrayStack uninit sz.
Definition ArrayStack_Push (value : Z) : stM (ArrayStack Z) unit := Array_Push value.
Definition ArrayStack_Pop : stM (ArrayStack Z) Z := Array_Pop.
Definition ArrayStack_Full (s : ArrayStack Z) : bool := Array_Full s.
Definition ArrayStack_Empty (s : ArrayStack Z) : bool := Array_Empty s.

#[global] Instance array_stack : Stack (ArrayStack Z) := {
  Push := ArrayStack_Push; Pop := ArrayStack_Pop; Full := ArrayStack_Full; Empty := ArrayStack_Empty
}.

(** class Stack of stack.cc: the same text again, with a test of its own *)
Definition new_IntStack (uninit : nat -> Z) (sz : Z) : res (ArrayStack Z) := new_ArrayStack uninit sz.
Definition IntStack_Push (value : Z) : stM (ArrayStack Z) unit := Array_Push value.
Definition IntStack_Pop : stM (ArrayStack Z) Z := Array_Pop.
Definition IntStack_Full (s : ArrayStack Z) : bool := Array_Full s.
Definition IntStack_Empty (s : ArrayStack Z) : bool := Array_Empty s.

Fixpoint int_fill (fuel : nat) (count : Z) : stM (ArrayStack Z) (list (message Z)) :=
  match fuel with
  | O => lift (Fail OutOfFuel)
  | S f =>
      full ← gets IntStack_Full;
      if (full : bool) then mret []
      else
        IntStack_Push count;;
        count' ← lift (int_op (count + 1));
        out ← int_fill f count';
        mret (Pushing count :: out)
  end.

Fixpoint int_drain (fuel : nat) : stM (ArrayStack Z) (list (message Z)) :=
  match fuel with
  | O => lift (Fail OutOfFuel)
  | S f =>
      e ← gets IntStack_Empty;
      if (e : bool) then mret []
      else
        v ← IntStack_Pop;
        out ← int_drain f;
        mret (Popping v :: out)
  end.

Definition IntStack_SelfTest (fuel : nat) : stM (ArrayStack Z) (list (message Z)) :=
  out1 ← int_fill fuel 17;
  out2 ← int_drain fuel;
  mret (out1 ++ out2).

(** ** The list of integers (list.cc) *)

Record ListElement := mkElement { next : option nat; item : Z }.

(** The heap of elements, with the address [new] gives next *)
Record IntList := mkIntList { first : option nat; last : option nat; heap : gmap nat ListElement; fresh : nat }.

Definition new_IntList : IntList := mkIntList None None ∅ 0.

Definition List_Empty (l : IntList) : bool := bool_decide (first l = None).

Definition Prepend (value : Z) : stM IntList unit := fun l =>
  let element := fresh l in
  let e := mkElement None value in
  if List_Empty l then mret (tt, mkIntList (Some element) (Some element) (<[element := e]> (heap l)) (S element))
  else mret (tt, mkIntList (Some element) (last l) (<[element := mkElement (first l) value]> (heap l)) (S element)).

Definition Remove : stM IntList Z := fun l =>
  ASSERT (negb (List_Empty l));;
  match first l with
  | None => Fail Undefined
  | Some element =>
      match heap l !! element with
      | None => Fail Undefined
      | Some e =>
          if bool_decide (first l = last l) then mret (item e, mkIntList None None (delete element (heap l)) (fresh l))
          else mret (item e, mkIntList (next e) (last l) (delete element (heap l)) (fresh l))
      end
  end.

(** [List::~List] *)
Fixpoint delete_IntList (fuel : nat) : stM IntList unit :=
  match fuel with
  | O => lift (Fail OutOfFuel)
  | Datatypes.S f =>
      e ← gets List_Empty;
      if (e : bool) then mret tt else Remove;; delete_IntList f
  end.

(** class ListStack *)
Definition new_ListStack : IntList := new_IntList.
Definition ListStack_Push (value : Z) : stM IntList unit := Prepend value.
Definition ListStack_Pop : stM IntList Z := fun s =>
  ASSERT (negb (List_Empty s));;
  Remove s.
Definition ListStack_Full (s : IntList) : bool := false.
Definition ListStack_Empty (s : IntList) : bool := List_Empty s.
Definition delete_ListStack (fuel : nat) : stM IntList unit := delete_IntList fuel.

#[global] Instance list_stack : Stack IntList := {
  Push := ListStack_Push; Pop := ListStack_Pop; Full := ListStack_Full; Empty := ListStack_Empty
}.

(** ** The tests each file runs *)

(** stack.cc: integers from 17 on *)
Definition stack_main (uninit : nat -> Z) (fuel : nat) : res (list (message Z)) :=
  s ← new_IntStack uninit 10;
  '(out, _) ← IntStack_SelfTest fuel s;
  mret out.

(** inheritstack.cc: both classes *)
Definition inherit_main (uninit : nat -> Z) (fuel : nat) : res (list (message Z) * list (message Z)) :=
  s1 ← new_IntArrayStack uninit 10;
  '(out1, _) ← SelfTest fuel 10 s1;
  '(out2, s2) ← SelfTest fuel 10 new_ListStack;
  delete_ListStack fuel s2;;
  mret (out1, out2).

(** templatestack.cc: integers, and characters from ['a'] on *)
Definition template_main (uninit : nat -> Z) (fuel : nat) : res (list (message Z) * list (message Z)) :=
  s1 ← new_ArrayStack uninit 10;
  '(out1, _) ← Array_SelfTest (fun c => int_op (c + 1)) fuel 17 s1;
  s2 ← new_ArrayStack uninit 10;
  '(out2, _) ← Array_SelfTest (fun c => mret (to_i8 (c + 1))) fuel 97 s2;
  mret (out1, out2).

(** ** What a stack is *)

Definition full_spec (cap : option Z) (xs : list Z) : bool :=
  match cap with Some n => Z.of_nat (length xs) =? n | None => false end.

(** [holds s xs]: the stack [s] has the values [xs], the top first. *)
Class StackLaws {S : Type} `{!Stack S} (cap : option Z) (holds : S -> list Z -> Prop) : Prop := {
  full_law s xs : holds s xs -> Full s = full_spec cap xs;
  empty_law s xs : holds s xs -> Empty s = bool_decide (xs = []);
  push_law s xs v : holds s xs ->
    if full_spec cap xs then Push v s = Fail AssertFail else exists s', Push v s = Ok (tt, s') /\ holds s' (v :: xs);
  pop_law s xs : holds s xs ->
    match xs with [] => Pop s = Fail AssertFail | v :: ys => exists s', Pop s = Ok (v, s') /\ holds s' ys end
}.

Inductive call := CPush (v : Z) | CPop | CFull | CEmpty.
Inductive answer := AUnit | AInt (v : Z) | ABool (b : bool).

(** What the calls mean on a list; [None] where an assertion fails *)
Definition spec (cap : option Z) (c : call) (xs : list Z) : option (answer * list Z) :=
  match c with
  | CPush v => if full_spec cap xs then None else Some (AUnit, v :: xs)
  | CPop => match xs with [] => None | v :: ys => Some (AInt v, ys) end
  | CFull => Some (ABool (full_spec cap xs), xs)
  | CEmpty => Some (ABool (bool_decide (xs = [])), xs)
  end.

Fixpoint spec_all (cap : option Z) (cs : list call) (xs : list Z) : option (list answer * list Z) :=
  match cs with
  | [] => Some ([], xs)
  | c :: cs' =>
      match spec cap c xs with
      | None => None
      | Some (a, ys) => match spec_all cap cs' ys with None => None | Some (l, zs) => Some (a :: l, zs) end
      end
  end.

Section Laws.
Context {S : Type} `{!Stack S} (cap : option Z) (holds : S -> list Z -> Prop) `{!StackLaws cap holds}.
Implicit Types (s : S) (xs : list Z).

Definition exec (c : call) : stM S answer :=
  match c with
  | CPush v => Push v;; mret AUnit
  | CPop => v ← Pop; mret (AInt v)
  | CFull => b ← gets Full; mret (ABool b)
  | CEmpty => b ← gets Empty; mret (ABool b)
  end.

Fixpoint exec_all (cs : list call) : stM S (list answer) :=
  match cs with
  | [] => mret []
  | c :: cs' => a ← exec c; l ← exec_all cs'; mret (a :: l)
  end.

Lemma exec_spec c s xs : holds s xs ->
  match spec cap c xs with
  | Some (a, ys) => exists s', exec c s = Ok (a, s') /\ holds s' ys
  | None => exec c s = Fail AssertFail
  end.
Proof.
  intros Hs. destruct c as [v | | | ]; cbn [spec exec]; unfold mbind, stM_bind, gets.
  - pose proof (push_law s xs v Hs) as H. destruct (full_spec cap xs); [by rewrite H | ]. destruct H as (s' & -> & H). by exists s'.
  - pose proof (pop_law s xs Hs) as H. destruct xs; [by rewrite H | ]. destruct H as (s' & -> & H). by exists s'.
  - exists s. by rewrite (full_law s xs Hs).
  - exists s. by rewrite (empty_law s xs Hs).
Qed.

(** Every implementation that keeps the laws answers every sequence of
    calls as a list of values does, and fails an assertion exactly where a value
    is pushed on a full stack or popped off an empty one. *)
Theorem stack_refines cs s xs (Hs : holds s xs) :
  match spec_all cap cs xs with
  | Some (l, ys) => exists s', exec_all cs s = Ok (l, s') /\ holds s' ys
  | None => exec_all cs s = Fail AssertFail
  end.
Proof.
  revert s xs Hs. induction cs as [ | c cs IH]; intros s xs Hs; cbn [spec_all exec_all]; [by exists s | ].
  unfold mbind, stM_bind. pose proof (exec_spec c s xs Hs) as Hc.
  destruct (spec cap c xs) as [[a ys] | ]; [ | by rewrite Hc]. destruct Hc as (s1 & -> & H1).
  specialize (IH s1 ys H1). destruct (spec_all cap cs ys) as [[l zs] | ]; [ | by rewrite IH].
  destruct IH as (s2 & -> & H2). by exists s2.
Qed.

(** The self test of the abstract class *)
Lemma push_loop_ok n : forall s xs count,
  holds s xs -> is_i32 (count + Z.of_nat n) -> 0 <= count -> (forall m, cap = Some m -> Z.of_nat (length xs + n) <= m) ->
  exists s', push_loop n count s = Ok (Pushing <$> seqZ count (Z.of_nat n), s') /\ holds s' (reverse (seqZ count (Z.of_nat n)) ++ xs).
Proof.
  induction n as [ | n IH]; intros s xs count Hs H32 H0 Hcap; [by exists s | ].
  assert (Hnf : full_spec cap xs = false).
  { unfold full_spec. destruct cap as [m | ]; [ | done]. apply Z.eqb_neq. specialize (Hcap m eq_refl). lia. }
  cbn [push_loop]. unfold mbind, stM_bind, gets, lift. rewrite (full_law s xs Hs), Hnf. cbn [negb ASSERT].
  pose proof (push_law s xs count Hs) as H. rewrite Hnf in H. destruct H as (s1 & E1 & H1). unfold ASSERT. rewrite E1.
  rewrite int_op_ok by (unfold is_i32 in *; lia). destruct (IH s1 (count :: xs) (count + 1) H1) as (s2 & E2 & H2).
  { unfold is_i32 in *. lia. } { lia. } { intros m Hm. specialize (Hcap m Hm). simpl. lia. }
  rewrite E2. exists s2. rewrite (seqZ_cons count (Z.of_nat (Datatypes.S n))) by lia. rewrite Z.add_1_r.
  replace (Z.pred (Z.of_nat (Datatypes.S n))) with (Z.of_nat n) by lia. rewrite Z.add_1_r in H2. split; [done | ].
  by rewrite reverse_cons, <- app_assoc.
Qed.

Lemma pop_loop_ok xs : forall fuel s, holds s xs -> (length xs < fuel)%nat ->
  exists s', pop_loop fuel s = Ok (Popping <$> xs, s') /\ holds s' [].
Proof.
  induction xs as [ | x xs IH]; intros [ | fuel] s Hs Hf; simpl in Hf; try lia; cbn [pop_loop]; unfold mbind, stM_bind, gets;
    rewrite (empty_law s _ Hs).
  - by exists s.
  - cbn. destruct (pop_law s _ Hs) as (s1 & -> & H1). destruct (IH fuel s1 H1) as (s2 & -> & H2); [lia | by exists s2].
Qed.

(** The self test of the abstract class passes on every empty stack with
    room for what it pushes, whatever the class: it prints the numbers from 17
    on as it pushes them and backwards as it pops them, and leaves the stack
    empty. *)
Theorem self_test_passes fuel n s (Hs : holds s []) (Hn : 0 <= n < 2 ^ 31 - 17) (Hcap : forall m, cap = Some m -> n <= m)
    (Hfuel : (Z.to_nat n < fuel)%nat) :
  exists s', SelfTest fuel n s = Ok ((Pushing <$> seqZ 17 n) ++ (Popping <$> reverse (seqZ 17 n)), s') /\ holds s' [].
Proof.
  unfold SelfTest, mbind, stM_bind. destruct (push_loop_ok (Z.to_nat n) s [] 17 Hs) as (s1 & E1 & H1).
  { unfold is_i32. lia. } { lia. } { intros m Hm. simpl. specialize (Hcap m Hm). lia. }
  rewrite Z2Nat.id, app_nil_r in * by lia. rewrite E1.
  destruct (pop_loop_ok _ fuel s1 H1) as (s2 & -> & H2); [by rewrite length_reverse, length_seqZ | by exists s2].
Qed.

End Laws.

(** ** The array keeps the laws *)

(** The first [top] cells hold the values, the bottom first. *)
Record array_holds {T} (n : Z) (s : ArrayStack T) (xs : list T) : Prop := {
  ah_size : size s = n;
  ah_length : Z.of_nat (length (stack s)) = n;
  ah_int : is_i32 n;
  ah_top : top s = Z.of_nat (length xs);
  ah_fits : Z.of_nat (length xs) <= n;
  ah_values : take (length xs) (stack s) = reverse xs
}.

Section ArrayLaws.
Context {T : Type}.
Implicit Types (s : ArrayStack T) (xs : list T).

Lemma array_full n s xs : array_holds n s xs -> Array_Full s = (Z.of_nat (length xs) =? n).
Proof. intros []. unfold Array_Full. congruence. Qed.

Lemma array_empty n s xs : array_holds n s xs -> Array_Empty s = (Z.of_nat (length xs) =? 0).
Proof. intros []. unfold Array_Empty. congruence. Qed.

Lemma array_push n s xs v : array_holds n s xs ->
  if Z.of_nat (length xs) =? n then Array_Push v s = Fail AssertFail
  else exists s', Array_Push v s = Ok (tt, s') /\ array_holds n s' (v :: xs).
Proof.
  intros Hs. unfold Array_Push. rewrite (array_full n s xs Hs). destruct Hs as [Hsz Hl [_ Hi] Ht Hf Hv].
  destruct (Z.eqb_spec (Z.of_nat (length xs)) n) as [ | Hne]; [done | ]. cbn [negb]. rewrite Ht, zset_in_range by lia. rsimp.
  rewrite int_op_ok by (unfold is_i32; lia). rsimp. eexists. split; [done | ]. rewrite Nat2Z.id.
  split; cbn [size top stack]; [done | by rewrite length_insert | unfold is_i32; lia | simpl; lia | simpl; lia | ].
  simpl length. rewrite (take_S_r _ _ v) by (apply list_lookup_insert_eq; lia).
  rewrite take_insert_ge by lia. by rewrite Hv, reverse_cons.
Qed.

Lemma array_pop n s xs : array_holds n s xs ->
  match xs with
  | [] => Array_Pop s = Fail AssertFail
  | v :: ys => exists s', Array_Pop s = Ok (v, s') /\ array_holds n s' ys
  end.
Proof.
  intros Hs. unfold Array_Pop. rewrite (array_empty n s xs Hs). destruct Hs as [Hsz Hl Hi Ht Hf Hv].
  destruct xs as [ | v ys]; [done | ]. cbn [length] in *. rewrite (proj2 (Z.eqb_neq _ _)) by lia. cbn [negb]. rsimp.
  rewrite Ht. replace (Z.of_nat (S (length ys)) - 1) with (Z.of_nat (length ys)) by lia.
  destruct (zget_in_range (stack s) (Z.of_nat (length ys))) as (w & Hw & ->); [lia | ]. rewrite Nat2Z.id in Hw.
  rewrite (take_S_r _ _ w Hw), reverse_cons in Hv. apply app_inj_tail in Hv as [Hv ->]. rsimp.
  eexists. split; [done | ]. split; cbn [size top stack]; done || lia.
Qed.

Lemma new_array_holds uninit n : 1 <= n < 2 ^ 31 -> exists s, new_ArrayStack uninit n = Ok s /\ array_holds n s [].
Proof.
  intros Hn. unfold new_ArrayStack. rewrite (proj2 (Z.leb_le _ _)) by lia. rsimp. eexists. split; [done | ].
  split; cbn [size top stack]; try done; [ | unfold is_i32; lia | simpl; lia]. rewrite length_fmap, length_seq. lia.
Qed.

End ArrayLaws.

#[global] Instance array_laws n : StackLaws (S := ArrayStack Z) (Some n) (array_holds n).
Proof.
  split; cbn [Full Empty Push Pop array_stack full_spec].
  - apply array_full.
  - intros s xs Hs. unfold ArrayStack_Empty. rewrite (array_empty n s xs Hs). by destruct xs.
  - intros s xs v. apply array_push.
  - intros s xs. apply array_pop.
Qed.

(** ** The linked list keeps the laws *)

(** The heap is the elements of the list and nothing else. *)
Inductive chain : gmap nat ListElement -> option nat -> option nat -> list Z -> Prop :=
  | chain_nil : chain ∅ None None []
  | chain_one a x : chain {[ a := mkElement None x ]} (Some a) (Some a) [x]
  | chain_cons a b l x h xs : chain h (Some b) (Some l) xs -> h !! a = None ->
      chain (<[a := mkElement (Some b) x]> h) (Some a) (Some l) (x :: xs).

Lemma chain_last h p l xs : chain h p (Some l) xs -> is_Some (h !! l).
Proof.
  intros Hc. remember (Some l) as q eqn:Eq. induction Hc as [ | a x | a b l' x h xs Hc IH Ha]; [done | | ].
  - injection Eq as ->. by rewrite lookup_singleton_eq.
  - destruct (IH Eq) as [e He]. injection Eq as ->. rewrite lookup_insert_ne; [by eexists | ]. intros ->. congruence.
Qed.

Record list_holds (l : IntList) (xs : list Z) : Prop := {
  lh_chain : chain (heap l) (first l) (last l) xs;
  lh_fresh a : is_Some (heap l !! a) -> (a < fresh l)%nat
}.

Lemma list_empty l xs : list_holds l xs -> List_Empty l = bool_decide (xs = []).
Proof. intros [Hc _]. unfold List_Empty. by inversion Hc. Qed.

Lemma list_push l xs v : list_holds l xs -> exists l', Prepend v l = Ok (tt, l') /\ list_holds l' (v :: xs).
Proof.
  intros Hl. unfold Prepend. rewrite (list_empty l xs Hl). destruct Hl as [Hc Hf]. destruct l as [p q h f]. cbn [first last heap fresh] in *.
  assert (Hn : h !! f = None) by (destruct (h !! f) eqn:E; [exfalso; apply (Nat.lt_irrefl f), Hf; by eexists | done]).
  assert (Hf' : forall e a, is_Some (<[f := e]> h !! a) -> (a < S f)%nat).
  { intros e a Ha. destruct (decide (a = f)) as [-> | Hne]; [lia | ]. rewrite lookup_insert_ne in Ha by done. specialize (Hf a Ha). lia. }
  inversion Hc as [ | a x | a b c x h' ys Hc' Ha]; subst; eexists; (split; [reflexivity | ]); split; cbn [heap first last fresh]; eauto.
  - rewrite insert_empty. constructor.
  - constructor; [constructor | done].
  - by constructor.
Qed.

Lemma list_remove l xs : list_holds l xs ->
  match xs with
  | [] => Remove l = Fail AssertFail
  | v :: ys => exists l', Remove l = Ok (v, l') /\ list_holds l' ys
  end.
Proof.
  intros Hl. unfold Remove. rewrite (list_empty l xs Hl). destruct Hl as [Hc Hf]. destruct l as [p q h f]. cbn [first last heap fresh] in *.
  assert (Hd : forall a b, is_Some (delete a h !! b) -> (b < f)%nat) by (intros a b [e [_ He]%lookup_delete_Some]; apply Hf; by eexists).
  inversion Hc as [ | a x | a b c x h' ys Hc' Ha]; subst; [done | | ]; cbn [bool_decide negb ASSERT]; rsimp.
  - rewrite lookup_singleton_eq. rewrite bool_decide_eq_true_2 by done. eexists. split; [done | ]. split; cbn [heap first last fresh]; [ | apply Hd].
    rewrite delete_singleton_eq. constructor.
  - rewrite lookup_insert_eq. rewrite bool_decide_eq_false_2.
    2:{ intros [= ->]. destruct (chain_last _ _ _ _ Hc') as [e He]. congruence. }
    eexists. split; [done | ]. split; cbn [heap first last fresh next]; [ | apply Hd]. by rewrite delete_insert_id.
Qed.

#[global] Instance list_laws : StackLaws (S := IntList) None list_holds.
Proof.
  split; cbn [Full Empty Push Pop list_stack full_spec].
  - done.
  - apply list_empty.
  - intros s xs v. apply list_push.
  - intros s xs Hs. unfold ListStack_Pop. rewrite (list_empty s xs Hs). pose proof (list_remove s xs Hs) as H.
    destruct xs; [done | exact H].
Qed.

Lemma new_list_holds : list_holds new_ListStack [].
Proof. split; [constructor | ]. intros a [e He]. cbn in He. by rewrite lookup_empty in He. Qed.

(** The destructor gives every element back. *)
Lemma delete_list_ok xs : forall fuel l, list_holds l xs -> (length xs < fuel)%nat ->
  exists l', delete_ListStack fuel l = Ok (tt, l') /\ heap l' = ∅.
Proof.
  unfold delete_ListStack. induction xs as [ | x xs IH]; intros [ | fuel] l Hl Hf; simpl in Hf; try lia;
    cbn [delete_IntList]; unfold mbind, stM_bind, gets; rewrite (list_empty l _ Hl).
  - exists l. split; [done | ]. destruct Hl as [Hc _]. by inversion Hc.
  - cbn. pose proof (list_remove l _ Hl) as H. simpl in H. destruct H as (l1 & -> & H1). apply IH; [done | lia].
Qed.

(** ** The two classes answer alike *)

(** Calls that do not ask whether the stack is full, and push on at most [n]
    values *)
Fixpoint within_bound (n : Z) (depth : Z) (cs : list call) : bool :=
  match cs with
  | [] => true
  | CPush _ :: cs' => (depth <? n) && within_bound n (depth + 1) cs'
  | CPop :: cs' => (depth =? 0) || within_bound n (depth - 1) cs'
  | CFull :: _ => false
  | CEmpty :: cs' => within_bound n depth cs'
  end.

Definition answers {S} (r : res (list answer * S)) : res (list answer) :=
  match r with Ok (l, _) => Ok l | Fail f => Fail f end.

Lemma spec_bound n cs : forall xs, within_bound n (Z.of_nat (length xs)) cs = true ->
  spec_all (Some n) cs xs = spec_all None cs xs.
Proof.
  induction cs as [ | c cs IH]; intros xs Hb; [done | ]. cbn [spec_all]. destruct c as [v | | | ]; cbn [within_bound spec full_spec] in *.
  - apply andb_true_iff in Hb as [Hlt Hb]. rewrite (proj2 (Z.eqb_neq _ _)) by lia. rewrite IH; [done | ].
    simpl length. by replace (Z.of_nat (S (length xs))) with (Z.of_nat (length xs) + 1) by lia.
  - destruct xs as [ | x xs]; [done | ]. rewrite IH; [done | ]. apply orb_true_iff in Hb as [Hb | Hb]; [apply Z.eqb_eq in Hb; cbn [length] in Hb; lia | ].
    simpl length in Hb. by replace (Z.of_nat (S (length xs)) - 1) with (Z.of_nat (length xs)) in Hb by lia.
  - done.
  - by rewrite IH.
Qed.

(** C40: The two implementations of the abstract class are interchangeable: an
    ArrayStack and a ListStack give the same answers to every sequence of calls
    that does not ask whether the stack is full and at no time has more values
    on the stack than the array has cells, down to the assertion that fails when
    an empty stack is popped. *)
Theorem stacks_agree n (uninit : nat -> Z) cs (Hn : 1 <= n < 2 ^ 31) (Hcs : within_bound n 0 cs = true) :
  exists s, new_ArrayStack uninit n = Ok s /\ answers (exec_all cs s) = answers (exec_all cs new_ListStack).
Proof.
  destruct (new_array_holds uninit n Hn) as (s & E & Hs). exists s. split; [exact E | ].
  pose proof (stack_refines (Some n) (array_holds n) cs s [] Hs) as H1.
  pose proof (stack_refines None list_holds cs new_ListStack [] new_list_holds) as H2.
  rewrite (spec_bound n cs []) in H1 by done. destruct (spec_all None cs []) as [[l ys] | ].
  - destruct H1 as (s1 & -> & _), H2 as (s2 & -> & _). done.
  - by rewrite H1, H2.
Qed.

Definition demo_calls : list call := [CPush 5; CPush 6; CEmpty; CPop; CPush 7; CPop; CPop; CEmpty; CPop].

Lemma stacks_agree_witness :
  exists s, new_ArrayStack (fun _ => 9) 2 = Ok s /\ answers (exec_all demo_calls s) = answers (exec_all demo_calls new_ListStack).
Proof. apply (stacks_agree 2 (fun _ => 9) demo_calls); [lia | reflexivity]. Defined.

(** ** The tests *)

(** The output of each test does not depend on what the new array held. *)
Theorem stack_tests_pass (uninit : nat -> Z) :
  let numbers := (Pushing <$> seqZ 17 10) ++ (Popping <$> reverse (seqZ 17 10)) in
  let letters := (Pushing <$> seqZ 97 10) ++ (Popping <$> reverse (seqZ 97 10)) in
  stack_main uninit 11 = Ok numbers /\ inherit_main uninit 11 = Ok (numbers, numbers) /\
  template_main uninit 11 = Ok (numbers, letters).
Proof. split_and!; vm_compute; reflexivity. Qed.
