(* ===== verification/Machine.v ===== *)
(** * The simulated machine (machine/machine.h, machine/machine.cc,
      machine/translate.h, machine/translate.cc)

    Registers, main memory, address translation through a linear page table
    or a TLB, and the trap into the kernel.  The kernel's side of a trap
    ([ExceptionHandler] of userprog/exception.cc and the interrupt module's
    [setStatus]) acts on the machine and on a kernel state [K]; here both are
    arguments, and the files that model the kernel supply them.

    A byte of main memory is kept as a number from 0 to 255; where the source
    reads it as a [char] the definition sign-extends it. *)

From S2P Require Import Prelude.

Definition PageSize : Z := 128.
Definition NumPhysPages : Z := 128.
Definition MemorySize : Z := NumPhysPages * PageSize.
Definition TLBSize : Z := 4.

Inductive ExceptionType : Set :=
  | NoException
  | SyscallException
  | PageFaultException
  | ReadOnlyException
  | BusErrorException
  | AddressErrorException
  | OverflowException
  | IllegalInstrException
  | NumExceptionTypes.

#[global] Instance ExceptionType_eq_dec : EqDecision ExceptionType.
Proof. solve_decision. Defined.

(** machine/interrupt.h *)
Inductive MachineStatus : Set := IdleMode | SystemMode | UserMode.

#[global] Instance MachineStatus_eq_dec : EqDecision MachineStatus.
Proof. solve_decision. Defined.

Definition StackReg : Z := 29.
Definition RetAddrReg : Z := 31.
Definition NumGPRegs : Z := 32.
Definition HiReg : Z := 32.
Definition LoReg : Z := 33.
Definition PCReg : Z := 34.
Definition NextPCReg : Z := 35.
Definition PrevPCReg : Z := 36.
Definition LoadReg : Z := 37.
Definition LoadValueReg : Z := 38.
Definition BadVAddrReg : Z := 39.
Definition NumTotalRegs : Z := 40.

Record TranslationEntry := mkEntry {
  virtualPage : Z;
  physicalPage : Z;
  valid : bool;
  readOnly : bool;
  use : bool;
  dirty : bool
}.

(** [tlb] and [pageTable] are pointers: [None] is NULL.  [pageTableSize] is a
    field of its own in the source too. *)
Record Machine := mkMachine {
  registers : list Z;
  mainMemory : list Z;
  tlb : option (list TranslationEntry);
  pageTable : option (list TranslationEntry);
  pageTableSize : Z
}.

Definition with_registers (m : Machine) (r : list Z) : Machine :=
  mkMachine r (mainMemory m) (tlb m) (pageTable m) (pageTableSize m).
Definition with_memory (m : Machine) (mem : list Z) : Machine :=
  mkMachine (registers m) mem (tlb m) (pageTable m) (pageTableSize m).
Definition with_tlb (m : Machine) (t : list TranslationEntry) : Machine :=
  mkMachine (registers m) (mainMemory m) (Some t) (pageTable m) (pageTableSize m).
Definition with_pageTable (m : Machine) (t : option (list TranslationEntry)) : Machine :=
  mkMachine (registers m) (mainMemory m) (tlb m) t (pageTableSize m).

(** [Machine::Machine], as built (USE_TLB is not defined).  [pageTableSize]
    is not initialised by the constructor; it is an argument. *)
Definition new_Machine (garbage : Z) : Machine :=
  mkMachine (replicate (Z.to_nat NumTotalRegs) 0) (replicate (Z.to_nat MemorySize) 0)
    None None garbage.

(** WordToHost, ShortToHost and their inverses on the little-endian host. *)
Definition WordToHost (word : Z) : Z := word.
Definition ShortToHost (shortword : Z) : Z := shortword.
Definition WordToMachine (word : Z) : Z := WordToHost word.
Definition ShortToMachine (shortword : Z) : Z := ShortToHost shortword.

(** The host's view of [n] bytes at an address as a little-endian integer. *)
Fixpoint load_le (n : nat) (mem : list Z) (pa : Z) : res Z :=
  match n with
  | O => mret 0
  | S n' => b ← zget mem pa; r ← load_le n' mem (pa + 1); mret (b + 256 * r)
  end.

Fixpoint store_le (n : nat) (mem : list Z) (pa v : Z) : res (list Z) :=
  match n with
  | O => mret mem
  | S n' => mem ← zset mem pa (v mod 256); store_le n' mem (pa + 1) (v / 256)
  end.

(** The TLB loop: the index of the first valid entry for [vpn]. *)
Fixpoint tlb_search (n : nat) (i : Z) (t : list TranslationEntry) (vpn : Z) : res (option Z) :=
  match n with
  | O => mret None
  | S n' =>
      e ← zget t i;
      if valid e && (virtualPage e =? to_i32 vpn) then mret (Some i)
      else tlb_search n' (i + 1) t vpn
  end.

(** [entry->use = TRUE; if (writing) entry->dirty = TRUE;] *)
Definition touch (e : TranslationEntry) (writing : bool) : TranslationEntry :=
  mkEntry (virtualPage e) (physicalPage e) (valid e) (readOnly e) true (dirty e || writing).

(** The lookup part of [Translate]: where the entry is, or the exception. *)
Definition find_entry (m : Machine) (vpn : Z) : res (ExceptionType + (Z * TranslationEntry)) :=
  match tlb m with
  | None =>
      if pageTableSize m <=? vpn then mret (inl AddressErrorException)
      else
        match pageTable m with
        | None => Fail Undefined
        | Some pt =>
            e ← zget pt vpn;
            if negb (valid e) then mret (inl PageFaultException) else mret (inr (vpn, e))
        end
  | Some t =>
      o ← tlb_search (Z.to_nat TLBSize) 0 t vpn;
      match o with
      | None => mret (inl PageFaultException)
      | Some i => e ← zget t i; mret (inr (i, e))
      end
  end.

(** [entry] points into the table it was found in. *)
Definition store_entry (m : Machine) (i : Z) (e : TranslationEntry) : res Machine :=
  match tlb m with
  | None =>
      match pageTable m with
      | None => Fail Undefined
      | Some pt => pt' ← zset pt i e; mret (with_pageTable m (Some pt'))
      end
  | Some t => t' ← zset t i e; mret (with_tlb m t')
  end.

(** [Machine::Translate]: the exception code, the physical address (when
    there is no exception) and the machine with its use and dirty bits set. *)
Definition Translate (m : Machine) (virtAddr size : Z) (writing : bool)
    : res (ExceptionType * Z * Machine) :=
  if ((size =? 4) && negb (Z.land virtAddr 3 =? 0)) ||
     ((size =? 2) && negb (Z.land virtAddr 1 =? 0))
  then mret (AddressErrorException, 0, m)
  else
    ASSERT (bool_decide (tlb m = None) || bool_decide (pageTable m = None));;
    ASSERT (negb (bool_decide (tlb m = None)) || negb (bool_decide (pageTable m = None)));;
    let vpn := to_u32 virtAddr / PageSize in
    let offset := to_u32 virtAddr mod PageSize in
    r ← find_entry m vpn;
    match r with
    | inl ex => mret (ex, 0, m)
    | inr (i, e) =>
        if readOnly e && writing then mret (ReadOnlyException, 0, m)
        else
          let pageFrame := to_u32 (physicalPage e) in
          if NumPhysPages <=? pageFrame then mret (BusErrorException, 0, m)
          else
            m' ← store_entry m i (touch e writing);
            let physAddr := to_i32 (to_u32 (pageFrame * PageSize + offset)) in
            ASSERT ((0 <=? physAddr) && (physAddr + size <=? MemorySize));;
            mret (NoException, physAddr, m')
    end.

(** ** Operations that may trap *)

Section Traps.
Context {K : Type}.
Context (setStatus : MachineStatus -> K -> K).
Context (ExceptionHandler : ExceptionType -> stM (Machine * K) unit).

Definition getreg (num : Z) : stM (Machine * K) Z :=
  fun s => r ← zget (registers s.1) num; mret (r, s).
Definition setreg (num value : Z) : stM (Machine * K) unit :=
  fun s => r ← zset (registers s.1) num value; mret (tt, (with_registers s.1 r, s.2)).

Definition ReadRegister (num : Z) : stM (Machine * K) Z :=
  lift (ASSERT ((0 <=? num) && (num <? NumTotalRegs)));; getreg num.

Definition WriteRegister (num value : Z) : stM (Machine * K) unit :=
  lift (ASSERT ((0 <=? num) && (num <? NumTotalRegs)));; setreg num value.

(** machine/mipssim.cc *)
Definition DelayedLoad (nextReg nextValue : Z) : stM (Machine * K) unit :=
  lr ← getreg LoadReg;
  lv ← getreg LoadValueReg;
  setreg lr lv;;
  setreg LoadReg nextReg;;
  setreg LoadValueReg nextValue;;
  setreg 0 0.

Definition RaiseException (which : ExceptionType) (badVAddr : Z) : stM (Machine * K) unit :=
  setreg BadVAddrReg badVAddr;;
  DelayedLoad 0 0;;
  modify (fun s => (s.1, setStatus SystemMode s.2));;
  ExceptionHandler which;;
  modify (fun s => (s.1, setStatus UserMode s.2)).

(** [Translate] as a step on the state: its table updates are kept. *)
Definition translate (addr size : Z) (writing : bool) : stM (Machine * K) (ExceptionType * Z) :=
  fun s =>
    '(ex, pa, m) ← Translate s.1 addr size writing;
    mret (ex, pa, (m, s.2)).

(** [ReadMem]: [Some value] where the source returns TRUE. *)
Definition ReadMem (addr size : Z) : stM (Machine * K) (option Z) :=
  '(exception, physicalAddress) ← translate addr size false;
  if negb (bool_decide (exception = NoException)) then
    RaiseException exception addr;; mret None
  else
    mem ← gets (fun s => mainMemory s.1);
    if size =? 1 then
      data ← lift (load_le 1 mem physicalAddress); mret (Some (to_i8 data))
    else if size =? 2 then
      data ← lift (load_le 2 mem physicalAddress); mret (Some (ShortToHost data))
    else if size =? 4 then
      data ← lift (load_le 4 mem physicalAddress); mret (Some (to_i32 (WordToHost data)))
    else lift (Fail AssertFail).

Definition store (n : nat) (pa v : Z) : stM (Machine * K) unit :=
  fun s => mem ← store_le n (mainMemory s.1) pa v; mret (tt, (with_memory s.1 mem, s.2)).

(** [WriteMem]: whether the source returns TRUE. *)
Definition WriteMem (addr size value : Z) : stM (Machine * K) bool :=
  '(exception, physicalAddress) ← translate addr size true;
  if negb (bool_decide (exception = NoException)) then
    RaiseException exception addr;; mret false
  else if size =? 1 then
    store 1 physicalAddress (to_u8 (Z.land value 255));; mret true
  else if size =? 2 then
    store 2 physicalAddress (ShortToMachine (to_u16 (Z.land value 65535)));; mret true
  else if size =? 4 then
    store 4 physicalAddress (WordToMachine (to_u32 value));; mret true
  else lift (Fail AssertFail).

End Traps.

(** ** Well-formed machines *)

Definition is_byte (b : Z) : Prop := 0 <= b < 256.

Definition mem_wf (mem : list Z) : Prop :=
  length mem = Z.to_nat MemorySize /\ Forall is_byte mem.

(** Exactly one kind of table, at least as large as the code believes. *)
Definition tables_wf (m : Machine) : Prop :=
  match tlb m, pageTable m with
  | None, Some pt => pageTableSize m <= Z.of_nat (length pt)
  | Some t, None => length t = Z.to_nat TLBSize
  | _, _ => False
  end.

(** Registers hold [int]s, and a pending load targets a general register. *)
Record regs_wf (r : list Z) : Prop := {
  regs_length : length r = Z.to_nat NumTotalRegs;
  regs_i32 : Forall is_i32 r;
  regs_load : exists d, r !! Z.to_nat LoadReg = Some d /\ 0 <= d < NumGPRegs
}.

(** As built there is no TLB, and an address space is no larger than
    physical memory ([AddrSpace::Load] asserts it). *)
Definition small_space (m : Machine) : Prop := tlb m = None /\ pageTableSize m <= NumPhysPages.

Record machine_wf (m : Machine) : Prop := {
  wf_regs : regs_wf (registers m);
  wf_mem : mem_wf (mainMemory m);
  wf_tables : tables_wf m;
  wf_space : small_space m
}.

(** ** Translation *)

(** The table of [m] maps page [vpn] by its entry number [i], which is [e]. *)
Definition entry_for (m : Machine) (vpn i : Z) (e : TranslationEntry) : Prop :=
  match tlb m, pageTable m with
  | None, Some pt => i = vpn /\ vpn < pageTableSize m /\ zget pt i = Ok e /\ valid e = true
  | Some t, None =>
      zget t i = Ok e /\ valid e = true /\ virtualPage e = vpn /\
      forall j e', 0 <= j < i -> zget t j = Ok e' -> ~ (valid e' = true /\ virtualPage e' = vpn)
  | _, _ => False
  end.

Definition aligned (addr size : Z) : bool := addr mod size =? 0.
Definition is_size (size : Z) : Prop := size = 1 \/ size = 2 \/ size = 4.

Lemma zget_zset_eq {A} (l l' : list A) i x : zset l i x = Ok l' -> zget l' i = Ok x.
Proof.
  unfold zset, zget. destruct (0 <=? i) eqn:E; [ | done]. simpl.
  destruct (Z.ltb_spec i (Z.of_nat (length l))); [ | done]. intros [= <-].
  rewrite list_lookup_insert_eq; [done | ]. lia.
Qed.

Lemma zget_zset_ne {A} (l l' : list A) i j x :
  zset l i x = Ok l' -> i <> j -> zget l' j = zget l j.
Proof.
  unfold zset, zget. destruct (0 <=? i) eqn:E; [ | done]. simpl.
  destruct (Z.ltb_spec i (Z.of_nat (length l))); [ | done]. intros [= <-] Hne. bool_prop.
  destruct (0 <=? j) eqn:Ej; [ | done]. bool_prop.
  rewrite list_lookup_insert_ne; [done | ]. lia.
Qed.

Lemma zset_length {A} (l l' : list A) i x : zset l i x = Ok l' -> length l' = length l.
Proof. unfold zset. case_match; [ | done]. intros [= <-]. apply length_insert. Qed.

Lemma zset_some {A} (l : list A) i x y : zget l i = Ok y -> exists l', zset l i x = Ok l'.
Proof. intros [Hi _]%zget_ok. eexists. by apply zset_in_range. Qed.

Lemma tlb_search_spec n : forall i t vpn,
  0 <= i -> length t = (Z.to_nat i + n)%nat -> is_u32 vpn -> vpn < 2 ^ 31 ->
  exists o, tlb_search n i t vpn = Ok o /\
  match o with
  | Some k => i <= k /\ (exists e, zget t k = Ok e /\ valid e = true /\ virtualPage e = vpn) /\
      forall j e', i <= j < k -> zget t j = Ok e' -> ~ (valid e' = true /\ virtualPage e' = vpn)
  | None => forall j e', i <= j -> zget t j = Ok e' -> ~ (valid e' = true /\ virtualPage e' = vpn)
  end.
Proof.
  induction n as [ | n IH]; intros i t vpn Hi Hlen Hv Hv'; simpl.
  - exists None. split; [done | ]. intros j e' Hj [? _]%zget_ok. lia.
  - destruct (zget_in_range t i) as (e & _ & Ee); [lia | ]. rewrite Ee. rsimp.
    rewrite (to_i32_id vpn) by cint.
    destruct (valid e && (virtualPage e =? vpn)) eqn:Ev.
    + bool_prop. exists (Some i). split; [done | ]. split_and!; [lia | eauto | ]. lia.
    + destruct (IH (i + 1) t vpn) as (o & Eo & Ho); [lia | lia | done | done | ].
      exists o. split; [done | ].
      assert (Hbad : ~ (valid e = true /\ virtualPage e = vpn)).
      { intros [H1 H2]. by rewrite H1, H2, Z.eqb_refl in Ev. }
      destruct o as [k | ].
      * destruct Ho as (Hk & Hex & Hfst). split_and!; [lia | done | ].
        intros j e' Hj Ej. destruct (Z.eq_dec j i) as [-> | ]; [congruence | ]. apply (Hfst j); [lia | done].
      * intros j e' Hj Ej. destruct (Z.eq_dec j i) as [-> | ]; [congruence | ]. apply (Ho j); [lia | done].
Qed.

Lemma find_entry_spec m vpn :
  tables_wf m -> is_u32 vpn -> vpn < 2 ^ 31 ->
  exists r, find_entry m vpn = Ok r /\
  match r with
  | inr (i, e) => entry_for m vpn i e
  | inl ex => (ex = AddressErrorException \/ ex = PageFaultException) /\
      (ex = AddressErrorException <-> tlb m = None /\ pageTableSize m <= vpn) /\
      forall i e, ~ entry_for m vpn i e
  end.
Proof.
  intros Hwf Hv Hv'. unfold find_entry, entry_for, tables_wf in *.
  destruct (tlb m) as [t | ], (pageTable m) as [pt | ]; try done.
  - destruct (tlb_search_spec (Z.to_nat TLBSize) 0 t vpn) as (o & -> & Ho);
      [lia | lia | done | done | ]. rsimp. destruct o as [k | ].
    + destruct Ho as (Hk & (e & Ee & Hve & Hp) & Hfst). rewrite Ee. rsimp.
      exists (inr (k, e)). done.
    + eexists. split; [done | ]. split_and!; [by right | | ].
      * split; [done | by intros [? _]].
      * intros i e (Ee & Hve & Hp & _). destruct (zget_ok _ _ _ Ee) as [? _].
        eapply (Ho i e); [lia | done | done].
  - destruct (Z.leb_spec (pageTableSize m) vpn) as [Hle | Hlt].
    + eexists. split; [done | ]. split_and!; [by left | done | ].
      intros i e (-> & ? & _). lia.
    + destruct (zget_in_range pt vpn) as (e & _ & Ee); [cint | ]. rewrite Ee. rsimp.
      destruct (valid e) eqn:Ev; simpl; eexists; (split; [done | ]); [done | ].
      split_and!; [by right | | ].
      * split; [done | ]. intros [_ ?]. lia.
      * intros i e' (-> & _ & Ee' & Hv2). congruence.
Qed.

Lemma store_entry_ok m vpn i e e' :
  entry_for m vpn i e -> exists m', store_entry m i e' = Ok m' /\
    registers m' = registers m /\ mainMemory m' = mainMemory m /\
    pageTableSize m' = pageTableSize m /\
    match tlb m, pageTable m with
    | None, Some pt => exists pt', zset pt i e' = Ok pt' /\ tlb m' = None /\ pageTable m' = Some pt'
    | Some t, None => exists t', zset t i e' = Ok t' /\ tlb m' = Some t' /\ pageTable m' = None
    | _, _ => False
    end.
Proof.
  unfold entry_for, store_entry.
  destruct (tlb m) as [t | ] eqn:Et, (pageTable m) as [pt | ] eqn:Ep; try done.
  - intros (Ee & _). destruct (zset_some t i e' e Ee) as [t' ->]. simpl. eauto 10.
  - intros (-> & _ & Ee & _). destruct (zset_some pt vpn e' e Ee) as [t' ->]. simpl. eauto 10.
Qed.

Lemma land_3 a : Z.land a 3 = a mod 4.
Proof. change 3 with (Z.ones 2). by rewrite Z.land_ones by lia. Qed.

Lemma land_1 a : Z.land a 1 = a mod 2.
Proof. change 1 with (Z.ones 1). by rewrite Z.land_ones by lia. Qed.

Lemma misaligned_spec va size :
  is_size size ->
  ((size =? 4) && negb (Z.land va 3 =? 0)) || ((size =? 2) && negb (Z.land va 1 =? 0)) =
  negb (aligned va size).
Proof.
  intros [-> | [-> | ->]]; unfold aligned; rewrite ?land_3, ?land_1; simpl.
  - by rewrite Z.mod_1_r.
  - done.
  - by rewrite orb_false_r.
Qed.

Lemma touch_entry_for m m' vpn i e w :
  entry_for m vpn i e -> store_entry m i (touch e w) = Ok m' -> entry_for m' vpn i (touch e w).
Proof.
  intros He Es. destruct (store_entry_ok m vpn i e (touch e w) He) as (m1 & E1 & _ & _ & Hs & H1).
  rewrite Es in E1. injection E1 as <-. unfold entry_for in *.
  destruct (tlb m) as [t | ], (pageTable m) as [pt | ]; try done;
    destruct H1 as (t' & Ht & -> & ->).
  - destruct He as (Ee & Hv & Hp & Hf). split_and!; try done; [by eapply zget_zset_eq | ].
    intros j e' Hj Ej. apply (Hf j); [done | ].
    rewrite <- Ej. symmetry. eapply zget_zset_ne; [done | lia].
  - destruct He as (-> & Hlt & Ee & Hv). rewrite Hs. split_and!; [done | done | by eapply zget_zset_eq | done].
Qed.

Lemma store_entry_tables m m' vpn i e e' :
  entry_for m vpn i e -> store_entry m i e' = Ok m' -> tables_wf m -> tables_wf m'.
Proof.
  intros He Es. destruct (store_entry_ok m vpn i e e' He) as (m1 & E1 & _ & _ & Hs & H1).
  rewrite Es in E1. injection E1 as <-. unfold tables_wf.
  destruct (tlb m) as [t | ], (pageTable m) as [pt | ]; try done;
    destruct H1 as (t' & Ht & -> & ->); apply zset_length in Ht; [lia | ]. by rewrite Hs, Ht.
Qed.

(** What a translation without exception found and did. *)
Record translated (m : Machine) (va size : Z) (writing : bool) (pa : Z) (m' : Machine)
    (i : Z) (e : TranslationEntry) : Prop := {
  tr_aligned : aligned va size = true;
  tr_entry : entry_for m (to_u32 va / PageSize) i e;
  tr_perm : writing = true -> readOnly e = false;
  tr_frame : to_u32 (physicalPage e) < NumPhysPages;
  tr_pa : pa = to_u32 (physicalPage e) * PageSize + to_u32 va mod PageSize;
  tr_bounds : 0 <= pa /\ pa + size <= MemorySize;
  tr_store : store_entry m i (touch e writing) = Ok m'
}.

Lemma translate_in_bounds frame va size :
  is_size size -> aligned va size = true -> 0 <= frame < NumPhysPages ->
  let pa := frame * PageSize + to_u32 va mod PageSize in
  0 <= pa /\ pa + size <= MemorySize /\ to_i32 (to_u32 pa) = pa /\ aligned pa size = true.
Proof.
  unfold aligned, PageSize, MemorySize, NumPhysPages, PageSize.
  intros Hs Ha Hf. apply Z.eqb_eq in Ha.
  destruct Hs as [-> | [-> | ->]]; (split_and!; [ .. | apply Z.eqb_eq]); cint.
Qed.

Lemma entry_for_unique m vpn i e i' e' :
  entry_for m vpn i e -> entry_for m vpn i' e' -> i = i' /\ e = e'.
Proof.
  unfold entry_for. destruct (tlb m) as [t | ], (pageTable m) as [pt | ]; try done.
  - intros (E1 & V1 & P1 & F1) (E2 & V2 & P2 & F2).
    destruct (zget_ok _ _ _ E1) as [? _], (zget_ok _ _ _ E2) as [? _].
    destruct (Z.lt_trichotomy i i') as [? | [-> | ?]].
    + exfalso. apply (F2 i e); [lia | done | done].
    + split; [done | congruence].
    + exfalso. apply (F1 i' e'); [lia | done | done].
  - intros (-> & _ & E1 & _) (-> & _ & E2 & _). split; [done | congruence].
Qed.

Lemma Translate_spec m va size writing :
  tables_wf m -> is_size size ->
  exists ex pa m', Translate m va size writing = Ok (ex, pa, m') /\ tables_wf m' /\
    registers m' = registers m /\ mainMemory m' = mainMemory m /\
    match ex with
    | NoException => exists i e, translated m va size writing pa m' i e
    | AddressErrorException =>
        m' = m /\ (aligned va size = false \/
                   tlb m = None /\ pageTableSize m <= to_u32 va / PageSize)
    | PageFaultException => m' = m /\ aligned va size = true /\
        forall i e, ~ entry_for m (to_u32 va / PageSize) i e
    | ReadOnlyException => m' = m /\ writing = true /\
        exists i e, entry_for m (to_u32 va / PageSize) i e /\ readOnly e = true
    | BusErrorException => m' = m /\
        exists i e, entry_for m (to_u32 va / PageSize) i e /\
          NumPhysPages <= to_u32 (physicalPage e)
    | _ => False
    end.
Proof.
  intros Hwf Hs. unfold Translate. rewrite misaligned_spec by done.
  destruct (aligned va size) eqn:Ha; simpl; [ | by eauto 15].
  assert (Hone : bool_decide (tlb m = None) || bool_decide (pageTable m = None) = true /\
    negb (bool_decide (tlb m = None)) || negb (bool_decide (pageTable m = None)) = true).
  { unfold tables_wf in Hwf. by destruct (tlb m), (pageTable m). }
  destruct Hone as [-> ->]. rsimp.
  destruct (find_entry_spec m (to_u32 va / PageSize)) as (r & -> & Hr); [done | unfold PageSize; cint | unfold PageSize; cint | ].
  rsimp. destruct r as [ex | [i e]].
  - destruct Hr as ([-> | ->] & Hae & Hno); eexists _, _, _; (split_and!; [done.. | ]).
    + split; [done | ]. right. by apply Hae.
    + done.
  - destruct (readOnly e && writing) eqn:Ero.
    { bool_prop. eexists _, _, _. split_and!; [done.. | ]. simpl. eauto 10. }
    destruct (Z.leb_spec NumPhysPages (to_u32 (physicalPage e))).
    { eexists _, _, _. split_and!; [done.. | ]. simpl. eauto 10. }
    destruct (store_entry_ok m _ i e (touch e writing) Hr) as (m' & Em & Hreg & Hmem & _).
    rewrite Em. rsimp.
    destruct (translate_in_bounds (to_u32 (physicalPage e)) va size) as (H0 & H1 & -> & Hal);
      [done | done | split; [apply to_u32_range | done] | ].
    apply Z.leb_le in H0 as H0', H1 as H1'. rewrite H0', H1'. rsimp.
    eexists _, _, _. split; [done | ]. split; [by eapply store_entry_tables | ].
    split_and!; [done.. | ]. exists i, e. split; try done.
    intros ->. by rewrite andb_true_r in Ero.
Qed.

(** ** Memory *)

Lemma load_le_range n : forall mem pa,
  Forall is_byte mem -> 0 <= pa -> pa + Z.of_nat n <= Z.of_nat (length mem) ->
  exists v, load_le n mem pa = Ok v /\ 0 <= v < 256 ^ Z.of_nat n.
Proof.
  induction n as [ | n IH]; intros mem pa Hb H0 Hn; simpl; [by exists 0 | ].
  destruct (zget_in_range mem pa) as (b & Lb & ->); [lia | ]. rsimp.
  destruct (IH mem (pa + 1)) as (v & -> & Hv); [done | lia | lia | ]. rsimp.
  eexists. split; [done | ]. eapply Forall_lookup_1 in Lb; [ | done]. unfold is_byte in Lb.
  rewrite Nat2Z.inj_succ, Z.pow_succ_r by lia. nia.
Qed.

Lemma load_le_frame n : forall mem mem' pa,
  (forall j, pa <= j < pa + Z.of_nat n -> zget mem' j = zget mem j) ->
  load_le n mem' pa = load_le n mem pa.
Proof.
  induction n as [ | n IH]; intros mem mem' pa H; simpl; [done | ].
  rewrite (H pa) by lia. by rewrite (IH mem mem' (pa + 1)) by (intros; apply H; lia).
Qed.

Lemma Forall_zset {A} (P : A -> Prop) (l l' : list A) i x :
  zset l i x = Ok l' -> Forall P l -> P x -> Forall P l'.
Proof. unfold zset. case_match; [ | done]. intros [= <-] ? ?. by apply Forall_insert. Qed.

Lemma store_le_spec n : forall mem pa v,
  Forall is_byte mem -> 0 <= pa -> pa + Z.of_nat n <= Z.of_nat (length mem) ->
  exists mem', store_le n mem pa v = Ok mem' /\ Forall is_byte mem' /\
    length mem' = length mem /\
    (forall j, ~ pa <= j < pa + Z.of_nat n -> zget mem' j = zget mem j) /\
    load_le n mem' pa = Ok (v mod 256 ^ Z.of_nat n).
Proof.
  induction n as [ | n IH]; intros mem pa v Hb H0 Hn; simpl.
  - exists mem. split_and!; try done. by rewrite Z.mod_1_r.
  - assert (is_byte (v mod 256)) by (unfold is_byte; apply Z.mod_pos_bound; lia).
    destruct (zget_in_range mem pa) as (b & Lb & Eb); [lia | ].
    destruct (zset_some mem pa (v mod 256) _ Eb) as [mem1 E1]. rewrite E1. rsimp.
    apply zset_length in E1 as Hl1.
    destruct (IH mem1 (pa + 1) (v / 256)) as (mem' & -> & Hb' & Hl' & Hf' & Hld);
      [by eapply Forall_zset | lia | lia | ]. rsimp.
    exists mem'. split_and!; [done | done | lia | | ].
    + intros j Hj. rewrite Hf' by lia. apply (zget_zset_ne _ _ _ _ _ E1). lia.
    + rewrite Hf' by lia. rewrite (zget_zset_eq _ _ _ _ E1). rsimp. rewrite Hld. rsimp.
      f_equal. rewrite Nat2Z.inj_succ, Z.pow_succ_r by lia.
      rewrite Z.rem_mul_r by lia. lia.
Qed.

(** The value [ReadMem] yields for the [size] bytes it finds, and what is
    left of a value written with [WriteMem]: a byte is sign-extended, a half
    word is not, a word is an [int]. *)
Definition narrow (size v : Z) : Z :=
  if size =? 1 then to_i8 v else if size =? 2 then to_u16 v else to_i32 v.

#[global] Arguments store_le : simpl never.
#[global] Arguments load_le : simpl never.

Section MemoryAccess.
Context {K : Type}.
Context (setStatus : MachineStatus -> K -> K).
Context (ExceptionHandler : ExceptionType -> stM (Machine * K) unit).
Implicit Types (m : Machine) (k : K).

Notation read := (ReadMem setStatus ExceptionHandler).
Notation write := (WriteMem setStatus ExceptionHandler).

Lemma narrow_i32 size v : is_size size -> is_i32 (narrow size v).
Proof. intros [-> | [-> | ->]]; unfold narrow; simpl; cint. Qed.

Lemma narrow_idem size v :
  is_size size -> narrow size (v mod 256 ^ size) = narrow size v.
Proof.
  intros [-> | [-> | ->]]; unfold narrow; simpl.
  - change (256 ^ 1) with 256. cint.
  - change (256 ^ 2) with 65536. cint.
  - change (256 ^ 4) with 4294967296. cint.
Qed.

(** A read either delivers the bytes at the translated address, or it is the
    trap for the exception that translation reports. *)
Lemma ReadMem_spec m k addr size :
  tables_wf m -> mem_wf (mainMemory m) -> is_size size ->
  exists ex pa m', Translate m addr size false = Ok (ex, pa, m') /\
  ((ex = NoException /\ exists v, load_le (Z.to_nat size) (mainMemory m) pa = Ok v /\
      0 <= v < 256 ^ size /\ read addr size (m, k) = Ok (Some (narrow size v), (m', k))) \/
   (ex <> NoException /\
      read addr size (m, k) =
      (RaiseException setStatus ExceptionHandler ex addr;; mret None) (m, k))).
Proof.
  intros Ht [Hlen Hb] Hs.
  destruct (Translate_spec m addr size false Ht Hs) as (ex & pa & m' & E & _ & _ & Hm & Hex).
  exists ex, pa, m'. split; [done | ]. unfold ReadMem, translate, mbind, stM_bind. simpl. rewrite E.
  simpl. destruct (decide (ex = NoException)) as [-> | Hne].
  - left. split; [done | ]. destruct Hex as (i & e & [_ _ _ _ _ [Hp0 Hp1] _]).
    destruct (load_le_range (Z.to_nat size) (mainMemory m) pa Hb) as (v & Ev & Hv);
      [lia | unfold is_size in Hs; lia | ].
    exists v. rewrite Z2Nat.id in Hv by (unfold is_size in Hs; lia).
    split_and!; [done | lia | lia | ]. unfold gets. simpl. rewrite Hm.
    destruct Hs as [-> | [-> | ->]]; simpl;
      [change (Z.to_nat 1) with 1%nat in Ev | change (Z.to_nat 2) with 2%nat in Ev
        | change (Z.to_nat 4) with 4%nat in Ev]; unfold lift; rewrite Ev; [done | | done].
    unfold narrow, ShortToHost. simpl. change (256 ^ 2) with 65536 in Hv.
    by replace (to_u16 v) with v by cint.
  - right. rewrite bool_decide_eq_false_2 by done. simpl. split; [done | ].
    assert (m' = m) as -> by (destruct ex; naive_solver). done.
Qed.

Lemma WriteMem_spec m k addr size value :
  tables_wf m -> mem_wf (mainMemory m) -> is_size size ->
  exists ex pa m', Translate m addr size true = Ok (ex, pa, m') /\
  ((ex = NoException /\ exists mem',
      store_le (Z.to_nat size) (mainMemory m) pa (value mod 256 ^ size) = Ok mem' /\
      write addr size value (m, k) = Ok (true, (with_memory m' mem', k))) \/
   (ex <> NoException /\
      write addr size value (m, k) =
      (RaiseException setStatus ExceptionHandler ex addr;; mret false) (m, k))).
Proof.
  intros Ht [Hlen Hb] Hs.
  destruct (Translate_spec m addr size true Ht Hs) as (ex & pa & m' & E & _ & _ & Hm & Hex).
  exists ex, pa, m'. split; [done | ]. unfold WriteMem, translate, mbind, stM_bind. simpl. rewrite E.
  simpl. destruct (decide (ex = NoException)) as [-> | Hne].
  - left. split; [done | ]. destruct Hex as (i & e & [_ _ _ _ _ [Hp0 Hp1] _]).
    destruct (store_le_spec (Z.to_nat size) (mainMemory m) pa (value mod 256 ^ size) Hb)
      as (mem' & Em & _); [lia | unfold is_size in Hs; lia | ].
    exists mem'. split; [done | ].
    assert (Z.land value 255 = value mod 256 /\ Z.land value 65535 = value mod 65536) as [H1 H2].
    { change 255 with (Z.ones 8). change 65535 with (Z.ones 16).
      by rewrite !Z.land_ones by lia. }
    unfold store, to_u8, to_u16, to_u32, ShortToMachine, WordToMachine, ShortToHost, WordToHost.
    rewrite H1, H2.
    destruct Hs as [-> | [-> | ->]]; simpl; rewrite Hm; unfold mbind, res_bind;
      [change (256 ^ 1) with 256 in Em | change (256 ^ 2) with 65536 in Em
        | change (256 ^ 4) with (2 ^ 32) in Em];
      [change (Z.to_nat 1) with 1%nat in Em | change (Z.to_nat 2) with 2%nat in Em
        | change (Z.to_nat 4) with 4%nat in Em]; pow2;
      rewrite ?Zmod_mod, Em; done.
  - right. rewrite bool_decide_eq_false_2 by done. simpl. split; [done | ].
    assert (m' = m) as -> by (destruct ex; naive_solver). done.
Qed.

Lemma Translate_again m va size w w' pa m' i e :
  tables_wf m -> is_size size -> translated m va size w pa m' i e ->
  (w' = true -> readOnly e = false) ->
  exists m'', Translate m' va size w' = Ok (NoException, pa, m'') /\
    registers m'' = registers m' /\ mainMemory m'' = mainMemory m'.
Proof.
  intros Ht Hs [Ha He Hp Hf Hpa Hb Hst] Hw.
  pose proof (store_entry_tables _ _ _ _ _ _ He Hst Ht) as Ht'.
  pose proof (touch_entry_for _ _ _ _ _ _ He Hst) as He'.
  destruct (Translate_spec m' va size w' Ht' Hs) as (ex & pa' & m'' & E & _ & Hr & Hm & Hex).
  exists m''. rewrite E. destruct ex; try done.
  - destruct Hex as (i' & e' & [_ He2 _ _ Hpa' _ _]).
    destruct (entry_for_unique _ _ _ _ _ _ He' He2) as [<- <-]. simpl in Hpa'. subst. done.
  - destruct Hex as (_ & _ & Hno). by destruct (Hno i (touch e w)).
  - destruct Hex as (_ & Hw' & i' & e' & He2 & Hro).
    destruct (entry_for_unique _ _ _ _ _ _ He' He2) as [<- <-]. simpl in Hro.
    rewrite Hw in Hro; done.
  - destruct Hex as (_ & i' & e' & He2 & Hbig).
    destruct (entry_for_unique _ _ _ _ _ _ He' He2) as [<- <-]. simpl in Hbig. lia.
  - destruct Hex as (_ & [? | [Htl Hsz]]); [congruence | ]. exfalso.
    clear -He' Htl Hsz Ht'. unfold entry_for, tables_wf in *. rewrite Htl in *.
    destruct (pageTable m'); [ | done]. destruct He' as (-> & ? & _). lia.
Qed.

(** The table the machine translates by. *)
Definition table_in_use m : option (list TranslationEntry) :=
  match tlb m with Some t => Some t | None => pageTable m end.

(** [e'] is [e] with the use bit set and, for a write, the dirty bit; the
    mapping and the permissions are those of [e]. *)
Record entry_used (e e' : TranslationEntry) (writing : bool) : Prop := {
  used_page : virtualPage e' = virtualPage e;
  used_frame : physicalPage e' = physicalPage e;
  used_valid : valid e' = valid e;
  used_readOnly : readOnly e' = readOnly e;
  used_use : use e' = true;
  used_dirty : dirty e' = if writing then true else dirty e
}.

Lemma touch_used e writing : entry_used e (touch e writing) writing.
Proof. split; try done. simpl. by destruct writing, (dirty e). Qed.

Lemma zset_insert {A} (l : list A) i x l' : zset l i x = Ok l' -> l' = <[Z.to_nat i := x]> l.
Proof. unfold zset. case_match; [by intros [= <-] | done]. Qed.

(** The machine with one entry of its table replaced. *)
Lemma store_entry_table m vpn i e e' m' :
  entry_for m vpn i e -> store_entry m i e' = Ok m' ->
  exists t, table_in_use m = Some t /\ table_in_use m' = Some (<[Z.to_nat i := e']> t) /\
    (tlb m' = None <-> tlb m = None) /\ (pageTable m' = None <-> pageTable m = None) /\
    pageTableSize m' = pageTableSize m.
Proof.
  intros He Es. destruct (store_entry_ok m vpn i e e' He) as (m1 & E1 & _ & _ & Hs & H1).
  rewrite Es in E1. injection E1 as <-. unfold table_in_use.
  destruct (tlb m) as [t | ], (pageTable m) as [pt | ]; try done;
    destruct H1 as (t' & ->%zset_insert & -> & ->); eexists; by split_and!.
Qed.

(** C8: With either kind of table, a translation never fails an assertion and
    changes neither registers nor memory.  It succeeds exactly when the
    address is aligned for its size and the table maps its page by a valid
    entry that permits the access and names an existing page frame.  Then the
    physical address is the frame's base plus the page offset, the whole
    access lies inside main memory and is aligned, the use bit (and for a
    write the dirty bit) of that entry is set, its page, frame, valid and
    read-only fields, every other entry and the table's size are as before; on
    an exception nothing changes. *)
Theorem translate_correct m va size writing :
  tables_wf m -> is_size size ->
  exists ex pa m', Translate m va size writing = Ok (ex, pa, m') /\
    registers m' = registers m /\ mainMemory m' = mainMemory m /\ tables_wf m' /\
    (ex = NoException <->
       aligned va size = true /\
       exists i e, entry_for m (to_u32 va / PageSize) i e /\
         (writing = true -> readOnly e = false) /\ to_u32 (physicalPage e) < NumPhysPages) /\
    (ex = NoException ->
       0 <= pa /\ pa + size <= MemorySize /\ aligned pa size = true /\
       forall i e, entry_for m (to_u32 va / PageSize) i e ->
         pa = to_u32 (physicalPage e) * PageSize + to_u32 va mod PageSize /\
         exists t e', table_in_use m = Some t /\ table_in_use m' = Some (<[Z.to_nat i := e']> t) /\
           entry_used e e' writing /\ (tlb m' = None <-> tlb m = None) /\
           (pageTable m' = None <-> pageTable m = None) /\ pageTableSize m' = pageTableSize m) /\
    (ex <> NoException -> m' = m).
Proof.
  intros Ht Hs.
  destruct (Translate_spec m va size writing Ht Hs) as (ex & pa & m' & E & Ht' & Hr & Hm & Hex).
  exists ex, pa, m'. split_and!; [done.. | split | | ].
  - intros ->. destruct Hex as (i & e & []). eauto 10.
  - intros (Ha & i & e & He & Hw & Hf). destruct ex; try done.
    + destruct Hex as (_ & _ & Hno). by destruct (Hno i e).
    + destruct Hex as (_ & -> & i' & e' & He2 & Hro).
      destruct (entry_for_unique _ _ _ _ _ _ He He2) as [<- <-]. rewrite Hw in Hro; done.
    + destruct Hex as (_ & i' & e' & He2 & Hbig).
      destruct (entry_for_unique _ _ _ _ _ _ He He2) as [<- <-]. lia.
    + destruct Hex as (_ & [? | [Htl Hsz]]); [congruence | ]. exfalso.
      clear -He Htl Hsz Ht. unfold entry_for, tables_wf in *. rewrite Htl in *.
      destruct (pageTable m); [ | done]. destruct He as (-> & ? & _). lia.
  - intros ->. destruct Hex as (i & e & [Ha He Hp Hf Hpa [Hb1 Hb2] Hst]).
    destruct (translate_in_bounds (to_u32 (physicalPage e)) va size) as (_ & _ & _ & Hal);
      [done | done | split; [apply to_u32_range | done] | ].
    split_and!; [done | done | by subst | ]. intros i' e' He'.
    destruct (entry_for_unique _ _ _ _ _ _ He He') as [<- <-]. split; [done | ].
    destruct (store_entry_table _ _ _ _ _ _ He Hst) as (t & ? & ? & ?).
    exists t, (touch e writing). split_and!; try done; apply touch_used || tauto.
  - intros Hne. destruct ex; naive_solver.
Qed.

(** C32: What WriteMem stores, ReadMem reads back: after a write that returns
    TRUE, a read of the same address and size also succeeds and yields the
    value narrowed to the size (a byte comes back sign-extended, a half word
    zero-extended), without changing memory or kernel state; and no byte
    outside the [size] bytes at the translated address was changed. *)
Theorem memory_roundtrip m k addr size value s' :
  tables_wf m -> mem_wf (mainMemory m) -> is_size size ->
  write addr size value (m, k) = Ok (true, s') ->
  exists m'', read addr size s' = Ok (Some (narrow size value), (m'', k)) /\
    mainMemory m'' = mainMemory s'.1 /\ registers m'' = registers m /\
    exists pa, 0 <= pa /\ pa + size <= MemorySize /\
      forall j, ~ pa <= j < pa + size -> zget (mainMemory s'.1) j = zget (mainMemory m) j.
Proof.
  intros Ht Hm Hs Hw. assert (Hs0 : 0 <= size) by (unfold is_size in Hs; lia).
  destruct (WriteMem_spec m k addr size value Ht Hm Hs) as
    (ex & pa & m' & ET & [(-> & mem' & Est & Ew) | (Hne & Ew)]).
  2: { exfalso. rewrite Hw in Ew. unfold mbind, stM_bind, mret, stM_ret in Ew. by repeat case_match. }
  rewrite Hw in Ew. injection Ew as ->. cbn [fst mainMemory with_memory].
  destruct (Translate_spec m addr size true Ht Hs) as (? & ? & ? & E & Ht' & Hr & Hm' & Hex).
  rewrite ET in E. injection E as <- <- <-. destruct Hex as (i & e & Htr).
  destruct (tr_bounds _ _ _ _ _ _ _ _ Htr) as [Hp0 Hp1]. destruct Hm as [Hl Hb].
  destruct (store_le_spec (Z.to_nat size) (mainMemory m) pa (value mod 256 ^ size) Hb)
    as (? & Est' & Hb' & Hl' & Hfr & Hld); [done | lia | ].
  rewrite Est in Est'. injection Est' as <-. rewrite Z2Nat.id in Hfr, Hld by done.
  rewrite Zmod_mod in Hld.
  destruct (ReadMem_spec (with_memory m' mem') k addr size) as
    (ex2 & pa2 & m2 & ET2 & HR); [done | split; simpl; [lia | done] | done | ].
  assert (HT : exists m2', Translate (with_memory m' mem') addr size false = Ok (NoException, pa, m2') /\
    registers m2' = registers m /\ mainMemory m2' = mem').
  { destruct (Translate_again (with_memory m mem') addr size true false pa (with_memory m' mem') i e)
      as (m2' & ? & Hreg & Hmem); [done | done | | done | ].
    - destruct Htr as [? ? ? ? ? ? Hst]. split; try done. clear -Hst.
      unfold store_entry in *. destruct m as [rg mm tl pt ps]. simpl in *.
      repeat case_match; unfold mbind, res_bind in *; repeat case_match;
        simplify_eq/=; by unfold mret, res_ret in *; simplify_eq/=.
    - exists m2'. split_and!; [done | | done]. by rewrite Hreg. }
  destruct HT as (m2' & ET2' & Hreg2 & Hmem2). rewrite ET2 in ET2'. injection ET2' as -> -> ->.
  destruct HR as [(_ & v & Ev & _ & ->) | [? _]]; [ | done].
  cbn [mainMemory with_memory] in Ev. rewrite Hld in Ev. injection Ev as <-.
  exists m2'. rewrite narrow_idem by done. split_and!; try done. by exists pa.
Qed.

End MemoryAccess.

(** ** Registers *)

Definition reg (m : Machine) (n : Z) : Z := registers m !!! Z.to_nat n.
Definition upd (m : Machine) (n v : Z) : Machine :=
  with_registers m (<[Z.to_nat n := v]> (registers m)).
Definition is_reg (n : Z) : Prop := 0 <= n < NumTotalRegs.

(** Where a register may be set to [v] without harm. *)
Definition may_set (n v : Z) : Prop :=
  is_reg n /\ is_i32 v /\ (n = LoadReg -> 0 <= v < NumGPRegs).

(** Register numbers are constants: bounds on them are arithmetic. *)
Ltac regs :=
  unfold is_reg, NumTotalRegs, NumGPRegs, StackReg, RetAddrReg, HiReg, LoReg, PCReg, NextPCReg,
    PrevPCReg, LoadReg, LoadValueReg, BadVAddrReg in *; lia.

#[export] Hint Extern 5 (is_reg _) => regs : nachos.

Lemma may_set_other n v : is_reg n -> n <> LoadReg -> is_i32 v -> may_set n v.
Proof. intros ? ? ?. by split; [ | split]. Qed.

Lemma may_set_load v : 0 <= v < NumGPRegs -> may_set LoadReg v.
Proof. intros ?. split; [regs | split; [ | done]]. unfold NumGPRegs in *. cint. Qed.

Section Registers.
Context {K : Type}.
Implicit Types (m : Machine) (k : K).

Lemma getreg_ok m k n :
  machine_wf m -> is_reg n -> getreg n (m, k) = Ok (reg m n, (m, k)).
Proof.
  intros [[Hl _ _] _ _ _] Hn. unfold getreg, reg, is_reg, NumTotalRegs in *. simpl.
  destruct (zget_in_range (registers m) n) as (v & Lv & ->); [lia | ]. rsimp.
  by rewrite (list_lookup_total_correct _ _ _ Lv).
Qed.

Lemma setreg_ok m k n v :
  machine_wf m -> is_reg n -> setreg n v (m, k) = Ok (tt, (upd m n v, k)).
Proof.
  intros [[Hl _ _] _ _ _] Hn. unfold setreg, upd, is_reg, NumTotalRegs in *. simpl.
  by rewrite zset_in_range by lia.
Qed.

Lemma reg_i32 m n : machine_wf m -> is_reg n -> is_i32 (reg m n).
Proof.
  intros [[Hl Hr _] _ _ _] Hn. unfold reg, is_reg, NumTotalRegs in *.
  eapply Forall_lookup_1; [exact Hr | ]. apply list_lookup_lookup_total_lt. lia.
Qed.

Lemma reg_load m : machine_wf m -> 0 <= reg m LoadReg < NumGPRegs.
Proof.
  intros [[_ _ (d & Ld & Hd)] _ _ _]. unfold reg. by rewrite (list_lookup_total_correct _ _ _ Ld).
Qed.

Lemma upd_wf m n v : machine_wf m -> may_set n v -> machine_wf (upd m n v).
Proof.
  intros [[Hl Hr (d & Ld & Hd)] Hm Ht Hsp] (Hn & Hv & Hload). split; [ | done | done | done].
  unfold upd in *. simpl. split.
  - by rewrite length_insert.
  - by apply Forall_insert.
  - unfold is_reg, LoadReg in *. destruct (Z.eq_dec n 37) as [-> | Hne].
    + exists v. split; [ | by apply Hload]. apply list_lookup_insert_eq. rewrite Hl. unfold NumTotalRegs. lia.
    + exists d. split; [ | done]. rewrite list_lookup_insert_ne; [done | ]. lia.
Qed.

Lemma reg_upd_eq m n v : machine_wf m -> is_reg n -> reg (upd m n v) n = v.
Proof.
  intros [[Hl _ _] _ _ _] Hn. unfold reg, upd, is_reg, NumTotalRegs in *. simpl.
  apply list_lookup_total_insert_eq. lia.
Qed.

Lemma reg_upd_ne m n n' v : 0 <= n -> 0 <= n' -> n <> n' -> reg (upd m n v) n' = reg m n'.
Proof.
  intros Hn Hn' Hne. unfold reg, upd. simpl. apply list_lookup_total_insert_ne. lia.
Qed.

(** [DelayedLoad] carries out the pending load, records the next one, and
    leaves register 0 zero. *)
Definition delayed (m : Machine) (nextReg nextValue : Z) : Machine :=
  upd (upd (upd (upd m (reg m LoadReg) (reg m LoadValueReg)) LoadReg nextReg)
    LoadValueReg nextValue) 0 0.

Lemma gpr_is_reg n : 0 <= n < NumGPRegs -> is_reg n.
Proof. unfold is_reg, NumGPRegs, NumTotalRegs. lia. Qed.

Lemma delayed_steps m r v :
  machine_wf m -> 0 <= r < NumGPRegs -> is_i32 v ->
  machine_wf (upd m (reg m LoadReg) (reg m LoadValueReg)) /\
  machine_wf (upd (upd m (reg m LoadReg) (reg m LoadValueReg)) LoadReg r) /\
  machine_wf (upd (upd (upd m (reg m LoadReg) (reg m LoadValueReg)) LoadReg r) LoadValueReg v) /\
  machine_wf (delayed m r v).
Proof.
  intros Hwf Hr Hv. pose proof (reg_load m Hwf) as Hl.
  assert (H1 : machine_wf (upd m (reg m LoadReg) (reg m LoadValueReg))).
  { apply upd_wf; [done | ]. apply may_set_other; [by apply gpr_is_reg | regs | apply reg_i32; auto with nachos]. }
  assert (H2 : machine_wf (upd (upd m (reg m LoadReg) (reg m LoadValueReg)) LoadReg r)).
  { by apply upd_wf, may_set_load. }
  assert (H3 : machine_wf (upd (upd (upd m (reg m LoadReg) (reg m LoadValueReg)) LoadReg r)
    LoadValueReg v)).
  { apply upd_wf; [done | ]. apply may_set_other; [regs | regs | done]. }
  split_and!; [done.. | ]. apply upd_wf; [done | ]. apply may_set_other; [regs | regs | cint].
Qed.

Lemma DelayedLoad_ok m k r v :
  machine_wf m -> 0 <= r < NumGPRegs -> is_i32 v ->
  DelayedLoad r v (m, k) = Ok (tt, (delayed m r v, k)) /\ machine_wf (delayed m r v) /\
  reg (delayed m r v) 0 = 0.
Proof.
  intros Hwf Hr Hv. pose proof (reg_load m Hwf) as Hl.
  destruct (delayed_steps m r v Hwf Hr Hv) as (H1 & H2 & H3 & H4).
  unfold DelayedLoad, mbind, stM_bind.
  rewrite (getreg_ok m k LoadReg), (getreg_ok m k LoadValueReg) by auto with nachos.
  rewrite setreg_ok by (done || by apply gpr_is_reg).
  rewrite (setreg_ok _ _ LoadReg), (setreg_ok _ _ LoadValueReg), (setreg_ok _ _ 0)
    by auto with nachos.
  split_and!; [done | done | ]. apply reg_upd_eq; auto with nachos.
Qed.

End Registers.

(** ** What the machine needs of the kernel

    The kernel's trap handler, entered in system mode on a well-formed machine
    whose register 0 is zero and a kernel state that satisfies [Kinv], returns
    to such a machine and kernel state, or stops with a fault that [E]
    admits. *)

Class TrapHandler {K : Type} (setStatus : MachineStatus -> K -> K)
    (ExceptionHandler : ExceptionType -> stM (Machine * K) unit)
    (E : fault -> Prop) (Kinv : K -> Prop) : Prop := {
  status_inv st k : Kinv k -> Kinv (setStatus st k);
  handler_inv ex m k :
    machine_wf m -> reg m 0 = 0 -> Kinv k ->
    wp E (fun _ s => machine_wf s.1 /\ reg s.1 0 = 0 /\ Kinv s.2) (ExceptionHandler ex) (m, k)
}.

(** What one instruction needs of the traps it may take: [Pre] holds of its
    registers and of the kernel state when it starts and until it traps,
    [Post] of the kernel state when it is done; the trap for a system call is
    taken only when [calls] holds.  A handler that keeps [Kinv] is a special
    case. *)
Class TrapEntry {K : Type} (setStatus : MachineStatus -> K -> K)
    (ExceptionHandler : ExceptionType -> stM (Machine * K) unit)
    (E : fault -> Prop) (calls : Prop) (Pre : Machine -> K -> Prop) (Post : K -> Prop) : Prop := {
  entry_inv ex addr m k :
    machine_wf m -> is_i32 addr -> Pre m k -> (ex = SyscallException -> calls) ->
    wp E (fun _ s => machine_wf s.1 /\ reg s.1 0 = 0 /\ Post s.2)
      (RaiseException setStatus ExceptionHandler ex addr) (m, k);
  entry_regs m m' k : Pre m k -> registers m' = registers m -> Pre m' k;
  entry_post m k : Pre m k -> Post k
}.

(** The machine the handler finds: the bad address is noted, the pending load
    has been done. *)
Definition trapped (m : Machine) (addr : Z) : Machine := delayed (upd m BadVAddrReg addr) 0 0.

Lemma trapped_ok m addr :
  machine_wf m -> is_i32 addr ->
  machine_wf (trapped m addr) /\ reg (trapped m addr) 0 = 0 /\
  forall n, 0 < n < NumGPRegs ->
    reg (trapped m addr) n = if decide (n = reg m LoadReg) then reg m LoadValueReg else reg m n.
Proof.
  intros Hwf Ha. assert (Hs : may_set BadVAddrReg addr) by (apply may_set_other; [regs | regs | done]).
  pose proof (upd_wf _ _ _ Hwf Hs) as Hwf1. set (m1 := upd m BadVAddrReg addr) in *.
  destruct (DelayedLoad_ok m1 tt 0 0 Hwf1) as (_ & Hwf2 & H0); [regs | cint | ].
  split_and!; [done | done | ]. intros n Hn.
  assert (Hreg : forall j, j <> BadVAddrReg -> 0 <= j < NumTotalRegs -> reg m1 j = reg m j)
    by (intros; apply reg_upd_ne; regs).
  pose proof (reg_load m1 Hwf1) as Hl. unfold trapped. fold m1. unfold delayed. rewrite !(reg_upd_ne _ _ n) by regs.
  rewrite <- (Hreg LoadReg), <- (Hreg LoadValueReg), <- (Hreg n) by (unfold NumGPRegs in *; regs).
  case_decide as Hd; [rewrite <- Hd; apply reg_upd_eq; [done | regs] | apply reg_upd_ne; regs].
Qed.

Section TrapSafety.
Context {K : Type} (setStatus : MachineStatus -> K -> K).
Context (ExceptionHandler : ExceptionType -> stM (Machine * K) unit).

Lemma RaiseException_eq ex addr m k :
  machine_wf m -> is_i32 addr ->
  RaiseException setStatus ExceptionHandler ex addr (m, k) =
  (ExceptionHandler ex;; modify (fun s => (s.1, setStatus UserMode s.2)))
    (trapped m addr, setStatus SystemMode k).
Proof.
  intros Hwf Ha. assert (Hs : may_set BadVAddrReg addr) by (apply may_set_other; [regs | regs | done]).
  destruct (DelayedLoad_ok (upd m BadVAddrReg addr) k 0 0 (upd_wf _ _ _ Hwf Hs)) as (Ed & _); [regs | cint | ].
  unfold RaiseException, mbind, stM_bind. rewrite setreg_ok by (done || apply Hs). by rewrite Ed.
Qed.

Section Entry.
Context (E : fault -> Prop) (calls : Prop) (Pre : Machine -> K -> Prop) (Post : K -> Prop).
Context `{!TrapEntry setStatus ExceptionHandler E calls Pre Post}.
Definition user_inv (s : Machine * K) : Prop := machine_wf s.1 /\ reg s.1 0 = 0 /\ Post s.2.

Lemma wp_getreg (Q : Z -> Machine * K -> Prop) m k n :
  machine_wf m -> is_reg n -> (is_i32 (reg m n) -> Q (reg m n) (m, k)) -> wp E Q (getreg n) (m, k).
Proof. intros ? ? HQ. eapply wp_ok; [by apply getreg_ok | by apply HQ, reg_i32]. Qed.

Lemma wp_setreg (Q : unit -> Machine * K -> Prop) m k n v :
  machine_wf m -> may_set n v -> (machine_wf (upd m n v) -> Q tt (upd m n v, k)) ->
  wp E Q (setreg n v) (m, k).
Proof.
  intros ? Hs HQ. eapply wp_ok; [apply setreg_ok; [done | apply Hs] | by apply HQ, upd_wf].
Qed.

Lemma Translate_wf m va size w pa m' :
  machine_wf m -> is_size size -> Translate m va size w = Ok (NoException, pa, m') ->
  machine_wf m' /\ registers m' = registers m /\ mainMemory m' = mainMemory m /\
  0 <= pa /\ pa + size <= MemorySize.
Proof.
  intros [Hr Hm Ht [Htlb Hsz]] Hs E'.
  destruct (Translate_spec m va size w Ht Hs) as (ex & pa2 & m2 & E2 & Ht' & Hr' & Hm' & Hex).
  rewrite E' in E2. injection E2 as <- <- <-. destruct Hex as (i & e & [_ He _ _ _ Hb Hst]).
  destruct (store_entry_ok m _ i e (touch e w) He) as (m1 & E1 & _ & _ & Hps & H1).
  rewrite Hst in E1. injection E1 as <-. rewrite Htlb in H1.
  assert (small_space m').
  { split; [ | lia]. destruct (pageTable m); [ | done]. by destruct H1 as (? & _ & ? & _). }
  split; [split; [by rewrite Hr' | by rewrite Hm' | done | done] | tauto].
Qed.

Lemma Translate_not_call m va size w ex pa m' :
  machine_wf m -> is_size size -> Translate m va size w = Ok (ex, pa, m') -> ex = SyscallException -> calls.
Proof.
  intros Hwf Hs E' ->. destruct (Translate_spec m va size w (wf_tables _ Hwf) Hs)
    as (ex & pa' & m2 & E2 & _ & _ & _ & Hex). rewrite E' in E2. by injection E2 as <- <- <-.
Qed.

Lemma wp_ReadMem (Q : option Z -> Machine * K -> Prop) m k addr size :
  machine_wf m -> Pre m k -> is_size size -> is_i32 addr ->
  (forall s, user_inv s -> Q None s) ->
  (forall v m', is_i32 v -> machine_wf m' -> registers m' = registers m ->
     ReadMem setStatus ExceptionHandler addr size (m, k) = Ok (Some v, (m', k)) ->
     Q (Some v) (m', k)) ->
  wp E Q (ReadMem setStatus ExceptionHandler addr size) (m, k).
Proof.
  intros Hwf Hk Hs Ha HN HS.
  destruct (ReadMem_spec setStatus ExceptionHandler m k addr size (wf_tables _ Hwf) (wf_mem _ Hwf) Hs)
    as (ex & pa & m' & ET & [(-> & v & _ & _ & Er) | (Hne & Er)]).
  - eapply wp_ok; [exact Er | ]. destruct (Translate_wf _ _ _ _ _ _ Hwf Hs ET) as (? & ? & _).
    apply HS; [by apply narrow_i32 | done | done | done].
  - unfold wp. rewrite Er. fold (wp E Q (RaiseException setStatus ExceptionHandler ex addr;; mret None) (m, k)).
    apply wp_bind. eapply wp_mono; [apply entry_inv; [done | done | done | by eapply Translate_not_call] | ].
    intros [] s Hs'. by apply wp_ret, HN.
Qed.

Lemma wp_WriteMem (Q : bool -> Machine * K -> Prop) m k addr size value :
  machine_wf m -> Pre m k -> is_size size -> is_i32 addr ->
  (forall s, user_inv s -> Q false s) ->
  (forall m', machine_wf m' -> registers m' = registers m -> Q true (m', k)) ->
  wp E Q (WriteMem setStatus ExceptionHandler addr size value) (m, k).
Proof.
  intros Hwf Hk Hs Ha HN HS.
  destruct (WriteMem_spec setStatus ExceptionHandler m k addr size value (wf_tables _ Hwf) (wf_mem _ Hwf) Hs)
    as (ex & pa & m' & ET & [(-> & mem' & Est & Ew) | (Hne & Ew)]).
  - eapply wp_ok; [exact Ew | ].
    destruct (Translate_wf _ _ _ _ _ _ Hwf Hs ET) as ([Hr1 Hm1 Ht1 Hs1] & Hr & Hm & Hp0 & Hp1).
    destruct (wf_mem _ Hwf) as [Hl Hb].
    destruct (store_le_spec (Z.to_nat size) (mainMemory m) pa (value mod 256 ^ size) Hb)
      as (mem2 & E2 & Hb2 & Hl2 & _); [done | unfold is_size in Hs; lia | ].
    rewrite Est in E2. injection E2 as <-. apply HS; [ | done].
    split; [done | split; simpl; [lia | done] | done | done].
  - unfold wp. rewrite Ew. fold (wp E Q (RaiseException setStatus ExceptionHandler ex addr;; mret false) (m, k)).
    apply wp_bind. eapply wp_mono; [apply entry_inv; [done | done | done | by eapply Translate_not_call] | ].
    intros [] s Hs'. by apply wp_ret, HN.
Qed.

End Entry.

#[global] Instance handler_entry (E : fault -> Prop) (Kinv : K -> Prop) :
  TrapHandler setStatus ExceptionHandler E Kinv ->
  TrapEntry setStatus ExceptionHandler E True (fun _ => Kinv) Kinv.
Proof.
  intros HT. split; [ | done | done]. intros ex addr m k Hwf Ha Hk _.
  destruct (trapped_ok m addr Hwf Ha) as (Hwf1 & H0 & _). unfold wp. rewrite RaiseException_eq by done.
  apply (wp_bind (E := E)). eapply wp_mono; [apply handler_inv; [done | done | by apply status_inv] | ].
  intros [] [m' k'] (H1 & H2 & H3). apply wp_modify. simpl in *. split_and!; [done | done | by apply (status_inv UserMode k')].
Qed.

End TrapSafety.

(** A machine with a page table of two pages in frames 5 and 3. *)
Definition example_machine : Machine :=
  mkMachine (replicate 40 0) (replicate (Z.to_nat MemorySize) 0) None
    (Some [mkEntry 0 5 true false false false; mkEntry 1 3 true false false false]) 2.

Lemma example_machine_wf : machine_wf example_machine.
Proof.
  split.
  - split; [done | | exists 0; split; [done | ]; unfold NumGPRegs; lia].
    apply Forall_replicate. cint.
  - unfold example_machine. cbn [mainMemory]. split; [apply length_replicate | ].
    apply Forall_replicate. unfold is_byte. lia.
  - done.
  - split; [done | ]. unfold NumPhysPages. simpl. lia.
Qed.

Lemma translate_correct_witness :
  exists ex pa m', Translate example_machine 132 4 true = Ok (ex, pa, m') /\
    ex = NoException /\ pa = 3 * PageSize + 4.
Proof.
  destruct (translate_correct example_machine 132 4 true) as
    (ex & pa & m' & E & _ & _ & _ & _ & _ & _).
  - apply example_machine_wf.
  - unfold is_size. lia.
  - exists ex, pa, m'. split; [exact E | ].
    assert (H : match Translate example_machine 132 4 true with
                | Ok (ex, pa, _) => (ex, pa) | Fail _ => (NumExceptionTypes, 0) end =
                (NoException, 3 * PageSize + 4)) by (vm_compute; reflexivity).
    rewrite E in H. injection H as -> ->. split; reflexivity.
Defined.

Lemma memory_roundtrip_witness :
  match WriteMem (K := unit) (fun _ k => k) (fun _ => mret tt) 132 1 200 (example_machine, tt) with
  | Ok (true, s') =>
      exists m'', ReadMem (fun _ k => k) (fun _ => mret tt) 132 1 s' = Ok (Some (-56), (m'', tt))
  | _ => False
  end.
Proof.
  assert (H : match WriteMem (K := unit) (fun _ k => k) (fun _ => mret tt) 132 1 200 (example_machine, tt)
              with Ok (b, _) => b | Fail _ => false end = true) by (vm_compute; reflexivity).
  destruct (WriteMem (K := unit) (fun _ k => k) (fun _ => mret tt) 132 1 200 (example_machine, tt))
    as [[[] s'] | f] eqn:E; [ | discriminate H | discriminate H].
  destruct (memory_roundtrip (fun _ k => k) (fun _ => mret tt) example_machine tt 132 1 200 s')
    as (m'' & Hr & _); [apply example_machine_wf | apply example_machine_wf
      | left; reflexivity | exact E | ].
  exists m''. exact Hr.
Defined.
