(* ===== verification/Mips.v ===== *)
(** * The MIPS simulator (machine/mipssim.h, machine/mipssim.cc)

    Instruction decoding, the multiplier, and the execution of one
    instruction with its load delay and branch delay slots, as built with
    SIM_FIX on a little-endian host.  Signed additions, subtractions and left
    shifts wrap (the simulator detects overflow after the fact, so it relies
    on it); the signed division that traps on the host is [Undefined].

    [OneInstruction] is one [switch]; its cases are grouped into one
    definition per family of instructions.  A family returns [None] where the
    source returns early after a trap, and otherwise the values of [pcAfter],
    [nextLoadReg] and [nextLoadValue] at the end of the switch. *)

From S2P Require Import Prelude Machine.

Inductive OpCode : Set :=
  | OP_ADD | OP_ADDI | OP_ADDIU | OP_ADDU | OP_AND | OP_ANDI
  | OP_BEQ | OP_BGEZ | OP_BGEZAL | OP_BGTZ | OP_BLEZ | OP_BLTZ | OP_BLTZAL | OP_BNE
  | OP_DIV | OP_DIVU | OP_J | OP_JAL | OP_JALR | OP_JR
  | OP_LB | OP_LBU | OP_LH | OP_LHU | OP_LUI | OP_LW | OP_LWL | OP_LWR
  | OP_MFHI | OP_MFLO | OP_MTHI | OP_MTLO | OP_MULT | OP_MULTU
  | OP_NOR | OP_OR | OP_ORI | OP_RFE | OP_SB | OP_SH
  | OP_SLL | OP_SLLV | OP_SLT | OP_SLTI | OP_SLTIU | OP_SLTU
  | OP_SRA | OP_SRAV | OP_SRL | OP_SRLV | OP_SUB | OP_SUBU
  | OP_SW | OP_SWL | OP_SWR | OP_XOR | OP_XORI | OP_SYSCALL | OP_UNIMP | OP_RES
  | SPECIAL | BCOND.

#[global] Instance OpCode_eq_dec : EqDecision OpCode.
Proof. solve_decision. Defined.

Inductive Format : Set := IFMT | JFMT | RFMT.

Definition IndexToAddr (x : Z) : Z := to_i32 (Z.shiftl x 2).
Definition R31 : Z := 31.

(** [x & SIGN_BIT] of an [int] is non-zero. *)
Definition SIGN_BIT : Z := 2147483648.
Definition sign_set (x : Z) : bool := negb (Z.land (to_u32 x) SIGN_BIT =? 0).

Definition opTable : list (OpCode * Format) := [
  (SPECIAL, RFMT); (BCOND, IFMT); (OP_J, JFMT); (OP_JAL, JFMT);
  (OP_BEQ, IFMT); (OP_BNE, IFMT); (OP_BLEZ, IFMT); (OP_BGTZ, IFMT);
  (OP_ADDI, IFMT); (OP_ADDIU, IFMT); (OP_SLTI, IFMT); (OP_SLTIU, IFMT);
  (OP_ANDI, IFMT); (OP_ORI, IFMT); (OP_XORI, IFMT); (OP_LUI, IFMT);
  (OP_UNIMP, IFMT); (OP_UNIMP, IFMT); (OP_UNIMP, IFMT); (OP_UNIMP, IFMT);
  (OP_RES, IFMT); (OP_RES, IFMT); (OP_RES, IFMT); (OP_RES, IFMT);
  (OP_RES, IFMT); (OP_RES, IFMT); (OP_RES, IFMT); (OP_RES, IFMT);
  (OP_RES, IFMT); (OP_RES, IFMT); (OP_RES, IFMT); (OP_RES, IFMT);
  (OP_LB, IFMT); (OP_LH, IFMT); (OP_LWL, IFMT); (OP_LW, IFMT);
  (OP_LBU, IFMT); (OP_LHU, IFMT); (OP_LWR, IFMT); (OP_RES, IFMT);
  (OP_SB, IFMT); (OP_SH, IFMT); (OP_SWL, IFMT); (OP_SW, IFMT);
  (OP_RES, IFMT); (OP_RES, IFMT); (OP_SWR, IFMT); (OP_RES, IFMT);
  (OP_UNIMP, IFMT); (OP_UNIMP, IFMT); (OP_UNIMP, IFMT); (OP_UNIMP, IFMT);
  (OP_RES, IFMT); (OP_RES, IFMT); (OP_RES, IFMT); (OP_RES, IFMT);
  (OP_UNIMP, IFMT); (OP_UNIMP, IFMT); (OP_UNIMP, IFMT); (OP_UNIMP, IFMT);
  (OP_RES, IFMT); (OP_RES, IFMT); (OP_RES, IFMT); (OP_RES, IFMT)].

Definition specialTable : list OpCode := [
  OP_SLL; OP_RES; OP_SRL; OP_SRA; OP_SLLV; OP_RES; OP_SRLV; OP_SRAV;
  OP_JR; OP_JALR; OP_RES; OP_RES; OP_SYSCALL; OP_UNIMP; OP_RES; OP_RES;
  OP_MFHI; OP_MTHI; OP_MFLO; OP_MTLO; OP_RES; OP_RES; OP_RES; OP_RES;
  OP_MULT; OP_MULTU; OP_DIV; OP_DIVU; OP_RES; OP_RES; OP_RES; OP_RES;
  OP_ADD; OP_ADDU; OP_SUB; OP_SUBU; OP_AND; OP_OR; OP_XOR; OP_NOR;
  OP_RES; OP_RES; OP_SLT; OP_SLTU; OP_RES; OP_RES; OP_RES; OP_RES;
  OP_RES; OP_RES; OP_RES; OP_RES; OP_RES; OP_RES; OP_RES; OP_RES;
  OP_RES; OP_RES; OP_RES; OP_RES; OP_RES; OP_RES; OP_RES; OP_RES].

Record Instruction := mkInstr {
  value : Z;
  opCode : OpCode;
  rs : Z;
  rt : Z;
  rd : Z;
  extra : Z
}.

(** [Instruction::Decode]; [v] is the unsigned instruction word. *)
Definition Decode (v : Z) : res Instruction :=
  let rs := Z.land (Z.shiftr v 21) 31 in
  let rt := Z.land (Z.shiftr v 16) 31 in
  let rd := Z.land (Z.shiftr v 11) 31 in
  '(op, format) ← zget opTable (Z.land (Z.shiftr v 26) 63);
  let extra :=
    match format with
    | IFMT =>
        let extra := Z.land v 65535 in
        if negb (Z.land extra 32768 =? 0) then to_i32 (Z.lor extra 4294901760) else extra
    | RFMT => Z.land (Z.shiftr v 6) 31
    | JFMT => Z.land v 67108863
    end in
  op ← (match op with
        | SPECIAL => zget specialTable (Z.land v 63)
        | BCOND =>
            let i := Z.land v 2031616 in
            if i =? 0 then mret OP_BLTZ
            else if i =? 65536 then mret OP_BGEZ
            else if i =? 1048576 then mret OP_BLTZAL
            else if i =? 1114112 then mret OP_BGEZAL
            else mret OP_UNIMP
        | _ => mret op
        end);
  mret (mkInstr v op rs rt rd extra).

(** The loop of [Mult]: [a] is a signed [int], the others are unsigned. *)
Fixpoint mult_loop (n : nat) (a bLo bHi lo hi : Z) : Z * Z :=
  match n with
  | O => (lo, hi)
  | S n' =>
      let odd := negb (Z.land a 1 =? 0) in
      let lo' := if odd then to_u32 (lo + bLo) else lo in
      let hi' :=
        if odd then to_u32 (to_u32 (hi + (if lo' <? bLo then 1 else 0)) + bHi) else hi in
      if odd && (Z.land (to_u32 a) 4294967294 =? 0) then (lo', hi')
      else
        let bHi' := to_u32 (Z.shiftl bHi 1) in
        let bHi' := if negb (Z.land bLo 2147483648 =? 0) then Z.lor bHi' 1 else bHi' in
        mult_loop n' (Z.shiftr a 1) (to_u32 (Z.shiftl bLo 1)) bHi' lo' hi'
  end.

(** [Mult]: the values stored at [hiPtr] and [loPtr]. *)
Definition Mult (a b : Z) (signedArith : bool) : Z * Z :=
  if (a =? 0) || (b =? 0) then (0, 0)
  else
    let nega := signedArith && (a <? 0) in
    let negb := signedArith && (b <? 0) in
    let negative := xorb nega negb in
    let a := if nega then to_i32 (- a) else a in
    let b := if negb then to_i32 (- b) else b in
    let '(lo, hi) := mult_loop 32 a (to_u32 b) 0 0 0 in
    let '(lo, hi) :=
      if negative then
        let hi := to_u32 (Z.lnot hi) in
        let lo := to_u32 (Z.lnot lo) in
        let lo := to_u32 (lo + 1) in
        (lo, if lo =? 0 then to_u32 (hi + 1) else hi)
      else (lo, hi) in
    (to_i32 hi, to_i32 lo).

Section Execution.
Context {K : Type}.
Context (setStatus : MachineStatus -> K -> K).
Context (ExceptionHandler : ExceptionType -> stM (Machine * K) unit).

Notation St := (Machine * K)%type.
Notation raise := (RaiseException setStatus ExceptionHandler).
Notation readmem := (ReadMem setStatus ExceptionHandler).
Notation writemem := (WriteMem setStatus ExceptionHandler).

(** pcAfter, nextLoadReg, nextLoadValue; [None] after an early return. *)
Definition outcome : Type := option (Z * Z * Z).

Definition trap (which : ExceptionType) (badVAddr : Z) : stM St outcome :=
  raise which badVAddr;; mret None.

(** The end of a case that writes one register. *)
Definition result (pcAfter reg v : Z) : stM St outcome :=
  setreg reg v;; mret (Some (pcAfter, 0, 0)).

Definition exec_add (i : Instruction) (pcAfter : Z) : stM St outcome :=
  a ← getreg (rs i);
  b ← getreg (rt i);
  match opCode i with
  | OP_ADD =>
      let sum := to_i32 (a + b) in
      if negb (sign_set (Z.lxor a b)) && sign_set (Z.lxor a sum)
      then trap OverflowException 0
      else result pcAfter (rd i) sum
  | OP_ADDI =>
      let sum := to_i32 (a + extra i) in
      if negb (sign_set (Z.lxor a (extra i))) && sign_set (Z.lxor (extra i) sum)
      then trap OverflowException 0
      else result pcAfter (rt i) sum
  | OP_ADDIU => result pcAfter (rt i) (to_i32 (a + extra i))
  | OP_ADDU => result pcAfter (rd i) (to_i32 (a + b))
  | OP_SUB =>
      let diff := to_i32 (a - b) in
      if sign_set (Z.lxor a b) && sign_set (Z.lxor a diff)
      then trap OverflowException 0
      else result pcAfter (rd i) diff
  | OP_SUBU => result pcAfter (rd i) (to_i32 (a - b))
  | _ => lift (Fail AssertFail)
  end.

Definition exec_logic (i : Instruction) (pcAfter : Z) : stM St outcome :=
  a ← getreg (rs i);
  b ← getreg (rt i);
  match opCode i with
  | OP_AND => result pcAfter (rd i) (Z.land a b)
  | OP_ANDI => result pcAfter (rt i) (Z.land a (Z.land (extra i) 65535))
  | OP_NOR => result pcAfter (rd i) (Z.lnot (Z.lor a b))
  | OP_OR => result pcAfter (rd i) (Z.lor a b)
  | OP_ORI => result pcAfter (rt i) (Z.lor a (Z.land (extra i) 65535))
  | OP_XOR => result pcAfter (rd i) (Z.lxor a b)
  | OP_XORI => result pcAfter (rt i) (Z.lxor a (Z.land (extra i) 65535))
  | OP_LUI => result pcAfter (rt i) (to_i32 (Z.shiftl (extra i) 16))
  | _ => lift (Fail AssertFail)
  end.

Definition exec_shift (i : Instruction) (pcAfter : Z) : stM St outcome :=
  a ← getreg (rs i);
  b ← getreg (rt i);
  match opCode i with
  | OP_SLL => result pcAfter (rd i) (to_i32 (Z.shiftl b (extra i)))
  | OP_SLLV => result pcAfter (rd i) (to_i32 (Z.shiftl b (Z.land a 31)))
  | OP_SRA => result pcAfter (rd i) (Z.shiftr b (extra i))
  | OP_SRAV => result pcAfter (rd i) (Z.shiftr b (Z.land a 31))
  | OP_SRL => let tmp := b in result pcAfter (rd i) (Z.shiftr tmp (extra i))
  | OP_SRLV => let tmp := b in result pcAfter (rd i) (Z.shiftr tmp (Z.land a 31))
  | _ => lift (Fail AssertFail)
  end.

Definition exec_set (i : Instruction) (pcAfter : Z) : stM St outcome :=
  a ← getreg (rs i);
  b ← getreg (rt i);
  match opCode i with
  | OP_SLT => result pcAfter (rd i) (if a <? b then 1 else 0)
  | OP_SLTI => result pcAfter (rt i) (if a <? extra i then 1 else 0)
  | OP_SLTIU => result pcAfter (rt i) (if to_u32 a <? to_u32 (extra i) then 1 else 0)
  | OP_SLTU => result pcAfter (rd i) (if to_u32 a <? to_u32 b then 1 else 0)
  | _ => lift (Fail AssertFail)
  end.

(** Branches and jumps write [R31] or [rd] before they read [rs]. *)
Definition exec_branch (i : Instruction) (pcAfter : Z) : stM St outcome :=
  next ← getreg NextPCReg;
  (match opCode i with
   | OP_BGEZAL | OP_BLTZAL => setreg R31 (to_i32 (next + 4))
   | _ => mret tt
   end);;
  a ← getreg (rs i);
  b ← getreg (rt i);
  next ← getreg NextPCReg;
  taken ← (match opCode i with
           | OP_BEQ => mret (a =? b)
           | OP_BNE => mret (negb (a =? b))
           | OP_BGEZ | OP_BGEZAL => mret (negb (sign_set a))
           | OP_BLTZ | OP_BLTZAL => mret (sign_set a)
           | OP_BGTZ => mret (0 <? a)
           | OP_BLEZ => mret (a <=? 0)
           | _ => lift (Fail AssertFail)
           end);
  mret (Some ((if taken : bool then to_i32 (next + IndexToAddr (extra i)) else pcAfter), 0, 0)).

Definition exec_jump (i : Instruction) (pcAfter : Z) : stM St outcome :=
  next ← getreg NextPCReg;
  (match opCode i with
   | OP_JAL => setreg R31 (to_i32 (next + 4))
   | OP_JALR => setreg (rd i) (to_i32 (next + 4))
   | _ => mret tt
   end);;
  match opCode i with
  | OP_J | OP_JAL =>
      mret (Some (to_i32 (Z.lor (Z.land (to_u32 pcAfter) 4026531840)
                                (to_u32 (IndexToAddr (extra i)))), 0, 0))
  | OP_JR | OP_JALR => a ← getreg (rs i); mret (Some (a, 0, 0))
  | _ => lift (Fail AssertFail)
  end.

Definition exec_muldiv (i : Instruction) (pcAfter : Z) : stM St outcome :=
  a ← getreg (rs i);
  b ← getreg (rt i);
  '(hi, lo) ← lift (match opCode i with
    | OP_DIV =>
        if b =? 0 then mret (0, 0)
        else if (a =? - 2 ^ 31) && (b =? -1) then Fail Undefined
        else mret (Z.rem a b, Z.quot a b)
    | OP_DIVU =>
        if to_u32 b =? 0 then mret (0, 0)
        else mret (to_i32 (to_u32 a mod to_u32 b), to_i32 (to_u32 a / to_u32 b))
    | OP_MULT => mret (Mult a b true)
    | OP_MULTU => mret (Mult a b false)
    | _ => Fail AssertFail
    end);
  setreg LoReg lo;;
  setreg HiReg hi;;
  mret (Some (pcAfter, 0, 0)).

Definition exec_hilo (i : Instruction) (pcAfter : Z) : stM St outcome :=
  match opCode i with
  | OP_MFHI => hi ← getreg HiReg; result pcAfter (rd i) hi
  | OP_MFLO => lo ← getreg LoReg; result pcAfter (rd i) lo
  | OP_MTHI => a ← getreg (rs i); result pcAfter HiReg a
  | OP_MTLO => a ← getreg (rs i); result pcAfter LoReg a
  | _ => lift (Fail AssertFail)
  end.

Definition exec_load (i : Instruction) (pcAfter : Z) : stM St outcome :=
  a ← getreg (rs i);
  let tmp := to_i32 (a + extra i) in
  let op := opCode i in
  match op with
  | OP_LB | OP_LBU =>
      v ← readmem tmp 1;
      match v with
      | None => mret None
      | Some value =>
          let value :=
            if negb (Z.land value 128 =? 0) && bool_decide (op = OP_LB)
            then to_i32 (Z.lor (to_u32 value) 4294967040)
            else Z.land value 255 in
          mret (Some (pcAfter, rt i, value))
      end
  | OP_LH | OP_LHU =>
      if negb (Z.land tmp 1 =? 0) then trap AddressErrorException tmp
      else
        v ← readmem tmp 2;
        match v with
        | None => mret None
        | Some value =>
            let value :=
              if negb (Z.land value 32768 =? 0) && bool_decide (op = OP_LH)
              then to_i32 (Z.lor (to_u32 value) 4294901760)
              else Z.land value 65535 in
            mret (Some (pcAfter, rt i, value))
        end
  | OP_LW =>
      if negb (Z.land tmp 3 =? 0) then trap AddressErrorException tmp
      else
        v ← readmem tmp 4;
        match v with
        | None => mret None
        | Some value => mret (Some (pcAfter, rt i, value))
        end
  | _ => lift (Fail AssertFail)
  end.

(** The [switch (3 - byte)] of LWL, LWR, SWL and SWR: [old] is the register
    (for loads) or the memory word (for stores) that is partly replaced. *)
Definition lwl_merge (k old value : Z) : Z :=
  if k =? 0 then value
  else if k =? 1 then Z.lor (Z.land old 255) (to_i32 (Z.shiftl value 8))
  else if k =? 2 then Z.lor (Z.land old 65535) (to_i32 (Z.shiftl value 16))
  else Z.lor (Z.land old 16777215) (to_i32 (Z.shiftl value 24)).

Definition lwr_merge (k old value : Z) : Z :=
  if k =? 0 then
    to_i32 (Z.lor (Z.land (to_u32 old) 4294967040) (Z.land (Z.shiftr value 24) 255))
  else if k =? 1 then
    to_i32 (Z.lor (Z.land (to_u32 old) 4294901760) (Z.land (Z.shiftr value 16) 65535))
  else if k =? 2 then
    to_i32 (Z.lor (Z.land (to_u32 old) 4278190080) (Z.land (Z.shiftr value 8) 16777215))
  else value.

(** LWL and LWR: the pending delayed load of the same register is merged. *)
Definition exec_unaligned_load (i : Instruction) (pcAfter : Z) : stM St outcome :=
  a ← getreg (rs i);
  let tmp := to_i32 (a + extra i) in
  let byte := Z.land tmp 3 in
  v ← readmem (tmp - byte) 4;
  match v with
  | None => mret None
  | Some value =>
      lr ← getreg LoadReg;
      old ← (if lr =? rt i then getreg LoadValueReg else getreg (rt i));
      match opCode i with
      | OP_LWL => mret (Some (pcAfter, rt i, lwl_merge (3 - byte) old value))
      | OP_LWR => mret (Some (pcAfter, rt i, lwr_merge (3 - byte) old value))
      | _ => lift (Fail AssertFail)
      end
  end.

Definition exec_store (i : Instruction) (pcAfter : Z) : stM St outcome :=
  a ← getreg (rs i);
  b ← getreg (rt i);
  let tmp := to_i32 (a + extra i) in
  ok ← (match opCode i with
        | OP_SB => writemem tmp 1 b
        | OP_SH => writemem tmp 2 b
        | OP_SW => writemem tmp 4 b
        | _ => lift (Fail AssertFail)
        end);
  mret (if ok : bool then Some (pcAfter, 0, 0) else None).

Definition swl_merge (k value b : Z) : Z :=
  if k =? 0 then b
  else if k =? 1 then
    to_i32 (Z.lor (Z.land (to_u32 value) 4278190080) (Z.land (Z.shiftr b 8) 16777215))
  else if k =? 2 then
    to_i32 (Z.lor (Z.land (to_u32 value) 4294901760) (Z.land (Z.shiftr b 16) 65535))
  else
    to_i32 (Z.lor (Z.land (to_u32 value) 4294967040) (Z.land (Z.shiftr b 24) 255)).

Definition swr_merge (k value b : Z) : Z :=
  if k =? 0 then Z.lor (Z.land value 16777215) (to_i32 (Z.shiftl b 24))
  else if k =? 1 then Z.lor (Z.land value 65535) (to_i32 (Z.shiftl b 16))
  else if k =? 2 then Z.lor (Z.land value 255) (to_i32 (Z.shiftl b 8))
  else b.

Definition exec_unaligned_store (i : Instruction) (pcAfter : Z) : stM St outcome :=
  a ← getreg (rs i);
  let tmp := to_i32 (a + extra i) in
  let byte := Z.land tmp 3 in
  v ← readmem (tmp - byte) 4;
  match v with
  | None => mret None
  | Some value =>
      b ← getreg (rt i);
      value ← (match opCode i with
               | OP_SWL => mret (swl_merge (3 - byte) value b)
               | OP_SWR => mret (swr_merge (3 - byte) value b)
               | _ => lift (Fail AssertFail)
               end);
      ok ← writemem (tmp - byte) 4 value;
      mret (if ok : bool then Some (pcAfter, 0, 0) else None)
  end.

(** The [switch] of [OneInstruction]. *)
Definition execute (i : Instruction) (pcAfter : Z) : stM St outcome :=
  match opCode i with
  | OP_ADD | OP_ADDI | OP_ADDIU | OP_ADDU | OP_SUB | OP_SUBU => exec_add i pcAfter
  | OP_AND | OP_ANDI | OP_NOR | OP_OR | OP_ORI | OP_XOR | OP_XORI | OP_LUI =>
      exec_logic i pcAfter
  | OP_SLL | OP_SLLV | OP_SRA | OP_SRAV | OP_SRL | OP_SRLV => exec_shift i pcAfter
  | OP_SLT | OP_SLTI | OP_SLTIU | OP_SLTU => exec_set i pcAfter
  | OP_BEQ | OP_BGEZ | OP_BGEZAL | OP_BGTZ | OP_BLEZ | OP_BLTZ | OP_BLTZAL | OP_BNE =>
      exec_branch i pcAfter
  | OP_J | OP_JAL | OP_JALR | OP_JR => exec_jump i pcAfter
  | OP_DIV | OP_DIVU | OP_MULT | OP_MULTU => exec_muldiv i pcAfter
  | OP_MFHI | OP_MFLO | OP_MTHI | OP_MTLO => exec_hilo i pcAfter
  | OP_LB | OP_LBU | OP_LH | OP_LHU | OP_LW => exec_load i pcAfter
  | OP_LWL | OP_LWR => exec_unaligned_load i pcAfter
  | OP_SB | OP_SH | OP_SW => exec_store i pcAfter
  | OP_SWL | OP_SWR => exec_unaligned_store i pcAfter
  | OP_SYSCALL => trap SyscallException 0
  | OP_RES | OP_UNIMP => trap IllegalInstrException 0
  | OP_RFE | SPECIAL | BCOND => lift (Fail AssertFail)
  end.

Definition OneInstruction : stM St unit :=
  pc ← getreg PCReg;
  raw ← readmem pc 4;
  match raw with
  | None => mret tt
  | Some raw =>
      instr ← lift (Decode (to_u32 raw));
      next ← getreg NextPCReg;
      out ← execute instr (to_i32 (next + 4));
      match out with
      | None => mret tt
      | Some (pcAfter, nextLoadReg, nextLoadValue) =>
          DelayedLoad nextLoadReg nextLoadValue;;
          pc ← getreg PCReg;
          setreg PrevPCReg pc;;
          next ← getreg NextPCReg;
          setreg PCReg next;;
          setreg NextPCReg pcAfter
      end
  end.

End Execution.

(** ** The sign bit and the overflow tests *)

Lemma sign_set_neg x : is_i32 x -> sign_set x = (x <? 0).
Proof.
  intros Hx. unfold sign_set. change SIGN_BIT with (2 ^ 31).
  rewrite land_pow2_eqb by lia. rewrite Z.testbit_odd, Z.shiftr_div_pow2 by lia.
  destruct (Z.ltb_spec x 0).
  - replace (to_u32 x / 2 ^ 31) with 1 by cint. done.
  - replace (to_u32 x / 2 ^ 31) with 0 by cint. done.
Qed.

Lemma i32_bits z : is_i32 z <-> forall j, 31 <= j -> Z.testbit z j = (z <? 0).
Proof.
  unfold is_i32. split.
  - intros Hz j Hj. destruct (Z.ltb_spec z 0).
    + rewrite <- (Z.lnot_involutive z). rewrite Z.lnot_spec by lia.
      rewrite Z.bits_above_log2; [done | unfold Z.lnot; lia | ].
      destruct (Z.eq_dec (Z.lnot z) 0) as [-> | ]; [simpl; lia | ].
      apply Z.log2_lt_pow2; [unfold Z.lnot in *; lia | ]. unfold Z.lnot.
      pose proof (Z.pow_le_mono_r 2 31 j ltac:(lia) ltac:(lia)). lia.
    + rewrite Z.bits_above_log2; [done | lia | ].
      destruct (Z.eq_dec z 0) as [-> | ]; [simpl; lia | ].
      apply Z.log2_lt_pow2; [lia | ].
      pose proof (Z.pow_le_mono_r 2 31 j ltac:(lia) ltac:(lia)). lia.
  - intros Hb. assert (Hd : z / 2 ^ 31 = if z <? 0 then -1 else 0).
    { rewrite <- Z.shiftr_div_pow2 by lia. apply Z.bits_inj'. intros j Hj.
      rewrite Z.shiftr_spec by lia. rewrite Hb by lia.
      destruct (z <? 0); [by rewrite Z.bits_m1 by lia | by rewrite Z.bits_0]. }
    destruct (z <? 0); Z.div_mod_to_equations; lia.
Qed.

Lemma lor_neg a b : (Z.lor a b <? 0) = (a <? 0) || (b <? 0).
Proof. pose proof (Z.lor_neg a b). destruct (Z.ltb_spec (Z.lor a b) 0), (Z.ltb_spec a 0), (Z.ltb_spec b 0); simpl; intuition (done || lia). Qed.

Lemma land_neg a b : (Z.land a b <? 0) = (a <? 0) && (b <? 0).
Proof. pose proof (Z.land_neg a b). destruct (Z.ltb_spec (Z.land a b) 0), (Z.ltb_spec a 0), (Z.ltb_spec b 0); simpl; intuition (done || lia). Qed.

Lemma lxor_neg a b : (Z.lxor a b <? 0) = xorb (a <? 0) (b <? 0).
Proof.
  pose proof (Z.lxor_nonneg a b).
  destruct (Z.ltb_spec (Z.lxor a b) 0), (Z.ltb_spec a 0), (Z.ltb_spec b 0); simpl; intuition (done || lia).
Qed.

Lemma land_i32 a b : is_i32 a -> is_i32 b -> is_i32 (Z.land a b).
Proof.
  rewrite !i32_bits. intros Ha Hb j Hj. by rewrite Z.land_spec, Ha, Hb, land_neg by done.
Qed.

Lemma lor_i32 a b : is_i32 a -> is_i32 b -> is_i32 (Z.lor a b).
Proof.
  rewrite !i32_bits. intros Ha Hb j Hj. by rewrite Z.lor_spec, Ha, Hb, lor_neg by done.
Qed.

Lemma lxor_i32 a b : is_i32 a -> is_i32 b -> is_i32 (Z.lxor a b).
Proof.
  rewrite !i32_bits. intros Ha Hb j Hj. by rewrite Z.lxor_spec, Ha, Hb, lxor_neg by done.
Qed.

Lemma lnot_i32 a : is_i32 a -> is_i32 (Z.lnot a).
Proof. unfold Z.lnot. cint. Qed.

Lemma shiftr_i32 a n : is_i32 a -> 0 <= n -> is_i32 (Z.shiftr a n).
Proof.
  intros Ha Hn. rewrite Z.shiftr_div_pow2 by done. unfold is_i32 in *.
  pose proof (Z.pow_pos_nonneg 2 n ltac:(lia) Hn). split.
  - apply Z.div_le_lower_bound; nia.
  - apply Z.div_lt_upper_bound; nia.
Qed.

Lemma land_mask v k : 0 <= k -> Z.land v (Z.ones k) = v mod 2 ^ k.
Proof. intros. by rewrite Z.land_ones. Qed.

Lemma land_31 v : 0 <= Z.land v 31 < 32.
Proof. change 31 with (Z.ones 5). rewrite Z.land_ones by lia. apply Z.mod_pos_bound. lia. Qed.

Lemma land_63 v : 0 <= Z.land v 63 < 64.
Proof. change 63 with (Z.ones 6). rewrite Z.land_ones by lia. apply Z.mod_pos_bound. lia. Qed.

Lemma land_65535 v : 0 <= Z.land v 65535 < 65536.
Proof. change 65535 with (Z.ones 16). rewrite Z.land_ones by lia. apply Z.mod_pos_bound. lia. Qed.

(** Overflow is detected exactly when the sum does not fit an [int]. *)
Lemma add_overflow_spec a b c :
  is_i32 a -> is_i32 b -> c = a \/ c = b ->
  negb (sign_set (Z.lxor a b)) && sign_set (Z.lxor c (to_i32 (a + b))) =
  negb (bool_decide (is_i32 (a + b))).
Proof.
  intros Ha Hb Hc. assert (is_i32 c) by (by destruct Hc as [-> | ->]).
  rewrite !sign_set_neg by auto using lxor_i32, to_i32_range.
  rewrite !lxor_neg. case_bool_decide as Hs;
    destruct (Z.ltb_spec a 0), (Z.ltb_spec b 0), (Z.ltb_spec c 0), (Z.ltb_spec (to_i32 (a + b)) 0);
    simpl; try done; exfalso; cint.
Qed.

Lemma sub_overflow_spec a b :
  is_i32 a -> is_i32 b ->
  sign_set (Z.lxor a b) && sign_set (Z.lxor a (to_i32 (a - b))) =
  negb (bool_decide (is_i32 (a - b))).
Proof.
  intros Ha Hb. rewrite !sign_set_neg by auto using lxor_i32, to_i32_range.
  rewrite !lxor_neg. case_bool_decide as Hs;
    destruct (Z.ltb_spec a 0), (Z.ltb_spec b 0), (Z.ltb_spec (to_i32 (a - b)) 0);
    simpl; try done; exfalso; cint.
Qed.

(** ** Decoding *)

Definition is_gpr (n : Z) : Prop := 0 <= n < NumGPRegs.

Definition immediate_shift (op : OpCode) : bool :=
  match op with OP_SLL | OP_SRA | OP_SRL => true | _ => false end.

Definition executable (op : OpCode) : bool :=
  match op with OP_RFE | SPECIAL | BCOND => false | _ => true end.

Definition table_entry_ok (p : OpCode * Format) : bool :=
  match p with
  | (SPECIAL, RFMT) | (BCOND, IFMT) => true
  | (op, _) => executable op && negb (immediate_shift op)
  end.

Lemma opTable_ok : length opTable = 64%nat /\ forallb table_entry_ok opTable = true.
Proof. by vm_compute. Qed.

Lemma specialTable_ok : length specialTable = 64%nat /\ forallb executable specialTable = true.
Proof. by vm_compute. Qed.

Record instr_wf (i : Instruction) : Prop := {
  instr_rs : is_gpr (rs i);
  instr_rt : is_gpr (rt i);
  instr_rd : is_gpr (rd i);
  instr_extra : is_i32 (extra i);
  instr_op : executable (opCode i) = true;
  instr_shift : immediate_shift (opCode i) = true -> 0 <= extra i < 32
}.

Lemma forallb_lookup {A} (f : A -> bool) l n x :
  forallb f l = true -> l !! n = Some x -> f x = true.
Proof.
  intros Hf Hl. rewrite forallb_forall in Hf. apply Hf, list_elem_of_In.
  by eapply list_elem_of_lookup_2.
Qed.

Lemma Decode_extra_i32 v format :
  is_i32 (match format with
    | IFMT =>
        let extra := Z.land v 65535 in
        if negb (Z.land extra 32768 =? 0) then to_i32 (Z.lor extra 4294901760) else extra
    | RFMT => Z.land (Z.shiftr v 6) 31
    | JFMT => Z.land v 67108863
    end).
Proof.
  destruct format; simpl.
  - case_match; [apply to_i32_range | ]. pose proof (land_65535 v). cint.
  - change 67108863 with (Z.ones 26). rewrite Z.land_ones by lia.
    pose proof (Z.mod_pos_bound v (2 ^ 26) ltac:(lia)). change (2 ^ 26) with 67108864 in *. cint.
  - pose proof (land_31 (Z.shiftr v 6)). cint.
Qed.

Lemma Decode_ok v : exists i, Decode v = Ok i /\ instr_wf i.
Proof.
  destruct opTable_ok as [Hl1 Ht1], specialTable_ok as [Hl2 Ht2]. unfold Decode.
  destruct (zget_in_range opTable (Z.land (Z.shiftr v 26) 63)) as ([op format] & Lop & ->).
  { rewrite Hl1. pose proof (land_63 (Z.shiftr v 26)). lia. }
  rsimp. pose proof (forallb_lookup _ _ _ _ Ht1 Lop) as Hop.
  destruct (zget_in_range specialTable (Z.land v 63)) as (sop & Lsop & Esop).
  { rewrite Hl2. pose proof (land_63 v). lia. }
  pose proof (forallb_lookup _ _ _ _ Ht2 Lsop) as Hsop.
  pose proof (Decode_extra_i32 v format) as Hex.
  assert (Hbcond : forall f : Format, exists op',
    (let i := Z.land v 2031616 in
      if i =? 0 then mret OP_BLTZ else if i =? 65536 then mret OP_BGEZ
      else if i =? 1048576 then mret OP_BLTZAL else if i =? 1114112 then mret OP_BGEZAL
      else mret OP_UNIMP) = Ok op' /\ executable op' = true /\ immediate_shift op' = false).
  { intros _. simpl. repeat case_match; eauto. }
  destruct (decide (op = SPECIAL)) as [-> | Hs]; [ | destruct (decide (op = BCOND)) as [-> | Hb]].
  - rewrite Esop. rsimp. eexists. split; [done | ]. destruct format; try done.
    split; simpl; try apply land_31; [done | done | by intros; apply land_31].
  - destruct (Hbcond IFMT) as (op' & E & He & Hi). simpl in E |- *. rewrite E. rsimp.
    eexists. split; [done | ]. split; simpl; try apply land_31; [done | done | by rewrite Hi].
  - assert (Hx : executable op = true /\ immediate_shift op = false)
      by (clear -Hop Hs Hb; destruct op, format; done).
    destruct Hx as [He Hi]. exists (mkInstr v op (Z.land (Z.shiftr v 21) 31)
      (Z.land (Z.shiftr v 16) 31) (Z.land (Z.shiftr v 11) 31)
      (match format with
       | IFMT =>
           let extra := Z.land v 65535 in
           if negb (Z.land extra 32768 =? 0) then to_i32 (Z.lor extra 4294901760) else extra
       | RFMT => Z.land (Z.shiftr v 6) 31
       | JFMT => Z.land v 67108863
       end)).
    split; [by destruct op | ]. split; simpl; try apply land_31; [done | done | by rewrite Hi].
Qed.

(** ** Multiplication *)

Lemma land_1_odd a : negb (Z.land a 1 =? 0) = Z.odd a.
Proof. rewrite land_1. rewrite Zmod_odd. by destruct (Z.odd a). Qed.

Lemma land_bit31 x : is_u32 x -> negb (Z.land x 2147483648 =? 0) = (2 ^ 31 <=? x).
Proof.
  intros Hx. change 2147483648 with (2 ^ 31). rewrite land_pow2_eqb by lia.
  rewrite Z.testbit_odd, Z.shiftr_div_pow2 by lia. destruct (Z.leb_spec (2 ^ 31) x).
  - replace (x / 2 ^ 31) with 1 by cint. done.
  - replace (x / 2 ^ 31) with 0 by cint. done.
Qed.

Lemma only_bit0 a : is_i32 a -> Z.odd a = true -> (Z.land (to_u32 a) 4294967294 =? 0) = (a =? 1).
Proof.
  intros Ha Ho. assert (Hl : Z.land (to_u32 a) 4294967294 = to_u32 a / 2 * 2).
  { apply Z.bits_inj'. intros j Hj. rewrite Z.land_spec.
    rewrite <- Z.shiftr_div_pow2 with (n := 1), <- Z.shiftl_mul_pow2 with (n := 1) by lia.
    destruct (Z.eq_dec j 0) as [-> | Hne].
    - rewrite Z.shiftl_spec_low by lia. by rewrite andb_false_r.
    - rewrite Z.shiftl_spec, Z.shiftr_spec by lia. replace (j - 1 + 1) with j by lia.
      change 4294967294 with (Z.shiftl (Z.ones 31) 1). rewrite Z.shiftl_spec by lia.
      destruct (Z.lt_ge_cases j 32).
      + rewrite Z.ones_spec_low by lia. by rewrite andb_true_r.
      + rewrite Z.ones_spec_high, andb_false_r by lia. symmetry.
        apply Z.testbit_false; [lia | ]. rewrite Z.div_small; [done | ].
        pose proof (to_u32_range a) as Hr. unfold is_u32 in Hr.
        pose proof (Z.pow_le_mono_r 2 32 j ltac:(lia) ltac:(lia)). lia. }
  rewrite Hl. rewrite Z.odd_spec in Ho. destruct Ho as [c ->].
  destruct (Z.eqb_spec (2 * c + 1) 1) as [He | He].
  - replace c with 0 by lia. done.
  - apply Z.eqb_neq. cint.
Qed.

(** [hi] and [lo] as one 64-bit number. *)
Definition dword (hi lo : Z) : Z := hi * 2 ^ 32 + lo.

Lemma dword_range hi lo : is_u32 hi -> is_u32 lo -> 0 <= dword hi lo < 2 ^ 64.
Proof. unfold dword. intros. change (2 ^ 64) with 18446744073709551616. cint. Qed.

(** One addition of the loop, with its carry. *)
Lemma mult_add hi lo bHi bLo :
  is_u32 hi -> is_u32 lo -> is_u32 bHi -> is_u32 bLo ->
  let lo' := to_u32 (lo + bLo) in
  dword (to_u32 (to_u32 (hi + (if lo' <? bLo then 1 else 0)) + bHi)) lo' =
  (dword hi lo + dword bHi bLo) mod 2 ^ 64.
Proof.
  intros H1 H2 H3 H4 lo'. apply Z.mod_unique with
    ((hi + (if lo' <? bLo then 1 else 0) + bHi) / 2 ^ 32).
  { left. apply dword_range; apply to_u32_range. }
  unfold dword, to_u32 in *. subst lo'. rewrite Z.add_mod_idemp_l by lia.
  change (2 ^ 64) with (2 ^ 32 * 2 ^ 32).
  set (c := if (lo + bLo) mod 2 ^ 32 <? bLo then 1 else 0).
  assert (Hc : lo + bLo = c * 2 ^ 32 + (lo + bLo) mod 2 ^ 32).
  { subst c. destruct (Z.ltb_spec ((lo + bLo) mod 2 ^ 32) bLo); cint. }
  pose proof (Z.div_mod (hi + c + bHi) (2 ^ 32) ltac:(lia)) as Hd. nia.
Qed.

(** One doubling of the addend. *)
Lemma mult_double bHi bLo :
  is_u32 bHi -> is_u32 bLo ->
  let bHi' := to_u32 (Z.shiftl bHi 1) in
  let bHi' := if negb (Z.land bLo 2147483648 =? 0) then Z.lor bHi' 1 else bHi' in
  is_u32 bHi' /\ dword bHi' (to_u32 (Z.shiftl bLo 1)) = (2 * dword bHi bLo) mod 2 ^ 64.
Proof.
  intros H1 H2. rewrite !Z.shiftl_mul_pow2 by lia. change (2 ^ 1) with 2.
  rewrite land_bit31 by done.
  assert (Hor : Z.lor (to_u32 (bHi * 2)) 1 = to_u32 (bHi * 2) + 1).
  { rewrite <- Z.lxor_lor, <- Z.add_nocarry_lxor; [done | | ];
      rewrite land_1; cint. }
  simpl. rewrite Hor. unfold dword. change (2 ^ 64) with 18446744073709551616.
  destruct (Z.leb_spec (2 ^ 31) bLo); (split; [cint | ]); cint.
Qed.

Lemma mult_loop_spec n : forall a bLo bHi lo hi,
  is_i32 a -> is_u32 bLo -> is_u32 bHi -> is_u32 lo -> is_u32 hi -> (0 < n)%nat ->
  let '(lo', hi') := mult_loop n a bLo bHi lo hi in
  is_u32 lo' /\ is_u32 hi' /\
  dword hi' lo' = (dword hi lo + (a mod 2 ^ Z.of_nat n) * dword bHi bLo) mod 2 ^ 64.
Proof.
  induction n as [ | n IH]; intros a bLo bHi lo hi Ha H1 H2 H3 H4 Hn; [lia | clear Hn].
  cbn [mult_loop]. rewrite land_1_odd.
  pose proof (mult_double bHi bLo H2 H1) as Hdbl. cbv zeta in Hdbl.
  set (bHi' := if negb (Z.land bLo 2147483648 =? 0)
               then Z.lor (to_u32 (Z.shiftl bHi 1)) 1 else to_u32 (Z.shiftl bHi 1)) in *.
  destruct Hdbl as [Hb' Hdbl].
  set (lo' := if Z.odd a then to_u32 (lo + bLo) else lo).
  set (hi' := if Z.odd a then to_u32 (to_u32 (hi + (if lo' <? bLo then 1 else 0)) + bHi) else hi).
  assert (Hlo : is_u32 lo') by (subst lo'; destruct (Z.odd a); auto with nachos).
  assert (Hhi : is_u32 hi') by (subst hi'; destruct (Z.odd a); auto with nachos).
  assert (Hsum : dword hi' lo' mod 2 ^ 64 = (dword hi lo + (a mod 2) * dword bHi bLo) mod 2 ^ 64).
  { subst hi' lo'. rewrite Zmod_odd. destruct (Z.odd a).
    - rewrite mult_add by done. rewrite Zmod_mod. f_equal. lia.
    - f_equal. lia. }
  assert (Hmod : a mod 2 ^ Z.of_nat (S n) = a mod 2 + 2 * (Z.shiftr a 1 mod 2 ^ Z.of_nat n)).
  { rewrite Nat2Z.inj_succ, Z.pow_succ_r, Z.shiftr_div_pow2 by lia. change (2 ^ 1) with 2.
    rewrite Z.rem_mul_r; [done | lia | ]. apply Z.pow_pos_nonneg; lia. }
  assert (Hone : Z.odd a && (Z.land (to_u32 a) 4294967294 =? 0) = (a =? 1)).
  { destruct (Z.odd a) eqn:Eo; [by apply only_bit0 | ]. symmetry. apply Z.eqb_neq.
    by intros ->. }
  rewrite Hone. destruct (Z.eqb_spec a 1) as [-> | Hne].
  - split_and!; [done.. | ]. rewrite <- (Z.mod_small (dword hi' lo') (2 ^ 64)) by by apply dword_range.
    rewrite Hsum, Hmod. change (Z.shiftr 1 1) with 0. by rewrite Zmod_0_l.
  - destruct n as [ | n].
    { cbn [mult_loop]. split_and!; [done.. | ].
      rewrite <- (Z.mod_small (dword hi' lo') (2 ^ 64)) by by apply dword_range.
      rewrite Hsum, Hmod. change (2 ^ Z.of_nat 0) with 1. rewrite Z.mod_1_r. f_equal. lia. }
    specialize (IH (Z.shiftr a 1) (to_u32 (Z.shiftl bLo 1)) bHi' lo' hi').
    destruct (mult_loop (S n) (Z.shiftr a 1) (to_u32 (Z.shiftl bLo 1)) bHi' lo' hi') as [lo2 hi2].
    destruct IH as (Hr1 & Hr2 & Heq); try done;
      [by apply shiftr_i32 | apply to_u32_range | lia | ].
    split_and!; [done.. | ]. rewrite Heq, Hdbl, Hmod.
    rewrite <- Zplus_mod_idemp_l, Hsum, Zplus_mod_idemp_l.
    rewrite <- Zplus_mod_idemp_r, Zmult_mod_idemp_r, Zplus_mod_idemp_r. f_equal. ring.
Qed.

Lemma Mult_loop_32 a b :
  is_i32 a -> is_u32 b ->
  let '(lo, hi) := mult_loop 32 a b 0 0 0 in
  is_u32 lo /\ is_u32 hi /\ dword hi lo = to_u32 a * b.
Proof.
  intros Ha Hb. pose proof (mult_loop_spec 32 a b 0 0 0 Ha Hb) as H.
  destruct (mult_loop 32 a b 0 0 0) as [lo hi].
  destruct H as (H1 & H2 & H3); [by split.. | lia | ]. split_and!; [done.. | ]. rewrite H3.
  change (2 ^ Z.of_nat 32) with (2 ^ 32). fold (to_u32 a).
  unfold dword. rewrite Z.mod_small; [lia | ].
  pose proof (to_u32_range a) as Ha'. unfold is_u32 in *.
  change (2 ^ 64) with (2 ^ 32 * 2 ^ 32). nia.
Qed.

(** Two's complement of a double word. *)
Lemma dword_negate hi lo :
  is_u32 hi -> is_u32 lo ->
  let hi1 := to_u32 (Z.lnot hi) in
  let lo1 := to_u32 (to_u32 (Z.lnot lo) + 1) in
  let hi2 := if lo1 =? 0 then to_u32 (hi1 + 1) else hi1 in
  is_u32 lo1 /\ is_u32 hi2 /\ dword hi2 lo1 = (- dword hi lo) mod 2 ^ 64.
Proof.
  intros H1 H2. unfold Z.lnot, dword. simpl. change (2 ^ 64) with 18446744073709551616.
  destruct (Z.eqb_spec (to_u32 (to_u32 (Z.pred (- lo)) + 1)) 0);
    split_and!; cint.
Qed.

(** The signed reading of a double word. *)
Lemma dword_signed hi lo p :
  is_u32 hi -> is_u32 lo -> dword hi lo = p mod 2 ^ 64 -> - 2 ^ 63 <= p < 2 ^ 63 ->
  to_i32 hi * 2 ^ 32 + to_u32 (to_i32 lo) = p.
Proof.
  unfold dword. change (2 ^ 64) with 18446744073709551616.
  change (2 ^ 63) with 9223372036854775808. intros. cint.
Qed.

Lemma dword_unsigned hi lo :
  is_u32 hi -> is_u32 lo -> to_u32 (to_i32 hi) * 2 ^ 32 + to_u32 (to_i32 lo) = dword hi lo.
Proof. unfold dword. intros. cint. Qed.

(** C31: The R2000 multiplier computes the whole product: for every pair of
    ints the 64-bit number in HI:LO is their exact product, signed for MULT
    (including the most negative int, whose negation overflows) and unsigned
    for MULTU. *)
Theorem mult_correct a b signedArith :
  is_i32 a -> is_i32 b ->
  let '(hi, lo) := Mult a b signedArith in
  is_i32 hi /\ is_i32 lo /\
  (if signedArith then hi * 2 ^ 32 + to_u32 lo = a * b
   else to_u32 hi * 2 ^ 32 + to_u32 lo = to_u32 a * to_u32 b).
Proof.
  intros Ha Hb. unfold Mult.
  destruct (Z.eqb_spec a 0) as [-> | Ha0]; [simpl; change (to_u32 0) with 0; rewrite ?Z.mul_0_l;
    destruct signedArith; split_and!; cint | ].
  destruct (Z.eqb_spec b 0) as [-> | Hb0];
    [simpl; change (to_u32 0) with 0; rewrite ?Z.mul_0_r; destruct signedArith; split_and!; cint | ].
  cbn [orb]. set (a' := if signedArith && (a <? 0) then to_i32 (- a) else a).
  set (b' := if signedArith && (b <? 0) then to_i32 (- b) else b).
  assert (Ha' : is_i32 a') by (subst a'; case_match; auto with nachos).
  pose proof (Mult_loop_32 a' (to_u32 b') Ha' (to_u32_range b')) as Hloop.
  destruct (mult_loop 32 a' (to_u32 b') 0 0 0) as [lo hi].
  destruct Hloop as (Hlo & Hhi & Hprod).
  destruct signedArith; cbn [andb xorb] in *.
  - assert (Habs : to_u32 a' = Z.abs a /\ to_u32 b' = Z.abs b).
    { subst a' b'. clear -Ha Hb. destruct (Z.ltb_spec a 0), (Z.ltb_spec b 0); split; cint. }
    destruct Habs as [Ea Eb]. rewrite Ea, Eb in Hprod.
    assert (Hp : 0 <= Z.abs a * Z.abs b < 2 ^ 63).
    { clear -Ha Hb. change (2 ^ 63) with (2 ^ 31 * 2 ^ 32). unfold is_i32 in *. nia. }
    assert (Hsgn : a * b = if xorb (a <? 0) (b <? 0) then - (Z.abs a * Z.abs b) else Z.abs a * Z.abs b).
    { clear. destruct (Z.ltb_spec a 0), (Z.ltb_spec b 0); simpl; nia. }
    rewrite Hsgn. destruct (xorb (a <? 0) (b <? 0)).
    + destruct (dword_negate hi lo Hhi Hlo) as (H1 & H2 & H3).
      split; [apply to_i32_range | ]. split; [apply to_i32_range | ].
      apply dword_signed; [done | done | | lia]. by rewrite H3, Hprod.
    + split; [apply to_i32_range | ]. split; [apply to_i32_range | ].
      apply dword_signed; [done | done | | lia]. rewrite Hprod, Z.mod_small; [done | ].
      change (2 ^ 64) with (2 * 2 ^ 63). lia.
  - split; [apply to_i32_range | ]. split; [apply to_i32_range | ].
    by rewrite dword_unsigned by done.
Qed.

Lemma mult_correct_witness :
  let '(hi, lo) := Mult (- 2 ^ 31) (-3) true in
  is_i32 hi /\ is_i32 lo /\ hi * 2 ^ 32 + to_u32 lo = - 2 ^ 31 * -3.
Proof. apply (mult_correct (- 2 ^ 31) (-3) true); split; vm_compute; congruence. Defined.

(** ** Unaligned access: LWL, LWR, SWL, SWR *)

Lemma lor_disjoint lo hi k :
  0 <= k -> 0 <= lo < 2 ^ k -> Z.lor lo (hi * 2 ^ k) = lo + hi * 2 ^ k.
Proof.
  intros Hk Hlo. assert (Hd : Z.land lo (hi * 2 ^ k) = 0).
  { rewrite <- Z.shiftl_mul_pow2 by done. apply Z.bits_inj'. intros j Hj.
    rewrite Z.land_spec, Z.bits_0. destruct (Z.lt_ge_cases j k).
    - rewrite Z.shiftl_spec_low by lia. apply andb_false_r.
    - rewrite (proj2 (Z.testbit_false lo j Hj)); [done | ].
      rewrite Z.div_small; [done | ]. pose proof (Z.pow_le_mono_r 2 k j ltac:(lia) ltac:(lia)). lia. }
  by rewrite <- Z.lxor_lor, <- Z.add_nocarry_lxor.
Qed.

(** Keeping the upper bits of a word: [x & 0xff..00]. *)
Lemma land_high x k :
  is_u32 x -> 0 <= k <= 32 -> Z.land x (2 ^ 32 - 2 ^ k) = x / 2 ^ k * 2 ^ k.
Proof.
  intros Hx Hk. apply Z.bits_inj'. intros j Hj. rewrite Z.land_spec.
  rewrite <- Z.shiftr_div_pow2, <- Z.shiftl_mul_pow2 by lia.
  replace (2 ^ 32 - 2 ^ k) with (Z.shiftl (Z.ones (32 - k)) k).
  2: { rewrite Z.shiftl_mul_pow2, Z.ones_equiv by lia.
       replace (2 ^ 32) with (2 ^ (32 - k) * 2 ^ k); [lia | ].
       rewrite <- Z.pow_add_r by lia. f_equal. lia. }
  destruct (Z.lt_ge_cases j k).
  - rewrite !Z.shiftl_spec_low by lia. apply andb_false_r.
  - rewrite !Z.shiftl_spec, Z.shiftr_spec by lia. replace (j - k + k) with j by lia.
    destruct (Z.lt_ge_cases j 32).
    + rewrite Z.ones_spec_low by lia. apply andb_true_r.
    + rewrite Z.ones_spec_high, andb_false_r by lia. symmetry.
      apply Z.testbit_false; [lia | ]. rewrite Z.div_small; [done | ].
      pose proof (Z.pow_le_mono_r 2 32 j ltac:(lia) ltac:(lia)). unfold is_u32 in Hx. lia.
Qed.

(** The four shapes the merges are made of, as arithmetic. *)
Lemma merge_low old v k :
  0 < k < 32 -> is_i32 v ->
  Z.lor (Z.land old (Z.ones k)) (to_i32 (Z.shiftl v k)) =
  to_i32 (old mod 2 ^ k + v * 2 ^ k).
Proof.
  intros Hk Hv. rewrite Z.land_ones, Z.shiftl_mul_pow2 by lia.
  assert (Hp : 2 ^ 32 = 2 ^ (32 - k) * 2 ^ k) by (rewrite <- Z.pow_add_r by lia; f_equal; lia).
  assert (Hq : 2 ^ 31 = 2 ^ (31 - k) * 2 ^ k) by (rewrite <- Z.pow_add_r by lia; f_equal; lia).
  pose proof (Z.pow_pos_nonneg 2 k ltac:(lia) ltac:(lia)).
  pose proof (Z.pow_pos_nonneg 2 (32 - k) ltac:(lia) ltac:(lia)).
  pose proof (Z.mod_pos_bound old (2 ^ k) ltac:(lia)) as Hm.
  assert (Ht : to_i32 (v * 2 ^ k) =
    ((v + 2 ^ (31 - k)) mod 2 ^ (32 - k) - 2 ^ (31 - k)) * 2 ^ k).
  { unfold to_i32. rewrite Hp, Hq. rewrite <- Z.mul_add_distr_r.
    rewrite Z.mul_mod_distr_r by lia. lia. }
  rewrite Ht, lor_disjoint by lia. unfold to_i32. rewrite Hp, Hq.
  replace (old mod 2 ^ k + v * 2 ^ k + 2 ^ (31 - k) * 2 ^ k)
    with (old mod 2 ^ k + (v + 2 ^ (31 - k)) * 2 ^ k) by lia.
  rewrite (Z.mul_comm (2 ^ (32 - k)) (2 ^ k)), Z.rem_mul_r by lia.
  rewrite Z.mod_add, Z.div_add by lia.
  rewrite (Z.mod_small (old mod 2 ^ k)), (Z.div_small (old mod 2 ^ k)) by lia.
  rewrite Z.add_0_l. ring.
Qed.

Lemma merge_high old v k mask low :
  0 < k < 32 -> is_i32 v -> mask = 2 ^ 32 - 2 ^ k -> low = 2 ^ k - 1 ->
  to_i32 (Z.lor (Z.land (to_u32 old) mask) (Z.land (Z.shiftr v (32 - k)) low)) =
  to_i32 (to_u32 v / 2 ^ (32 - k) + to_u32 old / 2 ^ k * 2 ^ k).
Proof.
  intros Hk Hv -> ->. rewrite land_high by (auto with nachos || lia).
  replace (2 ^ k - 1) with (Z.ones k) by (rewrite Z.ones_equiv; lia).
  rewrite Z.land_ones, Z.shiftr_div_pow2 by lia.
  assert (Hp : 2 ^ 32 = 2 ^ (32 - k) * 2 ^ k) by (rewrite <- Z.pow_add_r by lia; f_equal; lia).
  pose proof (Z.pow_pos_nonneg 2 k ltac:(lia) ltac:(lia)).
  pose proof (Z.pow_pos_nonneg 2 (32 - k) ltac:(lia) ltac:(lia)).
  assert (He : (v / 2 ^ (32 - k)) mod 2 ^ k = to_u32 v / 2 ^ (32 - k)).
  { unfold to_u32. rewrite Hp. rewrite Z.rem_mul_r by lia.
    rewrite (Z.mul_comm (2 ^ (32 - k))), Z.div_add by lia.
    rewrite (Z.div_small (v mod 2 ^ (32 - k))) by (apply Z.mod_pos_bound; lia). lia. }
  rewrite He, Z.lor_comm, lor_disjoint; [done | lia | ].
  rewrite <- He. apply Z.mod_pos_bound. lia.
Qed.

(** The little-endian word made of four bytes, as an [int]. *)
Definition word (b0 b1 b2 b3 : Z) : Z :=
  to_i32 (b0 + 256 * (b1 + 256 * (b2 + 256 * b3))).

Ltac use_merges :=
  change 255 with (Z.ones 8); change 65535 with (Z.ones 16); change 16777215 with (Z.ones 24);
  rewrite ?(merge_low _ _ 8), ?(merge_low _ _ 16), ?(merge_low _ _ 24)
    by (lia || auto with nachos);
  change (Z.ones 8) with 255; change (Z.ones 16) with 65535; change (Z.ones 24) with 16777215;
  rewrite ?(merge_high _ _ 8 4294967040 255), ?(merge_high _ _ 16 4294901760 65535),
    ?(merge_high _ _ 24 4278190080 16777215)
    by (lia || auto with nachos);
  change (2 ^ (32 - 8)) with 16777216; change (2 ^ (32 - 16)) with 65536;
  change (2 ^ (32 - 24)) with 256; change (2 ^ 8) with 256; change (2 ^ 16) with 65536;
  change (2 ^ 24) with 16777216.

Lemma lwl_merge_arith k old v :
  is_i32 v -> 0 <= k <= 3 ->
  lwl_merge k old v = to_i32 (old mod 2 ^ (8 * k) + v * 2 ^ (8 * k)).
Proof.
  intros Hv Hk. assert (k = 0 \/ k = 1 \/ k = 2 \/ k = 3) as [-> | [-> | [-> | ->]]] by lia;
    unfold lwl_merge; simpl; use_merges; try done.
  change (2 ^ (8 * 0)) with 1. rewrite Z.mod_1_r, Z.mul_1_r. by rewrite to_i32_id.
Qed.

Lemma swr_merge_arith k value b :
  is_i32 b -> 0 <= k <= 3 ->
  swr_merge k value b = to_i32 (value mod 2 ^ (24 - 8 * k) + b * 2 ^ (24 - 8 * k)).
Proof.
  intros Hv Hk. assert (k = 0 \/ k = 1 \/ k = 2 \/ k = 3) as [-> | [-> | [-> | ->]]] by lia;
    unfold swr_merge; simpl; use_merges; try done.
  change (2 ^ (24 - 8 * 3)) with 1. rewrite Z.mod_1_r, Z.mul_1_r. by rewrite to_i32_id.
Qed.

Lemma lwr_merge_arith k old v :
  is_i32 v -> is_i32 old -> 0 <= k <= 3 ->
  lwr_merge k old v =
  to_i32 (to_u32 v / 2 ^ (24 - 8 * k) + to_u32 old / 2 ^ (8 + 8 * k) * 2 ^ (8 + 8 * k)).
Proof.
  intros Hv Ho Hk. assert (k = 0 \/ k = 1 \/ k = 2 \/ k = 3) as [-> | [-> | [-> | ->]]] by lia;
    unfold lwr_merge; simpl; use_merges; try done.
  change (2 ^ (24 - 8 * 3)) with 1. change (8 + 8 * 3) with 32. cint.
Qed.

Lemma swl_merge_arith k value b :
  is_i32 value -> is_i32 b -> 0 <= k <= 3 ->
  swl_merge k value b =
  to_i32 (to_u32 b / 2 ^ (8 * k) + to_u32 value / 2 ^ (32 - 8 * k) * 2 ^ (32 - 8 * k)).
Proof.
  intros Hv Hb Hk. assert (k = 0 \/ k = 1 \/ k = 2 \/ k = 3) as [-> | [-> | [-> | ->]]] by lia;
    unfold swl_merge; simpl; use_merges; try done.
  change (2 ^ (8 * 0)) with 1. change (32 - 8 * 0) with 32. cint.
Qed.

(** Byte [j] of an [int] in memory. *)
Definition byte_of (v : Z) (j : Z) : Z := to_u32 v / 2 ^ (8 * j) mod 256.

Lemma byte_of_range v j : is_byte (byte_of v j).
Proof. unfold byte_of, is_byte. pose proof (Z.mod_pos_bound (to_u32 v / 2 ^ (8 * j)) 256). lia. Qed.

(** An [int] is its four bytes. *)
Lemma word_of_bytes v : is_i32 v -> v = word (byte_of v 0) (byte_of v 1) (byte_of v 2) (byte_of v 3).
Proof.
  intros Hv. unfold word, byte_of. change (2 ^ (8 * 0)) with 1. change (2 ^ (8 * 1)) with 256.
  change (2 ^ (8 * 2)) with 65536. change (2 ^ (8 * 3)) with 16777216. cint.
Qed.

(** What each merge does to byte [j]; [n] is the place of the address in its
    aligned word, whose bytes are [c0] to [c3]. *)
Ltac merge_bytes :=
  intros c0 c1 c2 c3 old n j; intros;
  assert (n = 0 \/ n = 1 \/ n = 2 \/ n = 3) as [-> | [-> | [-> | ->]]] by lia;
  (assert (j = 0 \/ j = 1 \/ j = 2 \/ j = 3) as [-> | [-> | [-> | ->]]] by lia);
  repeat match goal with |- context [3 - ?e] =>
    let v := eval vm_compute in (3 - e) in progress change (3 - e) with v end;
  repeat match goal with |- context [Z.to_nat ?e] =>
    let v := eval vm_compute in (Z.to_nat e) in progress change (Z.to_nat e) with v end;
  repeat match goal with |- context [?x <=? ?y] =>
    let v := eval vm_compute in (x <=? y) in progress change (x <=? y) with v end;
  rewrite ?lwl_merge_arith, ?lwr_merge_arith, ?swr_merge_arith, ?swl_merge_arith
    by (lia || done || (unfold word; auto with nachos));
  cbn [lookup_total list_lookup_total]; unfold byte_of, word, is_byte in *;
  repeat match goal with |- context [2 ^ ?e] =>
    let v := eval vm_compute in (2 ^ e) in progress change (2 ^ e) with v end;
  cint.

Lemma lwl_bytes : forall c0 c1 c2 c3 old n j,
  is_byte c0 -> is_byte c1 -> is_byte c2 -> is_byte c3 -> is_i32 old -> 0 <= n <= 3 -> 0 <= j <= 3 ->
  byte_of (lwl_merge (3 - n) old (word c0 c1 c2 c3)) j =
  if 3 - n <=? j then [c0; c1; c2; c3] !!! Z.to_nat (j - (3 - n)) else byte_of old j.
Proof. merge_bytes. Qed.

Lemma lwr_bytes : forall c0 c1 c2 c3 old n j,
  is_byte c0 -> is_byte c1 -> is_byte c2 -> is_byte c3 -> is_i32 old -> 0 <= n <= 3 -> 0 <= j <= 3 ->
  byte_of (lwr_merge (3 - n) old (word c0 c1 c2 c3)) j =
  if j <=? 3 - n then [c0; c1; c2; c3] !!! Z.to_nat (n + j) else byte_of old j.
Proof. merge_bytes. Qed.

Lemma swl_bytes : forall c0 c1 c2 c3 old n j,
  is_byte c0 -> is_byte c1 -> is_byte c2 -> is_byte c3 -> is_i32 old -> 0 <= n <= 3 -> 0 <= j <= 3 ->
  byte_of (swl_merge (3 - n) (word c0 c1 c2 c3) old) j =
  if j <=? n then byte_of old (3 - n + j) else [c0; c1; c2; c3] !!! Z.to_nat j.
Proof. merge_bytes. Qed.

Lemma swr_bytes : forall c0 c1 c2 c3 old n j,
  is_byte c0 -> is_byte c1 -> is_byte c2 -> is_byte c3 -> is_i32 old -> 0 <= n <= 3 -> 0 <= j <= 3 ->
  byte_of (swr_merge (3 - n) (word c0 c1 c2 c3) old) j =
  if n <=? j then byte_of old (j - n) else [c0; c1; c2; c3] !!! Z.to_nat j.
Proof. merge_bytes. Qed.
