(* ===== verification/MipsSafety.v ===== *)
(** * Execution of MIPS instructions

    The properties of [OneInstruction] (machine/mipssim.cc) that hold for any
    kernel that keeps its side of [TrapHandler]: no instruction can leave the
    machine ill-formed, the delay slots behave as on the R2000, and the
    arithmetic instructions compute what they should. *)

From S2P Require Import Prelude Machine Mips.

(** ** Safety of one instruction *)

Section Safety.
Context {K : Type} (setStatus : MachineStatus -> K -> K).
Context (ExceptionHandler : ExceptionType -> stM (Machine * K) unit).
Context (E : fault -> Prop) (calls : Prop) (Pre : Machine -> K -> Prop) (Post : K -> Prop).
Context `{!TrapEntry setStatus ExceptionHandler E calls Pre Post}.
Implicit Types (m : Machine) (k : K) (i : Instruction).

(** What the end of the switch leaves for the commit. *)
Definition outcome_ok (out : outcome) (s : Machine * K) : Prop :=
  match out with
  | None => user_inv Post s
  | Some (pcAfter, nextLoadReg, nextLoadValue) =>
      machine_wf s.1 /\ Post s.2 /\ is_i32 pcAfter /\ is_gpr nextLoadReg /\ is_i32 nextLoadValue
  end.

Lemma gpr_reg n : is_gpr n -> is_reg n.
Proof. apply gpr_is_reg. Qed.

Lemma gpr_may_set n v : is_gpr n -> is_i32 v -> may_set n v.
Proof. intros Hn Hv. apply may_set_other; [by apply gpr_is_reg | | done]. unfold is_gpr in Hn. regs. Qed.

Lemma wp_trap m k ex addr :
  machine_wf m -> Pre m k -> is_i32 addr -> (ex = SyscallException -> calls) ->
  wp E outcome_ok (trap setStatus ExceptionHandler ex addr) (m, k).
Proof.
  intros. apply wp_bind. eapply wp_mono; [by apply entry_inv | ].
  intros [] s Hs. by apply wp_ret.
Qed.

Lemma outcome_some m k pc r v :
  machine_wf m -> Post k -> is_i32 pc -> is_gpr r -> is_i32 v ->
  wp E outcome_ok (mret (Some (pc, r, v))) (m, k).
Proof. intros. by apply wp_ret. Qed.

Lemma outcome_plain m k pc :
  machine_wf m -> Post k -> is_i32 pc -> wp E outcome_ok (mret (Some (pc, 0, 0))) (m, k).
Proof. intros. apply outcome_some; [done.. | unfold is_gpr; regs | cint]. Qed.

Lemma wp_result m k pc r v :
  machine_wf m -> Post k -> is_i32 pc -> may_set r v ->
  wp E outcome_ok (result pc r v) (m, k).
Proof.
  intros Hwf Hk Hpc Hr. apply wp_bind. apply wp_setreg; [done | done | intros Hwf'].
  by apply outcome_plain.
Qed.

Lemma i32_const z : - 2 ^ 31 <= z < 2 ^ 31 -> is_i32 z.
Proof. done. Qed.

Lemma i32_if (b : bool) x y : is_i32 x -> is_i32 y -> is_i32 (if b then x else y).
Proof. by destruct b. Qed.

Lemma i32_land_const a c : 0 <= c < 2 ^ 31 -> is_i32 (Z.land a c).
Proof.
  intros Hc. destruct (Z.eq_dec c 0) as [-> | Hne]; [rewrite Z.land_0_r; cint | ].
  pose proof (Z.land_nonneg a c). pose proof (Z.log2_land a c) as Hl.
  unfold is_i32. destruct (Z.eq_dec (Z.land a c) 0) as [-> | H0]; [lia | ].
  assert (0 <= Z.land a c) by (apply Z.land_nonneg; lia). split; [lia | ].
  apply Z.lt_le_trans with (Z.succ c); [ | lia]. apply Z.lt_succ_r.
  rewrite <- (Z.lor_ldiff_and c a) at 2. rewrite (Z.land_comm a c).
  rewrite <- Z.lxor_lor, <- Z.add_nocarry_lxor.
  - assert (0 <= Z.ldiff c a) by (apply Z.ldiff_nonneg; lia). lia.
  - apply Z.bits_inj'. intros j Hj. rewrite !Z.land_spec, Z.ldiff_spec, Z.bits_0.
    destruct (Z.testbit c j), (Z.testbit a j); done.
  - apply Z.bits_inj'. intros j Hj. rewrite !Z.land_spec, Z.ldiff_spec, Z.bits_0.
    destruct (Z.testbit c j), (Z.testbit a j); done.
Qed.

#[local] Hint Resolve gpr_reg gpr_may_set instr_rs instr_rt instr_rd instr_extra : core.
#[local] Hint Resolve land_i32 lor_i32 lxor_i32 lnot_i32 shiftr_i32 to_i32_range : core.
#[local] Hint Extern 3 (is_i32 (Z.land _ _)) => apply i32_land_const; lia : core.
#[local] Hint Resolve i32_if : core.
#[local] Hint Extern 3 (is_i32 1) => cint : core.
#[local] Hint Extern 3 (is_i32 0) => cint : core.

(** Reads the operands of an instruction. *)
Ltac operand := apply wp_bind; apply wp_getreg; [done | by auto with nachos | intros ?].

Lemma wp_exec_add i pc m k :
  machine_wf m -> Pre m k -> is_i32 pc -> instr_wf i ->
  match opCode i with
  | OP_ADD | OP_ADDI | OP_ADDIU | OP_ADDU | OP_SUB | OP_SUBU => true | _ => false end = true ->
  wp E outcome_ok (exec_add setStatus ExceptionHandler i pc) (m, k).
Proof.
  intros Hwf Hk Hpc Hi Hop. pose proof (entry_post _ _ Hk) as Hp. unfold exec_add. do 2 operand.
  destruct (opCode i); try discriminate Hop; try apply wp_if; intros;
    (apply wp_trap || apply wp_result); auto; discriminate.
Qed.

Lemma wp_exec_logic i pc m k :
  machine_wf m -> Pre m k -> is_i32 pc -> instr_wf i ->
  match opCode i with
  | OP_AND | OP_ANDI | OP_NOR | OP_OR | OP_ORI | OP_XOR | OP_XORI | OP_LUI => true
  | _ => false end = true ->
  wp E outcome_ok (exec_logic i pc) (m, k).
Proof.
  intros Hwf Hk Hpc Hi Hop. pose proof (entry_post _ _ Hk) as Hp. unfold exec_logic. do 2 operand.
  destruct (opCode i); try discriminate Hop; apply wp_result; auto.
Qed.

Lemma wp_exec_shift i pc m k :
  machine_wf m -> Pre m k -> is_i32 pc -> instr_wf i ->
  match opCode i with
  | OP_SLL | OP_SLLV | OP_SRA | OP_SRAV | OP_SRL | OP_SRLV => true | _ => false end = true ->
  wp E outcome_ok (exec_shift i pc) (m, k).
Proof.
  intros Hwf Hk Hpc Hi Hop. pose proof (entry_post _ _ Hk) as Hp. unfold exec_shift. do 2 operand.
  pose proof (instr_shift _ Hi) as Hsh. pose proof (land_31 (reg m (rs i))).
  destruct (opCode i); try discriminate Hop; cbn [immediate_shift] in Hsh; apply wp_result; auto;
    apply gpr_may_set; auto; apply shiftr_i32; auto; lia.
Qed.

Lemma wp_exec_set i pc m k :
  machine_wf m -> Pre m k -> is_i32 pc -> instr_wf i ->
  match opCode i with OP_SLT | OP_SLTI | OP_SLTIU | OP_SLTU => true | _ => false end = true ->
  wp E outcome_ok (exec_set i pc) (m, k).
Proof.
  intros Hwf Hk Hpc Hi Hop. pose proof (entry_post _ _ Hk) as Hp. unfold exec_set. do 2 operand.
  destruct (opCode i); try discriminate Hop; apply wp_result; auto.
Qed.

Lemma wp_optional_link m k (link : bool) r v (Q : unit -> Machine * K -> Prop) :
  machine_wf m -> may_set r v ->
  (forall m', machine_wf m' -> Q tt (m', k)) ->
  wp E Q (if link then setreg r v else mret tt) (m, k).
Proof.
  intros Hwf Hr HQ. destruct link; [ | by apply wp_ret, HQ].
  apply wp_setreg; [done | done | ]. intros. by apply HQ.
Qed.

Lemma wp_exec_branch i pc m k :
  machine_wf m -> Pre m k -> is_i32 pc -> instr_wf i ->
  match opCode i with
  | OP_BEQ | OP_BGEZ | OP_BGEZAL | OP_BGTZ | OP_BLEZ | OP_BLTZ | OP_BLTZAL | OP_BNE => true
  | _ => false end = true ->
  wp E outcome_ok (exec_branch i pc) (m, k).
Proof.
  intros Hwf Hk Hpc Hi Hop. pose proof (entry_post _ _ Hk) as Hp. unfold exec_branch. operand. apply wp_bind.
  set (link := match opCode i with OP_BGEZAL | OP_BLTZAL => true | _ => false end).
  assert (Hl : wp E (fun _ s => machine_wf s.1 /\ s.2 = k)
    (if link then setreg R31 (to_i32 (reg m NextPCReg + 4)) else mret tt) (m, k)).
  { apply wp_optional_link; [done | | done]. apply gpr_may_set; [ | auto]. unfold is_gpr, R31; regs. }
  apply wp_mono with (fun _ s => machine_wf s.1 /\ s.2 = k);
    [ | intros [] [m' k'] [Hwf' Heq]; simpl in Hwf', Heq; subst k'].
  { subst link. destruct (opCode i); exact Hl. }
  do 3 operand. apply wp_bind. destruct (opCode i); try discriminate Hop; apply wp_ret;
    apply outcome_plain; auto.
Qed.

Lemma wp_exec_jump i pc m k :
  machine_wf m -> Pre m k -> is_i32 pc -> instr_wf i ->
  match opCode i with OP_J | OP_JAL | OP_JALR | OP_JR => true | _ => false end = true ->
  wp E outcome_ok (exec_jump i pc) (m, k).
Proof.
  intros Hwf Hk Hpc Hi Hop. pose proof (entry_post _ _ Hk) as Hp. unfold exec_jump. operand. apply wp_bind.
  assert (Hset : forall r, is_gpr r -> wp E (fun _ s => machine_wf s.1 /\ s.2 = k)
    (setreg r (to_i32 (reg m NextPCReg + 4))) (m, k)).
  { intros r Hr. apply wp_setreg; [done | by auto | done]. }
  assert (is_gpr R31) by (unfold is_gpr, R31; regs).
  apply wp_mono with (fun _ s => machine_wf s.1 /\ s.2 = k);
    [ | intros [] [m' k'] [Hwf' Heq]; simpl in Hwf', Heq; subst k'].
  { destruct (opCode i); first [by apply wp_ret | apply Hset; auto]. }
  destruct (opCode i); try discriminate Hop; try operand; apply outcome_plain; auto.
Qed.

(** The one instruction the host cannot carry out: [INT_MIN / -1]. *)
Definition div_traps (i : Instruction) (m : Machine) : Prop :=
  opCode i = OP_DIV /\ reg m (rs i) = - 2 ^ 31 /\ reg m (rt i) = -1.

Definition host_fault (i : Instruction) (m : Machine) (f : fault) : Prop :=
  E f \/ f = Undefined /\ div_traps i m.

Lemma quot_i32 a b : is_i32 a -> is_i32 b -> b <> 0 -> (a = - 2 ^ 31 -> b <> -1) ->
  is_i32 (Z.quot a b) /\ is_i32 (Z.rem a b).
Proof.
  intros Ha Hb Hb0 Htr. pose proof (Z.quot_rem' a b) as Hqr.
  pose proof (Z.rem_bound_abs a b Hb0) as Hr. unfold is_i32 in *.
  assert (Habs : Z.abs (Z.quot a b) = Z.quot (Z.abs a) (Z.abs b)) by (by rewrite Z.quot_abs).
  rewrite (Z.quot_div_nonneg (Z.abs a) (Z.abs b)) in Habs by lia.
  assert (Z.abs a / Z.abs b <= Z.abs a) by (apply Z.div_le_upper_bound; nia).
  assert (Hlt : Z.abs b <> 1 -> Z.abs a / Z.abs b <= 2 ^ 30).
  { intros. apply Z.div_le_upper_bound; [lia | ]. change (2 ^ 31) with (2 * 2 ^ 30) in *. nia. }
  split; [ | lia]. destruct (Z.eq_dec (Z.abs b) 1) as [H1 | H1].
  - assert (b = 1 \/ b = -1) as [-> | ->] by lia; [rewrite Z.quot_1_r; lia | ].
    assert (Z.quot a (-1) = - a) as ->; [ | lia].
    change (-1) with (- (1)). rewrite Z.quot_opp_r by lia. by rewrite Z.quot_1_r.
  - specialize (Hlt H1). change (2 ^ 31) with (2 * 2 ^ 30) in *. lia.
Qed.

Lemma Mult_i32 a b sgn : is_i32 (Mult a b sgn).1 /\ is_i32 (Mult a b sgn).2.
Proof.
  unfold Mult. destruct ((a =? 0) || (b =? 0)); [split; simpl; cint | ].
  destruct (mult_loop _ _ _ _ _ _) as [lo hi]. destruct (xorb _ _); simpl; auto.
Qed.

Lemma wp_exec_muldiv i pc m k :
  machine_wf m -> Pre m k -> is_i32 pc -> instr_wf i ->
  match opCode i with OP_DIV | OP_DIVU | OP_MULT | OP_MULTU => true | _ => false end = true ->
  wp (host_fault i m) outcome_ok (exec_muldiv i pc) (m, k).
Proof.
  intros Hwf Hk Hpc Hi Hop. pose proof (entry_post _ _ Hk) as Hp. unfold exec_muldiv.
  set (a := reg m (rs i)). set (b := reg m (rt i)).
  assert (Ha : is_i32 a) by (apply reg_i32; auto).
  assert (Hb : is_i32 b) by (apply reg_i32; auto).
  do 2 (apply wp_bind; eapply wp_ok; [by apply getreg_ok; auto | ]). fold a b.
  apply wp_bind. apply wp_mono with (fun hl s => is_i32 hl.1 /\ is_i32 hl.2 /\ s = (m, k)).
  - pose proof (Mult_i32 a b true). pose proof (Mult_i32 a b false).
    destruct (opCode i) eqn:Eop; try discriminate Hop; unfold wp, lift.
    + destruct (Z.eqb_spec b 0); [done | ].
      destruct (Z.eqb_spec a (- 2 ^ 31)), (Z.eqb_spec b (-1)); simpl;
        try (destruct (quot_i32 a b); [done.. | split_and!; done]).
      right. done.
    + destruct (Z.eqb_spec (to_u32 b) 0); simpl; auto.
    + simpl. tauto.
    + simpl. tauto.
  - intros [hi lo] s (Hhi & Hlo & ->). simpl in *. apply (wp_weaken E); [by left | ].
    apply wp_bind. apply wp_setreg; [done | apply may_set_other; [regs | regs | done] | intros Hwf1].
    apply wp_bind. apply wp_setreg; [done | apply may_set_other; [regs | regs | done] | intros Hwf2].
    by apply outcome_plain.
Qed.

Lemma wp_exec_hilo i pc m k :
  machine_wf m -> Pre m k -> is_i32 pc -> instr_wf i ->
  match opCode i with OP_MFHI | OP_MFLO | OP_MTHI | OP_MTLO => true | _ => false end = true ->
  wp E outcome_ok (exec_hilo i pc) (m, k).
Proof.
  intros Hwf Hk Hpc Hi Hop. pose proof (entry_post _ _ Hk) as Hp. unfold exec_hilo.
  destruct (opCode i); try discriminate Hop; operand; apply wp_result; auto;
    apply may_set_other; auto with nachos; regs.
Qed.

Lemma wp_exec_load i pc m k :
  machine_wf m -> Pre m k -> is_i32 pc -> instr_wf i ->
  match opCode i with OP_LB | OP_LBU | OP_LH | OP_LHU | OP_LW => true | _ => false end = true ->
  wp E outcome_ok (exec_load setStatus ExceptionHandler i pc) (m, k).
Proof.
  intros Hwf Hk Hpc Hi Hop. pose proof (entry_post _ _ Hk) as Hp. unfold exec_load. operand.
  assert (Hread : forall size (f : Z -> Z), is_size size ->
    (forall v, is_i32 v -> is_i32 (f v)) ->
    wp E outcome_ok (v ← ReadMem setStatus ExceptionHandler (to_i32 (reg m (rs i) + extra i)) size;
      match v with None => mret None | Some value => mret (Some (pc, rt i, f value)) end) (m, k)).
  { intros size f Hs Hf. apply wp_bind. apply wp_ReadMem with (calls := calls) (Pre := Pre) (Post := Post); auto.
    intros v m' Hv Hwf' _ _. apply outcome_some; auto. }
  assert (H1 : is_size 1) by (unfold is_size; lia). assert (H2 : is_size 2) by (unfold is_size; lia).
  assert (H4 : is_size 4) by (unfold is_size; lia).
  destruct (opCode i); try discriminate Hop; try (apply wp_if; intros _; [by apply wp_trap; [ | | | discriminate] | ]).
  - apply (Hread 1 (fun value => if negb (Z.land value 128 =? 0) && bool_decide (OP_LB = OP_LB)
      then to_i32 (Z.lor (to_u32 value) 4294967040) else Z.land value 255)); [done | ].
    auto.
  - apply (Hread 1 (fun value => if negb (Z.land value 128 =? 0) && bool_decide (OP_LBU = OP_LB)
      then to_i32 (Z.lor (to_u32 value) 4294967040) else Z.land value 255)); [done | ].
    auto.
  - apply (Hread 2 (fun value => if negb (Z.land value 32768 =? 0) && bool_decide (OP_LH = OP_LH)
      then to_i32 (Z.lor (to_u32 value) 4294901760) else Z.land value 65535)); [done | ].
    auto.
  - apply (Hread 2 (fun value => if negb (Z.land value 32768 =? 0) && bool_decide (OP_LHU = OP_LH)
      then to_i32 (Z.lor (to_u32 value) 4294901760) else Z.land value 65535)); [done | ].
    auto.
  - by apply (Hread 4 (fun value => value)).
Qed.

Lemma lwl_merge_i32 n old v : is_i32 v -> is_i32 (lwl_merge n old v).
Proof. intros Hv. unfold lwl_merge. repeat apply i32_if; auto. Qed.

Lemma lwr_merge_i32 n old v : is_i32 v -> is_i32 (lwr_merge n old v).
Proof. intros Hv. unfold lwr_merge. auto. Qed.

(** The aligned address LWL and the others read. *)
Lemma aligned_i32 tmp : is_i32 tmp -> is_i32 (tmp - Z.land tmp 3).
Proof. intros. rewrite land_3. cint. Qed.

Lemma wp_exec_unaligned_load i pc m k :
  machine_wf m -> Pre m k -> is_i32 pc -> instr_wf i ->
  match opCode i with OP_LWL | OP_LWR => true | _ => false end = true ->
  wp E outcome_ok (exec_unaligned_load setStatus ExceptionHandler i pc) (m, k).
Proof.
  intros Hwf Hk Hpc Hi Hop. pose proof (entry_post _ _ Hk) as Hp. unfold exec_unaligned_load. operand.
  apply wp_bind. apply wp_ReadMem with (calls := calls) (Pre := Pre) (Post := Post); auto using aligned_i32.
  { unfold is_size. lia. }
  intros v m' Hv Hwf' _ _. operand. apply wp_bind.
  apply wp_mono with (fun _ s => s = (m', k)).
  - apply wp_if; intros _; apply wp_getreg; auto with nachos.
  - intros old s ->. destruct (opCode i); try discriminate Hop;
      apply outcome_some; auto using lwl_merge_i32, lwr_merge_i32.
Qed.

Lemma wp_write_outcome m k pc addr size v :
  machine_wf m -> Pre m k -> is_i32 pc -> is_size size -> is_i32 addr ->
  wp E (fun ok s => wp E outcome_ok (mret (if ok : bool then Some (pc, 0, 0) else None)) s)
    (WriteMem setStatus ExceptionHandler addr size v) (m, k).
Proof.
  intros ? Hk. intros. apply wp_WriteMem with (calls := calls) (Pre := Pre) (Post := Post); auto. intros m' Hwf' _.
  apply outcome_plain; [done | by eapply entry_post | done].
Qed.

Lemma wp_exec_store i pc m k :
  machine_wf m -> Pre m k -> is_i32 pc -> instr_wf i ->
  match opCode i with OP_SB | OP_SH | OP_SW => true | _ => false end = true ->
  wp E outcome_ok (exec_store setStatus ExceptionHandler i pc) (m, k).
Proof.
  intros Hwf Hk Hpc Hi Hop. pose proof (entry_post _ _ Hk) as Hp. unfold exec_store. do 2 operand. apply wp_bind.
  destruct (opCode i); try discriminate Hop; apply wp_write_outcome; auto; unfold is_size; lia.
Qed.

Lemma wp_exec_unaligned_store i pc m k :
  machine_wf m -> Pre m k -> is_i32 pc -> instr_wf i ->
  match opCode i with OP_SWL | OP_SWR => true | _ => false end = true ->
  wp E outcome_ok (exec_unaligned_store setStatus ExceptionHandler i pc) (m, k).
Proof.
  intros Hwf Hk Hpc Hi Hop. pose proof (entry_post _ _ Hk) as Hp. unfold exec_unaligned_store. operand.
  assert (Hs : is_size 4) by (unfold is_size; lia).
  apply wp_bind. apply wp_ReadMem with (calls := calls) (Pre := Pre) (Post := Post); auto using aligned_i32.
  intros v m' Hv Hwf' Hr' _. pose proof (entry_regs _ _ _ Hk Hr'). operand. apply wp_bind.
  destruct (opCode i); try discriminate Hop; apply wp_ret; apply wp_bind;
    apply wp_write_outcome; auto using aligned_i32.
Qed.

Lemma wp_execute i pc m k :
  machine_wf m -> Pre m k -> is_i32 pc -> instr_wf i -> (opCode i = OP_SYSCALL -> calls) ->
  wp (host_fault i m) outcome_ok (execute setStatus ExceptionHandler i pc) (m, k).
Proof.
  intros Hwf Hk Hpc Hi Hcall. pose proof (instr_op _ Hi) as Hop. unfold execute.
  destruct (opCode i) eqn:Eop; try discriminate Hop;
    try (apply wp_exec_muldiv; auto; by rewrite Eop);
    (apply (wp_weaken E); [by left | ]); try (apply wp_trap; auto; discriminate);
    first [apply wp_exec_add | apply wp_exec_logic | apply wp_exec_shift | apply wp_exec_set
      | apply wp_exec_branch | apply wp_exec_jump | apply wp_exec_hilo | apply wp_exec_load
      | apply wp_exec_unaligned_load | apply wp_exec_store | apply wp_exec_unaligned_store];
    auto; by rewrite Eop.
Qed.

(** The end of [OneInstruction]. *)
Definition commit (pcAfter nextLoadReg nextLoadValue : Z) : stM (Machine * K) unit :=
  DelayedLoad nextLoadReg nextLoadValue;;
  pc ← getreg PCReg;
  setreg PrevPCReg pc;;
  next ← getreg NextPCReg;
  setreg PCReg next;;
  setreg NextPCReg pcAfter.

Definition committed (m : Machine) (pcAfter nextLoadReg nextLoadValue : Z) : Machine :=
  let m1 := delayed m nextLoadReg nextLoadValue in
  upd (upd (upd m1 PrevPCReg (reg m1 PCReg)) PCReg (reg m1 NextPCReg)) NextPCReg pcAfter.

Lemma delayed_special m r v n :
  machine_wf m -> 0 <= r < NumGPRegs -> is_i32 v -> PCReg <= n <= NextPCReg ->
  reg (delayed m r v) n = reg m n.
Proof.
  intros Hwf Hr Hv Hn. pose proof (reg_load m Hwf). unfold delayed.
  by rewrite !reg_upd_ne by regs.
Qed.

Lemma commit_ok m k pc r v :
  machine_wf m -> is_i32 pc -> is_gpr r -> is_i32 v ->
  commit pc r v (m, k) = Ok (tt, (committed m pc r v, k)) /\ machine_wf (committed m pc r v) /\
  reg (committed m pc r v) 0 = 0 /\ reg (committed m pc r v) PCReg = reg m NextPCReg /\
  reg (committed m pc r v) NextPCReg = pc /\ reg (committed m pc r v) LoadReg = r.
Proof.
  intros Hwf Hpc Hr Hv. destruct (DelayedLoad_ok m k r v Hwf Hr Hv) as (Ed & Hwf1 & H0).
  unfold commit, mbind, stM_bind. rewrite Ed. set (m1 := delayed m r v) in *.
  assert (Hs : forall x n y, machine_wf x -> PCReg <= n <= PrevPCReg -> is_i32 y ->
    machine_wf (upd x n y)).
  { intros. apply upd_wf; [done | ]. apply may_set_other; [regs | regs | done]. }
  assert (Hwf2 : machine_wf (upd m1 PrevPCReg (reg m1 PCReg))).
  { apply Hs; [done | regs | apply reg_i32; auto with nachos]. }
  assert (Hwf3 : machine_wf (upd (upd m1 PrevPCReg (reg m1 PCReg)) PCReg (reg m1 NextPCReg))).
  { apply Hs; [done | regs | apply reg_i32; auto with nachos]. }
  rewrite (getreg_ok m1) by auto with nachos. rewrite (setreg_ok m1) by auto with nachos.
  rewrite (getreg_ok _ _ NextPCReg) by auto with nachos.
  rewrite (reg_upd_ne m1 PrevPCReg NextPCReg) by regs.
  rewrite !setreg_ok by auto with nachos. fold m1. unfold committed. cbv zeta. fold m1.
  split_and!; [done | apply Hs; [done | regs | done] | .. ].
  - by rewrite !reg_upd_ne by regs.
  - rewrite reg_upd_ne by regs. rewrite reg_upd_eq by auto with nachos.
    apply delayed_special; auto; regs.
  - apply reg_upd_eq; auto with nachos.
  - rewrite !reg_upd_ne by regs. unfold m1, delayed.
    destruct (delayed_steps m r v Hwf Hr Hv) as (H1 & _). rewrite !reg_upd_ne by regs.
    apply reg_upd_eq; auto with nachos.
Qed.

(** Every register after the commit. *)
Lemma committed_regs m pc r v n :
  machine_wf m -> is_gpr r -> is_i32 v -> is_gpr n -> n <> 0 ->
  reg (committed m pc r v) PrevPCReg = reg m PCReg /\
  reg (committed m pc r v) LoadValueReg = v /\
  reg (committed m pc r v) n = if decide (n = reg m LoadReg) then reg m LoadValueReg else reg m n.
Proof.
  intros Hwf Hr Hv Hn H0. destruct (delayed_steps m r v Hwf Hr Hv) as (H1 & H2 & H3 & H4).
  pose proof (reg_load m Hwf) as Hl. unfold is_gpr in *.
  unfold committed. cbv zeta. split_and!.
  - rewrite !reg_upd_ne by regs. rewrite reg_upd_eq by auto with nachos. apply delayed_special; auto; regs.
  - rewrite !reg_upd_ne by regs. unfold delayed. rewrite reg_upd_ne by regs. apply reg_upd_eq; auto with nachos.
  - rewrite !(reg_upd_ne _ _ n) by regs. unfold delayed. rewrite !(reg_upd_ne _ _ n) by regs.
    case_decide as Hd; [subst n; apply reg_upd_eq; [done | by apply gpr_is_reg] | by apply reg_upd_ne; regs].
Qed.

(** [OneInstruction] with its commit named. *)
Lemma OneInstruction_commit (s : Machine * K) :
  OneInstruction setStatus ExceptionHandler s =
  (pc ← getreg PCReg;
   raw ← ReadMem setStatus ExceptionHandler pc 4;
   match raw with
   | None => mret tt
   | Some raw =>
       instr ← lift (Decode (to_u32 raw));
       next ← getreg NextPCReg;
       out ← execute setStatus ExceptionHandler instr (to_i32 (next + 4));
       match out with None => mret tt | Some (pcAfter, r, v) => commit pcAfter r v end
   end) s.
Proof. done. Qed.

(** The instruction that is about to run is the division the host traps on. *)
Definition fetches_div_trap (m : Machine) (k : K) : Prop :=
  exists raw m1 i,
    ReadMem setStatus ExceptionHandler (reg m PCReg) 4 (m, k) = Ok (Some raw, (m1, k)) /\
    Decode (to_u32 raw) = Ok i /\ div_traps i m1.

(** The instruction that is about to run is a system call. *)
Definition fetches_syscall (m : Machine) (k : K) : Prop :=
  exists raw m1 i,
    ReadMem setStatus ExceptionHandler (reg m PCReg) 4 (m, k) = Ok (Some raw, (m1, k)) /\
    Decode (to_u32 raw) = Ok i /\ opCode i = OP_SYSCALL.

Lemma OneInstruction_entry m k :
  machine_wf m -> Pre m k -> (fetches_syscall m k -> calls) ->
  wp (fun f => E f \/ f = Undefined /\ fetches_div_trap m k) (fun _ s => user_inv Post s)
    (OneInstruction setStatus ExceptionHandler) (m, k).
Proof.
  intros Hwf Hk Hcall. unfold wp. rewrite OneInstruction_commit.
  match goal with |- match ?x (m, k) with _ => _ end =>
    change (wp (fun f => E f \/ f = Undefined /\ fetches_div_trap m k)
      (fun _ s => user_inv Post s) x (m, k)) end.
  apply wp_bind. eapply wp_ok; [by apply getreg_ok; auto with nachos | ].
  set (F := fun f => E f \/ f = Undefined /\ fetches_div_trap m k).
  apply wp_bind. apply (wp_weaken E); [by left | ].
  apply wp_ReadMem with (calls := calls) (Pre := Pre) (Post := Post);
    [done | done | done | unfold is_size; lia | apply reg_i32; auto with nachos | by intros | ].
  intros raw m1 Hraw Hwf1 Hr1 Hfetch. pose proof (entry_regs _ _ _ Hk Hr1) as Hk1.
  destruct (Decode_ok (to_u32 raw)) as (i & Ei & Hi).
  apply wp_bind. eapply wp_lift; [exact Ei | ].
  apply wp_bind. eapply wp_ok; [by apply getreg_ok; auto with nachos | ].
  apply wp_bind. pose proof (wp_execute i (to_i32 (reg m1 NextPCReg + 4)) m1 k Hwf1 Hk1) as Hx.
  specialize (Hx (to_i32_range _) Hi (fun Hop => Hcall (ex_intro _ raw (ex_intro _ m1 (ex_intro _ i (conj Hfetch (conj Ei Hop))))))).
  unfold wp in Hx |- *.
  destruct (execute _ _ _ _ _) as [[out [m2 k2]] | f].
  - destruct out as [[[pc r] v] | ]; [ | done]. destruct Hx as (Hwf2 & Hk2 & Hpc & Hr & Hv).
    destruct (commit_ok m2 k2 pc r v Hwf2 Hpc Hr Hv) as (-> & Hwf3 & H0 & _). by split_and!.
  - destruct Hx as [? | [-> Hd]]; [by left | ]. right. split; [done | ]. by exists raw, m1, i.
Qed.

(** ** Arithmetic *)

(** What the instruction should put in its destination, given the operands
    and the immediate: [None] is an overflow trap. *)
Definition arith_spec (op : OpCode) (a b imm : Z) : option Z :=
  let checked z := if bool_decide (is_i32 z) then Some z else None in
  match op with
  | OP_ADD => checked (a + b)
  | OP_ADDI => checked (a + imm)
  | OP_SUB => checked (a - b)
  | OP_ADDU => Some (to_i32 (a + b))
  | OP_ADDIU => Some (to_i32 (a + imm))
  | _ => Some (to_i32 (a - b))
  end.

Definition arith_dest (i : Instruction) : Z :=
  match opCode i with OP_ADDI | OP_ADDIU => rt i | _ => rd i end.

(** C37: ADD, ADDI and SUB trap with OverflowException exactly when the
    mathematical result does not fit a 32-bit int, and otherwise deliver that
    result; ADDU, ADDIU and SUBU never trap and deliver it modulo 2^32. *)
Theorem arithmetic_correct i pc m k :
  machine_wf m -> instr_wf i ->
  match opCode i with
  | OP_ADD | OP_ADDI | OP_ADDIU | OP_ADDU | OP_SUB | OP_SUBU => true | _ => false end = true ->
  exec_add setStatus ExceptionHandler i pc (m, k) =
  match arith_spec (opCode i) (reg m (rs i)) (reg m (rt i)) (extra i) with
  | Some v => Ok (Some (pc, 0, 0), (upd m (arith_dest i) v, k))
  | None => trap setStatus ExceptionHandler OverflowException 0 (m, k)
  end.
Proof.
  intros Hwf Hi Hop. unfold exec_add, mbind, stM_bind, result, arith_spec, arith_dest.
  rewrite !getreg_ok by auto.
  assert (Ha : is_i32 (reg m (rs i))) by (apply reg_i32; auto).
  assert (Hb : is_i32 (reg m (rt i))) by (apply reg_i32; auto).
  assert (Hset : forall r v, is_gpr r ->
    (setreg r v;; mret (Some (pc, 0, 0))) (m, k) = Ok (Some (pc, 0, 0), (upd m r v, k))).
  { intros r v Hr. unfold mbind, stM_bind. by rewrite setreg_ok by auto. }
  destruct (opCode i); try discriminate Hop;
    rewrite ?add_overflow_spec, ?sub_overflow_spec by auto;
    try case_bool_decide; simpl; try done; rewrite ?to_i32_id by done; apply Hset; auto.
Qed.

(** SRL and SRLV shift the sign bit in: the register is copied into a
    signed int before the shift, so on a negative operand and a shift count
    other than 0 the result is negative, where the logical shift of the R2000
    is not. *)
Theorem srl_is_arithmetic i pc m k :
  machine_wf m -> instr_wf i -> opCode i = OP_SRL -> reg m (rt i) < 0 -> 0 < extra i ->
  exists v, exec_shift i pc (m, k) = Ok (Some (pc, 0, 0), (upd m (rd i) v, k)) /\
    v = Z.shiftr (reg m (rt i)) (extra i) /\ v < 0 /\
    v <> to_i32 (Z.shiftr (to_u32 (reg m (rt i))) (extra i)).
Proof.
  intros Hwf Hi Hop Hneg Hsh. exists (Z.shiftr (reg m (rt i)) (extra i)).
  pose proof (instr_shift _ Hi) as Hx. rewrite Hop in Hx. specialize (Hx eq_refl).
  assert (Hb : is_i32 (reg m (rt i))) by (apply reg_i32; auto).
  assert (Hlt : Z.shiftr (reg m (rt i)) (extra i) < 0) by (by apply Z.shiftr_neg).
  split_and!; [ | done | done | ].
  - unfold exec_shift, mbind, stM_bind. rewrite !getreg_ok, Hop by auto. unfold result, mbind, stM_bind.
    by rewrite setreg_ok by auto.
  - assert (Hu : 0 <= Z.shiftr (to_u32 (reg m (rt i))) (extra i) < 2 ^ 31); [ | rewrite to_i32_id; [lia | unfold is_i32; lia]].
    rewrite Z.shiftr_div_pow2 by lia. pose proof (to_u32_range (reg m (rt i))) as Hr.
    pose proof (Z.pow_le_mono_r 2 1 (extra i) ltac:(lia) ltac:(lia)). change (2 ^ 1) with 2 in *.
    unfold is_u32 in Hr. split; [apply Z.div_pos; lia | ].
    apply Z.div_lt_upper_bound; [lia | ]. change (2 ^ 32) with (2 * 2 ^ 31) in Hr. nia.
Qed.

End Safety.

(** ** Safety of one instruction against a handler that keeps an invariant *)

Section Traps.
Context {K : Type} (setStatus : MachineStatus -> K -> K).
Context (ExceptionHandler : ExceptionType -> stM (Machine * K) unit).
Context (E : fault -> Prop) (Kinv : K -> Prop).
Context `{!TrapHandler setStatus ExceptionHandler E Kinv}.
Implicit Types (m : Machine) (k : K) (i : Instruction).
Notation fetches_div_trap := (fetches_div_trap setStatus ExceptionHandler).

Lemma OneInstruction_inv m k :
  user_inv Kinv (m, k) ->
  wp (fun f => E f \/ f = Undefined /\ fetches_div_trap m k) (fun _ s => user_inv Kinv s)
    (OneInstruction setStatus ExceptionHandler) (m, k).
Proof. intros (Hwf & _ & Hk). by apply (OneInstruction_entry setStatus ExceptionHandler E True (fun _ => Kinv) Kinv). Qed.

(** C7: One instruction, whatever its encoding, run on a well-formed machine
    against any kernel that keeps the trap interface, ends in a well-formed
    machine with register 0 zero: no array is indexed out of range, no
    ASSERT of the simulator fires, every register still holds an int, and a
    pending load always targets a general register.  The only fault of the
    simulator's own is the signed division of the most negative int by -1. *)
Theorem one_instruction_safe m k :
  user_inv Kinv (m, k) ->
  wp (fun f => E f \/ f = Undefined /\ fetches_div_trap m k) (fun _ s => user_inv Kinv s)
    (OneInstruction setStatus ExceptionHandler) (m, k).
Proof. apply OneInstruction_inv. Qed.

(** C38: Delay slots: when the fetched instruction [i] runs to the end of the
    switch with the values [pcAfter], [r] and [v], the whole instruction
    succeeds; the next instruction executed is the one after it (the branch
    delay slot), the one after that is at [pcAfter]; the previous
    instruction's pending load takes effect now, and this one's load, of the
    value [v] into [r], stays pending; register 0 reads zero, every other
    general register and the memory are as the switch left them, and PrevPC
    is where the instruction was. *)
Theorem delay_slots m k raw m1 i pcAfter r v m2 k2 :
  user_inv Kinv (m, k) ->
  ReadMem setStatus ExceptionHandler (reg m PCReg) 4 (m, k) = Ok (Some raw, (m1, k)) ->
  Decode (to_u32 raw) = Ok i ->
  execute setStatus ExceptionHandler i (to_i32 (reg m1 NextPCReg + 4)) (m1, k) =
    Ok (Some (pcAfter, r, v), (m2, k2)) ->
  exists m', OneInstruction setStatus ExceptionHandler (m, k) = Ok (tt, (m', k2)) /\
    reg m' PCReg = reg m2 NextPCReg /\ reg m' NextPCReg = pcAfter /\ reg m' 0 = 0 /\
    reg m' PrevPCReg = reg m2 PCReg /\ mainMemory m' = mainMemory m2 /\
    reg m' LoadReg = r /\ reg m' LoadValueReg = v /\
    forall n, 0 < n < NumGPRegs ->
      reg m' n = if decide (n = reg m2 LoadReg) then reg m2 LoadValueReg else reg m2 n.
Proof.
  intros (Hwf & _ & Hk) Hf Hd Hx. simpl in Hwf, Hk.
  pose proof (wp_ReadMem setStatus ExceptionHandler E True (fun _ => Kinv) Kinv
    (fun o s => match o with Some _ => machine_wf s.1 | None => True end) m k (reg m PCReg) 4 Hwf Hk) as Hr.
  unfold wp in Hr. rewrite Hf in Hr. assert (Hwf1 : machine_wf m1).
  { apply Hr; [unfold is_size; lia | apply reg_i32; auto with nachos | done | done]. }
  pose proof (wp_execute setStatus ExceptionHandler E True (fun _ => Kinv) Kinv i (to_i32 (reg m1 NextPCReg + 4)) m1 k Hwf1 Hk (to_i32_range _)) as Hw.
  destruct (Decode_ok (to_u32 raw)) as (i' & Ei & Hi). rewrite Hd in Ei. injection Ei as <-.
  specialize (Hw Hi (fun _ => I)). unfold wp in Hw. rewrite Hx in Hw.
  destruct Hw as (Hwf2 & Hk2 & Hpc & Hgr & Hv). simpl in Hwf2, Hk2.
  destruct (commit_ok m2 k2 pcAfter r v Hwf2 Hpc Hgr Hv) as (Ec & Hwf3 & H0 & H1 & H2 & H3).
  exists (committed m2 pcAfter r v). split_and!; try done.
  - rewrite OneInstruction_commit. unfold mbind, stM_bind.
    rewrite getreg_ok by auto with nachos. rewrite Hf. unfold lift. rewrite Hd.
    rewrite getreg_ok by auto with nachos. by rewrite Hx.
  - apply (committed_regs m2 pcAfter r v 1); [done.. | unfold is_gpr; regs | done].
  - apply (committed_regs m2 pcAfter r v 1); [done.. | unfold is_gpr; regs | done].
  - intros n Hn. apply (committed_regs m2 pcAfter r v n); [done.. | unfold is_gpr; lia | lia].
Qed.

End Traps.

(** ** Witnesses: a kernel that ignores traps, and the zeroed machine *)

Definition ignore_status (st : MachineStatus) (k : unit) : unit := k.
Definition ignore_trap (ex : ExceptionType) : stM (Machine * unit) unit := mret tt.

#[global] Instance ignore_handler : TrapHandler ignore_status ignore_trap no_fault (fun _ => True).
Proof. split; [done | ]. intros. by apply wp_ret. Qed.

Lemma example_user_inv : user_inv (fun _ : unit => True) (example_machine, tt).
Proof. split_and!; [apply example_machine_wf | reflexivity | exact I]. Qed.

Lemma example_step_ok :
  is_ok (OneInstruction ignore_status ignore_trap (example_machine, tt)) = true.
Proof. vm_compute. reflexivity. Qed.

Lemma one_instruction_safe_witness :
  exists (u : unit) s,
    OneInstruction ignore_status ignore_trap (example_machine, tt) = Ok (u, s) /\
    user_inv (fun _ => True) s.
Proof.
  exact (wp_is_ok _ _ _ _ example_step_ok
    (one_instruction_safe ignore_status ignore_trap no_fault (fun _ => True)
      example_machine tt example_user_inv)).
Defined.

(** The machine after the fetch of its first instruction, [SLL r0,r0,0], and
    after that instruction. *)
Definition example_fetched : Machine :=
  match ReadMem ignore_status ignore_trap 0 4 (example_machine, tt) with
  | Ok (_, (m, _)) => m | Fail _ => example_machine end.
Definition example_nop : Instruction := mkInstr 0 OP_SLL 0 0 0 0.
Definition example_executed : Machine :=
  match execute ignore_status ignore_trap example_nop (to_i32 (reg example_fetched NextPCReg + 4))
    (example_fetched, tt) with
  | Ok (_, (m, _)) => m | Fail _ => example_machine end.

Lemma example_fetch :
  ReadMem ignore_status ignore_trap (reg example_machine PCReg) 4 (example_machine, tt) =
  Ok (Some 0, (example_fetched, tt)).
Proof. vm_compute. reflexivity. Qed.

Lemma example_execute :
  execute ignore_status ignore_trap example_nop (to_i32 (reg example_fetched NextPCReg + 4))
    (example_fetched, tt) = Ok (Some (4, 0, 0), (example_executed, tt)).
Proof. vm_compute. reflexivity. Qed.

Lemma delay_slots_witness :
  exists m', OneInstruction ignore_status ignore_trap (example_machine, tt) = Ok (tt, (m', tt)) /\
    reg m' NextPCReg = 4 /\ reg m' LoadValueReg = 0.
Proof.
  destruct (delay_slots ignore_status ignore_trap no_fault (fun _ => True) example_machine tt
    0 example_fetched example_nop 4 0 0 example_executed tt example_user_inv example_fetch eq_refl
    example_execute) as (m' & E & _ & Hn & _ & _ & _ & _ & Hv & _).
  exists m'. split_and!; [exact E | exact Hn | exact Hv].
Defined.

Lemma upd_example_wf n v : is_gpr n -> is_i32 v -> machine_wf (upd example_machine n v).
Proof. intros. apply upd_wf; [apply example_machine_wf | by apply gpr_may_set]. Qed.

Lemma arithmetic_correct_witness :
  exec_add ignore_status ignore_trap (mkInstr 0 OP_ADD 1 1 3 0) 8
    (upd example_machine 1 (2 ^ 31 - 1), tt) =
  trap ignore_status ignore_trap OverflowException 0 (upd example_machine 1 (2 ^ 31 - 1), tt).
Proof.
  refine (arithmetic_correct ignore_status ignore_trap (mkInstr 0 OP_ADD 1 1 3 0) 8
    (upd example_machine 1 (2 ^ 31 - 1)) tt _ _ eq_refl).
  - apply upd_example_wf; [unfold is_gpr; regs | cint].
  - split; simpl; [unfold is_gpr; regs.. | cint | reflexivity | discriminate].
Defined.

Lemma srl_is_arithmetic_witness :
  exists v, exec_shift (K := unit) (mkInstr 0 OP_SRL 0 2 3 1) 8 (upd example_machine 2 (-8), tt) =
    Ok (Some (8, 0, 0), (upd (upd example_machine 2 (-8)) 3 v, tt)) /\ v < 0.
Proof.
  assert (Hr : reg (upd example_machine 2 (-8)) 2 = -8)
    by (apply reg_upd_eq; [apply example_machine_wf | regs]).
  destruct (srl_is_arithmetic (mkInstr 0 OP_SRL 0 2 3 1) 8 (upd example_machine 2 (-8)) tt)
    as (v & Hv & _ & Hneg & _).
  - apply upd_example_wf; [unfold is_gpr; regs | cint].
  - split; simpl; [unfold is_gpr; regs.. | cint | reflexivity | intros _; lia].
  - reflexivity.
  - cbn [rt]. rewrite Hr. lia.
  - cbn [extra]. lia.
  - exists v. split; [exact Hv | exact Hneg].
Defined.
