(* ===== verification/Unaligned.v ===== *)
(** * Words at any address (machine/mipssim.cc: LWL, LWR, SWL, SWR)

    A word that is not aligned is loaded by LWL and LWR and stored by SWL and
    SWR, two instructions that each access one aligned word.  Here the two are
    run one after the other, with the end of the first instruction between
    them, against the bytes of main memory that the four addresses map to. *)

From S2P Require Import Prelude Machine Mips MipsSafety.

(** ** The page table as a map of byte addresses *)

(** On a well-formed machine virtual address [x] may be accessed, for writing
    if [w], and is byte [p] of main memory. *)
Definition maps (m : Machine) (x : Z) (w : bool) (p : Z) : Prop :=
  exists e, entry_for m (to_u32 x / PageSize) (to_u32 x / PageSize) e /\
    (w = true -> readOnly e = false) /\ to_u32 (physicalPage e) < NumPhysPages /\
    p = to_u32 (physicalPage e) * PageSize + to_u32 x mod PageSize.

Lemma entry_index m vpn i e : machine_wf m -> entry_for m vpn i e -> i = vpn.
Proof.
  intros [_ _ _ [Ht _]]. unfold entry_for. rewrite Ht. destruct (pageTable m); [by intros (-> & _) | done].
Qed.

Lemma translate_maps m x size w p m' :
  machine_wf m -> is_size size -> Translate m x size w = Ok (NoException, p, m') -> maps m x w p.
Proof.
  intros Hwf Hs E. destruct (Translate_spec m x size w (wf_tables _ Hwf) Hs) as (ex & p' & m2 & E' & _ & _ & _ & Hex).
  rewrite E in E'. injection E' as <- <- <-. destruct Hex as (i & e & [_ He Hp Hf Hpa _ _]).
  exists e. rewrite (entry_index _ _ _ _ Hwf He) in He. done.
Qed.

(** The use and dirty bits change nothing of the map. *)
Lemma store_entry_maps m m' vpn e w :
  machine_wf m -> entry_for m vpn vpn e -> store_entry m vpn (touch e w) = Ok m' ->
  forall y v q, maps m y v q -> maps m' y v q.
Proof.
  intros Hwf He Es y v q (e' & He' & Hp & Hf & Hq).
  destruct (decide (to_u32 y / PageSize = vpn)) as [Hy | Hne].
  - rewrite Hy in *. destruct (entry_for_unique _ _ _ _ _ _ He He') as [_ <-].
    exists (touch e w). rewrite Hy. split_and!; try done. by eapply touch_entry_for.
  - exists e'. split_and!; try done.
    destruct (store_entry_ok m vpn vpn e (touch e w) He) as (m1 & E1 & _ & _ & Hs & H1).
    rewrite Es in E1. injection E1 as <-. destruct (wf_space _ Hwf) as [Ht _].
    unfold entry_for in *. rewrite Ht in *. destruct (pageTable m) as [pt | ]; [ | done].
    destruct H1 as (pt' & Hz & -> & ->). destruct He' as (_ & Hlt & Hg & Hv).
    split_and!; [done | by rewrite Hs | | done]. rewrite <- Hg. eapply zget_zset_ne; [done | congruence].
Qed.

Lemma maps_translate m x size w p :
  machine_wf m -> is_size size -> aligned x size = true -> maps m x w p ->
  exists m', Translate m x size w = Ok (NoException, p, m') /\ machine_wf m' /\
    registers m' = registers m /\ mainMemory m' = mainMemory m /\ 0 <= p /\ p + size <= MemorySize /\
    forall y v q, maps m y v q -> maps m' y v q.
Proof.
  intros Hwf Hs Ha (e & He & Hp & Hf & Hq).
  destruct (Translate_spec m x size w (wf_tables _ Hwf) Hs) as (ex & p' & m' & E & _ & _ & _ & Hex).
  assert (ex = NoException) as ->.
  { destruct ex; try done.
    - destruct Hex as (_ & _ & Hno). by destruct (Hno _ _ He).
    - destruct Hex as (_ & -> & i & e' & He' & Hro).
      destruct (entry_for_unique _ _ _ _ _ _ He He') as [_ <-]. rewrite Hp in Hro; done.
    - destruct Hex as (_ & i & e' & He' & Hbig). destruct (entry_for_unique _ _ _ _ _ _ He He') as [_ <-]. lia.
    - destruct Hex as (_ & [? | [Htl Hsz]]); [congruence | ]. exfalso.
      unfold entry_for in He. rewrite Htl in He. destruct (pageTable m); [ | done]. lia. }
  destruct (Translate_wf _ _ _ _ _ _ Hwf Hs E) as (Hwf' & Hr & Hm & Hb).
  destruct Hex as (i & e' & [_ He' _ _ Hpa _ Hst]).
  rewrite (entry_index _ _ _ _ Hwf He') in *. destruct (entry_for_unique _ _ _ _ _ _ He He') as [_ <-].
  exists m'. assert (p' = p) as -> by congruence. split_and!; try done; try tauto. by eapply store_entry_maps.
Qed.

(** Addresses that are mapped are small. *)
Lemma maps_small m x w p : machine_wf m -> is_i32 x -> maps m x w p -> 0 <= x < MemorySize.
Proof.
  intros Hwf Hx (e & He & _). destruct (wf_space _ Hwf) as [Ht Hsz]. pose proof (wf_tables _ Hwf) as Hw.
  unfold entry_for, tables_wf in *. rewrite Ht in *. destruct (pageTable m); [ | done].
  destruct He as (_ & Hlt & _). unfold MemorySize, NumPhysPages, PageSize in *. cint.
Qed.

(** Addresses of one aligned word, and any addresses of different offsets. *)
Lemma maps_near m x y w p q :
  maps m x w p -> maps m y w q -> 0 <= x < MemorySize -> 0 <= y < MemorySize -> x / 4 = y / 4 -> q = p + (y - x).
Proof.
  intros (e & He & _ & _ & ->) (e' & He' & _ & _ & ->) Hx Hy Hxy.
  unfold MemorySize, NumPhysPages, PageSize in *. rewrite (to_u32_id x), (to_u32_id y) in * by cint.
  assert (Hp : x / 128 = y / 128) by (change 128 with (4 * 32); by rewrite <- !Z.div_div, Hxy by lia). rewrite Hp in He.
  destruct (entry_for_unique _ _ _ _ _ _ He He') as [_ <-]. Z.div_mod_to_equations. lia.
Qed.

Lemma maps_apart m x y w p q :
  maps m x w p -> maps m y w q -> 0 <= x < MemorySize -> 0 <= y < MemorySize -> 0 < y - x < 4 -> p <> q.
Proof.
  intros (e & _ & _ & _ & ->) (e' & _ & _ & _ & ->) Hx Hy Hxy.
  unfold MemorySize, NumPhysPages, PageSize in *. rewrite (to_u32_id x), (to_u32_id y) in * by cint. Z.div_mod_to_equations. lia.
Qed.

Lemma maps_frame m x w p : maps m x w p -> 0 <= x < MemorySize -> p mod 4 = x mod 4.
Proof.
  intros (e & _ & _ & _ & ->) Hx. unfold MemorySize, NumPhysPages, PageSize in *. rewrite (to_u32_id x) by cint.
  Z.div_mod_to_equations. lia.
Qed.

(** ** The aligned word an address lies in *)

Definition mem_byte (m : Machine) (p : Z) : Z := mainMemory m !!! Z.to_nat p.

Lemma mem_byte_lookup m p : machine_wf m -> 0 <= p < MemorySize ->
  mainMemory m !! Z.to_nat p = Some (mem_byte m p) /\ zget (mainMemory m) p = Ok (mem_byte m p) /\ is_byte (mem_byte m p).
Proof.
  intros Hwf Hp. destruct (wf_mem _ Hwf) as [Hl Hb].
  destruct (zget_in_range (mainMemory m) p) as (b & Lb & Eb); [rewrite Hl; unfold MemorySize, NumPhysPages, PageSize in *; lia | ].
  unfold mem_byte. rewrite (list_lookup_total_correct _ _ _ Lb). split_and!; [done | done | ].
  by eapply Forall_lookup_1 in Lb.
Qed.

Section Words.
Context {K : Type} (setStatus : MachineStatus -> K -> K).
Context (ExceptionHandler : ExceptionType -> stM (Machine * K) unit).
Context (E : fault -> Prop) (Kinv : K -> Prop).
Context `{!TrapHandler setStatus ExceptionHandler E Kinv}.
Implicit Types (m : Machine) (k : K) (i : Instruction).

(** [m'] is [m] but for use and dirty bits. *)
Record same_machine m m' : Prop := {
  sm_wf : machine_wf m';
  sm_regs : registers m' = registers m;
  sm_mem : mainMemory m' = mainMemory m;
  sm_maps y v q : maps m y v q -> maps m' y v q
}.

Definition base (x p : Z) : Z := p - x mod 4.

Lemma base_word m x w p : machine_wf m -> is_i32 x -> maps m x w p ->
  maps m (x - Z.land x 3) w (base x p) /\ aligned (x - Z.land x 3) 4 = true /\ 0 <= base x p /\ base x p + 4 <= MemorySize.
Proof.
  intros Hwf Hx Hm. pose proof (maps_small _ _ _ _ Hwf Hx Hm) as Hs. rewrite land_3.
  pose proof Hm as (e & He & Hp & Hf & Hq). pose proof (to_u32_range (physicalPage e)) as Hu.
  unfold MemorySize, NumPhysPages, PageSize in *. rewrite (to_u32_id x) in Hq by cint.
  assert (Hd : to_u32 (x - x mod 4) / 128 = to_u32 x / 128) by cint.
  split_and!.
  - exists e. unfold PageSize. rewrite Hd. split_and!; try done. rewrite Hq. unfold base.
    rewrite (to_u32_id (x - x mod 4)) by cint. Z.div_mod_to_equations. lia.
  - unfold aligned. apply Z.eqb_eq. Z.div_mod_to_equations. lia.
  - unfold base. rewrite Hq. unfold is_u32 in Hu. Z.div_mod_to_equations. lia.
  - unfold base. rewrite Hq. unfold is_u32 in Hu. Z.div_mod_to_equations. lia.
Qed.

(** The four bytes of the word. *)
Definition word_bytes m (q : Z) : list Z := [mem_byte m q; mem_byte m (q + 1); mem_byte m (q + 2); mem_byte m (q + 3)].

Lemma word_bytes_at m q j : 0 <= j <= 3 -> word_bytes m q !!! Z.to_nat j = mem_byte m (q + j).
Proof.
  intros Hj. assert (j = 0 \/ j = 1 \/ j = 2 \/ j = 3) as [-> | [-> | [-> | ->]]] by lia; [ | done..].
  by rewrite Z.add_0_r.
Qed.

Lemma read_word m k x w p : machine_wf m -> is_i32 x -> maps m x w p ->
  exists m', ReadMem setStatus ExceptionHandler (x - Z.land x 3) 4 (m, k) =
    Ok (Some (word (mem_byte m (base x p)) (mem_byte m (base x p + 1)) (mem_byte m (base x p + 2))
      (mem_byte m (base x p + 3))), (m', k)) /\ same_machine m m'.
Proof.
  intros Hwf Hx Hm. assert (Hr : maps m x false p) by (destruct Hm as (e & ? & _ & ? & ?); by exists e).
  destruct (base_word m x false p Hwf Hx Hr) as (Hb & Ha & H0 & H4). set (q := base x p) in *.
  assert (Hs : is_size 4) by (unfold is_size; lia).
  destruct (maps_translate _ _ 4 _ _ Hwf Hs Ha Hb) as (m' & ET & Hwf' & Hreg & Hmem & _ & _ & Hmap).
  exists m'. split; [ | by split].
  destruct (ReadMem_spec setStatus ExceptionHandler m k (x - Z.land x 3) 4 (wf_tables _ Hwf) (wf_mem _ Hwf) Hs)
    as (ex & pa & m2 & ET' & [(-> & v & Ev & _ & ->) | (Hne & _)]); rewrite ET in ET'; [ | congruence].
  injection ET' as Hpa Hm2. subst pa m2.
  assert (Hz : forall j, 0 <= j <= 3 -> zget (mainMemory m) (q + j) = Ok (mem_byte m (q + j)))
    by (intros j Hj; apply mem_byte_lookup; [done | lia]).
  pose proof (Hz 0 ltac:(lia)) as Z0. pose proof (Hz 1 ltac:(lia)) as Z1. pose proof (Hz 2 ltac:(lia)) as Z2.
  pose proof (Hz 3 ltac:(lia)) as Z3. rewrite Z.add_0_r in Z0.
  change (Z.to_nat 4) with 4%nat in Ev. unfold load_le in Ev. run.
  replace (q + 1 + 1) with (q + 2) in Ev by lia. replace (q + 2 + 1) with (q + 3) in Ev by lia.
  rewrite Z0, Z1, Z2, Z3 in Ev. injection Ev as <-. do 3 f_equal. unfold narrow, word. simpl. f_equal. lia.
Qed.

Lemma load_word_bytes m q v : machine_wf m -> 0 <= q -> q + 4 <= MemorySize ->
  load_le 4 (mainMemory m) q = Ok (to_u32 v) -> forall j, 0 <= j <= 3 -> mem_byte m (q + j) = byte_of v j.
Proof.
  intros Hwf H0 H4 Ev.
  assert (Hz : forall j, 0 <= j <= 3 -> zget (mainMemory m) (q + j) = Ok (mem_byte m (q + j)) /\ is_byte (mem_byte m (q + j)))
    by (intros j Hj; apply mem_byte_lookup; [done | lia]).
  destruct (Hz 0 ltac:(lia)) as [Z0 B0]. destruct (Hz 1 ltac:(lia)) as [Z1 B1].
  destruct (Hz 2 ltac:(lia)) as [Z2 B2]. destruct (Hz 3 ltac:(lia)) as [Z3 B3].
  rewrite Z.add_0_r in Z0, B0. unfold load_le in Ev. run.
  replace (q + 1 + 1) with (q + 2) in Ev by lia. replace (q + 2 + 1) with (q + 3) in Ev by lia.
  rewrite Z0, Z1, Z2, Z3 in Ev. injection Ev as Hv. unfold is_byte in *.
  intros j Hj. assert (j = 0 \/ j = 1 \/ j = 2 \/ j = 3) as [-> | [-> | [-> | ->]]] by lia;
    rewrite ?Z.add_0_r; unfold byte_of; rewrite <- Hv.
  - change (2 ^ (8 * 0)) with 1. Z.div_mod_to_equations. lia.
  - change (2 ^ (8 * 1)) with 256. Z.div_mod_to_equations. lia.
  - change (2 ^ (8 * 2)) with 65536. Z.div_mod_to_equations. lia.
  - change (2 ^ (8 * 3)) with 16777216. Z.div_mod_to_equations. lia.
Qed.

Lemma write_word m k x p v : machine_wf m -> is_i32 x -> maps m x true p ->
  exists m', WriteMem setStatus ExceptionHandler (x - Z.land x 3) 4 v (m, k) = Ok (true, (m', k)) /\
    machine_wf m' /\ registers m' = registers m /\ (forall y w q, maps m y w q -> maps m' y w q) /\
    (forall j, 0 <= j <= 3 -> mem_byte m' (base x p + j) = byte_of v j) /\
    (forall q, 0 <= q -> ~ base x p <= q < base x p + 4 -> mainMemory m' !! Z.to_nat q = mainMemory m !! Z.to_nat q).
Proof.
  intros Hwf Hx Hm. destruct (base_word m x true p Hwf Hx Hm) as (Hb & Ha & H0 & H4). set (q := base x p) in *.
  assert (Hs : is_size 4) by (unfold is_size; lia).
  destruct (maps_translate _ _ 4 _ _ Hwf Hs Ha Hb) as (m1 & ET & Hwf1 & Hreg & Hmem & _ & _ & Hmap).
  destruct (WriteMem_spec setStatus ExceptionHandler m k (x - Z.land x 3) 4 v (wf_tables _ Hwf) (wf_mem _ Hwf) Hs)
    as (ex & pa & m2 & ET' & [(-> & mem' & Es & ->) | (Hne & _)]); rewrite ET in ET'; [ | congruence].
  injection ET' as Hpa Hm2. subst pa m2. destruct (wf_mem _ Hwf) as [Hl Hby].
  assert (Hlm : q + Z.of_nat 4 <= Z.of_nat (length (mainMemory m)))
    by (rewrite Hl; unfold MemorySize, NumPhysPages, PageSize in *; lia).
  change (Z.to_nat 4) with 4%nat in Es. change (256 ^ 4) with (2 ^ 32) in Es.
  destruct (store_le_spec 4 (mainMemory m) q (v mod 2 ^ 32) Hby H0 Hlm) as (mem2 & Es2 & Hb2 & Hl2 & Hf2 & Hld).
  rewrite Es in Es2. injection Es2 as <-. change (256 ^ Z.of_nat 4) with (2 ^ 32) in Hld. rewrite Z.mod_mod in Hld by lia.
  assert (Hwf2 : machine_wf (with_memory m1 mem')).
  { destruct Hwf1. split; try done. split; simpl; [lia | done]. }
  exists (with_memory m1 mem'). split_and!; try done.
  - by apply load_word_bytes.
  - intros r Hr Hout. simpl. specialize (Hf2 r Hout). unfold zget in Hf2.
    rewrite (proj2 (Z.leb_le 0 r)) in Hf2 by done. by repeat case_match; simplify_eq.
Qed.

(** ** The four instructions *)

(** The byte of the register that goes with the instruction's address, and
    the bytes whose addresses lie in the same aligned word. *)
Definition anchor (op : OpCode) : Z := match op with OP_LWL | OP_SWL => 3 | _ => 0 end.
Definition covers (op : OpCode) (x j : Z) : bool :=
  match op with OP_LWL | OP_SWL => 3 - x mod 4 <=? j | _ => j <=? 3 - x mod 4 end.

(** What a register will hold when the pending load is done. *)
Definition pending m (r : Z) : Z := if reg m LoadReg =? r then reg m LoadValueReg else reg m r.

Definition address m i : Z := to_i32 (reg m (rs i) + extra i).

Lemma load_effect i pc m k p :
  machine_wf m -> instr_wf i -> opCode i = OP_LWL \/ opCode i = OP_LWR ->
  maps m (address m i) false p ->
  exists m' v, exec_unaligned_load setStatus ExceptionHandler i pc (m, k) = Ok (Some (pc, rt i, v), (m', k)) /\
    same_machine m m' /\ is_i32 v /\
    forall j, 0 <= j <= 3 -> byte_of v j =
      if covers (opCode i) (address m i) j then mem_byte m (p + (j - anchor (opCode i))) else byte_of (pending m (rt i)) j.
Proof.
  intros Hwf Hi Hop Hm. set (x := address m i) in *.
  assert (Hx : is_i32 x) by apply to_i32_range. pose proof (maps_small _ _ _ _ Hwf Hx Hm) as Hsm.
  destruct (base_word _ _ _ _ Hwf Hx Hm) as (_ & _ & H0 & H4).
  destruct (read_word m k x false p Hwf Hx Hm) as (m1 & ER & Hsame). pose proof Hsame as [Hwf1 Hr1 Hm1 _].
  assert (Hreg : forall n, reg m1 n = reg m n) by (intros n; unfold reg; by rewrite Hr1).
  assert (Hold : is_i32 (pending m (rt i))).
  { unfold pending. case_match; apply reg_i32; auto with nachos. apply gpr_is_reg, Hi. }
  assert (Hb : forall j, 0 <= j <= 3 -> is_byte (mem_byte m (base x p + j)))
    by (intros j Hj; apply mem_byte_lookup; [done | lia]).
  pose proof (Hb 0 ltac:(lia)) as B0. rewrite Z.add_0_r in B0.
  pose proof (Hb 1 ltac:(lia)) as B1. pose proof (Hb 2 ltac:(lia)) as B2. pose proof (Hb 3 ltac:(lia)) as B3.
  set (w := word _ _ _ _) in ER. rewrite land_3 in ER.
  assert (Hn : 0 <= x mod 4 <= 3) by (pose proof (Z.mod_pos_bound x 4); lia).
  assert (HE : exec_unaligned_load setStatus ExceptionHandler i pc (m, k) =
    Ok (Some (pc, rt i, (if decide (opCode i = OP_LWL) then lwl_merge else lwr_merge) (3 - x mod 4) (pending m (rt i)) w), (m1, k))).
  { unfold exec_unaligned_load. unfold mbind, stM_bind. rewrite getreg_ok by (done || apply gpr_is_reg, Hi).
    fold (address m i). fold x. rewrite !land_3, ER. rewrite getreg_ok by auto with nachos. rewrite Hreg.
    unfold pending. destruct (reg m LoadReg =? rt i); rewrite getreg_ok, Hreg by (done || auto with nachos || apply gpr_is_reg, Hi);
      by destruct Hop as [-> | ->]. }
  rewrite HE. eexists m1, _. split; [done | ]. split; [done | ].
  assert (Hw : is_i32 w) by apply to_i32_range. destruct Hop as [Eop | Eop]; rewrite Eop.
  - rewrite decide_True by done. split; [by apply lwl_merge_i32 | ]. intros j Hj. unfold w.
    rewrite (lwl_bytes _ _ _ _ _ _ _ B0 B1 B2 B3 Hold Hn Hj). cbn [covers anchor].
    destruct (Z.leb_spec (3 - x mod 4) j); [ | done]. fold (word_bytes m (base x p)).
    rewrite word_bytes_at by lia. f_equal. unfold base. lia.
  - rewrite decide_False by done. split; [by apply lwr_merge_i32 | ]. intros j Hj. unfold w.
    rewrite (lwr_bytes _ _ _ _ _ _ _ B0 B1 B2 B3 Hold Hn Hj). cbn [covers anchor].
    destruct (Z.leb_spec j (3 - x mod 4)); [ | done]. fold (word_bytes m (base x p)).
    rewrite word_bytes_at by lia. f_equal. unfold base. lia.
Qed.

Lemma store_effect i pc m k p :
  machine_wf m -> instr_wf i -> opCode i = OP_SWL \/ opCode i = OP_SWR ->
  maps m (address m i) true p ->
  exists m', exec_unaligned_store setStatus ExceptionHandler i pc (m, k) = Ok (Some (pc, 0, 0), (m', k)) /\
    machine_wf m' /\ registers m' = registers m /\ (forall y w q, maps m y w q -> maps m' y w q) /\
    (forall j, 0 <= j <= 3 -> covers (opCode i) (address m i) j = true ->
       mem_byte m' (p + (j - anchor (opCode i))) = byte_of (reg m (rt i)) j) /\
    (forall q, 0 <= q ->
       (forall j, 0 <= j <= 3 -> covers (opCode i) (address m i) j = true -> q <> p + (j - anchor (opCode i))) ->
       mainMemory m' !! Z.to_nat q = mainMemory m !! Z.to_nat q).
Proof.
  intros Hwf Hi Hop Hm. set (x := address m i) in *.
  assert (Hx : is_i32 x) by apply to_i32_range. pose proof (maps_small _ _ _ _ Hwf Hx Hm) as Hsm.
  destruct (base_word _ _ _ _ Hwf Hx Hm) as (_ & _ & H0 & H4).
  destruct (read_word m k x true p Hwf Hx Hm) as (m1 & ER & Hsame). pose proof Hsame as [Hwf1 Hr1 Hm1 Hmap1].
  assert (Hreg : reg m1 (rt i) = reg m (rt i)) by (unfold reg; by rewrite Hr1).
  assert (Hold : is_i32 (reg m (rt i))) by (apply reg_i32; [done | apply gpr_is_reg, Hi]).
  assert (Hb : forall j, 0 <= j <= 3 -> is_byte (mem_byte m (base x p + j)))
    by (intros j Hj; apply mem_byte_lookup; [done | lia]).
  pose proof (Hb 0 ltac:(lia)) as B0. rewrite Z.add_0_r in B0.
  pose proof (Hb 1 ltac:(lia)) as B1. pose proof (Hb 2 ltac:(lia)) as B2. pose proof (Hb 3 ltac:(lia)) as B3.
  set (w := word _ _ _ _) in ER.
  assert (Hn : 0 <= x mod 4 <= 3) by (pose proof (Z.mod_pos_bound x 4); lia).
  set (v := (if decide (opCode i = OP_SWL) then swl_merge else swr_merge) (3 - x mod 4) w (reg m (rt i))).
  destruct (write_word m1 k x p v Hwf1 Hx (Hmap1 _ _ _ Hm)) as (m2 & EW & Hwf2 & Hr2 & Hmap2 & Hin & Hout).
  assert (HE : exec_unaligned_store setStatus ExceptionHandler i pc (m, k) = Ok (Some (pc, 0, 0), (m2, k))).
  { unfold exec_unaligned_store. unfold mbind, stM_bind. rewrite getreg_ok by (done || apply gpr_is_reg, Hi).
    fold (address m i). fold x. rewrite ER. rewrite getreg_ok by (done || apply gpr_is_reg, Hi). rewrite Hreg.
    rewrite land_3 in *. unfold v in EW. destruct Hop as [Eop | Eop]; rewrite Eop in *; unfold mret, stM_ret;
      [rewrite decide_True in EW by done | rewrite decide_False in EW by done]; by rewrite EW. }
  assert (Hcov : forall j, 0 <= j <= 3 ->
    (covers (opCode i) x j = true <-> 0 <= x mod 4 + (j - anchor (opCode i)) <= 3)).
  { intros j Hj. destruct Hop as [-> | ->]; cbn [covers anchor]; rewrite Z.leb_le; lia. }
  assert (Hv : forall j, 0 <= j <= 3 -> mem_byte m2 (base x p + j) =
    let r := j - x mod 4 + anchor (opCode i) in
    if bool_decide (0 <= r <= 3) then byte_of (reg m (rt i)) r else mem_byte m (base x p + j)).
  { intros j Hj. cbv zeta. rewrite Hin by done. unfold v, w. destruct Hop as [Eop | Eop]; rewrite Eop; cbn [anchor].
    - rewrite decide_True by done. rewrite (swl_bytes _ _ _ _ _ _ _ B0 B1 B2 B3 Hold Hn Hj).
      fold (word_bytes m (base x p)). rewrite word_bytes_at by lia.
      destruct (Z.leb_spec j (x mod 4)); case_bool_decide; try lia; f_equal; lia.
    - rewrite decide_False by done. rewrite (swr_bytes _ _ _ _ _ _ _ B0 B1 B2 B3 Hold Hn Hj).
      fold (word_bytes m (base x p)). rewrite word_bytes_at by lia.
      destruct (Z.leb_spec (x mod 4) j); case_bool_decide; try lia; f_equal; lia. }
  exists m2. split_and!; [done | done | congruence | auto | | ].
  - intros j Hj Hc%Hcov; [ | done].
    replace (p + (j - anchor (opCode i))) with (base x p + (x mod 4 + (j - anchor (opCode i)))) by (unfold base; lia).
    rewrite Hv by lia. cbv zeta. rewrite bool_decide_eq_true_2 by lia. f_equal. lia.
  - intros q Hq Hno. destruct (decide (base x p <= q < base x p + 4)) as [Hw | Hw]; [ | rewrite Hout, Hm1 by done; done].
    set (j := q - base x p). assert (Eq : q = base x p + j) by lia.
    destruct (mem_byte_lookup m2 q Hwf2) as (-> & _); [lia | ]. destruct (mem_byte_lookup m q Hwf) as (-> & _); [lia | ].
    f_equal. rewrite Eq, Hv by lia. cbv zeta. case_bool_decide as Hr; [exfalso | done].
    apply (Hno (j - x mod 4 + anchor (opCode i))); [lia | apply Hcov; lia | unfold base in *; lia].
Qed.

(** ** The pairs *)

(** Two instructions in a row: the end of the first one comes between them. *)
Definition two (i1 i2 : Instruction) (pc1 pc2 : Z) : stM (Machine * K) outcome :=
  out ← execute setStatus ExceptionHandler i1 pc1;
  match out with
  | None => mret None
  | Some (pcAfter, r, v) => commit pcAfter r v;; execute setStatus ExceptionHandler i2 pc2
  end.

(** The two halves of an access, in either order. *)
Definition halves (store : bool) (op1 op2 : OpCode) : Prop :=
  if store then op1 = OP_SWL /\ op2 = OP_SWR \/ op1 = OP_SWR /\ op2 = OP_SWL
  else op1 = OP_LWL /\ op2 = OP_LWR \/ op1 = OP_LWR /\ op2 = OP_LWL.

Lemma halves_cover store op1 op2 a j : halves store op1 op2 -> 0 <= j <= 3 ->
  covers op1 (a + anchor op1) j = true \/ covers op2 (a + anchor op2) j = true.
Proof.
  intros Hh Hj. destruct store, Hh as [[-> ->] | [-> ->]]; cbn [covers anchor]; rewrite !Z.leb_le, Z.add_0_r;
    Z.div_mod_to_equations; lia.
Qed.

(** The byte addresses the halves work on are those of the access. *)
Lemma covers_near op a j : op = OP_LWL \/ op = OP_LWR \/ op = OP_SWL \/ op = OP_SWR -> 0 <= j <= 3 ->
  covers op (a + anchor op) j = true -> (a + anchor op) / 4 = (a + j) / 4.
Proof.
  intros Hop Hj. destruct Hop as [-> | [-> | [-> | ->]]]; cbn [covers anchor]; rewrite Z.leb_le, ?Z.add_0_r;
    Z.div_mod_to_equations; lia.
Qed.

Definition half_op (store : bool) (op : OpCode) : Prop :=
  if store then op = OP_SWL \/ op = OP_SWR else op = OP_LWL \/ op = OP_LWR.

Lemma halves_ops store op1 op2 : halves store op1 op2 -> half_op store op1 /\ half_op store op2.
Proof. destruct store, 1 as [[-> ->] | [-> ->]]; unfold half_op; auto. Qed.

(** What is left to prove of an access at [a] to the bytes [p]. *)
Section Access.
Context (m : Machine) (a : Z) (p : Z -> Z) (store : bool).
Hypothesis Hwf : machine_wf m.
Hypothesis Hmap : forall j, 0 <= j <= 3 -> exists m1, Translate m (a + j) 1 store = Ok (NoException, p j, m1).

Lemma access_maps j : 0 <= j <= 3 -> maps m (a + j) store (p j).
Proof. intros Hj. destruct (Hmap j Hj) as (m1 & E1). eapply translate_maps; [done | | done]. unfold is_size. lia. Qed.

Lemma access_small op j : half_op store op -> is_i32 (a + anchor op) -> 0 <= j <= 3 ->
  covers op (a + anchor op) j = true -> 0 <= a + j < MemorySize /\ p (anchor op) + (j - anchor op) = p j.
Proof.
  intros Hop Hi Hj Hc. assert (Ha : 0 <= anchor op <= 3) by (destruct op; simpl; lia).
  pose proof (maps_small _ _ _ _ Hwf Hi (access_maps _ Ha)) as Hs.
  assert (Hn : (a + anchor op) / 4 = (a + j) / 4).
  { apply covers_near; [ | done | done]. destruct store, Hop; auto. }
  assert (Hsj : 0 <= a + j < MemorySize).
  { unfold MemorySize, NumPhysPages, PageSize in *. Z.div_mod_to_equations. lia. }
  split; [done | ]. rewrite (maps_near m (a + anchor op) (a + j) store _ _ (access_maps _ Ha) (access_maps _ Hj) Hs Hsj Hn). lia.
Qed.

End Access.

Lemma committed_keeps m pc r v n :
  machine_wf m -> is_i32 pc -> is_gpr r -> is_i32 v -> is_gpr n -> reg m 0 = 0 -> (reg m LoadReg = n -> n = 0) ->
  reg (committed m pc r v) n = reg m n.
Proof.
  intros Hwf Hpc Hr Hv Hn H0 Hl. destruct (Z.eq_dec n 0) as [-> | Hne].
  - rewrite H0. by destruct (commit_ok m tt pc r v Hwf Hpc Hr Hv) as (_ & _ & ? & _).
  - destruct (committed_regs m pc r v n Hwf Hr Hv Hn Hne) as (_ & _ & ->).
    rewrite decide_False; [done | ]. intros ->. by apply Hne, Hl.
Qed.

Lemma execute_half store i pc s : half_op store (opCode i) ->
  execute setStatus ExceptionHandler i pc s =
  (if store then exec_unaligned_store setStatus ExceptionHandler i pc s
   else exec_unaligned_load setStatus ExceptionHandler i pc s).
Proof. intros Hop. unfold execute. destruct store, Hop as [-> | ->]; done. Qed.

Section Pair.
Context (m : Machine) (k : K) (a : Z) (p : Z -> Z) (i1 i2 : Instruction) (pc1 pc2 : Z).
Hypothesis Hwf : machine_wf m.
Hypothesis Hzero : reg m 0 = 0.
Hypothesis Hi1 : instr_wf i1.
Hypothesis Hi2 : instr_wf i2.
Hypothesis Hpc : is_i32 pc1.
Hypothesis Hrs : rs i1 = rs i2.
Hypothesis Hrt : rt i1 = rt i2.
Hypothesis Hbase : reg m LoadReg = rs i1 -> rs i1 = 0.
Hypothesis Ha1 : address m i1 = a + anchor (opCode i1).
Hypothesis Ha2 : address m i2 = a + anchor (opCode i2).

Lemma address_i32 : is_i32 (a + anchor (opCode i1)) /\ is_i32 (a + anchor (opCode i2)).
Proof. rewrite <- Ha1, <- Ha2. split; apply to_i32_range. Qed.

Lemma anchor_range op : 0 <= anchor op <= 3.
Proof. destruct op; simpl; lia. Qed.

(** The machine between the two. *)
Lemma between m1 r v :
  machine_wf m1 -> registers m1 = registers m -> is_gpr r -> is_i32 v ->
  let mc := committed m1 pc1 r v in
  commit pc1 r v (m1, k) = Ok (tt, (mc, k)) /\ machine_wf mc /\ address mc i2 = a + anchor (opCode i2) /\
  reg mc LoadReg = r /\ reg mc LoadValueReg = v /\ mainMemory mc = mainMemory m1 /\
  (forall y w q, maps m1 y w q -> maps mc y w q) /\
  forall n, is_gpr n -> (reg m LoadReg = n -> n = 0) -> reg mc n = reg m n.
Proof.
  intros Hwf1 Hr1 Hr Hv mc. assert (Hreg : forall n, reg m1 n = reg m n) by (intros n; unfold reg; by rewrite Hr1).
  destruct (commit_ok m1 k pc1 r v Hwf1 Hpc Hr Hv) as (Ec & Hwfc & _ & _ & _ & Hl).
  assert (Hk : forall n, is_gpr n -> (reg m LoadReg = n -> n = 0) -> reg mc n = reg m n).
  { intros n Hn Hln. rewrite <- Hreg. apply committed_keeps; try done; by rewrite Hreg. }
  split_and!; try done.
  - rewrite <- Ha2. unfold address. rewrite Hk; [done | apply Hi2 | rewrite <- Hrs; done].
  - apply (committed_regs m1 pc1 r v 1); [done.. | unfold is_gpr; regs | done].
Qed.

Lemma pair_loads : halves false (opCode i1) (opCode i2) ->
  (forall j, 0 <= j <= 3 -> exists m1, Translate m (a + j) 1 false = Ok (NoException, p j, m1)) ->
  exists m', two i1 i2 pc1 pc2 (m, k) =
    Ok (Some (pc2, rt i1, word (mem_byte m (p 0)) (mem_byte m (p 1)) (mem_byte m (p 2)) (mem_byte m (p 3))), (m', k)) /\
    mainMemory m' = mainMemory m.
Proof.
  intros Hh Hmap. destruct (halves_ops _ _ _ Hh) as [Ho1 Ho2]. destruct address_i32 as [Hx1 Hx2].
  pose proof (access_maps m a p false Hwf Hmap) as Hm.
  destruct (load_effect i1 pc1 m k (p (anchor (opCode i1))) Hwf Hi1 Ho1) as (m1 & v1 & E1 & Hs1 & Hv1 & Hb1).
  { rewrite Ha1. apply Hm, anchor_range. }
  destruct Hs1 as [Hwf1 Hr1 Hm1 Hmap1].
  destruct (between m1 (rt i1) v1 Hwf1 Hr1 (instr_rt _ Hi1) Hv1) as (Ec & Hwfc & Hac & Hl & Hlv & Hmc & Hmapc & _).
  set (mc := committed m1 pc1 (rt i1) v1) in *.
  destruct (load_effect i2 pc2 mc k (p (anchor (opCode i2))) Hwfc Hi2 Ho2) as (m2 & v2 & E2 & Hs2 & Hv2 & Hb2).
  { rewrite Hac. apply Hmapc, Hmap1, Hm, anchor_range. }
  exists m2. split.
  2: { rewrite (sm_mem _ _ Hs2). congruence. }
  unfold two, mbind, stM_bind. rewrite (execute_half false) by done. rewrite E1, Ec.
  rewrite (execute_half false) by done. rewrite E2, Hrt. do 4 f_equal. rewrite (word_of_bytes v2 Hv2).
  assert (Hmb : forall q, mem_byte mc q = mem_byte m q) by (intros q; unfold mem_byte; by rewrite Hmc, Hm1).
  assert (Hall : forall j, 0 <= j <= 3 -> byte_of v2 j = mem_byte m (p j)).
  { intros j Hj. rewrite Hb2, Hac by done. destruct (covers (opCode i2) _ j) eqn:C2.
    - destruct (access_small m a p false Hwf Hmap (opCode i2) j Ho2 Hx2 Hj C2) as [_ ->]. apply Hmb.
    - assert (Hp : pending mc (rt i2) = v1) by (unfold pending; rewrite Hl, Hrt, Z.eqb_refl; done).
      rewrite Hp, Hb1, Ha1 by done. destruct (halves_cover _ _ _ a j Hh Hj) as [C1 | C1]; [ | congruence].
      rewrite C1. by destruct (access_small m a p false Hwf Hmap (opCode i1) j Ho1 Hx1 Hj C1) as [_ ->]. }
  rewrite !Hall by lia. done.
Qed.

Lemma pair_stores : halves true (opCode i1) (opCode i2) ->
  (forall j, 0 <= j <= 3 -> exists m1, Translate m (a + j) 1 true = Ok (NoException, p j, m1)) ->
  (reg m LoadReg = rt i1 -> rt i1 = 0) ->
  exists m', two i1 i2 pc1 pc2 (m, k) = Ok (Some (pc2, 0, 0), (m', k)) /\
    (forall j, 0 <= j <= 3 -> mainMemory m' !! Z.to_nat (p j) = Some (byte_of (reg m (rt i1)) j)) /\
    (forall q, (forall j, 0 <= j <= 3 -> q <> Z.to_nat (p j)) -> mainMemory m' !! q = mainMemory m !! q).
Proof.
  intros Hh Hmap Hsrc. destruct (halves_ops _ _ _ Hh) as [Ho1 Ho2]. destruct address_i32 as [Hx1 Hx2].
  pose proof (access_maps m a p true Hwf Hmap) as Hm.
  assert (Hsmall : forall j, 0 <= j <= 3 -> 0 <= a + j < MemorySize).
  { intros j Hj. destruct (halves_cover _ _ _ a j Hh Hj) as [C | C];
      [by apply (access_small m a p true Hwf Hmap (opCode i1) j) | by apply (access_small m a p true Hwf Hmap (opCode i2) j)]. }
  assert (Hp : forall j, 0 <= j <= 3 -> 0 <= p j < MemorySize).
  { intros j Hj. destruct (Hmap j Hj) as (m1 & E1). destruct (Translate_wf _ _ 1 _ _ _ Hwf ltac:(by left) E1) as (_ & _ & _ & ?). lia. }
  assert (Hdiff : forall x y : Z, 0 <= x <= 3 -> 0 <= y <= 3 -> x <> y -> p x <> p y).
  { intros x y Hx Hy Hne. destruct (Z.lt_total x y) as [Hlt | [? | Hlt]]; [ | done | ].
    - apply (maps_apart m (a + x) (a + y) true); auto; lia.
    - apply not_eq_sym, (maps_apart m (a + y) (a + x) true); auto; lia. }
  destruct (store_effect i1 pc1 m k (p (anchor (opCode i1))) Hwf Hi1 Ho1) as (m1 & E1 & Hwf1 & Hr1 & Hmap1 & In1 & Out1).
  { rewrite Ha1. apply Hm, anchor_range. }
  destruct (between m1 0 0 Hwf1 Hr1) as (Ec & Hwfc & Hac & _ & _ & Hmc & Hmapc & Hkeep); [unfold is_gpr; regs | cint | ].
  set (mc := committed m1 pc1 0 0) in *.
  destruct (store_effect i2 pc2 mc k (p (anchor (opCode i2))) Hwfc Hi2 Ho2) as (m2 & E2 & Hwf2 & _ & _ & In2 & Out2).
  { rewrite Hac. apply Hmapc, Hmap1, Hm, anchor_range. }
  rewrite Hac in *. rewrite Ha1 in *. rewrite (Hkeep (rt i2)) in In2 by (rewrite <- Hrt; apply Hi1 || done).
  pose proof (fun j => access_small m a p true Hwf Hmap (opCode i1) j Ho1 Hx1) as Near1.
  pose proof (fun j => access_small m a p true Hwf Hmap (opCode i2) j Ho2 Hx2) as Near2.
  assert (Hout2 : forall q, 0 <= q -> (forall j, 0 <= j <= 3 -> covers (opCode i2) (a + anchor (opCode i2)) j = true -> q <> p j) ->
    mainMemory m2 !! Z.to_nat q = mainMemory m1 !! Z.to_nat q).
  { intros q Hq Hno. rewrite Out2, Hmc; [done | done | ]. intros j Hj C. destruct (Near2 j Hj C) as [_ ->]. auto. }
  assert (Hout1 : forall q, 0 <= q -> (forall j, 0 <= j <= 3 -> covers (opCode i1) (a + anchor (opCode i1)) j = true -> q <> p j) ->
    mainMemory m1 !! Z.to_nat q = mainMemory m !! Z.to_nat q).
  { intros q Hq Hno. apply Out1; [done | ]. intros j Hj C. destruct (Near1 j Hj C) as [_ ->]. auto. }
  exists m2. split_and!.
  - unfold two, mbind, stM_bind. rewrite (execute_half true) by done. rewrite E1, Ec.
    by rewrite (execute_half true), E2 by done.
  - intros j Hj. destruct (covers (opCode i2) (a + anchor (opCode i2)) j) eqn:C2.
    + destruct (mem_byte_lookup m2 (p j) Hwf2 (Hp j Hj)) as (-> & _). f_equal.
      destruct (Near2 j Hj C2) as [_ <-]. rewrite Hrt. by apply In2.
    + destruct (halves_cover _ _ _ a j Hh Hj) as [C1 | C1]; [ | congruence].
      rewrite Hout2; [ | apply Hp; done | intros j' Hj' C'; apply Hdiff; [done | done | intros ->; congruence]].
      destruct (mem_byte_lookup m1 (p j) Hwf1 (Hp j Hj)) as (-> & _). f_equal.
      destruct (Near1 j Hj C1) as [_ <-]. by apply In1.
  - intros q Hno. rewrite <- (Nat2Z.id q). rewrite Hout2, Hout1; [done | lia | | lia | ];
      intros j Hj _ Hq; apply (Hno j Hj); rewrite <- Hq; by rewrite Nat2Z.id.
Qed.

End Pair.

(** C35: A word at any address, aligned or not, takes two instructions, and
    the pair is right, in either order.  Let LWL address byte [a+3] and LWR
    byte [a], with the same base register (into which no load is pending) and
    the same target, and let the four bytes at [a] be readable: run one after
    the other, whatever the target held, they leave the little-endian word of
    those four bytes of memory as the pending load, and memory as it was.
    SWL and SWR likewise store the register's four bytes at the four bytes of
    memory that [a] to [a+3] map to, and no other byte changes. *)
Theorem unaligned_access_correct m k a (p : Z -> Z) i1 i2 pc1 pc2 store :
  user_inv Kinv (m, k) -> instr_wf i1 -> instr_wf i2 -> is_i32 pc1 ->
  halves store (opCode i1) (opCode i2) -> rs i1 = rs i2 -> rt i1 = rt i2 ->
  to_i32 (reg m (rs i1) + extra i1) = a + anchor (opCode i1) ->
  to_i32 (reg m (rs i2) + extra i2) = a + anchor (opCode i2) ->
  (reg m LoadReg = rs i1 -> rs i1 = 0) -> (store = true -> reg m LoadReg = rt i1 -> rt i1 = 0) ->
  (forall j, 0 <= j <= 3 -> exists m1, Translate m (a + j) 1 store = Ok (NoException, p j, m1)) ->
  if store then
    exists m', two i1 i2 pc1 pc2 (m, k) = Ok (Some (pc2, 0, 0), (m', k)) /\
      (forall j, 0 <= j <= 3 -> mainMemory m' !! Z.to_nat (p j) = Some (byte_of (reg m (rt i1)) j)) /\
      (forall q, (forall j, 0 <= j <= 3 -> q <> Z.to_nat (p j)) -> mainMemory m' !! q = mainMemory m !! q)
  else
    exists m', two i1 i2 pc1 pc2 (m, k) =
      Ok (Some (pc2, rt i1, word (mem_byte m (p 0)) (mem_byte m (p 1)) (mem_byte m (p 2)) (mem_byte m (p 3))), (m', k)) /\
      mainMemory m' = mainMemory m.
Proof.
  intros (Hwf & H0 & _) Hi1 Hi2 Hpc Hh Hrs Hrt Ha1 Ha2 Hb Hs Hmap.
  destruct store; [apply (pair_stores m k a p) | apply (pair_loads m k a p)]; auto.
Qed.

End Words.

(** ** Witness: a word across a page boundary *)

(** Addresses 126 to 129 lie in two pages, which the page table puts in
    frames 5 and 3. *)
Definition across_pages (j : Z) : Z := if j <? 2 then 5 * PageSize + 126 + j else 3 * PageSize + (j - 2).

Definition storing_machine : Machine := upd example_machine 2 67305985.

Lemma storing_user_inv : user_inv (fun _ : unit => True) (storing_machine, tt).
Proof.
  split_and!; [apply upd_example_wf; [unfold is_gpr; regs | cint] | vm_compute; reflexivity | exact I].
Qed.

Lemma across_pages_mapped store j : 0 <= j <= 3 ->
  exists m1, Translate storing_machine (126 + j) 1 store = Ok (NoException, across_pages j, m1).
Proof.
  intros Hj. assert (j = 0 \/ j = 1 \/ j = 2 \/ j = 3) as Hc by lia.
  destruct Hc as [-> | [-> | [-> | ->]]], store; eexists; vm_compute; reflexivity.
Qed.

Lemma store_half_wf op x : half_op true op -> is_i32 x -> instr_wf (mkInstr 0 op 0 2 0 x).
Proof. intros [-> | ->] Hx; split; cbn; (done || (unfold is_gpr; regs)). Qed.

(** SWL and SWR put the bytes 1, 2, 3, 4 of register 2 at the end of one
    frame and at the start of another. *)
Lemma unaligned_access_correct_witness :
  exists m', two ignore_status ignore_trap (mkInstr 0 OP_SWL 0 2 0 129) (mkInstr 0 OP_SWR 0 2 0 126) 4 8
      (storing_machine, tt) = Ok (Some (8, 0, 0), (m', tt)) /\
    mainMemory m' !! 766%nat = Some 1 /\ mainMemory m' !! 767%nat = Some 2 /\
    mainMemory m' !! 384%nat = Some 3 /\ mainMemory m' !! 385%nat = Some 4 /\ mainMemory m' !! 386%nat = Some 0.
Proof.
  destruct (unaligned_access_correct ignore_status ignore_trap (fun _ => True) storing_machine tt 126 across_pages
    (mkInstr 0 OP_SWL 0 2 0 129) (mkInstr 0 OP_SWR 0 2 0 126) 4 8 true storing_user_inv) as (m' & Em & Hin & Hout).
  - apply store_half_wf; [by left | cint].
  - apply store_half_wf; [by right | cint].
  - cint.
  - by left.
  - reflexivity.
  - reflexivity.
  - vm_compute. reflexivity.
  - vm_compute. reflexivity.
  - reflexivity.
  - intros _. vm_compute. congruence.
  - apply across_pages_mapped.
  - exists m'. split; [exact Em | ]. split_and!.
    + exact (Hin 0 ltac:(lia)).
    + exact (Hin 1 ltac:(lia)).
    + exact (Hin 2 ltac:(lia)).
    + exact (Hin 3 ltac:(lia)).
    + rewrite Hout; [vm_compute; reflexivity | ]. intros j Hj.
      assert (j = 0 \/ j = 1 \/ j = 2 \/ j = 3) as Hc by lia.
      destruct Hc as [-> | [-> | [-> | ->]]]; vm_compute; congruence.
Defined.
