(* ===== verification/FileSysStub.v ===== *)
(** * Files through the host (filesys/openfile.h, filesys/filesys.h with
      FILESYS_STUB; the file part of lib/sysdep.cc)

    The kernel as built keeps a table of twenty open files, each a UNIX
    descriptor with an offset of its own.  The UNIX calls themselves are host
    code: they are the fields of the record [UnixOps], over a host state [U]
    ([sys_new n] says whether [operator new] finds [n] bytes),
    and the laws the kernel relies on are the class [UnixLaws].

    [Close] inside class [FileSystem] is the member, which takes an index
    into the table; inside class [OpenFile], which has no such member, it is
    the function of lib/sysdep.cc, which takes a UNIX descriptor. *)

From S2P Require Import Prelude.

(** A file name: the characters before the terminating NUL. *)
Definition filename := list Z.

(** Flags of open(2) on Linux. *)
Definition O_RDONLY : Z := 0.
Definition O_RDWR : Z := 2.
Definition O_CREAT : Z := 64.
Definition O_TRUNC : Z := 512.

Record UnixOps (U : Type) := {
  sys_open : filename -> Z -> U -> Z * U;
  sys_close : Z -> U -> Z * U;
  sys_read : Z -> Z -> U -> Z * list Z * U;
  sys_write : Z -> list Z -> Z -> U -> Z * U;
  sys_lseek : Z -> Z -> Z -> U -> Z * U;
  sys_fstat_ino : Z -> U -> option Z;
  sys_fcntl_getfl : Z -> U -> Z;
  sys_unlink : filename -> U -> Z * U;
  sys_rand : U -> Z * U;
  sys_new : Z -> U -> bool
}.
Arguments sys_open {U} _ _ _ _.
Arguments sys_close {U} _ _ _.
Arguments sys_read {U} _ _ _ _.
Arguments sys_write {U} _ _ _ _ _.
Arguments sys_lseek {U} _ _ _ _ _.
Arguments sys_fstat_ino {U} _ _ _.
Arguments sys_fcntl_getfl {U} _ _ _.
Arguments sys_unlink {U} _ _ _.
Arguments sys_rand {U} _ _.
Arguments sys_new {U} _ _ _.

Record OpenFile := mkOpenFile { file : Z; currentOffset : Z }.

#[global] Instance OpenFile_eq_dec : EqDecision OpenFile.
Proof. solve_decision. Defined.

(** [fdTable] *)
Notation fd_table := (list (option OpenFile)).

Section Stub.
Context {U : Type} (ux : UnixOps U).

(** ** lib/sysdep.cc *)

Definition unix {A} (f : U -> A * U) : stM U A := fun u => Ok (f u).

Definition OpenForWrite (name : filename) : stM U Z :=
  fd ← unix (sys_open ux name (Z.lor (Z.lor O_RDWR O_CREAT) O_TRUNC));
  lift (ASSERT (0 <=? fd));;
  mret fd.

Definition OpenForReadWrite (name : filename) (crashOnError : bool) : stM U Z :=
  fd ← unix (sys_open ux name O_RDWR);
  lift (ASSERT (negb crashOnError || (0 <=? fd)));;
  mret fd.

(** The count read(2) returns, as an [int], and the bytes it stored. *)
Definition ReadPartial (fd nBytes : Z) : stM U (Z * list Z) :=
  unix (fun u => let '(n, bs, u') := sys_read ux fd nBytes u in ((to_i32 n, bs), u')).

Definition WriteFile (fd : Z) (buffer : list Z) (nBytes : Z) : stM U unit :=
  retVal ← unix (sys_write ux fd buffer nBytes);
  lift (ASSERT (retVal =? nBytes)).

Definition Lseek (fd offset whence : Z) : stM U unit :=
  retVal ← unix (sys_lseek ux fd offset whence);
  lift (ASSERT (0 <=? retVal)).

Definition Tell (fd : Z) : stM U Z := pos ← unix (sys_lseek ux fd 0 1); mret (to_i32 pos).

Definition sysdep_Close (fd : Z) : stM U Z :=
  retVal ← unix (sys_close ux fd);
  lift (ASSERT (0 <=? retVal));;
  mret retVal.

Definition Unlink (name : filename) : stM U bool :=
  r ← unix (sys_unlink ux name);
  mret (negb (r =? 0)).

(** ** class OpenFile *)

Definition new_OpenFile (f : Z) : OpenFile := mkOpenFile f 0.

Definition delete_OpenFile (o : OpenFile) : stM U unit := sysdep_Close (file o);; mret tt.

Definition ReadAt (o : OpenFile) (numBytes position : Z) : stM U (Z * list Z) :=
  Lseek (file o) position 0;;
  ReadPartial (file o) numBytes.

(** write(2) is given the count as a [size_t] and reads that many bytes of
    [from]. *)
Definition WriteAt (o : OpenFile) (from : list Z) (numBytes position : Z) : stM U Z :=
  Lseek (file o) position 0;;
  lift (if (0 <=? numBytes) && (numBytes <=? Z.of_nat (length from)) then mret tt else Fail Undefined);;
  WriteFile (file o) from numBytes;;
  mret numBytes.

Definition OpenFile_Read (o : OpenFile) (numBytes : Z) : stM U (Z * list Z * OpenFile) :=
  '(numRead, into) ← ReadAt o numBytes (currentOffset o);
  mret (numRead, into, mkOpenFile (file o) (to_i32 (currentOffset o + numRead))).

Definition OpenFile_Write (o : OpenFile) (from : list Z) (numBytes : Z) : stM U (Z * OpenFile) :=
  numWritten ← WriteAt o from numBytes (currentOffset o);
  mret (numWritten, mkOpenFile (file o) (to_i32 (currentOffset o + numWritten))).

Definition OpenFile_Length (o : OpenFile) : stM U Z :=
  Lseek (file o) 0 2;;
  Tell (file o).

Definition OpenFile_Seek (o : OpenFile) (position : Z) : stM U (Z * OpenFile) :=
  length ← OpenFile_Length o;
  if position =? -1 then mret (length, mkOpenFile (file o) length)
  else if (0 <=? position) && (position <=? length) then
    mret (position, mkOpenFile (file o) position)
  else mret (-1, o).

Definition getInode (o : OpenFile) : stM U Z :=
  gets (fun u => match sys_fstat_ino ux (file o) u with Some ino => to_i32 ino | None => -1 end).

Definition isReadable (o : OpenFile) : stM U bool :=
  ret ← gets (fun u => Z.land (sys_fcntl_getfl ux (file o) u) 255);
  mret ((ret =? 0) || (ret =? 2)).

Definition isWritable (o : OpenFile) : stM U bool :=
  ret ← gets (fun u => Z.land (sys_fcntl_getfl ux (file o) u) 255);
  mret ((ret =? 1) || (ret =? 2)).

(** ** class FileSystem *)


Definition new_FileSystem : fd_table :=
  Some (new_OpenFile 0) :: Some (new_OpenFile 1) :: replicate 18 None.

Notation FS := (fd_table * U)%type.

(** A step on the host state alone. *)
Definition on_unix {A} (m : stM U A) : stM FS A :=
  fun s => '(a, u) ← m s.2; mret (a, (s.1, u)).

(** [fdTable[i]] *)
Definition get_slot (i : Z) : stM FS (option OpenFile) :=
  fun s => o ← zget s.1 i; mret (o, s).
Definition set_slot (i : Z) (o : option OpenFile) : stM FS unit :=
  fun s => t ← zset s.1 i o; mret (tt, (t, s.2)).

(** [FileSystem::Close]: an index into the table. *)
Definition FileSystem_Close (fd : Z) : stM FS Z :=
  if (fd <? 2) || (20 <=? fd) then mret (-1)
  else
    o ← get_slot fd;
    match o with
    | None => mret (-1)
    | Some f =>
        on_unix (delete_OpenFile f);;
        set_slot fd None;;
        mret 0
    end.

Definition FileSystem_Create (name : filename) (initializeState : Z) : stM FS bool :=
  fileDescriptor ← on_unix (OpenForWrite name);
  if fileDescriptor =? -1 then mret false
  else FileSystem_Close fileDescriptor;; mret true.

(** [OpenFile* Open(char *name)], for executables. *)
Definition FileSystem_OpenExec (name : filename) : stM FS (option OpenFile) :=
  fileDescriptor ← on_unix (OpenForReadWrite name false);
  if fileDescriptor =? -1 then mret None else mret (Some (new_OpenFile fileDescriptor)).

(** The loop of [Remove]: is some open file the same inode? *)
Fixpoint inode_open (n : nat) (i inode : Z) : stM FS bool :=
  match n with
  | O => mret false
  | S n' =>
      o ← get_slot i;
      match o with
      | None => inode_open n' (i + 1) inode
      | Some f =>
          tempInode ← on_unix (getInode f);
          if inode =? tempInode then mret true else inode_open n' (i + 1) inode
      end
  end.

Definition FileSystem_Remove (name : filename) : stM FS Z :=
  fd ← on_unix (unix (sys_open ux name O_RDONLY));
  if fd =? -1 then mret (-1)
  else
    inode ← on_unix (getInode (new_OpenFile fd));
    found ← inode_open 18 2 inode;
    on_unix (unix (sys_close ux fd));;
    if (found : bool) then mret (-1)
    else
      r ← on_unix (Unlink name);
      mret (if (r : bool) then 0 else 1).

(** The loop of [Open]: put the descriptor into the first free slot. *)
Fixpoint claim_slot (n : nat) (i fd : Z) : stM FS (option Z) :=
  match n with
  | O => mret None
  | S n' =>
      o ← get_slot i;
      match o with
      | None => set_slot i (Some (new_OpenFile fd));; mret (Some i)
      | Some _ => claim_slot n' (i + 1) fd
      end
  end.

Definition open_with (name : filename) (flags : Z) : stM FS Z :=
  fd ← on_unix (unix (sys_open ux name flags));
  if fd =? -1 then mret (-1)
  else
    slot ← claim_slot 18 2 fd;
    match slot with
    | Some i => mret i
    | None => on_unix (unix (sys_close ux fd));; mret (-1)
    end.

Definition FileSystem_Open (name : filename) (accessType : Z) : stM FS Z :=
  if accessType =? 0 then open_with name O_RDONLY
  else if accessType =? 1 then open_with name (Z.lor O_RDWR O_CREAT)
  else mret (-1).

Definition FileSystem_get (fd : Z) : stM FS (option OpenFile) :=
  if (fd <? 2) || (20 <=? fd) then mret None else get_slot fd.

End Stub.

(** ** What the kernel relies on the host for

    [fd_open d u]: descriptor [d] is open.  open(2) either fails with -1 or
    returns a descriptor that was not open; close(2) of an open descriptor
    succeeds; the other calls open and close nothing. *)

Class UnixLaws {U : Type} (ux : UnixOps U) (fd_open : Z -> U -> Prop) : Prop := {
  open_law name flags u fd u' : sys_open ux name flags u = (fd, u') ->
    (fd = -1 /\ forall d, fd_open d u' <-> fd_open d u) \/
    (0 <= fd /\ ~ fd_open fd u /\ forall d, fd_open d u' <-> d = fd \/ fd_open d u);
  close_law fd u r u' : sys_close ux fd u = (r, u') -> fd_open fd u ->
    r = 0 /\ forall d, fd_open d u' <-> d <> fd /\ fd_open d u;
  read_law fd n u r u' : sys_read ux fd n u = (r, u') -> forall d, fd_open d u' <-> fd_open d u;
  write_law fd b n u r u' : sys_write ux fd b n u = (r, u') -> forall d, fd_open d u' <-> fd_open d u;
  lseek_law fd o w u r u' : sys_lseek ux fd o w u = (r, u') -> forall d, fd_open d u' <-> fd_open d u;
  unlink_law name u r u' : sys_unlink ux name u = (r, u') -> forall d, fd_open d u' <-> fd_open d u
}.

Section StubProperties.
Context {U : Type} (ux : UnixOps U) (fd_open : Z -> U -> Prop).
Context `{!UnixLaws ux fd_open}.
Implicit Types (t : fd_table) (u : U).

(** Twenty slots; each open file has a descriptor of its own, which is open. *)
Record table_wf t u : Prop := {
  table_length : length t = 20%nat;
  table_open i f : t !! i = Some (Some f) -> fd_open (file f) u;
  table_distinct i j f g : t !! i = Some (Some f) -> t !! j = Some (Some g) ->
    file f = file g -> i = j
}.

Definition same_fds u u' : Prop := forall d, fd_open d u' <-> fd_open d u.

Lemma table_wf_fds t u u' : table_wf t u -> same_fds u u' -> table_wf t u'.
Proof. intros [Hl Ho Hd] Hs. split; [done | | done]. intros i f Hi. apply Hs. by eapply Ho. Qed.

Lemma slot_get t u i :
  length t = 20%nat -> 0 <= i < 20 ->
  exists o, t !! Z.to_nat i = Some o /\ get_slot i (t, u) = Ok (o, (t, u)).
Proof.
  intros Hl Hi. destruct (zget_in_range t i) as (o & Lo & Eo); [lia | ].
  exists o. split; [done | ]. unfold get_slot. simpl. by rewrite Eo.
Qed.

Lemma slot_set t u i o :
  length t = 20%nat -> 0 <= i < 20 -> set_slot i o (t, u) = Ok (tt, (<[Z.to_nat i := o]> t, u)).
Proof. intros Hl Hi. unfold set_slot. simpl. by rewrite zset_in_range by lia. Qed.

Lemma table_clear t u u' i f :
  table_wf t u -> t !! i = Some (Some f) ->
  (forall d, fd_open d u' <-> d <> file f /\ fd_open d u) ->
  table_wf (<[i := None]> t) u'.
Proof.
  intros [Hl Ho Hd] Hi Hu. split.
  - by rewrite length_insert.
  - intros j g Hj. apply list_lookup_insert_Some in Hj as [(_ & [=] & _) | [Hne Hj]].
    apply Hu. split; [ | by eapply Ho]. intros Heq. by apply Hne, (Hd i j f g).
  - intros j k g h Hj Hk. apply list_lookup_insert_Some in Hj as [(_ & [=] & _) | [_ Hj]].
    apply list_lookup_insert_Some in Hk as [(_ & [=] & _) | [_ Hk]]. by apply Hd.
Qed.

Lemma table_claim t u u' i fd :
  table_wf t u -> ~ fd_open fd u -> (forall d, fd_open d u' <-> d = fd \/ fd_open d u) ->
  table_wf (<[i := Some (new_OpenFile fd)]> t) u'.
Proof.
  intros [Hl Ho Hd] Hn Hu. split.
  - by rewrite length_insert.
  - intros j g Hj. apply Hu. apply list_lookup_insert_Some in Hj as [(_ & [= <-] & _) | [_ Hj]];
      [by left | right; by eapply Ho].
  - intros j k g h Hj Hk Heq.
    apply list_lookup_insert_Some in Hj as [(<- & [= <-] & _) | [Hj' Hj]];
      apply list_lookup_insert_Some in Hk as [(<- & [= <-] & _) | [Hk' Hk]]; try done.
    + exfalso. apply Hn. simpl in Heq. rewrite Heq. by eapply Ho.
    + exfalso. apply Hn. simpl in Heq. rewrite <- Heq. by eapply Ho.
    + by eapply Hd.
Qed.

Lemma Close_spec t u fd :
  table_wf t u ->
  exists r t' u', FileSystem_Close ux fd (t, u) = Ok (r, (t', u')) /\ table_wf t' u' /\
  ((r = -1 /\ t' = t /\ u' = u /\ (~ 2 <= fd < 20 \/ t !! Z.to_nat fd = Some None)) \/
   (r = 0 /\ 2 <= fd < 20 /\ exists f, t !! Z.to_nat fd = Some (Some f) /\
      t' = <[Z.to_nat fd := None]> t /\ forall d, fd_open d u' <-> d <> file f /\ fd_open d u)).
Proof.
  intros Hwf. unfold FileSystem_Close.
  destruct ((fd <? 2) || (20 <=? fd)) eqn:Er.
  { exists (-1), t, u. split_and!; try done. left. split_and!; try done. left.
    apply orb_true_iff in Er as [? | ?]; bool_prop; lia. }
  bool_prop. unfold mbind, stM_bind. pose proof (table_length _ _ Hwf) as Hl.
  destruct (slot_get t u fd Hl) as (o & Lo & ->); [lia | ]. destruct o as [f | ].
  - destruct (sys_close ux (file f) u) as [r u1] eqn:Ec.
    destruct (close_law _ _ _ _ Ec (table_open _ _ Hwf _ _ Lo)) as [-> Hu].
    unfold on_unix, delete_OpenFile, sysdep_Close, unix. run. rewrite Ec. simpl.
    rewrite slot_set by (done || lia).
    exists 0, (<[Z.to_nat fd := None]> t), u1. split_and!; [done | by eapply table_clear | ].
    right. split_and!; [done | lia | lia | eauto].
  - exists (-1), t, u. split_and!; try done. left. split_and!; try done. by right.
Qed.

Lemma claim_slot_spec n : forall t u i fd,
  length t = 20%nat -> 0 <= i -> i + Z.of_nat n = 20 ->
  exists r t', claim_slot n i fd (t, u) = Ok (r, (t', u)) /\
  match r with
  | Some k => i <= k < 20 /\ t !! Z.to_nat k = Some None /\
      (forall j, i <= j < k -> exists f, t !! Z.to_nat j = Some (Some f)) /\
      t' = <[Z.to_nat k := Some (new_OpenFile fd)]> t
  | None => t' = t /\ forall j, i <= j < 20 -> exists f, t !! Z.to_nat j = Some (Some f)
  end.
Proof.
  induction n as [ | n IH]; intros t u i fd Hl Hi Hn; simpl.
  - exists None, t. split; [done | ]. split; [done | ]. lia.
  - unfold mbind, stM_bind. destruct (slot_get t u i Hl) as (o & Lo & ->); [lia | ].
    destruct o as [f | ].
    + destruct (IH t u (i + 1) fd Hl) as (r & t' & -> & Hr); [lia | lia | ].
      exists r, t'. split; [done | ]. destruct r as [k | ].
      * destruct Hr as (Hk & Lk & Hb & ->). split_and!; [lia | lia | done | | done].
        intros j Hj. destruct (Z.eq_dec j i) as [-> | ]; [eauto | ]. apply Hb. lia.
      * destruct Hr as (-> & Hb). split; [done | ]. intros j Hj.
        destruct (Z.eq_dec j i) as [-> | ]; [eauto | ]. apply Hb. lia.
    + rewrite slot_set by (done || lia). exists (Some i), (<[Z.to_nat i := Some (new_OpenFile fd)]> t).
      split; [done | ]. split_and!; [lia | lia | done | lia | done].
Qed.

#[local] Arguments claim_slot : simpl never.

(** What [Open] promises: the lowest free slot, a fresh file at offset 0, or
    -1 with nothing left open. *)
Definition open_result t u (r : Z) t' u' : Prop :=
  (r = -1 /\ t' = t /\ same_fds u u') \/
  (2 <= r < 20 /\ t !! Z.to_nat r = Some None /\
     (forall j, 2 <= j < r -> exists f, t !! Z.to_nat j = Some (Some f)) /\
     exists fd, ~ fd_open fd u /\ t' = <[Z.to_nat r := Some (new_OpenFile fd)]> t /\
       forall d, fd_open d u' <-> d = fd \/ fd_open d u).

Lemma open_with_spec t u name flags :
  table_wf t u ->
  exists r t' u', open_with ux name flags (t, u) = Ok (r, (t', u')) /\ table_wf t' u' /\
    open_result t u r t' u'.
Proof.
  intros Hwf. pose proof (table_length _ _ Hwf) as Hl.
  unfold open_with, on_unix, unix. run.
  destruct (sys_open ux name flags u) as [fd u1] eqn:Eo.
  destruct (open_law _ _ _ _ _ Eo) as [[-> Hu] | (Hfd & Hn & Hu)].
  - exists (-1), t, u1. split_and!; [done | by eapply table_wf_fds | by left].
  - destruct (Z.eqb_spec fd (-1)); [lia | ].
    destruct (claim_slot_spec 18 t u1 2 fd Hl) as (r & t' & -> & Hr); [lia | lia | ].
    destruct r as [k | ].
    + destruct Hr as (Hk & Lk & Hb & ->). exists k, (<[Z.to_nat k := Some (new_OpenFile fd)]> t), u1.
      split_and!; [done | by eapply table_claim | ]. right. split_and!; [lia | lia | done | done | eauto].
    + destruct Hr as [-> _]. destruct (sys_close ux fd u1) as [c u2] eqn:Ec.
      destruct (close_law _ _ _ _ Ec) as [_ Hu2]; [by apply Hu; left | ].
      assert (Hs : same_fds u u2).
      { intros d. rewrite Hu2, Hu. split; [tauto | ]. intros Hd. split; [by intros -> | by right]. }
      run. rewrite Ec. exists (-1), t, u2. split_and!; [done | by eapply table_wf_fds | by left].
Qed.

(** C18: Open and Close keep the table of open files right and never fail an
    assertion: Open uses the lowest free slot from 2 to 19 for a descriptor
    nobody else holds, with offset 0, and when it fails (no such file, bad
    access type, table full) nothing stays open; Close fails exactly on an
    index outside 2..19 or a free slot and otherwise frees the slot and
    closes its descriptor; get after Open finds the file, and an Open/Close
    pair restores the table. *)
Theorem fd_table_correct t u name accessType :
  table_wf t u ->
  (exists r t1 u1, FileSystem_Open ux name accessType (t, u) = Ok (r, (t1, u1)) /\
     table_wf t1 u1 /\ open_result t u r t1 u1 /\
     (r <> -1 -> exists f, FileSystem_get r (t1, u1) = Ok (Some f, (t1, u1)) /\ currentOffset f = 0 /\
        exists u2, FileSystem_Close ux r (t1, u1) = Ok (0, (t, u2)) /\ same_fds u u2)) /\
  (forall fd, exists r t1 u1, FileSystem_Close ux fd (t, u) = Ok (r, (t1, u1)) /\ table_wf t1 u1 /\
     (r = 0 \/ r = -1) /\
     (r = 0 <-> 2 <= fd < 20 /\ exists f, t !! Z.to_nat fd = Some (Some f)) /\
     (r = 0 -> t1 = <[Z.to_nat fd := None]> t) /\ (r = -1 -> t1 = t /\ u1 = u)).
Proof.
  intros Hwf. pose proof (table_length _ _ Hwf) as Hl. split.
  - assert (Hopen : exists r t1 u1, FileSystem_Open ux name accessType (t, u) = Ok (r, (t1, u1)) /\
      table_wf t1 u1 /\ open_result t u r t1 u1).
    { unfold FileSystem_Open. repeat case_match; try by apply open_with_spec.
      exists (-1), t, u. split_and!; [done | done | by left]. }
    destruct Hopen as (r & t1 & u1 & E & Hwf1 & Hres). exists r, t1, u1. split_and!; try done.
    intros Hr. destruct Hres as [(-> & _) | (Hr2 & Lr & _ & fd & Hn & -> & Hu1)]; [done | ].
    assert (Lf : <[Z.to_nat r := Some (new_OpenFile fd)]> t !! Z.to_nat r = Some (Some (new_OpenFile fd)))
      by (apply list_lookup_insert_eq; lia).
    exists (new_OpenFile fd). split; [ | split; [done | ]].
    { unfold FileSystem_get. rewrite (proj2 (Z.ltb_ge _ _)), (proj2 (Z.leb_gt _ _)) by lia. simpl.
      destruct (slot_get (<[Z.to_nat r := Some (new_OpenFile fd)]> t) u1 r) as (o & Lo & ->);
        [by rewrite length_insert | lia | ]. rewrite Lf in Lo. by injection Lo as <-. }
    destruct (Close_spec _ _ r Hwf1) as (c & t2 & u2 & E2 & _ & [(_ & _ & _ & [? | Hnone]) | Hc]).
    { lia. }
    { rewrite Lf in Hnone. done. }
    destruct Hc as (-> & _ & f & Lf' & -> & Hu2). rewrite Lf in Lf'. injection Lf' as <-.
    exists u2. rewrite E2, list_insert_insert_eq, list_insert_id by done. split; [done | ].
    intros d. rewrite Hu2, Hu1. simpl. split; [tauto | ]. intros Hd. split; [by intros -> | by right].
  - intros fd. destruct (Close_spec t u fd Hwf) as (r & t1 & u1 & E & Hwf1 & Hr).
    exists r, t1, u1. split_and!; try done; destruct Hr as [(-> & -> & -> & Hno) | (-> & H1 & f & Lf & -> & _)];
      auto; try done.
    + split; [done | ]. intros [? [f Lf]]. destruct Hno as [? | Hno]; [lia | ]. rewrite Lf in Hno. done.
    + split; [ | done]. eauto.
Qed.

(** Create closes files it should not: the descriptor that open(2) returned
    is passed to the member function Close, which takes it as an index into
    the table.  When that slot holds an open file, the file is closed and its
    slot freed, and the new descriptor itself stays open for good. *)
Theorem create_closes_open_slot t u name fd u1 f :
  table_wf t u ->
  sys_open ux name (Z.lor (Z.lor O_RDWR O_CREAT) O_TRUNC) u = (fd, u1) ->
  2 <= fd < 20 -> t !! Z.to_nat fd = Some (Some f) ->
  exists u', FileSystem_Create ux name 0 (t, u) = Ok (true, (<[Z.to_nat fd := None]> t, u')) /\
    fd_open fd u' /\ ~ fd_open (file f) u'.
Proof.
  intros Hwf Eo Hfd Lf.
  destruct (open_law _ _ _ _ _ Eo) as [[-> _] | (_ & Hn & Hu)]; [lia | ].
  assert (Hwf1 : table_wf t u1).
  { destruct Hwf as [Hl Ho Hd]. split; [done | | done]. intros i g Hi. apply Hu. right. by eapply Ho. }
  assert (Hne : fd <> file f) by (intros ->; by apply Hn, (table_open _ _ Hwf _ _ Lf)).
  destruct (Close_spec t u1 fd Hwf1) as (c & t2 & u2 & E2 & _ & [(_ & _ & _ & [? | Hnone]) | Hc]);
    [lia | congruence | ].
  destruct Hc as (-> & _ & g & Lg & -> & Hu2). rewrite Lf in Lg. injection Lg as <-.
  exists u2. split_and!.
  - unfold FileSystem_Create, on_unix, OpenForWrite, unix. run. rewrite Eo.
    rewrite (proj2 (Z.leb_le 0 fd)) by lia. simpl.
    destruct (Z.eqb_spec fd (-1)); [lia | ]. by rewrite E2.
  - apply Hu2. split; [done | ]. apply Hu. by left.
  - rewrite Hu2. tauto.
Qed.

Definition inode_of (f : OpenFile) u : Z :=
  match sys_fstat_ino ux (file f) u with Some ino => to_i32 ino | None => -1 end.

Lemma inode_open_spec n : forall t u i inode,
  length t = 20%nat -> 0 <= i -> i + Z.of_nat n = 20 ->
  exists b, inode_open ux n i inode (t, u) = Ok (b, (t, u)) /\
    (b = true <-> exists j f, i <= j < 20 /\ t !! Z.to_nat j = Some (Some f) /\ inode_of f u = inode).
Proof.
  induction n as [ | n IH]; intros t u i inode Hl Hi Hn.
  - exists false. split; [done | ]. split; [done | ]. intros (j & f & Hj & _). lia.
  - cbn [inode_open]. run. destruct (slot_get t u i Hl) as (o & Lo & Eo); [lia | ]. rewrite Eo.
    destruct (IH t u (i + 1) inode Hl) as (b & Eb & Hb); [lia | lia | ].
    destruct o as [f | ]; [unfold on_unix, getInode; run; fold (inode_of f u);
      destruct (Z.eqb_spec inode (inode_of f u)) as [Heq | Hne] | ].
    + exists true. split; [done | ]. split; [ | done]. intros _. exists i, f. split_and!; [lia | lia | done | done].
    + exists b. split; [done | ]. rewrite Hb. split.
      * intros (j & g & Hj & Lj & Gj). exists j, g. split_and!; [lia | lia | done | done].
      * intros (j & g & Hj & Lj & Gj). exists j, g. split; [ | done]. split; [ | lia].
        destruct (Z.eq_dec j i) as [-> | ]; [congruence | lia].
    + exists b. split; [done | ]. rewrite Hb. split.
      * intros (j & g & Hj & Lj & Gj). exists j, g. split_and!; [lia | lia | done | done].
      * intros (j & g & Hj & Lj & Gj). exists j, g. split; [ | done]. split; [ | lia].
        destruct (Z.eq_dec j i) as [-> | ]; [congruence | lia].
Qed.

(** Remove never deletes a file that is open: it leaves the table alone
    and no descriptor behind, answers -1 without calling unlink(2) exactly
    when the name cannot be opened or some slot from 2 to 19 holds a file
    with the same inode, and otherwise answers 1 or 0 as unlink(2) succeeds
    or fails. *)
Theorem remove_spares_open_files t u name fd u1 c u2 :
  table_wf t u ->
  sys_open ux name O_RDONLY u = (fd, u1) -> sys_close ux fd u1 = (c, u2) ->
  exists r u', FileSystem_Remove ux name (t, u) = Ok (r, (t, u')) /\ table_wf t u' /\ same_fds u u' /\
    (r = -1 <-> fd = -1 \/ exists i f, 2 <= i < 20 /\ t !! Z.to_nat i = Some (Some f) /\
       inode_of f u1 = inode_of (new_OpenFile fd) u1) /\
    (r = -1 -> u' = if fd =? -1 then u1 else u2) /\
    (r <> -1 -> (r, u') = (let '(e, v) := sys_unlink ux name u2 in (if e =? 0 then 1 else 0, v))).
Proof.
  intros Hwf Eo Ec. pose proof (table_length _ _ Hwf) as Hl.
  unfold FileSystem_Remove, on_unix, unix, getInode, Unlink. run. rewrite Eo.
  destruct (open_law _ _ _ _ _ Eo) as [[-> Hu] | (Hfd & Hn & Hu)].
  { exists (-1), u1. simpl. split_and!; try done; [by eapply table_wf_fds | by split; [left | ]]. }
  destruct (Z.eqb_spec fd (-1)) as [ | Hne]; [lia | ].
  destruct (close_law _ _ _ _ Ec) as [_ Hu2]; [apply Hu; by left | ].
  assert (Hs : same_fds u u2).
  { intros d. rewrite Hu2, Hu. split; [tauto | ]. intros Hd. split; [by intros -> | by right]. }
  destruct (inode_open_spec 18 t u1 2 (inode_of (new_OpenFile fd) u1) Hl) as (b & Eb & Hb);
    [lia | lia | ].
  cbn [fst snd]. fold (inode_of (new_OpenFile fd) u1). rewrite Eb. cbn [fst snd]. rewrite Ec.
  destruct b.
  - exists (-1), u2. split_and!; try done; [by eapply table_wf_fds | ]. split; [ | done].
    intros _. right. by apply Hb.
  - cbn [fst snd]. unfold unix. destruct (sys_unlink ux name u2) as [e v] eqn:Ee.
    exists (if e =? 0 then 1 else 0), v. pose proof (unlink_law _ _ _ _ Ee) as Hv.
    assert (Hsv : same_fds u v) by (intros d; by rewrite (Hv d), (Hs d)).
    split_and!; [by destruct (e =? 0) | by eapply table_wf_fds | done | .. ].
    + split; [by case_match | ]. intros [? | Hex]; [done | ]. by apply Hb in Hex.
    + by case_match.
    + done.
Qed.

End StubProperties.

(** ** A small host

    An in-memory file system that keeps the laws: names map to inodes, inodes
    to contents, descriptors to an inode, its access mode and a position. *)

Record host := mkHost {
  h_names : gmap (list Z) Z;
  h_data : gmap Z (list Z);
  h_fds : gmap Z (Z * Z * Z)
}.

Definition host_open_fd (d : Z) (h : host) : Prop := is_Some (h_fds h !! d).

(** The lowest free descriptor below 64. *)
Fixpoint lowest_fd (n : nat) (i : Z) (fds : gmap Z (Z * Z * Z)) : option Z :=
  match n with
  | O => None
  | S n' => match fds !! i with None => Some i | Some _ => lowest_fd n' (i + 1) fds end
  end.

(** An inode number that no file has. *)
Definition fresh_inode (data : gmap Z (list Z)) : Z := map_fold (fun i _ m => Z.max i m) 0 data + 1.

Definition host_lookup (name : filename) (flags : Z) (h : host) : option (Z * host) :=
  match h_names h !! name with
  | Some ino =>
      Some (ino, if Z.land flags O_TRUNC =? 0 then h
                 else mkHost (h_names h) (<[ino := []]> (h_data h)) (h_fds h))
  | None =>
      if Z.land flags O_CREAT =? 0 then None
      else
        let ino := fresh_inode (h_data h) in
        Some (ino, mkHost (<[name := ino]> (h_names h)) (<[ino := []]> (h_data h)) (h_fds h))
  end.

Definition host_open (name : filename) (flags : Z) (h : host) : Z * host :=
  match host_lookup name flags h with
  | None => (-1, h)
  | Some (ino, h') =>
      match lowest_fd 64 0 (h_fds h') with
      | None => (-1, h')
      | Some fd => (fd, mkHost (h_names h') (h_data h') (<[fd := (ino, Z.land flags 3, 0)]> (h_fds h')))
      end
  end.

Definition host_close (fd : Z) (h : host) : Z * host :=
  match h_fds h !! fd with
  | Some _ => (0, mkHost (h_names h) (h_data h) (delete fd (h_fds h)))
  | None => (-1, h)
  end.

(** read(2) fails with EBADF on a descriptor open for writing only, write(2)
    on one open for reading only. *)
Definition host_read (fd n : Z) (h : host) : Z * list Z * host :=
  match h_fds h !! fd with
  | Some (ino, fl, pos) =>
      if fl =? 1 then (-1, [], h) else
      let bs := take (Z.to_nat n) (drop (Z.to_nat pos) (default [] (h_data h !! ino))) in
      (Z.of_nat (length bs), bs,
       mkHost (h_names h) (h_data h) (<[fd := (ino, fl, pos + Z.of_nat (length bs))]> (h_fds h)))
  | None => (-1, [], h)
  end.

Definition host_write (fd : Z) (b : list Z) (n : Z) (h : host) : Z * host :=
  match h_fds h !! fd with
  | Some (ino, fl, pos) =>
      if fl =? O_RDONLY then (-1, h) else
      let old := default [] (h_data h !! ino) in
      let bs := take (Z.to_nat n) b in
      let new := take (Z.to_nat pos) (old ++ replicate (Z.to_nat pos - length old) 0) ++ bs ++ drop (Z.to_nat (pos + n)) old in
      (n, mkHost (h_names h) (<[ino := new]> (h_data h)) (<[fd := (ino, fl, pos + n)]> (h_fds h)))
  | None => (-1, h)
  end.

Definition host_lseek (fd o w : Z) (h : host) : Z * host :=
  match h_fds h !! fd with
  | Some (ino, fl, pos) =>
      let base := if w =? 0 then 0 else if w =? 1 then pos
                  else Z.of_nat (length (default [] (h_data h !! ino))) in
      if base + o <? 0 then (-1, h)
      else (base + o, mkHost (h_names h) (h_data h) (<[fd := (ino, fl, base + o)]> (h_fds h)))
  | None => (-1, h)
  end.

Definition host_unlink (name : filename) (h : host) : Z * host :=
  match h_names h !! name with
  | Some ino => (0, mkHost (delete name (h_names h)) (h_data h) (h_fds h))
  | None => (-1, h)
  end.

Definition host_ops : UnixOps host := {|
  sys_open := host_open;
  sys_close := host_close;
  sys_read := host_read;
  sys_write := host_write;
  sys_lseek := host_lseek;
  sys_fstat_ino fd h := match h_fds h !! fd with Some (ino, _, _) => Some ino | None => None end;
  sys_fcntl_getfl fd h := match h_fds h !! fd with Some (_, fl, _) => fl | None => -1 end;
  sys_unlink := host_unlink;
  sys_rand h := (4, h);
  sys_new n h := n <? 2 ^ 31
|}.

#[global] Arguments lowest_fd : simpl never.

Lemma lowest_fd_spec n : forall i fds fd,
  0 <= i -> lowest_fd n i fds = Some fd -> 0 <= fd /\ fds !! fd = None.
Proof.
  induction n as [ | n IH]; intros i fds fd Hi E; [done | ].
  unfold lowest_fd in E; fold lowest_fd in E. case_match; [eapply IH; [ | done]; lia | by simplify_eq].
Qed.

Lemma host_lookup_fds name flags h ino h' :
  host_lookup name flags h = Some (ino, h') -> h_fds h' = h_fds h.
Proof. unfold host_lookup. intros. by repeat case_match; simplify_eq/=. Qed.

Lemma is_Some_insert_present (m : gmap Z (Z * Z * Z)) i x y d :
  m !! i = Some y -> is_Some (<[i := x]> m !! d) <-> is_Some (m !! d).
Proof.
  intros Hi. destruct (decide (d = i)) as [-> | Hne].
  - rewrite lookup_insert_eq, Hi. split; by eexists.
  - by rewrite lookup_insert_ne.
Qed.

#[global] Instance host_laws : UnixLaws host_ops host_open_fd.
Proof.
  split; simpl; unfold host_open_fd.
  - intros name flags h fd h' E. unfold host_open in E.
    destruct (host_lookup name flags h) as [[ino h1] | ] eqn:El; [ | left; by simplify_eq].
    apply host_lookup_fds in El. rewrite El in E.
    destruct (lowest_fd 64 0 (h_fds h)) as [fd' | ] eqn:Ef; simplify_eq/=; [right | left; by rewrite El].
    apply lowest_fd_spec in Ef as [H0 Hn]; [ | lia].
    split_and!; [done | rewrite Hn; by intros [? [=]] | ]. intros d.
    destruct (decide (d = fd)) as [-> | Hne].
    + rewrite lookup_insert_eq. split; [by left | by eexists].
    + rewrite lookup_insert_ne by done. split; [by right | by intros [? | ?]].
  - intros fd h r h' E [x Hx]. unfold host_close in E. rewrite Hx in E. simplify_eq/=.
    split; [done | ]. intros d. destruct (decide (d = fd)) as [-> | Hne].
    + rewrite lookup_delete_eq. split; [by intros [? [=]] | by intros [? _]].
    + rewrite lookup_delete_ne by done. tauto.
  - intros fd n h r h' E d. unfold host_read in E.
    destruct (h_fds h !! fd) as [[[ino fl] pos] | ] eqn:Ef; simplify_eq/=; [ | done].
    case_match; simplify_eq/=; [done | ].
    by eapply is_Some_insert_present.
  - intros fd b n h r h' E d. unfold host_write in E.
    destruct (h_fds h !! fd) as [[[ino fl] pos] | ] eqn:Ef; simplify_eq/=; [ | done].
    case_match; simplify_eq/=; [done | ].
    by eapply is_Some_insert_present.
  - intros fd o w h r h' E d. unfold host_lseek in E.
    destruct (h_fds h !! fd) as [[[ino fl] pos] | ] eqn:Ef; [ | by simplify_eq/=].
    destruct ((if w =? 0 then 0 else if w =? 1 then pos
      else Z.of_nat (length (default [] (h_data h !! ino)))) + o <? 0); simplify_eq/=; [done | ].
    by eapply is_Some_insert_present.
  - intros name h r h' E d. unfold host_unlink in E. by case_match; simplify_eq/=.
Qed.

(** A fresh process: the three standard descriptors, two files. *)
Definition host0 : host :=
  mkHost (<[[97] := 1]> (<[[98] := 2]> ∅)) (<[1 := []]> (<[2 := [104; 105]]> ∅))
    (<[0 := (10, 0, 0)]> (<[1 := (11, 1, 0)]> (<[2 := (12, 1, 0)]> ∅))).

Lemma new_FileSystem_wf : table_wf host_open_fd new_FileSystem host0.
Proof.
  assert (Hn : forall i f, new_FileSystem !! i = Some (Some f) ->
    (i = 0%nat /\ f = new_OpenFile 0) \/ (i = 1%nat /\ f = new_OpenFile 1)).
  { intros [ | [ | i]] f Hi; [left; by simplify_eq/= | right; by simplify_eq/= | ].
    exfalso. change (replicate 18 (None : option OpenFile) !! i = Some (Some f)) in Hi.
    apply lookup_replicate in Hi as [? _]. done. }
  split; [done | | ].
  - intros i f [[-> ->] | [-> ->]]%Hn; by eexists.
  - intros i j f g [[-> ->] | [-> ->]]%Hn [[-> ->] | [-> ->]]%Hn; done.
Qed.

Lemma fd_table_correct_witness :
  exists t1 h1, FileSystem_Open host_ops [98] 0 (new_FileSystem, host0) = Ok (2, (t1, h1)) /\
    table_wf host_open_fd t1 h1.
Proof.
  destruct (fd_table_correct host_ops host_open_fd new_FileSystem host0 [98] 0 new_FileSystem_wf)
    as [(r & t1 & h1 & E & Hwf & _) _].
  assert (Hr : match FileSystem_Open host_ops [98] 0 (new_FileSystem, host0) with
               | Ok (r, _) => r | Fail _ => 0 end = 2) by (vm_compute; reflexivity).
  rewrite E in Hr. subst r. exists t1, h1. split; [exact E | exact Hwf].
Defined.

(** Two files are opened, the first is closed, and a third is created. *)
Definition create_scenario : stM (fd_table * host) Z :=
  a ← FileSystem_Open host_ops [97] 0;
  b ← FileSystem_Open host_ops [98] 0;
  FileSystem_Close host_ops a;;
  mret b.

Definition scenario_table : fd_table :=
  match create_scenario (new_FileSystem, host0) with Ok (_, s) => s.1 | Fail _ => [] end.
Definition scenario_host : host :=
  match create_scenario (new_FileSystem, host0) with Ok (_, s) => s.2 | Fail _ => host0 end.

Lemma scenario_wf : table_wf host_open_fd scenario_table scenario_host.
Proof.
  assert (H : forall s, table_wf host_open_fd s.1 s.2 ->
    wp (fun _ => True) (fun _ s => table_wf host_open_fd s.1 s.2) create_scenario s).
  { intros [t u] Hs. unfold create_scenario.
    assert (HO : forall name ty s, table_wf host_open_fd s.1 s.2 ->
      wp (fun _ => True) (fun _ s => table_wf host_open_fd s.1 s.2) (FileSystem_Open host_ops name ty) s).
    { intros name ty [t' u'] Hwf. unfold FileSystem_Open.
      repeat case_match; try by apply wp_ret.
      - destruct (open_with_spec host_ops host_open_fd t' u' name O_RDONLY Hwf) as (r & t1 & u1 & E & ? & _).
        by eapply wp_ok.
      - destruct (open_with_spec host_ops host_open_fd t' u' name (Z.lor O_RDWR O_CREAT) Hwf)
          as (r & t1 & u1 & E & ? & _). by eapply wp_ok. }
    apply wp_bind. eapply wp_mono; [by apply HO | intros a s1 H1].
    apply wp_bind. eapply wp_mono; [by apply HO | intros b [t2 u2] H2].
    apply wp_bind. destruct (Close_spec host_ops host_open_fd t2 u2 a H2) as (r & t3 & u3 & E & ? & _).
    eapply wp_ok; [exact E | ]. by apply wp_ret. }
  specialize (H (new_FileSystem, host0) new_FileSystem_wf). unfold wp in H.
  unfold scenario_table, scenario_host.
  destruct (create_scenario (new_FileSystem, host0)) as [[b s] | f] eqn:E; [exact H | ].
  assert (Hok : is_ok (create_scenario (new_FileSystem, host0)) = true) by (vm_compute; reflexivity).
  by rewrite E in Hok.
Qed.

Lemma create_closes_open_slot_witness :
  exists h', FileSystem_Create host_ops [99] 0 (scenario_table, scenario_host) =
    Ok (true, (<[3%nat := None]> scenario_table, h')) /\
    scenario_table !! 3%nat = Some (Some (new_OpenFile 4)).
Proof.
  destruct (sys_open host_ops [99] (Z.lor (Z.lor O_RDWR O_CREAT) O_TRUNC) scenario_host)
    as [fd u1] eqn:Eo.
  assert (Hfd : (sys_open host_ops [99] (Z.lor (Z.lor O_RDWR O_CREAT) O_TRUNC) scenario_host).1 = 3)
    by (vm_compute; reflexivity).
  rewrite Eo in Hfd. cbn [fst] in Hfd. subst fd.
  assert (Hs : scenario_table !! 3%nat = Some (Some (new_OpenFile 4))) by (vm_compute; reflexivity).
  destruct (create_closes_open_slot host_ops host_open_fd scenario_table scenario_host [99] 3 u1
    (new_OpenFile 4) scenario_wf Eo ltac:(lia) Hs) as (h' & E & _).
  exists h'. split; [exact E | exact Hs].
Defined.

Lemma remove_spares_open_files_witness :
  exists h', FileSystem_Remove host_ops [98] (scenario_table, scenario_host) =
    Ok (-1, (scenario_table, h')).
Proof.
  destruct (sys_open host_ops [98] O_RDONLY scenario_host) as [fd u1] eqn:Eo.
  destruct (sys_close host_ops fd u1) as [c u2] eqn:Ec.
  destruct (remove_spares_open_files host_ops host_open_fd scenario_table scenario_host [98] fd u1 c u2
    scenario_wf Eo Ec) as (r & u' & E & _).
  assert (Hr : match FileSystem_Remove host_ops [98] (scenario_table, scenario_host) with
               | Ok (r, _) => r | Fail _ => 0 end = -1) by (vm_compute; reflexivity).
  rewrite E in Hr. subst r. exists u'. exact E.
Defined.
