(* ===== verification/Syscall.v ===== *)
(** * System calls (userprog/ksyscall.h, userprog/exception.cc)

    The kernel's side of a trap: the copies between user and kernel memory,
    the console and file system calls, and the dispatch of
    [ExceptionHandler].  The state is the machine and the kernel's own part:
    the status of the interrupt module, the table of open files with the host
    it stands for, and the console.

    The synchronised console is used through the class [Console]: GetChar
    delivers the characters of the input in order, PutChar appends to the
    output.  When the input is used up GetChar does not return: either the
    keyboard is polled for ever, or the input was a file that came to its end,
    no interrupt is pending any more and the idle machine halts. *)

From S2P Require Import Prelude Machine FileSysStub.

Class Console (C : Type) := {
  GetChar : stM C Z;
  PutChar : Z -> stM C unit;
  con_in : C -> list Z;
  con_out : C -> list Z;
  getchar_law k c cs : con_in k = c :: cs ->
    exists k', GetChar k = Ok (c, k') /\ con_in k' = cs /\ con_out k' = con_out k;
  getchar_end k : con_in k = [] -> GetChar k = Fail Waiting \/ GetChar k = Fail Halted;
  getchar_i8 k c k' : GetChar k = Ok (c, k') -> is_i8 c;
  putchar_law k c :
    exists k', PutChar c k = Ok (tt, k') /\ con_in k' = con_in k /\ con_out k' = con_out k ++ [c]
}.

Record Kernel (U C : Type) := mkKernel {
  status : MachineStatus;
  fdTable : list (option OpenFile);
  unix_state : U;
  console : C
}.
Arguments mkKernel {U C} _ _ _ _.
Arguments status {U C} _.
Arguments fdTable {U C} _.
Arguments unix_state {U C} _.
Arguments console {U C} _.

(** [Interrupt::setStatus] *)
Definition setStatus {U C} (st : MachineStatus) (k : Kernel U C) : Kernel U C :=
  mkKernel st (fdTable k) (unix_state k) (console k).

Definition MAX_SIZE : Z := 1024.
Definition INT_MAX : Z := 2147483647.
Definition INT_MIN : Z := - INT_MAX - 1.

(** The texts Overflow and Invalid, each with a newline and the NUL. *)
Definition overflow_error : list Z := [79; 118; 101; 114; 102; 108; 111; 119; 10; 0].
Definition invalid_error : list Z := [73; 110; 118; 97; 108; 105; 100; 10; 0].

Inductive syscall_type : Set :=
  | SC_Halt | SC_Exit | SC_Exec | SC_Join | SC_Create | SC_Remove | SC_Open | SC_Read | SC_Write
  | SC_Seek | SC_Close | SC_ThreadFork | SC_ThreadYield | SC_ExecV | SC_ThreadExit | SC_ThreadJoin
  | SC_Add | SC_ReadNum | SC_PrintNum | SC_RandomNum
  | SC_ReadChar | SC_PrintChar | SC_ReadString | SC_PrintString.

(** userprog/syscall.h: the codes user programs pass in register 2. *)
Definition syscall_codes : list (Z * syscall_type) := [
  (0, SC_Halt); (1, SC_Exit); (2, SC_Exec); (3, SC_Join); (4, SC_Create); (5, SC_Remove);
  (6, SC_Open); (7, SC_Read); (8, SC_Write); (9, SC_Seek); (10, SC_Close); (11, SC_ThreadFork);
  (12, SC_ThreadYield); (13, SC_ExecV); (14, SC_ThreadExit); (15, SC_ThreadJoin); (42, SC_Add);
  (64, SC_ReadNum); (65, SC_PrintNum); (72, SC_RandomNum); (80, SC_ReadChar); (81, SC_PrintChar);
  (82, SC_ReadString); (83, SC_PrintString)].

Definition decode_syscall (type : Z) : option syscall_type :=
  match list_find (fun p => p.1 = type) syscall_codes with
  | Some (_, (_, sc)) => Some sc
  | None => None
  end.

Section Syscalls.
Context {U C : Type} (ux : UnixOps U) `{!Console C}.

Notation St := (Machine * Kernel U C)%type.

(** Steps on the parts of the state. *)
Definition on_console {A} (m : stM C A) : stM St A := fun s =>
  '(a, c) ← m (console s.2);
  mret (a, (s.1, mkKernel (status s.2) (fdTable s.2) (unix_state s.2) c)).

Definition on_files {A} (m : stM (list (option OpenFile) * U) A) : stM St A := fun s =>
  '(a, fs) ← m (fdTable s.2, unix_state s.2);
  mret (a, (s.1, mkKernel (status s.2) fs.1 fs.2 (console s.2))).

(** [Interrupt::Halt]: deletes the kernel and exits. *)
Definition SysHalt : stM St unit := lift (Fail Halted).

Definition SysAdd (op1 op2 : Z) : Z := to_i32 (op1 + op2).

Definition SysReadChar : stM St Z := on_console GetChar.
Definition SysPrintChar (c : Z) : stM St unit := on_console (PutChar c).

(** The loop of [SysReadString], from index [i]. *)
Fixpoint read_string_loop (n : nat) (i : Z) (buffer : list Z) : stM St (list Z) :=
  match n with
  | O => mret buffer
  | S n' =>
      c ← SysReadChar;
      buffer ← lift (zset buffer i c);
      if (c =? 0) || (c =? 10) then lift (zset buffer i 0)
      else read_string_loop n' (i + 1) buffer
  end.

Definition SysReadString (buffer : list Z) (length : Z) : stM St (list Z) :=
  read_string_loop (Z.to_nat length) 0 buffer.

(** The loop of [SysPrintString]; the fuel exceeds the buffer's length. *)
Fixpoint print_string_loop (fuel : nat) (i : Z) (buffer : list Z) : stM St unit :=
  match fuel with
  | O => lift (Fail OutOfFuel)
  | S f =>
      c ← lift (zget buffer i);
      if c =? 0 then mret tt
      else SysPrintChar c;; print_string_loop f (i + 1) buffer
  end.

Definition SysPrintString (buffer : list Z) : stM St unit :=
  print_string_loop (S (length buffer)) 0 buffer.

(** The loop that finds the first NUL or newline. *)
Fixpoint scan_len (fuel : nat) (i : Z) (buffer : list Z) : res Z :=
  match fuel with
  | O => Fail OutOfFuel
  | S f =>
      c ← zget buffer i;
      if negb (c =? 0) && negb (c =? 10) then scan_len f (i + 1) buffer else mret i
  end.

Definition MAX_INT_DIV_10 : Z := 214748364.

(** The digit loop of [SysReadNum]: [inl] is an early return. *)
Fixpoint read_digits (n : nat) (i : Z) (buffer : list Z) (negative : bool) (number : Z)
    : stM St (Z + Z) :=
  match n with
  | O => mret (inr number)
  | S n' =>
      c ← lift (zget buffer i);
      if (c <? 48) || (57 <? c) then SysPrintString invalid_error;; mret (inl 0)
      else if (MAX_INT_DIV_10 <? number) || ((number =? MAX_INT_DIV_10) && (55 <? c)) then
        if (number =? MAX_INT_DIV_10) && (c =? 56) && negative then mret (inl INT_MIN)
        else SysPrintString overflow_error;; mret (inl 0)
      else read_digits n' (i + 1) buffer negative (number * 10 + (c - 48))
  end.

(** The initial contents of the buffer do not matter: a position is read only
    after it was written, or it lies outside. *)
Definition SysReadNum : stM St Z :=
  let max_len := 11 in
  buffer ← SysReadString (replicate 12 0) (max_len + 1);
  len ← lift (scan_len 13 0 buffer);
  if len =? 0 then SysPrintString invalid_error;; mret INT_MIN
  else
    c ← lift (zget buffer 0);
    let negative := c =? 45 in
    let start := if negative then 1 else 0 in
    r ← read_digits (Z.to_nat (len - start)) start buffer negative 0;
    match r with
    | inl v => mret v
    | inr number => mret (if negative then - number else number)
    end.

(** [while (tmp) { tmp = tmp/10; ++len; }]; ten steps suffice for an int. *)
Fixpoint count_digits (fuel : nat) (tmp len : Z) : res Z :=
  match fuel with
  | O => Fail OutOfFuel
  | S f => if tmp =? 0 then mret len else count_digits f (Z.quot tmp 10) (len + 1)
  end.

(** [for (i = len - 1; i >= start; --i)], [n] iterations. *)
Fixpoint fill_digits (n : nat) (i tmp : Z) (buf : list Z) : res (list Z) :=
  match n with
  | O => mret buf
  | S n' => buf ← zset buf i (Z.rem tmp 10 + 48); fill_digits n' (i - 1) (Z.quot tmp 10) buf
  end.

(** The contents of [numToStr] when it is printed. *)
Definition num_to_str (number : Z) : res (list Z) :=
  let numToStr := replicate 12 0 in
  if number =? 0 then zset numToStr 0 48
  else if number =? INT_MIN then
    mret [45; 50; 49; 52; 55; 52; 56; 51; 54; 52; 56; 0]
  else
    '(len, number, start, numToStr) ←
      (if number <? 0 then
         b ← zset numToStr 0 45; mret (1, - number, 1, b)
       else mret (0, number, 0, numToStr));
    len ← count_digits 11 number len;
    fill_digits (Z.to_nat (len - start)) (len - 1) number numToStr.

Definition SysPrintNum (number : Z) : stM St unit :=
  numToStr ← lift (num_to_str number);
  SysPrintString numToStr.

Definition SysRandomNum : stM St Z :=
  r ← on_files (on_unix (unix (sys_rand ux)));
  mret (to_i32 r).

(** [strlen]: the characters before the NUL. *)
Fixpoint c_string (buffer : list Z) : list Z :=
  match buffer with
  | [] => []
  | c :: cs => if c =? 0 then [] else c :: c_string cs
  end.

Definition write_result (v : Z) : stM St unit := WriteRegister 2 v.

Definition SysCreate (name : list Z) : stM St unit :=
  if Z.of_nat (length (c_string name)) =? 0 then write_result (-1)
  else
    b ← on_files (FileSystem_Create ux (c_string name) 0);
    if (b : bool) then write_result 0 else write_result (-1).

Definition SysRemove (name : list Z) : stM St unit :=
  if Z.of_nat (length (c_string name)) =? 0 then write_result (-1)
  else
    r ← on_files (FileSystem_Remove ux (c_string name));
    if r =? 1 then write_result 0 else write_result (-1).

(** [of->Read], [of->Write] and [of->Seek] change the object the table points
    to. *)
Definition SysRead (length fd : Z) : stM St (Z * list Z) := on_files (
  o ← FileSystem_get fd;
  match o with
  | None => mret (-1, [])
  | Some f =>
      ok ← on_unix (isReadable ux f);
      if negb ok then mret (-1, [])
      else
        '(value, bytes, f') ← on_unix (OpenFile_Read ux f length);
        set_slot fd (Some f');;
        mret (value, bytes)
  end).

Definition SysWrite (buffer : list Z) (length fd : Z) : stM St Z := on_files (
  o ← FileSystem_get fd;
  match o with
  | None => mret (-1)
  | Some f =>
      ok ← on_unix (isWritable ux f);
      if negb ok then mret (-1)
      else
        '(value, f') ← on_unix (OpenFile_Write ux f buffer length);
        set_slot fd (Some f');;
        mret value
  end).

Definition SysSeek (position fd : Z) : stM St Z := on_files (
  o ← FileSystem_get fd;
  match o with
  | None => mret (-1)
  | Some f =>
      '(value, f') ← on_unix (OpenFile_Seek ux f position);
      set_slot fd (Some f');;
      mret value
  end).

Definition SysOpen (fileName : list Z) (accessType : Z) : stM St Z :=
  on_files (FileSystem_Open ux (c_string fileName) accessType).

Definition SysClose (fd : Z) : stM St Z := on_files (FileSystem_Close ux fd).

(** ** Faults of the kernel's own memory accesses

    The non-syscall half of [ExceptionHandler].  ReadMem and WriteMem called
    by the kernel raise only these. *)
Definition FaultHandler (which : ExceptionType) : stM St unit :=
  match which with
  | NoException => modify (fun s => (s.1, setStatus SystemMode s.2))
  | PageFaultException | ReadOnlyException | BusErrorException | AddressErrorException
  | OverflowException | IllegalInstrException | NumExceptionTypes => SysHalt
  | SyscallException => lift (Fail AssertFail)
  end.

Definition kReadMem (addr size : Z) : stM St (option Z) := ReadMem setStatus FaultHandler addr size.
Definition kWriteMem (addr size v : Z) : stM St bool := WriteMem setStatus FaultHandler addr size v.

(** [new char[n]]: with a negative [n], or when the host has no memory, it
    throws. *)
Definition new_chars (n : Z) : stM St (list Z) :=
  u ← gets (fun s => unix_state s.2);
  lift (if (n <? 0) || negb (sys_new ux n u) then Fail Uncaught else mret (replicate (Z.to_nat n) 0)).

(** The loop of [User2System].  [oneChar] is not initialised, so a read that
    failed and yet returned would use garbage. *)
Fixpoint user2system_loop (n : nat) (i virtualAddress : Z) (keepNULL : bool) (kernelBuffer : list Z)
    : stM St (list Z) :=
  match n with
  | O => mret kernelBuffer
  | S n' =>
      v ← kReadMem (to_i32 (virtualAddress + i)) 1;
      match v with
      | None => lift (Fail Undefined)
      | Some oneChar =>
          kernelBuffer ← lift (zset kernelBuffer i (to_i8 oneChar));
          if (oneChar =? 0) && negb keepNULL then mret kernelBuffer
          else user2system_loop n' (i + 1) virtualAddress keepNULL kernelBuffer
      end
  end.

Definition User2System (virtualAddress limit : Z) (keepNULL : bool) : stM St (list Z) :=
  kernelBuffer ← new_chars (to_i32 (limit + 1));
  user2system_loop (Z.to_nat limit) 0 virtualAddress keepNULL kernelBuffer.

(** The do-while loop of [System2User]: [n] is len - i. *)
Fixpoint system2user_loop (n : nat) (i virtAddr : Z) (buffer : list Z) (keepNULL : bool) : stM St Z :=
  match n with
  | O => mret i
  | S n' =>
      oneChar ← lift (zget buffer i);
      kWriteMem (to_i32 (virtAddr + i)) 1 oneChar;;
      if negb (oneChar =? 0) || keepNULL then system2user_loop n' (i + 1) virtAddr buffer keepNULL
      else mret (i + 1)
  end.

Definition System2User (virtAddr len : Z) (buffer : list Z) (keepNULL : bool) : stM St Z :=
  if len <? 0 then mret (-1)
  else if len =? 0 then mret len
  else system2user_loop (Z.to_nat len) 0 virtAddr buffer keepNULL.

(** ** The system calls *)

Definition SystemCallAdd : stM St unit :=
  a ← ReadRegister 4;
  b ← ReadRegister 5;
  WriteRegister 2 (SysAdd a b).

Definition SystemCallReadNum : stM St unit := result ← SysReadNum; WriteRegister 2 result.

Definition SystemCallPrintNum : stM St unit := n ← ReadRegister 4; SysPrintNum n.

Definition SystemCallRandomNum : stM St unit := result ← SysRandomNum; WriteRegister 2 result.

Definition SystemCallReadChar : stM St unit := tmp ← SysReadChar; WriteRegister 2 tmp.

Definition SystemCallPrintChar : stM St unit := tmp ← ReadRegister 4; SysPrintChar (to_i8 tmp).

Definition SystemCallReadString : stM St unit :=
  virtualAddr ← ReadRegister 4;
  length ← ReadRegister 5;
  if (length <? 0) || (MAX_SIZE <=? length) then SysPrintString invalid_error;; SysHalt
  else
    buffer ← new_chars length;
    buffer ← SysReadString buffer length;
    System2User virtualAddr length buffer false;;
    mret tt.

(** The while loop of [SystemCallPrintString]: a chunk of MAX_SIZE per step. *)
Fixpoint print_chunks (fuel : nat) (virtualAddr : Z) : stM St unit :=
  match fuel with
  | O => lift (Fail OutOfFuel)
  | S f =>
      buffer ← User2System virtualAddr MAX_SIZE false;
      SysPrintString buffer;;
      c ← lift (zget buffer (MAX_SIZE - 1));
      if c =? 0 then mret tt else print_chunks f (to_i32 (virtualAddr + MAX_SIZE))
  end.

(** User memory holds sixteen chunks; the seventeenth read faults. *)
Definition SystemCallPrintString : stM St unit :=
  virtualAddr ← ReadRegister 4;
  print_chunks (Z.to_nat (MemorySize / MAX_SIZE) + 1) virtualAddr.

Definition SystemCallCreate : stM St unit :=
  bufferWrite ← ReadRegister 4;
  tempWrite ← User2System bufferWrite MAX_SIZE false;
  SysCreate tempWrite.

Definition SystemCallRemove : stM St unit :=
  bufferWrite ← ReadRegister 4;
  tempWrite ← User2System bufferWrite MAX_SIZE false;
  SysRemove tempWrite.

(** The console loop of [SystemCallRead]: characters up to EOF. *)
Fixpoint read_console (n : nat) (i : Z) (buffer : list Z) : stM St (Z * list Z) :=
  match n with
  | O => mret (i, buffer)
  | S n' =>
      c ← SysReadChar;
      buffer ← lift (zset buffer i c);
      if c =? -1 then buffer ← lift (zset buffer i 0); mret (i, buffer)
      else read_console n' (i + 1) buffer
  end.

Definition SystemCallRead : stM St unit :=
  virtAddr ← ReadRegister 4;
  length ← ReadRegister 5;
  fd ← ReadRegister 6;
  buffer ← new_chars length;
  if (fd =? 1) || (fd <? 0) then SysPrintString invalid_error;; WriteRegister 2 (-1)
  else if fd =? 0 then
    '(i, buffer) ← read_console (Z.to_nat length) 0 buffer;
    System2User virtAddr i buffer true;;
    WriteRegister 2 i
  else
    '(result, bytes) ← SysRead length fd;
    (if negb (result =? -1) then System2User virtAddr result bytes false;; mret tt else mret tt);;
    WriteRegister 2 result.

(** [for (i = 0; i < length; i++) out->PutChar(buffer[i])] *)
Fixpoint write_console (n : nat) (i : Z) (buffer : list Z) : stM St unit :=
  match n with
  | O => mret tt
  | S n' => c ← lift (zget buffer i); SysPrintChar c;; write_console n' (i + 1) buffer
  end.

Definition SystemCallWrite : stM St unit :=
  virtAddr ← ReadRegister 4;
  length ← ReadRegister 5;
  fd ← ReadRegister 6;
  buffer ← User2System virtAddr length true;
  if fd <=? 0 then SysPrintString invalid_error;; WriteRegister 2 (-1)
  else if fd =? 1 then
    write_console (Z.to_nat length) 0 buffer;;
    WriteRegister 2 length
  else
    result ← SysWrite buffer length fd;
    WriteRegister 2 result.

Definition SystemCallSeek : stM St unit :=
  position ← ReadRegister 4;
  fd ← ReadRegister 5;
  if fd <? 2 then SysPrintString invalid_error;; WriteRegister 2 (-1)
  else result ← SysSeek position fd; WriteRegister 2 result.

Definition SystemCallOpen : stM St unit :=
  virtAddr ← ReadRegister 4;
  accessType ← ReadRegister 5;
  buffer ← User2System virtAddr MAX_SIZE false;
  result ← SysOpen buffer accessType;
  WriteRegister 2 result.

Definition SystemCallClose : stM St unit :=
  fd ← ReadRegister 4;
  result ← SysClose fd;
  WriteRegister 2 result.

(** ** userprog/exception.cc *)

Definition ProcessPCRegister : stM St unit :=
  pc ← ReadRegister PCReg;
  WriteRegister PrevPCReg pc;;
  pc ← ReadRegister PCReg;
  WriteRegister PCReg (to_i32 (pc + 4));;
  pc ← ReadRegister PCReg;
  WriteRegister NextPCReg (to_i32 (pc + 4)).

(** A case that does its work, advances the PC and returns. *)
Definition served (call : stM St unit) : stM St unit := call;; ProcessPCRegister.

(** The inner switch.  The cases of SC_Exit to SC_Join fall through to
    SC_Create, those of SC_ThreadFork to SC_ThreadJoin to SC_Halt. *)
Definition SyscallHandler (type : Z) : stM St unit :=
  let create := served SystemCallCreate in
  let halt := SysHalt;; lift (Fail AssertFail) in
  match decode_syscall type with
  | Some SC_Exit => ProcessPCRegister;; ProcessPCRegister;; ProcessPCRegister;; create
  | Some SC_Exec => ProcessPCRegister;; ProcessPCRegister;; create
  | Some SC_Join => ProcessPCRegister;; create
  | Some SC_Create => create
  | Some SC_Remove => served SystemCallRemove
  | Some SC_Open => served SystemCallOpen
  | Some SC_Read => served SystemCallRead
  | Some SC_Write => served SystemCallWrite
  | Some SC_Seek => served SystemCallSeek
  | Some SC_Close => served SystemCallClose
  | Some SC_ThreadFork =>
      ProcessPCRegister;; ProcessPCRegister;; ProcessPCRegister;; ProcessPCRegister;;
      ProcessPCRegister;; halt
  | Some SC_ThreadYield =>
      ProcessPCRegister;; ProcessPCRegister;; ProcessPCRegister;; ProcessPCRegister;; halt
  | Some SC_ExecV => ProcessPCRegister;; ProcessPCRegister;; ProcessPCRegister;; halt
  | Some SC_ThreadExit => ProcessPCRegister;; ProcessPCRegister;; halt
  | Some SC_ThreadJoin => ProcessPCRegister;; halt
  | Some SC_Halt => halt
  | Some SC_Add => served SystemCallAdd
  | Some SC_ReadChar => served SystemCallReadChar
  | Some SC_PrintChar => served SystemCallPrintChar
  | Some SC_ReadString => served SystemCallReadString
  | Some SC_PrintString => served SystemCallPrintString
  | Some SC_ReadNum => served SystemCallReadNum
  | Some SC_PrintNum => served SystemCallPrintNum
  | Some SC_RandomNum => served SystemCallRandomNum
  | None => lift (Fail AssertFail)
  end.

(** [ExceptionHandler]; the cases that reach the end of the outer switch fail
    the last ASSERTNOTREACHED, after Halt would have exited. *)
Definition ExceptionHandler (which : ExceptionType) : stM St unit :=
  type ← ReadRegister 2;
  match which with
  | SyscallException => SyscallHandler type
  | _ => FaultHandler which
  end.

End Syscalls.
