(* ===== verification/SyscallNum.v ===== *)
(** * Console system calls: strings and numbers

    [SysPrintString], [SysReadString], [SysReadNum] and [SysPrintNum]
    (userprog/ksyscall.h) against what they mean on the console's streams. *)

From S2P Require Import Prelude Machine FileSysStub Syscall.

Section ConsoleCalls.
Context {U C : Type} `{!Console C}.

Notation St := (Machine * Kernel U C)%type.
Implicit Types (s : St).

(** [s'] is [s] after the console consumed input down to [inp] and printed [txt]. *)
Record console_step s (inp txt : list Z) (s' : St) : Prop := {
  cs_machine : s'.1 = s.1;
  cs_status : status s'.2 = status s.2;
  cs_files : fdTable s'.2 = fdTable s.2;
  cs_unix : unix_state s'.2 = unix_state s.2;
  cs_in : con_in (console s'.2) = inp;
  cs_out : con_out (console s'.2) = con_out (console s.2) ++ txt
}.

Definition input s : list Z := con_in (console s.2).

Lemma console_step_refl s : console_step s (input s) [] s.
Proof. split; try done. by rewrite app_nil_r. Qed.

Lemma console_step_trans s i1 t1 s1 i2 t2 s2 :
  console_step s i1 t1 s1 -> console_step s1 i2 t2 s2 -> console_step s i2 (t1 ++ t2) s2.
Proof.
  intros [] []. split; try congruence. rewrite app_assoc. congruence.
Qed.

Lemma SysPrintChar_spec s c :
  exists s', SysPrintChar c s = Ok (tt, s') /\ console_step s (input s) [c] s'.
Proof.
  destruct (putchar_law (console s.2) c) as (k' & E & Hi & Ho).
  unfold SysPrintChar, on_console. rewrite E. eexists. split; [done | ]. by split.
Qed.

Lemma SysReadChar_spec s c cs :
  input s = c :: cs -> exists s', SysReadChar s = Ok (c, s') /\ console_step s cs [] s'.
Proof.
  intros Hi. destruct (getchar_law (console s.2) c cs Hi) as (k' & E & Hin & Ho).
  unfold SysReadChar, on_console. rewrite E. eexists. split; [done | ].
  split; try done. simpl. by rewrite app_nil_r.
Qed.

(** A buffer that holds the C string [txt]. *)
Definition holds (buffer : list Z) (txt : list Z) : Prop :=
  exists rest, buffer = txt ++ 0 :: rest /\ Forall (fun c => c <> 0) txt.

Lemma holds_c_string buffer txt : holds buffer txt -> c_string buffer = txt.
Proof.
  intros (rest & -> & Hnz). induction Hnz as [ | c txt Hc _ IH]; simpl; [done | ].
  destruct (Z.eqb_spec c 0); [done | ]. by rewrite IH.
Qed.

Lemma zget_app_r (pre : list Z) c post : zget (pre ++ c :: post) (Z.of_nat (length pre)) = Ok c.
Proof. apply zget_lookup; [lia | ]. rewrite Nat2Z.id. by apply list_lookup_middle. Qed.

Lemma zset_app_r (pre : list Z) c post v :
  zset (pre ++ c :: post) (Z.of_nat (length pre)) v = Ok (pre ++ v :: post).
Proof.
  rewrite zset_in_range by (rewrite length_app; simpl; lia). rewrite Nat2Z.id.
  by rewrite insert_app_r_alt, Nat.sub_diag by lia.
Qed.

Lemma print_string_loop_spec txt : forall fuel pre rest s,
  Forall (fun c => c <> 0) txt -> (length txt < fuel)%nat ->
  exists s', print_string_loop fuel (Z.of_nat (length pre)) (pre ++ txt ++ 0 :: rest) s = Ok (tt, s') /\
    console_step s (input s) txt s'.
Proof.
  induction txt as [ | c txt IH]; intros fuel pre rest s Hnz Hf;
    (destruct fuel as [ | f]; [simpl in Hf; lia | ]); cbn [print_string_loop]; run.
  - simpl. rewrite zget_app_r. exists s. split; [done | apply console_step_refl].
  - apply Forall_cons in Hnz as [Hc Hnz]. simpl. rewrite zget_app_r.
    destruct (Z.eqb_spec c 0); [done | ].
    destruct (SysPrintChar_spec s c) as (s1 & -> & H1).
    destruct (IH f (pre ++ [c]) rest s1 Hnz) as (s2 & E2 & H2); [simpl in Hf; lia | ].
    rewrite length_app, <- app_assoc in E2. simpl in E2.
    replace (Z.of_nat (length pre + 1)) with (Z.of_nat (length pre) + 1) in E2 by lia.
    rewrite E2. exists s2. split; [done | ].
    change (c :: txt) with ([c] ++ txt). eapply console_step_trans; [done | ].
    unfold input in H2. by rewrite (cs_in _ _ _ _ H1) in H2.
Qed.

Lemma SysPrintString_spec buffer txt s :
  holds buffer txt ->
  exists s', SysPrintString buffer s = Ok (tt, s') /\ console_step s (input s) txt s'.
Proof.
  intros (rest & -> & Hnz). unfold SysPrintString.
  apply (print_string_loop_spec txt _ [] rest s Hnz). rewrite length_app. simpl. lia.
Qed.

(** ** Reading a line *)

(** A character that ends the line. *)
Definition ends_line (c : Z) : bool := (c =? 0) || (c =? 10).

Lemma read_string_loop_spec line : forall n pre post term rest s,
  Forall (fun c => ends_line c = false) line -> ends_line term = true ->
  (length line < n)%nat -> length post = n ->
  input s = line ++ term :: rest ->
  exists s' tail, read_string_loop n (Z.of_nat (length pre)) (pre ++ post) s =
      Ok (pre ++ line ++ 0 :: tail, s') /\
    console_step s rest [] s' /\ S (length line + length tail) = n.
Proof.
  induction line as [ | c line IH]; intros n pre post term rest s Hl Ht Hn Hp Hin;
    (destruct n as [ | n]; [simpl in Hn; lia | ]); destruct post as [ | p post]; try done;
    cbn [read_string_loop]; run.
  - destruct (SysReadChar_spec s term rest Hin) as (s1 & -> & H1). rewrite zset_app_r.
    unfold ends_line in Ht. rewrite Ht, zset_app_r. exists s1, post.
    split_and!; [done | done | simpl in *; lia].
  - apply Forall_cons in Hl as [Hc Hl]. simpl in Hin.
    destruct (SysReadChar_spec s c _ Hin) as (s1 & -> & H1). rewrite zset_app_r.
    unfold ends_line in Hc. rewrite Hc.
    destruct (IH n (pre ++ [c]) post term rest s1 Hl Ht) as (s2 & tail & E2 & H2 & Hlen);
      [simpl in Hn; lia | simpl in Hp; lia | by apply (cs_in _ _ _ _ H1) | ].
    rewrite length_app, <- !app_assoc in E2. simpl in E2.
    replace (Z.of_nat (length pre + 1)) with (Z.of_nat (length pre) + 1) in E2 by lia.
    rewrite E2. exists s2, tail. split_and!; [done | | simpl; lia].
    change (@nil Z) with (@nil Z ++ []). by eapply console_step_trans.
Qed.

Lemma SysReadString_spec line term rest s n :
  Forall (fun c => ends_line c = false) line -> ends_line term = true ->
  Z.of_nat (length line) < n -> input s = line ++ term :: rest ->
  exists s' buffer, SysReadString (replicate (Z.to_nat n) 0) n s = Ok (buffer, s') /\
    console_step s rest [] s' /\ length buffer = Z.to_nat n /\ exists tail, buffer = line ++ 0 :: tail.
Proof.
  intros Hl Ht Hn Hin. unfold SysReadString.
  destruct (read_string_loop_spec line (Z.to_nat n) [] (replicate (Z.to_nat n) 0) term rest s)
    as (s' & tail & E & Hs & Hlen); [done | done | lia | apply length_replicate | done | ].
  exists s', (line ++ 0 :: tail). split_and!; [done | done | | eauto].
  rewrite length_app. simpl. lia.
Qed.

Lemma scan_len_spec line : forall fuel pre tail,
  Forall (fun c => ends_line c = false) line -> (length line < fuel)%nat ->
  scan_len fuel (Z.of_nat (length pre)) (pre ++ line ++ 0 :: tail) =
  Ok (Z.of_nat (length pre + length line)).
Proof.
  induction line as [ | c line IH]; intros fuel pre tail Hl Hf;
    (destruct fuel as [ | f]; [simpl in Hf; lia | ]); cbn [scan_len]; rsimp.
  - simpl. rewrite zget_app_r. rsimp. simpl. by rewrite Nat.add_0_r.
  - apply Forall_cons in Hl as [Hc Hl]. simpl. rewrite zget_app_r. rsimp.
    unfold ends_line in Hc. bool_prop. rewrite (proj2 (Z.eqb_neq c 0)), (proj2 (Z.eqb_neq c 10)) by done.
    simpl. specialize (IH f (pre ++ [c]) tail Hl). rewrite length_app, <- app_assoc in IH. simpl in IH.
    replace (Z.of_nat (length pre) + 1) with (Z.of_nat (length pre + 1)) by lia.
    rewrite IH by (simpl in Hf; lia). f_equal. lia.
Qed.

(** ** Numbers *)

Definition is_digit (c : Z) : bool := (48 <=? c) && (c <=? 57).

Fixpoint decimal (n : Z) (ds : list Z) : Z :=
  match ds with
  | [] => n
  | d :: ds' => decimal (n * 10 + (d - 48)) ds'
  end.

(** The number a line denotes: an optional minus sign and digits, within the
    range of an int; 0 for anything else that is not empty. *)
Definition num_spec (line : list Z) : Z :=
  match line with
  | [] => INT_MIN
  | c :: cs =>
      let '(negative, ds) := if c =? 45 then (true, cs) else (false, line) in
      let v := if negative then - decimal 0 ds else decimal 0 ds in
      if forallb is_digit ds && bool_decide (is_i32 v) then v else 0
  end.

(** The digits a line starts with. *)
Fixpoint leading (ds : list Z) : list Z :=
  match ds with
  | [] => []
  | d :: ds' => if is_digit d then d :: leading ds' else []
  end.

Definition invalid_text : list Z := [73; 110; 118; 97; 108; 105; 100; 10].
Definition overflow_text : list Z := [79; 118; 101; 114; 102; 108; 111; 119; 10].

(** What is printed for the digits [ds] when [number] has been seen: Overflow
    if the digits they start with leave the range of an int, else Invalid if
    another character follows them, else nothing. *)
Definition digits_message (negative : bool) (number : Z) (ds : list Z) : list Z :=
  let v := if negative then - decimal number (leading ds) else decimal number (leading ds) in
  if negb (bool_decide (is_i32 v)) then overflow_text
  else if forallb is_digit ds then [] else invalid_text.

(** What is printed for a line. *)
Definition num_message (line : list Z) : list Z :=
  match line with
  | [] => invalid_text
  | c :: cs => if c =? 45 then digits_message true 0 cs else digits_message false 0 line
  end.

Lemma leading_digits ds : forallb is_digit (leading ds) = true.
Proof. induction ds as [ | d ds IH]; simpl; [done | ]. destruct (is_digit d) eqn:E; simpl; [by rewrite E | done]. Qed.

Lemma decimal_mono ds : forall n, 0 <= n -> forallb is_digit ds = true -> n <= decimal n ds.
Proof.
  induction ds as [ | d ds IH]; intros n Hn Hd; simpl in *; [lia | ].
  apply andb_true_iff in Hd as [Hd Hds]. unfold is_digit in Hd. bool_prop.
  specialize (IH (n * 10 + (d - 48)) ltac:(lia) Hds). lia.
Qed.

Lemma invalid_holds : holds invalid_error [73; 110; 118; 97; 108; 105; 100; 10].
Proof. exists []. split; [done | ]. repeat constructor; done. Qed.

Lemma overflow_holds : holds overflow_error [79; 118; 101; 114; 102; 108; 111; 119; 10].
Proof. exists []. split; [done | ]. repeat constructor; done. Qed.

(** The answer of the digit loop for the digits [ds] still to come, when it
    has seen [number]. *)
Definition digits_result (negative : bool) (number : Z) (ds : list Z) : Z :=
  let v := if negative then - decimal number ds else decimal number ds in
  if forallb is_digit ds && bool_decide (is_i32 v) then v else 0.

Definition finish (negative : bool) (r : Z + Z) : Z :=
  match r with inl v => v | inr number => if negative then - number else number end.

Lemma digits_result_overflow (negative : bool) number ds :
  0 <= number -> (if negative then 2 ^ 31 < number else 2 ^ 31 <= number) ->
  digits_result negative number ds = 0.
Proof.
  intros Hn Hbig. unfold digits_result.
  destruct (forallb is_digit ds) eqn:Hd; simpl; [ | done].
  pose proof (decimal_mono ds number Hn Hd). destruct negative;
    (rewrite bool_decide_eq_false_2; [done | unfold is_i32; lia]).
Qed.

Lemma digits_message_overflow (negative : bool) number ds :
  0 <= number -> (if negative then 2 ^ 31 < number else 2 ^ 31 <= number) ->
  digits_message negative number ds = overflow_text.
Proof.
  intros Hn Hbig. unfold digits_message.
  pose proof (decimal_mono (leading ds) number Hn (leading_digits ds)).
  destruct negative; (rewrite bool_decide_eq_false_2; [done | unfold is_i32; lia]).
Qed.

Lemma read_digits_spec ds : forall pre tail s (negative : bool) number seen,
  0 <= number <= INT_MAX -> number < 10 ^ seen -> 0 <= seen ->
  seen + Z.of_nat (length ds) <= (if negative then 10 else 11) ->
  exists r s',
    read_digits (length ds) (Z.of_nat (length pre)) (pre ++ ds ++ tail) negative number s = Ok (r, s') /\
    finish negative r = digits_result negative number ds /\
    console_step s (input s) (digits_message negative number ds) s'.
Proof.
  induction ds as [ | c ds IH]; intros pre tail s negative number seen Hn Hp Hs Hlen.
  - assert (Hi : is_i32 number /\ is_i32 (- number)) by (unfold INT_MAX in Hn; split; cint). destruct Hi.
    exists (inr number), s. unfold digits_result, digits_message. simpl.
    destruct negative; rewrite bool_decide_eq_true_2 by done; split_and!; try done; apply console_step_refl.
  - cbn [read_digits length]. run. simpl ((c :: ds) ++ tail). rewrite zget_app_r.
    destruct ((c <? 48) || (57 <? c)) eqn:Ed.
    { destruct (SysPrintString_spec _ _ s invalid_holds) as (s' & -> & Hs').
      assert (Hnd : is_digit c = false).
      2: { exists (inl 0), s'. unfold digits_result, digits_message. simpl. rewrite Hnd. simpl.
           rewrite bool_decide_eq_true_2 by (unfold INT_MAX in Hn; destruct negative; cint). done. }
      unfold is_digit. apply orb_true_iff in Ed as [Ed | Ed]; bool_prop; apply andb_false_iff;
        [left | right]; apply Z.leb_gt; lia. }
    bool_prop. assert (Hdig : is_digit c = true).
    { unfold is_digit. apply andb_true_iff; split; apply Z.leb_le; lia. }
    assert (Hstep : digits_result negative number (c :: ds) =
                    digits_result negative (number * 10 + (c - 48)) ds /\
                    digits_message negative number (c :: ds) =
                    digits_message negative (number * 10 + (c - 48)) ds).
    { unfold digits_result, digits_message. simpl. by rewrite Hdig. }
    destruct Hstep as [-> ->]. unfold MAX_INT_DIV_10, INT_MAX, INT_MIN in *.
    destruct ((214748364 <? number) || ((number =? 214748364) && (55 <? c))) eqn:Eo.
    + destruct ((number =? 214748364) && (c =? 56) && negative) eqn:Em.
      * bool_prop. subst number c negative. exists (inl (- INT_MAX - 1)), s.
        assert (ds = []) as ->; [ | split_and!; [done | done | apply console_step_refl]].
        assert (9 <= seen).
        { destruct (Z.lt_ge_cases seen 9) as [Hlt | ]; [exfalso | done].
          pose proof (Z.pow_le_mono_r 10 seen 8 ltac:(lia) ltac:(lia)).
          change (10 ^ 8) with 100000000 in *. lia. }
        apply nil_length_inv. simpl in Hlen. lia.
      * destruct (SysPrintString_spec _ _ s overflow_holds) as (s' & -> & Hs').
        assert (Hbig : if negative then 2 ^ 31 < number * 10 + (c - 48) else 2 ^ 31 <= number * 10 + (c - 48)).
        { change (2 ^ 31) with 2147483648.
          destruct negative; apply orb_true_iff in Eo as [Eo | Eo]; bool_prop; try lia. }
        exists (inl 0), s'. rewrite digits_result_overflow, digits_message_overflow by (done || lia). done.
    + assert (Hnew : 0 <= number * 10 + (c - 48) <= 2147483647).
      { bool_prop. destruct (Z.eqb_spec number 214748364); simpl in *; bool_prop; lia. }
      destruct (IH (pre ++ [c]) tail s negative (number * 10 + (c - 48)) (seen + 1))
        as (r & s' & E & Hr & Hs'); [done | | lia | simpl in Hlen; lia | ].
      { rewrite Z.pow_add_r by lia. change (10 ^ 1) with 10. lia. }
      rewrite length_app, <- app_assoc in E. simpl in E.
      replace (Z.of_nat (length pre) + 1) with (Z.of_nat (length pre + 1)) by lia.
      rewrite E. by exists r, s'.
Qed.

Lemma SysReadNum_spec line term rest s :
  Forall (fun c => ends_line c = false) line -> ends_line term = true -> (length line <= 11)%nat ->
  input s = line ++ term :: rest ->
  exists s', SysReadNum s = Ok (num_spec line, s') /\ console_step s rest (num_message line) s'.
Proof.
  intros Hl Ht Hlen Hin. unfold SysReadNum. run. cbv zeta.
  destruct (SysReadString_spec line term rest s 12 Hl Ht ltac:(lia) Hin)
    as (s1 & buffer & E1 & H1 & _ & tail & ->).
  change (Z.to_nat 12) with 12%nat in E1. change (11 + 1) with 12. rewrite E1.
  pose proof (scan_len_spec line 13 [] tail Hl ltac:(lia)) as Hscan.
  change (Z.of_nat (length (@nil Z))) with 0 in Hscan. cbn [app length Nat.add] in Hscan. rewrite Hscan.
  assert (Hin1 : input s1 = rest) by apply H1.
  assert (Hthen : forall t s', console_step s1 (input s1) t s' -> console_step s rest t s').
  { intros t s' Hs'. rewrite Hin1 in Hs'. change t with ([] ++ t). by eapply console_step_trans. }
  destruct line as [ | c cs].
  { simpl. destruct (SysPrintString_spec _ _ s1 invalid_holds) as (s' & E & Hs').
    run. rewrite E. eauto. }
  destruct (Z.eqb_spec (Z.of_nat (length (c :: cs))) 0) as [Hz | _]; [simpl in Hz; lia | ].
  change (zget ((c :: cs) ++ 0 :: tail) 0) with (zget ([] ++ c :: (cs ++ 0 :: tail)) (Z.of_nat (length (@nil Z)))).
  rewrite zget_app_r. unfold num_spec, num_message.
  destruct (Z.eqb_spec c 45) as [-> | Hne].
  - replace (Z.to_nat (Z.of_nat (length (45 :: cs)) - 1)) with (length cs) by (simpl; lia).
    destruct (read_digits_spec cs [45] (0 :: tail) s1 true 0 0) as (r & s' & E & Hr & Hs');
      [unfold INT_MAX; lia | done | done | simpl in Hlen; lia | ].
    change (Z.of_nat (length [45])) with 1 in E. change ([45] ++ cs ++ 0 :: tail) with ((45 :: cs) ++ 0 :: tail) in E.
    rewrite E. exists s'. split; [ | by apply Hthen]. unfold digits_result in Hr. rewrite <- Hr.
    by destruct r.
  - replace (Z.to_nat (Z.of_nat (length (c :: cs)) - 0)) with (length (c :: cs)) by (simpl; lia).
    destruct (read_digits_spec (c :: cs) [] (0 :: tail) s1 false 0 0) as (r & s' & E & Hr & Hs');
      [unfold INT_MAX; lia | done | done | simpl in *; lia | ].
    change (Z.of_nat (length (@nil Z))) with 0 in E.
    change ([] ++ (c :: cs) ++ 0 :: tail) with ((c :: cs) ++ 0 :: tail) in E.
    rewrite E. exists s'. split; [ | by apply Hthen]. unfold digits_result in Hr. rewrite <- Hr.
    by destruct r.
Qed.

(** ** Printing a number *)

(** The last [n] digits of [z]. *)
Fixpoint digs (n : nat) (z : Z) : list Z :=
  match n with
  | O => []
  | S n' => digs n' (Z.quot z 10) ++ [Z.rem z 10 + 48]
  end.

Lemma digs_length n : forall z, length (digs n z) = n.
Proof. induction n as [ | n IH]; intros z; simpl; [done | ]. rewrite length_app, IH. simpl. lia. Qed.

Lemma fill_digits_spec n : forall pre mid post tmp,
  length mid = n ->
  fill_digits n (Z.of_nat (length pre + n) - 1) tmp (pre ++ mid ++ post) = Ok (pre ++ digs n tmp ++ post).
Proof.
  induction n as [ | n IH]; intros pre mid post tmp Hm.
  - apply nil_length_inv in Hm as ->. done.
  - destruct mid as [ | c mid _] using rev_ind; [done | ].
    rewrite length_app in Hm. simpl in Hm. assert (Hm' : length mid = n) by lia.
    cbn [fill_digits digs]. rewrite <- !app_assoc. simpl.
    replace (Z.of_nat (length pre + S n) - 1) with (Z.of_nat (length (pre ++ mid)))
      by (rewrite length_app; lia).
    rewrite app_assoc, zset_app_r. rsimp. rewrite <- app_assoc.
    replace (Z.of_nat (length (pre ++ mid)) - 1) with (Z.of_nat (length pre + n) - 1)
      by (rewrite length_app; lia).
    by rewrite IH.
Qed.

Lemma count_digits_spec fuel : forall tmp len,
  0 <= tmp < 10 ^ (Z.of_nat fuel - 1) ->
  exists k, count_digits fuel tmp len = Ok (len + Z.of_nat k) /\ tmp < 10 ^ Z.of_nat k /\
    (k < fuel)%nat /\ (0 < tmp -> (0 < k)%nat).
Proof.
  induction fuel as [ | f IH]; intros tmp len Ht; [simpl in Ht; lia | ].
  cbn [count_digits]. destruct (Z.eqb_spec tmp 0) as [-> | Hne].
  - exists 0%nat. split_and!; [f_equal; lia | done | lia | lia].
  - destruct f as [ | f]; [change (10 ^ (Z.of_nat 1 - 1)) with 1 in Ht; lia | ].
    assert (Hq : 0 <= Z.quot tmp 10 < 10 ^ (Z.of_nat (S f) - 1)).
    { rewrite Z.quot_div_nonneg by lia. split; [apply Z.div_pos; lia | ].
      apply Z.div_lt_upper_bound; [lia | ]. rewrite <- Z.pow_succ_r by lia.
      replace (Z.succ (Z.of_nat (S f) - 1)) with (Z.of_nat (S (S f)) - 1) by lia. lia. }
    destruct (IH (Z.quot tmp 10) (len + 1) Hq) as (k & E & Hk & Hf & _).
    exists (S k). rewrite E. split_and!; [f_equal; lia | | lia | lia].
    rewrite Nat2Z.inj_succ, Z.pow_succ_r by lia. rewrite Z.quot_div_nonneg in Hk by lia.
    pose proof (Z.div_mod tmp 10 ltac:(lia)). pose proof (Z.mod_pos_bound tmp 10 ltac:(lia)). lia.
Qed.

Lemma decimal_app ds1 : forall n ds2, decimal n (ds1 ++ ds2) = decimal (decimal n ds1) ds2.
Proof. induction ds1; intros; simpl; auto. Qed.

Lemma digs_decimal n : forall z, 0 <= z < 10 ^ Z.of_nat n ->
  decimal 0 (digs n z) = z /\ forallb is_digit (digs n z) = true.
Proof.
  induction n as [ | n IH]; intros z Hz; simpl.
  - change (10 ^ Z.of_nat 0) with 1 in Hz. split; [lia | done].
  - rewrite Nat2Z.inj_succ, Z.pow_succ_r in Hz by lia.
    rewrite Z.quot_div_nonneg, Z.rem_mod_nonneg by lia.
    pose proof (Z.div_mod z 10 ltac:(lia)). pose proof (Z.mod_pos_bound z 10 ltac:(lia)).
    destruct (IH (z / 10)) as [Hd Hf].
    { split; [apply Z.div_pos; lia | apply Z.div_lt_upper_bound; lia]. }
    rewrite decimal_app, Hd, forallb_app, Hf. simpl. split; [lia | ].
    unfold is_digit. apply andb_true_iff. split; [ | done].
    apply andb_true_iff. split; apply Z.leb_le; lia.
Qed.

(** The text of a number: what [SysPrintNum] prints. *)
Record num_text (number : Z) (txt : list Z) : Prop := {
  text_reads : num_spec txt = number;
  text_length : (length txt <= 11)%nat;
  text_nonempty : txt <> [];
  text_chars : Forall (fun c => c = 45 \/ is_digit c = true) txt
}.

Lemma digit_char c : c = 45 \/ is_digit c = true -> c <> 0 /\ ends_line c = false.
Proof.
  unfold is_digit, ends_line. intros [-> | Hd]; [done | ]. bool_prop.
  split; [lia | ]. apply orb_false_iff. split; apply Z.eqb_neq; lia.
Qed.

Lemma digs_chars n z : forallb is_digit (digs n z) = true ->
  Forall (fun c => c = 45 \/ is_digit c = true) (digs n z).
Proof.
  intros H. apply Forall_forall. intros c Hc. right. rewrite forallb_forall in H.
  by apply H, list_elem_of_In.
Qed.

Lemma num_spec_digs (negative : bool) k z :
  0 < z < 10 ^ Z.of_nat k -> z <= INT_MAX -> (0 < k)%nat ->
  num_spec ((if negative then [45] else []) ++ digs k z) = (if negative then - z else z).
Proof.
  intros Hz Hmax Hk. destruct (digs_decimal k z ltac:(lia)) as [Hd Hf].
  assert (Hi : is_i32 z /\ is_i32 (- z)) by (unfold INT_MAX in Hmax; split; cint).
  destruct negative; simpl.
  - rewrite Hd, Hf. destruct Hi. by rewrite bool_decide_eq_true_2.
  - pose proof (digs_length k z) as Hl. destruct (digs k z) as [ | c cs] eqn:E; [simpl in Hl; lia | ].
    unfold num_spec. destruct (Z.eqb_spec c 45) as [-> | Hne]; [done | ].
    rewrite Hd, Hf. destruct Hi. by rewrite bool_decide_eq_true_2.
Qed.

Lemma num_to_str_spec number :
  is_i32 number -> exists buf txt, num_to_str number = Ok buf /\ holds buf txt /\ num_text number txt.
Proof.
  intros Hn. unfold num_to_str. destruct (Z.eqb_spec number 0) as [-> | H0].
  { eexists _, [48]. split; [vm_compute; reflexivity | ]. split.
    - eexists. split; [reflexivity | ]. by repeat constructor.
    - split; [done | simpl; lia | done | by apply (bool_decide_unpack _); vm_compute]. }
  destruct (Z.eqb_spec number INT_MIN) as [-> | Hmin].
  { eexists _, [45; 50; 49; 52; 55; 52; 56; 51; 54; 52; 56]. split; [done | ]. split.
    - eexists []. split; [done | ]. by repeat constructor.
    - split; [done | simpl; lia | done | by apply (bool_decide_unpack _); vm_compute]. }
  set (neg := number <? 0). set (z := Z.abs number).
  set (pre := if neg then [45] else []). set (start := Z.of_nat (length pre)).
  assert (Hz : 0 < z <= INT_MAX) by (unfold INT_MIN, INT_MAX, z in *; cint).
  assert (Hhead : (if neg then b ← zset (replicate 12 0) 0 45; mret (1, - number, 1, b)
     else mret (0, number, 0, replicate 12 0)) =
     Ok (start, z, start, pre ++ replicate (12 - length pre) 0)).
  { subst start pre neg z. destruct (Z.ltb_spec number 0); simpl; [ | by rewrite Z.abs_eq by lia].
    rewrite Z.abs_neq by lia. done. }
  rewrite Hhead. rsimp.
  destruct (count_digits_spec 11 z start) as (k & -> & Hk & Hk11 & Hk0).
  { unfold INT_MAX in Hz. change (10 ^ (Z.of_nat 11 - 1)) with 10000000000. lia. }
  rsimp. assert (Hpre : (length pre <= 1)%nat) by (subst pre; destruct neg; simpl; lia).
  exists (pre ++ digs k z ++ replicate (12 - length pre - k) 0), (pre ++ digs k z). split_and!.
  - replace (Z.to_nat (start + Z.of_nat k - start)) with k by lia.
    replace (start + Z.of_nat k - 1) with (Z.of_nat (length pre + k) - 1) by (subst start; lia).
    rewrite <- (fill_digits_spec k pre (replicate k 0)) by apply length_replicate.
    rewrite <- replicate_add. do 3 f_equal. f_equal. lia.
  - destruct (12 - length pre - k)%nat as [ | r] eqn:Er; [lia | ].
    exists (replicate r 0). split; [by rewrite <- app_assoc | ].
    apply Forall_app. split; [subst pre; destruct neg; by repeat constructor | ].
    apply (Forall_impl _ _ _ (digs_chars k z (proj2 (digs_decimal k z ltac:(lia))))).
    intros c Hc. by apply digit_char.
  - split.
    + pose proof (num_spec_digs neg k z ltac:(lia) ltac:(lia) (Hk0 ltac:(lia))) as Hs.
      fold pre in Hs. rewrite Hs. subst neg z. destruct (Z.ltb_spec number 0); lia.
    + rewrite length_app, digs_length. lia.
    + intros Hnil. apply app_eq_nil in Hnil as [_ Hnil]. specialize (Hk0 ltac:(lia)).
      pose proof (digs_length k z) as Hl. rewrite Hnil in Hl. simpl in Hl. lia.
    + apply Forall_app. split; [subst pre; destruct neg; [constructor; [by left | ] | ]; constructor | ].
      apply digs_chars, digs_decimal. lia.
Qed.

Lemma SysPrintNum_spec number s :
  is_i32 number ->
  exists s' txt, SysPrintNum number s = Ok (tt, s') /\ num_text number txt /\ console_step s (input s) txt s'.
Proof.
  intros Hn. destruct (num_to_str_spec number Hn) as (buf & txt & E & Hh & Ht).
  destruct (SysPrintString_spec buf txt s Hh) as (s' & E' & Hs').
  exists s', txt. split; [ | done]. unfold SysPrintNum. run. by rewrite E.
Qed.


(** C29: Printing and reading numbers are inverse: for every int, SysPrintNum
    prints a text (and changes nothing else) from which, followed by a
    newline on the console input, SysReadNum reads the same int back, the
    most negative one included. *)
Theorem print_read_num number s :
  is_i32 number ->
  exists s' txt, SysPrintNum number s = Ok (tt, s') /\ console_step s (input s) txt s' /\
    forall s1 rest, input s1 = txt ++ 10 :: rest ->
      exists s2 msg, SysReadNum s1 = Ok (number, s2) /\ console_step s1 rest msg s2.
Proof.
  intros Hn. destruct (SysPrintNum_spec number s Hn) as (s' & txt & E & [Hr Hl _ Hc] & Hs').
  exists s', txt. split_and!; [done | done | ]. intros s1 rest Hin. rewrite <- Hr.
  destruct (SysReadNum_spec txt 10 rest s1) as (s2 & E2 & H2); [ | done | done | done | by eexists _, _].
  apply (Forall_impl _ _ _ Hc). intros c Hch. by apply digit_char.
Qed.

End ConsoleCalls.

(** ** A console of two streams

    A terminal: with nothing more typed, reading waits for ever. *)

Record streams := mkStreams { keyboard : list Z; display : list Z }.

Definition streams_get : stM streams Z := fun k =>
  match keyboard k with
  | [] => Fail Waiting
  | c :: cs => Ok (to_i8 c, mkStreams cs (display k))
  end.

Definition streams_put (c : Z) : stM streams unit := fun k =>
  Ok (tt, mkStreams (keyboard k) (display k ++ [c])).

#[global] Program Instance streams_console : Console streams := {|
  GetChar := streams_get;
  PutChar := streams_put;
  con_in k := to_i8 <$> keyboard k;
  con_out := display
|}.
Next Obligation.
  intros [kb dp] c cs Hk. destruct kb as [ | d kb]; simplify_eq/=. by eexists.
Qed.
Next Obligation. intros [[ | d kb] dp] Hk; [by left | done]. Qed.
Next Obligation.
  intros [[ | d kb] dp] c k' E; unfold streams_get in E; simplify_eq/=. apply to_i8_range.
Qed.
Next Obligation. intros [kb dp] c. by eexists. Qed.

(** The line -42 typed at the keyboard. *)
Definition example_kernel : Kernel host streams :=
  mkKernel SystemMode new_FileSystem host0 (mkStreams [45; 52; 50; 10; 55] []).


Lemma print_read_num_witness :
  exists s' txt, SysPrintNum (- 2 ^ 31) (example_machine, example_kernel) = Ok (tt, s') /\
    console_step (example_machine, example_kernel) (input (example_machine, example_kernel)) txt s'.
Proof.
  destruct (print_read_num (- 2 ^ 31) (example_machine, example_kernel)) as (s' & txt & E & Hs & _).
  - split; vm_compute; congruence.
  - exists s', txt. split; [exact E | exact Hs].
Defined.
