(* ===== verification/TtyConsole.v ===== *)
(** * The synchronised console seen by one thread (machine/console.cc,
      userprog/synchconsole.cc, Interrupt::Idle)

    An instance of [Console] made of the code of the two device classes and of
    the synchronised console around them, for a single thread that calls
    GetChar and PutChar: the locks are free, and a thread that waits on a
    semaphore leaves the machine idle, which takes the earliest pending
    interrupt or, when none is pending, halts.  (Console.v has the same classes
    among many threads.)

    What the host will find at the keyboard is given in advance: for each poll
    [None] when nothing is there and [Some c] for a character; after that
    either nothing more is ever typed or, when the input is a regular file,
    the file has come to its end. *)

From S2P Require Import Prelude Syscall.

Definition no_char : Z := -1.
Definition console_time : Z := 100.

Record tty := mkTty {
  t_incoming : Z;
  t_putBusy : bool;
  t_readAt : option Z;
  t_writeAt : option Z;
  t_now : Z;
  t_inWait : nat;
  t_outWait : nat;
  t_keys : list (option Z);
  t_file : bool;
  t_screen : list Z
}.

(** [ConsoleInput::CallBack] with [SynchConsoleInput::CallBack], at time
    [now]. *)
Definition read_interrupt (t : tty) (now : Z) : res tty :=
  ASSERT (t_incoming t =? no_char);;
  let again keys := mkTty no_char (t_putBusy t) (Some (now + console_time)) (t_writeAt t) now
    (t_inWait t) (t_outWait t) keys (t_file t) (t_screen t) in
  let arrived c keys := mkTty c (t_putBusy t) None (t_writeAt t) now
    (S (t_inWait t)) (t_outWait t) keys (t_file t) (t_screen t) in
  match t_keys t with
  | None :: keys => mret (again keys)
  | Some c :: keys => mret (arrived c keys)
  | [] => mret (if t_file t then arrived no_char [] else again [])
  end.

(** [ConsoleOutput::CallBack] with [SynchConsoleOutput::CallBack] *)
Definition write_interrupt (t : tty) (now : Z) : res tty :=
  mret (mkTty (t_incoming t) false (t_readAt t) None now (t_inWait t) (S (t_outWait t))
    (t_keys t) (t_file t) (t_screen t)).

(** [Interrupt::Idle] *)
Definition idle (t : tty) : res tty :=
  match t_readAt t, t_writeAt t with
  | None, None => Fail Halted
  | Some r, None => read_interrupt t (Z.max (t_now t) r)
  | None, Some w => write_interrupt t (Z.max (t_now t) w)
  | Some r, Some w =>
      if r <? w then read_interrupt t (Z.max (t_now t) r) else write_interrupt t (Z.max (t_now t) w)
  end.

(** [Semaphore::P] on the keyboard's semaphore; the fuel is a number of
    interrupts after which a wait that goes on never ends. *)
Fixpoint wait_key (fuel : nat) (t : tty) : res tty :=
  match t_inWait t with
  | S n => mret (mkTty (t_incoming t) (t_putBusy t) (t_readAt t) (t_writeAt t) (t_now t) n
      (t_outWait t) (t_keys t) (t_file t) (t_screen t))
  | O => match fuel with O => Fail Waiting | S f => t ← idle t; wait_key f t end
  end.

(** ... and on the display's. *)
Fixpoint wait_done (fuel : nat) (t : tty) : res tty :=
  match t_outWait t with
  | S n => mret (mkTty (t_incoming t) (t_putBusy t) (t_readAt t) (t_writeAt t) (t_now t) (t_inWait t)
      n (t_keys t) (t_file t) (t_screen t))
  | O => match fuel with O => Fail Waiting | S f => t ← idle t; wait_done f t end
  end.

(** [SynchConsoleInput::GetChar] with [ConsoleInput::GetChar] *)
Definition tty_GetChar : stM tty Z := fun t =>
  t ← wait_key (S (length (t_keys t))) t;
  let ch := t_incoming t in
  let due := if negb (ch =? no_char) then Some (t_now t + console_time) else t_readAt t in
  mret (ch, mkTty no_char (t_putBusy t) due (t_writeAt t) (t_now t) (t_inWait t) (t_outWait t)
    (t_keys t) (t_file t) (t_screen t)).

(** [SynchConsoleOutput::PutChar] with [ConsoleOutput::PutChar] *)
Definition tty_PutChar (c : Z) : stM tty unit := fun t =>
  ASSERT (negb (t_putBusy t));;
  t ← wait_done 2 (mkTty (t_incoming t) true (t_readAt t) (Some (t_now t + console_time)) (t_now t)
    (t_inWait t) (t_outWait t) (t_keys t) (t_file t) (t_screen t ++ [c]));
  mret (tt, t).

(** ** The characters that will be delivered *)

(** -1 ends the input: it is what the end of a file gives, and a character
    -1 is taken for it. *)
Fixpoint chars (file : bool) (keys : list (option Z)) : list Z :=
  match keys with
  | [] => if file then [no_char] else []
  | None :: keys' => chars file keys'
  | Some c :: keys' => c :: (if c =? no_char then [] else chars file keys')
  end.

Definition tty_in (t : tty) : list Z :=
  match t_inWait t, t_readAt t with
  | S _, _ => t_incoming t :: (if t_incoming t =? no_char then [] else chars (t_file t) (t_keys t))
  | O, Some _ => chars (t_file t) (t_keys t)
  | O, None => []
  end.

(** The keyboard's side: a poll is due exactly when no character waits and the
    input has not ended. *)
Definition in_ok (t : tty) : bool :=
  match t_inWait t, t_readAt t with
  | O, _ => t_incoming t =? no_char
  | 1%nat, None => true
  | _, _ => false
  end &&
  bool_decide (is_i8 (t_incoming t)) &&
  forallb (fun o => match o with Some c => bool_decide (is_i8 c) | None => true end) (t_keys t).

(** Between calls the display is idle too. *)
Definition tty_ok (t : tty) : bool :=
  in_ok t && negb (t_putBusy t) && bool_decide (t_writeAt t = None) && bool_decide (t_outWait t = 0%nat).

Lemma i8_no_char : is_i8 no_char.
Proof. done. Qed.

(** A keyboard interrupt takes nothing from the input. *)
Lemma read_interrupt_ok t r now : in_ok t = true -> t_readAt t = Some r -> exists t',
  read_interrupt t now = Ok t' /\ in_ok t' = true /\ tty_in t' = tty_in t /\ t_screen t' = t_screen t /\
  t_putBusy t' = t_putBusy t /\ t_writeAt t' = t_writeAt t /\ t_outWait t' = t_outWait t /\ t_now t' = now /\
  (t_readAt t' = None \/ t_readAt t' = Some (now + console_time)) /\
  (t_inWait t' = 1%nat \/
   t_readAt t' <> None /\ ((length (t_keys t') < length (t_keys t))%nat \/ tty_in t = [])).
Proof.
  destruct t as [inc pb ra wa nw iw ow ks fl scr]. unfold in_ok, read_interrupt. cbn. intros Hok ->.
  destruct iw as [ | [ | iw]]; try done. apply andb_true_iff in Hok as [[Hi Hi8]%andb_true_iff Hks].
  rewrite Hi. apply Z.eqb_eq in Hi as ->. cbn.
  destruct ks as [ | [c | ] ks]; cbn in *.
  - destruct fl; eexists; (split; [reflexivity | ]); cbn; split_and!; auto; right; (reflexivity || by split; [ | right]).
  - apply andb_true_iff in Hks as [Hc Hks]. eexists. split; [reflexivity | ]. cbn. rewrite Hc, Hks. split_and!; auto.
  - eexists. split; [reflexivity | ]. cbn. rewrite Hks. split_and!; auto; right; (reflexivity || (split; [done | left; lia])).
Qed.

Section Waiting.
Implicit Types t : tty.

Notation keys_ok := (forallb (fun o => match o with Some c => bool_decide (is_i8 c) | None => true end)).

Lemma in_ok_keys t : in_ok t = true -> keys_ok (t_keys t) = true /\ is_i8 (t_incoming t) /\
  (t_inWait t = 0%nat -> t_incoming t = no_char) /\ (t_inWait t <> 0%nat -> t_inWait t = 1%nat /\ t_readAt t = None).
Proof.
  unfold in_ok. rewrite !andb_true_iff, bool_decide_eq_true. intros [[Hi Hi8] Hk].
  split_and!; [done | done.. | | ]; destruct (t_inWait t) as [ | [ | n]], (t_readAt t); try done; intros; bool_prop; done.
Qed.

(** The state after the wait for character [c], with [cs] still to come. *)
Record got_key t (c : Z) (cs : list Z) t' : Prop := {
  gk_char : t_incoming t' = c;
  gk_i8 : is_i8 c;
  gk_wait : t_inWait t' = 0%nat;
  gk_read : t_readAt t' = None;
  gk_rest : cs = (if c =? no_char then [] else chars (t_file t') (t_keys t'));
  gk_keys : keys_ok (t_keys t') = true;
  gk_screen : t_screen t' = t_screen t;
  gk_busy : t_putBusy t' = t_putBusy t;
  gk_write : t_writeAt t' = t_writeAt t;
  gk_done : t_outWait t' = t_outWait t
}.

(** A character is there. *)
Lemma wait_key_here fuel t c cs :
  in_ok t = true -> t_inWait t = 1%nat -> tty_in t = c :: cs -> exists t', wait_key fuel t = Ok t' /\ got_key t c cs t'.
Proof.
  intros Hok Hi Hin. destruct (in_ok_keys t Hok) as (Hk & Hi8 & _ & H1). destruct H1 as [_ Hr]; [by rewrite Hi | ].
  unfold tty_in in Hin. rewrite Hi in Hin. injection Hin as Hc <-.
  eexists. split; [destruct fuel; cbn [wait_key]; rewrite Hi; reflexivity | ]. split; cbn; try done; by rewrite <- Hc.
Qed.

(** ... or still to come. *)
Lemma wait_key_char fuel : forall t c cs,
  in_ok t = true -> t_writeAt t = None -> tty_in t = c :: cs -> (length (t_keys t) < fuel)%nat ->
  exists t', wait_key fuel t = Ok t' /\ got_key t c cs t'.
Proof.
  induction fuel as [ | f IH]; intros t c cs Hok Hw Hin Hf; [lia | ].
  destruct (decide (t_inWait t = 0%nat)) as [Ei | Ei].
  2: { destruct (in_ok_keys t Hok) as (_ & _ & _ & H1). destruct (H1 Ei) as [E1 _]. by apply wait_key_here. }
  cbn [wait_key]. rewrite Ei. destruct (t_readAt t) as [r | ] eqn:Er.
  2: { unfold tty_in in Hin. by rewrite Ei, Er in Hin. }
  unfold idle. rewrite Er, Hw.
  destruct (read_interrupt_ok t r (Z.max (t_now t) r) Hok Er)
    as (t1 & -> & Hok1 & Hin1 & Hs1 & Hp1 & Hw1 & Ho1 & _ & _ & Hm). rsimp. rewrite Hin in *.
  assert (Hg : exists t', wait_key f t1 = Ok t' /\ got_key t1 c cs t').
  { destruct Hm as [Hm | [_ [Hm | ?]]]; [by apply wait_key_here | apply IH; [done | congruence | done | lia] | done]. }
  destruct Hg as (t' & -> & Hg). exists t'. split; [done | ]. destruct Hg. split; congruence.
Qed.

(** Waiting when the input is used up: the machine halts, or no amount of
    polling ends the wait. *)
Lemma wait_key_end t : in_ok t = true -> t_writeAt t = None -> tty_in t = [] ->
  (t_readAt t = None /\ forall fuel, wait_key (S fuel) t = Fail Halted) \/
  (t_readAt t <> None /\ forall fuel, wait_key fuel t = Fail Waiting).
Proof.
  intros Hok Hw Hin.
  assert (Ei : t_inWait t = 0%nat) by (unfold tty_in in Hin; by destruct (t_inWait t)).
  destruct (t_readAt t) as [r | ] eqn:Er.
  2: { left. split; [done | ]. intros fuel. cbn [wait_key]. rewrite Ei. unfold idle. by rewrite Er, Hw. }
  right. split; [done | ]. intros fuel. revert t r Hok Hw Hin Ei Er.
  induction fuel as [ | f IH]; intros t r Hok Hw Hin Ei Er; cbn [wait_key]; rewrite Ei; [done | ].
  unfold idle. rewrite Er, Hw.
  destruct (read_interrupt_ok t r (Z.max (t_now t) r) Hok Er)
    as (t1 & -> & Hok1 & Hin1 & _ & _ & Hw1 & _ & _ & _ & Hr1). rsimp. rewrite Hin in Hin1. rewrite Hw in Hw1.
  assert (Ei1 : t_inWait t1 = 0%nat) by (unfold tty_in in Hin1; by destruct (t_inWait t1)).
  destruct Hr1 as [Hr1 | [Hr1 _]]; [congruence | ]. destruct (t_readAt t1) as [r1 | ] eqn:Er1; [ | done]. by eapply IH.
Qed.

Lemma wait_done_step f t t1 : t_outWait t = 0%nat -> idle t = Ok t1 -> wait_done (S f) t = wait_done f t1.
Proof. intros Ho Ei. cbn [wait_done]. by rewrite Ho, Ei. Qed.

(** The display's interrupt ends the wait. *)
Lemma wait_done_write f t w :
  in_ok t = true -> t_writeAt t = Some w -> t_outWait t = 0%nat -> idle t = write_interrupt t (Z.max (t_now t) w) ->
  exists t', wait_done (S f) t = Ok t' /\ in_ok t' = true /\ tty_in t' = tty_in t /\ t_screen t' = t_screen t /\
    t_putBusy t' = false /\ t_writeAt t' = None /\ t_outWait t' = 0%nat.
Proof.
  intros Hok Hw Ho Ei. rewrite (wait_done_step f t _ Ho Ei). destruct f; cbn [wait_done t_outWait];
    (eexists; split; [reflexivity | ]; by split_and!).
Qed.

(** At most one keyboard interrupt comes before it. *)
Lemma wait_done_ok t w :
  in_ok t = true -> t_writeAt t = Some w -> t_outWait t = 0%nat -> w = t_now t + console_time ->
  exists t', wait_done 2 t = Ok t' /\ in_ok t' = true /\ tty_in t' = tty_in t /\ t_screen t' = t_screen t /\
    t_putBusy t' = false /\ t_writeAt t' = None /\ t_outWait t' = 0%nat.
Proof.
  intros Hok Hw Ho Ew.
  destruct (t_readAt t) as [r | ] eqn:Er; [destruct (Z.ltb_spec r w) as [Hlt | Hge] | ].
  - destruct (read_interrupt_ok t r (Z.max (t_now t) r) Hok Er)
      as (t1 & E1 & Hok1 & Hin1 & Hs1 & Hp1 & Hw1 & Ho1 & Hn1 & Hr1 & _).
    rewrite (wait_done_step 1 t t1 Ho) by (unfold idle; rewrite Er, Hw, (proj2 (Z.ltb_lt r w)); done).
    rewrite <- Hin1, <- Hs1. apply (wait_done_write 0 t1 w); [done | congruence | congruence | ].
    unfold idle. rewrite Hw1, Hw. destruct Hr1 as [-> | ->]; [done | ].
    unfold console_time in *. rewrite (proj2 (Z.ltb_ge _ _)) by lia. done.
  - apply (wait_done_write 1 t w); [done.. | ]. unfold idle. rewrite Er, Hw, (proj2 (Z.ltb_ge r w)); done.
  - apply (wait_done_write 1 t w); [done.. | ]. unfold idle. by rewrite Er, Hw.
Qed.
End Waiting.

(** ** The instance *)

Definition terminal : Type := { t : tty | tty_ok t = true }.

(** A call made between states of the console that are good. *)
Definition call_tty {A} (x : stM tty A) : stM terminal A := fun k =>
  match x (proj1_sig k) with
  | Ok (a, t) => match decide (tty_ok t = true) with left H => Ok (a, t ↾ H) | right _ => Fail AssertFail end
  | Fail f => Fail f
  end.

Lemma call_tty_ok {A} (x : stM tty A) (k : terminal) a t :
  x (proj1_sig k) = Ok (a, t) -> tty_ok t = true -> exists k', call_tty x k = Ok (a, k') /\ proj1_sig k' = t.
Proof.
  intros Ex Ht. unfold call_tty. rewrite Ex. destruct (decide (tty_ok t = true)) as [H | H]; [ | done].
  by exists (t ↾ H).
Qed.

Lemma tty_ok_parts t : tty_ok t = true <->
  in_ok t = true /\ t_putBusy t = false /\ t_writeAt t = None /\ t_outWait t = 0%nat.
Proof. unfold tty_ok. rewrite !andb_true_iff, negb_true_iff, !bool_decide_eq_true. tauto. Qed.

Lemma tty_GetChar_ok (k : terminal) c cs : tty_in (proj1_sig k) = c :: cs ->
  is_i8 c /\ exists k', call_tty tty_GetChar k = Ok (c, k') /\ tty_in (proj1_sig k') = cs /\
    t_screen (proj1_sig k') = t_screen (proj1_sig k).
Proof.
  destruct k as [t Ht]. cbn [proj1_sig]. intros Hin. apply tty_ok_parts in Ht as Hp. destruct Hp as (Hok & Hb & Hw & Ho).
  destruct (wait_key_char (S (length (t_keys t))) t c cs Hok Hw Hin) as (t1 & E1 & [Hc Hi8 Hi Hr Hcs Hk Hs Hb1 Hw1 Ho1]); [lia | ].
  split; [done | ].
  destruct (call_tty_ok tty_GetChar (t ↾ Ht) c (mkTty no_char (t_putBusy t1)
    (if negb (c =? no_char) then Some (t_now t1 + console_time) else t_readAt t1) (t_writeAt t1) (t_now t1) (t_inWait t1)
    (t_outWait t1) (t_keys t1) (t_file t1) (t_screen t1))) as (k' & Ek & Hk').
  - cbn [proj1_sig]. unfold tty_GetChar. rewrite E1. rsimp. by rewrite Hc.
  - apply tty_ok_parts. cbn. unfold in_ok. cbn. by rewrite Hi, Hk, Hb1, Hw1, Ho1.
  - exists k'. rewrite Hk'. split_and!; [done | | by rewrite <- Hs]. unfold tty_in. cbn. rewrite Hi, Hr, Hcs.
    by destruct (c =? no_char).
Qed.

#[global] Program Instance tty_console : Console terminal := {|
  GetChar := call_tty tty_GetChar;
  PutChar c := call_tty (tty_PutChar c);
  con_in k := tty_in (proj1_sig k);
  con_out k := t_screen (proj1_sig k)
|}.
Next Obligation. intros k c cs Hin. by destruct (tty_GetChar_ok k c cs Hin) as [_ ?]. Qed.
Next Obligation.
  intros [t Ht] Hin. simpl in Hin. apply tty_ok_parts in Ht as Hp. destruct Hp as (Hok & _ & Hw & _).
  unfold call_tty, tty_GetChar. cbn [proj1_sig].
  destruct (wait_key_end t Hok Hw Hin) as [[_ ->] | [_ ->]]; [by right | by left].
Qed.
Next Obligation.
  intros k c k' E. simpl in E. destruct (tty_in (proj1_sig k)) as [ | c' cs] eqn:Hin.
  - destruct k as [t Ht]. apply tty_ok_parts in Ht as Hp. destruct Hp as (Hok & _ & Hw & _).
    unfold call_tty, tty_GetChar in E. cbn [proj1_sig] in *.
    destruct (wait_key_end t Hok Hw Hin) as [[_ Hf] | [_ Hf]]; by rewrite Hf in E.
  - destruct (tty_GetChar_ok k c' cs Hin) as (Hi & k1 & Ek & _). rewrite E in Ek. by injection Ek as -> _.
Qed.
Next Obligation.
  intros [t Ht] c. apply tty_ok_parts in Ht as Hp. destruct Hp as (Hok & Hb & Hw & Ho). cbn [proj1_sig].
  set (t0 := mkTty (t_incoming t) true (t_readAt t) (Some (t_now t + console_time)) (t_now t)
    (t_inWait t) (t_outWait t) (t_keys t) (t_file t) (t_screen t ++ [c])).
  destruct (wait_done_ok t0 _ Hok eq_refl Ho eq_refl) as (t1 & E1 & Hok1 & Hin1 & Hs1 & Hb1 & Hw1 & Ho1).
  destruct (call_tty_ok (tty_PutChar c) (t ↾ Ht) tt t1) as (k' & Ek & Hk').
  - cbn [proj1_sig]. unfold tty_PutChar. rewrite Hb. cbn [negb ASSERT]. rsimp. fold t0. by rewrite E1.
  - by apply tty_ok_parts.
  - exists k'. rewrite Hk'. split_and!; [done | by rewrite Hin1 | by rewrite Hs1].
Qed.

(** Polling for a key that is never pressed goes on for ever. *)
Example terminal_waits : forall fuel, wait_key fuel (mkTty no_char false (Some 100) None 0 0 0 [] false []) = Fail Waiting.
Proof. intros fuel. by destruct (wait_key_end (mkTty no_char false (Some 100) None 0 0 0 [] false []) eq_refl eq_refl eq_refl) as [[? _] | [_ ->]]. Qed.
