(* ===== verification/FileCalls.v ===== *)
(** * The table of open files through the system calls

    What the file calls of userprog/ksyscall.h promise the rest of the kernel:
    from a good table of open files each of them ends in one, and fails only
    where the UNIX call under it fails.  What makes a table good is a
    parameter, the predicate of the class [TableInv]: the number of its slots
    alone, on any host, or, on a host that keeps the laws of [UnixLaws], that
    every slot in use has an open descriptor of its own, that the first two
    slots are the console's and that offsets are ints. *)

From S2P Require Import Prelude Machine FileSysStub Syscall.

(** What read(2) and rand(3) are relied on for: a read fails with -1 or
    returns the number of bytes it stored, no more than it was asked for;
    rand opens and closes nothing. *)
Class UnixCounts {U : Type} (ux : UnixOps U) (fd_open : Z -> U -> Prop) : Prop := {
  read_count fd n u c bs u' : 0 <= n -> sys_read ux fd n u = (c, bs, u') ->
    (c = -1 /\ bs = []) \/ (c = Z.of_nat (length bs) /\ c <= n);
  rand_law u d : fd_open d (sys_rand ux u).2 <-> fd_open d u
}.

(** What a predicate on the table and the host has to survive: the UNIX calls
    on descriptors, a file moved or closed, a descriptor opened and put into
    a free slot, and one opened and closed again.  [closing] holds the faults
    of a failed close(2); [exact] says that read(2) counts what it stored. *)
Class TableInv {U : Type} (ux : UnixOps U) (T : fd_table * U -> Prop) (closing : fault -> Prop)
    (exact : Prop) : Prop := {
  ti_length t u : T (t, u) -> length t = 20%nat;
  ti_read fd n t u : T (t, u) -> T (t, (sys_read ux fd n u).2);
  ti_write fd b n t u : T (t, u) -> T (t, (sys_write ux fd b n u).2);
  ti_lseek fd o w t u : T (t, u) -> T (t, (sys_lseek ux fd o w u).2);
  ti_unlink name t u : T (t, u) -> T (t, (sys_unlink ux name u).2);
  ti_rand t u : T (t, u) -> T (t, (sys_rand ux u).2);
  ti_open name flags t u : T (t, u) -> T (t, (sys_open ux name flags u).2);
  ti_move t u i f f' : T (t, u) -> (2 <= i)%nat -> t !! i = Some (Some f) ->
    file f' = file f -> is_i32 (currentOffset f') -> T (<[i := Some f']> t, u);
  ti_close t u i f : T (t, u) -> (2 <= i)%nat -> t !! i = Some (Some f) ->
    T (<[i := None]> t, (sys_close ux (file f) u).2) /\
    (0 <= (sys_close ux (file f) u).1 \/ closing AssertFail);
  ti_claim name flags t u fd u' i : T (t, u) -> sys_open ux name flags u = (fd, u') -> fd <> -1 ->
    (2 <= i)%nat -> t !! i = Some None -> T (<[i := Some (new_OpenFile fd)]> t, u');
  ti_reclose name flags t u fd u' : T (t, u) -> sys_open ux name flags u = (fd, u') -> fd <> -1 ->
    T (t, (sys_close ux fd u').2);
  ti_closing f : closing f -> f = AssertFail;
  ti_exact fd n u c bs u' : exact -> 0 <= n -> sys_read ux fd n u = (c, bs, u') ->
    (c = -1 /\ bs = []) \/ (c = Z.of_nat (length bs) /\ c <= n)
}.

Section FileCalls.
Context {U : Type} (ux : UnixOps U) (T : fd_table * U -> Prop) (closing : fault -> Prop) (exact : Prop).
Context `{!TableInv ux T closing exact}.
Notation failed := (fun f => f = AssertFail).

(** Steps on the host and on one slot *)

Lemma wp_unix {E A} (Q : A -> fd_table * U -> Prop) (f : U -> A * U) t u :
  Q (f u).1 (t, (f u).2) -> wp E Q (on_unix (unix f)) (t, u).
Proof. unfold wp, on_unix, unix. run. by destruct (f u). Qed.

Lemma wp_on_unix {E A} (Q : A -> fd_table * U -> Prop) (x : stM U A) t u :
  wp E (fun a u' => Q a (t, u')) x u -> wp E Q (on_unix x) (t, u).
Proof. unfold wp, on_unix. run. by destruct (x u) as [[a u'] | f]. Qed.

Lemma wp_host {E A} (Q : A -> U -> Prop) (f : U -> A * U) u : Q (f u).1 (f u).2 -> wp E Q (unix f) u.
Proof. unfold wp, unix. by destruct (f u). Qed.

Lemma wp_ASSERT {E : fault -> Prop} {S} (Q : unit -> S -> Prop) b s :
  (b = false -> E AssertFail) -> (b = true -> Q tt s) -> wp E Q (lift (ASSERT b)) s.
Proof. destruct b; cbv [wp lift ASSERT]; auto. Qed.

Lemma wp_get_slot {E} (Q : option OpenFile -> fd_table * U -> Prop) i t u :
  T (t, u) -> 0 <= i < 20 -> (forall o, t !! Z.to_nat i = Some o -> Q o (t, u)) -> wp E Q (get_slot i) (t, u).
Proof.
  intros HT Hi HQ. destruct (slot_get t u i (ti_length _ _ HT) Hi) as (o & Lo & Eo).
  eapply wp_ok; [exact Eo | by apply HQ].
Qed.

Lemma wp_set_slot {E} (Q : unit -> fd_table * U -> Prop) i o t u :
  length t = 20%nat -> 0 <= i < 20 -> Q tt (<[Z.to_nat i := o]> t, u) -> wp E Q (set_slot i o) (t, u).
Proof. intros Hl Hi HQ. eapply wp_ok; [by apply slot_set | done]. Qed.

Lemma index_2 i : 2 <= i -> (2 <= Z.to_nat i)%nat.
Proof. lia. Qed.

(** [FileSystem_get] *)
Lemma wp_get {E} (Q : option OpenFile -> fd_table * U -> Prop) fd t u :
  T (t, u) -> Q None (t, u) ->
  (forall f, 2 <= fd < 20 -> t !! Z.to_nat fd = Some (Some f) -> Q (Some f) (t, u)) ->
  wp E Q (FileSystem_get fd) (t, u).
Proof.
  intros HT Hn Hs. unfold FileSystem_get. apply wp_if; intros Hb; [by apply wp_ret | ].
  bool_prop. apply wp_get_slot; [done | lia | ]. intros [f | ] L; [ | done]. apply Hs; [lia | done].
Qed.

(** Closing, opening *)

Lemma keeps_Close fd : keeps closing T is_i32 (FileSystem_Close ux fd).
Proof.
  intros [t u] HT. unfold FileSystem_Close. apply wp_if; intros Hb.
  { apply wp_ret. split; [cint | done]. }
  bool_prop. apply wp_bind, wp_get_slot; [done | lia | ]. intros [f | ] L; cbn beta iota.
  2: { apply wp_ret. split; [cint | done]. }
  destruct (ti_close t u (Z.to_nat fd) f HT (index_2 fd ltac:(lia)) L) as [HT' Hc].
  apply wp_bind, wp_on_unix. unfold delete_OpenFile, sysdep_Close.
  apply wp_bind, wp_bind, wp_host, wp_bind, wp_ASSERT; intros Hr; bool_prop.
  - destruct Hc; [lia | done].
  - apply wp_ret, wp_ret, wp_bind, wp_set_slot; [by eapply ti_length | lia | ].
    apply wp_ret. split; [cint | done].
Qed.

Lemma wp_claim_slot {E} (Q : option Z -> fd_table * U -> Prop) fd t u n : forall i,
  T (t, u) -> 2 <= i -> i + Z.of_nat n <= 20 -> Q None (t, u) ->
  (forall k, 2 <= k < 20 -> t !! Z.to_nat k = Some None ->
     Q (Some k) (<[Z.to_nat k := Some (new_OpenFile fd)]> t, u)) ->
  wp E Q (claim_slot n i fd) (t, u).
Proof.
  induction n as [ | n IH]; intros i HT Hi Hn HN HS; simpl; [by apply wp_ret | ].
  apply wp_bind, wp_get_slot; [done | lia | ]. intros [f | ] L; cbn beta iota.
  - apply IH; [done | lia | lia | done | done].
  - apply wp_bind, wp_set_slot; [by eapply ti_length | lia | ]. apply wp_ret, HS; [lia | done].
Qed.

Lemma keeps_open_with name flags : keeps no_fault T is_i32 (open_with ux name flags).
Proof.
  intros [t u] HT. unfold open_with. apply wp_bind, wp_unix.
  pose proof (ti_open name flags t u HT) as HT1.
  destruct (sys_open ux name flags u) as [fd u1] eqn:Eo. cbn [fst snd] in *.
  apply wp_if; intros Hb; bool_prop; [by apply wp_ret; split; [cint | ] | ].
  apply wp_bind, wp_claim_slot; [done | lia | lia | | ].
  - cbn beta iota. apply wp_bind, wp_unix, wp_ret. split; [cint | by apply (ti_reclose name flags t u)].
  - intros k Hk L. cbn beta iota. apply wp_ret. split; [cint | ].
    apply (ti_claim name flags t u); try done. apply index_2. lia.
Qed.

Lemma keeps_Open name ty : keeps no_fault T is_i32 (FileSystem_Open ux name ty).
Proof.
  unfold FileSystem_Open. apply keeps_if; intros _; [apply keeps_open_with | ].
  apply keeps_if; intros _; [apply keeps_open_with | apply keeps_ret; cint].
Qed.

Lemma keeps_Create name st : keeps failed T anything (FileSystem_Create ux name st).
Proof.
  unfold FileSystem_Create. apply (keeps_bind anything).
  - intros [t u] HT. apply wp_on_unix. unfold OpenForWrite. apply wp_bind, wp_host, wp_bind, wp_ASSERT; [done | ].
    intros _. apply wp_ret. split; [done | by apply ti_open].
  - intros fd _. apply keeps_if; intros _; [by apply keeps_ret | ].
    eapply keeps_bind; [eapply keeps_weaken; [apply keeps_Close | apply ti_closing] | ].
    intros r _. by apply keeps_ret.
Qed.

(** Removing *)

Lemma wp_inode_open {E} (Q : bool -> fd_table * U -> Prop) ino t u n : forall i,
  T (t, u) -> 0 <= i -> i + Z.of_nat n <= 20 -> (forall b, Q b (t, u)) -> wp E Q (inode_open ux n i ino) (t, u).
Proof.
  induction n as [ | n IH]; intros i HT Hi Hn HQ; simpl; [by apply wp_ret | ].
  apply wp_bind, wp_get_slot; [done | lia | ]. intros [f | ] L; cbn beta iota; [ | apply IH; done || lia].
  apply wp_bind, wp_on_unix, wp_gets, wp_if; intros _; [by apply wp_ret | apply IH; done || lia].
Qed.

Lemma keeps_Remove name : keeps no_fault T anything (FileSystem_Remove ux name).
Proof.
  intros [t u] HT. unfold FileSystem_Remove. apply wp_bind, wp_unix.
  pose proof (ti_open name O_RDONLY t u HT) as HT1.
  destruct (sys_open ux name O_RDONLY u) as [fd u1] eqn:Eo. cbn [fst snd] in *.
  apply wp_if; intros Hb; bool_prop; [by apply wp_ret | ].
  apply wp_bind, wp_on_unix, wp_gets, wp_bind, wp_inode_open; [done | lia | lia | ]. intros found.
  apply wp_bind, wp_unix. assert (HT2 : T (t, (sys_close ux fd u1).2)) by (by apply (ti_reclose name O_RDONLY t u)).
  apply wp_if; intros _; [by apply wp_ret | ].
  apply wp_bind, wp_on_unix. unfold Unlink. apply wp_bind, wp_host, wp_ret, wp_ret.
  split; [done | by apply ti_unlink].
Qed.

(** Reading, writing, seeking *)

Section OneFile.
Context (m : Machine) {C : Type} (k : Kernel U C).

(** The state after a file call: only the table and the host differ. *)
Definition files_only {A} (P : A -> Prop) (a : A) (s : Machine * Kernel U C) : Prop :=
  P a /\ s.1 = m /\ console s.2 = console k /\ T (fdTable s.2, unix_state s.2).

Lemma wp_on_files {E A} (P : A -> Prop) (x : stM (fd_table * U) A) :
  wp E (fun a fs => P a /\ T fs) x (fdTable k, unix_state k) ->
  wp E (files_only P) (on_files x) (m, k).
Proof.
  unfold wp, on_files. run. destruct (x (fdTable k, unix_state k)) as [[a [t u]] | f]; [ | done].
  intros [HP HT]. by split_and!.
Qed.

Lemma wp_moved {E} {A} (P : A -> Prop) a fd f f' t u :
  T (t, u) -> 2 <= fd < 20 -> t !! Z.to_nat fd = Some (Some f) -> file f' = file f -> is_i32 (currentOffset f') ->
  P a -> wp E (fun a fs => P a /\ T fs) (set_slot fd (Some f');; mret a) (t, u).
Proof.
  intros HT Hfd L Hf Ho HP. apply wp_bind, wp_set_slot; [by eapply ti_length | lia | ].
  apply wp_ret. split; [done | ]. eapply ti_move; [done | apply index_2; lia | done..].
Qed.

(** Seeking in the host's file first *)
Lemma wp_Lseek {E : fault -> Prop} (Q : unit -> U -> Prop) fd o w t u :
  T (t, u) -> E AssertFail -> (forall u', T (t, u') -> Q tt u') -> wp E Q (Lseek ux fd o w) u.
Proof.
  intros HT HE HQ. unfold Lseek. apply wp_bind, wp_host, wp_ASSERT; [done | ]. intros _.
  by apply HQ, ti_lseek.
Qed.

Lemma wp_SysRead {E : fault -> Prop} n fd :
  T (fdTable k, unix_state k) -> (2 <= fd < 20 -> E AssertFail) -> 0 <= n -> is_i32 n ->
  wp E (files_only (fun r => is_i32 r.1 /\ (exact -> r.1 <= Z.of_nat (length r.2)))) (SysRead ux n fd) (m, k).
Proof.
  intros HT HE Hn Hni. apply wp_on_files. set (t := fdTable k) in *.
  assert (Hno : forall u, T (t, u) -> (is_i32 (-1) /\ (exact -> -1 <= Z.of_nat (@length Z []))) /\ T (t, u))
    by (intros; split_and!; [cint.. | simpl; lia | done]).
  apply wp_bind, wp_get; [done | by apply wp_ret, Hno | ]. intros f Hfd L. cbn beta iota.
  apply wp_bind, wp_on_unix, wp_gets, wp_if; intros _; [by apply wp_ret, Hno | ].
  apply wp_bind, wp_on_unix. unfold OpenFile_Read, ReadAt. apply wp_bind, wp_bind.
  eapply wp_Lseek; [exact HT | by apply HE | ]. intros u1 HT1. unfold ReadPartial. apply wp_host.
  pose proof (ti_read (file f) n t u1 HT1) as HT2.
  destruct (sys_read ux (file f) n u1) as [[c bs] u2] eqn:Er. cbn [fst snd] in *.
  apply wp_ret. eapply wp_moved; [done | done | done | done | apply to_i32_range | ].
  split; [apply to_i32_range | ]. intros Hx. simpl.
  destruct (ti_exact _ _ _ _ _ _ Hx Hn Er) as [[-> ->] | [-> Hc]]; [simpl; cint | ].
  rewrite to_i32_id; [lia | cint].
Qed.

Lemma wp_SysWrite {E : fault -> Prop} b n fd :
  T (fdTable k, unix_state k) -> (2 <= fd < 20 -> E AssertFail) -> is_i32 n ->
  (2 <= fd < 20 -> 0 <= n <= Z.of_nat (length b) \/ E Undefined) ->
  wp E (files_only is_i32) (SysWrite ux b n fd) (m, k).
Proof.
  intros HT HE Hn Hb. apply wp_on_files. set (t := fdTable k) in *.
  assert (Hno : forall u, T (t, u) -> is_i32 (-1) /\ T (t, u)) by (intros; split; [cint | done]).
  apply wp_bind, wp_get; [done | by apply wp_ret, Hno | ]. intros f Hfd L. cbn beta iota.
  apply wp_bind, wp_on_unix, wp_gets, wp_if; intros _; [by apply wp_ret, Hno | ].
  apply wp_bind, wp_on_unix. unfold OpenFile_Write, WriteAt. apply wp_bind, wp_bind.
  eapply wp_Lseek; [exact HT | by apply HE | ]. intros u1 HT1. apply wp_bind. destruct ((0 <=? n) && (n <=? Z.of_nat (length b))) eqn:Eb.
  2: { destruct (Hb Hfd) as [? | HU]; [ | done]. apply andb_false_iff in Eb as [? | ?]; bool_prop; lia. }
  eapply wp_lift; [done | ]. unfold WriteFile. apply wp_bind, wp_bind, wp_host, wp_ASSERT; [by intros _; apply HE | ].
  intros _. apply wp_ret, wp_ret. eapply wp_moved; [by apply ti_write | done | done | done | apply to_i32_range | done].
Qed.

Lemma wp_SysSeek {E : fault -> Prop} p fd :
  T (fdTable k, unix_state k) -> (2 <= fd < 20 -> E AssertFail) -> is_i32 p ->
  wp E (files_only is_i32) (SysSeek ux p fd) (m, k).
Proof.
  intros HT HE Hp. apply wp_on_files. set (t := fdTable k) in *.
  apply wp_bind, wp_get; [done | by apply wp_ret; split; [cint | ] | ]. intros f Hfd L. cbn beta iota.
  apply wp_bind, wp_on_unix. unfold OpenFile_Seek, OpenFile_Length, Tell. apply wp_bind, wp_bind.
  eapply wp_Lseek; [exact HT | by apply HE | ]. intros u1 HT1. apply wp_bind, wp_host, wp_ret.
  pose proof (ti_lseek (file f) 0 1 t u1 HT1) as HT2. destruct (sys_lseek ux (file f) 0 1 u1) as [pos u2]. cbn [fst snd] in *.
  apply wp_if; intros _; [ | apply wp_if; intros _]; apply wp_ret; cbn beta iota.
  - eapply wp_moved; [done | done | done | done | apply to_i32_range | apply to_i32_range].
  - by eapply wp_moved.
  - apply wp_bind, wp_set_slot; [by eapply ti_length | lia | ]. apply wp_ret.
    rewrite list_insert_id by done. split; [cint | done].
Qed.

End OneFile.
End FileCalls.

(** ** Any host: the table keeps its twenty slots *)

Definition twenty {U} (s : fd_table * U) : Prop := length s.1 = 20%nat.

#[global] Instance twenty_inv {U} (ux : UnixOps U) : TableInv ux twenty (fun f => f = AssertFail) False.
Proof. split; unfold twenty; simpl; intros; try rewrite length_insert; auto; done. Qed.

(** ** A UNIX host: the descriptors behind the table *)

Section Files.
Context {U : Type} (ux : UnixOps U) (fd_open : Z -> U -> Prop).
Context `{!UnixLaws ux fd_open, !UnixCounts ux fd_open}.
Implicit Types (t : fd_table) (u : U).

(** Twenty slots, an open descriptor of its own for each that is in use
    ([table_wf]); the first two are the console's; offsets are ints. *)
Record files_wf (s : fd_table * U) : Prop := {
  fw_table : table_wf fd_open s.1 s.2;
  fw_stdin : s.1 !! 0%nat = Some (Some (new_OpenFile 0));
  fw_stdout : s.1 !! 1%nat = Some (Some (new_OpenFile 1));
  fw_offsets i f : s.1 !! i = Some (Some f) -> is_i32 (currentOffset f)
}.

Lemma files_wf_host t u u' :
  files_wf (t, u) -> (forall i f, t !! i = Some (Some f) -> fd_open (file f) u -> fd_open (file f) u') -> files_wf (t, u').
Proof. intros [[Hl Ho Hd] H0 H1 Hi] Hu. split; [split | ..]; simpl in *; eauto. Qed.

Lemma files_wf_slot t u u' i o :
  files_wf (t, u) -> (2 <= i)%nat -> table_wf fd_open (<[i := o]> t) u' ->
  (forall f, o = Some f -> is_i32 (currentOffset f)) -> files_wf (<[i := o]> t, u').
Proof.
  intros [_ H0 H1 Hi] H2 Hwf Ho. split; simpl in *; [done | | | ].
  1, 2: by rewrite list_lookup_insert_ne by lia.
  intros j f [(_ & -> & _) | [_ Hj]]%list_lookup_insert_Some; eauto.
Qed.

Lemma table_move t u i f f' :
  table_wf fd_open t u -> t !! i = Some (Some f) -> file f' = file f -> table_wf fd_open (<[i := Some f']> t) u.
Proof.
  intros [Hl Ho Hd] Hi Hf.
  assert (Hold : forall j g, <[i := Some f']> t !! j = Some (Some g) ->
    exists g', t !! j = Some (Some g') /\ file g' = file g).
  { intros j g [(<- & [= <-] & _) | [_ Hj]]%list_lookup_insert_Some; eauto. }
  split; [by rewrite length_insert | | ].
  - intros j g (g' & Hg & <-)%Hold. by eapply Ho.
  - intros j j' g g' (h & Hh & <-)%Hold (h' & Hh' & <-)%Hold. by eapply Hd.
Qed.

(** The table [FileSystem] starts with, when the host has the standard input
    and output open. *)
Lemma new_files_wf u : fd_open 0 u -> fd_open 1 u -> files_wf (new_FileSystem, u).
Proof.
  intros H0 H1.
  assert (Hcases : forall i f, new_FileSystem !! i = Some (Some f) ->
    i = 0%nat /\ f = new_OpenFile 0 \/ i = 1%nat /\ f = new_OpenFile 1).
  { intros [ | [ | i]] f Hf; [by left; simplify_eq/= | by right; simplify_eq/= | ].
    change (replicate 18 (@None OpenFile) !! i = Some (Some f)) in Hf. by apply lookup_replicate in Hf as [? _]. }
  split; [split | done | done | ]; simpl.
  - done.
  - intros i f [[_ ->] | [_ ->]]%Hcases; done.
  - intros i j f g [[-> ->] | [-> ->]]%Hcases [[-> ->] | [-> ->]]%Hcases; done.
  - intros i f [[_ ->] | [_ ->]]%Hcases; simpl; cint.
Qed.

#[global] Instance files_inv : TableInv ux files_wf no_fault True.
Proof.
  split.
  - intros t u Hw. apply Hw.
  - intros fd n t u Hw. eapply files_wf_host; [done | ]. intros. eapply read_law; [apply surjective_pairing | done].
  - intros fd b n t u Hw. eapply files_wf_host; [done | ]. intros. eapply write_law; [apply surjective_pairing | done].
  - intros fd o w t u Hw. eapply files_wf_host; [done | ]. intros. eapply lseek_law; [apply surjective_pairing | done].
  - intros name t u Hw. eapply files_wf_host; [done | ]. intros. eapply unlink_law; [apply surjective_pairing | done].
  - intros t u Hw. eapply files_wf_host; [done | ]. intros. by apply rand_law.
  - intros name flags t u Hw. eapply files_wf_host; [done | ]. intros i f _ Hf.
    destruct (open_law _ _ _ _ _ (surjective_pairing (sys_open ux name flags u))) as [(_ & H) | (_ & _ & H)];
      apply H; auto.
  - intros t u i f f' Hw H2 Hi Hf Ho. eapply files_wf_slot; [done | done | | by intros ? [= <-]].
    eapply table_move; [apply Hw | done | done].
  - intros t u i f Hw H2 Hi. pose proof (table_open _ _ _ (fw_table _ Hw) _ _ Hi) as Hop.
    destruct (close_law _ _ _ _ (surjective_pairing (sys_close ux (file f) u)) Hop) as [-> Hu].
    split; [ | left; lia]. eapply files_wf_slot; [done | done | | done].
    eapply table_clear; [apply Hw | done | done].
  - intros name flags t u fd u' i Hw Eo Hfd H2 Hi.
    destruct (open_law _ _ _ _ _ Eo) as [(-> & _) | (_ & Hn & Hu)]; [done | ].
    eapply files_wf_slot; [done | done | | intros ? [= <-]; simpl; cint].
    eapply table_claim; [apply Hw | done | done].
  - intros name flags t u fd u' Hw Eo Hfd.
    destruct (open_law _ _ _ _ _ Eo) as [(-> & _) | (_ & Hn & Hu)]; [done | ].
    destruct (close_law _ _ _ _ (surjective_pairing (sys_close ux fd u'))) as [_ Hu']; [by apply Hu; left | ].
    eapply files_wf_host; [done | ]. intros j f _ Hf. apply Hu'. split; [by intros <- | ]. apply Hu. auto.
  - done.
  - intros fd n u c bs u' _. apply read_count.
Qed.

End Files.

(** The host of the examples counts what it reads. *)
#[global] Instance host_counts : UnixCounts host_ops host_open_fd.
Proof.
  split; [ | done]. intros fd n h c bs h' Hn E. simpl in E. unfold host_read in E.
  repeat case_match; simplify_eq; auto. right. split; [done | ]. rewrite length_take. lia.
Qed.
