(* ===== verification/SyscallSafety.v ===== *)
(** * The kernel keeps its side of the trap interface

    Every system call of [ExceptionHandler] (userprog/exception.cc) comes to
    an end, leaves the machine and the table of open files well formed and
    changes no register but the result register and the program counters;
    and the ways in which it can fail to return are named, call by call.  With
    the properties of the simulator this gives the safety of running any user
    program. *)

From S2P Require Import Prelude Machine Mips MipsSafety FileSysStub Syscall SyscallNum TtyConsole FileCalls.

(** A line of input too long for the buffer of [SysReadNum]. *)
Definition long_line (n : nat) (inp : list Z) : Prop :=
  (n <= length inp)%nat /\ Forall (fun c => ends_line c = false) (take n inp).

Section Safety.
Context {U C : Type} (ux : UnixOps U) `{!Console C}.

Notation St := (Machine * Kernel U C)%type.
Implicit Types (m : Machine) (k : Kernel U C) (s : St).

(** The file part of the kernel state. *)
Definition files k : fd_table * U := (fdTable k, unix_state k).

(** The registers a system call does not touch before [ProcessPCRegister]. *)
Definition same_regs m m' : Prop := forall n, 0 <= n < NumTotalRegs -> n <> 2 -> reg m' n = reg m n.

(** The invariant during a call that started on machine [m0]; [F] is what is
    known of the files. *)
Definition during (F : fd_table * U -> Prop) (m0 : Machine) s : Prop :=
  machine_wf s.1 /\ F (files s.2) /\ same_regs m0 s.1.

Lemma during_mono (F G : fd_table * U -> Prop) m0 s : (forall fs, F fs -> G fs) -> during F m0 s -> during G m0 s.
Proof. intros HFG (Hwf & HF & Hr). split_and!; auto. Qed.

(** *** The kernel's own accesses to user memory *)

Definition translation_fault (ex : ExceptionType) : Prop :=
  match ex with
  | PageFaultException | ReadOnlyException | BusErrorException | AddressErrorException => True
  | _ => False
  end.

Lemma RaiseException_halts ex addr m k :
  machine_wf m -> is_i32 addr -> translation_fault ex ->
  RaiseException setStatus (FaultHandler (U := U) (C := C)) ex addr (m, k) = Fail Halted.
Proof.
  intros Hwf Ha Hex. unfold RaiseException. run. rewrite setreg_ok by (done || regs).
  assert (Hwf1 : machine_wf (upd m BadVAddrReg addr)).
  { apply upd_wf; [done | ]. apply may_set_other; [regs | regs | done]. }
  destruct (DelayedLoad_ok (upd m BadVAddrReg addr) k 0 0 Hwf1) as (-> & _); [regs | cint | ].
  by destruct ex.
Qed.

(** A translation that fails does so with one of the four faults. *)
Lemma Translate_fault m va size w ex pa m' :
  machine_wf m -> is_size size -> Translate m va size w = Ok (ex, pa, m') -> ex <> NoException ->
  translation_fault ex.
Proof.
  intros Hwf Hs E Hne. destruct (Translate_spec m va size w (wf_tables _ Hwf) Hs)
    as (ex' & pa' & m2 & E' & _ & _ & _ & Hex). rewrite E in E'. injection E' as <- <- <-.
  by destruct ex.
Qed.

Lemma kReadMem_spec addr size m k :
  machine_wf m -> is_size size -> is_i32 addr ->
  kReadMem addr size (m, k) = Fail Halted \/
  exists v m', kReadMem addr size (m, k) = Ok (Some v, (m', k)) /\ is_i32 v /\ machine_wf m' /\
    registers m' = registers m.
Proof.
  intros Hwf Hs Ha. unfold kReadMem.
  destruct (ReadMem_spec setStatus FaultHandler m k addr size (wf_tables _ Hwf) (wf_mem _ Hwf) Hs)
    as (ex & pa & m' & ET & [(-> & v & _ & _ & ->) | (Hne & ->)]).
  - right. destruct (Translate_wf _ _ _ _ _ _ Hwf Hs ET) as (? & ? & _).
    exists (narrow size v), m'. split_and!; [done | by apply narrow_i32 .. | done | done].
  - left. unfold mbind, stM_bind.
    rewrite RaiseException_halts by (done || by eapply Translate_fault). done.
Qed.

Lemma kWriteMem_spec addr size v m k :
  machine_wf m -> is_size size -> is_i32 addr ->
  kWriteMem addr size v (m, k) = Fail Halted \/
  exists m', kWriteMem addr size v (m, k) = Ok (true, (m', k)) /\ machine_wf m' /\
    registers m' = registers m.
Proof.
  intros Hwf Hs Ha. unfold kWriteMem.
  destruct (WriteMem_spec setStatus FaultHandler m k addr size v (wf_tables _ Hwf) (wf_mem _ Hwf) Hs)
    as (ex & pa & m' & ET & [(-> & mem' & Est & ->) | (Hne & ->)]).
  - right. destruct (Translate_wf _ _ _ _ _ _ Hwf Hs ET) as ([Hr1 Hm1 Ht1 Hs1] & Hr & Hm & Hp0 & Hp1).
    destruct (wf_mem _ Hwf) as [Hl Hb].
    destruct (store_le_spec (Z.to_nat size) (mainMemory m) pa (v mod 256 ^ size) Hb)
      as (mem2 & E2 & Hb2 & Hl2 & _); [done | unfold is_size in Hs; lia | ].
    rewrite Est in E2. injection E2 as <-. eexists. split; [done | ]. split; [ | done].
    split; [done | split; simpl; [lia | done] | done | done].
  - left. unfold mbind, stM_bind.
    rewrite RaiseException_halts by (done || by eapply Translate_fault). done.
Qed.

Lemma size_1 : is_size 1.
Proof. by left. Qed.

Lemma kReadMem_address addr m k v m' :
  machine_wf m -> is_i32 addr -> kReadMem (U := U) (C := C) addr 1 (m, k) = Ok (v, (m', k)) ->
  to_u32 addr < MemorySize.
Proof.
  intros Hwf Ha E. unfold kReadMem in E.
  destruct (ReadMem_spec setStatus (FaultHandler (U := U) (C := C)) m k addr 1
    (wf_tables _ Hwf) (wf_mem _ Hwf) size_1) as (ex & pa & m1 & ET & [(-> & _) | (Hne & ER)]).
  - destruct (Translate_spec m addr 1 false (wf_tables _ Hwf) size_1) as (ex & ? & ? & ET' & _ & _ & _ & Hex).
    rewrite ET in ET'. injection ET' as <- <- <-. destruct Hex as (i & e & [_ He _ _ _ _ _]).
    destruct (wf_space _ Hwf) as [Htlb Hsz]. pose proof (wf_tables _ Hwf) as Ht.
    unfold entry_for, tables_wf in *. rewrite Htlb in *. destruct (pageTable m) as [pt | ]; [ | done].
    destruct He as (-> & Hi & _).
    unfold MemorySize, NumPhysPages, PageSize in *. pose proof (to_u32_range addr). cint.
  - rewrite E in ER. unfold mbind, stM_bind in ER.
    rewrite RaiseException_halts in ER by (done || by (eapply Translate_fault; [ | apply size_1 | ..])).
    done.
Qed.

Section Parts.
Context (E : fault -> Prop) (F : fd_table * U -> Prop) (m0 : Machine).
Notation I := (during F m0).

(** *** The console *)

Lemma during_console s inp txt s' : I s -> console_step s inp txt s' -> I s'.
Proof. intros (Hwf & HF & Hr) [Hm _ Hf Hu _ _]. unfold during, files. rewrite Hm, Hf, Hu. by split_and!. Qed.

Lemma keeps_SysPrintChar ch : keeps E I anything (SysPrintChar ch).
Proof.
  intros s Hs. destruct (SysPrintChar_spec s ch) as (s' & Es & Hc).
  eapply wp_ok; [exact Es | ]. split; [done | by eapply during_console].
Qed.

(** A C string: a NUL inside the buffer. *)
Definition terminated (buffer : list Z) : Prop := exists j, zget buffer j = Ok 0.

Lemma terminated_holds buffer : terminated buffer -> exists txt, holds buffer txt.
Proof.
  intros (j & (Hj & Hl)%zget_ok). revert Hl. generalize (Z.to_nat j) as i. clear Hj j.
  induction buffer as [ | c b IH]; intros i Hl; [done | ].
  destruct (Z.eq_dec c 0) as [-> | Hc]; [by exists [], b | ].
  destruct i as [ | i]; [by simplify_eq/= | ]. destruct (IH i Hl) as (txt & rest & -> & Hnz).
  exists (c :: txt), rest. split; [done | by constructor].
Qed.

Lemma keeps_SysPrintString buffer : terminated buffer -> keeps E I anything (SysPrintString buffer).
Proof.
  intros (txt & Ht)%terminated_holds s Hs. destruct (SysPrintString_spec buffer txt s Ht) as (s' & Es & Hc).
  eapply wp_ok; [exact Es | ]. split; [done | by eapply during_console].
Qed.

Lemma invalid_terminated : terminated invalid_error.
Proof. by exists 8. Qed.

Lemma overflow_terminated : terminated overflow_error.
Proof. by exists 9. Qed.

Lemma keeps_SysPrintNum n : is_i32 n -> keeps E I anything (SysPrintNum n).
Proof.
  intros Hn s Hs. destruct (SysPrintNum_spec n s Hn) as (s' & txt & Es & _ & Hc).
  eapply wp_ok; [exact Es | ]. split; [done | by eapply during_console].
Qed.

(** One character: it is there, or the call does not return. *)
Lemma wp_SysReadChar (Q : Z -> St -> Prop) s :
  I s -> (input s = [] -> E Waiting /\ E Halted) ->
  (forall c cs s', input s = c :: cs -> is_i8 c -> I s' -> input s' = cs -> Q c s') -> wp E Q SysReadChar s.
Proof.
  intros Hs HN HS. destruct (input s) as [ | c cs] eqn:Ei.
  - destruct (HN eq_refl) as [HW HH]. unfold wp, SysReadChar, on_console.
    destruct (getchar_end (console s.2) Ei) as [-> | ->]; done.
  - destruct (SysReadChar_spec s c cs Ei) as (s' & Es & Hc). eapply wp_ok; [exact Es | ].
    apply (HS c cs); [done | | by eapply during_console | apply Hc].
    destruct (getchar_law (console s.2) c cs Ei) as (k' & Eg & _). exact (getchar_i8 _ _ _ Eg).
Qed.

(** *** Buffers *)

Lemma keeps_zget {A} (l : list A) i :
  0 <= i < Z.of_nat (length l) -> keeps E I (fun c => zget l i = Ok c) (lift (zget l i)).
Proof. intros Hi. destruct (zget_in_range l i Hi) as (c & _ & ->). by apply keeps_lift; intros ? [= <-]. Qed.

Lemma keeps_zset {A} (l : list A) i x :
  0 <= i < Z.of_nat (length l) -> keeps E I (fun l' => zset l i x = Ok l') (lift (zset l i x)).
Proof. intros Hi. rewrite (zset_in_range l i x Hi). by apply keeps_lift; intros ? [= <-]. Qed.

Lemma anything_all {A} (P : A -> Prop) a : P a -> anything a.
Proof. done. Qed.

Lemma wp_zset {A} (Q : list A -> St -> Prop) (l : list A) i x s :
  0 <= i < Z.of_nat (length l) -> (forall l', zset l i x = Ok l' -> length l' = length l -> Q l' s) ->
  wp E Q (lift (zset l i x)) s.
Proof.
  intros Hi HQ. eapply wp_lift; [by apply zset_in_range | ].
  apply HQ; [by apply zset_in_range | apply length_insert].
Qed.

(** The loop of [SysReadString] stays inside the buffer; it waits only when
    the input is shorter than the buffer. *)
Lemma wp_read_string n : forall i buffer s,
  I s -> 0 <= i -> i + Z.of_nat n <= Z.of_nat (length buffer) ->
  ((length (input s) < n)%nat -> E Waiting /\ E Halted) ->
  wp E (fun b s' => I s' /\ length b = length buffer /\
      ((exists j, i <= j < i + Z.of_nat n /\ zget b j = Ok 0) \/ long_line n (input s)))
    (read_string_loop n i buffer) s.
Proof.
  induction n as [ | n IH]; intros i buffer s Hs Hi Hn HW; cbn [read_string_loop].
  { apply wp_ret. split_and!; [done | done | ]. right. split; [lia | by rewrite take_0]. }
  apply wp_bind, wp_SysReadChar; [done | intros E0; apply HW; rewrite E0; simpl; lia | ].
  intros c cs s1 Ei _ Hs1 Ei1. apply wp_bind, wp_zset; [lia | ]. intros b1 _ Hl1.
  apply wp_if; intros Hc.
  - apply wp_zset; [lia | ]. intros b2 E2 Hl2. split_and!; [done | lia | ]. left. exists i. split; [lia | ].
    by eapply zget_zset_eq.
  - eapply wp_mono; [apply (IH (i + 1) b1 s1 Hs1); [lia | lia | ] | ].
    { intros Hlt. apply HW. rewrite Ei, <- Ei1. simpl. lia. }
    intros b s2 (Hs2 & Hl & Hb). split_and!; [done | lia | ].
    destruct Hb as [(j & Hj & Hz) | [Hlen Hall]]; [left; exists j; split; [lia | done] | right].
    rewrite Ei, <- Ei1. split; [simpl; lia | ]. rewrite firstn_cons. by constructor.
Qed.

(** *** Numbers *)

(** The scan finds the end of the line inside the buffer, or runs off it. *)
Lemma scan_len_cases buffer fuel : forall i,
  0 <= i -> Z.of_nat (length buffer) < i + Z.of_nat fuel -> (0 < fuel)%nat ->
  match scan_len fuel i buffer with
  | Ok len => i <= len < Z.of_nat (length buffer)
  | Fail f => f = Undefined /\ forall j, i <= j -> zget buffer j <> Ok 0
  end.
Proof.
  induction fuel as [ | f IH]; intros i Hi Hf H0; [lia | ]. cbn [scan_len]. run.
  destruct (zget buffer i) as [c | e] eqn:Ez.
  - pose proof (zget_ok _ _ _ Ez) as [Hr _]. destruct (negb (c =? 0) && negb (c =? 10)) eqn:Ec; [ | simpl; lia].
    specialize (IH (i + 1) ltac:(lia) ltac:(lia) ltac:(lia)). destruct (scan_len f (i + 1) buffer); [lia | ].
    destruct IH as [-> Hno]. split; [done | ]. intros j Hj. destruct (Z.eq_dec j i) as [-> | ]; [ | apply Hno; lia].
    rewrite Ez. intros [= ->]. done.
  - split; [unfold zget in Ez; by repeat case_match; simplify_eq | ]. intros j Hj (Hr & _)%zget_ok.
    destruct (zget_in_range buffer i) as (c & _ & Ec); [lia | congruence].
Qed.

Lemma keeps_read_digits buffer neg n : forall i number,
  0 <= i -> i + Z.of_nat n <= Z.of_nat (length buffer) -> 0 <= number <= INT_MAX ->
  keeps E I (fun r => match r with inl v => is_i32 v | inr z => 0 <= z <= INT_MAX end)
    (read_digits n i buffer neg number).
Proof.
  induction n as [ | n IH]; intros i number Hi Hl Hn; cbn [read_digits]; [by apply keeps_ret | ].
  eapply keeps_bind; [apply keeps_zget; lia | intros c _].
  keep; try (apply keeps_SysPrintString; auto using invalid_terminated, overflow_terminated);
    try (unfold INT_MIN, INT_MAX; cint).
  apply IH; [lia | lia | ]. unfold INT_MAX, MAX_INT_DIV_10 in *. bool_prop.
  destruct (Z.eqb_spec number 214748364); simpl in *; bool_prop; lia.
Qed.

Lemma wp_SysReadNum s :
  I s -> ((length (input s) < 12)%nat -> E Waiting /\ E Halted) -> (long_line 12 (input s) -> E Undefined) ->
  wp E (fun v s' => is_i32 v /\ I s') SysReadNum s.
Proof.
  intros Hs HW HU. unfold SysReadNum. apply wp_bind. unfold SysReadString.
  eapply wp_mono; [apply (wp_read_string 12 0); [done | lia | by rewrite length_replicate | done] | ].
  intros b s1 (Hs1 & Hl & Hb). rewrite length_replicate in Hl.
  pose proof (scan_len_cases b 13 0 ltac:(lia) ltac:(lia) ltac:(lia)) as Hscan.
  apply wp_bind. unfold wp at 1, lift. destruct (scan_len 13 0 b) as [len | f].
  2: { destruct Hscan as [-> Hno]. destruct Hb as [(j & Hj & Hz) | ]; [ | auto]. by destruct (Hno j ltac:(lia)). }
  assert (Hk : keeps E I is_i32 (if len =? 0 then SysPrintString invalid_error;; mret INT_MIN
    else c ← lift (zget b 0); r ← read_digits (Z.to_nat (len - (if c =? 45 then 1 else 0))) (if c =? 45 then 1 else 0) b (c =? 45) 0;
      match r with inl v => mret v | inr number => mret (if c =? 45 then - number else number) end)); [ | by apply Hk].
  apply keeps_if; intros H0.
  - eapply keeps_bind; [apply keeps_SysPrintString, invalid_terminated | intros _ _].
    apply keeps_ret. unfold INT_MIN, INT_MAX. cint.
  - bool_prop. eapply keeps_bind; [apply keeps_zget; lia | intros c _].
    eapply keeps_bind; [apply keeps_read_digits; unfold INT_MAX; destruct (c =? 45); lia | ].
    intros [v | z] Hr; apply keeps_ret; [done | ]. unfold INT_MAX in *. destruct (c =? 45); cint.
Qed.

(** *** Registers *)

Lemma during_upd2 m k v : I (m, k) -> is_i32 v -> I (upd m 2 v, k).
Proof.
  intros (Hwf & Hk & Hr) Hv. split_and!; [ | done | ].
  - apply upd_wf; [done | ]. apply may_set_other; [regs | regs | done].
  - intros n Hn Hne. simpl. rewrite reg_upd_ne by lia. by apply Hr.
Qed.

Lemma keeps_ReadRegister n : 0 <= n < NumTotalRegs -> n <> 2 ->
  keeps E I (fun v => v = reg m0 n /\ is_i32 v) (ReadRegister n).
Proof.
  intros Hn H2 [m k] Hs. unfold ReadRegister. apply wp_bind.
  rewrite (proj2 (Z.leb_le 0 n)), (proj2 (Z.ltb_lt n NumTotalRegs)) by lia.
  eapply wp_lift; [done | ]. eapply wp_ok; [apply getreg_ok; [apply Hs | done] | ].
  destruct Hs as (Hwf & HF & Hr). split_and!; [by apply Hr | by apply reg_i32 | done..].
Qed.

(** Reading a register changes nothing. *)
Lemma wp_ReadRegister (Q : Z -> St -> Prop) n s :
  I s -> 0 <= n < NumTotalRegs -> n <> 2 -> (is_i32 (reg m0 n) -> Q (reg m0 n) s) -> wp E Q (ReadRegister n) s.
Proof.
  intros Hs Hn H2 HQ. destruct s as [m k]. destruct Hs as (Hwf & _ & Hr). simpl in Hwf, Hr. unfold ReadRegister. apply wp_bind.
  rewrite (proj2 (Z.leb_le 0 n)), (proj2 (Z.ltb_lt n NumTotalRegs)) by lia.
  eapply wp_lift; [done | ]. eapply wp_ok; [by apply getreg_ok | ]. rewrite (Hr n Hn H2).
  apply HQ. rewrite <- (Hr n Hn H2). by apply reg_i32.
Qed.

Lemma keeps_WriteRegister2 v : is_i32 v -> keeps E I anything (WriteRegister 2 v).
Proof.
  intros Hv [m k] Hs. unfold WriteRegister. apply wp_bind. eapply wp_lift; [done | ].
  eapply wp_ok; [apply setreg_ok; [apply Hs | regs] | ]. split; [done | by apply during_upd2].
Qed.

(** *** User memory *)

Lemma during_registers m m' k : I (m, k) -> machine_wf m' -> registers m' = registers m -> I (m', k).
Proof.
  intros (Hwf & Hk & Hr) Hwf' Heq. split_and!; [done | done | ].
  intros n Hn Hne. simpl. unfold reg. rewrite Heq. by apply Hr.
Qed.

Context (HH : E Halted).

Lemma keeps_kReadMem addr :
  is_i32 addr -> keeps E I (fun o => is_Some o /\ to_u32 addr < MemorySize) (kReadMem addr 1).
Proof.
  intros Ha [m k] Hs. unfold wp.
  destruct (kReadMem_spec addr 1 m k) as [-> | (v & m' & Er & Hv & Hwf' & Hr)];
    [apply Hs | apply size_1 | done | done | ].
  rewrite Er. split; [split; [by eexists | ] | by eapply during_registers].
  by eapply kReadMem_address; [apply Hs | | exact Er].
Qed.

Lemma keeps_kWriteMem addr v : is_i32 addr -> keeps E I anything (kWriteMem addr 1 v).
Proof.
  intros Ha [m k] Hs. unfold wp.
  destruct (kWriteMem_spec addr 1 v m k) as [-> | (m' & -> & Hwf' & Hr)];
    [apply Hs | apply size_1 | done | done | ].
  split; [done | by eapply during_registers].
Qed.

(** *** Copies between user and kernel memory *)

(** [n] is a size [new char[n]] may throw on. *)
Definition refused (n : Z) (u : U) : Prop := n < 0 \/ sys_new ux n u = false.

Lemma wp_new_chars (Q : list Z -> St -> Prop) n s :
  I s -> (forall fs, F fs -> refused n fs.2 -> E Uncaught) -> (0 <= n -> Q (replicate (Z.to_nat n) 0) s) ->
  wp E Q (new_chars ux n) s.
Proof.
  intros Hs Hnew HQ. unfold new_chars. apply wp_bind, wp_gets. unfold wp, lift.
  destruct (Z.ltb_spec n 0); simpl; [apply (Hnew (files s.2)); [apply Hs | by left] | ].
  destruct (sys_new ux n (unix_state s.2)) eqn:En; simpl; [auto | ].
  apply (Hnew (files s.2)); [apply Hs | by right].
Qed.

Lemma keeps_new_chars n : (forall fs, F fs -> refused n fs.2 -> E Uncaught) ->
  keeps E I (fun b => b = replicate (Z.to_nat n) 0 /\ 0 <= n) (new_chars ux n).
Proof. intros Hnew s Hs. by apply wp_new_chars. Qed.

(** Every byte of the result that was read lies, with all before it, at an
    address inside user memory; the bytes from [i + n] on are untouched. *)
Definition read_inside (va i : Z) (n : nat) (b b' : list Z) : Prop :=
  length b' = length b /\ (forall j, i + Z.of_nat n <= j -> zget b' j = zget b j) /\
  forall j c, zget b' j = Ok c -> zget b j = Ok c \/ c = 0 \/
    (i <= j /\ forall j', i <= j' <= j -> to_u32 (to_i32 (va + j')) < MemorySize).

Lemma keeps_user2system_loop va kn n : forall i b,
  0 <= i -> i + Z.of_nat n <= Z.of_nat (length b) ->
  keeps E I (read_inside va i n b) (user2system_loop n i va kn b).
Proof.
  induction n as [ | n IH]; intros i b Hi Hn; cbn [user2system_loop].
  { apply keeps_ret. split_and!; auto. }
  eapply keeps_bind; [apply keeps_kReadMem, to_i32_range | ].
  intros o [[v ->] Hin]. cbn beta iota.
  eapply keeps_bind; [apply keeps_zset; lia | ]. intros b1 E1. apply zset_length in E1 as Hl1.
  assert (Hne : forall j, j <> i -> zget b1 j = zget b j) by (intros j Hj; apply (zget_zset_ne _ _ _ _ _ E1); congruence).
  apply keeps_if; intros Hv.
  - apply keeps_ret. split_and!; [lia | intros j Hj; apply Hne; lia | ]. intros j c Hj.
    destruct (Z.eq_dec j i) as [-> | Hji]; [ | left; by rewrite <- Hne].
    right; left. rewrite (zget_zset_eq _ _ _ _ E1) in Hj. bool_prop. subst v. by injection Hj as <-.
  - eapply keeps_impl; [apply IH; lia | ]. intros b' (Hl & Hafter & Hb'). split_and!; [lia | | ].
    { intros j Hj. rewrite Hafter by lia. apply Hne. lia. }
    intros j c Hj. destruct (Hb' j c Hj) as [Hj1 | [-> | [Hij Hall]]]; [ | by right; left | ].
    + destruct (Z.eq_dec j i) as [-> | Hji]; [ | left; by rewrite <- Hne].
      right; right. split; [lia | ]. intros j' Hj'. by replace j' with i by lia.
    + right; right. split; [lia | ]. intros j' Hj'.
      destruct (Z.eq_dec j' i) as [-> | ]; [done | ]. apply Hall. lia.
Qed.

(** What [User2System] returns: a buffer of [limit + 1] bytes, the last one
    NUL; if byte [limit - 1] is not zero all its bytes are user memory. *)
Record copied (va limit : Z) (b : list Z) : Prop := {
  copied_length : Z.of_nat (length b) = limit + 1;
  copied_nul : 0 <= limit -> zget b limit = Ok 0;
  copied_inside c : zget b (limit - 1) = Ok c -> c <> 0 ->
    forall j, 0 <= j < limit -> to_u32 (to_i32 (va + j)) < MemorySize
}.

Lemma keeps_User2System va limit kn :
  is_i32 limit -> (forall fs, F fs -> refused (to_i32 (limit + 1)) fs.2 -> E Uncaught) ->
  keeps E I (copied va limit) (User2System ux va limit kn).
Proof.
  intros Hl Hnew. unfold User2System. eapply keeps_bind; [by apply keeps_new_chars | ].
  intros b [-> Hsz]. assert (Hlim : to_i32 (limit + 1) = limit + 1 /\ -1 <= limit) by cint.
  destruct Hlim as [-> Hlim].
  eapply keeps_impl; [apply keeps_user2system_loop; rewrite ?length_replicate; lia | ].
  intros b (Hlen & Hafter & Hb). rewrite length_replicate in Hlen. split; [lia | | ].
  - intros H0. rewrite Hafter by lia. apply zget_lookup; [done | ]. apply lookup_replicate_2. lia.
  - intros c Hc Hne j Hj. destruct (Hb _ _ Hc) as [H0 | [? | [_ Hall]]]; [ | done | apply Hall; lia].
    apply zget_ok in H0 as [_ H0]. by apply lookup_replicate in H0 as [? _].
Qed.

Lemma keeps_zget_or {A} (l : list A) i :
  0 <= i < Z.of_nat (length l) \/ E Undefined -> keeps E I anything (lift (zget l i)).
Proof.
  intros [Hi | HU]; [by eapply keeps_impl, anything_all; apply keeps_zget | ].
  apply keeps_lift; [done | ]. intros f. unfold zget. repeat case_match; intros; by simplify_eq.
Qed.

Lemma keeps_system2user_loop va kn b n : forall i,
  0 <= i -> i + Z.of_nat n <= Z.of_nat (length b) \/ E Undefined ->
  keeps E I anything (system2user_loop n i va b kn).
Proof.
  induction n as [ | n IH]; intros i Hi Hn; cbn [system2user_loop]; [by apply keeps_ret | ].
  eapply keeps_bind; [apply keeps_zget_or; destruct Hn; [left; lia | by right] | intros c _].
  eapply keeps_bind; [apply keeps_kWriteMem, to_i32_range | intros _ _].
  apply keeps_if; intros _; [apply IH; [lia | destruct Hn; [left; lia | by right]] | by apply keeps_ret].
Qed.

Lemma keeps_System2User va len b kn :
  len <= Z.of_nat (length b) \/ E Undefined -> keeps E I anything (System2User va len b kn).
Proof.
  intros Hl. unfold System2User. apply keeps_if; intros H0; [by apply keeps_ret | ].
  apply keeps_if; intros _; [by apply keeps_ret | ]. bool_prop. apply keeps_system2user_loop; [done | ].
  destruct Hl; [left; lia | by right].
Qed.

(** Printing a user string comes to an end: user memory holds sixteen chunks. *)
Lemma keeps_print_chunks fuel : (forall fs, F fs -> refused (MAX_SIZE + 1) fs.2 -> E Uncaught) -> forall va,
  is_i32 va -> MemorySize <= to_u32 va + (Z.of_nat fuel - 1) * MAX_SIZE -> (0 < fuel)%nat ->
  keeps E I anything (print_chunks ux fuel va).
Proof.
  intros Hnew. induction fuel as [ | f IH]; intros va Hva Hf H0; [lia | ]. cbn [print_chunks].
  eapply keeps_bind; [by apply keeps_User2System; [unfold MAX_SIZE; cint | ] | intros b [Hl Hn Hb]].
  eapply keeps_bind; [apply keeps_SysPrintString; exists MAX_SIZE; apply Hn; unfold MAX_SIZE; lia | intros _ _].
  eapply keeps_bind; [apply keeps_zget; unfold MAX_SIZE in *; lia | intros c Hc].
  apply keeps_if; intros Ez; [by apply keeps_ret | ]. bool_prop.
  specialize (Hb c Hc Ez). pose proof (Hb 0 ltac:(unfold MAX_SIZE; lia)) as Hfirst.
  pose proof (Hb (MAX_SIZE - 1) ltac:(unfold MAX_SIZE; lia)) as Hlast.
  rewrite Z.add_0_r, to_i32_id in Hfirst by done.
  assert (Hstep : to_u32 (to_i32 (va + MAX_SIZE)) = to_u32 va + MAX_SIZE).
  { unfold MemorySize, NumPhysPages, PageSize, MAX_SIZE in *. cint. }
  apply IH; [apply to_i32_range | | ]; unfold MAX_SIZE, MemorySize, NumPhysPages, PageSize in *; lia.
Qed.

(** *** The console as a file *)

Lemma wp_read_console n : forall i b s,
  I s -> 0 <= i -> i + Z.of_nat n <= Z.of_nat (length b) ->
  ((length (input s) < n)%nat -> E Waiting /\ E Halted) ->
  wp E (fun r s' => I s' /\ 0 <= r.1 <= i + Z.of_nat n /\ length r.2 = length b) (read_console n i b) s.
Proof.
  clear HH. induction n as [ | n IH]; intros i b s Hs Hi Hn HW; cbn [read_console].
  { apply wp_ret. simpl. split_and!; [done | lia | lia | done]. }
  apply wp_bind, wp_SysReadChar; [done | intros E0; apply HW; rewrite E0; simpl; lia | ].
  intros c cs s1 Ei _ Hs1 Ei1. apply wp_bind, wp_zset; [lia | ]. intros b1 _ Hl1.
  apply wp_if; intros Hc.
  - apply wp_bind, wp_zset; [lia | ]. intros b2 _ Hl2. apply wp_ret. simpl. split_and!; [done | lia | lia | lia].
  - eapply wp_mono; [apply (IH (i + 1) b1 s1 Hs1); [lia | lia | ] | ].
    { intros Hlt. apply HW. rewrite Ei, <- Ei1. simpl. lia. }
    intros r s2 (Hs2 & Hr & Hl). split_and!; [done | lia | lia | lia].
Qed.

Lemma keeps_write_console b n : forall i,
  0 <= i -> i + Z.of_nat n <= Z.of_nat (length b) -> keeps E I anything (write_console n i b).
Proof.
  clear HH. induction n as [ | n IH]; intros i Hi Hn; cbn [write_console]; [by apply keeps_ret | ].
  eapply keeps_bind; [apply keeps_zget; lia | intros c _].
  eapply keeps_bind; [apply keeps_SysPrintChar | intros _ _]. apply IH; lia.
Qed.

End Parts.
(** ** How a call can fail to return

    The registers are those of the user program, [k] the kernel state when the
    call is made. *)

Definition bad_length m : bool := (reg m 5 <? 0) || (MAX_SIZE <=? reg m 5).

(** The number of console characters a call may ask for; a call that finds
    fewer may wait for ever, or until the machine halts. *)
Definition wanted (sc : syscall_type) m : Z :=
  match sc with
  | SC_ReadChar => 1
  | SC_ReadNum => 12
  | SC_ReadString => if bad_length m then 0 else reg m 5
  | SC_Read => if reg m 6 =? 0 then reg m 5 else 0
  | _ => 0
  end.

Definition starved (sc : syscall_type) m k : Prop := Z.of_nat (length (con_in (console k))) < wanted sc m.

(** The size of the array a call allocates. *)
Definition request (sc : syscall_type) m : option Z :=
  match sc with
  | SC_Exit | SC_Exec | SC_Join | SC_Create | SC_Remove | SC_Open | SC_PrintString => Some (MAX_SIZE + 1)
  | SC_ReadString => if bad_length m then None else Some (reg m 5)
  | SC_Read => Some (reg m 5)
  | SC_Write => Some (to_i32 (reg m 5 + 1))
  | _ => None
  end.

(** The calls that read or write the program's memory: a bad address halts
    the machine. *)
Definition copies (sc : syscall_type) : bool :=
  match sc with
  | SC_Exit | SC_Exec | SC_Join | SC_Create | SC_Remove | SC_Open | SC_Read | SC_Write
  | SC_ReadString | SC_PrintString => true
  | _ => false
  end.

(** The calls that halt the machine. *)
Definition shuts_down (sc : syscall_type) m : bool :=
  match sc with
  | SC_Halt | SC_ThreadFork | SC_ThreadYield | SC_ExecV | SC_ThreadExit | SC_ThreadJoin => true
  | SC_ReadString => bad_length m
  | _ => false
  end.

(** The calls that assert that a UNIX call succeeded. *)
Definition asserts (sc : syscall_type) m : Prop :=
  match sc with
  | SC_Exit | SC_Exec | SC_Join | SC_Create => True
  | SC_Read | SC_Write => 2 <= reg m 6 < 20
  | SC_Seek => 2 <= reg m 5 < 20
  | _ => False
  end.

Definition call_exit (sc : syscall_type) m k (f : fault) : Prop :=
  match f with
  | Halted => shuts_down sc m = true \/ copies sc = true \/ starved sc m k
  | Waiting => starved sc m k
  | AssertFail => asserts sc m
  | Uncaught => exists n, request sc m = Some n /\ refused n (unix_state k)
  | Undefined =>
      (sc = SC_ReadNum /\ long_line 12 (con_in (console k))) \/
      (sc = SC_Write /\ reg m 5 = -1 /\ 2 <= reg m 6 < 20)
  | OutOfFuel => False
  end.

Section Calls.
Context (T : fd_table * U -> Prop) (closing : fault -> Prop) (exact : Prop).
Context `{!TableInv ux T closing exact}.
Context (E : fault -> Prop) (m0 : Machine).

Lemma keeps_on_files {A} (P : A -> Prop) (x : stM (fd_table * U) A) :
  keeps E T P x -> keeps E (during T m0) P (on_files x).
Proof.
  intros Hx [m k] (Hwf & Hk & Hr). unfold wp, on_files. run.
  specialize (Hx (files k) Hk). unfold wp, files in Hx.
  destruct (x (fdTable k, unix_state k)) as [[a [t u]] | f]; [ | done].
  destruct Hx as [HP Ht]. by split_and!.
Qed.

Lemma keeps_files_only {A} (P : A -> Prop) (x : stM St A) :
  (forall m k, T (files k) -> wp E (files_only T m k P) x (m, k)) -> keeps E (during T m0) P x.
Proof.
  intros Hx [m k] (Hwf & Hk & Hr). eapply wp_mono; [by apply Hx | ].
  intros a s' (HP & Hm & _ & HT). split; [done | ]. unfold during. rewrite Hm. by split_and!.
Qed.

(** A phase on the state the call found, then one on the files. *)
Lemma wp_phase {A} (P : A -> Prop) (x : stM St A) (g : A -> stM St unit) fs s :
  T fs -> during (eq fs) m0 s -> keeps E (during (eq fs) m0) P x ->
  (forall a, P a -> keeps E (during T m0) anything (g a)) ->
  wp E (fun _ s' => during T m0 s') (x ≫= g) s.
Proof.
  intros HT Hs Hx Hg. apply wp_bind. eapply wp_mono; [by apply Hx | ].
  intros a s' [HP Hs']. eapply wp_mono; [apply (Hg a HP) | by intros [] ? [_ ?]].
  eapply during_mono; [ | exact Hs']. by intros ? <-.
Qed.

Lemma keeps_done (x : stM St unit) fs s :
  T fs -> during (eq fs) m0 s -> keeps E (during T m0) anything x -> wp E (fun _ s' => during T m0 s') x s.
Proof.
  intros HT Hs Hx. eapply wp_mono; [apply Hx | by intros [] ? [_ ?]].
  eapply during_mono; [ | exact Hs]. by intros ? <-.
Qed.

Ltac reads := eapply keeps_bind; [apply keeps_ReadRegister; regs | intros ? [-> ?]].
Ltac wp_reads := apply wp_bind; eapply wp_ReadRegister; [eassumption | regs | regs | intros ?].

Lemma neg1_i32 : is_i32 (-1).
Proof. cint. Qed.

Lemma zero_i32 : is_i32 0.
Proof. cint. Qed.

#[local] Hint Resolve neg1_i32 zero_i32 to_i32_range : core.

(** *** Calls on registers and the console *)

Lemma keeps_SystemCallAdd : keeps E (during T m0) anything SystemCallAdd.
Proof. unfold SystemCallAdd, SysAdd. do 2 reads. apply keeps_WriteRegister2. auto. Qed.

Lemma keeps_SystemCallPrintNum : keeps E (during T m0) anything SystemCallPrintNum.
Proof. unfold SystemCallPrintNum. reads. by apply keeps_SysPrintNum. Qed.

Lemma keeps_SystemCallPrintChar : keeps E (during T m0) anything SystemCallPrintChar.
Proof. unfold SystemCallPrintChar. reads. apply keeps_SysPrintChar. Qed.

Lemma keeps_SystemCallRandomNum : keeps E (during T m0) anything (SystemCallRandomNum ux).
Proof.
  unfold SystemCallRandomNum, SysRandomNum. eapply (keeps_bind is_i32); [ | intros; by apply keeps_WriteRegister2].
  eapply (keeps_bind anything); [ | intros r _; apply keeps_ret, to_i32_range].
  apply keeps_on_files. intros [t u] HT. apply wp_unix. split; [done | by apply ti_rand].
Qed.

Section FromStart.
Context (sc : syscall_type) (m : Machine) (k : Kernel U C).
Context (HT : T (files k)) (Hs : during (eq (files k)) m0 (m, k)).
Context (Hx : forall f, call_exit sc m0 k f -> E f).
Notation served_ok := (fun (_ : unit) s' => during T m0 s').

Lemma start_starved : starved sc m0 k -> E Waiting /\ E Halted.
Proof. intros Hst. split; apply Hx; simpl; auto. Qed.

Lemma start_copies : copies sc = true -> E Halted.
Proof. intros Hc. apply Hx. simpl. auto. Qed.

Lemma start_request n fs : request sc m0 = Some n -> files k = fs -> refused n fs.2 -> E Uncaught.
Proof. intros Hr <- Hn. apply Hx. by exists n. Qed.

Lemma wp_SystemCallReadChar : sc = SC_ReadChar -> wp E served_ok SystemCallReadChar (m, k).
Proof.
  intros Hsc. unfold SystemCallReadChar. apply wp_bind. eapply wp_SysReadChar; [exact Hs | | ].
  - unfold input. simpl. intros E0. apply start_starved. unfold starved. rewrite E0, Hsc. simpl. lia.
  - intros c cs s' _ Hc Hs' _. eapply keeps_done; [exact HT | exact Hs' | ]. apply keeps_WriteRegister2. cint.
Qed.

Lemma wp_SystemCallReadNum : sc = SC_ReadNum -> wp E served_ok SystemCallReadNum (m, k).
Proof.
  intros Hsc. unfold SystemCallReadNum. apply wp_bind. eapply wp_mono; [eapply wp_SysReadNum; [exact Hs | | ] | ].
  - unfold input. simpl. intros Hl. apply start_starved. unfold starved. rewrite Hsc. simpl. lia.
  - intros Hl. apply Hx. by left.
  - intros v s' [Hv Hs']. eapply keeps_done; [exact HT | exact Hs' | by apply keeps_WriteRegister2].
Qed.

Lemma wp_SystemCallReadString : sc = SC_ReadString ->
  wp E (fun _ s' => bad_length m0 = false /\ during T m0 s') (SystemCallReadString ux) (m, k).
Proof.
  intros Hsc. unfold SystemCallReadString. do 2 wp_reads. fold (bad_length m0).
  assert (HW : wanted sc m0 = if bad_length m0 then 0 else reg m0 5) by (by rewrite Hsc).
  assert (HR : request sc m0 = if bad_length m0 then None else Some (reg m0 5)) by (by rewrite Hsc).
  apply wp_if; intros Hb; rewrite Hb in HW, HR.
  - apply wp_bind. eapply wp_mono; [by apply (keeps_SysPrintString E (eq (files k)) m0), Hs; apply invalid_terminated | ].
    intros _ s' _. apply Hx. simpl. left. by rewrite Hsc.
  - apply wp_bind. eapply wp_new_chars; [exact Hs | intros fs; by apply start_request | ].
    intros Hpos. apply wp_bind. unfold SysReadString.
    eapply wp_mono; [eapply wp_read_string; [exact Hs | lia | rewrite length_replicate; lia | ] | ].
    { unfold input. simpl. intros Hl. apply start_starved. unfold starved. rewrite HW. lia. }
    intros b2 s2 (Hs2 & Hl & _). rewrite length_replicate in Hl.
    eapply wp_mono; [eapply keeps_done; [exact HT | exact Hs2 | ] | by intros].
    eapply keeps_bind; [ | intros _ _; by apply keeps_ret].
    apply keeps_System2User; [apply start_copies; by rewrite Hsc | left; lia].
Qed.

Lemma wp_SystemCallPrintString : sc = SC_PrintString -> wp E served_ok (SystemCallPrintString ux) (m, k).
Proof.
  intros Hsc. unfold SystemCallPrintString. wp_reads.
  eapply wp_mono; [apply (keeps_print_chunks E (eq (files k)) m0); [ | | done | | | exact Hs] | ].
  - apply start_copies. by rewrite Hsc.
  - intros fs Hf. apply start_request; [by rewrite Hsc | done].
  - pose proof (to_u32_range (reg m0 4)). change (MemorySize / MAX_SIZE) with 16.
    unfold MemorySize, NumPhysPages, PageSize, MAX_SIZE. unfold is_u32 in *. lia.
  - lia.
  - intros [] s' [_ Hs']. eapply during_mono; [ | exact Hs']. by intros ? <-.
Qed.

(** A call that starts by copying a name from the program. *)
Lemma wp_name_call va (g : list Z -> stM St unit) :
  request sc m0 = Some (MAX_SIZE + 1) -> copies sc = true ->
  (forall b, keeps E (during T m0) anything (g b)) ->
  wp E served_ok (User2System ux va MAX_SIZE false ≫= g) (m, k).
Proof.
  intros Hr Hc Hg. eapply wp_phase; [exact HT | exact Hs | | intros b _; apply Hg].
  apply keeps_User2System; [by apply start_copies | unfold MAX_SIZE; cint | ].
  intros fs Hf. by apply start_request.
Qed.

Lemma keeps_any {A} (F : fault -> Prop) (P : A -> Prop) (x : stM (fd_table * U) A) :
  keeps F T P x -> (forall f, F f -> E f) -> keeps E (during T m0) P (on_files x).
Proof. intros Hk HF. apply keeps_on_files. by eapply keeps_weaken. Qed.

Lemma keeps_result (b : bool) : keeps E (during T m0) anything (if b then write_result 0 else write_result (-1)).
Proof. destruct b; by apply keeps_WriteRegister2. Qed.

Lemma wp_SystemCallCreate :
  request sc m0 = Some (MAX_SIZE + 1) -> copies sc = true -> asserts sc m0 -> wp E served_ok (SystemCallCreate ux) (m, k).
Proof.
  intros Hr Hc Ha. unfold SystemCallCreate. wp_reads. apply wp_name_call; [done | done | ]. intros b.
  unfold SysCreate. apply keeps_if; intros _; [by apply keeps_WriteRegister2 | ].
  eapply (keeps_bind anything); [ | intros; apply keeps_result].
  eapply keeps_any; [by eapply keeps_Create | ]. intros f ->. by apply Hx.
Qed.

Lemma wp_SystemCallRemove : sc = SC_Remove -> wp E served_ok (SystemCallRemove ux) (m, k).
Proof.
  intros Hsc. unfold SystemCallRemove. wp_reads. apply wp_name_call; [by rewrite Hsc.. | ]. intros b.
  unfold SysRemove. apply keeps_if; intros _; [by apply keeps_WriteRegister2 | ].
  eapply (keeps_bind anything); [ | intros; apply keeps_result].
  eapply keeps_any; [by eapply keeps_Remove | done].
Qed.

Lemma wp_SystemCallOpen : sc = SC_Open -> wp E served_ok (SystemCallOpen ux) (m, k).
Proof.
  intros Hsc. unfold SystemCallOpen. do 2 wp_reads. apply wp_name_call; [by rewrite Hsc.. | ]. intros b.
  eapply keeps_bind; [eapply keeps_any; [by eapply keeps_Open | done] | ].
  intros r Hr. by apply keeps_WriteRegister2.
Qed.

Lemma wp_SystemCallClose : (forall f, closing f -> E f) -> wp E served_ok (SystemCallClose ux) (m, k).
Proof.
  intros Hc. unfold SystemCallClose. wp_reads. eapply keeps_done; [exact HT | exact Hs | ].
  eapply keeps_bind; [eapply keeps_any; [by eapply keeps_Close | done] | ].
  intros r Hr. by apply keeps_WriteRegister2.
Qed.

Lemma wp_SystemCallSeek : sc = SC_Seek -> wp E served_ok (SystemCallSeek ux) (m, k).
Proof.
  intros Hsc. unfold SystemCallSeek. do 2 wp_reads. eapply keeps_done; [exact HT | exact Hs | ].
  apply keeps_if; intros _.
  - eapply keeps_bind; [apply keeps_SysPrintString, invalid_terminated | intros; by apply keeps_WriteRegister2].
  - eapply keeps_bind; [ | intros r Hr; apply keeps_WriteRegister2; exact Hr].
    apply keeps_files_only. intros m1 k1 HT1. eapply (wp_SysSeek ux T closing exact); [done | | done].
    intros Hfd. apply Hx. simpl. by rewrite Hsc.
Qed.

Lemma wp_SystemCallWrite : sc = SC_Write -> wp E served_ok (SystemCallWrite ux) (m, k).
Proof.
  intros Hsc. unfold SystemCallWrite. do 3 wp_reads.
  eapply wp_phase; [exact HT | exact Hs | apply keeps_User2System | ].
  - apply start_copies. by rewrite Hsc.
  - done.
  - intros fs Hf. apply start_request; [by rewrite Hsc | done].
  - intros b [Hl _ _]. apply keeps_if; intros _; [ | apply keeps_if; intros _].
    + eapply keeps_bind; [apply keeps_SysPrintString, invalid_terminated | intros; by apply keeps_WriteRegister2].
    + eapply keeps_bind; [apply keeps_write_console; lia | intros; by apply keeps_WriteRegister2].
    + eapply keeps_bind; [ | intros r Hr; apply keeps_WriteRegister2; exact Hr].
      apply keeps_files_only. intros m1 k1 HT1. eapply (wp_SysWrite ux T closing exact); [done | | done | ]; intros Hfd.
      * apply Hx. simpl. by rewrite Hsc.
      * destruct (Z.eq_dec (reg m0 5) (-1)); [right; apply Hx; by right | left; lia].
Qed.

Lemma wp_SystemCallRead : sc = SC_Read -> exact \/ E Undefined -> wp E served_ok (SystemCallRead ux) (m, k).
Proof.
  intros Hsc He. unfold SystemCallRead. do 3 wp_reads.
  assert (HHalt : E Halted) by (apply start_copies; by rewrite Hsc).
  apply wp_bind. eapply wp_new_chars; [exact Hs | intros fs; apply start_request; by rewrite Hsc | ].
  intros Hpos. apply wp_if; intros _; [ | apply wp_if; intros H6].
  - eapply keeps_done; [exact HT | exact Hs | ].
    eapply keeps_bind; [apply keeps_SysPrintString, invalid_terminated | intros; by apply keeps_WriteRegister2].
  - apply wp_bind. eapply wp_mono; [eapply wp_read_console; [exact Hs | lia | rewrite length_replicate; lia | ] | ].
    { unfold input. simpl. intros Hl. apply start_starved. unfold starved. rewrite Hsc. simpl. rewrite H6. lia. }
    intros [i b2] s2 (Hs2 & Hi & Hl). rewrite length_replicate in Hl. cbn [fst snd] in *.
    eapply keeps_done; [exact HT | exact Hs2 | ]. eapply keeps_bind; [apply keeps_System2User; [done | left; lia] | ].
    intros _ _. apply keeps_WriteRegister2. unfold is_i32 in *. lia.
  - eapply keeps_done; [exact HT | exact Hs | ].
    eapply keeps_bind; [apply keeps_files_only; intros m1 k1 HT1; eapply (wp_SysRead ux T closing exact); [done | | done | done] | ].
    { intros Hfd. apply Hx. simpl. by rewrite Hsc. }
    intros [r bs] [Hr Hlen]. cbn [fst snd] in *. apply (keeps_bind anything); [ | intros; by apply keeps_WriteRegister2].
    apply keeps_if; intros _; [ | by apply keeps_ret].
    eapply keeps_bind; [apply keeps_System2User; [done | ] | intros; by apply keeps_ret].
    destruct He as [He | He]; [left; auto | by right].
Qed.

End FromStart.
(** *** The program counter *)

(** [s'] is [s] with the program counters [n] instructions further on and the
    other registers, but the result register, unchanged. *)
Record resumed (n : Z) (m : Machine) (s' : St) : Prop := {
  res_wf : machine_wf s'.1;
  res_kernel : T (files s'.2);
  res_pc : reg s'.1 PCReg = to_i32 (reg m PCReg + 4 * n);
  res_next : 0 < n -> reg s'.1 NextPCReg = to_i32 (reg m PCReg + 4 * n + 4);
  res_regs j : 0 <= j < NumTotalRegs -> j <> 2 -> j <> PCReg -> j <> NextPCReg -> j <> PrevPCReg ->
    reg s'.1 j = reg m j
}.

Lemma start_resumed m k : machine_wf m -> T (files k) -> resumed 0 m (m, k).
Proof.
  intros Hwf HT. split; [done | done | | lia | done]. rewrite Z.add_0_r. symmetry. apply to_i32_id.
  apply reg_i32; [done | regs].
Qed.

Lemma ProcessPC_resumed n m1 m k :
  0 <= n -> resumed n m1 (m, k) ->
  exists m', ProcessPCRegister (m, k) = Ok (tt, (m', k)) /\ resumed (n + 1) m1 (m', k).
Proof.
  intros Hn [Hwf Hk Hpc Hnext Hregs]. simpl in *. set (pc := reg m PCReg) in *.
  set (ma := upd m PrevPCReg pc). set (mb := upd ma PCReg (to_i32 (pc + 4))).
  assert (Hpci : is_i32 pc) by (apply reg_i32; [done | regs]).
  assert (Hwf1 : machine_wf ma) by (apply upd_wf; [done | apply may_set_other; [regs | regs | done]]).
  assert (Hwf2 : machine_wf mb) by (apply upd_wf; [done | apply may_set_other; [regs | regs | auto]]).
  assert (H1 : reg ma PCReg = pc) by (subst ma; apply reg_upd_ne; regs).
  assert (H2 : reg mb PCReg = to_i32 (pc + 4)) by (subst mb; apply reg_upd_eq; [done | regs]).
  set (mc := upd mb NextPCReg (to_i32 (to_i32 (pc + 4) + 4))).
  assert (Hwf3 : machine_wf mc) by (apply upd_wf; [done | apply may_set_other; [regs | regs | auto]]).
  exists mc. split.
  - unfold ProcessPCRegister, ReadRegister, WriteRegister. run. simpl.
    rewrite getreg_ok by (done || regs). fold pc. rewrite setreg_ok by (done || regs). fold ma.
    rewrite getreg_ok by (done || regs). rewrite H1. rewrite setreg_ok by (done || regs). fold mb.
    rewrite getreg_ok by (done || regs). rewrite H2. by rewrite setreg_ok by (done || regs).
  - assert (Hq : forall a b, to_i32 (to_i32 a + b) = to_i32 (a + b)) by (intros; cint).
    split; simpl; [done | done | | | ].
    + subst mc. rewrite reg_upd_ne by regs. rewrite H2, Hpc, Hq. f_equal. lia.
    + intros _. subst mc. rewrite reg_upd_eq by (done || regs). rewrite Hpc, Hq, <- Z.add_assoc, Hq. f_equal. lia.
    + intros j Hj Hj2 HjP HjN HjV. subst mc mb ma. rewrite !reg_upd_ne by (unfold NumTotalRegs in Hj; regs).
      by apply Hregs.
Qed.

(** The number of instructions a call skips: the calls of the process group
    fall through to Create and advance the counter once per case passed. *)
Definition pc_steps (sc : syscall_type) : Z :=
  match sc with SC_Exit => 4 | SC_Exec => 3 | SC_Join => 2 | _ => 1 end.

Lemma skip_resumed n m1 (Q : unit -> St -> Prop) (rest : stM St unit) m k :
  0 <= n -> resumed n m1 (m, k) ->
  (forall m', resumed (n + 1) m1 (m', k) -> wp E Q rest (m', k)) ->
  wp E Q (ProcessPCRegister;; rest) (m, k).
Proof.
  intros Hn Hs Hrest. destruct (ProcessPC_resumed n m1 m k Hn Hs) as (m' & Ep & Hs').
  apply wp_bind. eapply wp_ok; [exact Ep | auto].
Qed.

End Calls.

(** ** The handler *)

(** What makes a call fail depends on the registers 5 and 6 only. *)
Lemma call_exit_regs sc m m' k f :
  reg m' 5 = reg m 5 -> reg m' 6 = reg m 6 -> call_exit sc m' k f -> call_exit sc m k f.
Proof.
  intros H5 H6. unfold call_exit, starved, shuts_down, wanted, asserts, request, bad_length. by rewrite H5, H6.
Qed.

Section Handler.
Context (T : fd_table * U -> Prop) (closing : fault -> Prop) (exact : Prop).
Context `{!TableInv ux T closing exact}.
Context (E : fault -> Prop) (Hclosing : forall f, closing f -> E f) (Hexact : exact \/ E Undefined).
Notation resumed := (resumed T).

Section OneCall.
Context (sc : syscall_type) (m1 : Machine) (k : Kernel U C).
Context (Hx : forall f, call_exit sc m1 k f -> E f).

(** A call made after [n] advances of the program counter. *)
Lemma served_resumed n m (Q : Prop) (call : stM St unit) :
  0 <= n -> resumed n m1 (m, k) ->
  (T (files k) -> during (eq (files k)) m (m, k) -> (forall f, call_exit sc m k f -> E f) ->
   wp E (fun _ s' => Q /\ during T m s') call (m, k)) ->
  wp E (fun _ s' => Q /\ resumed (n + 1) m1 s') (served call) (m, k).
Proof.
  intros Hn [Hwf HT Hpc Hnext Hregs] Hcall. simpl in *. apply wp_bind.
  eapply wp_mono; [apply Hcall; [done | by split_and! | ] | ].
  { intros f Hf. apply Hx. eapply call_exit_regs; [ | | exact Hf]; apply Hregs; regs. }
  intros [] [m' k'] [HQ (Hwf' & HT' & Hr')]. simpl in *.
  assert (Hs : resumed n m1 (m', k')).
  { split; simpl; [done | done | by rewrite Hr' by regs | intros; rewrite Hr' by regs; auto | ].
    intros j Hj Hj2 HjP HjN HjV. rewrite Hr' by done. by apply Hregs. }
  destruct (ProcessPC_resumed T n m1 m' k' Hn Hs) as (m2 & Ep & Hs2). eapply wp_ok; [exact Ep | done].
Qed.

Lemma served_plain m (call : stM St unit) :
  shuts_down sc m1 = false -> resumed 0 m1 (m, k) -> (T (files k) -> during (eq (files k)) m (m, k) ->
    (forall f, call_exit sc m k f -> E f) -> wp E (fun _ s' => during T m s') call (m, k)) ->
  wp E (fun _ s' => shuts_down sc m1 = false /\ resumed 1 m1 s') (served call) (m, k).
Proof.
  intros Hd Hs Hcall. eapply (served_resumed 0); [done | done | ]. intros H1 H2 H3.
  eapply wp_mono; [by apply Hcall | done].
Qed.

(** Exit, Exec and Join come to Create after advancing. *)
Lemma create_resumed n m :
  0 <= n -> resumed n m1 (m, k) -> sc = SC_Exit \/ sc = SC_Exec \/ sc = SC_Join ->
  wp E (fun _ s' => shuts_down sc m1 = false /\ resumed (n + 1) m1 s') (served (SystemCallCreate ux)) (m, k).
Proof.
  intros Hn Hs Hsc. apply served_resumed; [done | done | ]. intros HT' Hs' Hx'.
  eapply wp_mono; [apply (wp_SystemCallCreate T closing exact E m sc m k) | ]; try done;
    by destruct Hsc as [-> | [-> | ->]].
Qed.

End OneCall.

Ltac skip n := eapply (skip_resumed T E n); [lia | eassumption | intros ? ?].

Lemma SyscallHandler_resumed type sc m k :
  machine_wf m -> T (files k) -> decode_syscall type = Some sc -> (forall f, call_exit sc m k f -> E f) ->
  wp E (fun _ s' => shuts_down sc m = false /\ resumed (pc_steps sc) m s') (SyscallHandler ux type) (m, k).
Proof.
  intros Hwf HT Ed Hx. unfold SyscallHandler. rewrite Ed. pose proof (start_resumed T m k Hwf HT) as H0.
  assert (Hhalt : shuts_down sc m = true -> forall s (Q : unit -> St -> Prop),
    wp E Q (SysHalt;; lift (Fail AssertFail)) s) by (intros Hd s Q; apply (Hx Halted); by left).
  destruct sc; cbn [pc_steps]; try (apply Hhalt; done);
    try (apply (served_plain _ m k Hx m); [done | done | ]; intros HT' Hs' Hx').
  - skip 0. skip 1. skip 2. by apply (create_resumed _ m k Hx 3); [ | | auto].
  - skip 0. skip 1. by apply (create_resumed _ m k Hx 2); [ | | auto].
  - skip 0. by apply (create_resumed _ m k Hx 1); [ | | auto].
  - by apply (wp_SystemCallCreate T closing exact E m SC_Create m k).
  - by apply (wp_SystemCallRemove T closing exact E m SC_Remove m k).
  - by apply (wp_SystemCallOpen T closing exact E m SC_Open m k).
  - by apply (wp_SystemCallRead T closing exact E m SC_Read m k).
  - by apply (wp_SystemCallWrite T closing exact E m SC_Write m k).
  - by apply (wp_SystemCallSeek T closing exact E m SC_Seek m k).
  - by apply (wp_SystemCallClose T closing exact E m m k).
  - skip 0. skip 1. skip 2. skip 3. skip 4. by apply Hhalt.
  - skip 0. skip 1. skip 2. skip 3. by apply Hhalt.
  - skip 0. skip 1. skip 2. by apply Hhalt.
  - skip 0. skip 1. by apply Hhalt.
  - skip 0. by apply Hhalt.
  - eapply keeps_done; [exact HT | exact Hs' | apply keeps_SystemCallAdd].
  - by apply (wp_SystemCallReadNum T E m SC_ReadNum m k).
  - eapply keeps_done; [exact HT | exact Hs' | apply keeps_SystemCallPrintNum].
  - eapply keeps_done; [exact HT | exact Hs' | by eapply keeps_SystemCallRandomNum].
  - by apply (wp_SystemCallReadChar T E m SC_ReadChar m k).
  - eapply keeps_done; [exact HT | exact Hs' | apply keeps_SystemCallPrintChar].
  - apply (served_resumed SC_ReadString m k Hx 0 m); [done | done | ]. intros HT' Hs' Hx'.
    by apply (wp_SystemCallReadString T E m SC_ReadString m k).
  - by apply (wp_SystemCallPrintString T E m SC_PrintString m k).
Qed.

(** How the handler can fail to return: by what the call does, or on a call
    number it does not know; on any other exception it halts the machine. *)
Definition handler_exit (ex : ExceptionType) m k (f : fault) : Prop :=
  match ex with
  | NoException => False
  | SyscallException =>
      match decode_syscall (reg m 2) with Some sc => call_exit sc m k f | None => f = AssertFail end
  | _ => f = Halted
  end.

Lemma ExceptionHandler_ok ex m k :
  machine_wf m -> reg m 0 = 0 -> T (files k) -> (forall f, handler_exit ex m k f -> E f) ->
  wp E (fun _ s => machine_wf s.1 /\ reg s.1 0 = 0 /\ T (files s.2)) (ExceptionHandler ux ex) (m, k).
Proof.
  intros Hwf H0 HT Hx. unfold ExceptionHandler, ReadRegister. apply wp_bind, wp_bind. eapply wp_lift; [done | ].
  eapply wp_ok; [by apply getreg_ok; [ | regs] | ].
  destruct ex; try (by apply Hx); [by apply wp_modify | ].
  simpl in Hx. destruct (decode_syscall (reg m 2)) as [sc | ] eqn:Ed.
  - eapply wp_mono; [by apply SyscallHandler_resumed | ].
    intros [] s' [_ [Hwf' Hk' _ _ Hr]]. split_and!; [done | | done]. rewrite Hr; [done | regs..].
  - unfold SyscallHandler. rewrite Ed. by apply Hx.
Qed.

End Handler.

(** ** The kernel as the machine's trap handler, on any host *)

Definition kernel_inv k : Prop := length (fdTable k) = 20%nat.

Lemma call_exit_ends sc m k f : call_exit sc m k f -> ends f.
Proof. by destruct f. Qed.

Lemma handler_exit_ends ex m k f : handler_exit ex m k f -> ends f.
Proof.
  destruct ex; simpl; try done; try (by intros ->).
  destruct (decode_syscall _); [apply call_exit_ends | by intros ->].
Qed.

#[global] Instance kernel_trap_handler :
  TrapHandler setStatus (ExceptionHandler (C := C) ux) ends kernel_inv.
Proof.
  split; [done | ]. intros ex m k Hwf H0 Hk.
  apply (ExceptionHandler_ok twenty (fun f => f = AssertFail) False); [by intros ? -> | by right | done | done | done | ].
  apply handler_exit_ends.
Qed.

(** [n] instructions of [Machine::Run] without its interrupts. *)
Fixpoint run_user (n : nat) : stM St unit :=
  match n with
  | O => mret tt
  | S n' => OneInstruction setStatus (ExceptionHandler ux) ;; run_user n'
  end.

(** ** On a UNIX host *)

Section Unix.
Context (fd_open : Z -> U -> Prop) `{!UnixLaws ux fd_open, !UnixCounts ux fd_open}.

(** The table of open files stands for open descriptors, one each; the first
    two slots are the console's; offsets are ints. *)
Definition kernel_wf k : Prop := files_wf fd_open (files k).


(** The machine a trap finds: the registers of the program with its pending
    load done. *)
Definition at_trap m m1 : Prop :=
  machine_wf m1 /\ reg m1 0 = 0 /\
  forall n, 0 < n < NumGPRegs -> reg m1 n = if decide (n = reg m LoadReg) then reg m LoadValueReg else reg m n.

Lemma trapped_at_trap m m' addr :
  machine_wf m -> machine_wf m' -> registers m' = registers m -> is_i32 addr -> at_trap m (trapped m' addr).
Proof.
  intros Hwf Hwf' Hr Ha. assert (Hreg : forall n, reg m' n = reg m n) by (intros n; unfold reg; by rewrite Hr).
  destruct (trapped_ok m' addr Hwf' Ha) as (Hwf1 & H0 & Hn). split_and!; [done | done | ].
  intros n Hg. by rewrite Hn, !Hreg.
Qed.

(** One instruction from state [s]: the traps it takes find that kernel state
    and those registers. *)
Definition step_exit s (f : fault) : Prop :=
  exists ex m1, at_trap s.1 m1 /\ handler_exit ex m1 s.2 f /\
    (ex = SyscallException -> fetches_syscall setStatus (ExceptionHandler ux) s.1 s.2).

(** The ways one instruction of the program can stop the machine. *)
Definition instruction_exit s (f : fault) : Prop :=
  (f = Undefined /\ fetches_div_trap setStatus (ExceptionHandler ux) s.1 s.2) \/ step_exit s f.

Lemma step_entry m k : user_inv kernel_wf (m, k) ->
  TrapEntry setStatus (ExceptionHandler ux) (step_exit (m, k))
    (fetches_syscall setStatus (ExceptionHandler ux) m k)
    (fun m' k' => registers m' = registers m /\ k' = k) kernel_wf.
Proof.
  intros (Hwf & _ & Hk). split.
  - intros ex addr m1 k1 Hwf1 Ha [Hr ->] Hc. unfold wp. rewrite RaiseException_eq by done.
    destruct (trapped_ok m1 addr Hwf1 Ha) as (Hwf2 & H0 & _). apply (wp_bind (E := step_exit (m, k))).
    eapply wp_mono.
    + apply (ExceptionHandler_ok (files_wf fd_open) no_fault True); [done | by left | done | done | done | ].
      intros f Hf. exists ex, (trapped m1 addr). split_and!; [by apply trapped_at_trap | done | done].
    + intros [] s' (? & ? & ?). by apply wp_modify.
  - by intros m1 m2 k1 [<- ->] Hr.
  - by intros m1 k1 [_ ->].
Qed.

Lemma OneInstruction_exit s : user_inv kernel_wf s ->
  wp (instruction_exit s) (fun _ s' => user_inv kernel_wf s') (OneInstruction setStatus (ExceptionHandler ux)) s.
Proof.
  destruct s as [m k]. intros Hs. pose proof (step_entry m k Hs) as HT.
  eapply wp_weaken; [ | apply (OneInstruction_entry setStatus (ExceptionHandler ux) _ _ _ _ m k (proj1 Hs))]; [ | done | done].
  intros f [Hf | Hf]; [by right | by left].
Qed.

Lemma run_user_exit n : forall s,
  user_inv kernel_wf s ->
  match run_user n s with
  | Ok (_, s') => user_inv kernel_wf s'
  | Fail f => exists j s', (j < n)%nat /\ run_user j s = Ok (tt, s') /\ user_inv kernel_wf s' /\ instruction_exit s' f
  end.
Proof.
  induction n as [ | n IH]; intros s Hs; [done | ]. cbn [run_user]. unfold mbind, stM_bind.
  pose proof (OneInstruction_exit s Hs) as Ho. unfold wp in Ho.
  destruct (OneInstruction setStatus (ExceptionHandler ux) s) as [[[] s1] | f] eqn:E1.
  - specialize (IH s1 Ho). destruct (run_user n s1) as [[[] s2] | f] eqn:E2; [done | ].
    destruct IH as (j & s' & Hj & Ej & Hs' & Hf). exists (S j), s'. split_and!; [lia | | done | done].
    cbn [run_user]. unfold mbind, stM_bind. by rewrite E1.
  - exists 0%nat, s. split_and!; [lia | done | done | done].
Qed.


End Unix.
End Safety.

(** ** Witnesses *)

Lemma example_kernel_wf : kernel_wf host_open_fd example_kernel.
Proof. apply new_files_wf; apply (bool_decide_unpack _); vm_compute; exact I. Qed.

(** The line -42 typed at a terminal, with polls that find nothing between. *)
Definition typing : terminal :=
  mkTty no_char false (Some console_time) None 0 0 0
    [None; Some 45; None; Some 52; Some 50; None; Some 10] false [] ↾ eq_refl.

Definition typing_kernel : Kernel host terminal := mkKernel SystemMode new_FileSystem host0 typing.

Lemma typing_kernel_wf : kernel_wf host_open_fd typing_kernel.
Proof. apply new_files_wf; apply (bool_decide_unpack _); vm_compute; exact I. Qed.


Lemma example_user_kernel_wf : user_inv (kernel_wf host_open_fd) (example_machine, example_kernel).
Proof. split_and!; [apply example_machine_wf | reflexivity | apply example_kernel_wf]. Qed.

