(* ===== verification/AddrSpace.v ===== *)
(** * Address spaces (userprog/addrspace.h, userprog/addrspace.cc,
      userprog/noff.h, the user-program part of threads/main.cc)

    The page table of a user program, the loading of a NOFF executable into
    main memory and the start of the program.  The program is built with
    RDATA, so a header has four segments and 52 bytes.

    [Machine::pageTable] is set to the table of the space itself, so from
    [RestoreState] on the machine's table is the space's: the use and dirty
    bits the machine sets are set in the space too, and there is one copy. *)

From S2P Require Import Prelude Machine Mips MipsSafety FileSysStub Syscall SyscallNum FileCalls SyscallSafety.

Definition NOFFMAGIC : Z := 12246957.
Definition UserStackSize : Z := 1024.

Record Segment := mkSegment { virtualAddr : Z; inFileAddr : Z; seg_size : Z }.

Record NoffHeader := mkNoff {
  noffMagic : Z;
  code : Segment;
  initData : Segment;
  readonlyData : Segment;
  uninitData : Segment
}.

Definition sizeof_NoffHeader : Z := 52.

(** The header's bytes as the struct they are read into. *)
Definition int_at (buffer : list Z) (off : Z) : res Z :=
  w ← load_le 4 buffer off; mret (to_i32 w).

Definition segment_at (buffer : list Z) (off : Z) : res Segment :=
  v ← int_at buffer off;
  a ← int_at buffer (off + 4);
  s ← int_at buffer (off + 8);
  mret (mkSegment v a s).

Definition header_at (buffer : list Z) : res NoffHeader :=
  magic ← int_at buffer 0;
  c ← segment_at buffer 4;
  i ← segment_at buffer 16;
  r ← segment_at buffer 28;
  u ← segment_at buffer 40;
  mret (mkNoff magic c i r u).

Definition SwapSegment (s : Segment) : Segment :=
  mkSegment (WordToHost (virtualAddr s)) (WordToHost (inFileAddr s)) (WordToHost (seg_size s)).

Definition SwapHeader (noffH : NoffHeader) : NoffHeader :=
  mkNoff (WordToHost (noffMagic noffH)) (SwapSegment (code noffH)) (SwapSegment (initData noffH))
    (SwapSegment (readonlyData noffH)) (SwapSegment (uninitData noffH)).

Record AddrSpace := mkAddrSpace { space_pageTable : list TranslationEntry; numPages : Z }.

(** [AddrSpace::Translate]: the exception, the physical address and the space
    with its use and dirty bits set.  [pfn] is an [int]. *)
Definition AddrSpace_Translate (space : AddrSpace) (vaddr : Z) (isReadWrite : bool)
    : res (ExceptionType * Z * AddrSpace) :=
  let vpn := vaddr / PageSize in
  let offset := vaddr mod PageSize in
  if numPages space <=? vpn then mret (AddressErrorException, 0, space)
  else
    pte ← zget (space_pageTable space) vpn;
    if isReadWrite && readOnly pte then mret (ReadOnlyException, 0, space)
    else
      let pfn := physicalPage pte in
      if NumPhysPages <=? pfn then mret (BusErrorException, 0, space)
      else
        t ← zset (space_pageTable space) vpn (touch pte isReadWrite);
        let paddr := to_u32 (pfn * PageSize + offset) in
        ASSERT (paddr <? MemorySize);;
        mret (NoException, paddr, mkAddrSpace t (numPages space)).

(** The entry the constructor gives page [i]. *)
Definition identity_entry (i : Z) : TranslationEntry := mkEntry i i true false false false.

(** [executable->ReadAt(&mainMemory[addr], ...)]: the bytes read land in main
    memory with no check of its bounds. *)
Fixpoint copy_in (mem : list Z) (addr : Z) (bytes : list Z) : res (list Z) :=
  match bytes with
  | [] => mret mem
  | b :: bs => mem ← zset mem addr (to_u8 b); copy_in mem (addr + 1) bs
  end.

(** [SaveState] has nothing to do; [RestoreState] points the machine at the
    table. *)
Definition SaveState {K} (space : AddrSpace) : stM (Machine * K) unit := mret tt.

Definition RestoreState {K} (space : AddrSpace) : stM (Machine * K) unit :=
  modify (fun s => (mkMachine (registers s.1) (mainMemory s.1) (tlb s.1)
    (Some (space_pageTable space)) (numPages space), s.2)).

(** [for (i = 0; i < NumTotalRegs; i++) machine->WriteRegister(i, 0);] *)
Fixpoint clear_registers {K} (n : nat) (i : Z) : stM (Machine * K) unit :=
  match n with
  | O => mret tt
  | S n' => WriteRegister i 0;; clear_registers n' (i + 1)
  end.

Definition InitRegisters {K} (space : AddrSpace) : stM (Machine * K) unit :=
  clear_registers (Z.to_nat NumTotalRegs) 0;;
  WriteRegister PCReg 0;;
  WriteRegister NextPCReg 4;;
  WriteRegister StackReg (to_i32 (numPages space * PageSize - 16)).

Section Spaces.
Context {U C : Type} (ux : UnixOps U) `{!Console C}.

Notation St := (Machine * Kernel U C)%type.

(** [AddrSpace::AddrSpace]; [numPages] is not initialised. *)
Definition new_AddrSpace (garbage : Z) : stM St AddrSpace :=
  modify (fun s => (with_memory s.1 (replicate (Z.to_nat MemorySize) 0), s.2));;
  mret (mkAddrSpace (identity_entry <$> seqZ 0 NumPhysPages) garbage).

Definition store_bytes (addr : Z) (bytes : list Z) : stM St unit :=
  fun s => mem ← copy_in (mainMemory s.1) addr bytes; mret (tt, (with_memory s.1 mem, s.2)).

Definition load_segment (executable : OpenFile) (seg : Segment) : stM St unit :=
  if 0 <? seg_size seg then
    '(_, bytes) ← on_files (on_unix (ReadAt ux executable (seg_size seg) (inFileAddr seg)));
    store_bytes (virtualAddr seg) bytes
  else mret tt.

(** [size] before it is rounded up, an [unsigned int]. *)
Definition space_size (noffH : NoffHeader) : Z :=
  to_u32 (seg_size (code noffH) + seg_size (readonlyData noffH) + seg_size (initData noffH) +
          seg_size (uninitData noffH) + UserStackSize).

(** The header read from the file: a short read leaves the rest of the
    uninitialised local variable, [garbage], in place. *)
Definition read_header (executable : OpenFile) (garbage : list Z) : stM St NoffHeader :=
  '(_, bytes) ← on_files (on_unix (ReadAt ux executable sizeof_NoffHeader 0));
  noffH ← lift (header_at (bytes ++ drop (length bytes) garbage));
  let noffH := if negb (noffMagic noffH =? NOFFMAGIC) && (WordToHost (noffMagic noffH) =? NOFFMAGIC)
               then SwapHeader noffH else noffH in
  lift (ASSERT (noffMagic noffH =? NOFFMAGIC));;
  mret noffH.

(** [AddrSpace::Load] *)
Definition Load (space : AddrSpace) (fileName : filename) (garbage : list Z)
    : stM St (bool * AddrSpace) :=
  o ← on_files (FileSystem_OpenExec ux fileName);
  match o with
  | None => mret (false, space)
  | Some executable =>
      noffH ← read_header executable garbage;
      let pages := divRoundUp (space_size noffH) PageSize in
      lift (ASSERT (pages <=? NumPhysPages));;
      load_segment executable (code noffH);;
      load_segment executable (initData noffH);;
      load_segment executable (readonlyData noffH);;
      on_files (on_unix (delete_OpenFile ux executable));;
      mret (true, mkAddrSpace (space_pageTable space) pages)
  end.

(** [Machine::Run] for [n] instructions, without the interrupts between
    them. *)
Definition Run (n : nat) : stM St unit :=
  modify (fun s => (s.1, setStatus UserMode s.2));;
  run_user ux n.

(** [AddrSpace::Execute] up to instruction [n] of the program. *)
Definition Execute (space : AddrSpace) (n : nat) : stM St unit :=
  InitRegisters space;;
  RestoreState space;;
  Run n.

(** The end of [main]: run the initial user program. *)
Definition main_user (userProgName : filename) (garbage : list Z) (garbage_pages : Z) (n : nat)
    : stM St unit :=
  space ← new_AddrSpace garbage_pages;
  '(ok, space) ← Load space userProgName garbage;
  if (ok : bool) then Execute space n else SysHalt.

End Spaces.

(** ** Safety of loading and starting *)

Lemma WriteRegister_ok {K} (m : Machine) (k : K) n v :
  length (registers m) = Z.to_nat NumTotalRegs -> is_reg n ->
  WriteRegister n v (m, k) = Ok (tt, (upd m n v, k)).
Proof.
  intros Hl Hn. unfold WriteRegister, setreg, upd. run. unfold ASSERT.
  rewrite (proj2 (Z.leb_le 0 n)), (proj2 (Z.ltb_lt n NumTotalRegs)) by regs. simpl.
  by rewrite zset_in_range by regs.
Qed.

Lemma upd_length (m : Machine) n v : length (registers (upd m n v)) = length (registers m).
Proof. apply length_insert. Qed.

Lemma clear_registers_ok {K} n : forall i m (k : K),
  0 <= i -> i + Z.of_nat n = NumTotalRegs -> length (registers m) = Z.to_nat NumTotalRegs ->
  take (Z.to_nat i) (registers m) = replicate (Z.to_nat i) 0 ->
  clear_registers n i (m, k) =
    Ok (tt, (with_registers m (replicate (Z.to_nat NumTotalRegs) 0), k)).
Proof.
  induction n as [ | n IH]; intros i m k Hi Hn Hl Ht.
  - assert (i = NumTotalRegs) as -> by lia. rewrite take_ge in Ht by lia.
    cbn [clear_registers]. rewrite <- Ht. by destruct m.
  - cbn [clear_registers]. unfold mbind, stM_bind. rewrite WriteRegister_ok by (done || regs).
    rewrite IH; [by destruct m | lia | lia | by rewrite upd_length | ].
    unfold upd. cbn [registers with_registers].
    replace (Z.to_nat (i + 1)) with (S (Z.to_nat i)) by lia.
    rewrite (take_S_r _ _ 0) by (apply list_lookup_insert_eq; lia).
    rewrite take_insert_ge, Ht by lia. symmetry. apply replicate_S_end.
Qed.

(** The machine a program starts on. *)
Definition started m space : Machine :=
  mkMachine (<[Z.to_nat StackReg := to_i32 (numPages space * PageSize - 16)]>
      (<[Z.to_nat NextPCReg := 4]> (replicate (Z.to_nat NumTotalRegs) 0)))
    (mainMemory m) (tlb m) (Some (space_pageTable space)) (numPages space).

Lemma start_ok {K} space m (k : K) :
  length (registers m) = Z.to_nat NumTotalRegs ->
  (InitRegisters space;; RestoreState space) (m, k) = Ok (tt, (started m space, k)).
Proof.
  intros Hl. unfold InitRegisters, RestoreState. unfold mbind, stM_bind.
  rewrite clear_registers_ok by done.
  rewrite !WriteRegister_ok by (rewrite ?upd_length; done || regs). done.
Qed.

Lemma started_regs space m : regs_wf (registers (started m space)).
Proof.
  split.
  - unfold started. cbn [registers]. by rewrite !length_insert, length_replicate.
  - repeat apply Forall_insert; [apply Forall_replicate; cint | cint | apply to_i32_range].
  - exists 0. split; [done | regs].
Qed.

(** The machine as the kernel has it before a program runs, with [Kp] of the
    kernel's state: no page table is needed yet. *)
Record booted {K} (Kp : K -> Prop) (s : Machine * K) : Prop := {
  boot_regs : length (registers s.1) = Z.to_nat NumTotalRegs;
  boot_mem : mem_wf (mainMemory s.1);
  boot_tlb : tlb s.1 = None;
  boot_kernel : Kp s.2
}.

Lemma started_inv {K} (Kp : K -> Prop) space m k :
  booted Kp (m, k) -> length (space_pageTable space) = Z.to_nat NumPhysPages ->
  0 <= numPages space <= NumPhysPages -> user_inv Kp (started m space, k).
Proof.
  intros [Hr Hm Ht Hk] Hl Hn. split; [split | done].
  - apply started_regs.
  - done.
  - unfold tables_wf. simpl in *. rewrite Ht. lia.
  - split; [done | ]. simpl. lia.
Qed.

Lemma copy_in_wf bytes : forall mem addr mem',
  mem_wf mem -> copy_in mem addr bytes = Ok mem' -> mem_wf mem'.
Proof.
  induction bytes as [ | b bs IH]; intros mem addr mem' Hm E; simpl in E; [by injection E as <- | ].
  destruct (zset mem addr (to_u8 b)) as [mem1 | ] eqn:E1; [ | done]. eapply IH; [ | exact E].
  destruct Hm as [Hl Hb]. split; [by rewrite (zset_length _ _ _ _ E1) | ].
  unfold zset in E1. case_match; [ | done]. injection E1 as <-.
  apply Forall_insert; [done | ]. unfold is_byte. cint.
Qed.

Lemma copy_in_fault bytes : forall mem addr f, copy_in mem addr bytes = Fail f ->
  f = Undefined /\ ~ (0 <= addr /\ addr + Z.of_nat (length bytes) <= Z.of_nat (length mem)).
Proof.
  induction bytes as [ | b bs IH]; intros mem addr f E; simpl in E; [done | ]. cbn [length].
  destruct (decide (0 <= addr < Z.of_nat (length mem))) as [Hin | Hout].
  - rewrite zset_in_range in E by done. destruct (IH _ _ _ E) as [-> Hno]. rewrite length_insert in Hno.
    split; [done | lia].
  - unfold zset in E. case_match; [bool_prop; lia | ]. injection E as <-. split; [done | lia].
Qed.

(** The header's fields lie inside its 52 bytes. *)
Lemma load_le_inside n : forall buffer pa,
  0 <= pa -> pa + Z.of_nat n <= Z.of_nat (length buffer) -> exists v, load_le n buffer pa = Ok v.
Proof.
  induction n as [ | n IH]; intros buffer pa H0 Hn; unfold load_le; fold load_le; run; [by eexists | ].
  destruct (zget_in_range buffer pa) as (b & _ & ->); [lia | ].
  destruct (IH buffer (pa + 1)) as (v & ->); [lia | lia | ]. by eexists.
Qed.

Lemma int_at_inside buffer off : 0 <= off -> off + 4 <= Z.of_nat (length buffer) -> exists v, int_at buffer off = Ok v.
Proof. intros H0 Hn. unfold int_at. destruct (load_le_inside 4 buffer off) as (v & ->); [lia | lia | by eexists]. Qed.

Lemma segment_at_inside buffer off :
  0 <= off -> off + 12 <= Z.of_nat (length buffer) -> exists seg, segment_at buffer off = Ok seg.
Proof.
  intros H0 Hn. unfold segment_at.
  destruct (int_at_inside buffer off) as (v & ->); [lia | lia | ].
  destruct (int_at_inside buffer (off + 4)) as (a & ->); [lia | lia | ].
  destruct (int_at_inside buffer (off + 8)) as (z & ->); [lia | lia | ]. by eexists.
Qed.

Lemma header_at_inside buffer : length buffer = 52%nat -> exists h, header_at buffer = Ok h.
Proof.
  intros Hl. unfold header_at. destruct (int_at_inside buffer 0) as (v & ->); [lia | lia | ].
  destruct (segment_at_inside buffer 4) as (s1 & ->); [lia | lia | ].
  destruct (segment_at_inside buffer 16) as (s2 & ->); [lia | lia | ].
  destruct (segment_at_inside buffer 28) as (s3 & ->); [lia | lia | ].
  destruct (segment_at_inside buffer 40) as (s4 & ->); [lia | lia | ]. by eexists.
Qed.

(** A segment that leaves main memory: [Load] does not check. *)
Definition wild (seg : Segment) : Prop :=
  0 < seg_size seg /\ ~ (0 <= virtualAddr seg /\ virtualAddr seg + seg_size seg <= MemorySize).

Section SpaceSafety.
Context {U C : Type} (ux : UnixOps U) `{!Console C}.
Context (fd_open : Z -> U -> Prop) `{!UnixLaws ux fd_open, !UnixCounts ux fd_open}.

Notation St := (Machine * Kernel U C)%type.
Implicit Types (m : Machine) (k : Kernel U C) (s : St).

(** The kernel while [Load] has descriptor [fd] open: it is not in the table. *)
Definition holding (fd : Z) k : Prop :=
  kernel_wf fd_open k /\ fd_open fd (unix_state k) /\
  forall i f, fdTable k !! i = Some (Some f) -> file f <> fd.

Section Loading.
Context (E : fault -> Prop) (HA : E AssertFail).

Lemma keeps_store_bytes Kp addr bytes :
  (~ (0 <= addr /\ addr + Z.of_nat (length bytes) <= MemorySize) -> E Undefined) ->
  keeps E (booted Kp) anything (store_bytes (U := U) (C := C) addr bytes).
Proof.
  intros HU [m k] [Hr Hm Ht Hk]. unfold wp, store_bytes. run. cbn [fst snd] in *.
  destruct (copy_in (mainMemory m) addr bytes) as [mem | f] eqn:Ec.
  - split; [done | ]. by split; [ | eapply copy_in_wf | | ].
  - destruct (copy_in_fault _ _ _ _ Ec) as [-> Hno]. apply HU. destruct Hm as [Hl _]. rewrite Hl in Hno.
    unfold MemorySize, NumPhysPages, PageSize in *. lia.
Qed.

(** Reading the executable: its descriptor stays open and out of the table. *)
Lemma keeps_ReadAt fd n pos : 0 <= n ->
  keeps E (booted (holding fd)) (fun r => Z.of_nat (length r.2) <= n)
    (on_files (C := C) (on_unix (ReadAt ux (new_OpenFile fd) n pos))).
Proof.
  intros Hn [m k] [Hr Hm Ht (Hk & Ho & Hno)]. cbn [fst snd] in *. unfold wp, on_files, on_unix, ReadAt, Lseek, ReadPartial, unix. run.
  change (file (new_OpenFile fd)) with fd.
  pose proof (lseek_law fd pos 0 (unix_state k) _ _ (surjective_pairing _)) as Hl.
  pose proof (ti_lseek (T := files_wf fd_open) fd pos 0 _ _ Hk) as Hk1.
  destruct (sys_lseek ux fd pos 0 (unix_state k)) as [r u1]. cbn [fst snd] in *.
  unfold ASSERT. destruct (0 <=? r); [ | done].
  pose proof (ti_read (T := files_wf fd_open) fd n _ _ Hk1) as Hk2.
  destruct (sys_read ux fd n u1) as [[c bs] u2] eqn:Er. cbn [fst snd] in *.
  pose proof (read_law _ _ _ _ _ Er) as Hl2.
  split; [simpl; destruct (read_count _ _ _ _ _ _ Hn Er) as [[_ ->] | [-> ?]]; simpl; lia | ].
  split; [done | done | done | ]. split_and!; [done | by apply Hl2, Hl | done].
Qed.

Lemma keeps_read_header fd garbage : length garbage = 52%nat ->
  keeps E (booted (holding fd)) anything (read_header (C := C) ux (new_OpenFile fd) garbage).
Proof.
  intros Hg. unfold read_header. eapply keeps_bind; [by apply keeps_ReadAt | ].
  intros [c bs] Hl. simpl in Hl. unfold sizeof_NoffHeader in Hl.
  destruct (header_at_inside (bs ++ drop (length bs) garbage)) as (h & Eh).
  { rewrite length_app, length_drop. lia. }
  rewrite Eh. eapply (keeps_bind anything); [by apply keeps_lift | intros h' _].
  keep.
Qed.

Lemma keeps_load_segment fd seg : (wild seg -> E Undefined) ->
  keeps E (booted (holding fd)) anything (load_segment (C := C) ux (new_OpenFile fd) seg).
Proof.
  intros HU. unfold load_segment. apply keeps_if; intros Hpos; [ | by apply keeps_ret]. bool_prop.
  eapply keeps_bind; [apply keeps_ReadAt; lia | ]. intros [c bs] Hl. simpl in Hl.
  apply keeps_store_bytes. intros Hno. apply HU. split; [done | lia].
Qed.

(** Closing it succeeds and leaves the table good. *)
Lemma wp_delete fd (Q : unit -> St -> Prop) s :
  booted (holding fd) s -> (forall s', booted (kernel_wf fd_open) s' -> Q tt s') ->
  wp E Q (on_files (on_unix (delete_OpenFile ux (new_OpenFile fd)))) s.
Proof.
  intros [Hr Hm Ht (Hk & Ho & Hno)] HQ. destruct s as [m k]. cbn [fst snd] in *.
  unfold wp, on_files, on_unix, delete_OpenFile, sysdep_Close, unix. run. change (file (new_OpenFile fd)) with fd.
  destruct (sys_close ux fd (unix_state k)) as [r u'] eqn:Ec.
  destruct (close_law _ _ _ _ Ec Ho) as [-> Hu]. apply HQ. split; [done | done | done | ].
  apply (files_wf_host fd_open _ _ _ Hk). intros i f Hf Hof. apply Hu. split; [by eapply Hno | done].
Qed.

End Loading.

(** The header that [Load] reads from the file. *)
Definition header_read (name : filename) (garbage : list Z) k (h : NoffHeader) : Prop :=
  exists o m k1 s2, on_files (FileSystem_OpenExec ux name) (m, k) = Ok (Some o, (m, k1)) /\
    read_header ux o garbage (m, k1) = Ok (h, s2).

(** How starting a program can stop before its first instruction: a file that
    cannot be opened halts the machine; one that can may fail an assertion
    (it is no NOFF file, it is too large, a UNIX call fails); a segment that
    leaves main memory is written outside it. *)
Definition load_exit (name : filename) (garbage : list Z) k (f : fault) : Prop :=
  match f with
  | Halted => (sys_open ux name O_RDWR (unix_state k)).1 = -1
  | AssertFail => (sys_open ux name O_RDWR (unix_state k)).1 <> -1
  | Undefined => exists h, header_read name garbage k h /\
      (wild (code h) \/ wild (initData h) \/ wild (readonlyData h))
  | _ => False
  end.

(** The page table the space keeps, and the bound [Load] asserts. *)
Definition loaded (space : AddrSpace) (r : bool * AddrSpace) : Prop :=
  r.1 = true -> space_pageTable r.2 = space_pageTable space /\ 0 <= numPages r.2 <= NumPhysPages.

Lemma OpenExec_holding name m k :
  booted (kernel_wf fd_open) (m, k) ->
  exists o k1, on_files (FileSystem_OpenExec ux name) (m, k) = Ok (o, (m, k1)) /\
  match o with
  | None => (sys_open ux name O_RDWR (unix_state k)).1 = -1
  | Some f => (sys_open ux name O_RDWR (unix_state k)).1 <> -1 /\
      exists fd, f = new_OpenFile fd /\ booted (holding fd) (m, k1)
  end.
Proof.
  intros [Hr Hm Ht Hk]. cbn [fst snd] in *. unfold on_files, FileSystem_OpenExec, on_unix, OpenForReadWrite, unix. run.
  pose proof (ti_open (T := files_wf fd_open) name O_RDWR _ _ Hk) as Hk1.
  destruct (sys_open ux name O_RDWR (unix_state k)) as [fd u1] eqn:Eo. cbn [fst snd negb orb ASSERT] in *.
  destruct (Z.eqb_spec fd (-1)) as [-> | Hne]; [by eexists None, _ | ].
  eexists (Some (new_OpenFile fd)), _. split; [done | ]. split; [done | ]. exists fd. split; [done | ].
  split; [done | done | done | ]. destruct (open_law _ _ _ _ _ Eo) as [[-> _] | (_ & Hn & Hu)]; [done | ].
  split_and!; [done | by apply Hu; left | ]. intros i f Hf <-. apply Hn.
  by eapply (table_open _ _ _ (fw_table _ _ Hk)).
Qed.

Lemma Load_safe space name garbage m k :
  length garbage = 52%nat -> booted (kernel_wf fd_open) (m, k) ->
  wp (load_exit name garbage k) (fun (r : bool * AddrSpace) s => if r.1 then booted (kernel_wf fd_open) s /\ loaded space r
      else (sys_open ux name O_RDWR (unix_state k)).1 = -1)
    (Load ux space name garbage) (m, k).
Proof.
  intros Hg Hb. unfold Load. destruct (OpenExec_holding name m k Hb) as (o & k1 & Eo & Ho).
  apply wp_bind. eapply wp_ok; [exact Eo | ]. destruct o as [f | ]; [ | by apply wp_ret].
  destruct Ho as (Hopen & fd & -> & Hb1). set (E := load_exit name garbage k).
  assert (HA : E AssertFail) by exact Hopen.
  apply wp_bind. pose proof (keeps_read_header E HA fd garbage Hg (m, k1) Hb1) as Hh. unfold wp in Hh |- *.
  destruct (read_header ux (new_OpenFile fd) garbage (m, k1)) as [[h s2] | f] eqn:Eh; [ | done].
  destruct Hh as [_ Hs2].
  assert (HU : forall seg, seg ∈ [code h; initData h; readonlyData h] -> wild seg -> E Undefined).
  { intros seg Hseg Hw. exists h. split; [by exists (new_OpenFile fd), m, k1, s2 | ].
    rewrite !elem_of_cons, elem_of_nil in Hseg. naive_solver. }
  change (wp E (fun (r : bool * AddrSpace) s => if r.1 then booted (kernel_wf fd_open) s /\ loaded space r
      else (sys_open ux name O_RDWR (unix_state k)).1 = -1)
    (lift (ASSERT (divRoundUp (space_size h) PageSize <=? NumPhysPages));;
     load_segment ux (new_OpenFile fd) (code h);; load_segment ux (new_OpenFile fd) (initData h);;
     load_segment ux (new_OpenFile fd) (readonlyData h);;
     on_files (on_unix (delete_OpenFile ux (new_OpenFile fd)));;
     mret (true, mkAddrSpace (space_pageTable space) (divRoundUp (space_size h) PageSize))) s2).
  apply wp_bind, wp_ASSERT; [done | intros Hle]. bool_prop.
  assert (Hseg : forall seg, seg ∈ [code h; initData h; readonlyData h] -> forall s, booted (holding fd) s ->
    wp E (fun _ s' => booted (holding fd) s') (load_segment ux (new_OpenFile fd) seg) s).
  { intros seg Hin s Hs. eapply wp_mono; [by apply (keeps_load_segment E HA fd seg (HU seg Hin)) | by intros [] ? [_ ?]]. }
  apply wp_bind. eapply wp_mono; [apply Hseg; [set_solver | done] | intros [] s3 Hs3].
  apply wp_bind. eapply wp_mono; [apply Hseg; [set_solver | done] | intros [] s4 Hs4].
  apply wp_bind. eapply wp_mono; [apply Hseg; [set_solver | done] | intros [] s5 Hs5].
  apply wp_bind, (wp_delete E fd); [done | ]. intros s6 Hs6. apply wp_ret. split; [done | ]. intros _.
  split; [done | ]. simpl. split; [ | done]. apply divRoundUp_nonneg; [apply to_u32_range | done].
Qed.

(** A loaded program runs from its start state. *)
Lemma Execute_run space n m k :
  length (registers m) = Z.to_nat NumTotalRegs ->
  Execute ux space n (m, k) = run_user ux n (started m space, setStatus UserMode k).
Proof.
  intros Hl. unfold Execute, Run. pose proof (start_ok space m k Hl) as Es.
  unfold mbind, stM_bind in *. destruct (InitRegisters space (m, k)) as [[[] s1] | ]; [ | done]. by rewrite Es.
Qed.

(** The space and the memory [Load] gets. *)
Definition fresh_space (garbage_pages : Z) : AddrSpace :=
  mkAddrSpace (identity_entry <$> seqZ 0 NumPhysPages) garbage_pages.
Definition fresh_memory m : Machine := with_memory m (replicate (Z.to_nat MemorySize) 0).

Lemma main_user_load name garbage garbage_pages n m k :
  main_user ux name garbage garbage_pages n (m, k) =
  match Load ux (fresh_space garbage_pages) name garbage (fresh_memory m, k) with
  | Ok ((ok, space), s) => (if (ok : bool) then Execute ux space n else SysHalt) s
  | Fail f => Fail f
  end.
Proof.
  unfold main_user, new_AddrSpace, mbind, stM_bind, modify, mret, stM_ret, fresh_space, fresh_memory. cbn [fst snd].
  by destruct (Load ux _ name garbage _) as [[[ok sp] s] | f].
Qed.


End SpaceSafety.

(** ** What [Load] puts where

    The host's files, as far as loading needs them: [fd_file fd u] is the
    contents and the position of a file that is open for reading and writing,
    as [OpenForReadWrite] opens it, and [None] for any other descriptor.  lseek(2) with SEEK_SET moves
    the position, read(2) delivers the bytes from it, close(2) succeeds. *)

Class UnixFiles {U : Type} (ux : UnixOps U) (fd_file : Z -> U -> option (list Z * Z)) : Prop := {
  lseek_file fd u c p pos : fd_file fd u = Some (c, p) -> 0 <= pos ->
    exists u', sys_lseek ux fd pos 0 u = (pos, u') /\ fd_file fd u' = Some (c, pos);
  read_file fd u c p n : fd_file fd u = Some (c, p) -> 0 <= p -> 0 <= n ->
    exists u' p', let bs := take (Z.to_nat n) (drop (Z.to_nat p) c) in
    sys_read ux fd n u = (Z.of_nat (length bs), bs, u') /\ fd_file fd u' = Some (c, p');
  close_file fd u c p : fd_file fd u = Some (c, p) -> exists u', sys_close ux fd u = (0, u')
}.

Lemma copy_in_spec bytes : forall mem addr,
  0 <= addr -> addr + Z.of_nat (length bytes) <= Z.of_nat (length mem) ->
  exists mem', copy_in mem addr bytes = Ok mem' /\ length mem' = length mem /\
    forall a, mem' !! a =
      if bool_decide (addr <= Z.of_nat a < addr + Z.of_nat (length bytes))
      then to_u8 <$> bytes !! Z.to_nat (Z.of_nat a - addr) else mem !! a.
Proof.
  induction bytes as [ | b bs IH]; intros mem addr Ha Hl; cbn [copy_in].
  - exists mem. split_and!; [done | done | ]. intros a. rewrite bool_decide_eq_false_2; [done | ].
    cbn [length]. lia.
  - cbn [length] in Hl. rewrite zset_in_range by lia. rsimp.
    destruct (IH (<[Z.to_nat addr := to_u8 b]> mem) (addr + 1)) as (mem' & E & Hlen & Hm);
      [lia | rewrite length_insert; lia | ].
    exists mem'. split_and!; [done | by rewrite Hlen, length_insert | ].
    intros a. rewrite Hm. cbn [length].
    destruct (decide (Z.of_nat a = addr)) as [<- | Hne].
    + rewrite bool_decide_eq_false_2, bool_decide_eq_true_2 by lia.
      rewrite Z.sub_diag, Nat2Z.id. apply list_lookup_insert_eq. lia.
    + case_bool_decide as H1.
      * rewrite bool_decide_eq_true_2 by lia.
        replace (Z.to_nat (Z.of_nat a - addr)) with (S (Z.to_nat (Z.of_nat a - (addr + 1)))) by lia.
        done.
      * rewrite bool_decide_eq_false_2 by lia. apply list_lookup_insert_ne. lia.
Qed.

(** A segment that lies in the file and in main memory. *)
Record segment_fits (c : list Z) (seg : Segment) : Prop := {
  fit_size : 0 <= seg_size seg;
  fit_file : 0 < seg_size seg ->
    0 <= inFileAddr seg /\ inFileAddr seg + seg_size seg <= Z.of_nat (length c);
  fit_mem : 0 < seg_size seg ->
    0 <= virtualAddr seg /\ virtualAddr seg + seg_size seg <= MemorySize
}.

Definition in_segment (seg : Segment) (a : Z) : Prop :=
  virtualAddr seg <= a < virtualAddr seg + seg_size seg.

#[global] Instance in_segment_dec seg a : Decision (in_segment seg a).
Proof. unfold in_segment. apply _. Defined.

(** The byte of file [c] that a segment puts at address [a]. *)
Definition segment_byte (c : list Z) (seg : Segment) (a : Z) : option Z :=
  c !! Z.to_nat (inFileAddr seg + (a - virtualAddr seg)).

Section LoadCorrect.
Context {U C : Type} (ux : UnixOps U) (fd_file : Z -> U -> option (list Z * Z)).
Context `{!UnixFiles ux fd_file} `{!Console C}.

Notation St := (Machine * Kernel U C)%type.
Implicit Types (m : Machine) (k : Kernel U C) (c : list Z).

Definition with_unix k (u : U) : Kernel U C := mkKernel (status k) (fdTable k) u (console k).

Lemma ReadAt_file o n pos m k c p :
  fd_file (file o) (unix_state k) = Some (c, p) -> 0 <= pos -> 0 <= n < 2 ^ 31 ->
  exists u' p', let bs := take (Z.to_nat n) (drop (Z.to_nat pos) c) in
    on_files (on_unix (ReadAt ux o n pos)) (m, k) =
      Ok ((Z.of_nat (length bs), bs), (m, with_unix k u')) /\ fd_file (file o) u' = Some (c, p').
Proof.
  intros Hf Hp Hn. destruct (lseek_file _ _ _ _ pos Hf Hp) as (u1 & E1 & H1).
  destruct (read_file _ _ _ _ n H1 Hp) as (u2 & p2 & E2 & H2); [lia | ]. exists u2, p2.
  unfold on_files, on_unix, ReadAt, Lseek, ReadPartial, unix. run. rewrite E1.
  unfold ASSERT. rewrite (proj2 (Z.leb_le 0 pos)) by done. cbn zeta in *. rewrite E2.
  rewrite to_i32_id; [done | ]. rewrite length_take. unfold is_i32. lia.
Qed.

Lemma load_segment_ok o seg m k c p :
  fd_file (file o) (unix_state k) = Some (c, p) -> segment_fits c seg ->
  length (mainMemory m) = Z.to_nat MemorySize -> Forall is_byte c ->
  exists mem' u' p', load_segment ux o seg (m, k) = Ok (tt, (with_memory m mem', with_unix k u')) /\
    fd_file (file o) u' = Some (c, p') /\ length mem' = length (mainMemory m) /\
    forall a, mem' !! a = if decide (in_segment seg (Z.of_nat a)) then segment_byte c seg (Z.of_nat a)
                          else mainMemory m !! a.
Proof.
  intros Hf [Hs Hif Him] Hl Hb. unfold load_segment. destruct (Z.ltb_spec 0 (seg_size seg)).
  2: { exists (mainMemory m), (unix_state k), p. split_and!; [by destruct m, k | done | done | ].
       intros a. rewrite decide_False; [done | unfold in_segment; lia]. }
  specialize (Hif H). specialize (Him H).
  destruct (ReadAt_file o (seg_size seg) (inFileAddr seg) m k c p Hf) as (u' & p' & E & Hf');
    [lia | unfold MemorySize, NumPhysPages, PageSize in *; lia | ]. cbn zeta in E.
  set (bs := take _ _) in *.
  assert (Hbs : Z.of_nat (length bs) = seg_size seg).
  { unfold bs. rewrite length_take, length_drop. lia. }
  destruct (copy_in_spec bs (mainMemory m) (virtualAddr seg)) as (mem' & Ec & Hlen & Hm); [lia | lia | ].
  exists mem', u', p'. split_and!; [ | done | done | ].
  - unfold mbind, stM_bind. rewrite E. unfold store_bytes. run. by rewrite Ec.
  - intros a. rewrite Hm, Hbs. unfold in_segment. case_bool_decide as Ha.
    2: by rewrite decide_False by done.
    rewrite decide_True by done. unfold segment_byte, bs.
    rewrite lookup_take_lt, lookup_drop by lia.
    replace (Z.to_nat (inFileAddr seg) + Z.to_nat (Z.of_nat a - virtualAddr seg))%nat
      with (Z.to_nat (inFileAddr seg + (Z.of_nat a - virtualAddr seg))) by lia.
    destruct (c !! _) as [x | ] eqn:Ex; [ | done]. simpl. f_equal.
    pose proof (Forall_lookup_1 _ _ _ _ Hb Ex) as Hx. unfold is_byte in Hx. cint.
Qed.

Definition disjoint (s1 s2 : Segment) : Prop := forall a, in_segment s1 a -> ~ in_segment s2 a.

(** File [c] is a NOFF executable with header [h] that fits memory. *)
Record noff_file c (h : NoffHeader) : Prop := {
  noff_bytes : Forall is_byte c;
  noff_header : sizeof_NoffHeader <= Z.of_nat (length c) /\
    header_at (take (Z.to_nat sizeof_NoffHeader) c) = Ok h;
  noff_magic : noffMagic h = NOFFMAGIC;
  noff_code : segment_fits c (code h);
  noff_init : segment_fits c (initData h);
  noff_rdata : segment_fits c (readonlyData h);
  noff_bss : 0 <= seg_size (uninitData h);
  noff_total : seg_size (code h) + seg_size (readonlyData h) + seg_size (initData h) +
    seg_size (uninitData h) + UserStackSize <= MemorySize;
  noff_disjoint : disjoint (code h) (initData h) /\ disjoint (code h) (readonlyData h) /\
    disjoint (initData h) (readonlyData h)
}.

Lemma read_header_ok o garbage m k c h p :
  fd_file (file o) (unix_state k) = Some (c, p) -> noff_file c h ->
  length garbage = Z.to_nat sizeof_NoffHeader ->
  exists u' p', read_header ux o garbage (m, k) = Ok (h, (m, with_unix k u')) /\
    fd_file (file o) u' = Some (c, p').
Proof.
  intros Hf [Hb [Hl Hh] Hm _ _ _ _ _ _] Hg.
  destruct (ReadAt_file o sizeof_NoffHeader 0 m k c p Hf) as (u' & p' & E & Hf');
    [lia | unfold sizeof_NoffHeader; lia | ].
  exists u', p'. split; [ | done]. unfold read_header. run. cbn zeta in E. rewrite E.
  change (drop (Z.to_nat 0) c) with c. rewrite length_take.
  rewrite drop_ge, app_nil_r, Hh by lia.
  rewrite Hm, Z.eqb_refl. cbn [negb andb]. by rewrite Hm.
Qed.

Lemma space_size_ok c h : noff_file c h -> space_size h = seg_size (code h) +
  seg_size (readonlyData h) + seg_size (initData h) + seg_size (uninitData h) + UserStackSize.
Proof.
  intros [_ _ _ [? _ _] [? _ _] [? _ _] ? Ht _]. unfold space_size.
  unfold UserStackSize, MemorySize, NumPhysPages, PageSize in *. apply to_u32_id. cint.
Qed.

Lemma delete_ok o m k c p :
  fd_file (file o) (unix_state k) = Some (c, p) ->
  exists u', on_files (on_unix (delete_OpenFile ux o)) (m, k) = Ok (tt, (m, with_unix k u')).
Proof.
  intros Hf. destruct (close_file _ _ _ _ Hf) as (u' & E). exists u'.
  unfold on_files, on_unix, delete_OpenFile, sysdep_Close, unix. run. by rewrite E.
Qed.

Lemma load_file space name garbage m k fd u1 c h :
  sys_open ux name O_RDWR (unix_state k) = (fd, u1) -> 0 <= fd -> fd_file fd u1 = Some (c, 0) ->
  noff_file c h -> length garbage = Z.to_nat sizeof_NoffHeader ->
  length (mainMemory m) = Z.to_nat MemorySize ->
  exists pages mem' u', Load ux space name garbage (m, k) =
    Ok ((true, mkAddrSpace (space_pageTable space) pages), (with_memory m mem', with_unix k u')) /\
  pages * PageSize - PageSize < space_size h <= pages * PageSize /\
  length mem' = length (mainMemory m) /\
  forall a,
    (forall seg, seg ∈ [code h; initData h; readonlyData h] -> in_segment seg (Z.of_nat a) ->
       mem' !! a = segment_byte c seg (Z.of_nat a) /\ is_Some (mem' !! a)) /\
    ((forall seg, seg ∈ [code h; initData h; readonlyData h] -> ~ in_segment seg (Z.of_nat a)) ->
       mem' !! a = mainMemory m !! a).
Proof.
  intros Ho Hfd Hf Hn Hg Hl. pose proof Hn as [Hb _ _ Hc Hi Hr _ Ht (D1 & D2 & D3)].
  pose proof (space_size_ok c h Hn) as Hsz.
  assert (Hpg : 0 <= space_size h) by apply to_u32_range.
  pose proof (divRoundUp_spec (space_size h) PageSize Hpg ltac:(unfold PageSize; lia)) as Hp.
  set (o := new_OpenFile fd). set (k1 := with_unix k u1).
  destruct (read_header_ok o garbage m k1 c h 0 Hf Hn Hg) as (u2 & p2 & E2 & H2).
  destruct (load_segment_ok o (code h) m (with_unix k u2) c p2 H2 Hc Hl Hb)
    as (mem3 & u3 & p3 & E3 & H3 & L3 & M3).
  destruct (load_segment_ok o (initData h) (with_memory m mem3) (with_unix k u3) c p3 H3 Hi)
    as (mem4 & u4 & p4 & E4 & H4 & L4 & M4); [simpl; lia | done | ].
  destruct (load_segment_ok o (readonlyData h) (with_memory m mem4) (with_unix k u4) c p4 H4 Hr)
    as (mem5 & u5 & p5 & E5 & H5 & L5 & M5); [simpl in *; lia | done | ].
  destruct (delete_ok o (with_memory m mem5) (with_unix k u5) c p5 H5) as (u6 & E6).
  cbn [mainMemory with_memory] in *.
  exists (divRoundUp (space_size h) PageSize), mem5, u6. split_and!; [ | lia | lia | lia | ].
  - unfold Load, mbind, stM_bind.
    assert (E1 : on_files (FileSystem_OpenExec ux name) (m, k) = Ok (Some o, (m, k1))).
    { unfold on_files, FileSystem_OpenExec, on_unix, OpenForReadWrite, unix. run. rewrite Ho.
      cbn [negb orb ASSERT]. rewrite (proj2 (Z.eqb_neq fd (-1))) by lia. done. }
    change (with_unix k1 u2) with (with_unix k u2) in E2.
    change (with_unix (with_unix k ?a) ?b) with (with_unix k b) in *.
    change (with_memory (with_memory m ?a) ?b) with (with_memory m b) in *.
    rewrite E1, E2. unfold lift, ASSERT. rewrite (proj2 (Z.leb_le _ NumPhysPages)).
    + by rewrite E3, E4, E5, E6.
    + unfold MemorySize, PageSize, NumPhysPages in *. lia.
  - intros a.
    assert (Hin : forall seg, seg ∈ [code h; initData h; readonlyData h] -> in_segment seg (Z.of_nat a) ->
       mem5 !! a = segment_byte c seg (Z.of_nat a)).
    { intros seg Hseg Ha. rewrite M5, M4, M3. unfold disjoint in *.
      rewrite !elem_of_cons in Hseg. destruct Hseg as [-> | [-> | [-> | ?%not_elem_of_nil]]];
        repeat case_decide; naive_solver. }
    split.
    + intros seg Hseg Ha. split; [by apply Hin | ]. apply lookup_lt_is_Some. rewrite L5, L4, L3, Hl.
      assert (Hfit : segment_fits c seg).
      { rewrite !elem_of_cons in Hseg. by destruct Hseg as [-> | [-> | [-> | ?%not_elem_of_nil]]]. }
      unfold in_segment in Ha. pose proof (fit_mem _ _ Hfit). lia.
    + intros Hno. rewrite M5, M4, M3, !decide_False; [done | apply Hno; set_solver..].
Qed.

(** C28: Loading a NOFF executable succeeds when its segments lie in the file
    and in memory, do not overlap, and together with the stack are no larger
    than memory.  The address space gets just the pages that the code, the
    three kinds of data and the stack of 1024 bytes need; every
    byte of the code, initialised data and read-only data segments is the
    file's byte, at its virtual address; every other byte of memory, the
    registers and the table of open files are as before. *)
Theorem load_correct space name garbage m k fd u1 c h :
  sys_open ux name O_RDWR (unix_state k) = (fd, u1) -> 0 <= fd -> fd_file fd u1 = Some (c, 0) ->
  noff_file c h -> length garbage = Z.to_nat sizeof_NoffHeader ->
  length (mainMemory m) = Z.to_nat MemorySize ->
  exists pages mem' u', Load ux space name garbage (m, k) =
    Ok ((true, mkAddrSpace (space_pageTable space) pages), (with_memory m mem', with_unix k u')) /\
  pages * PageSize - PageSize < seg_size (code h) + seg_size (initData h) + seg_size (readonlyData h) +
    seg_size (uninitData h) + UserStackSize <= pages * PageSize /\
  length mem' = length (mainMemory m) /\
  forall a,
    (forall seg, seg ∈ [code h; initData h; readonlyData h] -> in_segment seg (Z.of_nat a) ->
       mem' !! a = segment_byte c seg (Z.of_nat a) /\ is_Some (mem' !! a)) /\
    ((forall seg, seg ∈ [code h; initData h; readonlyData h] -> ~ in_segment seg (Z.of_nat a)) ->
       mem' !! a = mainMemory m !! a).
Proof.
  intros Ho Hfd Hf Hn Hg Hl.
  destruct (load_file space name garbage m k fd u1 c h Ho Hfd Hf Hn Hg Hl) as (pages & mem' & u' & E & Hp & Hm).
  exists pages, mem', u'. rewrite (space_size_ok c h Hn) in Hp. split_and!; [done | lia | lia | apply Hm..].
Qed.

End LoadCorrect.

(** ** The two translations *)

Section TwoTranslations.

(** C39: [AddrSpace::Translate] agrees with the hardware's translation of a
    byte address on every space whose entries are all valid and name frames
    that are not negative: same exception, same physical address, same use
    and dirty bits. *)
Theorem translate_agrees m pt va w :
  tlb m = None -> pageTable m = Some pt -> is_u32 va -> 0 <= pageTableSize m ->
  pageTableSize m <= Z.of_nat (length pt) ->
  (forall e, e ∈ pt -> valid e = true /\ 0 <= physicalPage e < 2 ^ 31) ->
  exists ex pa pt', AddrSpace_Translate (mkAddrSpace pt (pageTableSize m)) va w =
      Ok (ex, pa, mkAddrSpace pt' (pageTableSize m)) /\
    Translate m va 1 w = Ok (ex, pa, with_pageTable m (Some pt')).
Proof.
  intros Ht Hp Hva Hs0 Hs He.
  assert (Hself : with_pageTable m (Some pt) = m) by (destruct m; simpl in *; by subst).
  unfold Translate, AddrSpace_Translate, find_entry, store_entry. rewrite Ht, Hp.
  rewrite to_u32_id by done. cbn [Z.eqb andb orb negb]. unfold ASSERT.
  rewrite bool_decide_eq_true_2, bool_decide_eq_false_2 by done. cbn [orb negb numPages space_pageTable].
  change (1 =? 4) with false. change (1 =? 2) with false. cbn [andb orb]. rsimp.
  set (vpn := va / PageSize). destruct (Z.leb_spec (pageTableSize m) vpn) as [Hge | Hlt].
  { rsimp. exists AddressErrorException, 0, pt. by rewrite Hself. }
  destruct (zget_in_range pt vpn) as (e & Le & ->); [unfold vpn, PageSize in *; split; [cint | lia] | ].
  destruct (He e) as [Hv Hf]; [by eapply list_elem_of_lookup_2 | ]. rsimp. rewrite Hv. cbn [negb]. rsimp.
  rewrite (andb_comm (readOnly e) w). destruct (w && readOnly e).
  { exists ReadOnlyException, 0, pt. by rewrite Hself. }
  rewrite (to_u32_id (physicalPage e)) by cint. destruct (Z.leb_spec NumPhysPages (physicalPage e)) as [Hbig | Hok].
  { exists BusErrorException, 0, pt. by rewrite Hself. }
  rewrite zset_in_range by (unfold vpn, PageSize in *; split; [cint | lia]). rsimp.
  destruct (translate_in_bounds (physicalPage e) va 1) as (B0 & B1 & B2 & _);
    [by left | unfold aligned; by rewrite Z.mod_1_r | lia | ]. cbn zeta in *.
  rewrite (to_u32_id va) in * by done. rewrite B2.
  assert (Hu : to_u32 (physicalPage e * PageSize + va mod PageSize) =
    physicalPage e * PageSize + va mod PageSize)
    by (apply to_u32_id; unfold MemorySize, NumPhysPages, PageSize in *; cint).
  rewrite Hu. eexists NoException, _, _. split.
  - rewrite (proj2 (Z.ltb_lt _ MemorySize)) by lia. done.
  - rewrite (proj2 (Z.leb_le 0 _)), (proj2 (Z.leb_le _ MemorySize)) by lia. done.
Qed.

End TwoTranslations.

(** ** Witnesses *)

(** The files of the in-memory host that are open for reading and writing. *)
Definition host_file (fd : Z) (h : host) : option (list Z * Z) :=
  '(ino, fl, pos) ← h_fds h !! fd;
  if fl =? O_RDWR then Some (default [] (h_data h !! ino), pos) else None.

Lemma host_file_fd fd h c p : host_file fd h = Some (c, p) ->
  exists ino, h_fds h !! fd = Some (ino, O_RDWR, p) /\ default [] (h_data h !! ino) = c.
Proof.
  unfold host_file. destruct (h_fds h !! fd) as [[[ino fl] q] | ] eqn:E; simpl; [ | done].
  destruct (Z.eqb_spec fl O_RDWR) as [-> | ]; intros; simplify_eq. by eexists.
Qed.

#[global] Instance host_files : UnixFiles host_ops host_file.
Proof.
  split; simpl.
  - intros fd h c p pos (ino & E & <-)%host_file_fd Hpos. unfold host_lseek. rewrite E.
    rewrite Z.eqb_refl. cbn zeta. rewrite Z.add_0_l, (proj2 (Z.ltb_ge pos 0)) by lia. eexists. split; [reflexivity | ].
    unfold host_file. simpl. by rewrite lookup_insert_eq.
  - intros fd h c p n (ino & E & <-)%host_file_fd Hp Hn. unfold host_read. rewrite E.
    eexists _, _. split; [done | ]. unfold host_file. simpl. by rewrite lookup_insert_eq.
  - intros fd h c p (ino & E & _)%host_file_fd. unfold host_close. rewrite E. by eexists.
Qed.

(** An executable of three instructions (load 42 into r2, trap, load 7 into
    r4) and four bytes of data at address 128. *)
Definition prog_header : list Z :=
  [173; 223; 186; 0] ++ [0; 0; 0; 0; 52; 0; 0; 0; 12; 0; 0; 0] ++
  [128; 0; 0; 0; 64; 0; 0; 0; 4; 0; 0; 0] ++ replicate 12 0 ++ replicate 12 0.
Definition prog_code : list Z := [42; 0; 2; 36; 12; 0; 0; 0; 7; 0; 4; 36].
Definition prog_file : list Z := prog_header ++ prog_code ++ [1; 2; 3; 4].

Definition prog_noff : NoffHeader :=
  mkNoff NOFFMAGIC (mkSegment 0 52 12) (mkSegment 128 64 4) (mkSegment 0 0 0) (mkSegment 0 0 0).

Definition prog_host : host :=
  mkHost {[ [112] := 1 ]} {[ 1 := prog_file ]} (h_fds host0).

Definition prog_kernel : Kernel host streams :=
  mkKernel SystemMode new_FileSystem prog_host (mkStreams [] []).

Lemma prog_noff_file : noff_file prog_file prog_noff.
Proof.
  assert (Hl : length prog_file = 68%nat) by reflexivity.
  assert (Hfit : forall v f n, 0 <= n -> 0 <= f /\ f + n <= 68 -> 0 <= v /\ v + n <= 16384 ->
    segment_fits prog_file (mkSegment v f n)) by (intros; split; rewrite ?Hl; by intros).
  split; [ | | done | apply Hfit; lia.. | simpl; lia | vm_compute; congruence | ].
  - apply (bool_decide_unpack _). vm_compute. exact I.
  - split; [vm_compute; congruence | vm_compute; reflexivity].
  - split_and!; intros a; unfold in_segment; simpl; lia.
Qed.

Lemma new_machine_booted g : booted (kernel_wf host_open_fd) (new_Machine g, prog_kernel).
Proof.
  split; [done | | done | ].
  - unfold new_Machine. cbn [mainMemory fst]. split; [apply length_replicate | ]. apply Forall_replicate. unfold is_byte. lia.
  - apply new_files_wf; apply (bool_decide_unpack _); vm_compute; exact I.
Qed.


Lemma load_correct_witness :
  exists pages mem' u',
    Load host_ops (mkAddrSpace [] 0) [112] (replicate 52 7) (new_Machine 5, prog_kernel) =
      Ok ((true, mkAddrSpace [] pages), (with_memory (new_Machine 5) mem', with_unix prog_kernel u')) /\
    mem' !! 130%nat = Some 3.
Proof.
  destruct (load_correct host_ops host_file (mkAddrSpace [] 0) [112] (replicate 52 7) (new_Machine 5)
    prog_kernel 3 (host_open [112] O_RDWR prog_host).2 prog_file prog_noff)
    as (pages & mem' & u' & E & _ & _ & Hm).
  - vm_compute. reflexivity.
  - lia.
  - vm_compute. reflexivity.
  - apply prog_noff_file.
  - reflexivity.
  - reflexivity.
  - exists pages, mem', u'. split; [exact E | ].
    destruct (proj1 (Hm 130%nat) (initData prog_noff)) as [-> _].
    + right. left.
    + unfold in_segment. simpl. lia.
    + vm_compute. reflexivity.
Defined.

Definition loaded_machine : Machine :=
  with_pageTable (new_Machine 4) (Some (identity_entry <$> seqZ 0 NumPhysPages)).

Lemma translate_agrees_witness :
  exists ex pa pt', AddrSpace_Translate (mkAddrSpace (identity_entry <$> seqZ 0 NumPhysPages) 4) 300 true =
      Ok (ex, pa, mkAddrSpace pt' 4) /\
    Translate loaded_machine 300 1 true = Ok (ex, pa, with_pageTable loaded_machine (Some pt')).
Proof.
  apply (translate_agrees loaded_machine (identity_entry <$> seqZ 0 NumPhysPages) 300 true).
  - reflexivity.
  - reflexivity.
  - split; vm_compute; congruence.
  - vm_compute. congruence.
  - vm_compute. congruence.
  - apply Forall_forall. apply (bool_decide_unpack _). vm_compute. exact I.
Defined.
