(* ===== verification/Disk.v ===== *)
(** * The disk and its synchronous interface (machine/disk.cc, disk.h;
      filesys/synchdisk.cc, synchdisk.h)

    The simulated disk is a UNIX file: a magic number and 1024 sectors of 128
    bytes.  [Disk] is the device, whose requests return at once and complete
    with an interrupt; [SynchDisk] turns a request into a call that returns
    when the interrupt has come.  The UNIX calls are those of [UnixOps].

    This file has the disk as one thread uses it: while the thread waits for
    the semaphore nothing else runs, so the next thing that happens is the
    disk's interrupt, at a time given by [wait].  Where no interrupt is
    pending the kernel finds nothing to do and halts.

    [SectorDisk] is what the file system relies on: a store of sectors that a
    read returns and a write replaces.  [synchdisk_sectors] shows that
    [SynchDisk] provides it on a host whose files behave as files. *)

From S2P Require Import Prelude FileSysStub AddrSpace.

Definition SectorSize : Z := 128.
Definition SectorsPerTrack : Z := 32.
Definition NumTracks : Z := 32.
Definition NumSectors : Z := SectorsPerTrack * NumTracks.

Definition MagicNumber : Z := 0x456789ab.
Definition MagicSize : Z := 4.
Definition DiskSize : Z := MagicSize + NumSectors * SectorSize.

(** machine/stats.h *)
Definition RotationTime : Z := 500.
Definition SeekTime : Z := 500.

(** The bytes of an [int] in memory, least significant first. *)
Definition int_bytes (v : Z) : list Z :=
  [to_u8 v; to_u8 (Z.shiftr v 8); to_u8 (Z.shiftr v 16); to_u8 (Z.shiftr v 24)].

(** The [unsigned] at four bytes of memory. *)
Definition bytes_uint (bs : list Z) : Z :=
  bs !!! 0%nat + bs !!! 1%nat * 2 ^ 8 + bs !!! 2%nat * 2 ^ 16 + bs !!! 3%nat * 2 ^ 24.

Definition bytes_int (bs : list Z) : Z := to_i32 (bytes_uint bs).

(** ** class Disk *)

Record Disk := mkDisk {
  fileno : Z;
  active : bool;
  lastSector : Z;
  bufferInit : Z
}.

(** The statistics a request looks at and changes. *)
Record DiskStats := mkDiskStats { totalTicks : Z; numDiskReads : Z; numDiskWrites : Z }.

Section Latency.
Context (d : Disk) (totalTicks : Z).

(** The time to the track, and [*rotation]. *)
Definition TimeToSeek (newSector : Z) : Z * Z :=
  let newTrack := Z.quot newSector SectorsPerTrack in
  let oldTrack := Z.quot (lastSector d) SectorsPerTrack in
  let seek := Z.abs (newTrack - oldTrack) * SeekTime in
  let over := Z.rem (totalTicks + seek) RotationTime in
  (seek, if 0 <? over then RotationTime - over else 0).

Definition ModuloDiff (to from : Z) : Z :=
  let toOffset := Z.rem to SectorsPerTrack in
  let fromOffset := Z.rem from SectorsPerTrack in
  Z.rem ((toOffset - fromOffset) + SectorsPerTrack) SectorsPerTrack.

Definition ComputeLatency (newSector : Z) (writing : bool) : Z :=
  let '(seek, rotation) := TimeToSeek newSector in
  let timeAfter := totalTicks + seek + rotation in
  if negb writing && (seek =? 0) &&
     (ModuloDiff newSector (Z.quot (bufferInit d) RotationTime) <?
        Z.quot (timeAfter - bufferInit d) RotationTime)
  then RotationTime
  else
    let rotation := rotation + ModuloDiff newSector (Z.quot timeAfter RotationTime) * RotationTime in
    seek + rotation + RotationTime.

Definition UpdateLast (newSector : Z) : Disk :=
  let '(seek, rotate) := TimeToSeek newSector in
  mkDisk (fileno d) (active d) newSector
    (if negb (seek =? 0) then totalTicks + seek + rotate else bufferInit d).

End Latency.

(** ** State *)

(** [semaphore] and [lock] of [SynchDisk]: the semaphore's value and whether
    the lock is held. [due] is the time of the disk's pending interrupt. *)
Record SynchDisk (U : Type) := mkSynchDisk {
  disk : Disk;
  stats : DiskStats;
  due : option Z;
  semaphore : Z;
  locked : bool;
  host : U
}.
Arguments mkSynchDisk {U} _ _ _ _ _ _.
Arguments disk {U} _.
Arguments stats {U} _.
Arguments due {U} _.
Arguments semaphore {U} _.
Arguments locked {U} _.
Arguments host {U} _.

Section Disks.
Context {U : Type} (ux : UnixOps U) (wait : Z -> Z).
Notation S := (SynchDisk U).

Definition on_host {A} (c : stM U A) : stM S A := fun s =>
  match c (host s) with
  | Ok (a, u) => Ok (a, mkSynchDisk (disk s) (stats s) (due s) (semaphore s) (locked s) u)
  | Fail f => Fail f
  end.

(** [Read] of lib/sysdep.cc: all the bytes asked for, or the program stops. *)
Definition Read (fd nBytes : Z) : stM U (list Z) :=
  '(retVal, buffer) ← ReadPartial ux fd nBytes;
  lift (ASSERT (retVal =? nBytes));;
  mret buffer.

(** [%d] for the number that ends the disk's name. *)
Fixpoint decimal_digits (fuel : nat) (n : Z) (acc : list Z) : list Z :=
  match fuel with
  | O => acc
  | Datatypes.S f =>
      let acc' := (48 + n mod 10) :: acc in
      if n <? 10 then acc' else decimal_digits f (n / 10) acc'
  end.

Definition diskname (hostName : Z) : filename :=
  [68; 73; 83; 75; 95] ++
  (if hostName <? 0 then 45 :: decimal_digits 10 (- hostName) [] else decimal_digits 10 hostName []).

(** [Disk::Disk] *)
Definition new_Disk (hostName : Z) : stM U Disk :=
  fd ← OpenForReadWrite ux (diskname hostName) false;
  fileno ←
    (if 0 <=? fd then
       bs ← Read fd MagicSize;
       lift (ASSERT (bytes_int bs =? MagicNumber));;
       mret fd
     else
       fd ← OpenForWrite ux (diskname hostName);
       WriteFile ux fd (int_bytes MagicNumber) MagicSize;;
       Lseek ux fd (DiskSize - 4) 0;;
       WriteFile ux fd (int_bytes 0) 4;;
       mret fd);
  mret (mkDisk fileno false 0 0).

Definition delete_Disk (d : Disk) : stM U unit := sysdep_Close ux (fileno d);; mret tt.

(** [kernel->interrupt->Schedule(this, ticks, DiskInt)] *)
Definition Schedule_disk (ticks : Z) : stM S unit :=
  lift (ASSERT (0 <? ticks));;
  modify (fun s => mkSynchDisk (disk s) (stats s) (Some (totalTicks (stats s) + ticks))
                     (semaphore s) (locked s) (host s)).

(** What both kinds of request do once the bytes are transferred. *)
Definition request_sent (sectorNumber ticks : Z) (writing : bool) : stM S unit :=
  modify (fun s =>
    let d := disk s in
    let d := UpdateLast (mkDisk (fileno d) true (lastSector d) (bufferInit d))
               (totalTicks (stats s)) sectorNumber in
    let st := stats s in
    let st := if writing then mkDiskStats (totalTicks st) (numDiskReads st) (numDiskWrites st + 1)
              else mkDiskStats (totalTicks st) (numDiskReads st + 1) (numDiskWrites st) in
    mkSynchDisk d st (due s) (semaphore s) (locked s) (host s));;
  Schedule_disk ticks.

Definition ReadRequest (sectorNumber : Z) : stM S (list Z) :=
  d ← gets disk;
  now ← gets (fun s => totalTicks (stats s));
  let ticks := ComputeLatency d now sectorNumber false in
  lift (ASSERT (negb (active d)));;
  lift (ASSERT ((0 <=? sectorNumber) && (sectorNumber <? NumSectors)));;
  on_host (Lseek ux (fileno d) (SectorSize * sectorNumber + MagicSize) 0);;
  data ← on_host (Read (fileno d) SectorSize);
  request_sent sectorNumber ticks false;;
  mret data.

Definition WriteRequest (sectorNumber : Z) (data : list Z) : stM S unit :=
  d ← gets disk;
  now ← gets (fun s => totalTicks (stats s));
  let ticks := ComputeLatency d now sectorNumber true in
  lift (ASSERT (negb (active d)));;
  lift (ASSERT ((0 <=? sectorNumber) && (sectorNumber <? NumSectors)));;
  on_host (Lseek ux (fileno d) (SectorSize * sectorNumber + MagicSize) 0);;
  on_host (WriteFile ux (fileno d) data SectorSize);;
  request_sent sectorNumber ticks true.

(** ** class SynchDisk *)

(** [SynchDisk::CallBack] *)
Definition SynchDisk_CallBack : stM S unit :=
  modify (fun s => mkSynchDisk (disk s) (stats s) (due s) (semaphore s + 1) (locked s) (host s)).

(** [Disk::CallBack] *)
Definition Disk_CallBack : stM S unit :=
  modify (fun s =>
    let d := disk s in
    mkSynchDisk (mkDisk (fileno d) false (lastSector d) (bufferInit d))
      (stats s) (due s) (semaphore s) (locked s) (host s));;
  SynchDisk_CallBack.

(** Nothing can run: the clock goes on to the pending interrupt and its
    handler is called; without one the kernel halts. *)
Definition Idle : stM S unit :=
  p ← gets due;
  match p with
  | None => lift (Fail Halted)
  | Some t =>
      modify (fun s =>
        let st := stats s in
        mkSynchDisk (disk s) (mkDiskStats (wait t) (numDiskReads st) (numDiskWrites st)) None
          (semaphore s) (locked s) (host s));;
      Disk_CallBack
  end.

(** [semaphore->P()] of the only thread. *)
Definition semaphore_P : stM S unit :=
  v ← gets semaphore;
  (if v =? 0 then Idle else mret tt);;
  v ← gets semaphore;
  lift (ASSERT (0 <? v));;
  modify (fun s => mkSynchDisk (disk s) (stats s) (due s) (semaphore s - 1) (locked s) (host s)).

(** [lock->Acquire()] and [lock->Release()] of the only thread: it waits for
    ever for a lock it already holds. *)
Definition lock_Acquire : stM S unit :=
  l ← gets locked;
  if (l : bool) then lift (Fail Halted)
  else modify (fun s => mkSynchDisk (disk s) (stats s) (due s) (semaphore s) true (host s)).

Definition lock_Release : stM S unit :=
  l ← gets locked;
  lift (ASSERT l);;
  modify (fun s => mkSynchDisk (disk s) (stats s) (due s) (semaphore s) false (host s)).

(** [SynchDisk::SynchDisk] *)
Definition new_SynchDisk (hostName : Z) (now : Z) (u : U) : res S :=
  '(d, u') ← new_Disk hostName u;
  mret (mkSynchDisk d (mkDiskStats now 0 0) None 0 false u').

Definition SynchDisk_ReadSector (sectorNumber : Z) : stM S (list Z) :=
  lock_Acquire;;
  data ← ReadRequest sectorNumber;
  semaphore_P;;
  lock_Release;;
  mret data.

Definition SynchDisk_WriteSector (sectorNumber : Z) (data : list Z) : stM S unit :=
  lock_Acquire;;
  WriteRequest sectorNumber data;;
  semaphore_P;;
  lock_Release.

End Disks.

(** ** What the file system relies on *)

Definition is_byte (b : Z) : Prop := 0 <= b < 256.

#[global] Instance is_byte_dec b : Decision (is_byte b).
Proof. unfold is_byte. apply _. Defined.

Definition sector_wf (data : list Z) : Prop :=
  length data = Z.to_nat SectorSize /\ Forall is_byte data.

(** A store of sectors: [contents s ds] says that in state [s] the sectors
    hold [ds]. *)
Class SectorDisk (S : Type) := {
  ReadSector : Z -> stM S (list Z);
  WriteSector : Z -> list Z -> stM S unit;
  contents : S -> list (list Z) -> Prop;
  contents_wf s ds : contents s ds -> length ds = Z.to_nat NumSectors /\ Forall sector_wf ds;
  read_sector s ds n : contents s ds -> 0 <= n < NumSectors ->
    exists data s', ReadSector n s = Ok (data, s') /\ ds !! Z.to_nat n = Some data /\ contents s' ds;
  write_sector s ds n data : contents s ds -> 0 <= n < NumSectors -> sector_wf data ->
    exists s', WriteSector n data s = Ok (tt, s') /\ contents s' (<[Z.to_nat n := data]> ds);
  read_bad_sector s ds n : contents s ds -> ~ 0 <= n < NumSectors ->
    ReadSector n s = Fail AssertFail;
  write_bad_sector s ds n data : contents s ds -> ~ 0 <= n < NumSectors ->
    WriteSector n data s = Fail AssertFail
}.

(** ** SynchDisk provides it *)

(** Replacing the bytes from position [p] on; a gap reads as zeros. *)
Definition splice (c : list Z) (p : nat) (b : list Z) : list Z :=
  take p (c ++ replicate (p - length c) 0) ++ b ++ drop (p + length b) c.

Lemma length_splice c p b : (p + length b <= length c)%nat -> length (splice c p b) = length c.
Proof.
  intros H. unfold splice. rewrite !length_app, length_take, length_drop, length_app, length_replicate. lia.
Qed.

Lemma splice_front (c b : list Z) : splice c 0 b = b ++ drop (length b) c.
Proof. unfold splice. by rewrite Nat.sub_0_l. Qed.

Lemma splice_lookup c p b i :
  (p + length b <= length c)%nat ->
  splice c p b !! i = if bool_decide (p <= i < p + length b)%nat then b !! (i - p)%nat else c !! i.
Proof.
  intros H. unfold splice. rewrite take_app_le by lia. case_bool_decide as Hi.
  - rewrite lookup_app_r by (rewrite length_take; lia). rewrite length_take_le by lia.
    rewrite lookup_app_l by lia. done.
  - destruct (decide (i < p)%nat).
    + rewrite lookup_app_l by (rewrite length_take; lia). by apply lookup_take_lt.
    + rewrite lookup_app_r by (rewrite length_take; lia). rewrite length_take_le by lia.
      rewrite lookup_app_r by lia. rewrite lookup_drop. f_equal. lia.
Qed.

Lemma splice_Forall (P : Z -> Prop) c p b :
  (p + length b <= length c)%nat -> Forall P c -> Forall P b -> Forall P (splice c p b).
Proof.
  intros H Hc Hb. unfold splice. rewrite take_app_le by lia.
  repeat apply Forall_app_2; auto using Forall_take, Forall_drop.
Qed.

(** The files of the host, for a disk: those of [UnixFiles], write(2) stores
    the bytes it is given at the position, and a file that open(2) creates is
    empty. *)
Class UnixStore {U : Type} (ux : UnixOps U) (fd_file : Z -> U -> option (list Z * Z)) : Prop := {
  store_files :: UnixFiles ux fd_file;
  write_file fd u c p b : fd_file fd u = Some (c, p) -> 0 <= p ->
    exists u' p', sys_write ux fd b (Z.of_nat (length b)) u = (Z.of_nat (length b), u') /\
      fd_file fd u' = Some (splice c (Z.to_nat p) b, p');
  create_file name u fd u' :
    sys_open ux name (Z.lor (Z.lor O_RDWR O_CREAT) O_TRUNC) u = (fd, u') -> 0 <= fd ->
    fd_file fd u' = Some ([], 0)
}.

Definition sector_pos (n : nat) : nat := 4 + 128 * n.
Definition sector_at (c : list Z) (n : nat) : list Z := take 128 (drop (sector_pos n) c).
Definition sectors_of (c : list Z) : list (list Z) := sector_at c <$> seq 0 (Z.to_nat NumSectors).

Lemma sectors_lookup c n : (n < 1024)%nat -> sectors_of c !! n = Some (sector_at c n).
Proof.
  intros Hn. unfold sectors_of. rewrite list_lookup_fmap.
  change (Z.to_nat NumSectors) with 1024%nat. by rewrite lookup_seq_lt.
Qed.

Lemma length_sectors_of c : length (sectors_of c) = 1024%nat.
Proof. unfold sectors_of. by rewrite length_fmap, length_seq. Qed.

Lemma sector_at_wf c n :
  Z.of_nat (length c) = DiskSize -> Forall is_byte c -> (n < 1024)%nat -> sector_wf (sector_at c n).
Proof.
  intros Hl Hb Hn. change DiskSize with 131076 in Hl. unfold sector_at, sector_pos. split.
  - rewrite length_take, length_drop. change (Z.to_nat SectorSize) with 128%nat. lia.
  - by apply Forall_take, Forall_drop.
Qed.

Lemma sectors_splice c n b :
  Z.of_nat (length c) = DiskSize -> (n < 1024)%nat -> length b = 128%nat ->
  sectors_of (splice c (sector_pos n) b) = <[n := b]> (sectors_of c).
Proof.
  intros Hl Hn Hb. change DiskSize with 131076 in Hl.
  assert (sector_pos n + length b <= length c)%nat as Hfit by (unfold sector_pos; lia).
  apply list_eq. intros i. destruct (decide (i < 1024)%nat) as [Hi | Hi].
  2:{ rewrite !lookup_ge_None_2; [done | rewrite length_insert | ]; rewrite length_sectors_of; lia. }
  rewrite sectors_lookup by done. destruct (decide (i = n)) as [-> | Hne].
  - rewrite list_lookup_insert_eq by (rewrite length_sectors_of; lia). f_equal.
    unfold sector_at, splice. rewrite take_app_le by lia.
    rewrite drop_app_length' by (rewrite length_take_le; lia).
    rewrite take_app_length' by done. done.
  - rewrite list_lookup_insert_ne, sectors_lookup by done. f_equal.
    unfold sector_at. apply list_eq. intros j. destruct (decide (j < 128)%nat).
    2:{ rewrite !lookup_take_ge by lia. done. }
    rewrite !lookup_take_lt, !lookup_drop, splice_lookup by done.
    rewrite bool_decide_eq_false_2; [done | ]. unfold sector_pos in *. lia.
Qed.

(** *** Latency *)

Lemma ModuloDiff_range to from : 0 <= to -> 0 <= ModuloDiff to from < SectorsPerTrack.
Proof.
  intros Ht. unfold ModuloDiff, SectorsPerTrack.
  pose proof (Z.rem_bound_pos to 32 ltac:(lia) ltac:(lia)).
  pose proof (Z.rem_bound_abs from 32 ltac:(lia)).
  apply Z.rem_bound_pos; lia.
Qed.

Lemma TimeToSeek_range d now n seek rotation :
  TimeToSeek d now n = (seek, rotation) -> 0 <= n < NumSectors -> 0 <= lastSector d < NumSectors ->
  0 <= seek <= 31 * SeekTime /\ 0 <= rotation <= RotationTime /\
  (0 <= now -> rotation < RotationTime).
Proof.
  unfold TimeToSeek, SectorsPerTrack, SeekTime, RotationTime. intros [= <- <-] Hn Hl.
  change NumSectors with 1024 in *. rewrite !Z.quot_div_nonneg by lia.
  set (seek := Z.abs (n / 32 - lastSector d / 32) * 500).
  assert (0 <= seek <= 31 * 500) by (unfold seek; Z.div_mod_to_equations; lia).
  pose proof (Z.rem_bound_abs (now + seek) 500 ltac:(lia)) as Hr.
  split_and!; try done; destruct (Z.ltb_spec 0 (Z.rem (now + seek) 500)); lia.
Qed.

(** A request takes at least the transfer of its sector, and at most a full
    seek, the rest of a sector, a turn of the disk and the transfer. *)
Lemma ComputeLatency_range d now n writing :
  0 <= n < NumSectors -> 0 <= lastSector d < NumSectors ->
  RotationTime <= ComputeLatency d now n writing <= 31 * SeekTime + 33 * RotationTime.
Proof.
  intros Hn Hl. unfold ComputeLatency. destruct (TimeToSeek d now n) as [seek rotation] eqn:E.
  apply TimeToSeek_range in E as (Hs & Hr & _); [ | done..].
  pose proof (ModuloDiff_range n (Z.quot (now + seek + rotation) RotationTime) ltac:(lia)) as Hm.
  unfold SeekTime, RotationTime, SectorsPerTrack in *.
  destruct (_ && _); lia.
Qed.

(** *** SynchDisk as a store of sectors *)

Section Provides.
Context {U : Type} (ux : UnixOps U) (fd_file : Z -> U -> option (list Z * Z)) (wait : Z -> Z).
Context `{!UnixStore ux fd_file}.
Notation S := (SynchDisk U).

(** The disk is idle, nobody holds its lock, and the UNIX file holds [c]. *)
Record disk_idle (s : S) (c : list Z) : Prop := {
  idle_active : active (disk s) = false;
  idle_last : 0 <= lastSector (disk s) < NumSectors;
  idle_due : due s = None;
  idle_sem : semaphore s = 0;
  idle_lock : locked s = false;
  idle_file : exists p, fd_file (fileno (disk s)) (host s) = Some (c, p);
  idle_size : Z.of_nat (length c) = DiskSize;
  idle_bytes : Forall is_byte c
}.

Lemma in_range_sector n :
  0 <= n < NumSectors -> (0 <=? n) && (n <? NumSectors) = true.
Proof. intros ?. apply andb_true_iff. rewrite Z.leb_le, Z.ltb_lt. lia. Qed.

Lemma Lseek_file fd u c p pos :
  fd_file fd u = Some (c, p) -> 0 <= pos ->
  exists u', Lseek ux fd pos 0 u = Ok (tt, u') /\ fd_file fd u' = Some (c, pos).
Proof.
  intros Hf Hpos. destruct (lseek_file (UnixFiles := store_files) fd u c p pos Hf Hpos) as (u' & E & Hf').
  exists u'. split; [ | done]. unfold Lseek, unix. run. rewrite E. simpl.
  by rewrite (proj2 (Z.leb_le _ _)).
Qed.

Lemma Read_file fd u c pos n :
  fd_file fd u = Some (c, pos) -> 0 <= pos -> 0 <= n < 2 ^ 31 -> pos + n <= Z.of_nat (length c) ->
  exists u' p', Read ux fd n u = Ok (take (Z.to_nat n) (drop (Z.to_nat pos) c), u') /\
    fd_file fd u' = Some (c, p').
Proof.
  intros Hf Hp Hn Hlen. destruct (read_file (UnixFiles := store_files) fd u c pos n Hf Hp ltac:(lia)) as (u' & p' & E & Hf').
  exists u', p'. split; [ | done]. unfold Read, ReadPartial, unix. run. rewrite E. simpl.
  set (bs := take _ _).
  assert (Z.of_nat (length bs) = n) as -> by (unfold bs; rewrite length_take, length_drop; lia).
  rewrite to_i32_id by (unfold is_i32; pow2; lia). by rewrite Z.eqb_refl.
Qed.

Lemma WriteFile_file fd u c p b :
  fd_file fd u = Some (c, p) -> 0 <= p ->
  exists u' p', WriteFile ux fd b (Z.of_nat (length b)) u = Ok (tt, u') /\
    fd_file fd u' = Some (splice c (Z.to_nat p) b, p').
Proof.
  intros Hf Hp. destruct (write_file fd u c p b Hf Hp) as (u' & p' & E & Hf').
  exists u', p'. split; [ | done]. unfold WriteFile, unix. run. rewrite E. by rewrite Z.eqb_refl.
Qed.

(** The transfer of a request, and what is left to do after it. *)
Lemma request_completes d now reads writes (u : U) n ticks writing :
  0 < ticks -> active d = false ->
  exists d' st, (request_sent n ticks writing;; semaphore_P wait;; lock_Release : stM S unit)
    (mkSynchDisk d (mkDiskStats now reads writes) None 0 true u) =
    Ok (tt, mkSynchDisk d' st None 0 false u) /\
    active d' = false /\ lastSector d' = n /\ fileno d' = fileno d.
Proof.
  intros Ht Ha. unfold request_sent, Schedule_disk, semaphore_P, Idle, Disk_CallBack,
    SynchDisk_CallBack, lock_Release. run. rewrite (proj2 (Z.ltb_lt _ _)) by done. simpl. run.
  eexists _, _. split; [done | ]. done.
Qed.

Lemma SynchDisk_read s c n :
  disk_idle s c -> 0 <= n < NumSectors ->
  exists s', SynchDisk_ReadSector ux wait n s = Ok (sector_at c (Z.to_nat n), s') /\ disk_idle s' c.
Proof.
  intros Hi Hn. destruct Hi as [Ha Hl Hd Hs Hk [p Hf] Hz Hb].
  destruct s as [d [now reads writes] du se lk u]. simpl in *. subst du se lk.
  pose proof (ComputeLatency_range d now n false Hn Hl) as Hlat.
  unfold SynchDisk_ReadSector, lock_Acquire, ReadRequest, on_host.
  run. simpl. rewrite Ha. simpl. rewrite in_range_sector by done. simpl.
  change NumSectors with 1024 in Hn. change DiskSize with 131076 in Hz.
  unfold SectorSize, MagicSize.
  destruct (Lseek_file _ _ _ _ (128 * n + 4) Hf ltac:(lia)) as (u1 & -> & Hf1). simpl.
  destruct (Read_file _ _ _ _ 128 Hf1) as (u2 & p2 & -> & Hf2); [lia | lia | lia | ]. simpl.
  destruct (request_completes d now reads writes u2 n (ComputeLatency d now n false) false)
    as (d' & st & E & Ha' & Hl' & Hf'); [unfold RotationTime in Hlat; lia | done | ].
  unfold mbind, stM_bind in E. destruct (request_sent n _ false _) as [[[] s1] | ]; [ | done].
  destruct (semaphore_P wait s1) as [[[] s2] | ]; [ | done]. rewrite E.
  eexists. split; [f_equal; f_equal; unfold sector_at, sector_pos; f_equal; f_equal; lia | ].
  split; simpl; try done; [by rewrite Hl' | rewrite Hf'; eauto].
Qed.

Lemma SynchDisk_write s c n data :
  disk_idle s c -> 0 <= n < NumSectors -> sector_wf data ->
  exists s', SynchDisk_WriteSector ux wait n data s = Ok (tt, s') /\
    disk_idle s' (splice c (sector_pos (Z.to_nat n)) data).
Proof.
  intros Hi Hn [Hlen Hbytes]. destruct Hi as [Ha Hl Hd Hs Hk [p Hf] Hz Hb].
  destruct s as [d [now reads writes] du se lk u]. simpl in *. subst du se lk.
  pose proof (ComputeLatency_range d now n true Hn Hl) as Hlat.
  unfold SynchDisk_WriteSector, lock_Acquire, WriteRequest, on_host.
  run. simpl. rewrite Ha. simpl. rewrite in_range_sector by done. simpl.
  change NumSectors with 1024 in Hn. change DiskSize with 131076 in Hz.
  change (Z.to_nat SectorSize) with 128%nat in Hlen. unfold SectorSize, MagicSize.
  destruct (Lseek_file _ _ _ _ (128 * n + 4) Hf ltac:(lia)) as (u1 & -> & Hf1). simpl.
  destruct (WriteFile_file _ _ _ _ data Hf1 ltac:(lia)) as (u2 & p2 & E2 & Hf2).
  rewrite Hlen in E2. change (Z.of_nat 128) with 128 in E2. rewrite E2. simpl.
  destruct (request_completes d now reads writes u2 n (ComputeLatency d now n true) true)
    as (d' & st & E & Ha' & Hl' & Hf'); [unfold RotationTime in Hlat; lia | done | ].
  unfold mbind, stM_bind in E. destruct (request_sent n _ true _) as [[[] s1] | ]; [ | done].
  destruct (semaphore_P wait s1) as [[[] s2] | ]; [ | done]. rewrite E.
  assert (sector_pos (Z.to_nat n) = Z.to_nat (128 * n + 4)) as -> by (unfold sector_pos; lia).
  assert (Z.to_nat (128 * n + 4) + length data <= length c)%nat by lia.
  eexists. split; [done | ]. split; simpl; try done.
  - by rewrite Hl'.
  - rewrite Hf'. eauto.
  - by rewrite length_splice.
  - by apply splice_Forall.
Qed.

Lemma SynchDisk_bad s c n :
  disk_idle s c -> ~ 0 <= n < NumSectors ->
  SynchDisk_ReadSector ux wait n s = Fail AssertFail /\
  forall data, SynchDisk_WriteSector ux wait n data s = Fail AssertFail.
Proof.
  intros Hi Hn. assert ((0 <=? n) && (n <? NumSectors) = false) as Hr.
  { apply andb_false_iff. rewrite Z.leb_gt, Z.ltb_ge. lia. }
  unfold SynchDisk_ReadSector, SynchDisk_WriteSector, lock_Acquire, ReadRequest, WriteRequest.
  run. rewrite (idle_lock _ _ Hi). simpl. rewrite (idle_active _ _ Hi). simpl. by rewrite Hr.
Qed.

#[export, refine] Instance synchdisk_sectors : SectorDisk S := {
  ReadSector := SynchDisk_ReadSector ux wait;
  WriteSector := SynchDisk_WriteSector ux wait;
  contents s ds := exists c, disk_idle s c /\ ds = sectors_of c
}.
Proof.
  - intros s ds (c & Hi & ->). split; [by rewrite length_sectors_of | ].
    apply Forall_forall. intros x Hx. apply list_elem_of_fmap in Hx as (i & -> & Hi'%elem_of_seq).
    apply sector_at_wf; [apply Hi.. | ]. change (Z.to_nat NumSectors) with 1024%nat in Hi'. lia.
  - intros s ds n (c & Hi & ->) Hn. destruct (SynchDisk_read s c n Hi Hn) as (s' & E & Hi').
    eexists _, s'. split; [done | ]. split; [ | by exists c].
    apply sectors_lookup. change NumSectors with 1024 in Hn. lia.
  - intros s ds n data (c & Hi & ->) Hn Hw.
    destruct (SynchDisk_write s c n data Hi Hn Hw) as (s' & E & Hi').
    eexists s'. split; [done | ]. eexists. split; [done | ]. symmetry.
    apply sectors_splice; [apply Hi | change NumSectors with 1024 in Hn; lia | apply Hw].
  - intros s ds n (c & Hi & _) Hn. by eapply SynchDisk_bad.
  - intros s ds n data (c & Hi & _) Hn. by eapply SynchDisk_bad.
Defined.

End Provides.

(** ** A new disk, and the host of the examples *)

Section Created.
Context {U : Type} (ux : UnixOps U) (fd_file : Z -> U -> option (list Z * Z)) (wait : Z -> Z).
Context `{!UnixStore ux fd_file}.

(** Where no file for the disk exists, one is created, and the disk is ready. *)
Lemma new_SynchDisk_spec hostName now u fd0 u0 fd u1 :
  sys_open ux (diskname hostName) O_RDWR u = (fd0, u0) -> fd0 < 0 ->
  sys_open ux (diskname hostName) (Z.lor (Z.lor O_RDWR O_CREAT) O_TRUNC) u0 = (fd, u1) -> 0 <= fd ->
  exists s c, new_SynchDisk ux hostName now u = Ok s /\ disk_idle fd_file s c.
Proof.
  intros E0 H0 E1 H1. pose proof (create_file _ _ _ _ E1 H1) as Hf.
  unfold new_SynchDisk, new_Disk, OpenForReadWrite, OpenForWrite, unix. run. rewrite E0. simpl.
  rewrite (proj2 (Z.leb_gt 0 fd0)) by done. rewrite E1. simpl. rewrite (proj2 (Z.leb_le 0 fd)) by done. simpl.
  destruct (WriteFile_file ux fd_file _ _ _ _ (int_bytes MagicNumber) Hf ltac:(lia)) as (u2 & p2 & E2 & Hf2).
  change MagicSize with (Z.of_nat (length (int_bytes MagicNumber))). rewrite E2.
  change (DiskSize - 4) with 131072.
  destruct (Lseek_file ux fd_file _ _ _ _ 131072 Hf2 ltac:(lia)) as (u3 & E3 & Hf3). rewrite E3.
  destruct (WriteFile_file ux fd_file _ _ _ _ (int_bytes 0) Hf3 ltac:(lia)) as (u4 & p4 & E4 & Hf4).
  change 4 with (Z.of_nat (length (int_bytes 0))) at 1. rewrite E4.
  eexists _, _. split; [reflexivity | ]. split; cbn [disk due semaphore locked host active lastSector fileno].
  - done.
  - done.
  - done.
  - done.
  - done.
  - eexists. exact Hf4.
  - generalize (Z2Nat.id 131072 ltac:(lia)). generalize (Z.to_nat 131072) as P.
    intros P HP. unfold splice. change (Z.to_nat 0) with 0%nat.
    rewrite !length_app, length_take, !length_app, length_replicate, length_take, !length_drop. simpl.
    change DiskSize with 131076. lia.
  - generalize (Z.to_nat 131072) as P. intros P. unfold splice.
    assert (Forall is_byte (int_bytes MagicNumber) /\ Forall is_byte (int_bytes 0)) as [Hm Hz]
      by (split; repeat constructor; done).
    assert (forall n, Forall is_byte (replicate n 0)) as Hr by (intros n; by apply Forall_replicate).
    repeat first [apply Forall_app_2 | apply Forall_take | apply Forall_drop | done | apply Hr | constructor].
Qed.

End Created.

#[global] Instance host_store : UnixStore host_ops host_file.
Proof.
  split; [apply _ | | ]; simpl.
  - intros fd h c p b (ino & E & <-)%host_file_fd Hp. unfold host_write. rewrite E.
    eexists _, _. split; [done | ]. unfold host_file. simpl. rewrite lookup_insert_eq. simpl.
    rewrite lookup_insert_eq. simpl. unfold splice. rewrite Nat2Z.id, (take_ge b) by done.
    replace (Z.to_nat (p + Z.of_nat (length b))) with (Z.to_nat p + length b)%nat by lia. done.
  - intros name h fd h' E Hfd. unfold host_open in E.
    destruct (host_lookup name (Z.lor (Z.lor O_RDWR O_CREAT) O_TRUNC) h) as [[ino h1] | ] eqn:El; [ | by simplify_eq].
    assert (h_data h1 !! ino = Some []) as Hd.
    { unfold host_lookup in El. destruct (h_names h !! name); simplify_eq/=; apply lookup_insert_eq. }
    destruct (lowest_fd 64 0 (h_fds h1)) as [fd' | ]; simplify_eq/=; [ | lia].
    unfold host_file. simpl. rewrite lookup_insert_eq. simpl. by rewrite Hd.
Qed.

(** ** Properties *)

(** C34: The time the disk takes for a request, at any time before the clock
    runs out of 31 bits less 2^20: no sum overflows, the request takes at
    least the transfer of a sector and at most 64 of them, so that it can be
    scheduled; and unless the track buffer serves it, the transfer starts
    when the head, after the seek, first comes to the start of the sector. *)
Theorem disk_latency (d : Disk) now n writing
    (Hn : 0 <= n < NumSectors) (Hl : 0 <= lastSector d < NumSectors) (Ht : 0 <= now <= 2 ^ 31 - 2 ^ 20) :
  let latency := ComputeLatency d now n writing in
  let seek := Z.abs (n / 32 - lastSector d / 32) * SeekTime in
  let start := now + latency - RotationTime in
  RotationTime <= latency <= 64 * RotationTime /\ is_i32 (now + latency) /\
  (latency <> RotationTime \/ writing = true ->
     now + seek <= start < now + seek + 33 * RotationTime /\
     start mod RotationTime = 0 /\ (start / RotationTime) mod SectorsPerTrack = n mod SectorsPerTrack).
Proof.
  intros latency seek start. pose proof (ComputeLatency_range d now n writing Hn Hl) as Hr.
  fold latency in Hr. unfold SeekTime, RotationTime, SectorsPerTrack in *. change (2 ^ 20) with 1048576 in Ht.
  split_and!; [lia | lia | unfold is_i32; pow2; lia | ].
  unfold start, latency, ComputeLatency. clear start Hr.
  destruct (TimeToSeek d now n) as [seek' rotation] eqn:Es.
  pose proof (TimeToSeek_range _ _ _ _ _ Es Hn Hl) as (Hs & Hr & _). unfold SeekTime, RotationTime in *.
  unfold TimeToSeek, SeekTime, RotationTime, SectorsPerTrack in Es.
  change NumSectors with 1024 in *. rewrite !Z.quot_div_nonneg in Es by lia. fold seek in Es.
  injection Es as <- Er. rewrite Z.rem_mod_nonneg in Er by lia.
  set (after := now + seek + rotation).
  assert (after mod 500 = 0 /\ 0 <= rotation < 500) as [Ha Hr'].
  { unfold after. rewrite <- Er. destruct (Z.ltb_spec 0 ((now + seek) mod 500)); Z.div_mod_to_equations; lia. }
  destruct (_ && _) eqn:Eb.
  { intros [ | ->]; [done | ]. by bool_prop. }
  intros _. pose proof (ModuloDiff_range n (Z.quot after 500) ltac:(lia)) as Hm. unfold SectorsPerTrack in Hm.
  assert (0 <= after) by (unfold after; lia).
  assert (ModuloDiff n (Z.quot after 500) = (n - after / 500) mod 32) as Ed.
  { unfold ModuloDiff, SectorsPerTrack. rewrite Z.quot_div_nonneg by lia.
    pose proof (Z.div_pos after 500 ltac:(done) ltac:(lia)).
    rewrite (Z.rem_mod_nonneg n 32), (Z.rem_mod_nonneg (after / 500) 32) by lia.
    pose proof (Z.mod_pos_bound n 32 ltac:(lia)). pose proof (Z.mod_pos_bound (after / 500) 32 ltac:(lia)).
    rewrite Z.rem_mod_nonneg by lia. generalize (after / 500). intros a.
    rewrite (Zminus_mod n a 32), <- (Z.mod_add (n mod 32 - a mod 32) 1 32) by lia.
    by rewrite Z.mul_1_l. }
  rewrite Ed in *. set (D := (n - after / 500) mod 32) in *.
  replace (now + (seek + (rotation + D * 500) + 500) - 500) with (after + D * 500) by (unfold after; lia).
  split; [unfold after; lia | ]. rewrite Z.mod_add, Z.div_add by lia. split; [done | ].
  unfold D. rewrite Zplus_mod_idemp_r. f_equal. lia.
Qed.

Lemma disk_latency_witness :
  RotationTime <= ComputeLatency (mkDisk 3 false 40 0) 1234 900 true <= 64 * RotationTime /\
  ComputeLatency (mkDisk 3 false 40 0) 1234 900 true = 17266.
Proof.
  split; [ | vm_compute; reflexivity].
  apply (disk_latency (mkDisk 3 false 40 0) 1234 900 true);
    (split; vm_compute; congruence).
Defined.

Section Roundtrip.
Context {U : Type} (ux : UnixOps U) (fd_file : Z -> U -> option (list Z * Z)) (wait : Z -> Z).
Context `{!UnixStore ux fd_file}.

(** C33: Through SynchDisk, a sector that was written is read back, every
    other sector reads as before, and after each call the disk is idle and
    its lock free: a call waits for the interrupt of its own request. *)
Theorem synchdisk_roundtrip (s : SynchDisk U) c n k data (Hi : disk_idle fd_file s c)
    (Hn : 0 <= n < NumSectors) (Hk : 0 <= k < NumSectors) (Hd : sector_wf data) :
  exists s1 c1 s2, SynchDisk_WriteSector ux wait n data s = Ok (tt, s1) /\ disk_idle fd_file s1 c1 /\
    SynchDisk_ReadSector ux wait k s1 =
      Ok (if bool_decide (k = n) then data else sector_at c (Z.to_nat k), s2) /\
    disk_idle fd_file s2 c1.
Proof.
  destruct (SynchDisk_write ux fd_file wait s c n data Hi Hn Hd) as (s1 & E1 & Hi1).
  destruct (SynchDisk_read ux fd_file wait s1 _ k Hi1 Hk) as (s2 & E2 & Hi2).
  eexists s1, _, s2. split_and!; [exact E1 | exact Hi1 | | exact Hi2]. rewrite E2. do 2 f_equal.
  change NumSectors with 1024 in *.
  pose proof (sectors_splice c (Z.to_nat n) data (idle_size _ _ _ Hi) ltac:(lia) (proj1 Hd)) as Hs.
  assert (Some (sector_at (splice c (sector_pos (Z.to_nat n)) data) (Z.to_nat k)) =
    <[Z.to_nat n := data]> (sectors_of c) !! Z.to_nat k) as Hl.
  { rewrite <- Hs. symmetry. apply sectors_lookup. lia. }
  case_bool_decide as Hkn.
  - subst k. rewrite list_lookup_insert_eq in Hl by (rewrite length_sectors_of; lia). by injection Hl.
  - rewrite list_lookup_insert_ne, sectors_lookup in Hl by lia. by injection Hl.
Qed.

End Roundtrip.

(** A disk created on a host without files. *)
Definition demo_host : FileSysStub.host := mkHost ∅ ∅ ∅.

Lemma demo_disk : exists s c, new_SynchDisk host_ops 0 0 demo_host = Ok s /\ disk_idle host_file s c.
Proof.
  eapply (new_SynchDisk_spec host_ops host_file); [vm_compute; reflexivity | done | vm_compute; reflexivity | done].
Qed.

Lemma synchdisk_roundtrip_witness :
  exists s c s1 s2, disk_idle host_file s c /\
    SynchDisk_WriteSector host_ops id 7 (replicate 128 65) s = Ok (tt, s1) /\
    SynchDisk_ReadSector host_ops id 7 s1 = Ok (replicate 128 65, s2).
Proof.
  destruct demo_disk as (s & c & _ & Hi).
  assert (sector_wf (replicate 128 65)) as Hd by (split; [reflexivity | by apply Forall_replicate]).
  destruct (synchdisk_roundtrip host_ops host_file id s c 7 7 (replicate 128 65) Hi) as (s1 & c1 & s2 & E1 & _ & E2 & _);
    [done | done | exact Hd | ].
  exists s, c, s1, s2. split; [exact Hi | split; [exact E1 | exact E2]].
Defined.
