(* ===== verification/FileHdr.v ===== *)
(** * File headers (filesys/filehdr.cc, filehdr.h)

    A [FileHeader] gives the length of a file and the disk sectors of its
    data.  It is one sector on disk: 32 integers of four bytes.  The data
    sectors come out of the map of free sectors, which is a [Bitmap].

    [hdr_ok] is the shape of the header of a file; [file_byte] is the byte a
    header leads to, and [file_data] the contents of the file. *)

From S2P Require Import Prelude Bitmap Disk.

(** ** Memory as bytes *)

(** [numBytes] bytes at offset [off] of a buffer. *)
Definition buf_read (buf : list Z) (off n : Z) : res (list Z) :=
  if (0 <=? off) && (0 <=? n) && (off + n <=? Z.of_nat (length buf))
  then Ok (take (Z.to_nat n) (drop (Z.to_nat off) buf)) else Fail Undefined.

(** The bytes [b] stored at offset [off] of a buffer. *)
Definition buf_write (buf : list Z) (off : Z) (b : list Z) : res (list Z) :=
  if (0 <=? off) && (off + Z.of_nat (length b) <=? Z.of_nat (length buf))
  then Ok (splice buf (Z.to_nat off) b) else Fail Undefined.

(** An array of [int]s or [unsigned]s as bytes. *)
Definition ints_bytes (l : list Z) : list Z := concat (int_bytes <$> l).

Definition word_of (bs : list Z) (i : nat) : Z := bytes_uint (drop (4 * i) bs).

(** [new char[n]]: memory that holds anything. *)
Definition new_buf (uninit : nat -> Z) (n : Z) : list Z :=
  (fun i => to_u8 (uninit i)) <$> seq 0 (Z.to_nat n).

(** ** class FileHeader *)

Definition NumDirect : Z := (SectorSize - 2 * 4) / 4.
Definition MaxFileSize : Z := NumDirect * SectorSize.

Record FileHeader := mkHeader {
  numBytes : Z;
  numSectors : Z;
  dataSectors : list Z
}.

(** [(char * )this] *)
Definition hdr_bytes (h : FileHeader) : list Z :=
  ints_bytes (numBytes h :: numSectors h :: dataSectors h).

Definition hdr_of (bs : list Z) : FileHeader :=
  mkHeader (to_i32 (word_of bs 0)) (to_i32 (word_of bs 1))
    ((fun i => to_i32 (word_of bs i)) <$> seq 2 (Z.to_nat NumDirect)).

(** [new FileHeader]: no constructor. *)
Definition new_FileHeader (uninit : nat -> Z) : FileHeader := hdr_of (new_buf uninit SectorSize).

(** The loop of [Allocate]. *)
Definition Allocate_loop (n : Z) (dataSectors : list Z) (freeMap : Bitmap) : res (list Z * Bitmap) :=
  for_up 0 n (fun i '(ds, map) =>
    '(r, map) ← FindAndSet map;
    ds ← zset ds i r;
    ASSERT (0 <=? r);;
    mret (ds, map)) (dataSectors, freeMap).

Definition Allocate (h : FileHeader) (freeMap : Bitmap) (fileSize : Z)
    : res (bool * FileHeader * Bitmap) :=
  let numBytes := fileSize in
  let numSectors := divRoundUp fileSize SectorSize in
  c ← NumClear freeMap;
  if c <? numSectors then mret (false, mkHeader numBytes numSectors (dataSectors h), freeMap)
  else
    '(ds, freeMap) ← Allocate_loop numSectors (dataSectors h) freeMap;
    mret (true, mkHeader numBytes numSectors ds, freeMap).

Definition Deallocate (h : FileHeader) (freeMap : Bitmap) : res Bitmap :=
  for_up 0 (numSectors h) (fun i map =>
    s ← zget (dataSectors h) i;
    t ← Test map s;
    ASSERT t;;
    Clear map s) freeMap.

Definition ByteToSector (h : FileHeader) (offset : Z) : res Z :=
  zget (dataSectors h) (Z.quot offset SectorSize).

Definition FileLength (h : FileHeader) : Z := numBytes h.

Section OnDisk.
Context {S : Type} `{!SectorDisk S}.

Definition Header_FetchFrom (sector : Z) : stM S FileHeader :=
  bs ← ReadSector sector; mret (hdr_of bs).

Definition Header_WriteBack (h : FileHeader) (sector : Z) : stM S unit :=
  WriteSector sector (hdr_bytes h).

End OnDisk.

(** ** Encoding *)

Lemma length_ints_bytes l : length (ints_bytes l) = (4 * length l)%nat.
Proof.
  unfold ints_bytes. induction l as [ | v l IH]; [done | ].
  rewrite fmap_cons. cbn [concat]. rewrite length_app, IH. simpl. lia.
Qed.

Lemma int_bytes_byte v : Forall is_byte (int_bytes v).
Proof. unfold is_byte. repeat constructor; cint. Qed.

Lemma ints_bytes_byte l : Forall is_byte (ints_bytes l).
Proof.
  unfold ints_bytes. induction l as [ | v l IH]; [constructor | ].
  apply Forall_app_2; [apply int_bytes_byte | apply IH].
Qed.

Lemma bytes_uint_int_bytes v rest : bytes_uint (int_bytes v ++ rest) = to_u32 v.
Proof.
  unfold bytes_uint, int_bytes. cbn [app lookup_total list_lookup_total].
  rewrite !Z.shiftr_div_pow2 by lia.
  change (2 ^ 24) with 16777216. unfold to_u8, to_u32. pow2.
  Z.div_mod_to_equations. lia.
Qed.

Lemma word_of_ints l i v : l !! i = Some v -> word_of (ints_bytes l) i = to_u32 v.
Proof.
  revert i. induction l as [ | w l IH]; intros i Hi; [done | ].
  unfold word_of, ints_bytes. rewrite fmap_cons. cbn [concat]. destruct i as [ | i].
  - injection Hi as ->. change (4 * 0)%nat with 0%nat. rewrite drop_0. apply bytes_uint_int_bytes.
  - replace (4 * S i)%nat with (length (int_bytes w) + 4 * i)%nat by (simpl; lia).
    rewrite drop_app_add. by apply IH.
Qed.

Lemma bytes_uint_range bs :
  (4 <= length bs)%nat -> Forall is_byte bs -> is_u32 (bytes_uint bs).
Proof.
  intros Hl Hb. do 4 (destruct bs as [ | ? bs]; [simpl in Hl; lia | apply Forall_cons in Hb as [? Hb]]).
  unfold bytes_uint, is_byte, is_u32 in *. simpl. change (2 ^ 24) with 16777216. pow2. lia.
Qed.

Lemma int_bytes_bytes_uint b0 b1 b2 b3 rest :
  Forall is_byte [b0; b1; b2; b3] ->
  int_bytes (bytes_uint (b0 :: b1 :: b2 :: b3 :: rest)) = [b0; b1; b2; b3].
Proof.
  intros Hb. repeat (apply Forall_cons in Hb as [? Hb]). unfold is_byte in *.
  unfold int_bytes, bytes_uint. cbn [lookup_total list_lookup_total].
  rewrite !Z.shiftr_div_pow2 by lia.
  change (2 ^ 24) with 16777216. change (2 ^ 16) with 65536. change (2 ^ 8) with 256.
  unfold to_u8. change (2 ^ 8) with 256. repeat f_equal; Z.div_mod_to_equations; lia.
Qed.

Lemma ints_bytes_words bs n :
  length bs = (4 * n)%nat -> Forall is_byte bs -> ints_bytes (word_of bs <$> seq 0 n) = bs.
Proof.
  revert bs. induction n as [ | n IH]; intros bs Hl Hb.
  - destruct bs; [done | simpl in Hl; lia].
  - do 4 (destruct bs as [ | ? bs]; [simpl in Hl; lia | ]).
    cbn [seq]. rewrite fmap_cons. unfold ints_bytes. rewrite fmap_cons. cbn [concat].
    unfold word_of at 1. rewrite drop_0. rewrite int_bytes_bytes_uint.
    2:{ by apply (Forall_take _ 4) in Hb. }
    cbn [app]. do 4 f_equal. rewrite <- (IH bs) at 2; [ | simpl in Hl; lia | by apply (Forall_drop _ 4) in Hb].
    unfold ints_bytes. f_equal. f_equal. rewrite <- fmap_S_seq, <- list_fmap_compose.
    apply list_fmap_ext. intros j k _. unfold word_of, compose. f_equal.
    by replace (4 * S k)%nat with (S (S (S (S (4 * k))))) by lia.
Qed.

Lemma to_i32_u32 v : to_i32 (to_u32 v) = to_i32 v.
Proof. cint. Qed.

(** A header written and read again is the same header. *)
Lemma hdr_of_bytes h :
  is_i32 (numBytes h) -> is_i32 (numSectors h) -> length (dataSectors h) = Z.to_nat NumDirect ->
  Forall is_i32 (dataSectors h) -> hdr_of (hdr_bytes h) = h.
Proof.
  intros H1 H2 H3 H4. destruct h as [nb ns ds]. cbn [numBytes numSectors dataSectors] in *.
  unfold hdr_of, hdr_bytes. cbn [numBytes numSectors dataSectors].
  rewrite (word_of_ints _ 0 nb), (word_of_ints _ 1 ns), !to_i32_u32, !to_i32_id by done. f_equal.
  apply list_eq. intros i. rewrite list_lookup_fmap. destruct (ds !! i) as [d | ] eqn:E.
  - pose proof (lookup_lt_Some _ _ _ E). rewrite lookup_seq_lt by lia. simpl. f_equal.
    rewrite (word_of_ints _ _ d), to_i32_u32 by done. apply to_i32_id.
    by eapply Forall_lookup_1 in H4.
  - apply lookup_ge_None in E. rewrite lookup_seq_ge by lia. done.
Qed.

Lemma hdr_bytes_wf h : length (dataSectors h) = Z.to_nat NumDirect -> sector_wf (hdr_bytes h).
Proof.
  intros Hl. split; [ | apply ints_bytes_byte]. unfold hdr_bytes. rewrite length_ints_bytes. simpl.
  rewrite Hl. done.
Qed.

(** ** The map of free sectors *)

(** The sectors marked in [b] are exactly those of [owned]. *)
Record free_map (b : Bitmap) (owned : list Z) : Prop := {
  fm_wf : bitmap_wf b;
  fm_size : numBits b = NumSectors;
  fm_range : Forall (fun s => 0 <= s < NumSectors) owned;
  fm_nodup : NoDup owned;
  fm_bit i : 0 <= i < NumSectors -> bit_at b i = bool_decide (i ∈ owned)
}.

Lemma free_map_perm b o o' : free_map b o -> o ≡ₚ o' -> free_map b o'.
Proof.
  intros [H1 H2 H3 H4 H5] Hp. split; [done | done | by rewrite <- Hp | by rewrite <- Hp | ].
  intros i Hi. rewrite H5 by done. apply bool_decide_ext. by rewrite Hp.
Qed.

Lemma free_map_bits b o :
  free_map b o -> bits b = (fun i => bool_decide (i ∈ o)) <$> seqZ 0 NumSectors.
Proof.
  intros Hf. unfold bits, seqZ. rewrite (fm_size _ _ Hf), <- list_fmap_compose.
  apply list_fmap_ext. intros j i Hi. unfold compose.
  apply lookup_seq in Hi as [-> Hi]. rewrite Z.add_0_r. apply (fm_bit _ _ Hf).
  rewrite Nat.add_0_l in *. pose proof (wf_bits _ (fm_wf _ _ Hf)). lia.
Qed.

Lemma owned_bound o :
  Forall (fun s => 0 <= s < NumSectors) o -> NoDup o ->
  filter (fun s => s ∈ o) (seqZ 0 NumSectors) ≡ₚ o.
Proof.
  intros Hr Hnd. apply NoDup_Permutation; [apply NoDup_filter, NoDup_seqZ | done | ].
  intros s. rewrite list_elem_of_filter, elem_of_seqZ. split; [tauto | ].
  intros Hs. split; [done | ]. rewrite Forall_forall in Hr. apply Hr in Hs. lia.
Qed.

Lemma filter_bools {A} (P : A -> Prop) `{forall x, Decision (P x)} (l : list A) :
  count_clear ((fun i => bool_decide (P i)) <$> l) + Z.of_nat (length (filter P l)) = Z.of_nat (length l).
Proof.
  unfold count_clear. induction l as [ | x l IH]; [done | ].
  rewrite fmap_cons, !filter_cons. cbn [length]. repeat case_decide; case_bool_decide; simplify_eq;
    try done; cbn [length]; lia.
Qed.

Lemma free_map_count b o : free_map b o -> count_clear (bits b) = NumSectors - Z.of_nat (length o).
Proof.
  intros Hf. rewrite (free_map_bits _ _ Hf).
  pose proof (filter_bools (fun i => i ∈ o) (seqZ 0 NumSectors)) as E.
  rewrite (owned_bound o (fm_range _ _ Hf) (fm_nodup _ _ Hf)), length_seqZ in E.
  change (Z.of_nat (Z.to_nat NumSectors)) with NumSectors in E. lia.
Qed.

Lemma free_map_le b o : free_map b o -> Z.of_nat (length o) <= NumSectors.
Proof. intros Hf. pose proof (free_map_count _ _ Hf). unfold count_clear in *. lia. Qed.

Lemma free_map_NumClear b o :
  free_map b o -> NumClear b = Ok (NumSectors - Z.of_nat (length o)).
Proof.
  intros Hf. rewrite NumClear_spec by apply Hf. by rewrite (free_map_count _ _ Hf).
Qed.

Lemma free_map_Test b o s :
  free_map b o -> 0 <= s < NumSectors -> Test b s = Ok (bool_decide (s ∈ o)).
Proof.
  intros Hf Hs. rewrite Test_spec by (apply Hf || by rewrite (fm_size _ _ Hf)).
  by rewrite (fm_bit _ _ Hf).
Qed.

(** What changing one bit does to the set. *)
Lemma free_map_change b b' o o' s v :
  free_map b o -> 0 <= s < NumSectors -> bitmap_wf b' -> numBits b' = numBits b ->
  bits b' = <[Z.to_nat s := v]> (bits b) ->
  Forall (fun s => 0 <= s < NumSectors) o' -> NoDup o' ->
  (forall i, i ∈ o' <-> if decide (i = s) then v = true else i ∈ o) ->
  free_map b' o'.
Proof.
  intros Hf Hs Hwf Hn Hb Hr Hnd Ho. pose proof (fm_size _ _ Hf) as Hsz.
  split; [done | congruence | done | done | ]. intros i Hi.
  assert (bits b' !! Z.to_nat i = Some (bit_at b' i)) as Hl by (apply bits_lookup; lia).
  rewrite Hb in Hl. specialize (Ho i). destruct (decide (i = s)) as [-> | Hne].
  - rewrite list_lookup_insert_eq in Hl by (rewrite length_bits; lia). injection Hl as <-.
    destruct v; symmetry; [apply bool_decide_eq_true_2 | apply bool_decide_eq_false_2]; naive_solver.
  - rewrite list_lookup_insert_ne, bits_lookup in Hl by lia. injection Hl as <-.
    rewrite (fm_bit _ _ Hf) by done. by apply bool_decide_ext.
Qed.

Lemma free_map_Clear b s o :
  free_map b (s :: o) -> exists b', Clear b s = Ok b' /\ free_map b' o.
Proof.
  intros Hf. pose proof (fm_range _ _ Hf) as [Hs Hr]%Forall_cons.
  pose proof (fm_nodup _ _ Hf) as [Hn Hnd]%NoDup_cons.
  destruct (Clear_spec b s) as (b' & E & Hwf & Hnb & Hb); [apply Hf | by rewrite (fm_size _ _ Hf) | ].
  exists b'. split; [done | ]. eapply free_map_change; [done.. | ].
  intros i. case_decide; [subst; set_solver | set_solver].
Qed.

Lemma free_map_Mark b s o :
  free_map b o -> 0 <= s < NumSectors -> s ∉ o -> exists b', Mark b s = Ok b' /\ free_map b' (s :: o).
Proof.
  intros Hf Hs Hn. pose proof (fm_range _ _ Hf) as Hr. pose proof (fm_nodup _ _ Hf) as Hnd.
  destruct (Mark_spec b s) as (b' & E & Hwf & Hnb & Hb); [apply Hf | by rewrite (fm_size _ _ Hf) | ].
  exists b'. split; [done | ].
  eapply free_map_change; [done.. | by constructor | by constructor | ].
  intros i. case_decide; [subst; set_solver | set_solver].
Qed.

Lemma free_map_FindAndSet b o :
  free_map b o -> Z.of_nat (length o) < NumSectors ->
  exists r b', FindAndSet b = Ok (r, b') /\ 0 <= r < NumSectors /\ r ∉ o /\ free_map b' (r :: o).
Proof.
  intros Hf Hlt. destruct (FindAndSet_spec b (fm_wf _ _ Hf)) as (r & b' & E & Hwf & Hn & Hs).
  unfold spec_find_and_set in Hs.
  destruct (list_find (fun x => x = false) (bits b)) as [[i x] | ] eqn:El.
  - injection Hs as -> Hb. apply list_find_Some in El as (Hi & -> & _).
    pose proof (lookup_lt_Some _ _ _ Hi) as Hlt'. rewrite length_bits, (fm_size _ _ Hf) in Hlt'.
    assert (0 <= Z.of_nat i < NumSectors) as Hr by lia.
    assert (Z.of_nat i ∉ o) as Hno.
    { rewrite <- (Nat2Z.id i), bits_lookup, (fm_bit _ _ Hf) in Hi by (rewrite ?(fm_size _ _ Hf); lia).
      injection Hi as Hi. by apply bool_decide_eq_false in Hi. }
    exists (Z.of_nat i), b'. split_and!; try done; [lia | lia | ].
    eapply free_map_change; [done | done | done | done | by rewrite Nat2Z.id | | | ].
    + constructor; [done | apply Hf].
    + constructor; [done | apply Hf].
    + intros j. case_decide; [subst; set_solver | set_solver].
  - pose proof (free_map_count _ _ Hf) as Hc. apply list_find_None in El.
    assert (count_clear (bits b) = 0) as H0; [ | lia].
    clear - El. unfold count_clear. induction El as [ | x l Hx _ IH]; [done | ].
    rewrite filter_cons. by rewrite decide_False.
Qed.

Lemma free_map_full b o :
  free_map b o -> Z.of_nat (length o) = NumSectors -> exists b', FindAndSet b = Ok (-1, b').
Proof.
  intros Hf Hl. destruct (FindAndSet_spec b (fm_wf _ _ Hf)) as (r & b' & E & _ & _ & Hs).
  exists b'. rewrite E. unfold spec_find_and_set in Hs.
  destruct (list_find (fun x => x = false) (bits b)) as [[i x] | ] eqn:El; [ | by injection Hs as ->].
  apply list_find_Some in El as (Hi & -> & _).
  pose proof (free_map_count _ _ Hf) as Hc. apply list_elem_of_lookup_2 in Hi.
  unfold count_clear in Hc. replace (NumSectors - Z.of_nat (length o)) with 0 in Hc by lia.
  assert (filter (fun x => x = false) (bits b) = []) as Hnil by (apply nil_length_inv; lia).
  by destruct (filter_nil_not_elem_of _ _ false Hnil).
Qed.

(** ** Allocate and Deallocate *)

(** The sectors of the file's data. *)
Definition data_secs (h : FileHeader) : list Z := take (Z.to_nat (numSectors h)) (dataSectors h).

(** The header of a file: its sectors are enough for its bytes, lie on the
    disk, fit in the header and are different from each other. *)
Record hdr_ok (h : FileHeader) : Prop := {
  ok_bytes : 0 <= numBytes h;
  ok_sectors : numSectors h = divRoundUp (numBytes h) SectorSize;
  ok_direct : numSectors h <= NumDirect;
  ok_length : length (dataSectors h) = Z.to_nat NumDirect;
  ok_ints : Forall is_i32 (dataSectors h);
  ok_range : Forall (fun s => 0 <= s < NumSectors) (data_secs h);
  ok_nodup : NoDup (data_secs h)
}.

Lemma sectors_of_size n : 0 <= n -> 0 <= divRoundUp n SectorSize /\ n <= divRoundUp n SectorSize * 128.
Proof.
  intros Hn. pose proof (divRoundUp_spec n SectorSize Hn ltac:(done)).
  pose proof (divRoundUp_nonneg n SectorSize Hn ltac:(done)). unfold SectorSize in *. lia.
Qed.

Lemma sector_i32 s : 0 <= s < NumSectors -> is_i32 s.
Proof. change NumSectors with 1024. unfold is_i32. pow2. lia. Qed.

(** Up to the capacity of the header, the loop takes free sectors. *)
Lemma Allocate_loop_spec n ds b o :
  free_map b o -> length ds = Z.to_nat NumDirect -> Forall is_i32 ds ->
  0 <= n <= NumDirect -> n <= NumSectors - Z.of_nat (length o) ->
  exists ds' b', Allocate_loop n ds b = Ok (ds', b') /\
    length ds' = Z.to_nat NumDirect /\ Forall is_i32 ds' /\
    free_map b' (take (Z.to_nat n) ds' ++ o).
Proof.
  intros Hf Hl Hi Hn Hfree. unfold Allocate_loop. change NumDirect with 30 in *.
  destruct (for_up_inv (fun j '(ds', b') => length ds' = Z.to_nat 30 /\ Forall is_i32 ds' /\
      free_map b' (take (Z.to_nat j) ds' ++ o))
    (fun i '(ds, map) => '(r, map) ← FindAndSet map; ds ← zset ds i r; ASSERT (0 <=? r);; mret (ds, map))
    0 n (ds, b)) as ([ds' b'] & E & Hl' & Hi' & Hf'); [lia | | done | eauto 6].
  intros j [ds1 b1] Hj (Hl1 & Hi1 & Hf1).
  destruct (free_map_FindAndSet _ _ Hf1) as (r & b2 & -> & Hr & Hno & Hf2).
  { rewrite length_app, length_take. lia. }
  rsimp. rewrite zset_in_range by lia. rsimp. rewrite (proj2 (Z.leb_le _ _)) by lia. rsimp.
  eexists. split; [done | ]. cbn beta iota. split_and!.
  - by rewrite length_insert.
  - apply Forall_insert; [done | by apply sector_i32].
  - eapply free_map_perm; [done | ]. replace (Z.to_nat (j + 1)) with (Datatypes.S (Z.to_nat j)) by lia.
    rewrite (take_S_r _ _ r) by (apply list_lookup_insert_eq; lia).
    rewrite take_insert_ge by lia. solve_Permutation.
Qed.

Lemma Allocate_spec h b o size :
  free_map b o -> length (dataSectors h) = Z.to_nat NumDirect -> Forall is_i32 (dataSectors h) ->
  0 <= size ->
  let n := divRoundUp size SectorSize in
  if NumSectors - Z.of_nat (length o) <? n then exists h', Allocate h b size = Ok (false, h', b)
  else if n <=? NumDirect then
    exists h' b', Allocate h b size = Ok (true, h', b') /\ hdr_ok h' /\ numBytes h' = size /\
      free_map b' (data_secs h' ++ o)
  else Allocate h b size = Fail Undefined.
Proof.
  intros Hf Hl Hi Hs n. unfold Allocate. rewrite (free_map_NumClear _ _ Hf). rsimp. fold n.
  destruct (sectors_of_size size Hs) as [Hn0 _]. fold n in Hn0.
  destruct (Z.ltb_spec (NumSectors - Z.of_nat (length o)) n) as [ | Hfree]; [by eexists | ].
  destruct (Z.leb_spec n NumDirect) as [Hn | Hn].
  - destruct (Allocate_loop_spec n _ b o Hf Hl Hi ltac:(lia) Hfree) as (ds & b' & -> & Hl' & Hi' & Hf').
    rsimp. eexists _, b'. split; [done | ].
    pose proof (fm_range _ _ Hf') as [Hr _]%Forall_app. pose proof (fm_nodup _ _ Hf') as [Hd _]%NoDup_app.
    split; [ | done]. by split.
  - destruct (Allocate_loop_spec NumDirect _ b o Hf Hl Hi) as (ds & b' & E & Hl' & Hi' & Hf');
      [done | lia | ].
    unfold Allocate_loop, for_up in *. change NumDirect with 30 in *.
    replace (Z.to_nat (n - 0)) with (Z.to_nat (30 - 0) + Datatypes.S (Z.to_nat (n - 31)))%nat by lia.
    rewrite for_n_app, E. rsimp. cbn [for_n].
    destruct (free_map_FindAndSet _ _ Hf') as (r & b2 & -> & _).
    { rewrite length_app, length_take. lia. }
    rsimp. unfold zset. by rewrite Hl'.
Qed.

(** Giving the sectors back. *)
Lemma Deallocate_spec h b o :
  hdr_ok h -> free_map b (data_secs h ++ o) -> exists b', Deallocate h b = Ok b' /\ free_map b' o.
Proof.
  intros Hok Hf. pose proof (ok_direct _ Hok) as Hd. pose proof (ok_length _ Hok) as Hl.
  destruct (sectors_of_size _ (ok_bytes _ Hok)) as [Hn _]. rewrite <- (ok_sectors _ Hok) in Hn.
  change NumDirect with 30 in *. unfold Deallocate.
  destruct (for_up_inv (fun j b' => free_map b' (drop (Z.to_nat j) (data_secs h) ++ o))
    (fun i map => s ← zget (dataSectors h) i; t ← Test map s; ASSERT t;; Clear map s)
    0 (numSectors h) b) as (b' & E & Hf'); [done | | done | ].
  - intros j b1 Hj Hf1. destruct (zget_in_range (dataSectors h) j) as (s & Hs & ->); [lia | ]. rsimp.
    assert (data_secs h !! Z.to_nat j = Some s) as Hs'.
    { unfold data_secs. by rewrite lookup_take_lt by lia. }
    rewrite (drop_S _ _ _ Hs') in Hf1. rewrite <- app_comm_cons in Hf1.
    pose proof (fm_range _ _ Hf1) as [Hr _]%Forall_cons.
    rewrite (free_map_Test _ _ _ Hf1 Hr), bool_decide_eq_true_2 by set_solver. rsimp.
    destruct (free_map_Clear _ _ _ Hf1) as (b2 & -> & Hf2). eexists. split; [done | ].
    by replace (Z.to_nat (j + 1)) with (Datatypes.S (Z.to_nat j)) by lia.
  - exists b'. split; [done | ]. unfold data_secs in Hf'. rewrite drop_ge in Hf'; [done | ].
    rewrite length_take. lia.
Qed.

Lemma hdr_ok_i32 h : hdr_ok h -> is_i32 (numBytes h) /\ is_i32 (numSectors h).
Proof.
  intros Hok. destruct (sectors_of_size _ (ok_bytes _ Hok)) as [Hn Hb].
  rewrite <- (ok_sectors _ Hok) in *. pose proof (ok_direct _ Hok) as Hd. change NumDirect with 30 in Hd.
  pose proof (ok_bytes _ Hok). unfold is_i32. pow2. lia.
Qed.

Lemma hdr_ok_roundtrip h : hdr_ok h -> hdr_of (hdr_bytes h) = h.
Proof. intros Hok. destruct (hdr_ok_i32 h Hok). apply hdr_of_bytes; try done; apply Hok. Qed.
