(* ===== verification/Coff.v ===== *)
(** * The executable converter (coff2noff/coff2noff.c, coff.h, noff.h)

    coff2noff reads a MIPS COFF object file and writes the NOFF executable
    that [AddrSpace::Load] loads.  It is built with RDATA and -m32, so [long]
    is 32 bits wide, for a little-endian host.  The program is a sequence of
    UNIX calls, any of which may make it exit; a run ends with the exit code
    and the host as the run left it.  What it prints is not modelled. *)

From S2P Require Import Prelude Machine Mips MipsSafety FileSysStub Syscall SyscallNum SyscallSafety AddrSpace Disk FileHdr.

(** ** A process that may exit *)

(** A step of a process: it goes on with a value or has exited with a code. *)
Definition procM (U A : Type) : Type := U -> res ((A + Z) * U).

#[global] Instance proc_ret {U} : MRet (procM U) := fun A a u => Ok (inl a, u).
#[global] Instance proc_bind {U} : MBind (procM U) := fun A B f x u =>
  match x u with
  | Ok (inl a, u') => f a u'
  | Ok (inr code, u') => Ok (inr code, u')
  | Fail e => Fail e
  end.

Definition exit {U A} (code : Z) : procM U A := fun u => Ok (inr code, u).
Definition call {U A} (f : U -> A * U) : procM U A := fun u => let '(a, u') := f u in Ok (inl a, u').
Definition pure {U A} (x : res A) : procM U A := fun u => a ← x; Ok (inl a, u).

(** ** The structures of coff.h *)

Record filehdr := mkFilehdr {
  f_magic : Z; f_nscns : Z; f_timdat : Z; f_symptr : Z; f_nsyms : Z; f_opthdr : Z; f_flags : Z
}.

Record aouthdr := mkAouthdr {
  magic : Z; vstamp : Z; tsize : Z; dsize : Z; bsize : Z; entry : Z; text_start : Z;
  data_start : Z; bss_start : Z; gprmask : Z; cprmask : list Z; gp_value : Z
}.

Record scnhdr := mkScnhdr {
  s_name : list Z; s_paddr : Z; s_vaddr : Z; s_size : Z; s_scnptr : Z; s_relptr : Z;
  s_lnnoptr : Z; s_nreloc : Z; s_nlnno : Z; s_flags : Z
}.

Definition MIPSELMAGIC : Z := 354.
Definition OMAGIC : Z := 263.

Definition sizeof_filehdr : Z := 20.
Definition sizeof_aouthdr : Z := 56.
Definition sizeof_scnhdr : Z := 40.

Definition to_i16 (z : Z) : Z := (z + 2 ^ 15) mod 2 ^ 16 - 2 ^ 15.
Definition ushort_at (buf : list Z) (off : Z) : res Z := load_le 2 buf off.
Definition short_at (buf : list Z) (off : Z) : res Z := w ← load_le 2 buf off; mret (to_i16 w).

Definition filehdr_at (buf : list Z) : res filehdr :=
  m ← ushort_at buf 0; n ← ushort_at buf 2; t ← int_at buf 4; s ← int_at buf 8;
  y ← int_at buf 12; o ← ushort_at buf 16; f ← ushort_at buf 18;
  mret (mkFilehdr m n t s y o f).

Definition aouthdr_at (buf : list Z) : res aouthdr :=
  m ← short_at buf 0; v ← short_at buf 2; t ← int_at buf 4; d ← int_at buf 8; b ← int_at buf 12;
  e ← int_at buf 16; ts ← int_at buf 20; ds ← int_at buf 24; bs ← int_at buf 28; g ← int_at buf 32;
  c ← mapM (int_at buf) [36; 40; 44; 48]; gp ← int_at buf 52;
  mret (mkAouthdr m v t d b e ts ds bs g c gp).

(** The section header at byte [off]. *)
Definition scnhdr_at (buf : list Z) (off : Z) : res scnhdr :=
  nm ← mapM (fun i => zget buf (off + i)) (seqZ 0 8);
  p ← int_at buf (off + 8); v ← int_at buf (off + 12); s ← int_at buf (off + 16);
  f ← int_at buf (off + 20); r ← int_at buf (off + 24); l ← int_at buf (off + 28);
  nr ← ushort_at buf (off + 32); nl ← ushort_at buf (off + 34); fl ← int_at buf (off + 36);
  mret (mkScnhdr nm p v s f r l nr nl fl).

(** The array of section headers. *)
Definition sections_at (buf : list Z) (n : Z) : res (list scnhdr) :=
  mapM (fun i => scnhdr_at buf (sizeof_scnhdr * i)) (seqZ 0 n).

(** The loop that swaps the fields the program uses. *)
Definition swap_section (s : scnhdr) : scnhdr :=
  mkScnhdr (s_name s) (WordToHost (s_paddr s)) (s_vaddr s) (WordToHost (s_size s))
    (WordToHost (s_scnptr s)) (s_relptr s) (s_lnnoptr s) (s_nreloc s) (s_nlnno s) (s_flags s).

(** The NOFF header as the bytes that are written. *)
Definition segment_ints (s : Segment) : list Z := [virtualAddr s; inFileAddr s; seg_size s].

Definition header_bytes (h : NoffHeader) : list Z :=
  ints_bytes (noffMagic h :: segment_ints (code h) ++ segment_ints (initData h) ++
    segment_ints (readonlyData h) ++ segment_ints (uninitData h)).

(** [!strcmp(s, t)] for a literal [t]: bytes up to the first difference, and
    the NUL that ends [t].  The literals are shorter than [s_name]. *)
Fixpoint streq (s t : list Z) : bool :=
  match t, s with
  | d :: t', c :: s' => (c =? d) && streq s' t'
  | [], c :: _ => c =? 0
  | _, [] => false
  end.

Definition dot_text : list Z := [46; 116; 101; 120; 116].
Definition dot_data : list Z := [46; 100; 97; 116; 97].
Definition dot_rdata : list Z := [46; 114; 100; 97; 116; 97].
Definition dot_bss : list Z := [46; 98; 115; 115].

Definition O_WRONLY : Z := 1.
Definition create_flags : Z := Z.lor (Z.lor O_WRONLY O_CREAT) O_TRUNC.

(** [noffH] with one segment replaced. *)
Definition set_code (h : NoffHeader) s := mkNoff (noffMagic h) s (initData h) (readonlyData h) (uninitData h).
Definition set_initData (h : NoffHeader) s := mkNoff (noffMagic h) (code h) s (readonlyData h) (uninitData h).
Definition set_readonlyData (h : NoffHeader) s := mkNoff (noffMagic h) (code h) (initData h) s (uninitData h).
Definition set_uninitData (h : NoffHeader) s := mkNoff (noffMagic h) (code h) (initData h) (readonlyData h) s.

Definition with_size (s : Segment) (n : Z) : Segment := mkSegment (virtualAddr s) (inFileAddr s) n.

(** ** The program *)

Section Program.
Context {U : Type} (ux : UnixOps U).
(** [argv[2]], NULL when there is no second argument *)
Context (noffFileName : option filename).

(** open(2) and unlink(2) of NULL fail with EFAULT. *)
Definition open_noff : procM U Z :=
  match noffFileName with
  | Some name => call (sys_open ux name create_flags)
  | None => mret (-1)
  end.

Definition fail_exit {A} : procM U A :=
  match noffFileName with
  | Some name => call (sys_unlink ux name);; exit 1
  | None => exit 1
  end.

Definition Read (fd nBytes : Z) : procM U (list Z) :=
  '(r, buf) ← call (sys_read ux fd nBytes);
  if negb (r =? nBytes) then fail_exit else mret buf.

Definition Write (fd : Z) (buf : list Z) (nBytes : Z) : procM U unit :=
  r ← call (sys_write ux fd buf nBytes);
  if negb (r =? nBytes) then fail_exit else mret tt.

(** What the .text, .data and .rdata cases have in common: the segment of the
    NOFF header, with the bytes of the section copied to the end of the
    output, and the new end. *)
Definition copy_section (fdIn fdOut : Z) (s : scnhdr) (inNoffFile : Z) : procM U (Segment * Z) :=
  call (sys_lseek ux fdIn (s_scnptr s) 0);;
  buffer ← Read fdIn (s_size s);
  Write fdOut buffer (s_size s);;
  n ← pure (int_op (inNoffFile + s_size s));
  mret (mkSegment (s_paddr s) inNoffFile (s_size s), n).

(** The .bss case *)
Definition bss_section (s : scnhdr) (noffH : NoffHeader) : procM U NoffHeader :=
  let u := uninitData noffH in
  if negb (seg_size u =? 0) then
    e ← pure (int_op (virtualAddr u + seg_size u));
    if s_paddr s =? e then fail_exit
    else n ← pure (int_op (seg_size u + s_size s)); mret (set_uninitData noffH (with_size u n))
  else mret (set_uninitData noffH (mkSegment (s_paddr s) (inFileAddr u) (s_size s))).

(** The body of the loop over the sections *)
Definition put_section (fdIn fdOut : Z) (s : scnhdr) (st : NoffHeader * Z) : procM U (NoffHeader * Z) :=
  let '(noffH, inNoffFile) := st in
  if s_size s =? 0 then mret (noffH, inNoffFile)
  else if streq (s_name s) dot_text then
    '(seg, n) ← copy_section fdIn fdOut s inNoffFile; mret (set_code noffH seg, n)
  else if streq (s_name s) dot_data then
    '(seg, n) ← copy_section fdIn fdOut s inNoffFile; mret (set_initData noffH seg, n)
  else if streq (s_name s) dot_rdata then
    '(seg, n) ← copy_section fdIn fdOut s inNoffFile; mret (set_readonlyData noffH seg, n)
  else if streq (s_name s) dot_bss then
    noffH ← bss_section s noffH; mret (noffH, inNoffFile)
  else fail_exit.

Fixpoint put_sections (fdIn fdOut : Z) (ss : list scnhdr) (st : NoffHeader * Z) : procM U (NoffHeader * Z) :=
  match ss with
  | [] => mret st
  | s :: ss' => st ← put_section fdIn fdOut s st; put_sections fdIn fdOut ss' st
  end.

(** The header before the sections are seen: the sizes are set, the rest of
    the local variable is not initialised. *)
Definition initial_header (garbage : NoffHeader) : NoffHeader :=
  mkNoff NOFFMAGIC (with_size (code garbage) 0) (with_size (initData garbage) 0)
    (with_size (readonlyData garbage) 0) (with_size (uninitData garbage) 0).

(** [main] from its first [Read] on *)
Definition convert (fdIn fdOut : Z) (garbage : NoffHeader) : procM U unit :=
  buf ← Read fdIn sizeof_filehdr;
  fileh ← pure (filehdr_at buf);
  if negb (ShortToHost (f_magic fileh) =? MIPSELMAGIC) then fail_exit
  else
    buf ← Read fdIn sizeof_aouthdr;
    systemh ← pure (aouthdr_at buf);
    if negb (to_i16 (ShortToHost (magic systemh)) =? OMAGIC) then fail_exit
    else
      let numsections := ShortToHost (f_nscns fileh) in
      buf ← Read fdIn (numsections * sizeof_scnhdr);
      sections ← pure (sections_at buf numsections);
      call (sys_lseek ux fdOut sizeof_NoffHeader 0);;
      '(noffH, _) ← put_sections fdIn fdOut (swap_section <$> sections)
                      (initial_header garbage, sizeof_NoffHeader);
      call (sys_lseek ux fdOut 0 0);;
      Write fdOut (header_bytes (SwapHeader noffH)) sizeof_NoffHeader;;
      call (sys_close ux fdIn);;
      call (sys_close ux fdOut);;
      exit 0.

End Program.

(** [main] *)
Definition main {U} (ux : UnixOps U) (argv : list filename) (garbage : NoffHeader) : procM U unit :=
  match argv !! 1%nat with
  | None => exit 1
  | Some coffFileName =>
      fdIn ← call (sys_open ux coffFileName O_RDONLY);
      if fdIn =? -1 then exit 1
      else
        fdOut ← open_noff ux (argv !! 2%nat);
        if fdIn =? -1 then exit 1
        else convert ux (argv !! 2%nat) fdIn fdOut garbage
  end.

(** ** The host's files, by name

    What the theorems rely on: the host is a tree of names, the contents of
    files by inode, and for each open descriptor its inode, access mode and
    position, and the calls do to it what their manual pages say when no error
    occurs: read(2) delivers what is there to a descriptor open for reading,
    write(2) writes all it is given to one open for writing. *)

Record tree := mkTree {
  t_names : gmap (list Z) Z;
  t_data : gmap Z (list Z);
  t_fds : gmap Z (Z * Z * Z)
}.

Definition set_fd (t : tree) (fd ino mode pos : Z) : tree :=
  mkTree (t_names t) (t_data t) (<[fd := (ino, mode, pos)]> (t_fds t)).

Class UnixTree {U : Type} (ux : UnixOps U) (view : U -> tree) : Prop := {
  tree_open name flags u ino c fd u' :
    flags = O_RDONLY \/ flags = O_RDWR ->
    t_names (view u) !! name = Some ino -> t_data (view u) !! ino = Some c ->
    sys_open ux name flags u = (fd, u') -> fd <> -1 ->
    0 <= fd /\ t_fds (view u) !! fd = None /\ view u' = set_fd (view u) fd ino flags 0;
  tree_create name u fd u' :
    sys_open ux name create_flags u = (fd, u') -> fd <> -1 ->
    exists ino, 0 <= fd /\ t_fds (view u) !! fd = None /\
      (t_names (view u) !! name = Some ino \/ t_data (view u) !! ino = None) /\
      view u' = mkTree (<[name := ino]> (t_names (view u))) (<[ino := []]> (t_data (view u)))
                  (<[fd := (ino, O_WRONLY, 0)]> (t_fds (view u)));
  tree_lseek fd u ino mode p pos : t_fds (view u) !! fd = Some (ino, mode, p) -> 0 <= pos ->
    exists u', sys_lseek ux fd pos 0 u = (pos, u') /\ view u' = set_fd (view u) fd ino mode pos;
  tree_read fd u ino mode p c n :
    t_fds (view u) !! fd = Some (ino, mode, p) -> mode <> O_WRONLY -> t_data (view u) !! ino = Some c -> 0 <= p -> 0 <= n ->
    exists u', let bs := take (Z.to_nat n) (drop (Z.to_nat p) c) in
      sys_read ux fd n u = (Z.of_nat (length bs), bs, u') /\
      view u' = set_fd (view u) fd ino mode (p + Z.of_nat (length bs));
  tree_write fd u ino mode p c b :
    t_fds (view u) !! fd = Some (ino, mode, p) -> mode <> O_RDONLY -> t_data (view u) !! ino = Some c -> 0 <= p ->
    exists u', sys_write ux fd b (Z.of_nat (length b)) u = (Z.of_nat (length b), u') /\
      view u' = mkTree (t_names (view u)) (<[ino := splice c (Z.to_nat p) b]> (t_data (view u)))
                  (<[fd := (ino, mode, p + Z.of_nat (length b))]> (t_fds (view u)));
  tree_close fd u : is_Some (t_fds (view u) !! fd) ->
    exists u', sys_close ux fd u = (0, u') /\
      view u' = mkTree (t_names (view u)) (t_data (view u)) (delete fd (t_fds (view u)))
}.

(** The files of a tree that are open for reading, as [Load] sees them. *)
Definition tree_file {U} (view : U -> tree) (fd : Z) (u : U) : option (list Z * Z) :=
  '(ino, mode, p) ← t_fds (view u) !! fd;
  if mode =? O_WRONLY then None else c ← t_data (view u) !! ino; Some (c, p).

#[global] Instance tree_files {U} (ux : UnixOps U) view `{!UnixTree ux view} :
  UnixFiles ux (tree_file view).
Proof.
  assert (Hfd : forall fd u c p, tree_file view fd u = Some (c, p) -> exists ino mode,
    t_fds (view u) !! fd = Some (ino, mode, p) /\ mode <> O_WRONLY /\ t_data (view u) !! ino = Some c).
  { intros fd u c p. unfold tree_file. destruct (t_fds (view u) !! fd) as [[[ino mode] q] | ]; simpl; [ | done].
    destruct (Z.eqb_spec mode O_WRONLY); [done | ].
    destruct (t_data (view u) !! ino) as [c' | ] eqn:Ed; simpl; intros; simplify_eq. eauto. }
  assert (Hset : forall u u' fd ino mode c q, t_data (view u) !! ino = Some c -> mode <> O_WRONLY ->
    view u' = set_fd (view u) fd ino mode q -> tree_file view fd u' = Some (c, q)).
  { intros u u' fd ino mode c q Hd Hm Hv. unfold tree_file. rewrite Hv. simpl. rewrite lookup_insert_eq. simpl.
    by rewrite (proj2 (Z.eqb_neq mode O_WRONLY)), Hd by done. }
  split.
  - intros fd u c p pos (ino & mode & E & Hm & Ed)%Hfd Hpos.
    destruct (tree_lseek _ _ _ _ _ pos E Hpos) as (u' & Es & Hv). exists u'. split; [done | by eapply Hset].
  - intros fd u c p n (ino & mode & E & Hm & Ed)%Hfd Hp Hn.
    destruct (tree_read _ _ _ _ _ _ n E Hm Ed Hp Hn) as (u' & Es & Hv). eexists u', _. split; [done | by eapply Hset].
  - intros fd u c p (ino & mode & E & _ & _)%Hfd.
    destruct (tree_close fd u) as (u' & Es & _); [by rewrite E | by exists u'].
Qed.

(** *** The in-memory host is such a tree *)

Definition host_view (h : FileSysStub.host) : tree :=
  mkTree (h_names h) (h_data h) (h_fds h).

Lemma fresh_inode_None data : data !! fresh_inode data = None.
Proof.
  assert (H : forall i, is_Some (data !! i) -> i <= map_fold (fun i _ m => Z.max i m) 0 data).
  { apply (map_fold_weak_ind (fun m d => forall i, is_Some (d !! i) -> i <= m)).
    - intros i [x Hx]. by rewrite lookup_empty in Hx.
    - intros i x d m Hn IH j Hj. destruct (decide (j = i)) as [-> | Hne]; [lia | ].
      rewrite lookup_insert_ne in Hj by done. specialize (IH j Hj). lia. }
  apply eq_None_not_Some. intros Hs%H. unfold fresh_inode in Hs. lia.
Qed.

#[global] Instance host_tree : UnixTree host_ops host_view.
Proof.
  assert (Hnew : forall h fd, lowest_fd 64 0 (h_fds h) = Some fd -> 0 <= fd /\ t_fds (host_view h) !! fd = None).
  { intros h fd (? & E)%lowest_fd_spec; [done | lia]. }
  split; simpl.
  - intros name flags h ino c fd h' Hfl Hn Hd E Hne. unfold host_open, host_lookup in E. rewrite Hn in E.
    assert ((Z.land flags O_TRUNC =? 0) = true /\ Z.land flags 3 = flags) as [Hz H3] by (by destruct Hfl as [-> | ->]).
    rewrite Hz, H3 in E. case_match eqn:El; simplify_eq. destruct (Hnew _ _ El) as [? Hf]. by split_and!.
  - intros name h fd h' E Hne. unfold host_open, host_lookup in E.
    change (Z.land create_flags O_TRUNC =? 0) with false in E.
    change (Z.land create_flags O_CREAT =? 0) with false in E. change (Z.land create_flags 3) with O_WRONLY in E.
    destruct (h_names h !! name) as [ino | ] eqn:En; simpl in E.
    + case_match eqn:El; simplify_eq. destruct (Hnew _ _ El) as [? Hz].
      exists ino. split_and!; [done | exact Hz | by left | ]. unfold host_view. simpl.
      by rewrite (insert_id (h_names h)).
    + case_match eqn:El; simplify_eq. destruct (Hnew _ _ El) as [? Hz].
      eexists. split_and!; [done | exact Hz | right; apply fresh_inode_None | done].
  - intros fd h ino mode p pos E Hpos. unfold host_lseek. rewrite E.
    rewrite Z.eqb_refl. cbn zeta. rewrite Z.add_0_l, (proj2 (Z.ltb_ge pos 0)) by lia. by eexists.
  - intros fd h ino mode p c n E Hm Hd Hp Hn. unfold host_read. rewrite E, Hd.
    rewrite (proj2 (Z.eqb_neq mode 1)) by done. simpl. by eexists.
  - intros fd h ino mode p c b E Hm Hd Hp. unfold host_write. rewrite E, Hd.
    rewrite (proj2 (Z.eqb_neq mode O_RDONLY)) by done. simpl.
    eexists. split; [done | ]. unfold host_view, splice. simpl.
    rewrite Nat2Z.id, (take_ge b) by done.
    by replace (Z.to_nat (p + Z.of_nat (length b))) with (Z.to_nat p + length b)%nat by lia.
  - intros fd h Hs. unfold host_close.
    destruct (h_fds h !! fd) as [x | ] eqn:E; [ | by destruct Hs]. by eexists.
Qed.

(** ** What a conversion does *)

Lemma proc_bind_ok {U A B} (x : procM U A) (f : A -> procM U B) u a u' :
  x u = Ok (inl a, u') -> (x ≫= f) u = f a u'.
Proof. intros E. unfold mbind, proc_bind. by rewrite E. Qed.

(** A nonempty section of that name. *)
Definition is_section (name : list Z) (s : scnhdr) : Prop :=
  s_size s <> 0 /\ streq (s_name s) name = true.

#[global] Instance is_section_dec name s : Decision (is_section name s).
Proof. unfold is_section. apply _. Defined.

Definition section_data (c : list Z) (s : scnhdr) : list Z :=
  take (Z.to_nat (s_size s)) (drop (Z.to_nat (s_scnptr s)) c).

Definition section_i32 (s : scnhdr) : Prop := is_i32 (s_paddr s) /\ is_i32 (s_size s).

Definition literals : list (list Z) := [dot_text; dot_data; dot_rdata; dot_bss].

Ltac literal := apply (bool_decide_unpack _); vm_compute; exact I.

(** File [c] is a COFF file with sections [ss]. *)
Record coff_file (c : list Z) (ss : list scnhdr) : Prop := {
  coff_bytes : Forall is_byte c;
  coff_length : sizeof_filehdr + sizeof_aouthdr + sizeof_scnhdr * Z.of_nat (length ss) <= Z.of_nat (length c);
  coff_filehdr : exists fileh, filehdr_at (take 20 c) = Ok fileh /\
    f_magic fileh = MIPSELMAGIC /\ f_nscns fileh = Z.of_nat (length ss);
  coff_aouthdr : exists systemh, aouthdr_at (take 56 (drop 20 c)) = Ok systemh /\ magic systemh = OMAGIC;
  coff_sections : sections_at (take (40 * length ss) (drop 76 c)) (Z.of_nat (length ss)) = Ok ss
}.

(** Its sections are ones the program knows, each at most once, and lie in
    the file. *)
Record convertible (c : list Z) (ss : list scnhdr) : Prop := {
  conv_known s : s ∈ ss -> s_size s <> 0 -> 0 < s_size s /\ exists name, name ∈ literals /\ streq (s_name s) name = true;
  conv_inside s : s ∈ ss -> s_size s <> 0 -> streq (s_name s) dot_bss = false ->
    0 <= s_scnptr s /\ s_scnptr s + s_size s <= Z.of_nat (length c);
  conv_once name : name ∈ literals -> (length (filter (is_section name) ss) <= 1)%nat;
  conv_total : sizeof_NoffHeader + foldr Z.add 0 (s_size <$> ss) < 2 ^ 31
}.

Lemma streq_inj s : forall t1 t2, Forall (fun x => x <> 0) t1 -> Forall (fun x => x <> 0) t2 ->
  streq s t1 = true -> streq s t2 = true -> t1 = t2.
Proof.
  induction s as [ | x s IH]; intros [ | a t1] [ | b t2]; simpl; try done.
  - intros _ [? _]%Forall_cons Hx [? _]%andb_prop. lia.
  - intros [? _]%Forall_cons _ [? _]%andb_prop Hy. lia.
  - intros [_ Ha]%Forall_cons [_ Hb]%Forall_cons [Hx H1]%andb_prop [Hy H2]%andb_prop.
    f_equal; [lia | by apply IH].
Qed.

Lemma streq_literals s t1 t2 :
  t1 ∈ literals -> t2 ∈ literals -> streq s t1 = true -> streq s t2 = true -> t1 = t2.
Proof.
  assert (H : Forall (Forall (fun x => x <> 0)) literals)
    by (unfold literals; apply (bool_decide_unpack _); vm_compute; exact I).
  rewrite Forall_forall in H. intros H1 H2. apply streq_inj; by apply H.
Qed.

(** The segment of the header that describes the sections [secs] of one name:
    the bytes of output [o] where it points are those of the section. *)
Definition seg_ok (c o : list Z) (seg : Segment) (secs : list scnhdr) : Prop :=
  match secs with
  | [] => seg_size seg = 0
  | s :: _ =>
      virtualAddr seg = s_paddr s /\ seg_size seg = s_size s /\
      sizeof_NoffHeader <= inFileAddr seg /\ inFileAddr seg + s_size s <= Z.of_nat (length o) /\
      take (Z.to_nat (s_size s)) (drop (Z.to_nat (inFileAddr seg)) o) = section_data c s
  end.

Definition bss_ok (seg : Segment) (secs : list scnhdr) : Prop :=
  match secs with
  | [] => seg_size seg = 0
  | s :: _ => virtualAddr seg = s_paddr s /\ seg_size seg = s_size s
  end.

Definition header_ints (h : NoffHeader) : list Z :=
  noffMagic h :: segment_ints (code h) ++ segment_ints (initData h) ++
    segment_ints (readonlyData h) ++ segment_ints (uninitData h).

(** Header [h] describes the sections [ss] of file [c], copied to [o]. *)
Record header_for (c o : list Z) (ss : list scnhdr) (h : NoffHeader) : Prop := {
  hf_magic : noffMagic h = NOFFMAGIC;
  hf_code : seg_ok c o (code h) (filter (is_section dot_text) ss);
  hf_data : seg_ok c o (initData h) (filter (is_section dot_data) ss);
  hf_rdata : seg_ok c o (readonlyData h) (filter (is_section dot_rdata) ss);
  hf_bss : bss_ok (uninitData h) (filter (is_section dot_bss) ss);
  hf_i32 : Forall is_i32 (header_ints h)
}.

Lemma seg_ok_extend c o b seg secs : seg_ok c o seg secs -> seg_ok c (o ++ b) seg secs.
Proof.
  destruct secs as [ | s secs]; [done | ]. intros (? & ? & ? & Hl & Hd). split_and!; try done.
  - rewrite length_app. lia.
  - destruct (decide (0 <= s_size s)).
    2:{ rewrite <- Hd. by replace (Z.to_nat (s_size s)) with 0%nat by lia. }
    rewrite drop_app_le by (unfold sizeof_NoffHeader in *; lia).
    rewrite take_app_le; [done | ]. rewrite length_drop. unfold sizeof_NoffHeader in *. lia.
Qed.

Lemma header_for_extend c o b ss h : header_for c o ss h -> header_for c (o ++ b) ss h.
Proof. intros []; split; auto using seg_ok_extend. Qed.

Lemma filter_other name (dn : list scnhdr) s :
  ~ is_section name s -> filter (is_section name) (dn ++ [s]) = filter (is_section name) dn.
Proof. intros H. by rewrite filter_app, filter_cons_False, filter_nil, app_nil_r. Qed.

Lemma filter_this name (dn rest : list scnhdr) s :
  is_section name s -> (length (filter (is_section name) (dn ++ s :: rest)) <= 1)%nat ->
  filter (is_section name) dn = [] /\ filter (is_section name) (dn ++ [s]) = [s].
Proof.
  intros H. rewrite !filter_app, !filter_cons_True, length_app by done. simpl. intros Hl.
  destruct (filter (is_section name) dn); [done | simpl in Hl; lia].
Qed.

(** A section of one name is not of another. *)
Lemma not_section s name name' : name ∈ literals -> name' ∈ literals -> name <> name' ->
  streq (s_name s) name = true -> ~ is_section name' s.
Proof. intros H1 H2 Hne E [_ E']. apply Hne. by eapply streq_literals. Qed.

(** *** Structures and bytes *)

Lemma load_le_app n : forall (a b : list Z) k, 0 <= k ->
  load_le n (a ++ b) (Z.of_nat (length a) + k) = load_le n b k.
Proof.
  induction n as [ | n IH]; intros a b k Hk; [done | ].
  change (load_le (S n)) with (fun mem pa => x ← zget mem pa; r ← load_le n mem (pa + 1); mret (x + 256 * r)).
  cbv beta. rewrite <- Z.add_assoc, IH by lia. f_equal. unfold zget.
  rewrite (proj2 (Z.leb_le 0 (_ + _))), (proj2 (Z.leb_le 0 k)) by lia.
  rewrite lookup_app_r by lia. by replace (Z.to_nat _ - length a)%nat with (Z.to_nat k) by lia.
Qed.

Lemma load_le_ints l : forall i v, l !! i = Some v ->
  load_le 4 (ints_bytes l) (4 * Z.of_nat i) = Ok (to_u32 v).
Proof.
  induction l as [ | w l IH]; intros i v Hi; [done | ].
  unfold ints_bytes. rewrite fmap_cons. cbn [concat]. fold (ints_bytes l). destruct i as [ | i].
  - injection Hi as ->. rewrite <- (bytes_uint_int_bytes v (ints_bytes l)). unfold bytes_uint, int_bytes, load_le.
    cbn [app lookup_total list_lookup_total]. change (2 ^ 8) with 256. change (2 ^ 16) with 65536.
    change (2 ^ 24) with 16777216.
    generalize (to_u8 v), (to_u8 (Z.shiftr v 8)), (to_u8 (Z.shiftr v 16)), (to_u8 (Z.shiftr v 24)). intros b0 b1 b2 b3.
    transitivity (Ok (b0 + 256 * (b1 + 256 * (b2 + 256 * (b3 + 256 * 0))))); [reflexivity | f_equal; lia].
  - replace (4 * Z.of_nat (S i)) with (Z.of_nat (length (int_bytes w)) + 4 * Z.of_nat i) by (simpl; lia).
    rewrite load_le_app by lia. by apply IH.
Qed.

Lemma int_at_ints l i v : l !! i = Some v -> is_i32 v -> int_at (ints_bytes l) (4 * Z.of_nat i) = Ok v.
Proof.
  intros Hi Hv. unfold int_at. rewrite (load_le_ints _ _ _ Hi). rsimp. by rewrite to_i32_u32, to_i32_id.
Qed.

Lemma header_at_bytes h : Forall is_i32 (header_ints h) -> header_at (header_bytes h) = Ok h.
Proof.
  intros Hi. assert (H : forall i v, header_ints h !! i = Some v -> int_at (header_bytes h) (4 * Z.of_nat i) = Ok v).
  { intros i v Hl. apply int_at_ints; [done | by eapply Forall_lookup_1]. }
  assert (Hs : forall i seg, header_ints h !! i = Some (virtualAddr seg) ->
    header_ints h !! (i + 1)%nat = Some (inFileAddr seg) -> header_ints h !! (i + 2)%nat = Some (seg_size seg) ->
    segment_at (header_bytes h) (4 * Z.of_nat i) = Ok seg).
  { intros i seg H0 H1 H2. unfold segment_at. apply H in H0, H1, H2.
    replace (4 * Z.of_nat (i + 1)) with (4 * Z.of_nat i + 4) in H1 by lia.
    replace (4 * Z.of_nat (i + 2)) with (4 * Z.of_nat i + 8) in H2 by lia.
    rewrite H0. rsimp. rewrite H1. rsimp. rewrite H2. rsimp. by destruct seg. }
  unfold header_at.
  assert (int_at (header_bytes h) 0 = Ok (noffMagic h)) as -> by (by apply (H 0%nat)). rsimp.
  assert (segment_at (header_bytes h) 4 = Ok (code h)) as -> by (by apply (Hs 1%nat)). rsimp.
  assert (segment_at (header_bytes h) 16 = Ok (initData h)) as -> by (by apply (Hs 4%nat)). rsimp.
  assert (segment_at (header_bytes h) 28 = Ok (readonlyData h)) as -> by (by apply (Hs 7%nat)). rsimp.
  assert (segment_at (header_bytes h) 40 = Ok (uninitData h)) as -> by (by apply (Hs 10%nat)). rsimp.
  by destruct h.
Qed.

Lemma length_header_bytes h : length (header_bytes h) = 52%nat.
Proof. unfold header_bytes. by rewrite length_ints_bytes. Qed.

Lemma scnhdr_at_i32 buf off s : scnhdr_at buf off = Ok s -> section_i32 s.
Proof.
  unfold scnhdr_at, int_at, ushort_at. intros E. unfold mbind, res_bind, mret, res_ret in E.
  repeat (case_match; try done). simplify_eq. split; apply to_i32_range.
Qed.

Lemma mapM_res_Forall {A B} (f : A -> res B) (P : B -> Prop) l : forall l',
  (forall a b, f a = Ok b -> P b) -> mapM f l = Ok l' -> Forall P l'.
Proof.
  induction l as [ | a l IH]; intros l' Hf E; [by injection E as <- | ].
  cbn [mapM] in E. unfold mbind, res_bind, mret, res_ret in E.
  destruct (f a) eqn:Ea; [ | done]. destruct (mapM f l) eqn:El; [ | done]. injection E as <-.
  constructor; eauto.
Qed.

Lemma sections_at_i32 buf n ss : sections_at buf n = Ok ss -> Forall section_i32 ss.
Proof. apply mapM_res_Forall. intros. by eapply scnhdr_at_i32. Qed.

Lemma swap_section_id s : swap_section s = s.
Proof. by destruct s. Qed.

Lemma swap_header_id h : SwapHeader h = h.
Proof. by destruct h as [? [] [] [] []]. Qed.

(** The header written over the start of the output leaves the segments. *)
Lemma header_for_written c o ss h :
  header_for c o ss h -> header_for c (header_bytes h ++ drop 52 o) ss h.
Proof.
  assert (Hs : forall seg secs, seg_ok c o seg secs -> seg_ok c (header_bytes h ++ drop 52 o) seg secs).
  { intros seg [ | s secs]; [done | ]. unfold seg_ok, sizeof_NoffHeader. intros (? & ? & Ha & Hl & Hd).
    split_and!; try done.
    - rewrite length_app, length_drop, length_header_bytes. lia.
    - rewrite <- Hd, drop_app_ge, length_header_bytes, drop_drop by (rewrite length_header_bytes; lia).
      do 2 f_equal. lia. }
  intros []. split; auto.
Qed.

Section Convert.
Context {U : Type} (ux : UnixOps U) (view : U -> tree) `{!UnixTree ux view}.
Context (noffFileName : option filename).

Lemma Read_ok u fd ino mode p c n :
  t_fds (view u) !! fd = Some (ino, mode, p) -> mode <> O_WRONLY -> t_data (view u) !! ino = Some c ->
  0 <= p -> 0 <= n -> p + n <= Z.of_nat (length c) ->
  exists u', Read ux noffFileName fd n u = Ok (inl (take (Z.to_nat n) (drop (Z.to_nat p) c)), u') /\
    view u' = set_fd (view u) fd ino mode (p + n).
Proof.
  intros Hf Hm Hd Hp Hn Hl. destruct (tree_read _ _ _ _ _ _ n Hf Hm Hd Hp Hn) as (u' & E & Hv).
  cbn zeta in *. rewrite length_take_le, Z2Nat.id in E, Hv by (rewrite ?length_drop; lia).
  exists u'. split; [ | done]. unfold Read, call. unfold mbind, proc_bind. rewrite E. cbn beta iota.
  by rewrite Z.eqb_refl.
Qed.

Lemma Write_ok u fd ino mode p c b n :
  t_fds (view u) !! fd = Some (ino, mode, p) -> mode <> O_RDONLY -> t_data (view u) !! ino = Some c -> 0 <= p ->
  n = Z.of_nat (length b) ->
  exists u', Write ux noffFileName fd b n u = Ok (inl tt, u') /\
    view u' = mkTree (t_names (view u)) (<[ino := splice c (Z.to_nat p) b]> (t_data (view u)))
                (<[fd := (ino, mode, p + n)]> (t_fds (view u))).
Proof.
  intros Hf Hm Hd Hp ->. destruct (tree_write _ _ _ _ _ _ b Hf Hm Hd Hp) as (u' & E & Hv).
  exists u'. split; [ | done]. unfold Write, call. unfold mbind, proc_bind. rewrite E. cbn beta iota.
  by rewrite Z.eqb_refl.
Qed.

Lemma lseek_ok u fd ino mode p pos :
  t_fds (view u) !! fd = Some (ino, mode, p) -> 0 <= pos ->
  exists u', call (sys_lseek ux fd pos 0) u = Ok (inl pos, u') /\ view u' = set_fd (view u) fd ino mode pos.
Proof.
  intros Hf Hp. destruct (tree_lseek _ _ _ _ _ _ Hf Hp) as (u' & E & Hv). exists u'. split; [ | done].
  unfold call. by rewrite E.
Qed.

Lemma close_ok u fd : is_Some (t_fds (view u) !! fd) ->
  exists u', call (sys_close ux fd) u = Ok (inl 0, u') /\
    view u' = mkTree (t_names (view u)) (t_data (view u)) (delete fd (t_fds (view u))).
Proof.
  intros Hf. destruct (tree_close _ _ Hf) as (u' & E & Hv). exists u'. split; [ | done].
  unfold call. by rewrite E.
Qed.

(** The host in the middle of a conversion: output [o] with its position at
    [n], the input at position [p]. *)
Context (t0 : tree) (fdIn inI fdOut outI : Z) (c : list Z).

Definition conv_tree (o : list Z) (n p : Z) : tree :=
  mkTree (t_names t0) (<[outI := o]> (t_data t0)) 
    (<[fdOut := (outI, O_WRONLY, n)]> (<[fdIn := (inI, O_RDONLY, p)]> (t_fds t0))).

Hypothesis Hfds : fdIn <> fdOut.
Hypothesis Hinos : inI <> outI.
Hypothesis Hin : t_data t0 !! inI = Some c.

Lemma conv_tree_in o n p : t_fds (conv_tree o n p) !! fdIn = Some (inI, O_RDONLY, p).
Proof. simpl. by rewrite lookup_insert_ne, lookup_insert_eq. Qed.

Lemma conv_tree_out o n p : t_fds (conv_tree o n p) !! fdOut = Some (outI, O_WRONLY, n).
Proof. simpl. by rewrite lookup_insert_eq. Qed.

Lemma conv_tree_data o n p : t_data (conv_tree o n p) !! inI = Some c.
Proof. simpl. by rewrite lookup_insert_ne. Qed.

Lemma conv_tree_odata o n p : t_data (conv_tree o n p) !! outI = Some o.
Proof. simpl. by rewrite lookup_insert_eq. Qed.

Lemma conv_tree_set_in o n p p' : set_fd (conv_tree o n p) fdIn inI O_RDONLY p' = conv_tree o n p'.
Proof.
  unfold set_fd, conv_tree. simpl. f_equal. by rewrite insert_insert_ne, insert_insert_eq.
Qed.

Lemma conv_tree_set_out o n n' p : set_fd (conv_tree o n p) fdOut outI O_WRONLY n' = conv_tree o n' p.
Proof. unfold set_fd, conv_tree. simpl. by rewrite insert_insert_eq. Qed.

Lemma Read_in u o n p k :
  view u = conv_tree o n p -> 0 <= p -> 0 <= k -> p + k <= Z.of_nat (length c) ->
  exists u', Read ux noffFileName fdIn k u = Ok (inl (take (Z.to_nat k) (drop (Z.to_nat p) c)), u') /\
    view u' = conv_tree o n (p + k).
Proof.
  intros Hv Hp Hk Hl. destruct (Read_ok u fdIn inI O_RDONLY p c k) as (u' & E & Hv');
    [rewrite Hv; apply conv_tree_in | done | rewrite Hv; apply conv_tree_data | done.. | ].
  exists u'. split; [done | ]. by rewrite Hv', Hv, conv_tree_set_in.
Qed.

Lemma Write_out u o n p b k :
  view u = conv_tree o n p -> 0 <= n -> k = Z.of_nat (length b) ->
  exists u', Write ux noffFileName fdOut b k u = Ok (inl tt, u') /\
    view u' = conv_tree (splice o (Z.to_nat n) b) (n + k) p.
Proof.
  intros Hv Hn Hk. destruct (Write_ok u fdOut outI O_WRONLY n o b k) as (u' & E & Hv');
    [rewrite Hv; apply conv_tree_out | done | rewrite Hv; apply conv_tree_odata | done.. | ].
  exists u'. split; [done | ]. rewrite Hv', Hv. unfold conv_tree. simpl. by rewrite !insert_insert_eq.
Qed.

(** Zeros up to the position of the output. *)
Definition pad (o : list Z) (n : Z) : list Z := o ++ replicate (Z.to_nat n - length o) 0.

Lemma splice_end o n b : Z.of_nat (length o) <= n -> splice o (Z.to_nat n) b = pad o n ++ b.
Proof.
  intros Hl. unfold splice, pad. rewrite take_ge by (rewrite length_app, length_replicate; lia).
  by rewrite (drop_ge o), app_nil_r by lia.
Qed.

Lemma length_pad o n : Z.of_nat (length o) <= n -> Z.of_nat (length (pad o n)) = n.
Proof. intros Hl. unfold pad. rewrite length_app, length_replicate. lia. Qed.

Lemma copy_section_ok u o n p s :
  view u = conv_tree o n p -> Z.of_nat (length o) <= n -> sizeof_NoffHeader <= n ->
  0 < s_size s -> 0 <= s_scnptr s -> s_scnptr s + s_size s <= Z.of_nat (length c) -> n + s_size s < 2 ^ 31 ->
  exists u' p', copy_section ux noffFileName fdIn fdOut s n u =
      Ok (inl (mkSegment (s_paddr s) n (s_size s), n + s_size s), u') /\
    view u' = conv_tree (pad o n ++ section_data c s) (n + s_size s) p' /\
    seg_ok c (pad o n ++ section_data c s) (mkSegment (s_paddr s) n (s_size s)) [s].
Proof.
  intros Hv Hl Hn Hs Hp Hc Hb. unfold copy_section. unfold sizeof_NoffHeader in *.
  destruct (lseek_ok u fdIn inI O_RDONLY p (s_scnptr s)) as (u1 & E1 & Hv1);
    [rewrite Hv; apply conv_tree_in | done | ]. rewrite (proc_bind_ok _ _ _ _ _ E1).
  rewrite Hv, conv_tree_set_in in Hv1.
  destruct (Read_in u1 o n (s_scnptr s) (s_size s) Hv1) as (u2 & E2 & Hv2); [lia.. | ].
  rewrite (proc_bind_ok _ _ _ _ _ E2). fold (section_data c s).
  assert (Hd : s_size s = Z.of_nat (length (section_data c s))).
  { unfold section_data. rewrite length_take, length_drop. lia. }
  destruct (Write_out u2 o n (s_scnptr s + s_size s) (section_data c s) (s_size s) Hv2) as (u3 & E3 & Hv3); [lia | done | ].
  rewrite (proc_bind_ok _ _ _ _ _ E3). rewrite splice_end in Hv3 by done.
  rewrite (proc_bind_ok _ _ _ (n + s_size s) u3).
  2:{ unfold pure. rewrite int_op_ok; [done | unfold is_i32; pow2; lia]. }
  eexists u3, _. split_and!; [done | exact Hv3 | ].
  unfold seg_ok. split_and!; [done | done | simpl; unfold sizeof_NoffHeader; lia | | ].
  - cbn [inFileAddr]. rewrite length_app. pose proof (length_pad o n Hl). lia.
  - cbn [inFileAddr]. pose proof (length_pad o n Hl). rewrite drop_app_length' by lia.
    apply take_ge. lia.
Qed.

Lemma header_ints_i32 h : Forall is_i32 (header_ints h) <->
  is_i32 (noffMagic h) /\ Forall is_i32 (segment_ints (code h)) /\ Forall is_i32 (segment_ints (initData h)) /\
  Forall is_i32 (segment_ints (readonlyData h)) /\ Forall is_i32 (segment_ints (uninitData h)).
Proof. unfold header_ints. by rewrite Forall_cons, !Forall_app. Qed.

Lemma header_for_skip o dn s h :
  (forall name, name ∈ literals -> ~ is_section name s) ->
  header_for c o dn h -> header_for c o (dn ++ [s]) h.
Proof. intros Hn []. split; try done; rewrite filter_other; auto; apply Hn; unfold literals; set_solver. Qed.

(** What one turn of the loop keeps. *)
Record conv_inv (u : U) (o : list Z) (n p : Z) (h : NoffHeader) (dn : list scnhdr) : Prop := {
  ci_view : view u = conv_tree o n p;
  ci_length : Z.of_nat (length o) <= n;
  ci_start : sizeof_NoffHeader <= n;
  ci_bytes : Forall is_byte o;
  ci_header : header_for c o dn h
}.

Lemma copied_inv u o n p s h dn h' u' p' :
  conv_inv u o n p h dn -> Forall is_byte c -> 0 < s_size s ->
  0 <= s_scnptr s -> s_scnptr s + s_size s <= Z.of_nat (length c) ->
  view u' = conv_tree (pad o n ++ section_data c s) (n + s_size s) p' ->
  header_for c (pad o n ++ section_data c s) (dn ++ [s]) h' ->
  conv_inv u' (pad o n ++ section_data c s) (n + s_size s) p' h' (dn ++ [s]).
Proof.
  intros [? Hl Hs Hb _] Hc H1 H2 H3 Hv Hh. split; try done.
  - rewrite length_app. pose proof (length_pad o n Hl). unfold section_data.
    rewrite length_take. lia.
  - lia.
  - unfold pad, section_data. repeat apply Forall_app_2; [done | | by apply Forall_take, Forall_drop].
    apply Forall_replicate. unfold is_byte. lia.
Qed.

Lemma put_section_ok u o n p h dn s rest :
  conv_inv u o n p h dn -> Forall is_byte c -> convertible c (dn ++ s :: rest) ->
  section_i32 s -> n + s_size s < 2 ^ 31 ->
  exists u' h' o' n' p', put_section ux noffFileName fdIn fdOut s (h, n) u = Ok (inl (h', n'), u') /\
    conv_inv u' o' n' p' h' (dn ++ [s]) /\ n' <= n + s_size s.
Proof.
  intros Hi Hc Hcv [Hpa Hsz] Hn. unfold put_section. destruct (Z.eqb_spec (s_size s) 0) as [H0 | H0].
  { eexists u, h, o, n, p. split_and!; [done | | lia]. destruct Hi. split; try done.
    apply header_for_skip; [ | done]. intros name _ [? _]. lia. }
  destruct (conv_known _ _ Hcv s) as [Hpos (name & Hname & Eq)]; [set_solver | done | ].
  assert (Hother : forall name', name' ∈ literals -> name <> name' -> ~ is_section name' s)
    by (intros name' Hl Hne; exact (not_section s name name' Hname Hl Hne Eq)).
  assert (Hneq : forall name', name' ∈ literals -> name <> name' -> streq (s_name s) name' = false).
  { intros name' Hl Hne. destruct (streq (s_name s) name') eqn:E; [ | done]. by destruct (Hother name' Hl Hne). }
  destruct (filter_this name dn rest s) as [Hnil Hone]; [done | by apply (conv_once _ _ Hcv) | ].
  pose proof Hi as [Hv Hl Hst Hb [Hm Hh1 Hh2 Hh3 Hh4 Hh5%header_ints_i32]].
  destruct (decide (name = dot_bss)) as [-> | Hbss].
  { rewrite (Hneq dot_text), (Hneq dot_data), (Hneq dot_rdata), Eq by literal.
    unfold bss_section. rewrite Hnil in Hh4. simpl in Hh4. rewrite Hh4. cbn [Z.eqb negb].
    eexists u, _, o, n, p. split_and!; [done | | lia]. split; try done.
    split; try done; try (rewrite filter_other; [done | apply Hother; literal]).
    - rewrite Hone. done.
    - apply header_ints_i32. split_and!; try apply Hh5. simpl.
      destruct Hh5 as (_ & _ & _ & _ & Hu). unfold segment_ints in *. rewrite !Forall_cons in *. naive_solver. }
  destruct (conv_inside _ _ Hcv s) as [Hp0 Hp1]; [set_solver | done | apply Hneq; [literal | done] | ].
  destruct (copy_section_ok u o n p s Hv Hl Hst Hpos Hp0 Hp1 Hn) as (u' & p' & E & Hv' & Hseg).
  assert (Hi' : Forall is_i32 (segment_ints (mkSegment (s_paddr s) n (s_size s)))).
  { unfold segment_ints. simpl. repeat constructor; try done; unfold is_i32, sizeof_NoffHeader in *; lia. }
  assert (Hext : forall seg secs, seg_ok c o seg secs -> seg_ok c (pad o n ++ section_data c s) seg secs)
    by (intros; unfold pad; by apply seg_ok_extend, seg_ok_extend).
  assert (name = dot_text \/ name = dot_data \/ name = dot_rdata) as Hcases
    by (unfold literals in Hname; rewrite !elem_of_cons in Hname; destruct Hname as [-> | [-> | [-> | [-> | ?%not_elem_of_nil]]]]; auto; done).
  assert (Hskip : forall name' seg, name' ∈ literals -> name <> name' ->
    seg_ok c o seg (filter (is_section name') dn) ->
    seg_ok c (pad o n ++ section_data c s) seg (filter (is_section name') (dn ++ [s]))).
  { intros name' seg Hl' Hne Hok. rewrite filter_other by auto. auto. }
  assert (Hbs : bss_ok (uninitData h) (filter (is_section dot_bss) (dn ++ [s])))
    by (rewrite filter_other; [done | apply Hother; [literal | done]]).
  destruct Hcases as [-> | [-> | ->]].
  - rewrite Eq, (proc_bind_ok _ _ _ _ _ E). eexists u', _, _, _, p'. split_and!; [done | | lia].
    eapply copied_inv; [done.. | ]. split; [done | by rewrite Hone | apply Hskip; [literal.. | done] | apply Hskip; [literal.. | done] | done | ].
    apply header_ints_i32. naive_solver.
  - rewrite (Hneq dot_text), Eq, (proc_bind_ok _ _ _ _ _ E) by literal. eexists u', _, _, _, p'.
    split_and!; [done | | lia]. eapply copied_inv; [done.. | ].
    split; [done | apply Hskip; [literal.. | done] | by rewrite Hone | apply Hskip; [literal.. | done] | done | ].
    apply header_ints_i32. naive_solver.
  - rewrite (Hneq dot_text), (Hneq dot_data), Eq, (proc_bind_ok _ _ _ _ _ E) by literal. eexists u', _, _, _, p'.
    split_and!; [done | | lia]. eapply copied_inv; [done.. | ].
    split; [done | apply Hskip; [literal.. | done] | apply Hskip; [literal.. | done] | by rewrite Hone | done | ].
    apply header_ints_i32. naive_solver.
Qed.

Lemma put_sections_ok ss : forall u o n p h dn,
  conv_inv u o n p h dn -> Forall is_byte c -> convertible c (dn ++ ss) -> Forall section_i32 ss ->
  n + foldr Z.add 0 (s_size <$> ss) < 2 ^ 31 ->
  exists u' h' o' n' p', put_sections ux noffFileName fdIn fdOut ss (h, n) u = Ok (inl (h', n'), u') /\
    conv_inv u' o' n' p' h' (dn ++ ss).
Proof.
  induction ss as [ | s ss IH]; intros u o n p h dn Hi Hc Hcv H32 Hn.
  { eexists u, h, o, n, p. by rewrite app_nil_r. }
  apply Forall_cons in H32 as [Hs Hss]. rewrite fmap_cons in Hn. simpl in Hn.
  assert (Hnn : 0 <= foldr Z.add 0 (s_size <$> ss)).
  { assert (Hk : Forall (fun s => 0 <= s_size s) ss).
    { apply Forall_forall. intros x Hx. destruct (decide (s_size x = 0)); [lia | ].
      destruct (conv_known _ _ Hcv x) as [? _]; [set_solver | done | lia]. }
    clear -Hk. induction Hk as [ | x l Hx _ IHk]; [done | ]. rewrite fmap_cons. cbn [foldr]. lia. }
  destruct (put_section_ok u o n p h dn s ss Hi Hc Hcv Hs) as (u1 & h1 & o1 & n1 & p1 & E & Hi1 & Hn1); [lia | ].
  replace (dn ++ s :: ss) with ((dn ++ [s]) ++ ss) in * by (by rewrite <- app_assoc).
  destruct (IH _ _ _ _ _ _ Hi1 Hc Hcv Hss) as (u2 & h2 & o2 & n2 & p2 & E2 & Hi2); [lia | ].
  exists u2, h2, o2, n2, p2. split; [ | done]. cbn [put_sections].
  by rewrite (proc_bind_ok _ _ _ _ _ E).
Qed.

Lemma initial_header_for garbage : Forall is_i32 (header_ints garbage) ->
  header_for c [] [] (initial_header garbage).
Proof.
  intros (_ & H1 & H2 & H3 & H4)%header_ints_i32. split; try done.
  assert (is_i32 0) by done. apply header_ints_i32. unfold segment_ints in *. simpl.
  rewrite !Forall_cons in *. split_and!; try done; naive_solver.
Qed.

Lemma convert_ok u ss garbage :
  view u = conv_tree [] 0 0 -> coff_file c ss -> convertible c ss -> Forall is_i32 (header_ints garbage) ->
  exists u' h o, convert ux noffFileName fdIn fdOut garbage u = Ok (inr 0, u') /\
    view u' = mkTree (t_names t0) (<[outI := header_bytes h ++ drop 52 o]> (t_data t0))
                (delete fdOut (delete fdIn (t_fds t0))) /\
    header_for c (header_bytes h ++ drop 52 o) ss h /\ Forall is_byte (header_bytes h ++ drop 52 o).
Proof.
  intros Hv [Hb Hl (fileh & Ef & Emg & Ens) (sysh & Ea & Eom) Ess] Hcv Hg. unfold convert.
  unfold sizeof_filehdr, sizeof_aouthdr, sizeof_scnhdr in *.
  destruct (Read_in u [] 0 0 20 Hv) as (u1 & E1 & Hv1); [lia.. | ].
  change (Z.to_nat 20) with 20%nat in E1. change (drop (Z.to_nat 0) c) with c in E1.
  rewrite (proc_bind_ok _ _ _ _ _ E1), (proc_bind_ok _ _ _ fileh u1) by (unfold pure; by rewrite Ef).
  unfold ShortToHost. rewrite Emg, Z.eqb_refl. cbn [negb].
  destruct (Read_in u1 [] 0 (0 + 20) 56 Hv1) as (u2 & E2 & Hv2); [lia.. | ].
  change (Z.to_nat 56) with 56%nat in E2. change (Z.to_nat (0 + 20)) with 20%nat in E2.
  rewrite (proc_bind_ok _ _ _ _ _ E2), (proc_bind_ok _ _ _ sysh u2) by (unfold pure; by rewrite Ea).
  rewrite Eom. change (negb (to_i16 OMAGIC =? OMAGIC)) with false. cbv beta iota zeta.
  rewrite Ens.
  destruct (Read_in u2 [] 0 (0 + 20 + 56) (Z.of_nat (length ss) * 40) Hv2) as (u3 & E3 & Hv3); [lia.. | ].
  rewrite (proc_bind_ok _ _ _ _ _ E3), (proc_bind_ok _ _ _ ss u3).
  2:{ unfold pure. change (Z.to_nat (0 + 20 + 56)) with 76%nat.
      replace (Z.to_nat (Z.of_nat (length ss) * 40)) with (40 * length ss)%nat by lia. by rewrite Ess. }
  destruct (lseek_ok u3 fdOut outI O_WRONLY 0 sizeof_NoffHeader) as (u4 & E4 & Hv4);
    [rewrite Hv3; apply conv_tree_out | done | ].
  rewrite (proc_bind_ok _ _ _ _ _ E4). rewrite Hv3, conv_tree_set_out in Hv4.
  replace (swap_section <$> ss) with ss
    by (rewrite <- (list_fmap_id ss) at 1; apply list_fmap_ext; intros; by rewrite swap_section_id).
  destruct (put_sections_ok ss u4 [] sizeof_NoffHeader (0 + 20 + 56 + Z.of_nat (length ss) * 40)
    (initial_header garbage) []) as (u5 & h & o & n & p & E5 & Hi5).
  { split; [done.. | by apply initial_header_for]. }
  { done. } { done. } { by eapply sections_at_i32. } { apply Hcv. }
  rewrite (proc_bind_ok _ _ _ _ _ E5). destruct Hi5 as [Hv5 _ _ Hbo Hh].
  destruct (lseek_ok u5 fdOut outI O_WRONLY n 0) as (u6 & E6 & Hv6); [rewrite Hv5; apply conv_tree_out | done | ].
  rewrite (proc_bind_ok _ _ _ _ _ E6). rewrite Hv5, conv_tree_set_out in Hv6.
  rewrite swap_header_id.
  destruct (Write_out u6 o 0 p (header_bytes h) sizeof_NoffHeader Hv6) as (u7 & E7 & Hv7);
    [done | by rewrite length_header_bytes | ].
  rewrite (proc_bind_ok _ _ _ _ _ E7).
  replace (splice o (Z.to_nat 0) (header_bytes h)) with (header_bytes h ++ drop 52 o) in Hv7
    by (unfold splice; by rewrite length_header_bytes).
  destruct (close_ok u7 fdIn) as (u8 & E8 & Hv8); [by rewrite Hv7, conv_tree_in | ].
  rewrite (proc_bind_ok _ _ _ _ _ E8).
  destruct (close_ok u8 fdOut) as (u9 & E9 & Hv9).
  { rewrite Hv8, Hv7. cbn [t_fds]. rewrite lookup_delete_ne by done. by rewrite conv_tree_out. }
  rewrite (proc_bind_ok _ _ _ _ _ E9). exists u9, h, o. split_and!; [done | | by apply header_for_written | ].
  - rewrite Hv9, Hv8, Hv7. unfold conv_tree. cbn [t_names t_data t_fds]. f_equal.
    by rewrite delete_insert_ne, delete_insert_eq, delete_insert_eq by done.
  - apply Forall_app_2; [apply ints_bytes_byte | by apply Forall_drop].
Qed.

End Convert.

(** ** From the COFF file to main memory *)

(** The sections fit memory, with room for the stack, and do not overlap. *)
Record fits_memory (ss : list scnhdr) : Prop := {
  fm_range s : s ∈ ss -> s_size s <> 0 -> streq (s_name s) dot_bss = false ->
    0 <= s_paddr s /\ s_paddr s + s_size s <= MemorySize;
  fm_disjoint s1 s2 : s1 ∈ ss -> s2 ∈ ss -> s_name s1 <> s_name s2 -> s_size s1 <> 0 -> s_size s2 <> 0 ->
    streq (s_name s1) dot_bss = false -> streq (s_name s2) dot_bss = false ->
    s_paddr s1 + s_size s1 <= s_paddr s2 \/ s_paddr s2 + s_size s2 <= s_paddr s1;
  fm_total : foldr Z.add 0 (s_size <$> ss) + UserStackSize <= MemorySize
}.

Definition named_size (name : list Z) (ss : list scnhdr) : Z :=
  foldr Z.add 0 (s_size <$> filter (is_section name) ss).

Lemma named_size_cons name s ss :
  named_size name (s :: ss) = (if decide (is_section name s) then s_size s else 0) + named_size name ss.
Proof. unfold named_size. rewrite filter_cons. by case_decide. Qed.

(** No section counts twice. *)
Lemma named_sizes ss : (forall s, s ∈ ss -> 0 <= s_size s) ->
  named_size dot_text ss + named_size dot_data ss + named_size dot_rdata ss + named_size dot_bss ss <=
  foldr Z.add 0 (s_size <$> ss).
Proof.
  induction ss as [ | s ss IH]; intros Hs; [done | ]. rewrite !named_size_cons, fmap_cons. cbn [foldr].
  assert (0 <= s_size s) by (apply Hs; left).
  specialize (IH ltac:(intros; apply Hs; by right)).
  assert (Hx : forall n1 n2, n1 ∈ literals -> n2 ∈ literals -> n1 <> n2 -> is_section n1 s -> ~ is_section n2 s)
    by (intros n1 n2 H1 H2 Hne [_ E]; exact (not_section s n1 n2 H1 H2 Hne E)).
  repeat case_decide; try lia; exfalso;
    match goal with H1 : is_section ?a s, H2 : is_section ?b s |- _ =>
      apply (Hx a b); [literal | literal | done | exact H1 | exact H2] end.
Qed.

Lemma filter_one (ss : list scnhdr) name :
  (length (filter (is_section name) ss) <= 1)%nat ->
  filter (is_section name) ss = [] \/
  exists s, filter (is_section name) ss = [s] /\ s ∈ ss /\ is_section name s.
Proof.
  destruct (filter (is_section name) ss) as [ | s [ | ]] eqn:E; simpl; intros H; [by left | right | lia].
  exists s. split; [done | ]. assert (s ∈ filter (is_section name) ss) as [? ?]%list_elem_of_filter
    by (rewrite E; by left). done.
Qed.

Section Loads.
Context (c : list Z) (ss : list scnhdr).
Hypothesis Hcv : convertible c ss.
Hypothesis Hfm : fits_memory ss.

(** The segment is empty or comes from the section of that name. *)
Definition seg_from (o name : list Z) (seg : Segment) : Prop :=
  seg_size seg = 0 \/ exists s, s ∈ ss /\ is_section name s /\ seg_ok c o seg [s].

Lemma seg_ok_source o seg name :
  name ∈ literals -> seg_ok c o seg (filter (is_section name) ss) ->
  seg_size seg = named_size name ss /\ seg_from o name seg.
Proof.
  intros Hl Hs. unfold named_size, seg_from.
  destruct (filter_one ss name (conv_once _ _ Hcv name Hl)) as [E | (s & E & Hin & Hsec)]; rewrite E in *.
  - split; [exact Hs | left; exact Hs].
  - split; [ | right; eauto]. destruct Hs as (_ & -> & _). simpl. lia.
Qed.

Lemma bss_source seg : bss_ok seg (filter (is_section dot_bss) ss) -> seg_size seg = named_size dot_bss ss.
Proof.
  intros Hs. unfold named_size.
  destruct (filter_one ss dot_bss (conv_once _ _ Hcv dot_bss ltac:(literal))) as [E | (s & E & _)];
    rewrite E in *; [exact Hs | destruct Hs as [_ ->]; simpl; lia].
Qed.

Lemma size_nonneg s : s ∈ ss -> 0 <= s_size s.
Proof. intros Hs. destruct (decide (s_size s = 0)); [lia | ]. destruct (conv_known _ _ Hcv s Hs); lia. Qed.

Lemma named_size_nonneg name : 0 <= named_size name ss.
Proof.
  pose proof size_nonneg as Hnn. clear Hcv Hfm. induction ss as [ | s l IH]; [done | ]. rewrite named_size_cons.
  assert (0 <= s_size s) by (apply Hnn; left). specialize (IH ltac:(intros; apply Hnn; by right)).
  case_decide; lia.
Qed.

Lemma not_bss name s : name ∈ literals -> name <> dot_bss -> is_section name s ->
  streq (s_name s) dot_bss = false.
Proof.
  intros Hl Hne [? E]. destruct (streq (s_name s) dot_bss) eqn:E'; [ | done].
  destruct Hne. by apply (streq_literals (s_name s)); [ | literal | | ].
Qed.

Lemma seg_from_fits o name seg : name ∈ literals -> name <> dot_bss ->
  seg_size seg = named_size name ss -> seg_from o name seg -> segment_fits o seg.
Proof.
  intros Hl Hne E Hs. split; [rewrite E; apply named_size_nonneg | | ]; intros Hpos;
    (destruct Hs as [? | (s & Hin & Hsec & Hva & Hsz & Ha & Hlen & _)]; [lia | ]).
  - rewrite Hsz. unfold sizeof_NoffHeader in Ha. lia.
  - rewrite Hva, Hsz. apply (fm_range _ Hfm); [done | apply Hsec | by apply (not_bss name)].
Qed.

Lemma seg_from_disjoint o n1 n2 g1 g2 : n1 ∈ literals -> n2 ∈ literals ->
  n1 <> dot_bss -> n2 <> dot_bss -> n1 <> n2 -> seg_from o n1 g1 -> seg_from o n2 g2 -> disjoint g1 g2.
Proof.
  intros L1 L2 B1 B2 Hne [? | (s1 & I1 & K1 & V1 & W1 & _)] [? | (s2 & I2 & K2 & V2 & W2 & _)] a;
    unfold in_segment; [lia.. | ].
  destruct (fm_disjoint _ Hfm s1 s2) as [? | ?];
    [done | done | | apply K1 | apply K2 | by apply (not_bss n1) | by apply (not_bss n2) | lia | lia].
  intros E. destruct K1 as [_ K1], K2 as [_ K2]. rewrite <- E in K2. apply Hne.
  by apply (streq_literals (s_name s1)).
Qed.

(** What the converter writes is an executable [Load] accepts. *)
Lemma converted_noff o h :
  Forall is_byte (header_bytes h ++ drop 52 o) -> header_for c (header_bytes h ++ drop 52 o) ss h ->
  noff_file (header_bytes h ++ drop 52 o) h.
Proof.
  intros Hb [Hm Hh1 Hh2 Hh3 Hh4%bss_source Hh5].
  apply seg_ok_source in Hh1 as [Z1 S1], Hh2 as [Z2 S2], Hh3 as [Z3 S3]; [ | literal..].
  pose proof (named_sizes ss size_nonneg) as Hsum. pose proof (fm_total _ Hfm). split; try done.
  - rewrite length_app, length_header_bytes. split; [unfold sizeof_NoffHeader; lia | ].
    rewrite take_app_length' by (by rewrite length_header_bytes). by apply header_at_bytes.
  - apply (seg_from_fits _ dot_text); first [literal | done].
  - apply (seg_from_fits _ dot_data); first [literal | done].
  - apply (seg_from_fits _ dot_rdata); first [literal | done].
  - rewrite Hh4. apply named_size_nonneg.
  - lia.
  - split_and!; [apply (seg_from_disjoint (header_bytes h ++ drop 52 o) dot_text dot_data)
      | apply (seg_from_disjoint (header_bytes h ++ drop 52 o) dot_text dot_rdata)
      | apply (seg_from_disjoint (header_bytes h ++ drop 52 o) dot_data dot_rdata)]; first [literal | done].
Qed.

(** The segment of the header for a section, and the byte it names. *)
Lemma section_segment o h s : header_for c o ss h -> s ∈ ss -> s_size s <> 0 ->
  streq (s_name s) dot_bss = false ->
  exists seg, seg ∈ [code h; initData h; readonlyData h] /\ seg_ok c o seg [s].
Proof.
  intros [_ H1 H2 H3 _ _] Hin H0 Hb. destruct (conv_known _ _ Hcv s Hin H0) as (_ & name & Hl & Hn).
  assert (Hf : filter (is_section name) ss = [s]).
  { destruct (filter_one ss name (conv_once _ _ Hcv name Hl)) as [E | (s' & E & _)].
    - assert (s ∈ filter (is_section name) ss) as Hs by (by apply list_elem_of_filter). rewrite E in Hs.
      by apply not_elem_of_nil in Hs.
    - assert (s ∈ filter (is_section name) ss) as Hs by (by apply list_elem_of_filter). rewrite E in Hs.
      apply list_elem_of_singleton in Hs as ->. done. }
  unfold literals in Hl. rewrite !elem_of_cons in Hl.
  destruct Hl as [-> | [-> | [-> | [-> | ?%not_elem_of_nil]]]]; [ | | | congruence | done]; rewrite Hf in *.
  - exists (code h). split; [left | exact H1].
  - exists (initData h). split; [right; left | exact H2].
  - exists (readonlyData h). split; [right; right; left | exact H3].
Qed.

Lemma seg_ok_byte o seg s i : seg_ok c o seg [s] -> 0 <= s_scnptr s -> 0 <= i < s_size s ->
  segment_byte o seg (s_paddr s + i) = c !! Z.to_nat (s_scnptr s + i).
Proof.
  intros (Hv & Hs & Ha & Hl & Hd) Hp Hi. unfold segment_byte, sizeof_NoffHeader in *. rewrite Hv.
  replace (inFileAddr seg + (s_paddr s + i - s_paddr s)) with (inFileAddr seg + i) by lia.
  rewrite !Z2Nat.inj_add by lia. rewrite <- !lookup_drop.
  assert (H : forall l : list Z, l !! Z.to_nat i = take (Z.to_nat (s_size s)) l !! Z.to_nat i)
    by (intros l; rewrite lookup_take_lt; [done | lia]).
  rewrite H, Hd. unfold section_data. symmetry. apply H.
Qed.

End Loads.

(** ** Properties *)

Section CoffProperties.
Context {U C : Type} (ux : UnixOps U) (view : U -> tree) `{!UnixTree ux view} `{!Console C}.

(** C27: From the COFF file to main memory.  If the sections of a COFF file are
    ones the converter knows, each at most once and inside the file, then
    coff2noff exits with 0 whatever was in its uninitialised header, leaving
    the input and all other files as they were; and when the sections fit
    memory without overlapping, [AddrSpace::Load] of the file it wrote
    succeeds and puts every byte of the code, data and read-only data
    sections at its address. *)
Theorem coff2noff_loads prog inName outName garbage u0 inI c ss fdIn u1 fdOut u2
    (Hname : t_names (view u0) !! inName = Some inI) (Hdata : t_data (view u0) !! inI = Some c)
    (Hother : t_names (view u0) !! outName <> Some inI)
    (Hcoff : coff_file c ss) (Hcv : convertible c ss) (Hg : Forall is_i32 (header_ints garbage))
    (Hopen : sys_open ux inName O_RDONLY u0 = (fdIn, u1)) (Hin : fdIn <> -1)
    (Hcreate : sys_open ux outName create_flags u1 = (fdOut, u2)) (Hout : fdOut <> -1) :
  exists u3 outI, main ux [prog; inName; outName] garbage u0 = Ok (inr 0, u3) /\
    t_names (view u3) = <[outName := outI]> (t_names (view u0)) /\
    (forall i, i <> outI -> t_data (view u3) !! i = t_data (view u0) !! i) /\ inI <> outI /\
    forall fd u4 space hdr0 m (k : Kernel U C),
      fits_memory ss -> unix_state k = u3 -> sys_open ux outName O_RDWR u3 = (fd, u4) -> fd <> -1 ->
      length hdr0 = Z.to_nat sizeof_NoffHeader -> length (mainMemory m) = Z.to_nat MemorySize ->
      exists pages mem' u', Load ux space outName hdr0 (m, k) =
        Ok ((true, mkAddrSpace (space_pageTable space) pages), (with_memory m mem', with_unix k u')) /\
      forall s i, s ∈ ss -> s_size s <> 0 -> streq (s_name s) dot_bss = false -> 0 <= i < s_size s ->
        mem' !! Z.to_nat (s_paddr s + i) = c !! Z.to_nat (s_scnptr s + i).
Proof.
  destruct (tree_open _ _ _ _ _ _ _ (or_introl eq_refl) Hname Hdata Hopen Hin) as (_ & Hf1 & Hv1).
  destruct (tree_create _ _ _ _ Hcreate Hout) as (outI & _ & Hf2 & Hfresh & Hv2).
  rewrite Hv1 in Hf2, Hfresh, Hv2. cbn [set_fd t_names t_data t_fds] in *.
  assert (fdIn <> fdOut) by (intros ->; by rewrite lookup_insert_eq in Hf2).
  assert (inI <> outI) by (intros ->; destruct Hfresh as [? | Hx]; [done | by rewrite Hdata in Hx]).
  set (t0 := mkTree (<[outName := outI]> (t_names (view u0))) (t_data (view u0)) (t_fds (view u0))).
  destruct (convert_ok ux view (Some outName) t0 fdIn inI fdOut outI c) with (u := u2) (ss := ss) (garbage := garbage)
    as (u3 & h & o & E & Hv3 & Hh & Hb); [done.. | ].
  exists u3, outI. split_and!; [ | by rewrite Hv3 | | done | ].
  - unfold main. cbn [lookup list_lookup]. rewrite (proc_bind_ok _ _ _ fdIn u1) by (unfold call; by rewrite Hopen).
    rewrite (proj2 (Z.eqb_neq fdIn (-1))) by done. cbn [open_noff].
    by rewrite (proc_bind_ok _ _ _ fdOut u2) by (unfold call; by rewrite Hcreate).
  - intros i Hi. rewrite Hv3. cbn [t_data t0]. by apply lookup_insert_ne.
  - intros fd u4 space hdr0 m k Hfm Hk Ho Hfd Hl0 Hlm.
    set (c' := header_bytes h ++ drop 52 o) in *.
    destruct (tree_open outName O_RDWR u3 outI c' fd u4) as (Hfd0 & _ & Hv4); [by right | | | done | done | ].
    { rewrite Hv3. cbn [t_names t0]. by rewrite lookup_insert_eq. }
    { rewrite Hv3. cbn [t_data t0]. by rewrite lookup_insert_eq. }
    destruct (load_file ux (tree_file view) space outName hdr0 m k fd u4 c' h)
      as (pages & mem' & u' & EL & _ & _ & Hm); [by rewrite Hk | done | | by eapply converted_noff | done | done | ].
    { unfold tree_file. rewrite Hv4. cbn [set_fd t_fds t_data]. rewrite lookup_insert_eq. simpl.
      rewrite Hv3. cbn [t_data t0]. by rewrite lookup_insert_eq. }
    exists pages, mem', u'. split; [done | ]. intros s i Hs Hz Hbs Hi.
    destruct (section_segment c ss Hcv c' h s Hh Hs Hz Hbs) as (seg & Hseg & Hok).
    destruct (conv_inside _ _ Hcv s Hs Hz Hbs). destruct (fm_range _ Hfm s Hs Hz Hbs).
    destruct (proj1 (Hm (Z.to_nat (s_paddr s + i))) seg Hseg) as [-> _]; rewrite Z2Nat.id by lia.
    + destruct Hok as (Ha & Hn & _). unfold in_segment. lia.
    + by apply (seg_ok_byte c c').
Qed.

End CoffProperties.

(** ** The test for a second .bss section

    A second section that starts where the first ends is refused; one that
    lies elsewhere is merged into the first, at the wrong address. *)

Lemma contiguous_bss_refused {U} (ux : UnixOps U) s h u :
  seg_size (uninitData h) <> 0 -> is_i32 (s_paddr s) ->
  s_paddr s = virtualAddr (uninitData h) + seg_size (uninitData h) ->
  bss_section ux None s h u = (Ok (inr 1, u) : res ((NoffHeader + Z) * U)).
Proof.
  intros Hs Hi He. unfold bss_section. rewrite (proj2 (Z.eqb_neq _ 0)) by done. cbn [negb].
  rewrite (proc_bind_ok _ _ _ (s_paddr s) u) by (unfold pure; by rewrite <- He, int_op_ok).
  by rewrite Z.eqb_refl.
Qed.

Lemma distant_bss_merged {U} (ux : UnixOps U) name s h u :
  let v := uninitData h in
  seg_size v <> 0 -> is_i32 (virtualAddr v + seg_size v) -> is_i32 (seg_size v + s_size s) ->
  s_paddr s <> virtualAddr v + seg_size v ->
  bss_section ux (Some name) s h u =
    (Ok (inl (set_uninitData h (mkSegment (virtualAddr v) (inFileAddr v) (seg_size v + s_size s))), u)
     : res ((NoffHeader + Z) * U)).
Proof.
  intros v Hs Hi Hj He. unfold bss_section. fold v. rewrite (proj2 (Z.eqb_neq _ 0)) by done. cbn [negb].
  rewrite (proc_bind_ok _ _ _ (virtualAddr v + seg_size v) u) by (unfold pure; by rewrite int_op_ok).
  rewrite (proj2 (Z.eqb_neq (s_paddr s) _)) by done.
  by rewrite (proc_bind_ok _ _ _ (seg_size v + s_size s) u) by (unfold pure; by rewrite int_op_ok).
Qed.

(** ** A small COFF file

    Three sections: twelve bytes of code at 0, four bytes of data at 128,
    eight bytes of uninitialised data at 132. *)

Definition demo_section (name : list Z) (paddr size scnptr : Z) : list Z :=
  name ++ replicate (8 - length name) 0 ++ int_bytes paddr ++ int_bytes paddr ++ int_bytes size ++
  int_bytes scnptr ++ replicate 16 0.

Definition demo_coff : list Z :=
  [98; 1; 3; 0] ++ replicate 16 0 ++ [7; 1] ++ replicate 54 0 ++
  demo_section dot_text 0 12 196 ++ demo_section dot_data 128 4 208 ++ demo_section dot_bss 132 8 0 ++
  prog_code ++ [1; 2; 3; 4].

Definition demo_sections : list scnhdr :=
  [mkScnhdr (dot_text ++ [0; 0; 0]) 0 0 12 196 0 0 0 0 0;
   mkScnhdr (dot_data ++ [0; 0; 0]) 128 128 4 208 0 0 0 0 0;
   mkScnhdr (dot_bss ++ [0; 0; 0; 0]) 132 132 8 0 0 0 0 0 0].

Definition coff_host : FileSysStub.host :=
  mkHost {[ [97] := 1 ]} {[ 1 := demo_coff ]} (h_fds host0).

Definition garbage_header : NoffHeader :=
  mkNoff 9 (mkSegment 8 7 6) (mkSegment 5 4 3) (mkSegment 2 1 9) (mkSegment 8 7 6).

Lemma demo_coff_file : coff_file demo_coff demo_sections.
Proof.
  split.
  - literal.
  - vm_compute. congruence.
  - eexists. split_and!; vm_compute; reflexivity.
  - eexists. split; vm_compute; reflexivity.
  - vm_compute. reflexivity.
Qed.

Lemma demo_convertible : convertible demo_coff demo_sections.
Proof.
  assert (H : forall P : scnhdr -> Prop, Forall P demo_sections -> forall s, s ∈ demo_sections -> P s)
    by (intros P HP; by apply Forall_forall).
  split.
  - apply (H (fun s => s_size s <> 0 -> 0 < s_size s /\ exists name, name ∈ literals /\ streq (s_name s) name = true)).
    repeat constructor; try lia;
      [exists dot_text | exists dot_data | exists dot_bss]; (split; [literal | reflexivity]).
  - apply (H (fun s => s_size s <> 0 -> streq (s_name s) dot_bss = false ->
      0 <= s_scnptr s /\ s_scnptr s + s_size s <= Z.of_nat (length demo_coff))).
    repeat constructor; vm_compute; congruence.
  - intros name Hn. unfold literals in Hn. rewrite !elem_of_cons in Hn.
    destruct Hn as [-> | [-> | [-> | [-> | ?%not_elem_of_nil]]]]; [vm_compute; lia.. | done].
  - vm_compute. reflexivity.
Qed.

Lemma demo_fits : fits_memory demo_sections.
Proof.
  split.
  - intros s Hs. unfold demo_sections in Hs. rewrite !elem_of_cons in Hs.
    destruct Hs as [-> | [-> | [-> | ?%not_elem_of_nil]]]; [vm_compute; intuition congruence.. | done].
  - intros s1 s2 H1 H2. unfold demo_sections in H1, H2. rewrite !elem_of_cons in H1, H2.
    destruct H1 as [-> | [-> | [-> | ?%not_elem_of_nil]]]; [ | | | done];
    (destruct H2 as [-> | [-> | [-> | ?%not_elem_of_nil]]]; [simpl; (intros; (congruence || lia)).. | done]).
  - vm_compute. congruence.
Qed.

Lemma coff2noff_loads_witness :
  exists u3 fd pages mem' u',
    main host_ops [[99]; [97]; [98]] garbage_header coff_host = Ok (inr 0, u3) /\
    sys_open host_ops [98] O_RDWR u3 = (fd, u') /\
    (exists u'', Load host_ops (mkAddrSpace [] 0) [98] (replicate 52 7)
      (new_Machine 5, mkKernel SystemMode new_FileSystem u3 (mkStreams [] [])) =
      Ok ((true, mkAddrSpace [] pages), (with_memory (new_Machine 5) mem',
        with_unix (mkKernel SystemMode new_FileSystem u3 (mkStreams [] [])) u''))) /\
    mem' !! 130%nat = Some 3.
Proof.
  destruct (coff2noff_loads (C := streams) host_ops host_view [99] [97] [98] garbage_header coff_host 1 demo_coff demo_sections
    3 (host_open [97] O_RDONLY coff_host).2 4 (host_open [98] create_flags (host_open [97] O_RDONLY coff_host).2).2)
    as (u3 & outI & E & _ & _ & _ & HL).
  - vm_compute. reflexivity.
  - vm_compute. reflexivity.
  - vm_compute. congruence.
  - apply demo_coff_file.
  - apply demo_convertible.
  - literal.
  - vm_compute. reflexivity.
  - lia.
  - vm_compute. reflexivity.
  - lia.
  - destruct (sys_open host_ops [98] O_RDWR u3) as [fd u4] eqn:Eo.
    assert (Hfd : fd <> -1).
    { assert (Hm : match main host_ops [[99]; [97]; [98]] garbage_header coff_host with
        | Ok (_, u) => negb ((sys_open host_ops [98] O_RDWR u).1 =? -1) | _ => false end = true)
        by (vm_compute; reflexivity).
      rewrite E, Eo in Hm. cbn [fst] in Hm. intros ->. done. }
    destruct (HL fd u4 (mkAddrSpace [] 0) (replicate 52 7) (new_Machine 5)
      (mkKernel SystemMode new_FileSystem u3 (mkStreams [] [])) demo_fits eq_refl eq_refl Hfd eq_refl eq_refl)
      as (pages & mem' & u' & EL & Hm).
    exists u3, fd, pages, mem', u4. split_and!; [exact E | exact Eo | exists u'; exact EL | ].
    refine (eq_trans (Hm (mkScnhdr (dot_data ++ [0; 0; 0]) 128 128 4 208 0 0 0 0 0) 2 _ _ _ _) _).
    + right. left.
    + simpl. lia.
    + reflexivity.
    + simpl. lia.
    + vm_compute. reflexivity.
Defined.
