(* ===== verification/OpenFile.v ===== *)
(** * Open files of the Nachos file system (filesys/openfile.cc, openfile.h
      without FILESYS_STUB)

    An [OpenFile] is a file header in memory and a position.  Reading and
    writing turn a range of bytes into whole disk sectors, which the sector
    store [SectorDisk] reads and writes.

    [file_data ds h] is the contents of the file with header [h] on a disk
    with sectors [ds]. [ReadAt_spec] and [WriteAt_spec] say that [ReadAt]
    delivers a piece of it and [WriteAt] replaces a piece of it and changes no
    sector of any other file. *)

From S2P Require Import Prelude Disk FileHdr.

Record OpenFile := mkOpenFile { hdr : FileHeader; seekPosition : Z }.

Section OpenFiles.
Context {S : Type} `{!SectorDisk S} (uninit : nat -> Z).

(** [OpenFile::OpenFile] *)
Definition new_OpenFile (sector : Z) : stM S OpenFile :=
  h ← Header_FetchFrom sector; mret (mkOpenFile h 0).

Definition Seek (f : OpenFile) (position : Z) : OpenFile := mkOpenFile (hdr f) position.

Definition Length (f : OpenFile) : Z := FileLength (hdr f).

(** The checks at the head of [ReadAt] and [WriteAt]: the number of bytes to
    transfer, 0 where there is nothing to do. *)
Definition check_request (f : OpenFile) (numBytes position : Z) : res Z :=
  let fileLength := FileLength (hdr f) in
  if (numBytes <=? 0) || (fileLength <=? position) then mret 0
  else
    e ← int_op (position + numBytes);
    if fileLength <? e then int_op (fileLength - position) else mret numBytes.

(** [for (i = firstSector; i <= lastSector; i++) ReadSector(...)]: the sectors
    one after the other in [buf]. *)
Fixpoint read_loop (n : nat) (h : FileHeader) (i : Z) : stM S (list Z) :=
  match n with
  | O => mret []
  | Datatypes.S n' =>
      sector ← lift (ByteToSector h (i * SectorSize));
      data ← ReadSector sector;
      rest ← read_loop n' h (i + 1);
      mret (data ++ rest)
  end.

(** The number of bytes read, and the bytes. *)
Definition ReadAt (f : OpenFile) (numBytes position : Z) : stM S (Z * list Z) :=
  numBytes ← lift (check_request f numBytes position);
  if numBytes =? 0 then mret (0, [])
  else
    let firstSector := divRoundDown position SectorSize in
    let lastSector := divRoundDown (position + numBytes - 1) SectorSize in
    let numSectors := 1 + lastSector - firstSector in
    buf ← read_loop (Z.to_nat numSectors) (hdr f) firstSector;
    into ← lift (buf_read buf (position - firstSector * SectorSize) numBytes);
    mret (numBytes, into).

Fixpoint write_loop (n : nat) (h : FileHeader) (firstSector i : Z) (buf : list Z) : stM S unit :=
  match n with
  | O => mret tt
  | Datatypes.S n' =>
      sector ← lift (ByteToSector h (i * SectorSize));
      data ← lift (buf_read buf ((i - firstSector) * SectorSize) SectorSize);
      WriteSector sector data;;
      write_loop n' h firstSector (i + 1) buf
  end.

(** "read in first and last sector, if they are to be partially modified" *)
Definition read_partial (f : OpenFile) (position numBytes firstSector lastSector : Z) (buf : list Z)
    : stM S (list Z) :=
  let firstAligned := position =? firstSector * SectorSize in
  let lastAligned := position + numBytes =? (lastSector + 1) * SectorSize in
  buf ← (if negb firstAligned then
           '(_, bs) ← ReadAt f SectorSize (firstSector * SectorSize);
           lift (buf_write buf 0 bs)
         else mret buf);
  if negb lastAligned && (negb (firstSector =? lastSector) || firstAligned) then
    '(_, bs) ← ReadAt f SectorSize (lastSector * SectorSize);
    lift (buf_write buf ((lastSector - firstSector) * SectorSize) bs)
  else mret buf.

Definition WriteAt (f : OpenFile) (from : list Z) (numBytes position : Z) : stM S Z :=
  numBytes ← lift (check_request f numBytes position);
  if numBytes =? 0 then mret 0
  else
    let firstSector := divRoundDown position SectorSize in
    let lastSector := divRoundDown (position + numBytes - 1) SectorSize in
    let numSectors := 1 + lastSector - firstSector in
    let buf := new_buf uninit (numSectors * SectorSize) in
    buf ← read_partial f position numBytes firstSector lastSector buf;
    data ← lift (buf_read from 0 numBytes);
    buf ← lift (buf_write buf (position - firstSector * SectorSize) data);
    write_loop (Z.to_nat numSectors) (hdr f) firstSector firstSector buf;;
    mret numBytes.

Definition OpenFile_Read (f : OpenFile) (numBytes : Z) : stM S (Z * list Z * OpenFile) :=
  '(result, into) ← ReadAt f numBytes (seekPosition f);
  p ← lift (int_op (seekPosition f + result));
  mret (result, into, mkOpenFile (hdr f) p).

Definition OpenFile_Write (f : OpenFile) (from : list Z) (numBytes : Z) : stM S (Z * OpenFile) :=
  result ← WriteAt f from numBytes (seekPosition f);
  p ← lift (int_op (seekPosition f + result));
  mret (result, mkOpenFile (hdr f) p).

End OpenFiles.

(** ** The contents of a file *)

(** Byte [k] of the sectors a header leads to. *)
Definition file_byte (ds : list (list Z)) (h : FileHeader) (k : nat) : option Z :=
  s ← dataSectors h !! (k / 128)%nat;
  data ← ds !! Z.to_nat s;
  data !! (k mod 128)%nat.

Definition file_data (ds : list (list Z)) (h : FileHeader) : list Z :=
  (fun k => default 0 (file_byte ds h k)) <$> seq 0 (Z.to_nat (numBytes h)).

Lemma length_file_data ds h : length (file_data ds h) = Z.to_nat (numBytes h).
Proof. unfold file_data. by rewrite length_fmap, length_seq. Qed.

Section Specs.
Context {S : Type} `{!SectorDisk S} (uninit : nat -> Z).
Implicit Types (s : S) (ds : list (list Z)) (h : FileHeader).

(** Sector [i] of the file. *)
Lemma data_sector h i :
  hdr_ok h -> 0 <= i < numSectors h ->
  exists n, ByteToSector h (i * SectorSize) = Ok n /\ data_secs h !! Z.to_nat i = Some n /\
    dataSectors h !! Z.to_nat i = Some n /\ 0 <= n < NumSectors.
Proof.
  intros Hok Hi. pose proof (ok_direct _ Hok). pose proof (ok_length _ Hok) as Hl.
  change NumDirect with 30 in *. unfold ByteToSector, SectorSize. rewrite Z.quot_mul by lia.
  destruct (zget_in_range (dataSectors h) i) as (n & Hn & ->); [lia | ].
  assert (data_secs h !! Z.to_nat i = Some n) as Hs.
  { unfold data_secs. by rewrite lookup_take_lt by lia. }
  exists n. split_and!; try done; eapply (Forall_lookup_1 _ _ _ _ (ok_range _ Hok)) in Hs; lia.
Qed.

(** The bytes of sector [i] are bytes of the file. *)
Lemma sector_bytes ds h i n data j :
  dataSectors h !! i = Some n -> ds !! Z.to_nat n = Some data -> (j < 128)%nat ->
  file_byte ds h (i * 128 + j) = data !! j.
Proof.
  intros Hn Hd Hj. unfold file_byte.
  rewrite Nat.div_add_l, Nat.div_small, Nat.add_0_r by lia.
  replace ((i * 128 + j) mod 128)%nat with j.
  - rewrite Hn. simpl. by rewrite Hd.
  - rewrite Nat.add_comm, Nat.Div0.mod_add. by rewrite Nat.mod_small.
Qed.

Lemma sector_length s ds n data :
  contents s ds -> ds !! n = Some data -> length data = 128%nat /\ Forall is_byte data.
Proof.
  intros Hc Hd. destruct (contents_wf s ds Hc) as [_ Hw].
  by destruct (Forall_lookup_1 _ _ _ _ Hw Hd).
Qed.

Lemma read_loop_spec h : hdr_ok h -> forall n s ds (i : nat),
  contents s ds -> Z.of_nat (i + n) <= numSectors h ->
  exists buf s', read_loop n h (Z.of_nat i) s = Ok (buf, s') /\ contents s' ds /\
    length buf = (128 * n)%nat /\ Forall is_byte buf /\
    forall j, (j < 128 * n)%nat -> buf !! j = file_byte ds h (i * 128 + j).
Proof.
  intros Hok. induction n as [ | n IH]; intros s ds i Hc Hi; cbn [read_loop].
  { exists [], s. split_and!; try done. lia. }
  destruct (data_sector h (Z.of_nat i) Hok) as (sec & Hb & _ & Hs & Hr); [lia | ].
  rewrite Nat2Z.id in Hs. unfold mbind, stM_bind, lift. rewrite Hb.
  destruct (read_sector s ds sec Hc Hr) as (data & s1 & -> & Hd & Hc1).
  destruct (sector_length _ _ _ _ Hc Hd) as [Hlen Hbytes].
  replace (Z.of_nat i + 1) with (Z.of_nat (Datatypes.S i)) by lia.
  destruct (IH s1 ds (Datatypes.S i) Hc1 ltac:(lia)) as (buf & s2 & -> & Hc2 & Hl & Hby & Hj).
  eexists _, s2. split; [done | ]. split; [done | ]. rewrite length_app, Hlen, Hl.
  split; [lia | ]. split; [by apply Forall_app_2 | ]. intros j Hjlt.
  destruct (decide (j < 128)%nat).
  - rewrite lookup_app_l by lia. symmetry. by eapply sector_bytes.
  - rewrite lookup_app_r by lia. rewrite Hlen, Hj by lia. f_equal. lia.
Qed.

Lemma numBytes_bound h : hdr_ok h -> 0 <= numBytes h <= numSectors h * 128 /\ 0 <= numSectors h <= 30.
Proof.
  intros Hok. pose proof (ok_bytes _ Hok) as Hb. pose proof (ok_direct _ Hok) as Hd.
  change NumDirect with 30 in Hd. destruct (sectors_of_size _ Hb) as [H1 H2].
  rewrite <- (ok_sectors _ Hok) in *. lia.
Qed.

Lemma file_byte_is_Some s ds h k :
  contents s ds -> hdr_ok h -> (Z.of_nat k < numSectors h * 128) ->
  exists b, file_byte ds h k = Some b /\ is_byte b.
Proof.
  intros Hc Hok Hk.
  assert (k / 128 * 128 + k mod 128 = k)%nat as Ek by (pose proof (Nat.div_mod_eq k 128); lia).
  pose proof (Nat.mod_upper_bound k 128 ltac:(lia)) as Hm.
  destruct (data_sector h (Z.of_nat (k / 128)) Hok) as (n & _ & _ & Hn & Hr); [lia | ].
  rewrite Nat2Z.id in Hn. destruct (contents_wf s ds Hc) as [Hl _].
  destruct (lookup_lt_is_Some_2 ds (Z.to_nat n)) as [data Hd].
  { rewrite Hl. change (Z.to_nat NumSectors) with 1024%nat. change NumSectors with 1024 in Hr. lia. }
  destruct (sector_length _ _ _ _ Hc Hd) as [Hlen Hby].
  destruct (lookup_lt_is_Some_2 data (k mod 128)) as [b Hb]; [lia | ].
  exists b. split; [ | by eapply (Forall_lookup_1 _ _ _ _ Hby)].
  rewrite <- Ek. by erewrite sector_bytes.
Qed.

Lemma file_data_lookup s ds h k :
  contents s ds -> hdr_ok h ->
  file_data ds h !! k = if bool_decide (Z.of_nat k < numBytes h) then file_byte ds h k else None.
Proof.
  intros Hc Hok. destruct (numBytes_bound _ Hok). unfold file_data. rewrite list_lookup_fmap.
  case_bool_decide.
  - rewrite lookup_seq_lt by lia. simpl.
    destruct (file_byte_is_Some s ds h k Hc Hok ltac:(lia)) as (b & -> & _). done.
  - rewrite lookup_seq_ge by lia. done.
Qed.

(** The request as the code trims it. *)
Definition trimmed h (n position : Z) : Z :=
  if (n <=? 0) || (numBytes h <=? position) then 0 else Z.min n (numBytes h - position).

Lemma check_request_spec f n position :
  hdr_ok (hdr f) -> 0 <= position -> is_i32 (position + n) ->
  check_request f n position = Ok (trimmed (hdr f) n position).
Proof.
  intros Hok Hp Hi. destruct (numBytes_bound _ Hok) as [Hb Hs].
  unfold check_request, trimmed, FileLength. destruct ((n <=? 0) || (numBytes (hdr f) <=? position)) eqn:E; [done | ].
  bool_prop. rewrite (int_op_ok _ Hi). rsimp.
  destruct (Z.ltb_spec (numBytes (hdr f)) (position + n)).
  - rewrite int_op_ok by (unfold is_i32; pow2; lia). f_equal. lia.
  - unfold mret, res_ret. f_equal. lia.
Qed.

Lemma buf_read_ok buf off n :
  0 <= off -> 0 <= n -> off + n <= Z.of_nat (length buf) ->
  buf_read buf off n = Ok (take (Z.to_nat n) (drop (Z.to_nat off) buf)).
Proof.
  intros H1 H2 H3. unfold buf_read.
  by rewrite (proj2 (Z.leb_le _ _) H1), (proj2 (Z.leb_le _ _) H2), (proj2 (Z.leb_le _ _) H3).
Qed.

Lemma buf_write_ok buf off b :
  0 <= off -> off + Z.of_nat (length b) <= Z.of_nat (length buf) ->
  buf_write buf off b = Ok (splice buf (Z.to_nat off) b).
Proof.
  intros H1 H2. unfold buf_write.
  by rewrite (proj2 (Z.leb_le _ _) H1), (proj2 (Z.leb_le _ _) H2).
Qed.

(** The sectors of a request. *)
Lemma request_sectors h n position :
  hdr_ok h -> 0 <= position -> 0 < n -> position + n <= numBytes h ->
  let first := divRoundDown position SectorSize in
  let last := divRoundDown (position + n - 1) SectorSize in
  0 <= first <= last /\ last < numSectors h /\ first * 128 <= position < first * 128 + 128 /\
  last * 128 <= position + n - 1 < last * 128 + 128.
Proof.
  intros Hok Hp Hn Hb. destruct (numBytes_bound _ Hok). unfold divRoundDown, SectorSize. simpl.
  rewrite !Z.quot_div_nonneg by lia. Z.div_mod_to_equations. lia.
Qed.

Lemma ReadAt_spec s ds f n position :
  contents s ds -> hdr_ok (hdr f) -> 0 <= position -> is_i32 (position + n) ->
  exists s', ReadAt f n position s =
    Ok ((trimmed (hdr f) n position,
         take (Z.to_nat (trimmed (hdr f) n position)) (drop (Z.to_nat position) (file_data ds (hdr f)))), s') /\
    contents s' ds.
Proof.
  intros Hc Hok Hp Hi. unfold ReadAt. rewrite (check_request_spec _ _ _ Hok Hp Hi).
  set (m := trimmed (hdr f) n position). unfold mbind, stM_bind, lift.
  destruct (Z.eqb_spec m 0) as [-> | Hm]; [by exists s | ].
  assert (0 < m /\ position + m <= numBytes (hdr f)) as [Hm0 Hm1].
  { unfold m, trimmed in *. destruct ((n <=? 0) || _) eqn:E; [done | ]. bool_prop. lia. }
  destruct (request_sectors _ m position Hok Hp Hm0 Hm1) as (H1 & H2 & H3 & H4).
  set (first := divRoundDown position SectorSize) in *.
  set (last := divRoundDown (position + m - 1) SectorSize) in *.
  destruct (read_loop_spec (hdr f) Hok (Z.to_nat (1 + last - first)) s ds (Z.to_nat first) Hc)
    as (buf & s' & E & Hc' & Hl & _ & Hj); [lia | ].
  rewrite Z2Nat.id in E by lia. rewrite E. unfold SectorSize.
  rewrite buf_read_ok by lia. exists s'. split; [ | done]. unfold mret, stM_ret. do 3 f_equal.
  apply list_eq. intros j. destruct (decide (j < Z.to_nat m)%nat) as [Hjm | Hjm].
  - rewrite !lookup_take_lt, !lookup_drop by done. rewrite Hj by lia.
    rewrite (file_data_lookup s' ds _ _ Hc' Hok), bool_decide_eq_true_2 by lia. f_equal. lia.
  - rewrite !lookup_take_ge by lia. done.
Qed.

(** ** WriteAt *)

Lemma sector_lookup k j : (j < 128)%nat -> ((k * 128 + j) / 128 = k /\ (k * 128 + j) mod 128 = j)%nat.
Proof.
  intros Hj. rewrite Nat.div_add_l, Nat.div_small, Nat.add_0_r by lia. split; [done | ].
  rewrite Nat.add_comm, Nat.Div0.mod_add. by apply Nat.mod_small.
Qed.

(** Replacing one data sector of a file changes its bytes of the file. *)
Lemma file_byte_write ds h i n data k j :
  hdr_ok h -> Z.of_nat i < numSectors h -> Z.of_nat k < numSectors h -> (j < 128)%nat ->
  dataSectors h !! i = Some n -> (Z.to_nat n < length ds)%nat ->
  file_byte (<[Z.to_nat n := data]> ds) h (k * 128 + j) =
    if bool_decide (k = i) then data !! j else file_byte ds h (k * 128 + j).
Proof.
  intros Hok Hi Hk Hj Hn Hl. unfold file_byte. destruct (sector_lookup k j Hj) as [-> ->].
  destruct (data_sector h (Z.of_nat k) Hok ltac:(lia)) as (m & _ & Hm & Hm' & Hr).
  destruct (data_sector h (Z.of_nat i) Hok ltac:(lia)) as (n' & _ & Hs & Hn' & Hr').
  rewrite Nat2Z.id in *. simplify_eq. rewrite Hm'. simpl. case_bool_decide as E.
  - subst. simplify_eq. by rewrite list_lookup_insert_eq.
  - rewrite list_lookup_insert_ne; [done | ]. intros Heq. apply E.
    assert (m = n) as -> by lia. by eapply NoDup_lookup; [apply Hok | | ].
Qed.

Lemma write_loop_spec h buf (first : nat) : hdr_ok h -> Forall is_byte buf -> forall n s ds (i : nat),
  contents s ds -> Z.of_nat (i + n) <= numSectors h -> (first <= i)%nat ->
  ((i - first + n) * 128 <= length buf)%nat ->
  exists ds' s', write_loop n h (Z.of_nat first) (Z.of_nat i) buf s = Ok (tt, s') /\ contents s' ds' /\
    (forall t, Z.of_nat t ∉ data_secs h -> ds' !! t = ds !! t) /\
    (forall k j, Z.of_nat k < numSectors h -> (j < 128)%nat ->
       file_byte ds' h (k * 128 + j) =
         if bool_decide (i <= k < i + n)%nat then buf !! ((k - first) * 128 + j)%nat
         else file_byte ds h (k * 128 + j)).
Proof.
  intros Hok Hby. induction n as [ | n IH]; intros s ds i Hc Hi Hf Hl; cbn [write_loop].
  { exists ds, s. split_and!; try done. intros k j _ _. rewrite bool_decide_eq_false_2 by lia. done. }
  destruct (data_sector h (Z.of_nat i) Hok) as (sec & Hb & Hs & Hd & Hr); [lia | ].
  rewrite Nat2Z.id in *. unfold mbind, stM_bind, lift. rewrite Hb. unfold SectorSize.
  rewrite buf_read_ok by lia.
  set (data := take _ _).
  assert (sector_wf data) as Hw.
  { split; [ | by apply Forall_take, Forall_drop]. unfold data. rewrite length_take, length_drop.
    change (Z.to_nat SectorSize) with 128%nat. lia. }
  destruct (write_sector s ds sec data Hc Hr Hw) as (s1 & -> & Hc1).
  replace (Z.of_nat i + 1) with (Z.of_nat (Datatypes.S i)) by lia.
  destruct (IH s1 (<[Z.to_nat sec := data]> ds) (Datatypes.S i) Hc1) as (ds' & s2 & -> & Hc2 & Ho & Hbyte);
    [lia | lia | lia | ].
  assert (Z.to_nat sec < length ds)%nat as Hlt.
  { destruct (contents_wf s ds Hc) as [-> _]. change (Z.to_nat NumSectors) with 1024%nat.
    change NumSectors with 1024 in Hr. lia. }
  exists ds', s2. split_and!; [done | done | | ].
  - intros t Ht. rewrite Ho by done. apply list_lookup_insert_ne. intros Heq. apply Ht.
    replace (Z.of_nat t) with sec by lia. by eapply list_elem_of_lookup_2.
  - intros k j Hk Hj. rewrite Hbyte by done.
    rewrite (file_byte_write ds h i sec data k j) by (done || lia).
    destruct (decide (k = i)) as [-> | Hne].
    + rewrite bool_decide_eq_false_2, !bool_decide_eq_true_2 by lia. unfold data.
      rewrite lookup_take_lt, lookup_drop by lia. f_equal. lia.
    + rewrite (bool_decide_eq_false_2 (k = i)) by done.
      rewrite (bool_decide_ext (Datatypes.S i <= k < Datatypes.S i + n)%nat (i <= k < i + Datatypes.S n)%nat) by lia.
      done.
Qed.

(** Reading a sector of the file into its place in the buffer. *)
Lemma read_sector_into s ds f (q first : Z) buf :
  contents s ds -> hdr_ok (hdr f) -> 0 <= first <= q -> q * 128 < numBytes (hdr f) ->
  (q - first) * 128 + 128 <= Z.of_nat (length buf) -> Forall is_byte buf ->
  exists bs s' buf', ReadAt f SectorSize (q * SectorSize) s = Ok (bs, s') /\ contents s' ds /\
    buf_write buf ((q - first) * SectorSize) bs.2 = Ok buf' /\
    length buf' = length buf /\ Forall is_byte buf' /\
    (forall j, buf' !! j =
       if bool_decide ((q - first) * 128 <= Z.of_nat j < (q - first) * 128 + 128 /\
                       first * 128 + Z.of_nat j < numBytes (hdr f))
       then file_byte ds (hdr f) (Z.to_nat (first * 128) + j) else buf !! j).
Proof.
  intros Hc Hok Hf Hq Hl Hby. destruct (numBytes_bound _ Hok) as [Hb Hn]. unfold SectorSize.
  destruct (ReadAt_spec s ds f 128 (q * 128) Hc Hok) as (s' & E & Hc'); [lia | unfold is_i32; pow2; lia | ].
  assert (trimmed (hdr f) 128 (q * 128) = Z.min 128 (numBytes (hdr f) - q * 128)) as Et.
  { unfold trimmed. destruct ((128 <=? 0) || (numBytes (hdr f) <=? q * 128)) eqn:Eb; [ | done].
    apply orb_true_iff in Eb as [? | ?]; bool_prop; lia. }
  rewrite Et in E. set (m := Z.min 128 (numBytes (hdr f) - q * 128)) in *.
  set (bs := take (Z.to_nat m) (drop (Z.to_nat (q * 128)) (file_data ds (hdr f)))) in *.
  assert (length bs = Z.to_nat m) as Hlen.
  { unfold bs. rewrite length_take, length_drop, length_file_data. unfold m. lia. }
  eexists _, s', (splice buf (Z.to_nat ((q - first) * 128)) bs). split; [exact E | ]. split; [done | ].
  assert (Z.to_nat ((q - first) * 128) + length bs <= length buf)%nat as Hfit by (unfold m in *; lia).
  split; [apply buf_write_ok; unfold snd; lia | ]. split; [by apply length_splice | ]. split.
  - apply splice_Forall; [done | done | ]. apply Forall_take, Forall_drop, Forall_forall.
    intros b Hb'. apply list_elem_of_lookup_1 in Hb' as [k Hk].
    rewrite (file_data_lookup s' ds _ _ Hc' Hok) in Hk. case_bool_decide; [ | done].
    destruct (file_byte_is_Some s' ds _ k Hc' Hok ltac:(lia)) as (b' & E' & ?). by simplify_eq.
  - intros j. rewrite splice_lookup by done.
    case_bool_decide as Hj.
    + rewrite bool_decide_eq_true_2 by (unfold m in *; lia). unfold bs.
      rewrite lookup_take_lt, lookup_drop by lia.
      rewrite (file_data_lookup s' ds _ _ Hc' Hok), bool_decide_eq_true_2 by (unfold m in *; lia).
      f_equal. lia.
    + rewrite bool_decide_eq_false_2; [done | unfold m in *; lia].
Qed.

(** The buffer before the new bytes are copied in: outside the range to be
    written it has the bytes of the file. *)
Lemma buffer_filled s ds f m position :
  contents s ds -> hdr_ok (hdr f) -> 0 <= position -> 0 < m -> position + m <= numBytes (hdr f) ->
  let first := divRoundDown position SectorSize in
  let last := divRoundDown (position + m - 1) SectorSize in
  let buf := new_buf uninit ((1 + last - first) * SectorSize) in
  exists buf' s', read_partial f position m first last buf s = Ok (buf', s') /\
    contents s' ds /\ Z.of_nat (length buf') = (1 + last - first) * 128 /\ Forall is_byte buf' /\
    (forall j, let k := first * 128 + Z.of_nat j in
       k < numBytes (hdr f) -> Z.of_nat j < (1 + last - first) * 128 ->
       ~ position <= k < position + m ->
       buf' !! j = file_byte ds (hdr f) (Z.to_nat (first * 128) + j)).
Proof.
  intros Hc Hok Hp Hm Hb first last buf. unfold read_partial.
  set (firstAligned := position =? first * SectorSize).
  set (lastAligned := position + m =? (last + 1) * SectorSize).
  destruct (request_sectors _ m position Hok Hp Hm Hb) as (H1 & H2 & H3 & H4).
  fold first in H1, H3. fold last in H1, H2, H4.
  assert (Z.of_nat (length buf) = (1 + last - first) * 128) as Hl.
  { unfold buf, new_buf, SectorSize. rewrite length_fmap, length_seq. lia. }
  assert (Forall is_byte buf) as Hby.
  { unfold buf, new_buf. apply Forall_fmap, Forall_true. intros i. unfold compose, is_byte. cint. }
  (* the first sector *)
  assert (exists buf1 s1, (if negb firstAligned then
      '(_, bs) ← ReadAt f SectorSize (first * SectorSize); lift (buf_write buf 0 bs)
      else mret buf) s = Ok (buf1, s1) /\ contents s1 ds /\ length buf1 = length buf /\ Forall is_byte buf1 /\
      (forall j, Z.of_nat j < 128 -> first * 128 + Z.of_nat j < numBytes (hdr f) -> firstAligned = false ->
         buf1 !! j = file_byte ds (hdr f) (Z.to_nat (first * 128) + j)))
    as (buf1 & s1 & E1 & Hc1 & Hl1 & Hby1 & Hj1).
  { destruct firstAligned eqn:Ea; simpl.
    - by exists buf, s.
    - destruct (read_sector_into s ds f first first buf Hc Hok) as ([n bs] & s1 & buf1 & E & Hc1 & Hw & Hl1 & Hby1 & Hj1);
        [lia.. | done | ].
      rewrite Z.sub_diag in Hw. change (0 * SectorSize) with 0 in Hw. simpl in Hw.
      unfold mbind, stM_bind, lift. rewrite E, Hw. exists buf1, s1. split_and!; try done.
      intros j Hj Hk _. rewrite Hj1, bool_decide_eq_true_2 by lia. done. }
  unfold mbind at 1, stM_bind at 1. rewrite E1.
  destruct (negb lastAligned && (negb (first =? last) || firstAligned)) eqn:Eb.
  - assert (last * 128 < numBytes (hdr f)) by lia.
    destruct (read_sector_into s1 ds f last first buf1 Hc1 Hok) as ([n bs] & s2 & buf2 & E & Hc2 & Hw & Hl2 & Hby2 & Hj2);
      [lia.. | done | ].
    simpl in Hw. unfold mbind, stM_bind, lift. rewrite E, Hw. exists buf2, s2.
    split_and!; [done | done | lia | done | ]. intros j Hk Hj Hout. rewrite Hj2.
    case_bool_decide as Hin; [done | ].
    assert (firstAligned = false) as Hfa.
    { unfold firstAligned, SectorSize. apply Z.eqb_neq. lia. }
    apply Hj1; try done. lia.
  - exists buf1, s1. split_and!; [done | done | lia | done | ]. intros j Hk Hj Hout.
    assert (firstAligned = false /\ Z.of_nat j < 128) as [Hfa Hj128].
    { destruct (decide (first * 128 + Z.of_nat j < position)) as [Hlt | Hge].
      - split; [ | lia]. unfold firstAligned, SectorSize. apply Z.eqb_neq. lia.
      - assert (lastAligned = false) as Hla.
        { unfold lastAligned, SectorSize. apply Z.eqb_neq. lia. }
        rewrite Hla in Eb. simpl in Eb. apply orb_false_iff in Eb as [E2 E3].
        split; [done | ]. bool_prop. lia. }
    by apply Hj1.
Qed.

(** [WriteAt] replaces the bytes of the range by those given and changes
    nothing outside the sectors of the file. *)
Lemma WriteAt_spec s ds f from n position :
  contents s ds -> hdr_ok (hdr f) -> 0 <= position -> is_i32 (position + n) ->
  n <= Z.of_nat (length from) -> Forall is_byte from ->
  let m := trimmed (hdr f) n position in
  let b := take (Z.to_nat m) from in
  let p := Z.to_nat position in
  exists s' ds', WriteAt uninit f from n position s = Ok (m, s') /\ contents s' ds' /\
    (forall t, Z.of_nat t ∉ data_secs (hdr f) -> ds' !! t = ds !! t) /\
    file_data ds' (hdr f) =
      take p (file_data ds (hdr f)) ++ b ++ drop (p + length b) (file_data ds (hdr f)).
Proof.
  intros Hc Hok Hp Hi Hn Hfrom m b p. unfold WriteAt. rewrite (check_request_spec _ _ _ Hok Hp Hi).
  fold m. unfold mbind at 1, stM_bind at 1, lift at 1.
  destruct (Z.eqb_spec m 0) as [E0 | Hm].
  { exists s, ds. split_and!; try done; [by rewrite E0 | ]. unfold b. rewrite E0. simpl.
    by rewrite Nat.add_0_r, take_drop. }
  assert (0 < m /\ m <= n /\ position + m <= numBytes (hdr f)) as (Hm0 & Hmn & Hm1).
  { unfold m, trimmed in *. destruct ((n <=? 0) || _) eqn:E; [done | ]. bool_prop. lia. }
  destruct (request_sectors _ m position Hok Hp Hm0 Hm1) as (H1 & H2 & H3 & H4).
  destruct (buffer_filled s ds f m position Hc Hok Hp Hm0 Hm1) as (buf & s1 & E & Hc1 & Hl & Hby & Hj).
  set (first := divRoundDown position SectorSize) in *.
  set (last := divRoundDown (position + m - 1) SectorSize) in *.
  unfold mbind at 1, stM_bind at 1. rewrite E. clearbody first last.
  unfold mbind, stM_bind, lift. rewrite buf_read_ok by lia. change (Z.to_nat 0) with 0%nat.
  rewrite drop_0. fold b.
  assert (length b = Z.to_nat m) as Hb by (unfold b; rewrite length_take; lia).
  unfold SectorSize. rewrite buf_write_ok by lia.
  set (q := Z.to_nat (position - first * 128)).
  assert (q + length b <= length buf)%nat as Hfit by (unfold q; lia).
  destruct (write_loop_spec (hdr f) (splice buf q b) (Z.to_nat first) Hok) with
    (n := Z.to_nat (1 + last - first)) (s := s1) (ds := ds) (i := Z.to_nat first)
    as (ds' & s2 & Ew & Hc2 & Hother & Hbyte); [ | done | lia | lia | rewrite length_splice by done; lia | ].
  { apply splice_Forall; [done | done | by apply Forall_take]. }
  rewrite !Z2Nat.id in Ew by lia. rewrite Ew. exists s2, ds'. split_and!; try done.
  destruct (numBytes_bound _ Hok) as [Hnb Hns].
  apply list_eq. intros k. rewrite (file_data_lookup s2 ds' _ _ Hc2 Hok).
  assert (p + length b <= length (file_data ds (hdr f)))%nat as Hfit'
    by (rewrite length_file_data; unfold p; lia).
  pose proof (splice_lookup (file_data ds (hdr f)) p b k Hfit') as Hs.
  unfold splice in Hs. rewrite take_app_le in Hs by lia. rewrite Hs.
  rewrite (file_data_lookup s ds _ _ Hc Hok).
  destruct (decide (Z.of_nat k < numBytes (hdr f))) as [Hk | Hk].
  2:{ rewrite !(bool_decide_eq_false_2 (Z.of_nat k < _)) by done.
      rewrite bool_decide_eq_false_2; [done | unfold p; lia]. }
  rewrite !(bool_decide_eq_true_2 (Z.of_nat k < _)) by done.
  assert (k = (k / 128) * 128 + k mod 128)%nat as Ek by (pose proof (Nat.div_mod_eq k 128); lia).
  pose proof (Nat.mod_upper_bound k 128 ltac:(lia)) as Hmod.
  rewrite Ek at 1. rewrite Hbyte by lia.
  destruct (decide (Z.to_nat first <= k / 128 < Z.to_nat first + Z.to_nat (1 + last - first))%nat) as [Hin | Hin].
  - rewrite (bool_decide_eq_true_2 _ Hin). set (j := ((k / 128 - Z.to_nat first) * 128 + k mod 128)%nat).
    assert (Z.of_nat k = first * 128 + Z.of_nat j) as Ekj by (unfold j; lia).
    rewrite splice_lookup by done.
    destruct (decide (q <= j < q + length b)%nat) as [Hjq | Hjq];
      [rewrite (bool_decide_eq_true_2 _ Hjq) | rewrite (bool_decide_eq_false_2 _ Hjq)].
    + rewrite bool_decide_eq_true_2 by (unfold p, q in *; lia). f_equal. unfold p, q in *. lia.
    + rewrite bool_decide_eq_false_2 by (unfold p, q in *; lia). rewrite Hj.
      * f_equal. lia.
      * lia.
      * unfold j. lia.
      * unfold q in *. lia.
  - rewrite (bool_decide_eq_false_2 _ Hin), <- Ek.
    rewrite bool_decide_eq_false_2; [done | ]. unfold p. lia.
Qed.

End Specs.
