(* ===== verification/Directory.v ===== *)
(** * Directories and the map of free sectors as files (filesys/directory.cc,
      directory.h; filesys/pbitmap.cc, pbitmap.h)

    A directory is a table of fixed-size entries; an entry has a name of at
    most nine characters and the sector of a file header.  In memory and on
    disk an entry is twenty bytes: the flag, three bytes of padding, the
    sector, the name, two bytes of padding.  A [PersistentBitmap] is a
    [Bitmap] whose words are read from and written to a file.

    [entry_key] is the name an entry stands for: [strncmp] and [strncpy] look
    at nine characters only. *)

From S2P Require Import Prelude Bitmap Disk FileHdr OpenFile.

Definition FileNameMaxLen : Z := 9.
Definition sizeof_DirectoryEntry : Z := 20.

(** ** Strings *)

(** A file name: the characters before the terminating NUL. *)
Definition filename := list Z.

Definition name_wf (n : filename) : Prop := Forall (fun c => 0 < c < 256) n.

(** [strncmp(a, b, n) == 0]; past the end of a list there is the NUL. *)
Fixpoint strncmp_eq (n : nat) (a b : list Z) : bool :=
  match n with
  | O => true
  | S n' =>
      let ca := hd 0 a in
      let cb := hd 0 b in
      if ca =? cb then if ca =? 0 then true else strncmp_eq n' (tl a) (tl b)
      else false
  end.

(** [strncpy(dst, src, n)]: the characters, and NULs up to [n]. *)
Definition strncpy (n : nat) (dst src : list Z) : list Z :=
  take n (src ++ replicate n 0) ++ drop n dst.

(** The string in an array, if it ends within it. *)
Fixpoint c_string (a : list Z) : res filename :=
  match a with
  | [] => Fail Undefined
  | c :: a' => if c =? 0 then mret [] else s ← c_string a'; mret (c :: s)
  end.

(** ** class DirectoryEntry *)

Record DirectoryEntry := mkEntry {
  inUse : bool;
  gap : list Z;
  sector : Z;
  name : list Z;
  tail : list Z
}.

Definition entry_bytes (e : DirectoryEntry) : list Z :=
  (if inUse e then 1 else 0) :: gap e ++ int_bytes (sector e) ++ name e ++ tail e.

Definition entry_of (bs : list Z) : DirectoryEntry :=
  mkEntry (negb (bs !!! 0%nat =? 0)) (take 3 (drop 1 bs)) (to_i32 (bytes_uint (drop 4 bs)))
    (take 10 (drop 8 bs)) (take 2 (drop 18 bs)).

Definition table_bytes (t : list DirectoryEntry) : list Z := concat (entry_bytes <$> t).

Definition table_of (n : nat) (bs : list Z) : list DirectoryEntry :=
  (fun i => entry_of (take 20 (drop (20 * i) bs))) <$> seq 0 n.

(** ** class Directory *)

Record Directory := mkDirectory { tableSize : Z; table : list DirectoryEntry }.

Definition with_inUse (e : DirectoryEntry) (b : bool) : DirectoryEntry :=
  mkEntry b (gap e) (sector e) (name e) (tail e).

Definition new_Directory (uninit : nat -> Z) (size : Z) : Directory :=
  mkDirectory size
    ((fun e => with_inUse e false) <$> table_of (Z.to_nat size) (new_buf uninit (size * sizeof_DirectoryEntry))).

Fixpoint FindIndex_loop (n : nat) (i : Z) (t : list DirectoryEntry) (fname : filename) : res Z :=
  match n with
  | O => mret (-1)
  | S n' =>
      e ← zget t i;
      if inUse e && strncmp_eq (Z.to_nat FileNameMaxLen) (name e) fname then mret i
      else FindIndex_loop n' (i + 1) t fname
  end.

Definition FindIndex (d : Directory) (fname : filename) : res Z :=
  FindIndex_loop (Z.to_nat (tableSize d)) 0 (table d) fname.

Definition Find (d : Directory) (fname : filename) : res Z :=
  i ← FindIndex d fname;
  if negb (i =? -1) then e ← zget (table d) i; mret (sector e) else mret (-1).

Fixpoint Add_loop (n : nat) (i : Z) (t : list DirectoryEntry) (fname : filename) (newSector : Z)
    : res (bool * list DirectoryEntry) :=
  match n with
  | O => mret (false, t)
  | S n' =>
      e ← zget t i;
      if negb (inUse e) then
        t ← zset t i (mkEntry true (gap e) newSector
                        (strncpy (Z.to_nat FileNameMaxLen) (name e) fname) (tail e));
        mret (true, t)
      else Add_loop n' (i + 1) t fname newSector
  end.

Definition Add (d : Directory) (fname : filename) (newSector : Z) : res (bool * Directory) :=
  i ← FindIndex d fname;
  if negb (i =? -1) then mret (false, d)
  else
    '(r, t) ← Add_loop (Z.to_nat (tableSize d)) 0 (table d) fname newSector;
    mret (r, mkDirectory (tableSize d) t).

Definition Remove (d : Directory) (fname : filename) : res (bool * Directory) :=
  i ← FindIndex d fname;
  if i =? -1 then mret (false, d)
  else
    e ← zget (table d) i;
    t ← zset (table d) i (with_inUse e false);
    mret (true, mkDirectory (tableSize d) t).

(** The names [List] prints. *)
Definition List_names (d : Directory) : res (list filename) :=
  for_up 0 (tableSize d) (fun i out =>
    e ← zget (table d) i;
    if inUse e then s ← c_string (name e); mret (out ++ [s]) else mret out) [].

Section OnDisk.
Context {S : Type} `{!SectorDisk S} (uninit : nat -> Z).

Definition Directory_FetchFrom (d : Directory) (file : OpenFile) : stM S Directory :=
  '(_, bs) ← ReadAt file (tableSize d * sizeof_DirectoryEntry) 0;
  let mem := table_bytes (table d) in
  mret (mkDirectory (tableSize d) (table_of (Z.to_nat (tableSize d)) (bs ++ drop (length bs) mem))).

Definition Directory_WriteBack (d : Directory) (file : OpenFile) : stM S unit :=
  WriteAt uninit file (table_bytes (table d)) (tableSize d * sizeof_DirectoryEntry) 0;;
  mret tt.

(** ** class PersistentBitmap *)

Definition new_PersistentBitmap (numItems : Z) : res Bitmap := new_Bitmap uninit numItems.

Definition Bitmap_FetchFrom (b : Bitmap) (file : OpenFile) : stM S Bitmap :=
  '(_, bs) ← ReadAt file (numWords b * 4) 0;
  let mem := bs ++ drop (length bs) (ints_bytes (words b)) in
  mret (mkBitmap (numBits b) (numWords b) (word_of mem <$> seq 0 (Z.to_nat (numWords b)))).

Definition Bitmap_WriteBack (b : Bitmap) (file : OpenFile) : stM S unit :=
  WriteAt uninit file (ints_bytes (words b)) (numWords b * 4) 0;;
  mret tt.

(** [PersistentBitmap(OpenFile *, int)] *)
Definition fetch_PersistentBitmap (file : OpenFile) (numItems : Z) : stM S Bitmap :=
  b ← lift (new_Bitmap uninit numItems);
  Bitmap_FetchFrom b file.

End OnDisk.

(** ** Encoding *)

Record entry_wf (e : DirectoryEntry) : Prop := {
  e_gap : length (gap e) = 3%nat /\ Forall is_byte (gap e);
  e_sector : is_i32 (sector e);
  e_name : length (name e) = 10%nat /\ Forall is_byte (name e);
  e_tail : length (tail e) = 2%nat /\ Forall is_byte (tail e)
}.

Lemma length_entry_bytes e : entry_wf e -> length (entry_bytes e) = 20%nat.
Proof.
  intros [[Hg _] _ [Hn _] [Ht _]]. unfold entry_bytes. cbn [length].
  rewrite !length_app, Hg, Hn, Ht. done.
Qed.

Lemma entry_bytes_byte e : entry_wf e -> Forall is_byte (entry_bytes e).
Proof.
  intros [[_ Hg] _ [_ Hn] [_ Ht]]. constructor.
  - unfold is_byte. destruct (inUse e); lia.
  - repeat apply Forall_app_2; try done. apply int_bytes_byte.
Qed.

Lemma entry_of_bytes e : entry_wf e -> entry_of (entry_bytes e) = e.
Proof.
  intros [[Hg _] Hs [Hn _] [Ht _]]. destruct e as [u g s n t]. cbn [inUse gap sector name tail] in *.
  unfold entry_of, entry_bytes. cbn [inUse gap sector name tail].
  assert (forall x, (1 + length g = 4)%nat -> drop 4 (x :: g ++ int_bytes s ++ n ++ t) = int_bytes s ++ n ++ t) as E4.
  { intros x Hx. rewrite (app_comm_cons g), drop_app_length'; [done | simpl; lia]. }
  f_equal.
  - by destruct u.
  - change (take 3 (g ++ int_bytes s ++ n ++ t) = g). by rewrite take_app_length'.
  - rewrite E4 by lia. rewrite bytes_uint_int_bytes, to_i32_u32. by apply to_i32_id.
  - change 8%nat with (4 + 4)%nat. rewrite <- drop_drop, E4 by lia.
    rewrite drop_app_length' by done. by rewrite take_app_length'.
  - change 18%nat with (4 + 14)%nat. rewrite <- drop_drop, E4 by lia.
    rewrite app_assoc, drop_app_length' by (rewrite length_app, Hn; done). by apply take_ge; lia.
Qed.

Lemma length_table_bytes t : Forall entry_wf t -> length (table_bytes t) = (20 * length t)%nat.
Proof.
  unfold table_bytes. induction 1 as [ | e t He _ IH]; [done | ].
  rewrite fmap_cons. cbn [concat length]. rewrite length_app, IH, length_entry_bytes by done. lia.
Qed.

Lemma table_bytes_byte t : Forall entry_wf t -> Forall is_byte (table_bytes t).
Proof.
  unfold table_bytes. induction 1 as [ | e t He _ IH]; [constructor | ].
  rewrite fmap_cons. cbn [concat]. apply Forall_app_2; [by apply entry_bytes_byte | done].
Qed.

(** A table written and read again is the same table. *)
Lemma table_of_bytes t : Forall entry_wf t -> table_of (length t) (table_bytes t) = t.
Proof.
  unfold table_of, table_bytes. induction 1 as [ | e t He _ IH]; [done | ].
  cbn [length seq]. rewrite !fmap_cons. cbn [concat]. f_equal.
  - change (20 * 0)%nat with 0%nat. rewrite drop_0, take_app_length' by by rewrite length_entry_bytes.
    by apply entry_of_bytes.
  - rewrite <- IH at 2. rewrite <- fmap_S_seq, <- list_fmap_compose. apply list_fmap_ext.
    intros j k _. unfold compose. f_equal. f_equal.
    replace (20 * S k)%nat with (length (entry_bytes e) + 20 * k)%nat by (rewrite length_entry_bytes by done; lia).
    by rewrite drop_app_add.
Qed.

Lemma entry_of_wf bs : length bs = 20%nat -> Forall is_byte bs -> entry_wf (entry_of bs).
Proof.
  intros Hl Hb. unfold entry_of. split; cbn [gap sector name tail].
  - split; [rewrite length_take, length_drop; lia | by apply Forall_take, Forall_drop].
  - apply to_i32_range.
  - split; [rewrite length_take, length_drop; lia | by apply Forall_take, Forall_drop].
  - split; [rewrite length_take, length_drop; lia | by apply Forall_take, Forall_drop].
Qed.

Lemma new_buf_bytes uninit n : Forall is_byte (new_buf uninit n).
Proof. unfold new_buf. apply Forall_fmap, Forall_true. intros i. unfold compose, is_byte. cint. Qed.

Lemma length_new_buf uninit n : length (new_buf uninit n) = Z.to_nat n.
Proof. unfold new_buf. by rewrite length_fmap, length_seq. Qed.

Lemma table_of_wf n bs :
  (20 * n <= length bs)%nat -> Forall is_byte bs -> Forall entry_wf (table_of n bs).
Proof.
  intros Hl Hb. unfold table_of. apply Forall_fmap, Forall_forall. intros i Hi%elem_of_seq. unfold compose.
  apply entry_of_wf; [rewrite length_take, length_drop; lia | by apply Forall_take, Forall_drop].
Qed.

Lemma new_Directory_wf uninit n :
  0 <= n -> let d := new_Directory uninit n in
  tableSize d = n /\ length (table d) = Z.to_nat n /\ Forall entry_wf (table d) /\
  Forall (fun e => inUse e = false) (table d).
Proof.
  intros Hn. simpl. split_and!; [done | | | ].
  - unfold table_of. by rewrite !length_fmap, length_seq.
  - apply Forall_fmap. unfold compose. eapply Forall_impl.
    + apply table_of_wf; [ | apply new_buf_bytes]. rewrite length_new_buf. unfold sizeof_DirectoryEntry. lia.
    + intros e [? ? ? ?]. by split.
  - apply Forall_fmap, Forall_true. done.
Qed.

(** ** Names *)

(** The name in an array: up to [n] characters before a NUL. *)
Fixpoint key_of (n : nat) (a : list Z) : list Z :=
  match n, a with
  | S n', c :: a' => if c =? 0 then [] else c :: key_of n' a'
  | _, _ => []
  end.

Definition entry_key (e : DirectoryEntry) : list Z := key_of 9 (name e).

Lemma strncmp_key n a b : strncmp_eq n a b = bool_decide (key_of n a = key_of n b).
Proof.
  revert a b. induction n as [ | n IH]; intros a b; [done | ].
  destruct a as [ | ca a], b as [ | cb b]; cbn [strncmp_eq key_of hd tl]; [done | | | ].
  - destruct (Z.eqb_spec 0 cb) as [<- | Hne]; [done | ].
    rewrite (proj2 (Z.eqb_neq cb 0)) by done. by rewrite bool_decide_eq_false_2.
  - destruct (Z.eqb_spec ca 0) as [-> | Hne]; [done | ]. by rewrite bool_decide_eq_false_2.
  - destruct (Z.eqb_spec ca cb) as [<- | Hne].
    + destruct (Z.eqb_spec ca 0); [by rewrite bool_decide_eq_true_2 | ].
      rewrite IH. apply bool_decide_ext. split; [by intros -> | by intros [=]].
    + destruct (Z.eqb_spec ca 0), (Z.eqb_spec cb 0); try lia; rewrite bool_decide_eq_false_2; try done; by intros [=].
Qed.

Lemma key_of_name n fname : name_wf fname -> key_of n fname = take n fname.
Proof.
  intros Hw. revert n. induction Hw as [ | c fname Hc _ IH]; intros [ | n]; try done.
  cbn [key_of take]. destruct (Z.eqb_spec c 0); [lia | ]. by rewrite IH.
Qed.

Lemma key_of_strncpy n dst fname : name_wf fname -> key_of n (strncpy n dst fname) = take n fname.
Proof.
  intros Hw. unfold strncpy. generalize (drop n dst) as rest. revert fname Hw.
  induction n as [ | n IH]; intros fname Hw rest; [done | ].
  destruct fname as [ | c fname].
  - done.
  - apply Forall_cons in Hw as [Hc Hw]. cbn [app take key_of].
    destruct (Z.eqb_spec c 0); [lia | ]. f_equal.
    rewrite <- (IH fname Hw rest). do 2 f_equal.
    replace (replicate (S n) 0) with (replicate n 0 ++ [0]) by by rewrite <- replicate_S_end.
    rewrite app_assoc, take_app_le; [done | ]. rewrite length_app, length_replicate. lia.
Qed.

Lemma length_strncpy n dst src : (n <= length dst)%nat -> length (strncpy n dst src) = length dst.
Proof.
  intros Hl. unfold strncpy. rewrite length_app, length_take, length_app, length_replicate, length_drop. lia.
Qed.

Lemma strncpy_bytes n dst src :
  Forall is_byte dst -> name_wf src -> Forall is_byte (strncpy n dst src).
Proof.
  intros Hd Hs. unfold strncpy. apply Forall_app_2; [ | by apply Forall_drop].
  apply Forall_take, Forall_app_2.
  - eapply Forall_impl; [exact Hs | ]. unfold is_byte. intros c Hc. simpl in Hc. lia.
  - apply Forall_replicate. unfold is_byte. lia.
Qed.

(** ** Directory operations *)

Definition used (t : list DirectoryEntry) : list DirectoryEntry := filter (fun e => inUse e = true) t.

Lemma used_insert t i e e' :
  t !! i = Some e -> exists rest,
    used t ≡ₚ (if inUse e then [e] else []) ++ rest /\
    used (<[i := e']> t) ≡ₚ (if inUse e' then [e'] else []) ++ rest.
Proof.
  intros Hi. exists (used (take i t) ++ used (drop (S i) t)). unfold used.
  pose proof (lookup_lt_Some _ _ _ Hi). split.
  - rewrite <- (take_drop_middle t i e Hi) at 1. rewrite filter_app, filter_cons.
    destruct (inUse e); case_decide; try done; solve_Permutation.
  - rewrite insert_take_drop by done. rewrite filter_app, filter_cons.
    destruct (inUse e'); case_decide; try done; solve_Permutation.
Qed.

Lemma filter_all {A} (P : A -> Prop) `{forall x, Decision (P x)} (l : list A) :
  Forall P l -> filter P l = l.
Proof. induction 1 as [ | x l Hx _ IH]; [done | ]. rewrite filter_cons, decide_True by done. by rewrite IH. Qed.

Lemma used_elem t e : e ∈ used t <-> inUse e = true /\ e ∈ t.
Proof. unfold used. by rewrite list_elem_of_filter. Qed.

(** [FindIndex] finds the entry in use with the name, and -1 if there is none. *)
Lemma FindIndex_loop_spec fname t : name_wf fname -> forall n i,
  (i + n = length t)%nat ->
  (exists k e, FindIndex_loop n (Z.of_nat i) t fname = Ok (Z.of_nat k) /\ t !! k = Some e /\
     inUse e = true /\ entry_key e = take 9 fname) \/
  (FindIndex_loop n (Z.of_nat i) t fname = Ok (-1) /\
   forall k e, (i <= k)%nat -> t !! k = Some e -> inUse e = true -> entry_key e <> take 9 fname).
Proof.
  intros Hw. induction n as [ | n IH]; intros i Hi; cbn [FindIndex_loop].
  { right. split; [done | ]. intros k e Hk He. apply lookup_lt_Some in He. lia. }
  destruct (lookup_lt_is_Some_2 t i ltac:(lia)) as [e He].
  rewrite (zget_lookup t (Z.of_nat i) e) by (rewrite ?Nat2Z.id; lia || done). rsimp.
  change (Z.to_nat FileNameMaxLen) with 9%nat. rewrite strncmp_key, (key_of_name 9 fname Hw).
  change (key_of 9 (name e)) with (entry_key e). destruct (inUse e) eqn:Eu; cbn [andb].
  - case_bool_decide as Hk.
    + left. exists i, e. split_and!; try done.
    + replace (Z.of_nat i + 1) with (Z.of_nat (S i)) by lia.
      destruct (IH (S i) ltac:(lia)) as [(k & e' & ? & ? & ? & ?) | [E Hn]]; [left; eauto 6 | right].
      split; [done | ]. intros k e' Hle Hke Hu. destruct (decide (k = i)) as [-> | ]; [by simplify_eq; congruence | ].
      apply (Hn k e'); (done || lia).
  - replace (Z.of_nat i + 1) with (Z.of_nat (S i)) by lia.
    destruct (IH (S i) ltac:(lia)) as [(k & e' & ? & ? & ? & ?) | [E Hn]]; [left; eauto 6 | right].
    split; [done | ]. intros k e' Hle Hke Hu. destruct (decide (k = i)) as [-> | ]; [by simplify_eq; congruence | ].
    apply (Hn k e'); (done || lia).
Qed.

Lemma FindIndex_spec d fname :
  name_wf fname -> length (table d) = Z.to_nat (tableSize d) ->
  (exists k e, FindIndex d fname = Ok (Z.of_nat k) /\ table d !! k = Some e /\
     inUse e = true /\ entry_key e = take 9 fname) \/
  (FindIndex d fname = Ok (-1) /\ take 9 fname ∉ entry_key <$> used (table d)).
Proof.
  intros Hw Hl. unfold FindIndex. change 0 with (Z.of_nat 0).
  destruct (FindIndex_loop_spec fname (table d) Hw (Z.to_nat (tableSize d)) 0) as [? | [E Hn]];
    [lia | by left | right]. split; [done | ]. intros (e & Ek & He)%list_elem_of_fmap.
  apply used_elem in He as [Hu He]. apply list_elem_of_lookup_1 in He as [k Hk].
  apply (Hn k e); (done || lia).
Qed.

Lemma Find_spec d fname :
  name_wf fname -> length (table d) = Z.to_nat (tableSize d) ->
  (exists e, Find d fname = Ok (sector e) /\ e ∈ used (table d) /\ entry_key e = take 9 fname) \/
  (Find d fname = Ok (-1) /\ take 9 fname ∉ entry_key <$> used (table d)).
Proof.
  intros Hw Hl. unfold Find. destruct (FindIndex_spec d fname Hw Hl) as [(k & e & -> & Hk & Hu & He) | [-> Hn]].
  - left. exists e. rsimp. destruct (Z.eqb_spec (Z.of_nat k) (-1)); [lia | ]. simpl.
    rewrite (zget_lookup _ (Z.of_nat k) e) by (rewrite ?Nat2Z.id; lia || done). rsimp.
    split_and!; [done | | done]. apply used_elem. split; [done | by eapply list_elem_of_lookup_2].
  - right. done.
Qed.

Lemma Add_loop_spec fname sec t : forall n i,
  (i + n = length t)%nat ->
  (exists k e, (i <= k)%nat /\ t !! k = Some e /\ inUse e = false /\
     Add_loop n (Z.of_nat i) t fname sec =
       Ok (true, <[k := mkEntry true (gap e) sec (strncpy 9 (name e) fname) (tail e)]> t)) \/
  (Add_loop n (Z.of_nat i) t fname sec = Ok (false, t) /\
   forall k e, (i <= k)%nat -> t !! k = Some e -> inUse e = true).
Proof.
  induction n as [ | n IH]; intros i Hi; cbn [Add_loop].
  { right. split; [done | ]. intros k e Hk He. apply lookup_lt_Some in He. lia. }
  destruct (lookup_lt_is_Some_2 t i ltac:(lia)) as [e He].
  rewrite (zget_lookup t (Z.of_nat i) e) by (rewrite ?Nat2Z.id; lia || done). rsimp.
  destruct (inUse e) eqn:Eu; cbn [negb].
  - replace (Z.of_nat i + 1) with (Z.of_nat (S i)) by lia.
    destruct (IH (S i) ltac:(lia)) as [(k & e' & ? & ? & ? & ?) | [E Hn]].
    + left. exists k, e'. split_and!; try done. lia.
    + right. split; [done | ]. intros k e' Hle Hke. destruct (decide (k = i)) as [-> | ]; [by simplify_eq; congruence | ].
      apply (Hn k e'); (done || lia).
  - left. exists i, e. split_and!; try done. rewrite zset_in_range by lia. rsimp. by rewrite Nat2Z.id.
Qed.

(** [Add] puts the name in a free entry; it fails when the name is there or
    every entry is in use. *)
Lemma Add_spec d fname sec :
  name_wf fname -> length (table d) = Z.to_nat (tableSize d) -> Forall entry_wf (table d) -> is_i32 sec ->
  take 9 fname ∉ entry_key <$> used (table d) ->
  if bool_decide (length (used (table d)) = length (table d)) then Add d fname sec = Ok (false, d)
  else exists e d', Add d fname sec = Ok (true, d') /\
    tableSize d' = tableSize d /\ length (table d') = length (table d) /\ Forall entry_wf (table d') /\
    sector e = sec /\ entry_key e = take 9 fname /\ used (table d') ≡ₚ e :: used (table d).
Proof.
  intros Hw Hl Hwf Hsec Hno. unfold Add.
  destruct (FindIndex_spec d fname Hw Hl) as [(k & e & _ & Hk & Hu & He) | [-> _]].
  { destruct Hno. rewrite <- He. apply list_elem_of_fmap_2, used_elem.
    split; [done | by eapply list_elem_of_lookup_2]. }
  rsimp. change (negb (-1 =? -1)) with false. cbv iota. change 0 with (Z.of_nat 0).
  destruct (Add_loop_spec fname sec (table d) (Z.to_nat (tableSize d)) 0)
    as [(k & e & _ & Hk & Hu & ->) | [-> Hall]]; [lia | | ]; rsimp.
  - destruct (used_insert _ k e (mkEntry true (gap e) sec (strncpy 9 (name e) fname) (tail e)) Hk)
      as (rest & E1 & E2).
    rewrite Hu in E1. simpl in E1, E2. rewrite bool_decide_eq_false_2.
    + exists (mkEntry true (gap e) sec (strncpy 9 (name e) fname) (tail e)).
      eexists. split; [done | ]. cbn [table tableSize].
      pose proof (Forall_lookup_1 _ _ _ _ Hwf Hk) as [? ? [Hn Hnb] ?].
      split_and!; [done | by rewrite length_insert | | done | by apply key_of_strncpy | ].
      * apply Forall_insert; [done | ]. split; simpl; try done.
        split; [by rewrite length_strncpy by lia | by apply strncpy_bytes].
      * by rewrite E2, E1.
    + intros Heq. assert (length (used (table d)) < length (table d))%nat as Hlt; [ | lia].
      unfold used. eapply length_filter_lt; [by eapply list_elem_of_lookup_2 | by rewrite Hu].
  - rewrite bool_decide_eq_true_2; [by destruct d | ]. unfold used. f_equal.
    apply filter_all, Forall_lookup_2. intros k e. apply Hall. lia.
Qed.

(** [Remove] frees the entry of the name. *)
Lemma Remove_spec d fname :
  name_wf fname -> length (table d) = Z.to_nat (tableSize d) -> Forall entry_wf (table d) ->
  NoDup (entry_key <$> used (table d)) ->
  (forall e, e ∈ used (table d) -> entry_key e = take 9 fname ->
     exists d', Remove d fname = Ok (true, d') /\ tableSize d' = tableSize d /\
       length (table d') = length (table d) /\ Forall entry_wf (table d') /\
       used (table d) ≡ₚ e :: used (table d')).
Proof.
  intros Hw Hl Hwf Hnd e He Hk. unfold Remove.
  destruct (FindIndex_spec d fname Hw Hl) as [(k & e' & -> & Hk' & Hu & Hkey) | [_ Hn]].
  2:{ destruct Hn. rewrite <- Hk. by apply list_elem_of_fmap_2. }
  assert (e' = e) as ->.
  { assert (e' ∈ used (table d)) as He' by (apply used_elem; split; [done | by eapply list_elem_of_lookup_2]).
    apply list_elem_of_lookup_1 in He as [i Hi], He' as [j Hj].
    assert (i = j) as ->; [ | by simplify_eq]. eapply NoDup_lookup; [exact Hnd | | ].
    - by rewrite list_lookup_fmap, Hi.
    - rewrite list_lookup_fmap, Hj. simpl. by rewrite Hk, Hkey. }
  rsimp. destruct (Z.eqb_spec (Z.of_nat k) (-1)); [lia | ].
  rewrite (zget_lookup _ (Z.of_nat k) e) by (rewrite ?Nat2Z.id; lia || done). rsimp.
  pose proof (lookup_lt_Some _ _ _ Hk'). rewrite zset_in_range by lia. rsimp. rewrite Nat2Z.id.
  eexists. split; [done | ]. cbn [table tableSize].
  destruct (used_insert _ k e (with_inUse e false) Hk') as (rest & E1 & E2).
  rewrite Hu in E1. simpl in E1, E2. split_and!; [done | by rewrite length_insert | | by rewrite E1, E2].
  apply Forall_insert; [done | ]. by destruct (Forall_lookup_1 _ _ _ _ Hwf Hk').
Qed.

(** [Add] copies nine characters and no NUL: a name of nine characters ends
    where the memory the entry was made in happens to hold a zero, and [List]
    runs off its end where it does not. *)
Lemma nine_characters_unterminated :
  let d := new_Directory (fun _ => 7) 10 in
  exists d', Add d [97; 98; 99; 100; 101; 102; 103; 104; 105] 5 = Ok (true, d') /\
    List_names d' = Fail Undefined.
Proof. eexists. split; vm_compute; reflexivity. Qed.
