(* ===== verification/FileSys.v ===== *)
(** * The Nachos file system (filesys/filesys.cc, filesys.h without
      FILESYS_STUB)

    One directory of ten entries and a map of free sectors, both kept in
    files whose headers are in sectors 1 and 0.  [Create], [Open] and [Remove]
    read the two files, change them in memory and write them back.

    [fs_inv] is the consistency of a disk: the two files hold the directory
    and the map, every file's header and data sectors are its own, and the
    map marks exactly the sectors in use.  [fs_files] is what a user sees: a
    finite map from names to contents. *)

From S2P Require Import Prelude Bitmap Disk FileHdr OpenFile Directory.

Definition FreeMapSector : Z := 0.
Definition DirectorySector : Z := 1.
Definition FreeMapFileSize : Z := NumSectors / BitsInByte.
Definition NumDirEntries : Z := 10.
Definition DirectoryFileSize : Z := sizeof_DirectoryEntry * NumDirEntries.

Record FileSystem := mkFileSystem { freeMapFile : OpenFile; directoryFile : OpenFile }.

Section FileSys.
Context {S : Type} `{!SectorDisk S} (uninit : nat -> Z).

(** ** Formatting *)

(** [FileSystem::FileSystem(TRUE)], once the empty map is there *)
Definition format_with (freeMap : Bitmap) : stM S FileSystem :=
  let directory := new_Directory uninit NumDirEntries in
  let mapHdr := new_FileHeader uninit in
  let dirHdr := new_FileHeader uninit in
  freeMap ← lift (Mark freeMap FreeMapSector);
  freeMap ← lift (Mark freeMap DirectorySector);
  '(ok, mapHdr, freeMap) ← lift (Allocate mapHdr freeMap FreeMapFileSize);
  lift (ASSERT ok);;
  '(ok, dirHdr, freeMap) ← lift (Allocate dirHdr freeMap DirectoryFileSize);
  lift (ASSERT ok);;
  Header_WriteBack mapHdr FreeMapSector;;
  Header_WriteBack dirHdr DirectorySector;;
  freeMapFile ← new_OpenFile FreeMapSector;
  directoryFile ← new_OpenFile DirectorySector;
  Bitmap_WriteBack uninit freeMap freeMapFile;;
  Directory_WriteBack uninit directory directoryFile;;
  mret (mkFileSystem freeMapFile directoryFile).

Definition format_FileSystem : stM S FileSystem :=
  freeMap ← lift (new_PersistentBitmap uninit NumSectors);
  format_with freeMap.

(** [FileSystem::FileSystem(FALSE)] *)
Definition open_FileSystem : stM S FileSystem :=
  freeMapFile ← new_OpenFile FreeMapSector;
  directoryFile ← new_OpenFile DirectorySector;
  mret (mkFileSystem freeMapFile directoryFile).

Definition new_FileSystem (format : bool) : stM S FileSystem :=
  if format then format_FileSystem else open_FileSystem.

(** ** Naming *)

(** [new Directory(NumDirEntries)] and [FetchFrom(directoryFile)] *)
Definition fetch_directory (fs : FileSystem) : stM S Directory :=
  Directory_FetchFrom (new_Directory uninit NumDirEntries) (directoryFile fs).

Definition FileSystem_Create (fs : FileSystem) (fname : filename) (initialSize : Z) : stM S bool :=
  directory ← fetch_directory fs;
  found ← lift (Find directory fname);
  if negb (found =? -1) then mret false
  else
    freeMap ← fetch_PersistentBitmap uninit (freeMapFile fs) NumSectors;
    '(sector, freeMap) ← lift (FindAndSet freeMap);
    if sector =? -1 then mret false
    else
      '(added, directory) ← lift (Add directory fname sector);
      if negb added then mret false
      else
        '(allocated, hdr, freeMap) ← lift (Allocate (new_FileHeader uninit) freeMap initialSize);
        if negb allocated then mret false
        else
          Header_WriteBack hdr sector;;
          Directory_WriteBack uninit directory (directoryFile fs);;
          Bitmap_WriteBack uninit freeMap (freeMapFile fs);;
          mret true.

Definition FileSystem_Open (fs : FileSystem) (fname : filename) : stM S (option OpenFile) :=
  directory ← fetch_directory fs;
  sector ← lift (Find directory fname);
  if 0 <=? sector then f ← new_OpenFile sector; mret (Some f) else mret None.

Definition FileSystem_Remove (fs : FileSystem) (fname : filename) : stM S bool :=
  directory ← fetch_directory fs;
  sector ← lift (Find directory fname);
  if sector =? -1 then mret false
  else
    fileHdr ← Header_FetchFrom sector;
    freeMap ← fetch_PersistentBitmap uninit (freeMapFile fs) NumSectors;
    freeMap ← lift (Deallocate fileHdr freeMap);
    freeMap ← lift (Clear freeMap sector);
    '(_, directory) ← lift (Remove directory fname);
    Bitmap_WriteBack uninit freeMap (freeMapFile fs);;
    Directory_WriteBack uninit directory (directoryFile fs);;
    mret true.

(** The names [List] prints. *)
Definition FileSystem_List (fs : FileSystem) : stM S (list filename) :=
  directory ← fetch_directory fs;
  lift (List_names directory).

End FileSys.
