(* ===== verification/FileSysInv.v ===== *)
(** * Consistency of the file system

    The invariant of a disk with a file system on it, and what every
    operation of filesys/filesys.cc does to it, on every branch. *)

From S2P Require Import Prelude Bitmap Disk FileHdr OpenFile Directory FileSys.

(** The header in a sector. *)
Definition hdr_at (ds : list (list Z)) (n : Z) : FileHeader := hdr_of (ds !!! Z.to_nat n).

(** The sectors of the file of a directory entry. *)
Definition entry_secs (ds : list (list Z)) (e : DirectoryEntry) : list Z :=
  sector e :: data_secs (hdr_at ds (sector e)).

(** All sectors in use. *)
Definition owned (mh dh : FileHeader) (ds : list (list Z)) (t : list DirectoryEntry) : list Z :=
  [FreeMapSector; DirectorySector] ++ data_secs mh ++ data_secs dh ++ concat (entry_secs ds <$> used t).

(** What a user sees: names and contents. *)
Definition fs_files (ds : list (list Z)) (t : list DirectoryEntry) : gmap (list Z) (list Z) :=
  list_to_map ((fun e => (entry_key e, file_data ds (hdr_at ds (sector e)))) <$> used t).

Lemma files_keys ds (es : list DirectoryEntry) :
  ((fun e => (entry_key e, file_data ds (hdr_at ds (sector e)))) <$> es).*1 = entry_key <$> es.
Proof. by rewrite <- list_fmap_compose. Qed.

Section Invariant.
Context {S : Type} `{!SectorDisk S} (uninit : nat -> Z).
Implicit Types (s : S) (fs : FileSystem) (ds : list (list Z)) (t : list DirectoryEntry).

Record fs_inv s fs ds t (bm : Bitmap) : Prop := {
  inv_disk : contents s ds;
  inv_map_hdr : hdr_ok (hdr (freeMapFile fs)) /\ numBytes (hdr (freeMapFile fs)) = FreeMapFileSize /\
    hdr_at ds FreeMapSector = hdr (freeMapFile fs);
  inv_dir_hdr : hdr_ok (hdr (directoryFile fs)) /\ numBytes (hdr (directoryFile fs)) = DirectoryFileSize /\
    hdr_at ds DirectorySector = hdr (directoryFile fs);
  inv_map : file_data ds (hdr (freeMapFile fs)) = ints_bytes (words bm);
  inv_dir : file_data ds (hdr (directoryFile fs)) = table_bytes t;
  inv_table : length t = Z.to_nat NumDirEntries /\ Forall entry_wf t;
  inv_names : NoDup (entry_key <$> used t);
  inv_hdrs : Forall (fun e => hdr_ok (hdr_at ds (sector e))) (used t);
  inv_free : free_map bm (owned (hdr (freeMapFile fs)) (hdr (directoryFile fs)) ds t)
}.

(** ** Frames *)

(** Only sectors of [X] differ. *)
Definition same_outside (X : list Z) ds ds' : Prop :=
  forall n, 0 <= n -> n ∉ X -> ds' !! Z.to_nat n = ds !! Z.to_nat n.

Lemma same_outside_trans X Y ds1 ds2 ds3 :
  same_outside X ds1 ds2 -> same_outside Y ds2 ds3 -> same_outside (X ++ Y) ds1 ds3.
Proof. intros H1 H2 n Hn Hx. rewrite H2, H1 by set_solver. done. Qed.

Lemma same_hdr_at X ds ds' n : same_outside X ds ds' -> 0 <= n -> n ∉ X -> hdr_at ds' n = hdr_at ds n.
Proof. intros Hs Hn Hx. unfold hdr_at. by rewrite !list_lookup_total_alt, Hs. Qed.

Lemma same_file_data X ds ds' h :
  same_outside X ds ds' -> hdr_ok h -> (forall n, n ∈ data_secs h -> n ∉ X) ->
  file_data ds' h = file_data ds h.
Proof.
  intros Hs Hok Hx. destruct (numBytes_bound _ Hok). unfold file_data. apply list_fmap_ext.
  intros i k Hk. apply lookup_seq in Hk as [-> Hk]. rewrite Nat.add_0_l. f_equal. unfold file_byte.
  pose proof (Nat.div_mod_eq i 128) as Ei. pose proof (Nat.mod_upper_bound i 128 ltac:(lia)).
  destruct (data_sector h (Z.of_nat (i / 128)) Hok) as (n & _ & Hn & Hn' & Hr); [lia | ].
  rewrite Nat2Z.id in *. rewrite Hn'. simpl. rewrite Hs; [done | lia | ].
  apply Hx. by eapply list_elem_of_lookup_2.
Qed.

Lemma same_outside_insert ds n data :
  0 <= n -> same_outside [n] ds (<[Z.to_nat n := data]> ds).
Proof. intros Hn k Hk Hx. apply list_lookup_insert_ne. set_solver by lia. Qed.

(** ** Reading the two files *)

Lemma fetch_directory_spec s fs ds t bm :
  fs_inv s fs ds t bm ->
  exists s', fetch_directory uninit fs s = Ok (mkDirectory NumDirEntries t, s') /\ contents s' ds.
Proof.
  intros Hi. destruct (inv_dir_hdr _ _ _ _ _ Hi) as (Hok & Hn & _).
  destruct (inv_table _ _ _ _ _ Hi) as [Hl Hw].
  destruct (new_Directory_wf uninit NumDirEntries ltac:(done)) as (Ht & Hl0 & Hw0 & _).
  unfold fetch_directory, Directory_FetchFrom. rewrite Ht.
  destruct (ReadAt_spec s ds (directoryFile fs) (NumDirEntries * sizeof_DirectoryEntry) 0
    (inv_disk _ _ _ _ _ Hi) Hok) as (s' & E & Hc); [lia | done | ].
  unfold mbind, stM_bind. rewrite E. exists s'. split; [ | done].
  assert (trimmed (hdr (directoryFile fs)) (NumDirEntries * sizeof_DirectoryEntry) 0 = 200) as ->
    by (unfold trimmed; rewrite Hn; reflexivity).
  change (Z.to_nat 0) with 0%nat. rewrite drop_0.
  rewrite take_ge by (rewrite length_file_data, Hn; done).
  rewrite drop_ge by (rewrite length_table_bytes, Hl0, length_file_data, Hn by done; done).
  rewrite app_nil_r, (inv_dir _ _ _ _ _ Hi), <- Hl, table_of_bytes by done. done.
Qed.

Lemma fetch_bitmap_spec s fs ds t bm :
  fs_inv s fs ds t bm ->
  exists s', fetch_PersistentBitmap uninit (freeMapFile fs) NumSectors s = Ok (bm, s') /\ contents s' ds.
Proof.
  intros Hi. destruct (inv_map_hdr _ _ _ _ _ Hi) as (Hok & Hn & _).
  pose proof (fm_wf _ _ (inv_free _ _ _ _ _ Hi)) as [_ Hw Hl Hu].
  pose proof (fm_size _ _ (inv_free _ _ _ _ _ Hi)) as Hsz.
  destruct bm as [nb nw ws]. cbn [numBits numWords words] in *. subst nb.
  assert (nw = 32) as -> by (rewrite Hw; reflexivity).
  destruct (new_Bitmap_spec uninit NumSectors eq_refl) as (b & Eb & [_ Hw0 Hl0 _] & Hn0 & _).
  assert (numWords b = 32) as Hnw by (rewrite Hw0, Hn0; reflexivity).
  unfold fetch_PersistentBitmap, Bitmap_FetchFrom, mbind, stM_bind, lift. rewrite Eb, Hnw, Hn0. clear Eb Hw0 Hw.
  destruct (ReadAt_spec s ds (freeMapFile fs) (32 * 4) 0 (inv_disk _ _ _ _ _ Hi) Hok)
    as (s' & E & Hc); [lia | done | ].
  rewrite E. exists s'. split; [ | done].
  assert (trimmed (hdr (freeMapFile fs)) (32 * 4) 0 = 128) as ->
    by (unfold trimmed; rewrite Hn; reflexivity).
  change (Z.to_nat 0) with 0%nat. rewrite drop_0.
  rewrite take_ge by (rewrite length_file_data, Hn; done).
  rewrite drop_ge by (rewrite length_ints_bytes, length_file_data, Hn; change (Z.to_nat FreeMapFileSize) with 128%nat; lia).
  rewrite app_nil_r, (inv_map _ _ _ _ _ Hi). cbn [words]. unfold mret, stM_ret. do 3 f_equal.
  apply list_eq. intros i. rewrite list_lookup_fmap. change (Z.to_nat 32) with 32%nat.
  destruct (ws !! i) as [w | ] eqn:Ew.
  - pose proof (lookup_lt_Some _ _ _ Ew). rewrite lookup_seq_lt by lia. simpl.
    rewrite (word_of_ints _ _ w) by done. f_equal. apply to_u32_id. by eapply (Forall_lookup_1 _ _ _ _ Hu).
  - apply lookup_ge_None in Ew. rewrite lookup_seq_ge by lia. done.
Qed.

(** ** Writing the two files *)

Lemma write_all s ds f bs :
  contents s ds -> hdr_ok (hdr f) -> numBytes (hdr f) = Z.of_nat (length bs) -> Forall is_byte bs ->
  exists s' ds', WriteAt uninit f bs (Z.of_nat (length bs)) 0 s = Ok (Z.of_nat (length bs), s') /\
    contents s' ds' /\ same_outside (data_secs (hdr f)) ds ds' /\ file_data ds' (hdr f) = bs.
Proof.
  intros Hc Hok Hn Hb. destruct (hdr_ok_i32 _ Hok) as [H32 _].
  destruct (WriteAt_spec uninit s ds f bs (Z.of_nat (length bs)) 0 Hc Hok)
    as (s' & ds' & E & Hc' & Ho & Hd); [lia | rewrite Hn in H32; done | lia | done | ].
  assert (trimmed (hdr f) (Z.of_nat (length bs)) 0 = Z.of_nat (length bs)) as Et.
  { unfold trimmed. rewrite Hn. destruct ((Z.of_nat (length bs) <=? 0) || (Z.of_nat (length bs) <=? 0)) eqn:Eb; [ | lia].
    apply orb_true_iff in Eb as [? | ?]; bool_prop; lia. }
  rewrite Et in E, Hd. exists s', ds'. split_and!; [done | done | | ].
  - intros n Hn0 Hx. apply Ho. by rewrite Z2Nat.id.
  - rewrite Hd. change (Z.to_nat 0) with 0%nat. rewrite Nat2Z.id, take_0, (take_ge bs) by done.
    rewrite drop_ge by (rewrite length_file_data, Hn; lia). by rewrite app_nil_r.
Qed.

Lemma directory_flush s ds f t :
  contents s ds -> hdr_ok (hdr f) -> numBytes (hdr f) = DirectoryFileSize ->
  length t = Z.to_nat NumDirEntries -> Forall entry_wf t ->
  exists s' ds', Directory_WriteBack uninit (mkDirectory NumDirEntries t) f s = Ok (tt, s') /\
    contents s' ds' /\ same_outside (data_secs (hdr f)) ds ds' /\ file_data ds' (hdr f) = table_bytes t.
Proof.
  intros Hc Hok Hn Hl Hw. pose proof (length_table_bytes t Hw) as Hlen. rewrite Hl in Hlen.
  change (20 * Z.to_nat NumDirEntries)%nat with 200%nat in Hlen.
  destruct (write_all s ds f (table_bytes t) Hc Hok) as (s' & ds' & E & ? & ? & ?);
    [by rewrite Hn, Hlen | by apply table_bytes_byte | ].
  exists s', ds'. split; [ | done]. unfold Directory_WriteBack, mbind, stM_bind. cbn [table tableSize].
  rewrite Hlen in E. change (NumDirEntries * sizeof_DirectoryEntry) with (Z.of_nat 200). by rewrite E.
Qed.

Lemma bitmap_flush s ds f bm o :
  contents s ds -> hdr_ok (hdr f) -> numBytes (hdr f) = FreeMapFileSize -> free_map bm o ->
  exists s' ds', Bitmap_WriteBack uninit bm f s = Ok (tt, s') /\
    contents s' ds' /\ same_outside (data_secs (hdr f)) ds ds' /\ file_data ds' (hdr f) = ints_bytes (words bm).
Proof.
  intros Hc Hok Hn Hf. destruct (fm_wf _ _ Hf) as [_ Hw Hl _]. rewrite (fm_size _ _ Hf) in Hw.
  assert (numWords bm = 32) as Hnw by (rewrite Hw; reflexivity).
  assert (length (ints_bytes (words bm)) = 128%nat) as Hlen by (rewrite length_ints_bytes; lia).
  destruct (write_all s ds f (ints_bytes (words bm)) Hc Hok) as (s' & ds' & E & ? & ? & ?);
    [by rewrite Hn, Hlen | apply ints_bytes_byte | ].
  exists s', ds'. split; [ | done]. unfold Bitmap_WriteBack, mbind, stM_bind. rewrite Hnw.
  rewrite Hlen in E. change (32 * 4) with (Z.of_nat 128). by rewrite E.
Qed.

(** ** Whose sector is it *)

Lemma inv_state s s' fs ds t bm : fs_inv s fs ds t bm -> contents s' ds -> fs_inv s' fs ds t bm.
Proof. by intros [_ ? ? ? ? ? ? ? ?] Hc. Qed.

Lemma entry_secs_in ds t e n :
  e ∈ used t -> n ∈ entry_secs ds e -> n ∈ concat (entry_secs ds <$> used t).
Proof.
  intros He Hn. apply list_elem_of_In, in_concat. exists (entry_secs ds e).
  split; apply list_elem_of_In; [by apply list_elem_of_fmap_2 | done].
Qed.

(** The sectors of a file are on the disk and are not the file system's own. *)
Lemma entry_apart s fs ds t bm e n :
  fs_inv s fs ds t bm -> e ∈ used t -> n ∈ entry_secs ds e ->
  0 <= n < NumSectors /\ n <> FreeMapSector /\ n <> DirectorySector /\
  n ∉ data_secs (hdr (freeMapFile fs)) /\ n ∉ data_secs (hdr (directoryFile fs)).
Proof.
  intros Hi He Hn. pose proof (entry_secs_in ds t e n He Hn) as Hc.
  destruct (inv_free _ _ _ _ _ Hi) as [_ _ Hr Hnd _]. unfold owned in *.
  rewrite Forall_forall in Hr. split; [apply Hr; rewrite !elem_of_app; auto | ].
  apply NoDup_app in Hnd as (_ & Hd0 & Hnd). apply NoDup_app in Hnd as (_ & Hd1 & Hnd).
  apply NoDup_app in Hnd as (_ & Hd2 & _).
  split_and!.
  - intros ->. apply (Hd0 FreeMapSector); [by left | rewrite !elem_of_app; auto].
  - intros ->. apply (Hd0 DirectorySector); [by right; left | rewrite !elem_of_app; auto].
  - intros Hm. apply (Hd1 n Hm). rewrite elem_of_app; auto.
  - intros Hm. by apply (Hd2 n Hm).
Qed.

Lemma own_apart s fs ds t bm n :
  fs_inv s fs ds t bm -> n ∈ [FreeMapSector; DirectorySector] ->
  n ∉ data_secs (hdr (freeMapFile fs)) /\ n ∉ data_secs (hdr (directoryFile fs)).
Proof.
  intros Hi Hn. destruct (inv_free _ _ _ _ _ Hi) as [_ _ _ Hnd _]. unfold owned in *.
  apply NoDup_app in Hnd as (_ & Hd0 & _). specialize (Hd0 n Hn). rewrite !elem_of_app in Hd0. tauto.
Qed.

Lemma files_apart s fs ds t bm n :
  fs_inv s fs ds t bm -> n ∈ data_secs (hdr (freeMapFile fs)) -> n ∉ data_secs (hdr (directoryFile fs)).
Proof.
  intros Hi Hn. destruct (inv_free _ _ _ _ _ Hi) as [_ _ _ Hnd _]. unfold owned in *.
  apply NoDup_app in Hnd as (_ & _ & Hnd). apply NoDup_app in Hnd as (_ & Hd & _).
  specialize (Hd n Hn). rewrite !elem_of_app in Hd. tauto.
Qed.

Lemma entry_hdr s fs ds t bm e :
  fs_inv s fs ds t bm -> e ∈ used t -> hdr_ok (hdr_at ds (sector e)) /\ 0 <= sector e < NumSectors.
Proof.
  intros Hi He. split.
  - pose proof (inv_hdrs _ _ _ _ _ Hi) as Hh. rewrite Forall_forall in Hh. by apply Hh.
  - eapply (entry_apart _ _ _ _ _ _ (sector e) Hi He). by left.
Qed.

(** A change of sectors that are none of the entry's leaves its file alone. *)
Lemma entry_same X ds ds' e :
  same_outside X ds ds' -> hdr_ok (hdr_at ds (sector e)) -> 0 <= sector e ->
  (forall n, n ∈ entry_secs ds e -> n ∉ X) ->
  hdr_at ds' (sector e) = hdr_at ds (sector e) /\ entry_secs ds' e = entry_secs ds e /\
  file_data ds' (hdr_at ds' (sector e)) = file_data ds (hdr_at ds (sector e)).
Proof.
  intros Hs Hok Hn Hx. assert (hdr_at ds' (sector e) = hdr_at ds (sector e)) as E.
  { eapply same_hdr_at; [done.. | ]. apply Hx. by left. }
  split; [done | ]. unfold entry_secs. rewrite E. split; [done | ].
  eapply same_file_data; [done.. | ]. intros n Hn'. apply Hx. by right.
Qed.

Lemma entries_same X ds ds' (es : list DirectoryEntry) :
  same_outside X ds ds' ->
  (forall e, e ∈ es -> hdr_ok (hdr_at ds (sector e)) /\ 0 <= sector e /\
     forall n, n ∈ entry_secs ds e -> n ∉ X) ->
  entry_secs ds' <$> es = entry_secs ds <$> es /\
  (fun e => (entry_key e, file_data ds' (hdr_at ds' (sector e)))) <$> es =
    (fun e => (entry_key e, file_data ds (hdr_at ds (sector e)))) <$> es /\
  Forall (fun e => hdr_ok (hdr_at ds' (sector e))) es.
Proof.
  intros Hs He. split_and!.
  - apply list_fmap_ext. intros i e Hi. apply list_elem_of_lookup_2, He in Hi as (? & ? & ?).
    by eapply entry_same.
  - apply list_fmap_ext. intros i e Hi. apply list_elem_of_lookup_2, He in Hi as (? & ? & ?).
    simpl. f_equal. by eapply entry_same.
  - apply Forall_forall. intros e (? & ? & ?)%He.
    destruct (entry_same X ds ds' e) as (-> & _); done.
Qed.

(** The invariant after a change of the directory, the map and the sectors
    of [X]. *)
Lemma fs_inv_change X s s' fs ds ds' t t' bm bm' :
  fs_inv s fs ds t bm -> contents s' ds' ->
  same_outside (X ++ data_secs (hdr (directoryFile fs)) ++ data_secs (hdr (freeMapFile fs))) ds ds' ->
  FreeMapSector ∉ X -> DirectorySector ∉ X ->
  file_data ds' (hdr (freeMapFile fs)) = ints_bytes (words bm') ->
  file_data ds' (hdr (directoryFile fs)) = table_bytes t' ->
  length t' = length t -> Forall entry_wf t' -> NoDup (entry_key <$> used t') ->
  Forall (fun e => hdr_ok (hdr_at ds' (sector e))) (used t') ->
  free_map bm' (owned (hdr (freeMapFile fs)) (hdr (directoryFile fs)) ds' t') ->
  fs_inv s' fs ds' t' bm'.
Proof.
  intros Hi Hc Hs H0 H1 Hm Hd Hl Hw Hn Hh Hf.
  destruct (own_apart _ _ _ _ _ FreeMapSector Hi) as [? ?]; [by left | ].
  destruct (own_apart _ _ _ _ _ DirectorySector Hi) as [? ?]; [by right; left | ].
  destruct Hi as [_ (Hm1 & Hm2 & Hm3) (Hd1 & Hd2 & Hd3) _ _ [Ht _] _ _ _].
  split; try done.
  - split_and!; [done.. | ]. rewrite <- Hm3. eapply same_hdr_at; [done | done | rewrite !elem_of_app; tauto].
  - split_and!; [done.. | ]. rewrite <- Hd3. eapply same_hdr_at; [done | done | rewrite !elem_of_app; tauto].
  - by rewrite Hl.
Qed.

(** ** Create *)

(** The last steps of [Create], once everything is allocated. *)
Lemma create_flush s fs ds t t' bm bm' sec h e :
  fs_inv s fs ds t bm -> hdr_ok h ->
  free_map bm' (data_secs h ++ sec :: owned (hdr (freeMapFile fs)) (hdr (directoryFile fs)) ds t) ->
  length t' = length t -> Forall entry_wf t' -> sector e = sec ->
  used t' ≡ₚ e :: used t -> entry_key e ∉ entry_key <$> used t ->
  exists s' ds',
    (Header_WriteBack h sec;;
     Directory_WriteBack uninit (mkDirectory NumDirEntries t') (directoryFile fs);;
     Bitmap_WriteBack uninit bm' (freeMapFile fs);; mret true : stM S bool) s = Ok (true, s') /\
    fs_inv s' fs ds' t' bm' /\ hdr_at ds' sec = h /\
    fs_files ds' t' = <[entry_key e := file_data ds' h]> (fs_files ds t).
Proof.
  intros Hi Hok Hf Hl Hw Hsec Hu Hkey.
  pose proof (fm_range _ _ Hf) as Hr. pose proof (fm_nodup _ _ Hf) as Hnd.
  rewrite <- Permutation_middle in Hr, Hnd. apply Forall_cons in Hr as [Hsr Hr].
  apply NoDup_cons in Hnd as [Hsn Hnd]. apply NoDup_app in Hnd as (_ & Hdh & _).
  destruct (inv_map_hdr _ _ _ _ _ Hi) as (Hm1 & Hm2 & Hm3).
  destruct (inv_dir_hdr _ _ _ _ _ Hi) as (Hd1 & Hd2 & Hd3).
  destruct (inv_table _ _ _ _ _ Hi) as [Ht _].
  (* the three writes *)
  unfold Header_WriteBack. pose proof (hdr_bytes_wf h (ok_length _ Hok)) as Hbw.
  destruct (write_sector s ds sec (hdr_bytes h) (inv_disk _ _ _ _ _ Hi) Hsr Hbw) as (s1 & E1 & Hc1).
  destruct (directory_flush s1 _ (directoryFile fs) t' Hc1 Hd1 Hd2) as (s2 & ds2 & E2 & Hc2 & Hs2 & Hf2);
    [by rewrite Hl | done | ].
  destruct (bitmap_flush s2 ds2 (freeMapFile fs) bm' _ Hc2 Hm1 Hm2 Hf) as (s3 & ds3 & E3 & Hc3 & Hs3 & Hf3).
  unfold mbind, stM_bind. rewrite E1, E2, E3. exists s3, ds3. split; [done | ].
  (* what changed *)
  set (M := data_secs (hdr (freeMapFile fs))) in *. set (D := data_secs (hdr (directoryFile fs))) in *.
  set (O := owned (hdr (freeMapFile fs)) (hdr (directoryFile fs)) ds t) in *.
  assert (forall n, n ∈ M \/ n ∈ D \/ n ∈ [FreeMapSector; DirectorySector] \/
    n ∈ concat (entry_secs ds <$> used t) -> n ∈ O) as HO.
  { intros n Hn. unfold O, owned. fold M D. rewrite !elem_of_app. tauto. }
  assert (sec ∉ data_secs h /\ sec ∉ O) as [Hsh HsO] by (rewrite elem_of_app in Hsn; tauto).
  assert (same_outside ([sec] ++ D ++ M) ds ds3) as Hsame.
  { eapply same_outside_trans; [apply same_outside_insert; lia | ].
    eapply same_outside_trans; [exact Hs2 | exact Hs3]. }
  assert (same_outside (D ++ M) (<[Z.to_nat sec := hdr_bytes h]> ds) ds3) as Hsame'.
  { eapply same_outside_trans; [exact Hs2 | exact Hs3]. }
  assert (Z.to_nat sec < length ds)%nat as Hlt.
  { destruct (contents_wf _ _ (inv_disk _ _ _ _ _ Hi)) as [-> _].
    change NumSectors with 1024 in *. lia. }
  assert (hdr_at ds3 sec = h) as Eh.
  { unfold hdr_at. rewrite list_lookup_total_alt, Hsame', list_lookup_insert_eq; [ | done | lia | ].
    - simpl. by apply hdr_ok_roundtrip.
    - rewrite elem_of_app. intros [? | ?]; apply HsO, HO; tauto. }
  destruct (entries_same ([sec] ++ D ++ M) ds ds3 (used t) Hsame) as (Es & Ef & Eok).
  { intros e0 He0. destruct (entry_hdr _ _ _ _ _ _ Hi He0) as [Hh0 [Hn0 _]]. split_and!; [done.. | ].
    intros n Hn. destruct (entry_apart _ _ _ _ _ _ _ Hi He0 Hn) as (_ & _ & _ & Hm & Hd).
    rewrite !elem_of_app, list_elem_of_singleton. intros [-> | [? | ?]]; try done.
    apply HsO, HO. right. right. right. by eapply entry_secs_in. }
  assert (sec ∉ [FreeMapSector; DirectorySector]) as Hs01 by (intros ?; apply HsO, HO; tauto).
  split_and!; [ | done | ].
  - eapply (fs_inv_change [sec]); try done.
    + intros Hx%list_elem_of_singleton. apply Hs01. rewrite <- Hx. by left.
    + intros Hx%list_elem_of_singleton. apply Hs01. rewrite <- Hx. by right; left.
    + rewrite (same_file_data M ds2 ds3 _ Hs3 Hd1); [done | ].
      intros n Hn Hn'. by eapply files_apart.
    + rewrite Hu, fmap_cons. constructor; [done | apply Hi].
    + rewrite Hu. constructor; [by rewrite Hsec, Eh | done].
    + eapply free_map_perm; [exact Hf | ]. unfold O, owned. rewrite Hu, fmap_cons. cbn [concat].
      rewrite Es. unfold entry_secs at 2. rewrite Hsec, Eh. fold M D. solve_Permutation.
  - unfold fs_files. etransitivity; [apply list_to_map_proper; [ | by rewrite Hu] | ].
    + rewrite files_keys, Hu, fmap_cons. constructor; [done | apply Hi].
    + rewrite fmap_cons, Ef. simpl. by rewrite Hsec, Eh.
Qed.

(** The number of sectors in use. *)
Definition num_owned fs ds t : Z :=
  Z.of_nat (length (owned (hdr (freeMapFile fs)) (hdr (directoryFile fs)) ds t)).

Lemma new_FileHeader_wf :
  length (dataSectors (new_FileHeader uninit)) = Z.to_nat NumDirect /\
  Forall is_i32 (dataSectors (new_FileHeader uninit)).
Proof.
  unfold new_FileHeader, hdr_of. cbn [dataSectors]. split; [by rewrite length_fmap, length_seq | ].
  apply Forall_fmap, Forall_true. intros i. apply to_i32_range.
Qed.

(** [Create] on every branch. *)
Lemma FS_Create_spec s fs ds t bm fname size :
  fs_inv s fs ds t bm -> name_wf fname -> 0 <= size ->
  let k := take 9 fname in
  let n := divRoundUp size SectorSize in
  if bool_decide (k ∈ entry_key <$> used t) || bool_decide (length (used t) = length t) ||
     (NumSectors <? num_owned fs ds t + 1 + n)
  then exists s', FileSystem_Create uninit fs fname size s = Ok (false, s') /\ contents s' ds
  else if n <=? NumDirect then
    exists s' ds' t' bm' data, FileSystem_Create uninit fs fname size s = Ok (true, s') /\
      fs_inv s' fs ds' t' bm' /\ fs_files ds' t' = <[k := data]> (fs_files ds t) /\
      Z.of_nat (length data) = size
  else FileSystem_Create uninit fs fname size s = Fail Undefined.
Proof.
  intros Hi Hwf Hsz k n. destruct (sectors_of_size size Hsz) as [Hn0 _]. fold n in Hn0.
  destruct (fetch_directory_spec _ _ _ _ _ Hi) as (s1 & E1 & Hc1).
  pose proof (inv_state _ _ _ _ _ _ Hi Hc1) as Hi1.
  destruct (fetch_bitmap_spec _ _ _ _ _ Hi1) as (s2 & E2 & Hc2).
  pose proof (inv_state _ _ _ _ _ _ Hi Hc2) as Hi2.
  destruct (inv_table _ _ _ _ _ Hi) as [Hl Hw]. pose proof (inv_free _ _ _ _ _ Hi) as Hf.
  remember (FileSystem_Create uninit fs fname size s) as R eqn:ER.
  unfold FileSystem_Create, mbind at 1, stM_bind at 1 in ER. rewrite E1 in ER.
  unfold mbind at 1, stM_bind at 1, lift at 1 in ER.
  destruct (Find_spec (mkDirectory NumDirEntries t) fname Hwf Hl) as [(e & EF & He & Hk) | [EF Hk]];
    rewrite EF in ER; cbn [table] in *.
  { rewrite (bool_decide_eq_true_2 (k ∈ _)) by (unfold k; rewrite <- Hk; by apply list_elem_of_fmap_2).
    destruct (entry_hdr _ _ _ _ _ _ Hi He) as [_ Hr].
    rewrite (proj2 (Z.eqb_neq _ _)) in ER by lia. exists s1. split; [exact ER | exact Hc1]. }
  rewrite (bool_decide_eq_false_2 (k ∈ _)) by exact Hk. cbn [orb].
  change (negb (-1 =? -1)) with false in ER. cbv iota in ER.
  unfold mbind at 1, stM_bind at 1 in ER. rewrite E2 in ER.
  unfold mbind at 1, stM_bind at 1, lift at 1 in ER.
  unfold num_owned. set (o := owned _ _ ds t) in *.
  pose proof (free_map_le _ _ Hf) as Hle. fold o in Hle.
  destruct (decide (Z.of_nat (length o) = NumSectors)) as [Hfull | Hfree].
  { destruct (free_map_full _ _ Hf Hfull) as (b' & EA). rewrite EA in ER.
    assert (NumSectors <? Z.of_nat (length o) + 1 + n = true) as -> by (apply Z.ltb_lt; lia).
    rewrite orb_true_r. exists s2. split; [exact ER | exact Hc2]. }
  destruct (free_map_FindAndSet _ _ Hf) as (r & b1 & EA & Hr & Hro & Hf1); [fold o; lia | ].
  rewrite EA, (proj2 (Z.eqb_neq r (-1))) in ER by lia.
  unfold mbind at 1, stM_bind at 1, lift at 1 in ER.
  pose proof (Add_spec (mkDirectory NumDirEntries t) fname r Hwf Hl Hw (sector_i32 _ Hr) Hk) as Ha.
  cbn [table tableSize] in Ha. case_bool_decide as Hall.
  { rewrite Ha in ER. exists s2. split; [exact ER | exact Hc2]. }
  destruct Ha as (e & d' & Ea & Hts & Hl' & Hw' & Hsec & Hkey & Hu). rewrite Ea in ER. cbn [orb].
  unfold mbind at 1, stM_bind at 1, lift at 1 in ER. cbn [negb] in ER. cbv iota in ER.
  destruct new_FileHeader_wf as [Hnl Hni].
  pose proof (Allocate_spec (new_FileHeader uninit) b1 _ size Hf1 Hnl Hni Hsz) as Hal.
  cbv zeta in Hal. fold o n in Hal. change (length (r :: o)) with (Datatypes.S (length o)) in Hal.
  replace (NumSectors <? Z.of_nat (length o) + 1 + n) with (NumSectors - Z.of_nat (Datatypes.S (length o)) <? n).
  2:{ destruct (Z.ltb_spec (NumSectors - Z.of_nat (Datatypes.S (length o))) n),
        (Z.ltb_spec NumSectors (Z.of_nat (length o) + 1 + n)); lia. }
  destruct (NumSectors - Z.of_nat (Datatypes.S (length o)) <? n).
  { destruct Hal as (h' & EL). rewrite EL in ER. exists s2. split; [exact ER | exact Hc2]. }
  destruct (n <=? NumDirect); [ | by rewrite Hal in ER].
  destruct Hal as (h' & b2 & EL & Hok & Hnb & Hf2). rewrite EL in ER. cbn [negb] in ER. cbv iota in ER.
  destruct d' as [ts t']. cbn [table tableSize] in *. subst ts.
  destruct (create_flush s2 fs ds t t' bm b2 r h' e Hi2 Hok Hf2 Hl' Hw' Hsec Hu)
    as (s3 & ds3 & E3 & Hi3 & Hh & Hfiles); [by rewrite Hkey | ].
  exists s3, ds3, t', b2, (file_data ds3 h'). unfold k. rewrite <- Hkey.
  split_and!; [by rewrite ER | exact Hi3 | exact Hfiles | ].
  rewrite length_file_data, Hnb. lia.
Qed.

(** ** Open *)

Lemma Header_fetch s ds n :
  contents s ds -> 0 <= n < NumSectors ->
  exists s', Header_FetchFrom n s = Ok (hdr_at ds n, s') /\ contents s' ds.
Proof.
  intros Hc Hn. destruct (read_sector s ds n Hc Hn) as (data & s' & E & Hd & Hc').
  exists s'. split; [ | done]. unfold Header_FetchFrom, mbind, stM_bind. rewrite E.
  unfold hdr_at. by rewrite (list_lookup_total_correct _ _ _ Hd).
Qed.

Lemma new_OpenFile_spec s ds n :
  contents s ds -> 0 <= n < NumSectors ->
  exists s', new_OpenFile n s = Ok (mkOpenFile (hdr_at ds n) 0, s') /\ contents s' ds.
Proof.
  intros Hc Hn. destruct (Header_fetch s ds n Hc Hn) as (s' & E & Hc').
  exists s'. split; [ | done]. unfold new_OpenFile, mbind, stM_bind. by rewrite E.
Qed.

Lemma FS_Open_spec s fs ds t bm fname :
  fs_inv s fs ds t bm -> name_wf fname ->
  exists s', contents s' ds /\
    ((exists e, e ∈ used t /\ entry_key e = take 9 fname /\
        FileSystem_Open uninit fs fname s = Ok (Some (mkOpenFile (hdr_at ds (sector e)) 0), s')) \/
     (take 9 fname ∉ entry_key <$> used t /\ FileSystem_Open uninit fs fname s = Ok (None, s'))).
Proof.
  intros Hi Hwf. destruct (fetch_directory_spec _ _ _ _ _ Hi) as (s1 & E1 & Hc1).
  destruct (inv_table _ _ _ _ _ Hi) as [Hl Hw].
  unfold FileSystem_Open, mbind, stM_bind, lift. rewrite E1.
  destruct (Find_spec (mkDirectory NumDirEntries t) fname Hwf Hl) as [(e & -> & He & Hk) | [-> Hk]];
    cbn [table] in *.
  - destruct (entry_hdr _ _ _ _ _ _ Hi He) as [_ Hr].
    rewrite (proj2 (Z.leb_le _ _)) by lia.
    destruct (new_OpenFile_spec s1 ds (sector e) Hc1 Hr) as (s2 & E2 & Hc2).
    exists s2. split; [exact Hc2 | left]. exists e. rewrite E2. split_and!; [exact He | exact Hk | reflexivity].
  - exists s1. split; [exact Hc1 | right]. split; [exact Hk | reflexivity].
Qed.

(** ** The files *)

Lemma files_lookup_Some s fs ds t bm e :
  fs_inv s fs ds t bm -> e ∈ used t ->
  fs_files ds t !! entry_key e = Some (file_data ds (hdr_at ds (sector e))).
Proof.
  intros Hi He. unfold fs_files. apply elem_of_list_to_map_1.
  - rewrite files_keys. apply Hi.
  - apply list_elem_of_fmap. by exists e.
Qed.

Lemma files_lookup_None ds t k : k ∉ entry_key <$> used t -> fs_files ds t !! k = None.
Proof. intros Hk. apply not_elem_of_list_to_map_1. by rewrite files_keys. Qed.

Lemma files_insert ds (es es' : list DirectoryEntry) e ds' :
  es' ≡ₚ e :: es -> NoDup (entry_key <$> es') ->
  (fun e => (entry_key e, file_data ds' (hdr_at ds' (sector e)))) <$> es =
    (fun e => (entry_key e, file_data ds (hdr_at ds (sector e)))) <$> es ->
  list_to_map ((fun e => (entry_key e, file_data ds' (hdr_at ds' (sector e)))) <$> es') =
    <[entry_key e := file_data ds' (hdr_at ds' (sector e))]>
      (list_to_map ((fun e => (entry_key e, file_data ds (hdr_at ds (sector e)))) <$> es) : gmap (list Z) (list Z)).
Proof.
  intros Hp Hnd Hs. etransitivity; [apply list_to_map_proper; [by rewrite files_keys | by rewrite Hp] | ].
  by rewrite fmap_cons, Hs.
Qed.

(** One file among the others. *)
Lemma pick_entry s fs ds t bm e :
  fs_inv s fs ds t bm -> e ∈ used t ->
  exists rest, used t ≡ₚ e :: rest /\
    forall n, n ∈ entry_secs ds e -> forall e', e' ∈ rest -> n ∉ entry_secs ds e'.
Proof.
  intros Hi He. apply elem_of_Permutation in He as [rest Hp]. exists rest. split; [done | ].
  destruct (inv_free _ _ _ _ _ Hi) as [_ _ _ Hnd _]. unfold owned in Hnd.
  apply NoDup_app in Hnd as (_ & _ & Hnd). apply NoDup_app in Hnd as (_ & _ & Hnd).
  apply NoDup_app in Hnd as (_ & _ & Hnd). rewrite Hp, fmap_cons in Hnd. cbn [concat] in Hnd.
  apply NoDup_app in Hnd as (_ & Hd & _). intros n Hn e' He' Hn'. apply (Hd n Hn).
  apply list_elem_of_In, in_concat. exists (entry_secs ds e').
  split; apply list_elem_of_In; [by apply list_elem_of_fmap_2 | done].
Qed.

Lemma entry_nodup s fs ds t bm e :
  fs_inv s fs ds t bm -> e ∈ used t -> sector e ∉ data_secs (hdr_at ds (sector e)).
Proof.
  intros Hi He. apply elem_of_Permutation in He as [rest Hp].
  destruct (inv_free _ _ _ _ _ Hi) as [_ _ _ Hnd _]. unfold owned in Hnd.
  apply NoDup_app in Hnd as (_ & _ & Hnd). apply NoDup_app in Hnd as (_ & _ & Hnd).
  apply NoDup_app in Hnd as (_ & _ & Hnd). rewrite Hp, fmap_cons in Hnd. cbn [concat] in Hnd.
  apply NoDup_app in Hnd as (Hnd & _ & _). unfold entry_secs in Hnd. by apply NoDup_cons in Hnd as [? _].
Qed.

(** Writing to a file changes its contents and no other file. *)
Lemma FS_Write_spec s fs ds t bm e from n pos :
  fs_inv s fs ds t bm -> e ∈ used t -> 0 <= pos ->
  is_i32 (pos + n) -> n <= Z.of_nat (length from) -> Forall is_byte from ->
  let c := file_data ds (hdr_at ds (sector e)) in
  let m := trimmed (hdr_at ds (sector e)) n pos in
  let b := take (Z.to_nat m) from in
  let p := Z.to_nat pos in
  exists s' ds', WriteAt uninit (mkOpenFile (hdr_at ds (sector e)) 0) from n pos s = Ok (m, s') /\
    fs_inv s' fs ds' t bm /\ hdr_at ds' (sector e) = hdr_at ds (sector e) /\
    fs_files ds' t = <[entry_key e := take p c ++ b ++ drop (p + length b) c]> (fs_files ds t).
Proof.
  intros Hi He Hp H32 Hlen Hby c m b p. destruct (entry_hdr _ _ _ _ _ _ Hi He) as [Hok Hr].
  destruct (WriteAt_spec uninit s ds (mkOpenFile (hdr_at ds (sector e)) 0) from n pos
    (inv_disk _ _ _ _ _ Hi) Hok Hp H32 Hlen Hby) as (s' & ds' & E & Hc & Ho & Hd).
  cbn [hdr] in *. exists s', ds'. split; [exact E | ].
  set (X := data_secs (hdr_at ds (sector e))) in *.
  assert (same_outside X ds ds') as Hs.
  { intros i Hn Hx. apply Ho. by rewrite Z2Nat.id. }
  assert (hdr_at ds' (sector e) = hdr_at ds (sector e)) as Eh.
  { eapply same_hdr_at; [exact Hs | lia | by eapply entry_nodup]. }
  destruct (pick_entry _ _ _ _ _ _ Hi He) as (rest & Hperm & Hap).
  assert (forall i, i ∈ X -> i ∈ entry_secs ds e) as HX by (intros i Hn; by right).
  destruct (entries_same X ds ds' rest Hs) as (Es & Ef & Eok).
  { intros e' He'. assert (e' ∈ used t) as Hu' by (rewrite Hperm; by right).
    destruct (entry_hdr _ _ _ _ _ _ Hi Hu') as [? [? _]]. split_and!; [done.. | ].
    intros i Hn Hn'. by apply (Hap i (HX i Hn') e' He'). }
  assert (entry_secs ds' e = entry_secs ds e) as Ee by (unfold entry_secs; by rewrite Eh).
  destruct (inv_map_hdr _ _ _ _ _ Hi) as (Hm1 & Hm2 & Hm3).
  destruct (inv_dir_hdr _ _ _ _ _ Hi) as (Hd1 & Hd2 & Hd3).
  assert (forall i, i ∈ X -> i <> FreeMapSector /\ i <> DirectorySector /\
    i ∉ data_secs (hdr (freeMapFile fs)) /\ i ∉ data_secs (hdr (directoryFile fs))) as Hapart.
  { intros i Hn. by eapply entry_apart; [ | | apply HX]. }
  split; [ | split; [exact Eh | ]].
  - split; [done | | | | | apply Hi | apply Hi | | ].
    + split_and!; [done.. | ]. rewrite <- Hm3. eapply same_hdr_at; [done | done | ].
      intros Hn. by destruct (Hapart _ Hn).
    + split_and!; [done.. | ]. rewrite <- Hd3. eapply same_hdr_at; [done | done | ].
      intros Hn. by destruct (Hapart _ Hn) as (_ & ? & _).
    + rewrite <- (inv_map _ _ _ _ _ Hi). eapply same_file_data; [done.. | ].
      intros i Hn Hx. by destruct (Hapart _ Hx) as (_ & _ & ? & _).
    + rewrite <- (inv_dir _ _ _ _ _ Hi). eapply same_file_data; [done.. | ].
      intros i Hn Hx. by destruct (Hapart _ Hx) as (_ & _ & _ & ?).
    + rewrite Hperm. constructor; [by rewrite Eh | done].
    + eapply free_map_perm; [apply (inv_free _ _ _ _ _ Hi) | ]. unfold owned.
      rewrite Hperm, !fmap_cons. cbn [concat]. by rewrite Es, Ee.
  - unfold fs_files. rewrite (files_insert ds rest (used t) e ds' Hperm (inv_names _ _ _ _ _ Hi) Ef).
    rewrite (files_insert ds rest (used t) e ds Hperm (inv_names _ _ _ _ _ Hi) eq_refl).
    rewrite insert_insert_eq, Eh, Hd. done.
Qed.

(** ** Remove *)

Lemma FS_Remove_spec s fs ds t bm fname :
  fs_inv s fs ds t bm -> name_wf fname ->
  if bool_decide (take 9 fname ∈ entry_key <$> used t) then
    exists s' ds' t' bm', FileSystem_Remove uninit fs fname s = Ok (true, s') /\
      fs_inv s' fs ds' t' bm' /\ fs_files ds' t' = delete (take 9 fname) (fs_files ds t)
  else exists s', FileSystem_Remove uninit fs fname s = Ok (false, s') /\ contents s' ds.
Proof.
  intros Hi Hwf. destruct (fetch_directory_spec _ _ _ _ _ Hi) as (s1 & E1 & Hc1).
  destruct (inv_table _ _ _ _ _ Hi) as [Hl Hw].
  remember (FileSystem_Remove uninit fs fname s) as R eqn:ER.
  unfold FileSystem_Remove, mbind at 1, stM_bind at 1 in ER. rewrite E1 in ER.
  unfold mbind at 1, stM_bind at 1, lift at 1 in ER.
  destruct (Find_spec (mkDirectory NumDirEntries t) fname Hwf Hl) as [(e & EF & He & Hk) | [EF Hk]];
    rewrite EF in ER; cbn [table] in *.
  2:{ rewrite bool_decide_eq_false_2 by exact Hk. exists s1. split; [exact ER | exact Hc1]. }
  rewrite bool_decide_eq_true_2 by (rewrite <- Hk; by apply list_elem_of_fmap_2).
  destruct (entry_hdr _ _ _ _ _ _ Hi He) as [Hok Hr].
  rewrite (proj2 (Z.eqb_neq _ _)) in ER by lia.
  destruct (Header_fetch s1 ds (sector e) Hc1 Hr) as (s2 & E2 & Hc2).
  unfold mbind at 1, stM_bind at 1 in ER. rewrite E2 in ER.
  pose proof (inv_state _ _ _ _ _ _ Hi Hc2) as Hi2.
  destruct (fetch_bitmap_spec _ _ _ _ _ Hi2) as (s3 & E3 & Hc3).
  unfold mbind at 1, stM_bind at 1 in ER. rewrite E3 in ER.
  destruct (pick_entry _ _ _ _ _ _ Hi He) as (rest & Hperm & Hap).
  set (M := data_secs (hdr (freeMapFile fs))) in *. set (D := data_secs (hdr (directoryFile fs))) in *.
  set (o := [FreeMapSector; DirectorySector] ++ M ++ D ++ concat (entry_secs ds <$> rest)).
  assert (free_map bm (data_secs (hdr_at ds (sector e)) ++ sector e :: o)) as Hf.
  { eapply free_map_perm; [apply (inv_free _ _ _ _ _ Hi) | ]. unfold owned, o. fold M D.
    rewrite Hperm, fmap_cons. cbn [concat]. unfold entry_secs at 1. solve_Permutation. }
  destruct (Deallocate_spec _ _ _ Hok Hf) as (b1 & E4 & Hf1).
  destruct (free_map_Clear _ _ _ Hf1) as (b2 & E5 & Hf2).
  unfold mbind at 1, stM_bind at 1, lift at 1 in ER. rewrite E4 in ER.
  unfold mbind at 1, stM_bind at 1, lift at 1 in ER. rewrite E5 in ER.
  destruct (Remove_spec (mkDirectory NumDirEntries t) fname Hwf Hl Hw (inv_names _ _ _ _ _ Hi) e He Hk)
    as ([ts t'] & E6 & Hts & Hl' & Hw' & Hu). cbn [table tableSize] in *. subst ts.
  unfold mbind at 1, stM_bind at 1, lift at 1 in ER. rewrite E6 in ER.
  destruct (inv_map_hdr _ _ _ _ _ Hi) as (Hm1 & Hm2 & Hm3).
  destruct (inv_dir_hdr _ _ _ _ _ Hi) as (Hd1 & Hd2 & Hd3).
  destruct (bitmap_flush s3 ds (freeMapFile fs) b2 _ Hc3 Hm1 Hm2 Hf2) as (s4 & ds4 & E7 & Hc4 & Hs4 & Hf4).
  destruct (directory_flush s4 ds4 (directoryFile fs) t' Hc4 Hd1 Hd2) as (s5 & ds5 & E8 & Hc5 & Hs5 & Hf5);
    [by rewrite Hl' | exact Hw' | ].
  unfold mbind at 1, stM_bind at 1 in ER. rewrite E7 in ER.
  unfold mbind at 1, stM_bind at 1 in ER. rewrite E8 in ER.
  exists s5, ds5, t', b2. split; [exact ER | ]. clear ER E1 E2 E3 E4 E5 E6 E7 E8 EF.
  assert (used t' ≡ₚ rest) as Hu'.
  { apply (Permutation.Permutation_cons_inv (a := e)). by rewrite <- Hu, Hperm. }
  assert (same_outside ([] ++ D ++ M) ds ds5) as Hsame.
  { intros n Hn Hx. rewrite Hs5, Hs4; [done | done | | done | ]; intros ?; apply Hx;
      rewrite !elem_of_app; tauto. }
  assert (forall e', e' ∈ rest -> e' ∈ used t) as Hrest by (intros e' ?; rewrite Hperm; by right).
  destruct (entries_same ([] ++ D ++ M) ds ds5 rest Hsame) as (Es & Ef & Eok).
  { intros e' He'%Hrest. destruct (entry_hdr _ _ _ _ _ _ Hi He') as [? [? _]]. split_and!; [done.. | ].
    intros n Hn. destruct (entry_apart _ _ _ _ _ _ _ Hi He' Hn) as (_ & _ & _ & ? & ?).
    rewrite !elem_of_app, elem_of_nil. tauto. }
  assert (NoDup (entry_key <$> used t')) as Hnd'.
  { pose proof (inv_names _ _ _ _ _ Hi) as Hn. rewrite Hu, fmap_cons in Hn. by apply NoDup_cons in Hn as [_ ?]. }
  split.
  - eapply (fs_inv_change []); try done; try apply not_elem_of_nil.
    + rewrite <- Hf4. eapply same_file_data; [exact Hs5 | done | ]. intros n Hn Hn'. by eapply files_apart.
    + by rewrite Hu'.
    + eapply free_map_perm; [exact Hf2 | ]. unfold o, owned. fold M D. by rewrite Hu', Es.
  - unfold fs_files. rewrite (files_insert ds rest (used t) e ds Hperm (inv_names _ _ _ _ _ Hi) eq_refl).
    rewrite Hk, delete_insert_id.
    + etransitivity; [apply list_to_map_proper; [by rewrite files_keys | by rewrite Hu'] | ]. by rewrite Ef.
    + apply not_elem_of_list_to_map_1. rewrite files_keys, <- Hk.
      pose proof (inv_names _ _ _ _ _ Hi) as Hn. rewrite Hperm, fmap_cons in Hn. by apply NoDup_cons in Hn as [? _].
Qed.

(** ** The sectors in use, counted *)

Lemma length_data_secs h : hdr_ok h -> Z.of_nat (length (data_secs h)) = divRoundUp (numBytes h) SectorSize.
Proof.
  intros Hok. destruct (numBytes_bound _ Hok) as [_ ?]. rewrite <- (ok_sectors _ Hok).
  unfold data_secs. rewrite length_take, (ok_length _ Hok). change (Z.to_nat NumDirect) with 30%nat. lia.
Qed.

(** The sectors a file of so many bytes takes. *)
Definition file_sectors (data : list Z) : nat :=
  1 + Z.to_nat (divRoundUp (Z.of_nat (length data)) SectorSize).

Definition sectors_used (m : gmap (list Z) (list Z)) : Z :=
  5 + Z.of_nat (sum_list_with file_sectors (map_to_list m).*2).

Lemma length_owned s fs ds t bm :
  fs_inv s fs ds t bm -> num_owned fs ds t = sectors_used (fs_files ds t).
Proof.
  intros Hi. unfold num_owned, sectors_used, owned. rewrite !length_app, !Nat2Z.inj_add.
  destruct (inv_map_hdr _ _ _ _ _ Hi) as (Hm1 & Hm2 & _).
  destruct (inv_dir_hdr _ _ _ _ _ Hi) as (Hd1 & Hd2 & _).
  rewrite !length_data_secs, Hm2, Hd2 by done.
  change (divRoundUp FreeMapFileSize SectorSize) with 1. change (divRoundUp DirectoryFileSize SectorSize) with 2.
  change (Z.of_nat (length [FreeMapSector; DirectorySector])) with 2.
  assert ((map_to_list (fs_files ds t)).*2 ≡ₚ (fun e => file_data ds (hdr_at ds (sector e))) <$> used t) as ->.
  { unfold fs_files. rewrite map_to_list_to_map by (rewrite files_keys; apply Hi).
    rewrite <- list_fmap_compose. done. }
  assert (length (concat (entry_secs ds <$> used t)) =
    sum_list_with file_sectors ((fun e => file_data ds (hdr_at ds (sector e))) <$> used t)) as ->; [ | lia].
  pose proof (inv_hdrs _ _ _ _ _ Hi) as Hh. clear Hi. induction Hh as [ | e es He _ IH]; [done | ].
  rewrite !fmap_cons. cbn [concat sum_list_with]. rewrite length_app, IH. f_equal.
  unfold entry_secs, file_sectors. cbn [length]. rewrite length_file_data.
  pose proof (length_data_secs _ He). pose proof (ok_bytes _ He).
  rewrite Z2Nat.id by done. lia.
Qed.

Lemma size_files s fs ds t bm : fs_inv s fs ds t bm -> size (fs_files ds t) = length (used t).
Proof.
  intros Hi. unfold fs_files. rewrite <- length_map_to_list.
  rewrite map_to_list_to_map by (rewrite files_keys; apply Hi). by rewrite length_fmap.
Qed.

(** ** Formatting *)

#[local] Opaque new_Bitmap Mark Allocate new_Directory new_FileHeader.

Lemma free_map_empty b :
  bitmap_wf b -> numBits b = NumSectors -> bits b = replicate (Z.to_nat NumSectors) false -> free_map b [].
Proof.
  intros Hw Hn Hb. split; try done; [constructor | ]. intros i Hi.
  rewrite bool_decide_eq_false_2 by apply not_elem_of_nil.
  assert (bits b !! Z.to_nat i = Some (bit_at b i)) as Hl by (apply bits_lookup; lia).
  rewrite Hb in Hl. by apply lookup_replicate in Hl as [-> _].
Qed.

Lemma hdr_at_insert s ds n h :
  contents s ds -> 0 <= n < NumSectors -> hdr_ok h ->
  hdr_at (<[Z.to_nat n := hdr_bytes h]> ds) n = h.
Proof.
  intros Hc Hn Hok. unfold hdr_at. rewrite list_lookup_total_alt, list_lookup_insert_eq.
  - by apply hdr_ok_roundtrip.
  - destruct (contents_wf _ _ Hc) as [-> _]. change NumSectors with 1024 in *. lia.
Qed.

Lemma directory_eta d n : tableSize d = n -> d = mkDirectory n (table d).
Proof. destruct d. by intros <-. Qed.

Lemma format_with_spec s ds b0 :
  contents s ds -> free_map b0 [] ->
  exists s' fs ds' t bm, format_with uninit b0 s = Ok (fs, s') /\
    fs_inv s' fs ds' t bm /\ used t = [].
Proof.
  intros Hc Hf0.
  destruct (free_map_Mark b0 FreeMapSector [] Hf0) as (b1 & E1 & Hf1); [done | apply not_elem_of_nil | ].
  destruct (free_map_Mark b1 DirectorySector _ Hf1) as (b2 & E2 & Hf2);
    [done | rewrite list_elem_of_singleton; done | ].
  destruct new_FileHeader_wf as [Hnl Hni].
  pose proof (Allocate_spec (new_FileHeader uninit) b2 _ FreeMapFileSize Hf2 Hnl Hni ltac:(done)) as Ha1.
  cbn in Ha1. destruct Ha1 as (mh & b3 & E3 & Hmok & Hmn & Hf3).
  assert (length (data_secs mh) = 1%nat) as Hml.
  { pose proof (length_data_secs mh Hmok) as Hl. rewrite Hmn in Hl.
    change (divRoundUp FreeMapFileSize SectorSize) with 1 in Hl. lia. }
  pose proof (Allocate_spec (new_FileHeader uninit) b3 _ DirectoryFileSize Hf3 Hnl Hni ltac:(done)) as Ha2.
  cbv zeta in Ha2. rewrite length_app, Hml in Ha2. cbn in Ha2.
  destruct Ha2 as (dh & b4 & E4 & Hdok & Hdn & Hf4).
  destruct (new_Directory_wf uninit NumDirEntries ltac:(done)) as (Ht & Hl0 & Hw & Hun).
  set (d := new_Directory uninit NumDirEntries) in *.
  destruct (write_sector s ds FreeMapSector (hdr_bytes mh) Hc ltac:(done) (hdr_bytes_wf _ (ok_length _ Hmok)))
    as (s1 & E5 & Hc1).
  destruct (write_sector s1 _ DirectorySector (hdr_bytes dh) Hc1 ltac:(done) (hdr_bytes_wf _ (ok_length _ Hdok)))
    as (s2 & E6 & Hc2).
  set (ds2 := <[Z.to_nat DirectorySector := hdr_bytes dh]> (<[Z.to_nat FreeMapSector := hdr_bytes mh]> ds)) in *.
  destruct (new_OpenFile_spec s2 ds2 FreeMapSector Hc2 ltac:(done)) as (s3 & E7 & Hc3).
  destruct (new_OpenFile_spec s3 ds2 DirectorySector Hc3 ltac:(done)) as (s4 & E8 & Hc4).
  assert (hdr_at ds2 DirectorySector = dh) as Ehd by (by eapply hdr_at_insert).
  assert (hdr_at ds2 FreeMapSector = mh) as Ehm.
  { transitivity (hdr_at (<[Z.to_nat FreeMapSector := hdr_bytes mh]> ds) FreeMapSector);
      [ | eapply hdr_at_insert; [exact Hc | done | exact Hmok]].
    eapply same_hdr_at; [apply same_outside_insert; done | done | ].
    rewrite list_elem_of_singleton. done. }
  rewrite Ehm in E7. rewrite Ehd in E8.
  destruct (bitmap_flush s4 ds2 (mkOpenFile mh 0) b4 _ Hc4 Hmok Hmn Hf4) as (s5 & ds5 & E9 & Hc5 & Hs5 & Hf5).
  destruct (directory_flush s5 ds5 (mkOpenFile dh 0) (table d) Hc5 Hdok Hdn) as (s6 & ds6 & E10 & Hc6 & Hs6 & Hf6);
    [done | done | ].
  cbn [hdr] in *.
  exists s6, (mkFileSystem (mkOpenFile mh 0) (mkOpenFile dh 0)), ds6, (table d), b4. split.
  - unfold format_with, Header_WriteBack, mbind, stM_bind, lift, ASSERT.
    fold d. rewrite E1, E2, E3. cbn [mret]. rewrite E4, E5, E6, E7, E8, E9.
    rewrite (directory_eta d _ Ht). by rewrite E10.
  - clear E1 E2 E3 E4 E5 E6 E7 E8 E9 E10.
    assert (used (table d) = []) as Hu.
    { unfold used. clear - Hun. induction Hun as [ | e l He _ IH]; [done | ].
      rewrite filter_cons, decide_False by (by rewrite He). done. }
    pose proof (fm_nodup _ _ Hf4) as Hnd. apply NoDup_app in Hnd as (_ & Hdm & Hnd).
    apply NoDup_app in Hnd as (_ & Hm01 & _).
    assert (same_outside (data_secs mh ++ data_secs dh) ds2 ds6) as Hs.
    { eapply same_outside_trans; [exact Hs5 | exact Hs6]. }
    assert (forall n, n ∈ [DirectorySector; FreeMapSector] -> n ∉ data_secs mh ++ data_secs dh) as H01.
    { intros n Hn. rewrite elem_of_app. intros [Hx | Hx].
      - by apply (Hm01 n Hx).
      - apply (Hdm n Hx). rewrite elem_of_app. by right. }
    split; [ | done]. split; cbn [freeMapFile directoryFile hdr].
    + done.
    + split_and!; [done.. | ]. rewrite <- Ehm. eapply same_hdr_at; [exact Hs | done | ].
      apply H01. by right; left.
    + split_and!; [done.. | ]. rewrite <- Ehd. eapply same_hdr_at; [exact Hs | done | ].
      apply H01. by left.
    + rewrite <- Hf5. eapply same_file_data; [exact Hs6 | done | ]. intros n Hn Hn'.
      apply (Hdm n Hn'). rewrite elem_of_app. by left.
    + done.
    + done.
    + rewrite Hu. constructor.
    + rewrite Hu. constructor.
    + eapply free_map_perm; [exact Hf4 | ]. unfold owned. rewrite Hu. cbn [fmap list_fmap concat].
      rewrite app_nil_r. solve_Permutation.
Qed.

Lemma format_spec s ds :
  contents s ds ->
  exists s' fs ds' t bm, format_FileSystem uninit s = Ok (fs, s') /\
    fs_inv s' fs ds' t bm /\ used t = [].
Proof.
  intros Hc. destruct (new_Bitmap_spec uninit NumSectors eq_refl) as (b0 & E0 & Hw0 & Hn0 & Hb0).
  destruct (format_with_spec s ds b0 Hc (free_map_empty b0 Hw0 Hn0 Hb0)) as (s' & fs & ds' & t & bm & E & H).
  exists s', fs, ds', t, bm. split; [ | exact H].
  unfold format_FileSystem, new_PersistentBitmap, mbind, stM_bind, lift. rewrite E0. exact E.
Qed.

(** A file system found on a disk is the one that was left there. *)
Lemma reopen_spec s fs ds t bm :
  fs_inv s fs ds t bm ->
  exists s' fs', open_FileSystem s = Ok (fs', s') /\ fs_inv s' fs' ds t bm.
Proof.
  intros Hi. destruct (inv_map_hdr _ _ _ _ _ Hi) as (Hm1 & Hm2 & Hm3).
  destruct (inv_dir_hdr _ _ _ _ _ Hi) as (Hd1 & Hd2 & Hd3).
  destruct (new_OpenFile_spec s ds FreeMapSector (inv_disk _ _ _ _ _ Hi) ltac:(done)) as (s1 & E1 & Hc1).
  destruct (new_OpenFile_spec s1 ds DirectorySector Hc1 ltac:(done)) as (s2 & E2 & Hc2).
  rewrite Hm3 in E1. rewrite Hd3 in E2. eexists s2, _. split.
  - unfold open_FileSystem, mbind, stM_bind. by rewrite E1, E2.
  - destruct Hi. by split.
Qed.

End Invariant.
