(* ===== verification/FileSysSpec.v ===== *)
(** * What the file system promises

    The abstract file system is a finite map from names (nine characters
    count) to contents, with the limits of the disk: ten names, 1024 sectors.
    [fs_spec] says what each call may answer and how it changes the map.  The
    theorems show that the file system of filesys/filesys.cc, on any store of
    sectors and on the simulated disk in particular, is an implementation. *)

From S2P Require Import Prelude Bitmap FileSysStub AddrSpace Disk FileHdr OpenFile Directory FileSys FileSysInv.

(** ** The abstract file system *)

Inductive fs_call :=
  | CCreate (fname : Directory.filename) (size : Z)
  | CRemove (fname : Directory.filename)
  | CWrite (fname : Directory.filename) (data : list Z) (pos : Z)
  | CRead (fname : Directory.filename) (n pos : Z)
  | CReopen.

Inductive fs_answer :=
  | ADone (b : bool)
  | ANone
  | ACount (n : Z)
  | AData (bs : list Z).

Definition call_ok (c : fs_call) : Prop :=
  match c with
  | CCreate fname size => name_wf fname /\ 0 <= size <= MaxFileSize
  | CRemove fname => name_wf fname
  | CWrite fname data pos =>
      name_wf fname /\ Forall is_byte data /\ 0 <= pos /\ is_i32 (pos + Z.of_nat (length data))
  | CRead fname n pos => name_wf fname /\ 0 <= pos /\ is_i32 (pos + n)
  | CReopen => True
  end.

(** The part of a request that lies inside a file. *)
Definition within (c : list Z) (n pos : Z) : Z :=
  if (n <=? 0) || (Z.of_nat (length c) <=? pos) then 0 else Z.min n (Z.of_nat (length c) - pos).

Definition create_fails (m : gmap (list Z) (list Z)) (fname : Directory.filename) (size : Z) : bool :=
  bool_decide (is_Some (m !! take 9 fname)) || bool_decide (base.size m = Z.to_nat NumDirEntries) ||
  (NumSectors <? sectors_used m + 1 + divRoundUp size SectorSize).

Inductive fs_spec (m : gmap (list Z) (list Z)) : fs_call -> fs_answer -> gmap (list Z) (list Z) -> Prop :=
  | spec_create fname size data :
      create_fails m fname size = false -> Z.of_nat (length data) = size ->
      fs_spec m (CCreate fname size) (ADone true) (<[take 9 fname := data]> m)
  | spec_create_fails fname size :
      create_fails m fname size = true ->
      fs_spec m (CCreate fname size) (ADone false) m
  | spec_remove fname c :
      m !! take 9 fname = Some c ->
      fs_spec m (CRemove fname) (ADone true) (delete (take 9 fname) m)
  | spec_remove_none fname :
      m !! take 9 fname = None -> fs_spec m (CRemove fname) (ADone false) m
  | spec_write fname data pos c :
      m !! take 9 fname = Some c ->
      let k := within c (Z.of_nat (length data)) pos in
      let b := take (Z.to_nat k) data in
      let p := Z.to_nat pos in
      fs_spec m (CWrite fname data pos) (ACount k)
        (<[take 9 fname := take p c ++ b ++ drop (p + length b) c]> m)
  | spec_write_none fname data pos :
      m !! take 9 fname = None -> fs_spec m (CWrite fname data pos) ANone m
  | spec_read fname n pos c :
      m !! take 9 fname = Some c ->
      fs_spec m (CRead fname n pos)
        (AData (take (Z.to_nat (within c n pos)) (drop (Z.to_nat pos) c))) m
  | spec_read_none fname n pos :
      m !! take 9 fname = None -> fs_spec m (CRead fname n pos) ANone m
  | spec_reopen : fs_spec m CReopen (ADone true) m.

Inductive fs_trace : gmap (list Z) (list Z) -> list fs_call -> list fs_answer -> gmap (list Z) (list Z) -> Prop :=
  | trace_nil m : fs_trace m [] [] m
  | trace_cons m m1 m2 c cs a anss :
      fs_spec m c a m1 -> fs_trace m1 cs anss m2 -> fs_trace m (c :: cs) (a :: anss) m2.

(** ** The calls on the implementation *)

Section Refinement.
Context {S : Type} `{!SectorDisk S} (uninit : nat -> Z).
Implicit Types (s : S) (fs : FileSystem) (ds : list (list Z)) (t : list DirectoryEntry).

(** A file is opened by name for each read and write; [CReopen] starts the
    file system again from the disk. *)
Definition fs_exec (c : fs_call) (fs : FileSystem) : stM S (fs_answer * FileSystem) :=
  match c with
  | CCreate fname size => b ← FileSystem_Create uninit fs fname size; mret (ADone b, fs)
  | CRemove fname => b ← FileSystem_Remove uninit fs fname; mret (ADone b, fs)
  | CWrite fname data pos =>
      o ← FileSystem_Open uninit fs fname;
      match o with
      | None => mret (ANone, fs)
      | Some f => n ← WriteAt uninit f data (Z.of_nat (length data)) pos; mret (ACount n, fs)
      end
  | CRead fname n pos =>
      o ← FileSystem_Open uninit fs fname;
      match o with
      | None => mret (ANone, fs)
      | Some f => '(_, bs) ← ReadAt f n pos; mret (AData bs, fs)
      end
  | CReopen => fs' ← new_FileSystem uninit false; mret (ADone true, fs')
  end.

Fixpoint fs_exec_all (cs : list fs_call) (fs : FileSystem) : stM S (list fs_answer * FileSystem) :=
  match cs with
  | [] => mret ([], fs)
  | c :: cs' =>
      '(a, fs) ← fs_exec c fs;
      '(anss, fs) ← fs_exec_all cs' fs;
      mret (a :: anss, fs)
  end.

Lemma trimmed_within ds h n pos :
  hdr_ok h -> trimmed h n pos = within (file_data ds h) n pos.
Proof.
  intros Hok. unfold trimmed, within. rewrite length_file_data. by rewrite Z2Nat.id by apply Hok.
Qed.

Lemma files_key s fs ds t bm k :
  fs_inv s fs ds t bm -> bool_decide (is_Some (fs_files ds t !! k)) = bool_decide (k ∈ entry_key <$> used t).
Proof.
  intros Hi. apply bool_decide_ext. split.
  - intros Hs. destruct (decide (k ∈ entry_key <$> used t)) as [ | Hn]; [done | ].
    rewrite files_lookup_None in Hs by done. by destruct Hs.
  - intros (e & -> & He)%list_elem_of_fmap. erewrite files_lookup_Some by done. by eexists.
Qed.

(** [create_fails] is the condition of the code. *)
Lemma create_fails_code s fs ds t bm fname size :
  fs_inv s fs ds t bm ->
  create_fails (fs_files ds t) fname size =
    bool_decide (take 9 fname ∈ entry_key <$> used t) || bool_decide (length (used t) = length t) ||
    (NumSectors <? num_owned fs ds t + 1 + divRoundUp size SectorSize).
Proof.
  intros Hi. unfold create_fails. rewrite (files_key _ _ _ _ _ _ Hi).
  rewrite (size_files _ _ _ _ _ Hi), (length_owned _ _ _ _ _ Hi).
  by destruct (inv_table _ _ _ _ _ Hi) as [-> _].
Qed.

Lemma small_enough size : 0 <= size <= MaxFileSize -> divRoundUp size SectorSize <=? NumDirect = true.
Proof.
  intros [H0 Hm]. apply Z.leb_le. pose proof (divRoundUp_spec size SectorSize H0 ltac:(done)).
  unfold MaxFileSize, SectorSize in *. change NumDirect with 30 in *. lia.
Qed.

(** One call of the implementation is one step of the abstract file system. *)
Lemma fs_exec_spec c s fs ds t bm :
  fs_inv s fs ds t bm -> call_ok c ->
  exists a s' fs' ds' t' bm', fs_exec c fs s = Ok ((a, fs'), s') /\ fs_inv s' fs' ds' t' bm' /\
    fs_spec (fs_files ds t) c a (fs_files ds' t').
Proof.
  intros Hi Hc. destruct c as [fname size | fname | fname data pos | fname n pos | ]; simpl in Hc.
  - destruct Hc as [Hw Hsz]. pose proof (FS_Create_spec uninit s fs ds t bm fname size Hi Hw ltac:(lia)) as H.
    cbv zeta in H. rewrite <- (create_fails_code _ _ _ _ _ _ _ Hi), (small_enough _ Hsz) in H.
    unfold fs_exec, mbind, stM_bind. destruct (create_fails (fs_files ds t) fname size) eqn:Ef.
    + destruct H as (s' & -> & Hc'). exists (ADone false), s', fs, ds, t, bm.
      split_and!; [done | by eapply inv_state | by constructor].
    + destruct H as (s' & ds' & t' & bm' & d & -> & Hi' & Hf & Hl).
      exists (ADone true), s', fs, ds', t', bm'. split_and!; [done | done | ].
      rewrite Hf. by constructor.
  - pose proof (FS_Remove_spec uninit s fs ds t bm fname Hi Hc) as H.
    rewrite <- (files_key _ _ _ _ _ _ Hi) in H. unfold fs_exec, mbind, stM_bind.
    case_bool_decide as Hk.
    + destruct H as (s' & ds' & t' & bm' & -> & Hi' & Hf). destruct Hk as [d Hd].
      exists (ADone true), s', fs, ds', t', bm'. split_and!; [done | done | ]. rewrite Hf. by econstructor.
    + destruct H as (s' & -> & Hc'). exists (ADone false), s', fs, ds, t, bm.
      split_and!; [done | by eapply inv_state | ]. constructor. by apply eq_None_not_Some.
  - destruct Hc as (Hw & Hby & Hp & H32). unfold fs_exec, mbind, stM_bind.
    destruct (FS_Open_spec uninit s fs ds t bm fname Hi Hw) as (s1 & Hc1 & [(e & He & Hk & ->) | [Hk ->]]).
    + pose proof (inv_state _ _ _ _ _ _ Hi Hc1) as Hi1. destruct (entry_hdr _ _ _ _ _ _ Hi He) as [Hok _].
      destruct (FS_Write_spec uninit s1 fs ds t bm e data _ pos Hi1 He Hp H32 ltac:(lia) Hby) as (s2 & ds2 & -> & Hi2 & _ & Hf).
      eexists _, s2, fs, ds2, t, bm. split_and!; [done | done | ]. rewrite Hf, Hk.
      rewrite !(trimmed_within ds) by done. apply spec_write. rewrite <- Hk. by eapply files_lookup_Some.
    + exists ANone, s1, fs, ds, t, bm. split_and!; [done | by eapply inv_state | ].
      constructor. by apply files_lookup_None.
  - destruct Hc as (Hw & Hp & H32). unfold fs_exec, mbind, stM_bind.
    destruct (FS_Open_spec uninit s fs ds t bm fname Hi Hw) as (s1 & Hc1 & [(e & He & Hk & ->) | [Hk ->]]).
    + destruct (entry_hdr _ _ _ _ _ _ Hi He) as [Hok _].
      destruct (ReadAt_spec s1 ds (mkOpenFile (hdr_at ds (sector e)) 0) n pos Hc1 Hok Hp H32) as (s2 & -> & Hc2).
      cbn [hdr]. eexists _, s2, fs, ds, t, bm. split_and!; [done | by eapply inv_state | ].
      rewrite !(trimmed_within ds) by done. apply spec_read. rewrite <- Hk. by eapply files_lookup_Some.
    + exists ANone, s1, fs, ds, t, bm. split_and!; [done | by eapply inv_state | ].
      constructor. by apply files_lookup_None.
  - unfold fs_exec, new_FileSystem, mbind, stM_bind.
    destruct (reopen_spec s fs ds t bm Hi) as (s' & fs' & -> & Hi').
    exists (ADone true), s', fs', ds, t, bm. split_and!; [done | done | constructor].
Qed.

Lemma fs_exec_all_spec cs : forall s fs ds t bm,
  fs_inv s fs ds t bm -> Forall call_ok cs ->
  exists anss s' fs' ds' t' bm', fs_exec_all cs fs s = Ok ((anss, fs'), s') /\ fs_inv s' fs' ds' t' bm' /\
    fs_trace (fs_files ds t) cs anss (fs_files ds' t').
Proof.
  induction cs as [ | c cs IH]; intros s fs ds t bm Hi Hcs.
  { exists [], s, fs, ds, t, bm. split_and!; [done | done | constructor]. }
  apply Forall_cons in Hcs as [Hc Hcs].
  destruct (fs_exec_spec c s fs ds t bm Hi Hc) as (a & s1 & fs1 & ds1 & t1 & bm1 & E1 & Hi1 & Hs1).
  destruct (IH s1 fs1 ds1 t1 bm1 Hi1 Hcs) as (anss & s2 & fs2 & ds2 & t2 & bm2 & E2 & Hi2 & Hs2).
  exists (a :: anss), s2, fs2, ds2, t2, bm2. split_and!; [ | done | by econstructor].
  cbn [fs_exec_all]. unfold mbind, stM_bind. by rewrite E1, E2.
Qed.

Lemma fs_exec_all_length cs : forall fs s anss fs' s',
  fs_exec_all cs fs s = Ok ((anss, fs'), s') -> length anss = length cs.
Proof.
  induction cs as [ | c cs IH]; intros fs s anss fs' s' E; cbn [fs_exec_all] in E; unfold mbind, stM_bind in E.
  - by injection E as <- _ _.
  - destruct (fs_exec c fs s) as [[[a fs1] s1] | ]; [ | done].
    destruct (fs_exec_all cs fs1 s1) as [[[anss1 fs2] s2] | ] eqn:E2; [ | done].
    injection E as <- _ _. simpl. f_equal. by eapply IH.
Qed.

(** C3: On any store of sectors, whatever it holds and whatever uninitialised
    memory holds, formatting succeeds, and after it every sequence of calls
    (create, remove, write and read by name, restart from the disk), with
    sizes up to MaxFileSize, runs to its end without a failed assertion or an
    access outside an array and answers as the abstract file system does: a
    finite map from names to contents whose Create fails exactly when the name
    is taken, ten files exist or the disk is full, and in which a write
    changes the bytes it names of one file and nothing else. *)
Theorem fs_refines (s : S) ds (cs : list fs_call) (Hs : contents s ds) (Hcs : Forall call_ok cs) :
  exists fs s1 anss fs' s2 m, new_FileSystem uninit true s = Ok (fs, s1) /\
    fs_exec_all cs fs s1 = Ok ((anss, fs'), s2) /\ fs_trace ∅ cs anss m.
Proof.
  destruct (format_spec uninit s ds Hs) as (s1 & fs & ds1 & t1 & bm1 & E1 & Hi1 & Hu).
  destruct (fs_exec_all_spec cs s1 fs ds1 t1 bm1 Hi1 Hcs) as (anss & s2 & fs' & ds2 & t2 & bm2 & E2 & _ & Ht).
  exists fs, s1, anss, fs', s2, (fs_files ds2 t2). split_and!; [done | done | ].
  unfold fs_files in Ht at 1. by rewrite Hu in Ht.
Qed.

(** C14: After formatting and any sequence of calls the disk is consistent:
    the file headers and data sectors of all files, of the directory and of
    the map of free sectors are pairwise different sectors of the disk, and
    the map read back from the disk marks exactly these. *)
Theorem fs_consistent (s : S) ds (cs : list fs_call) (Hs : contents s ds) (Hcs : Forall call_ok cs) :
  exists fs s1 anss fs' s2 ds2 t2 bm, new_FileSystem uninit true s = Ok (fs, s1) /\
    fs_exec_all cs fs s1 = Ok ((anss, fs'), s2) /\ contents s2 ds2 /\
    let o := owned (hdr (freeMapFile fs')) (hdr (directoryFile fs')) ds2 t2 in
    (exists s3, fetch_directory uninit fs' s2 = Ok (mkDirectory NumDirEntries t2, s3)) /\
    (exists s3, fetch_PersistentBitmap uninit (freeMapFile fs') NumSectors s2 = Ok (bm, s3)) /\
    NoDup o /\ Forall (fun n => 0 <= n < NumSectors) o /\
    forall n, 0 <= n < NumSectors -> Test bm n = Ok (bool_decide (n ∈ o)).
Proof.
  destruct (format_spec uninit s ds Hs) as (s1 & fs & ds1 & t1 & bm1 & E1 & Hi1 & Hu).
  destruct (fs_exec_all_spec cs s1 fs ds1 t1 bm1 Hi1 Hcs) as (anss & s2 & fs' & ds2 & t2 & bm2 & E2 & Hi2 & _).
  exists fs, s1, anss, fs', s2, ds2, t2, bm2. pose proof (inv_free _ _ _ _ _ Hi2) as Hf. cbv zeta. split_and!.
  - exact E1.
  - exact E2.
  - apply Hi2.
  - destruct (fetch_directory_spec uninit _ _ _ _ _ Hi2) as (s3 & E3 & _). exists s3. exact E3.
  - destruct (fetch_bitmap_spec uninit _ _ _ _ _ Hi2) as (s3 & E3 & _). exists s3. exact E3.
  - apply Hf.
  - apply Hf.
  - intros n Hn. by apply free_map_Test.
Qed.

(** C19: A Create that returns FALSE (the name exists, the directory is full,
    no sector is left for the header, or too few for the data) leaves every
    sector of the disk as it was; and a Create that the limits would allow
    but for the size of the file header, which Create does not check, writes
    outside the header. *)
Theorem create_errors (s : S) fs ds t bm fname size
    (Hi : fs_inv s fs ds t bm) (Hw : name_wf fname) (Hsz : 0 <= size) :
  (create_fails (fs_files ds t) fname size = true ->
     exists s', FileSystem_Create uninit fs fname size s = Ok (false, s') /\ contents s' ds) /\
  (create_fails (fs_files ds t) fname size = false -> MaxFileSize < size ->
     FileSystem_Create uninit fs fname size s = Fail Undefined).
Proof.
  pose proof (FS_Create_spec uninit s fs ds t bm fname size Hi Hw Hsz) as H.
  cbv zeta in H. rewrite <- (create_fails_code _ _ _ _ _ _ _ Hi) in H. split.
  - intros E. by rewrite E in H.
  - intros E Hbig. rewrite E in H. pose proof (divRoundUp_spec size SectorSize Hsz ltac:(done)) as Hd.
    destruct (Z.leb_spec (divRoundUp size SectorSize) NumDirect); [ | done].
    unfold MaxFileSize, SectorSize in *. change NumDirect with 30 in *. lia.
Qed.

(** C20: Bytes written to an open file are read back from it, the other bytes
    of the file and every sector that is not the file's are unchanged, and
    neither goes past the end of the file. *)
Theorem file_roundtrip (s : S) ds f from pos (Hs : contents s ds) (Hok : hdr_ok (hdr f))
    (Hpos : 0 <= pos) (H32 : is_i32 (pos + Z.of_nat (length from))) (Hby : Forall is_byte from) :
  let old := file_data ds (hdr f) in
  let k := within old (Z.of_nat (length from)) pos in
  exists s1 ds1 s2, WriteAt uninit f from (Z.of_nat (length from)) pos s = Ok (k, s1) /\
    contents s1 ds1 /\ ReadAt f (Z.of_nat (length from)) pos s1 = Ok ((k, take (Z.to_nat k) from), s2) /\
    (forall n, Z.of_nat n ∉ data_secs (hdr f) -> ds1 !! n = ds !! n) /\
    (forall i, ~ (Z.to_nat pos <= i < Z.to_nat (pos + k))%nat -> file_data ds1 (hdr f) !! i = old !! i).
Proof.
  intros old k.
  destruct (WriteAt_spec uninit s ds f from (Z.of_nat (length from)) pos Hs Hok Hpos H32 ltac:(lia) Hby)
    as (s1 & ds1 & E1 & Hc1 & Ho & Hd). rewrite (trimmed_within ds) in E1, Hd by done. fold old k in E1, Hd.
  destruct (ReadAt_spec s1 ds1 f (Z.of_nat (length from)) pos Hc1 Hok Hpos H32) as (s2 & E2 & _).
  rewrite (trimmed_within ds) in E2 by done. fold old k in E2.
  assert (0 <= k <= Z.of_nat (length from) /\ (0 < k -> pos + k <= Z.of_nat (length old))) as [Hk Hk'].
  { unfold k, within. destruct ((Z.of_nat (length from) <=? 0) || _) eqn:E; [lia | ]. bool_prop. lia. }
  set (b := take (Z.to_nat k) from) in *.
  assert (length b = Z.to_nat k) as Hb by (unfold b; rewrite length_take; lia).
  destruct (Z.eq_dec k 0) as [E0 | Hk0].
  { assert (b = []) as Eb by (apply nil_length_inv; lia).
    rewrite Eb in Hd. simpl in Hd. rewrite Nat.add_0_r, take_drop in Hd.
    exists s1, ds1, s2. split_and!; try done.
    - rewrite E2, Eb, E0. done.
    - intros i _. by rewrite Hd. }
  assert (file_data ds1 (hdr f) = splice old (Z.to_nat pos) b) as Hd'.
  { rewrite Hd. unfold splice. rewrite take_app_le by lia. done. }
  assert (Z.to_nat pos + length b <= length old)%nat as Hfit by lia.
  exists s1, ds1, s2. split_and!; try done.
  - rewrite E2. do 2 f_equal. f_equal. rewrite Hd'. unfold splice. rewrite take_app_le by lia.
    rewrite drop_app_length' by (rewrite length_take_le; lia). rewrite <- Hb. by rewrite take_app_length.
  - intros i Hi. rewrite Hd', splice_lookup by done. rewrite bool_decide_eq_false_2; [done | lia].
Qed.

End Refinement.

(** ** The simulated disk *)

(** The sector store of the examples: a disk created on a host without files,
    with memory that happens to hold sevens. *)
#[local] Instance demo_store : SectorDisk (SynchDisk FileSysStub.host) := synchdisk_sectors host_ops host_file id.

Definition demo_memory (i : nat) : Z := 7.

Definition demo_calls : list fs_call :=
  [CCreate [97] 200; CCreate [98] 0; CWrite [97] [1; 2; 3] 126; CRead [97] 5 125; CReopen; CRemove [98];
   CCreate [97] 5].

Lemma demo_calls_ok : Forall call_ok demo_calls.
Proof.
  repeat constructor; try done; unfold is_byte, is_i32, MaxFileSize; pow2; simpl; lia.
Qed.

Lemma fs_refines_witness :
  exists s ds fs s1 anss fs' s2 m, contents (SectorDisk := demo_store) s ds /\
    new_FileSystem demo_memory true s = Ok (fs, s1) /\
    fs_exec_all demo_memory demo_calls fs s1 = Ok ((anss, fs'), s2) /\ fs_trace ∅ demo_calls anss m.
Proof.
  destruct demo_disk as (s & c & _ & Hi).
  assert (contents (SectorDisk := demo_store) s (sectors_of c)) as Hs by (exists c; split; [exact Hi | reflexivity]).
  destruct (fs_refines demo_memory s (sectors_of c) demo_calls Hs demo_calls_ok) as (fs & s1 & anss & fs' & s2 & m & H).
  exists s, (sectors_of c), fs, s1, anss, fs', s2, m. split; [exact Hs | exact H].
Defined.

Lemma fs_consistent_witness :
  exists s ds (anss : list fs_answer) fs' s2 ds2 t2, contents (SectorDisk := demo_store) s ds /\
    contents s2 ds2 /\ NoDup (owned (hdr (freeMapFile fs')) (hdr (directoryFile fs')) ds2 t2) /\
    length anss = 7%nat.
Proof.
  destruct demo_disk as (s & c & _ & Hi).
  assert (contents (SectorDisk := demo_store) s (sectors_of c)) as Hs by (exists c; split; [exact Hi | reflexivity]).
  destruct (fs_consistent demo_memory s (sectors_of c) demo_calls Hs demo_calls_ok)
    as (fs & s1 & anss & fs' & s2 & ds2 & t2 & bm & _ & E & Hc & _ & _ & Hn & _).
  exists s, (sectors_of c), anss, fs', s2, ds2, t2. split_and!; [exact Hs | exact Hc | exact Hn | ].
  exact (fs_exec_all_length _ demo_calls _ _ _ _ _ E).
Defined.

(** A file system on that disk, with one file. *)
Lemma demo_fs :
  exists (s : SynchDisk FileSysStub.host) fs ds t bm, fs_inv (SectorDisk0 := demo_store) s fs ds t bm /\
    is_Some (fs_files ds t !! [97]).
Proof.
  destruct demo_disk as (s & c & _ & Hi).
  assert (contents (SectorDisk := demo_store) s (sectors_of c)) as Hs by (exists c; split; [exact Hi | reflexivity]).
  destruct (format_spec demo_memory s _ Hs) as (s1 & fs & ds1 & t1 & bm1 & _ & Hi1 & Hu).
  destruct (fs_exec_spec demo_memory (CCreate [97] 200) s1 fs ds1 t1 bm1 Hi1)
    as (a & s2 & fs2 & ds2 & t2 & bm2 & _ & Hi2 & Hsp).
  { split; [by repeat constructor | done]. }
  exists s2, fs2, ds2, t2, bm2. split; [exact Hi2 | ].
  assert (create_fails (fs_files ds1 t1) [97] 200 = false) as Hf
    by (unfold fs_files; rewrite Hu; vm_compute; reflexivity).
  remember (fs_files ds2 t2) as m2. clear Heqm2. inversion Hsp; subst; [ | congruence].
  rewrite lookup_insert_eq. by eexists.
Qed.

Lemma create_errors_witness :
  exists (s s' : SynchDisk FileSysStub.host) fs, FileSystem_Create (SectorDisk0 := demo_store) demo_memory fs [97] 10 s = Ok (false, s').
Proof.
  destruct demo_fs as (s & fs & ds & t & bm & Hi & Hk).
  destruct (create_errors demo_memory s fs ds t bm [97] 10 Hi) as [H _];
    [by repeat constructor | done | ].
  destruct H as (s' & E & _); [unfold create_fails; by rewrite bool_decide_eq_true_2 | ].
  exists s, s', fs. exact E.
Defined.

Lemma file_roundtrip_witness :
  exists (s s1 s2 : SynchDisk FileSysStub.host) f k, WriteAt (SectorDisk0 := demo_store) demo_memory f [1; 2; 3] 3 126 s = Ok (k, s1) /\
    ReadAt (SectorDisk0 := demo_store) f 3 126 s1 = Ok ((k, take (Z.to_nat k) [1; 2; 3]), s2).
Proof.
  destruct demo_fs as (s & fs & ds & t & bm & Hi & Hk).
  destruct (file_roundtrip demo_memory s ds (directoryFile fs) [1; 2; 3] 126)
    as (s1 & ds1 & s2 & E1 & _ & E2 & _).
  - apply Hi.
  - apply (inv_dir_hdr _ _ _ _ _ Hi).
  - done.
  - done.
  - by repeat constructor.
  - eexists s, s1, s2, (directoryFile fs), _. split; [exact E1 | exact E2].
Defined.
