(* ===== verification/Threads.v ===== *)
(** * Threads, scheduling and synchronisation (threads/thread.h,
      threads/thread.cc, threads/scheduler.cc, threads/synch.h,
      threads/synch.cc, threads/synchlist.cc, threads/alarm.cc,
      machine/interrupt.h, machine/interrupt.cc, machine/timer.cc,
      machine/stats.h)

    One processor runs the kernel.  Control passes from a thread to another
    only at [SWITCH], inside [Scheduler::Run]; what a thread has still to do
    when it is switched out is on its stack.  Here a stack is a list of
    instructions [instr]: the calls the thread's procedure still has to make,
    and in front of them what is left of the calls in progress.  A step takes
    the first instruction of the current thread; an instruction is a stretch
    of the source that no switch can interrupt, so every interleaving the
    kernel can produce is a sequence of steps.

    Time slices happen where the source has them: whenever interrupts are
    turned back on the clock ticks ([OneTick]), due interrupts are delivered,
    and the timer's handler may ask for a Yield.

    Objects (threads, semaphores, locks, conditions) live in finite maps
    from their addresses; a use of an address that is not there is
    [Undefined].  [List<T>] and [SortedList<T>] are used through the sequences
    they represent (LinkedList.v proves they behave so); the assertion of
    [Append] that the item is not on the list is kept. *)

From S2P Require Import Prelude LinkedList Machine AddrSpace.

Inductive IntStatus : Set := IntOff | IntOn.
Inductive IntType : Set :=
  | TimerInt | DiskInt | ConsoleWriteInt | ConsoleReadInt | NetworkSendInt | NetworkRecvInt.
Inductive ThreadStatus : Set := JUST_CREATED | RUNNING | READY | BLOCKED.

#[global] Instance IntStatus_eq_dec : EqDecision IntStatus.
Proof. solve_decision. Defined.
#[global] Instance IntType_eq_dec : EqDecision IntType.
Proof. solve_decision. Defined.
#[global] Instance ThreadStatus_eq_dec : EqDecision ThreadStatus.
Proof. solve_decision. Defined.

(** machine/stats.h *)
Definition UserTick : Z := 1.
Definition SystemTick : Z := 10.
Definition TimerTicks : Z := 100.

Definition STACK_FENCEPOST : Z := 233684719.

(** ** Instructions *)

Inductive instr : Set :=
  (* calls a thread's procedure makes *)
  | Yield
  | Fork (func : nat) (arg : Z)
  | P (s : nat)
  | V (s : nat)
  | Acquire (l : nat)
  | Release (l : nat)
  | Wait (c l : nat)
  | Signal (c l : nat)
  | Broadcast (c l : nat)
  | SynchAppend (q : nat) (item : Z)
  | SynchRemoveFront (q : nat)
  | NewSemaphore (s : nat) (initialValue : Z)
  | DeleteSemaphore (s : nat)
  | AssertValue (s : nat) (v : Z)
  | NewSynchList (q l s c : nat)
  | DeleteSynchList (q : nat)
  | AssertEmpty (q : nat)
  | Print (text : list Z)
  | AssertGot (val : Z)
  | AppendGot (q : nat)
  | Request (d : nat) (arg : Z)
  | Call (func : nat) (arg : Z)
  | Halt
  (* what is left of a call in progress *)
  | SetLevel_ (now : IntStatus)
  | OneTick_
  | SetStatus_ (st : MachineStatus)
  | Switched
  | SleepLoop (finishing : bool)
  | Begin
  | Finish
  | PLoop (s : nat)
  | SetHolder (l : nat)
  | ListAppend (q : nat) (item : Z)
  | ListWait (q : nat)
  | ListTake (q : nat).

#[global] Instance instr_eq_dec : EqDecision instr.
Proof. solve_decision. Defined.

(** ** State *)

(** [stack] is the word at the bottom of the allocated stack, where the
    fencepost is; [None] for the main thread, which has no stack of its own.
    [code] stands for the rest of the stack and the saved registers. *)
Record Thread := mkThread {
  stack : option Z;
  thread_status : ThreadStatus;
  userRegisters : list Z;
  space : option AddrSpace;
  code : list instr;
  got : Z
}.

Record Semaphore := mkSemaphore { value : Z; queue : list nat }.
Record Lock := mkLock { lock_semaphore : nat; lockHolder : option nat }.
Record SynchList := mkSynchList { items : list Z; list_lock : nat; listEmpty : nat }.

(** Whom an interrupt calls: the timer device, or another device, by number. *)
Inductive CallBackObj : Set := TimerObj | DeviceObj (d : nat).

Record PendingInterrupt := mkPending { callOnInterrupt : CallBackObj; when : Z; type : IntType }.

Definition PendingCompare (x y : PendingInterrupt) : Z :=
  if when x <? when y then -1 else if when y <? when x then 1 else 0.

Record Statistics := mkStats { totalTicks : Z; idleTicks : Z; systemTicks : Z; userTicks : Z }.

Record Interrupt := mkInterrupt {
  level : IntStatus;
  pending : list PendingInterrupt;
  inHandler : bool;
  yieldOnReturn : bool;
  status : MachineStatus
}.

Record Scheduler := mkScheduler { readyList : list nat; toBeDestroyed : option nat }.
Record Timer := mkTimer { randomize : bool; disable : bool }.

(** The kernel's globals.  [D] is the state of the devices and of the random
    number generator; [output] is what was printed. *)
Record Kern (D : Type) := mkKern {
  threads : gmap nat Thread;
  currentThread : nat;
  scheduler : Scheduler;
  interrupt : Interrupt;
  stats : Statistics;
  timer : Timer;
  semaphores : gmap nat Semaphore;
  locks : gmap nat Lock;
  conditions : gmap nat (list nat);
  synchLists : gmap nat SynchList;
  nextAddress : nat;
  machine : option Machine;
  devices : D;
  output : list (list Z)
}.
Arguments mkKern {D} _ _ _ _ _ _ _ _ _ _ _ _ _ _.
Arguments threads {D} _.
Arguments currentThread {D} _.
Arguments scheduler {D} _.
Arguments interrupt {D} _.
Arguments stats {D} _.
Arguments timer {D} _.
Arguments semaphores {D} _.
Arguments locks {D} _.
Arguments conditions {D} _.
Arguments synchLists {D} _.
Arguments nextAddress {D} _.
Arguments machine {D} _.
Arguments devices {D} _.
Arguments output {D} _.

(** Replacing one global. *)
Section Setters.
Context {D : Type}.
Implicit Types k : Kern D.

Definition with_threads k x := mkKern x (currentThread k) (scheduler k) (interrupt k) (stats k)
  (timer k) (semaphores k) (locks k) (conditions k) (synchLists k) (nextAddress k) (machine k)
  (devices k) (output k).
Definition with_current k x := mkKern (threads k) x (scheduler k) (interrupt k) (stats k)
  (timer k) (semaphores k) (locks k) (conditions k) (synchLists k) (nextAddress k) (machine k)
  (devices k) (output k).
Definition with_scheduler k x := mkKern (threads k) (currentThread k) x (interrupt k) (stats k)
  (timer k) (semaphores k) (locks k) (conditions k) (synchLists k) (nextAddress k) (machine k)
  (devices k) (output k).
Definition with_interrupt k x := mkKern (threads k) (currentThread k) (scheduler k) x (stats k)
  (timer k) (semaphores k) (locks k) (conditions k) (synchLists k) (nextAddress k) (machine k)
  (devices k) (output k).
Definition with_stats k x := mkKern (threads k) (currentThread k) (scheduler k) (interrupt k) x
  (timer k) (semaphores k) (locks k) (conditions k) (synchLists k) (nextAddress k) (machine k)
  (devices k) (output k).
Definition with_semaphores k x := mkKern (threads k) (currentThread k) (scheduler k) (interrupt k)
  (stats k) (timer k) x (locks k) (conditions k) (synchLists k) (nextAddress k) (machine k)
  (devices k) (output k).
Definition with_locks k x := mkKern (threads k) (currentThread k) (scheduler k) (interrupt k)
  (stats k) (timer k) (semaphores k) x (conditions k) (synchLists k) (nextAddress k) (machine k)
  (devices k) (output k).
Definition with_conditions k x := mkKern (threads k) (currentThread k) (scheduler k) (interrupt k)
  (stats k) (timer k) (semaphores k) (locks k) x (synchLists k) (nextAddress k) (machine k)
  (devices k) (output k).
Definition with_synchLists k x := mkKern (threads k) (currentThread k) (scheduler k) (interrupt k)
  (stats k) (timer k) (semaphores k) (locks k) (conditions k) x (nextAddress k) (machine k)
  (devices k) (output k).
Definition with_nextAddress k x := mkKern (threads k) (currentThread k) (scheduler k) (interrupt k)
  (stats k) (timer k) (semaphores k) (locks k) (conditions k) (synchLists k) x (machine k)
  (devices k) (output k).
Definition with_machine k x := mkKern (threads k) (currentThread k) (scheduler k) (interrupt k)
  (stats k) (timer k) (semaphores k) (locks k) (conditions k) (synchLists k) (nextAddress k) x
  (devices k) (output k).
Definition with_devices k (x : D) := mkKern (threads k) (currentThread k) (scheduler k) (interrupt k)
  (stats k) (timer k) (semaphores k) (locks k) (conditions k) (synchLists k) (nextAddress k)
  (machine k) x (output k).
Definition with_output k x := mkKern (threads k) (currentThread k) (scheduler k) (interrupt k)
  (stats k) (timer k) (semaphores k) (locks k) (conditions k) (synchLists k) (nextAddress k)
  (machine k) (devices k) x.

End Setters.

Definition with_status (t : Thread) (x : ThreadStatus) : Thread :=
  mkThread (stack t) x (userRegisters t) (space t) (code t) (got t).
Definition with_registers_saved (t : Thread) (x : list Z) : Thread :=
  mkThread (stack t) (thread_status t) x (space t) (code t) (got t).
Definition with_code (t : Thread) (x : list instr) : Thread :=
  mkThread (stack t) (thread_status t) (userRegisters t) (space t) x (got t).
Definition with_got (t : Thread) (x : Z) : Thread :=
  mkThread (stack t) (thread_status t) (userRegisters t) (space t) (code t) x.

(** ** Operations *)

Section Basics.
Context {D : Type}.
Notation K := (Kern D).

(** Dereferencing an address. *)
Definition find {A} (o : option A) : stM K A :=
  lift (match o with Some a => Ok a | None => Fail Undefined end).

Definition get_thread (t : nat) : stM K Thread := m ← gets threads; find (m !! t).
Definition put_thread (t : nat) (x : Thread) : stM K unit :=
  modify (fun k => with_threads k (<[t := x]> (threads k))).
Definition upd_thread (t : nat) (f : Thread -> Thread) : stM K unit :=
  x ← get_thread t; put_thread t (f x).

(** What the current thread does next, before the rest of its code. *)
Definition push (c : list instr) : stM K unit :=
  t ← gets currentThread;
  upd_thread t (fun x => with_code x (c ++ code x)).

Definition get_semaphore (s : nat) : stM K Semaphore := m ← gets semaphores; find (m !! s).
Definition put_semaphore (s : nat) (x : Semaphore) : stM K unit :=
  modify (fun k => with_semaphores k (<[s := x]> (semaphores k))).
Definition get_lock (l : nat) : stM K Lock := m ← gets locks; find (m !! l).
Definition put_lock (l : nat) (x : Lock) : stM K unit :=
  modify (fun k => with_locks k (<[l := x]> (locks k))).
Definition get_condition (c : nat) : stM K (list nat) := m ← gets conditions; find (m !! c).
Definition put_condition (c : nat) (x : list nat) : stM K unit :=
  modify (fun k => with_conditions k (<[c := x]> (conditions k))).
Definition get_synchList (q : nat) : stM K SynchList := m ← gets synchLists; find (m !! q).
Definition put_synchList (q : nat) (x : SynchList) : stM K unit :=
  modify (fun k => with_synchLists k (<[q := x]> (synchLists k))).

(** [List<T>::Append], with its assertion. *)
Definition list_Append {A} `{EqDecision A} (l : list A) (x : A) : stM K (list A) :=
  lift (ASSERT (negb (bool_decide (x ∈ l))));; mret (l ++ [x]).

(** *** machine/interrupt.cc *)

Definition set_interrupt (f : Interrupt -> Interrupt) : stM K unit :=
  modify (fun k => with_interrupt k (f (interrupt k))).

Definition getLevel : stM K IntStatus := gets (fun k => level (interrupt k)).

Definition ChangeLevel (old now : IntStatus) : stM K unit :=
  set_interrupt (fun i => mkInterrupt now (pending i) (inHandler i) (yieldOnReturn i) (status i)).

Definition set_status (st : MachineStatus) : stM K unit :=
  set_interrupt (fun i => mkInterrupt (level i) (pending i) (inHandler i) (yieldOnReturn i) st).

Definition set_pending (p : list PendingInterrupt) : stM K unit :=
  set_interrupt (fun i => mkInterrupt (level i) p (inHandler i) (yieldOnReturn i) (status i)).

Definition set_inHandler (b : bool) : stM K unit :=
  set_interrupt (fun i => mkInterrupt (level i) (pending i) b (yieldOnReturn i) (status i)).

Definition set_yieldOnReturn (b : bool) : stM K unit :=
  set_interrupt (fun i => mkInterrupt (level i) (pending i) (inHandler i) b (status i)).

(** Turning interrupts on makes the clock tick next. *)
Definition SetLevel (now : IntStatus) : stM K IntStatus :=
  old ← getLevel;
  h ← gets (fun k => inHandler (interrupt k));
  lift (ASSERT (bool_decide (now = IntOff) || negb h));;
  ChangeLevel old now;;
  (if bool_decide (now = IntOn) && bool_decide (old = IntOff) then push [OneTick_] else mret tt);;
  mret old.

Definition Enable : stM K unit := SetLevel IntOn;; mret tt.

Definition YieldOnReturn : stM K unit :=
  h ← gets (fun k => inHandler (interrupt k));
  lift (ASSERT h);;
  set_yieldOnReturn true.

Definition Schedule (toCall : CallBackObj) (fromNow : Z) (ty : IntType) : stM K unit :=
  now ← gets (fun k => totalTicks (stats k));
  lift (ASSERT (0 <? fromNow));;
  p ← gets (fun k => pending (interrupt k));
  set_pending (sorted_insert PendingCompare (mkPending toCall (to_i32 (now + fromNow)) ty) p).

(** [Interrupt::Halt]: deletes the kernel, which exits. *)
Definition Interrupt_Halt : stM K unit := lift (Fail Halted).

(** *** threads/scheduler.cc *)

Definition set_readyList (l : list nat) : stM K unit :=
  modify (fun k => with_scheduler k (mkScheduler l (toBeDestroyed (scheduler k)))).
Definition set_toBeDestroyed (t : option nat) : stM K unit :=
  modify (fun k => with_scheduler k (mkScheduler (readyList (scheduler k)) t)).

Definition assert_off : stM K unit :=
  lv ← getLevel; lift (ASSERT (bool_decide (lv = IntOff))).

Definition ReadyToRun (t : nat) : stM K unit :=
  assert_off;;
  upd_thread t (fun x => with_status x READY);;
  l ← gets (fun k => readyList (scheduler k));
  l ← list_Append l t;
  set_readyList l.

Definition FindNextToRun : stM K (option nat) :=
  assert_off;;
  l ← gets (fun k => readyList (scheduler k));
  match l with
  | [] => mret None
  | t :: l' => set_readyList l';; mret (Some t)
  end.

(** [Thread::~Thread] *)
Definition delete_Thread (t : nat) : stM K unit :=
  c ← gets currentThread;
  lift (ASSERT (negb (bool_decide (t = c))));;
  modify (fun k => with_threads k (delete t (threads k))).

Definition CheckToBeDestroyed : stM K unit :=
  d ← gets (fun k => toBeDestroyed (scheduler k));
  match d with
  | None => mret tt
  | Some t => delete_Thread t;; set_toBeDestroyed None
  end.

(** A step on the simulated machine, which is NULL early on. *)
Definition on_machine {A} (x : stM (Machine * unit) A) : stM K A :=
  m ← gets machine;
  m ← find m;
  '(a, s) ← lift (x (m, tt));
  modify (fun k => with_machine k (Some s.1));;
  mret a.

(** *** threads/thread.cc *)

Definition SaveUserState (t : nat) : stM K unit :=
  r ← on_machine (mapM ReadRegister (seqZ 0 NumTotalRegs));
  upd_thread t (fun x => with_registers_saved x r).

Fixpoint write_registers (i : Z) (r : list Z) : stM (Machine * unit) unit :=
  match r with
  | [] => mret tt
  | v :: r' => WriteRegister i v;; write_registers (i + 1) r'
  end.

Definition RestoreUserState (t : nat) : stM K unit :=
  x ← get_thread t;
  on_machine (write_registers 0 (userRegisters x)).

Definition CheckOverflow (t : nat) : stM K unit :=
  x ← get_thread t;
  match stack x with
  | None => mret tt
  | Some w => lift (ASSERT (w =? STACK_FENCEPOST))
  end.

(** [Scheduler::Run] up to SWITCH: the old thread goes on with [Switched]
    when it runs again. *)
Definition Scheduler_Run (nextThread : nat) (finishing : bool) : stM K unit :=
  oldThread ← gets currentThread;
  assert_off;;
  (if finishing then
     d ← gets (fun k => toBeDestroyed (scheduler k));
     lift (ASSERT (bool_decide (d = None)));;
     set_toBeDestroyed (Some oldThread)
   else mret tt);;
  x ← get_thread oldThread;
  match space x with
  | None => mret tt
  | Some sp => SaveUserState oldThread;; on_machine (SaveState sp)
  end;;
  CheckOverflow oldThread;;
  push [Switched];;
  modify (fun k => with_current k nextThread);;
  upd_thread nextThread (fun y => with_status y RUNNING).

(** [Scheduler::Run] after SWITCH has come back. *)
Definition Run_back : stM K unit :=
  oldThread ← gets currentThread;
  assert_off;;
  CheckToBeDestroyed;;
  x ← get_thread oldThread;
  match space x with
  | None => mret tt
  | Some sp => RestoreUserState oldThread;; on_machine (RestoreState sp)
  end.

Definition Thread_Yield : stM K unit :=
  oldLevel ← SetLevel IntOff;
  this ← gets currentThread;
  nextThread ← FindNextToRun;
  push [SetLevel_ oldLevel];;
  match nextThread with
  | None => mret tt
  | Some n => ReadyToRun this;; Scheduler_Run n false
  end.

Definition Thread_Sleep (finishing : bool) : stM K unit :=
  this ← gets currentThread;
  assert_off;;
  upd_thread this (fun x => with_status x BLOCKED);;
  push [SleepLoop finishing].

Definition Thread_Begin : stM K unit := CheckToBeDestroyed;; Enable.

Definition Thread_Finish : stM K unit := SetLevel IntOff;; Thread_Sleep true.

Definition new_address : stM K nat :=
  a ← gets nextAddress;
  modify (fun k => with_nextAddress k (S a));;
  mret a.

Definition new_Thread : stM K nat :=
  t ← new_address;
  put_thread t (mkThread None JUST_CREATED (replicate (Z.to_nat NumTotalRegs) 0) None [] 0);;
  mret t.

(** [StackAllocate]: the first switch to the thread enters ThreadRoot, which
    calls [Begin], the procedure, and [Finish]. *)
Definition StackAllocate (t : nat) (func : list instr) : stM K unit :=
  upd_thread t (fun x => mkThread (Some STACK_FENCEPOST) (thread_status x) (userRegisters x)
    (space x) (Begin :: func ++ [Finish]) (got x)).

Definition Thread_Fork (t : nat) (func : list instr) : stM K unit :=
  StackAllocate t func;;
  oldLevel ← SetLevel IntOff;
  ReadyToRun t;;
  push [SetLevel_ oldLevel].

(** *** threads/synch.cc *)

Definition Semaphore_P (s : nat) : stM K unit :=
  oldLevel ← SetLevel IntOff;
  push [PLoop s; SetLevel_ oldLevel].

(** One test of the while loop of [P], and what follows it. *)
Definition P_loop (s : nat) : stM K unit :=
  x ← get_semaphore s;
  if value x =? 0 then
    this ← gets currentThread;
    q ← list_Append (queue x) this;
    put_semaphore s (mkSemaphore (value x) q);;
    push [PLoop s];;
    Thread_Sleep false
  else put_semaphore s (mkSemaphore (to_i32 (value x - 1)) (queue x)).

(** [V] up to its last SetLevel, with the level to set. *)
Definition Semaphore_V (s : nat) : stM K IntStatus :=
  oldLevel ← SetLevel IntOff;
  x ← get_semaphore s;
  match queue x with
  | [] => put_semaphore s (mkSemaphore (to_i32 (value x + 1)) [])
  | t :: q =>
      put_semaphore s (mkSemaphore (value x) q);;
      ReadyToRun t;;
      put_semaphore s (mkSemaphore (to_i32 (value x + 1)) q)
  end;;
  mret oldLevel.

(** [V] called by a thread. *)
Definition V_call (s : nat) : stM K unit :=
  oldLevel ← Semaphore_V s; push [SetLevel_ oldLevel].

(** [V] called by an interrupt handler: interrupts are off and stay off. *)
Definition V_handler (s : nat) : stM K unit :=
  oldLevel ← Semaphore_V s; SetLevel oldLevel;; mret tt.

Definition IsHeldByCurrentThread (x : Lock) : stM K bool :=
  c ← gets currentThread; mret (bool_decide (lockHolder x = Some c)).

Definition Lock_Acquire (l : nat) : stM K unit :=
  x ← get_lock l; push [P (lock_semaphore x); SetHolder l].

Definition set_holder (l : nat) : stM K unit :=
  c ← gets currentThread;
  x ← get_lock l;
  put_lock l (mkLock (lock_semaphore x) (Some c)).

Definition Lock_Release (l : nat) : stM K unit :=
  x ← get_lock l;
  h ← IsHeldByCurrentThread x;
  lift (ASSERT h);;
  put_lock l (mkLock (lock_semaphore x) None);;
  V_call (lock_semaphore x).

Definition new_Semaphore (initialValue : Z) : stM K nat :=
  s ← new_address;
  put_semaphore s (mkSemaphore initialValue []);;
  mret s.

Definition delete_Semaphore (s : nat) : stM K unit :=
  get_semaphore s;;
  modify (fun k => with_semaphores k (delete s (semaphores k))).

Definition Condition_Wait (c l : nat) : stM K unit :=
  x ← get_lock l;
  h ← IsHeldByCurrentThread x;
  lift (ASSERT h);;
  waiter ← new_Semaphore 0;
  q ← get_condition c;
  q ← list_Append q waiter;
  put_condition c q;;
  push [P waiter; Acquire l; DeleteSemaphore waiter];;
  Lock_Release l.

Definition Condition_Signal (c l : nat) : stM K unit :=
  x ← get_lock l;
  h ← IsHeldByCurrentThread x;
  lift (ASSERT h);;
  q ← get_condition c;
  match q with
  | [] => mret tt
  | waiter :: q' => put_condition c q';; V_call waiter
  end.

Definition Condition_Broadcast (c l : nat) : stM K unit :=
  q ← get_condition c;
  match q with
  | [] => mret tt
  | _ => push [Broadcast c l];; Condition_Signal c l
  end.

(** *** threads/synchlist.cc *)

Definition SynchList_Append (q : nat) (item : Z) : stM K unit :=
  x ← get_synchList q;
  push [Acquire (list_lock x); ListAppend q item; Signal (listEmpty x) (list_lock x);
        Release (list_lock x)].

Definition SynchList_RemoveFront (q : nat) : stM K unit :=
  x ← get_synchList q;
  push [Acquire (list_lock x); ListWait q; ListTake q; Release (list_lock x)].

Definition list_append (q : nat) (item : Z) : stM K unit :=
  x ← get_synchList q;
  l ← list_Append (items x) item;
  put_synchList q (mkSynchList l (list_lock x) (listEmpty x)).

(** [while (list->IsEmpty()) listEmpty->Wait(lock);] *)
Definition list_wait (q : nat) : stM K unit :=
  x ← get_synchList q;
  match items x with
  | [] => push [Wait (listEmpty x) (list_lock x); ListWait q]
  | _ => mret tt
  end.

Definition list_take (q : nat) : stM K unit :=
  x ← get_synchList q;
  match items x with
  | [] => lift (Fail AssertFail)
  | i :: l =>
      put_synchList q (mkSynchList l (list_lock x) (listEmpty x));;
      t ← gets currentThread;
      upd_thread t (fun y => with_got y i)
  end.

(** The constructor, given the addresses the new objects get, and the
    destructor. *)
Definition new_SynchList (q l s c : nat) : stM K unit :=
  put_semaphore s (mkSemaphore 1 []);;
  put_lock l (mkLock s None);;
  put_condition c [];;
  put_synchList q (mkSynchList [] l c).

Definition delete_SynchList (q : nat) : stM K unit :=
  x ← get_synchList q;
  y ← get_lock (list_lock x);
  modify (fun k => with_conditions k (delete (listEmpty x) (conditions k)));;
  delete_Semaphore (lock_semaphore y);;
  modify (fun k => with_locks k (delete (list_lock x) (locks k)));;
  modify (fun k => with_synchLists k (delete q (synchLists k))).

End Basics.

(** ** Interrupt delivery and the step function

    [RandomNumber] is the C library's generator, [device d] the interrupt
    handler of device [d], [request d arg] a call of device [d] by a thread,
    which returns without a switch, and [procs] the procedures threads are
    forked with or call. *)

Section Steps.
Context {D : Type}.
Context (RandomNumber : D -> Z * D) (device : nat -> stM (Kern D) unit).
Context (request : nat -> Z -> stM (Kern D) unit) (procs : nat -> Z -> list instr).
Notation K := (Kern D).

(** *** machine/timer.cc, threads/alarm.cc *)

Definition SetInterrupt : stM K unit :=
  t ← gets timer;
  if negb (disable t) then
    delay ← (if randomize t then
               d ← gets devices;
               let '(r, d') := RandomNumber d in
               modify (fun k => with_devices k d');;
               mret (to_i32 (1 + to_u32 r mod (TimerTicks * 2)))
             else mret TimerTicks);
    Schedule TimerObj delay TimerInt
  else mret tt.

Definition Alarm_CallBack : stM K unit :=
  st ← gets (fun k => status (interrupt k));
  if negb (bool_decide (st = IdleMode)) then YieldOnReturn else mret tt.

Definition Timer_CallBack : stM K unit := Alarm_CallBack;; SetInterrupt.

Definition CallBack (o : CallBackObj) : stM K unit :=
  match o with TimerObj => Timer_CallBack | DeviceObj d => device d end.

(** *** Interrupt::CheckIfDue, OneTick, Idle *)

(** The do-while loop: deliver the first pending interrupt, and go on while
    the next one is due. *)
Fixpoint fire_loop (fuel : nat) : stM K unit :=
  match fuel with
  | O => lift (Fail OutOfFuel)
  | S f =>
      p ← gets (fun k => pending (interrupt k));
      match p with
      | [] => lift (Fail AssertFail)
      | next :: p' =>
          set_pending p';;
          CallBack (callOnInterrupt next);;
          p ← gets (fun k => pending (interrupt k));
          now ← gets (fun k => totalTicks (stats k));
          match p with
          | [] => mret tt
          | n :: _ => if when n <=? now then fire_loop f else mret tt
          end
      end
  end.

(** Delivery of the interrupts that are due, at least one. *)
Definition fire : stM K unit :=
  m ← gets machine;
  match m with None => mret tt | Some _ => on_machine (DelayedLoad 0 0) end;;
  set_inHandler true;;
  p ← gets (fun k => pending (interrupt k));
  fire_loop (length p);;
  set_inHandler false.

Definition CheckIfDue (advanceClock : bool) : stM K bool :=
  assert_off;;
  p ← gets (fun k => pending (interrupt k));
  st ← gets stats;
  match p with
  | [] => mret false
  | next :: _ =>
      if totalTicks st <? when next then
        if negb advanceClock then mret false
        else
          modify (fun k => with_stats k (mkStats (when next)
            (to_i32 (idleTicks st + (when next - totalTicks st))) (systemTicks st) (userTicks st)));;
          fire;; mret true
      else fire;; mret true
  end.

Definition tick (st : MachineStatus) (s : Statistics) : Statistics :=
  if bool_decide (st = SystemMode) then
    mkStats (to_i32 (totalTicks s + SystemTick)) (idleTicks s) (to_i32 (systemTicks s + SystemTick))
      (userTicks s)
  else
    mkStats (to_i32 (totalTicks s + UserTick)) (idleTicks s) (systemTicks s)
      (to_i32 (userTicks s + UserTick)).

Definition OneTick : stM K unit :=
  oldStatus ← gets (fun k => status (interrupt k));
  modify (fun k => with_stats k (tick oldStatus (stats k)));;
  ChangeLevel IntOn IntOff;;
  CheckIfDue false;;
  ChangeLevel IntOff IntOn;;
  y ← gets (fun k => yieldOnReturn (interrupt k));
  if (y : bool) then
    set_yieldOnReturn false;;
    set_status SystemMode;;
    push [Yield; SetStatus_ oldStatus]
  else mret tt.

Definition Idle : stM K unit :=
  set_status IdleMode;;
  b ← CheckIfDue true;
  if (b : bool) then set_status SystemMode else Interrupt_Halt.

(** One round of the while loop of [Thread::Sleep], and what follows it. *)
Definition Sleep_loop (finishing : bool) : stM K unit :=
  nextThread ← FindNextToRun;
  match nextThread with
  | None => Idle;; push [SleepLoop finishing]
  | Some n => Scheduler_Run n finishing
  end.

Definition exec (i : instr) : stM K unit :=
  match i with
  | Yield => Thread_Yield
  | Fork func arg => t ← new_Thread; Thread_Fork t (procs func arg)
  | P s => Semaphore_P s
  | V s => V_call s
  | Acquire l => Lock_Acquire l
  | Release l => Lock_Release l
  | Wait c l => Condition_Wait c l
  | Signal c l => Condition_Signal c l
  | Broadcast c l => Condition_Broadcast c l
  | SynchAppend q item => SynchList_Append q item
  | SynchRemoveFront q => SynchList_RemoveFront q
  | NewSemaphore s v => put_semaphore s (mkSemaphore v [])
  | DeleteSemaphore s => delete_Semaphore s
  | AssertValue s v => x ← get_semaphore s; lift (ASSERT (value x =? v))
  | NewSynchList q l s c => new_SynchList q l s c
  | DeleteSynchList q => delete_SynchList q
  | AssertEmpty q => x ← get_synchList q; lift (ASSERT (bool_decide (items x = [])))
  | Print text => modify (fun k => with_output k (output k ++ [text]))
  | AssertGot v =>
      t ← gets currentThread; x ← get_thread t; lift (ASSERT (v =? got x))
  | AppendGot q => t ← gets currentThread; x ← get_thread t; SynchList_Append q (got x)
  | Request d arg => request d arg
  | Call func arg => push (procs func arg)
  | Halt => Interrupt_Halt
  | SetLevel_ now => SetLevel now;; mret tt
  | OneTick_ => OneTick
  | SetStatus_ st => set_status st
  | Switched => Run_back
  | SleepLoop finishing => Sleep_loop finishing
  | Begin => Thread_Begin
  | Finish => Thread_Finish
  | PLoop s => P_loop s
  | SetHolder l => set_holder l
  | ListAppend q item => list_append q item
  | ListWait q => list_wait q
  | ListTake q => list_take q
  end.

(** The current thread takes its next instruction. *)
Definition fetch : stM K instr :=
  t ← gets currentThread;
  x ← get_thread t;
  match code x with
  | [] => lift (Fail Undefined)
  | i :: c => put_thread t (with_code x c);; mret i
  end.

Definition step : stM K unit := i ← fetch; exec i.

Fixpoint steps (n : nat) : stM K unit :=
  match n with O => mret tt | S n' => step;; steps n' end.

End Steps.

(** ** The self tests *)

(** Addresses of the objects the tests create. *)
Definition this_sem : nat := 1000.
Definition ping_sem : nat := 1001.
Definition this_list : nat := 1002.
Definition ping_list : nat := 1003.

(** The text a looping thread prints: its number and the count. *)
Definition looped (which num : Z) : list Z := [which; num].

(** [SimpleThread] of threads/thread.cc *)
Definition SimpleThread (which : Z) : list instr :=
  flat_map (fun num => [Print (looped which num); Yield]) (seqZ 0 5).

(** [SelfTestHelper] of threads/synch.cc *)
Definition SemaphoreHelper : list instr :=
  concat (replicate 10 [P ping_sem; V this_sem]).

(** [SelfTestHelper] of threads/synchlist.cc *)
Definition SynchListHelper : list instr :=
  concat (replicate 10 [SynchRemoveFront ping_list; AppendGot this_list]).

Definition test_procs (func : nat) (arg : Z) : list instr :=
  match func with
  | 0%nat => SimpleThread arg
  | 1%nat => SemaphoreHelper
  | _ => SynchListHelper
  end.

Definition Thread_SelfTest : list instr := [Fork 0 1; Yield] ++ SimpleThread 0.

Definition Semaphore_SelfTest : list instr :=
  [AssertValue this_sem 0; NewSemaphore ping_sem 0; Fork 1 0] ++
  concat (replicate 10 [V ping_sem; P this_sem]) ++ [DeleteSemaphore ping_sem].

Definition SynchList_SelfTest (val : Z) : list instr :=
  [AssertEmpty this_list; NewSynchList ping_list 1010 1011 1012; Fork 2 0] ++
  concat (replicate 10 [SynchAppend ping_list val; SynchRemoveFront this_list; AssertGot val]) ++
  [DeleteSynchList ping_list].

(** [Kernel::ThreadSelfTest] without the library tests. *)
Definition ThreadSelfTest : list instr :=
  Thread_SelfTest ++
  NewSemaphore this_sem 0 :: Semaphore_SelfTest ++ [DeleteSemaphore this_sem] ++
  NewSynchList this_list 1020 1021 1022 :: SynchList_SelfTest 9 ++ [DeleteSynchList this_list].

(** The kernel as [Kernel::Initialize] leaves it, with the devices of [D] and
    nothing pending but what [p] lists: the main thread is about to enable
    interrupts and go on with [main]. *)
Definition new_kernel {D} (d : D) (rs : bool) (p : list PendingInterrupt) (m : option Machine)
    (main : list instr) : Kern D :=
  mkKern {[ 0%nat := mkThread None RUNNING (replicate (Z.to_nat NumTotalRegs) 0) None
              (SetLevel_ IntOn :: main ++ [Halt]) 0 ]}
    0 (mkScheduler [] None) (mkInterrupt IntOff p false false SystemMode) (mkStats 0 0 0 0)
    (mkTimer rs false) ∅ ∅ ∅ ∅ 2000 m d [].
