(* ===== verification/ThreadsInv.v ===== *)
(** * The scheduler's invariant (threads/thread.cc, threads/scheduler.cc,
      threads/synch.cc, machine/interrupt.cc)

    Every thread is in at most one place: running, on the ready list, or on
    the queue of one semaphore; its status says which; the code of a thread
    that is not running starts with the end of [Scheduler::Run] or with
    [ThreadRoot], at interrupt level off.  The invariant holds in every state
    reachable by steps, whatever the procedures of the threads do and wherever
    the time slices fall, and under it no assertion of the scheduler, of the
    interrupt module or of the queues can fire. *)

From Stdlib Require Import Sorting.Sorted.
From S2P Require Import Prelude LinkedList Machine AddrSpace Threads.

(** ** Forms of code *)

(** What a procedure may call. *)
Definition client (i : instr) : bool :=
  match i with
  | SetLevel_ _ | OneTick_ | SetStatus_ _ | Switched | SleepLoop _ | Begin | Finish | PLoop _
  | SetHolder _ | ListAppend _ _ | ListWait _ | ListTake _ => false
  | _ => true
  end.

(** What may stand in the middle of a thread's code. *)
Definition inner (i : instr) : bool :=
  match i with
  | Switched | SleepLoop _ | Begin | Finish => false
  | _ => true
  end.

(** A thread's code ends in [Finish], or in [Halt] for the main thread. *)
Fixpoint wf_code (c : list instr) : bool :=
  match c with
  | [] => false
  | i :: c' =>
      match c' with
      | [] => bool_decide (i = Finish) || bool_decide (i = Halt)
      | _ => inner i && wf_code c'
      end
  end.

(** The interrupt level after an instruction that starts at level [lv]; [None]
    where the instruction may not start there. *)
Definition after (i : instr) (lv : IntStatus) : option IntStatus :=
  match i with
  | SetLevel_ now => Some now
  | OneTick_ => if bool_decide (lv = IntOn) then Some IntOn else None
  | Switched | SleepLoop _ | PLoop _ => if bool_decide (lv = IntOff) then Some IntOff else None
  | Begin => if bool_decide (lv = IntOff) then Some IntOn else None
  | Finish => Some IntOff
  | _ => Some lv
  end.

Fixpoint levels (lv : IntStatus) (c : list instr) : bool :=
  match c with
  | [] => true
  | i :: c' => match after i lv with Some lv' => levels lv' c' | None => false end
  end.

Lemma wf_code_app p c : forallb inner p = true -> wf_code c = true -> wf_code (p ++ c) = true.
Proof.
  intros Hp Hc. induction p as [ | i p IH]; [done | ]. simpl in *.
  apply andb_true_iff in Hp as [Hi Hp]. specialize (IH Hp).
  destruct (p ++ c) eqn:E; [ | by rewrite Hi, IH].
  apply app_nil in E as [-> ->]. done.
Qed.

Lemma wf_code_cons i c : wf_code (i :: c) = true ->
  (c = [] /\ (i = Finish \/ i = Halt)) \/ (inner i = true /\ wf_code c = true).
Proof.
  simpl. destruct c as [ | j c].
  - intros [H | H]%orb_true_iff; apply bool_decide_eq_true in H; auto.
  - intros [? ?]%andb_true_iff. by right.
Qed.

Lemma client_inner i : client i = true -> inner i = true.
Proof. by destruct i. Qed.

Lemma client_after i lv : client i = true -> after i lv = Some lv.
Proof. by destruct i. Qed.

(** The code a forked thread starts with. *)
Lemma root_code f :
  forallb client f = true -> wf_code (f ++ [Finish]) = true /\ levels IntOff (Begin :: f ++ [Finish]) = true.
Proof.
  intros Hf. split.
  - apply wf_code_app; [ | done]. apply forallb_forall. intros i Hi.
    apply client_inner. by eapply forallb_forall in Hf.
  - cbn [levels after bool_decide]. rewrite bool_decide_eq_true_2 by done.
    induction f as [ | i f IH]; [done | ]. simpl in *. apply andb_true_iff in Hf as [Hi Hf].
    rewrite client_after by done. by apply IH.
Qed.

(** ** The invariant *)

(** A thread that can be switched to. *)
Definition parked (x : Thread) : Prop :=
  exists i b, code x = i :: b /\ (i = Switched \/ i = Begin) /\ wf_code b = true /\
    levels IntOff (code x) = true.

Definition in_queue (S : gmap nat Semaphore) (t : nat) : Prop :=
  exists s x, S !! s = Some x /\ t ∈ queue x.

(** What holds of the threads and the lists, apart from the code of the
    current thread. *)
Record places (T : gmap nat Thread) (cur : nat) (ready : list nat) (S : gmap nat Semaphore)
    (tbd : option nat) (next : nat) : Prop := {
  pl_cur : is_Some (T !! cur);
  pl_next t : is_Some (T !! t) -> (t < next)%nat;
  pl_ready_nodup : NoDup ready;
  pl_ready t : t ∈ ready ->
    exists x, T !! t = Some x /\ thread_status x = READY /\ (t <> cur -> parked x);
  pl_queue_nodup s x : S !! s = Some x -> NoDup (queue x);
  pl_queue s x t : S !! s = Some x -> t ∈ queue x ->
    exists y, T !! t = Some y /\ thread_status y = BLOCKED /\ (t <> cur -> parked y);
  pl_queue_one s x s' x' t : S !! s = Some x -> S !! s' = Some x' ->
    t ∈ queue x -> t ∈ queue x' -> s = s';
  pl_destroy t : tbd = Some t -> t <> cur /\ is_Some (T !! t) /\ t ∉ ready /\ ~ in_queue S t;
  pl_running t x : T !! t = Some x -> t <> cur -> thread_status x <> RUNNING;
  pl_stack t x : T !! t = Some x -> stack x = None \/ stack x = Some STACK_FENCEPOST;
  pl_regs t x : T !! t = Some x -> regs_wf (userRegisters x)
}.

Section Invariant.
Context {D : Type}.
Notation K := (Kern D).
Implicit Types k : K.

Definition ready_of k : list nat := readyList (scheduler k).
Definition doomed k : option nat := toBeDestroyed (scheduler k).
Definition level_of k : IntStatus := level (interrupt k).
Definition handling k : bool := inHandler (interrupt k).
Definition pending_of k : list PendingInterrupt := pending (interrupt k).
Definition now_of k : Z := totalTicks (stats k).

Definition machine_ok k : Prop :=
  (forall m, machine k = Some m -> regs_wf (registers m)) /\
  (forall t x sp, threads k !! t = Some x -> space x = Some sp -> is_Some (machine k)).

(** The kernel with the current thread about to run code [c]. *)
Record base k (c : list instr) : Prop := {
  b_places : places (threads k) (currentThread k) (ready_of k) (semaphores k) (doomed k) (nextAddress k);
  b_code : exists x, threads k !! currentThread k = Some x /\ code x = c;
  b_machine : machine_ok k;
  b_sorted : Sorted (ordered PendingCompare) (pending_of k);
  b_now : 0 <= now_of k
}.

Definition cur_status k (st : ThreadStatus) : Prop :=
  exists x, threads k !! currentThread k = Some x /\ thread_status x = st.

(** Running code [c] at level [lv]. *)
Record running k (lv : IntStatus) (c : list instr) : Prop := {
  r_base : base k c;
  r_level : level_of k = lv;
  r_handler : handling k = false;
  r_doomed : doomed k = None;
  r_status : cur_status k RUNNING
}.

(** The four forms of a state between steps: running; just switched to;
    waiting for something to run, asleep or finished. *)
Inductive kinv k : Prop :=
  | InvRunning lv c : running k lv c -> wf_code c = true -> levels lv c = true -> kinv k
  | InvArrived x : base k (code x) -> level_of k = IntOff -> handling k = false ->
      threads k !! currentThread k = Some x -> parked x -> thread_status x = RUNNING -> kinv k
  | InvSleeping c : base k (SleepLoop false :: c) -> level_of k = IntOff -> handling k = false ->
      doomed k = None -> wf_code c = true -> levels IntOff c = true ->
      ~ cur_status k RUNNING -> kinv k
  | InvFinished : base k [SleepLoop true] -> level_of k = IntOff -> handling k = false ->
      doomed k = None -> cur_status k BLOCKED -> ~ in_queue (semaphores k) (currentThread k) -> kinv k.

(** Time enough before the [int] clock overflows: up to [HORIZON] between
    steps; a tick later, still before [LATE]. *)
Definition HORIZON : Z := 2 ^ 31 - 2 ^ 21.
Definition LATE : Z := 2 ^ 31 - 2 ^ 20 - 1.

Definition before (limit : Z) k : Prop :=
  now_of k <= limit /\ Forall (fun p => when p <= limit) (pending_of k).
Definition room k : Prop := before HORIZON k.

End Invariant.

(** ** The invariant of the places under the kernel's moves *)

Section Moves.
Implicit Types (T : gmap nat Thread) (S : gmap nat Semaphore) (ready : list nat) (tbd : option nat).

Ltac on_thread t cur :=
  destruct (decide (t = cur)) as [-> | ];
  [rewrite lookup_insert_eq in * | rewrite lookup_insert_ne in * by done].

Definition free S ready (t : nat) : Prop := t ∉ ready /\ ~ in_queue S t.

Lemma running_free T cur ready S tbd next x :
  places T cur ready S tbd next -> T !! cur = Some x -> thread_status x = RUNNING -> free S ready cur.
Proof.
  intros Hp Hx Hs. split.
  - intros Hin. destruct (pl_ready _ _ _ _ _ _ Hp _ Hin) as (? & ? & ? & _). congruence.
  - intros (s & q & Hq & Hin). destruct (pl_queue _ _ _ _ _ _ Hp _ _ _ Hq Hin) as (? & ? & ? & _).
    congruence.
Qed.

(** The record of one thread changes; its status too only if it is on no
    list. *)
Lemma places_set T cur ready S tbd next t x x' :
  places T cur ready S tbd next -> T !! t = Some x ->
  (stack x' = None \/ stack x' = Some STACK_FENCEPOST) -> regs_wf (userRegisters x') ->
  (thread_status x' = thread_status x \/ free S ready t /\ (t <> cur -> thread_status x' <> RUNNING)) ->
  (t <> cur -> code x' = code x) ->
  places (<[t := x']> T) cur ready S tbd next.
Proof.
  intros [H1 H2 H3 H4 H5 H6 H7 H8 H9 H10 H11] Hx Hst Hr Hs Hc. split; try done.
  - apply lookup_insert_is_Some. destruct (decide (t = cur)); [by left | by right].
  - intros u Hu. apply H2. apply lookup_insert_is_Some in Hu as [<- | [_ ?]]; [by eexists | done].
  - intros u Hu. destruct (H4 u Hu) as (y & Hy & Hys & Hp). on_thread u t; [ | by eauto].
    exists x'. simplify_eq. split_and!; [done | | intros Hne; specialize (Hp Hne)].
    + destruct Hs as [-> | [[? _] _]]; done.
    + unfold parked in *. by rewrite Hc.
  - intros s q u Hq Hu. destruct (H6 s q u Hq Hu) as (y & Hy & Hys & Hp). on_thread u t; [ | by eauto].
    exists x'. simplify_eq. split_and!; [done | | intros Hne; specialize (Hp Hne)].
    + destruct Hs as [-> | [[_ Hnq] _]]; [done | ]. destruct Hnq. by exists s, q.
    + unfold parked in *. by rewrite Hc.
  - intros u Hu. destruct (H8 u Hu) as (? & ? & ? & ?). split_and!; try done.
    apply lookup_insert_is_Some. destruct (decide (t = u)); [by left | by right].
  - intros u y Hu Hne. on_thread u t; [ | by eauto]. simplify_eq.
    destruct Hs as [-> | [_ Hs]]; [by eauto | by apply Hs].
  - intros u y Hu. on_thread u t; [ | by eauto]. by simplify_eq.
  - intros u y Hu. on_thread u t; [ | by eauto]. by simplify_eq.
Qed.

(** A thread on no list becomes ready. *)
Lemma places_wake T cur ready S tbd next t y :
  places T cur ready S tbd next -> T !! t = Some y -> free S ready t -> tbd <> Some t ->
  (t <> cur -> parked y) ->
  places (<[t := with_status y READY]> T) cur (ready ++ [t]) S tbd next.
Proof.
  intros Hp Hy Hf Ht Hpk.
  assert (Hp' : places (<[t := with_status y READY]> T) cur ready S tbd next).
  { eapply places_set; [done | done | exact (pl_stack _ _ _ _ _ _ Hp _ _ Hy) | exact (pl_regs _ _ _ _ _ _ Hp _ _ Hy) | | done].
    right. split; [done | ]. by intros _. }
  destruct Hp' as [H1 H2 H3 H4 H5 H6 H7 H8 H9 H10 H11], Hf as [Hf1 Hf2]. split; try done.
  - apply NoDup_app. split_and!; [done | | by apply NoDup_singleton].
    intros u Hu ->%list_elem_of_singleton. done.
  - intros u [Hu | ->%list_elem_of_singleton]%elem_of_app; [by apply H4 | ].
    exists (with_status y READY). rewrite lookup_insert_eq. split_and!; [done | done | ].
    intros Hne. by apply Hpk in Hne.
  - intros u Hu. destruct (H8 u Hu) as (? & ? & ? & ?). split_and!; try done.
    rewrite elem_of_app, list_elem_of_singleton. intros [? | ->]; [done | congruence].
Qed.

(** The queues change without gaining a thread. *)
Lemma places_queues T cur ready S S' tbd next :
  places T cur ready S tbd next ->
  (forall s x', S' !! s = Some x' -> NoDup (queue x') /\
     (queue x' = [] \/ exists x, S !! s = Some x /\ queue x' ⊆ queue x)) ->
  places T cur ready S' tbd next.
Proof.
  intros [H1 H2 H3 H4 H5 H6 H7 H8 H9 H10 H11] Hs.
  assert (Hin : forall s x' t, S' !! s = Some x' -> t ∈ queue x' ->
    exists x, S !! s = Some x /\ t ∈ queue x).
  { intros s x' t Hx' Ht. destruct (Hs s x' Hx') as [_ [E | (x & Hx & Hsub)]].
    - rewrite E in Ht. by apply elem_of_nil in Ht.
    - exists x. split; [done | by apply Hsub]. }
  split; try done.
  - intros s x' Hx'. by apply Hs in Hx' as [? _].
  - intros s x' t Hx' Ht. destruct (Hin s x' t Hx' Ht) as (x & Hx & Htx). by eapply H6.
  - intros s x1 s' x2 t Hx1 Hx2 Ht1 Ht2. destruct (Hin _ _ _ Hx1 Ht1) as (? & ? & ?).
    destruct (Hin _ _ _ Hx2 Ht2) as (? & ? & ?). by eapply H7.
  - intros t Ht. destruct (H8 t Ht) as (? & ? & ? & Hnq). split_and!; try done.
    intros (s & x' & Hx' & Htx). apply Hnq. destruct (Hin _ _ _ Hx' Htx) as (x & ? & ?). by exists s, x.
Qed.

(** The first thread of a queue leaves it. *)
Lemma places_dequeue T cur ready S tbd next s x t q v :
  places T cur ready S tbd next -> S !! s = Some x -> queue x = t :: q ->
  places T cur ready (<[s := mkSemaphore v q]> S) tbd next /\
  free (<[s := mkSemaphore v q]> S) ready t /\ tbd <> Some t /\
  exists y, T !! t = Some y /\ thread_status y = BLOCKED /\ (t <> cur -> parked y).
Proof.
  intros Hp Hx Hq. pose proof (pl_queue_nodup _ _ _ _ _ _ Hp _ _ Hx) as Hnd. rewrite Hq in Hnd.
  apply NoDup_cons in Hnd as [Hnt Hnd].
  assert (Htx : t ∈ queue x) by (rewrite Hq; left).
  destruct (pl_queue _ _ _ _ _ _ Hp _ _ _ Hx Htx) as (y & Hy & Hys & Hyp).
  split_and!; [ | | | by exists y].
  - eapply places_queues; [done | ]. intros s' x' Hx'. destruct (decide (s' = s)) as [-> | Hne].
    + rewrite lookup_insert_eq in Hx'. injection Hx' as <-. split; [done | ]. right. exists x.
      split; [done | ]. rewrite Hq. simpl. set_solver.
    + rewrite lookup_insert_ne in Hx' by done. split; [by eapply pl_queue_nodup | ]. right. by exists x'.
  - split.
    + intros Hr. destruct (pl_ready _ _ _ _ _ _ Hp _ Hr) as (? & ? & ? & _). congruence.
    + intros (s' & x' & Hx' & Htx'). destruct (decide (s' = s)) as [-> | Hne].
      * rewrite lookup_insert_eq in Hx'. injection Hx' as <-. done.
      * rewrite lookup_insert_ne in Hx' by done. apply Hne.
        by eapply (pl_queue_one _ _ _ _ _ _ Hp s' x' s x t).
  - intros Ht. destruct (pl_destroy _ _ _ _ _ _ Hp _ Ht) as (_ & _ & _ & Hnq). apply Hnq. by exists s, x.
Qed.

(** The current thread, on no list, joins a queue and blocks. *)
Lemma places_enqueue T cur ready S tbd next s x y c v :
  places T cur ready S tbd next -> S !! s = Some x -> T !! cur = Some y -> free S ready cur ->
  places (<[cur := with_status (with_code y c) BLOCKED]> T) cur ready
    (<[s := mkSemaphore v (queue x ++ [cur])]> S) tbd next.
Proof.
  intros Hp Hx Hy Hf.
  assert (Hp' : places (<[cur := with_status (with_code y c) BLOCKED]> T) cur ready S tbd next).
  { eapply places_set; [done | done | exact (pl_stack _ _ _ _ _ _ Hp _ _ Hy) | exact (pl_regs _ _ _ _ _ _ Hp _ _ Hy) | by right | done]. }
  assert (Hold : forall s' x' t, <[s := mkSemaphore v (queue x ++ [cur])]> S !! s' = Some x' ->
    t ∈ queue x' -> (t = cur /\ s' = s) \/ exists x0, S !! s' = Some x0 /\ t ∈ queue x0).
  { intros s' x' t Hx' Ht. destruct (decide (s' = s)) as [-> | Hne].
    - rewrite lookup_insert_eq in Hx'. injection Hx' as <-. simpl in Ht.
      apply elem_of_app in Ht as [Ht | ->%list_elem_of_singleton]; [right; by exists x | by left].
    - rewrite lookup_insert_ne in Hx' by done. right. by exists x'. }
  destruct Hf as [Hf1 Hf2].
  destruct Hp' as [H1 H2 H3 H4 H5 H6 H7 H8 H9 H10 H11]. split; try done.
  - intros s' x' Hx'. destruct (decide (s' = s)) as [-> | Hne].
    + rewrite lookup_insert_eq in Hx'. injection Hx' as <-. simpl. apply NoDup_app.
      split_and!; [by eapply H5 | | by apply NoDup_singleton].
      intros u Hu ->%list_elem_of_singleton. apply Hf2. by exists s, x.
    + rewrite lookup_insert_ne in Hx' by done. by eapply H5.
  - intros s' x' t Hx' Ht. destruct (Hold _ _ _ Hx' Ht) as [[-> ->] | (x0 & Hx0 & Ht0)]; [ | by eapply H6].
    exists (with_status (with_code y c) BLOCKED). by rewrite lookup_insert_eq.
  - intros s1 x1 s2 x2 t Hx1 Hx2 Ht1 Ht2.
    destruct (Hold _ _ _ Hx1 Ht1) as [[-> ->] | (x3 & Hx3 & Ht3)],
      (Hold _ _ _ Hx2 Ht2) as [[E ->] | (x4 & Hx4 & Ht4)]; [done | | | by eapply H7].
    + destruct Hf2. by exists s2, x4.
    + subst. destruct Hf2. by exists s1, x3.
  - intros t Ht. destruct (H8 t Ht) as (? & ? & ? & Hnq). split_and!; try done.
    intros (s' & x' & Hx' & Htx). destruct (Hold _ _ _ Hx' Htx) as [[? _] | (x0 & ? & ?)]; [done | ].
    apply Hnq. by exists s', x0.
Qed.

(** The first ready thread leaves the ready list. *)
Lemma places_pop T cur ready S tbd next n :
  places T cur (n :: ready) S tbd next ->
  places T cur ready S tbd next /\ free S ready n /\ tbd <> Some n /\
  exists y, T !! n = Some y /\ thread_status y = READY /\ (n <> cur -> parked y).
Proof.
  intros Hp. pose proof (pl_ready_nodup _ _ _ _ _ _ Hp) as [Hn Hnd]%NoDup_cons.
  assert (Hin : n ∈ n :: ready) by left.
  destruct (pl_ready _ _ _ _ _ _ Hp n Hin) as (y & Hy & Hys & Hyp).
  split_and!; [ | split; [done | ] | | by exists y].
  - destruct Hp as [H1 H2 H3 H4 H5 H6 H7 H8 H9 H10 H11]. split; try done.
    + intros t Ht. apply H4. by right.
    + intros t Ht. destruct (H8 t Ht) as (? & ? & Hni & ?). split_and!; try done. intros ?. apply Hni. by right.
  - intros (s & x & Hx & Ht). destruct (pl_queue _ _ _ _ _ _ Hp _ _ _ Hx Ht) as (? & ? & ? & _). congruence.
  - intros Ht. by destruct (pl_destroy _ _ _ _ _ _ Hp _ Ht) as (_ & _ & ? & _).
Qed.

(** The processor goes to [n]; the old thread may be marked for deletion. *)
Lemma places_switch T cur ready S tbd tbd' next n x y :
  places T cur ready S tbd next -> T !! cur = Some x -> T !! n = Some y ->
  free S ready n -> tbd <> Some n -> thread_status x <> RUNNING ->
  free S ready cur \/ parked x ->
  (tbd' = tbd /\ tbd <> Some n) \/ (tbd' = Some cur /\ n <> cur /\ free S ready cur) ->
  places (<[n := with_status y RUNNING]> T) n ready S tbd' next.
Proof.
  intros [H1 H2 H3 H4 H5 H6 H7 H8 H9 H10 H11] Hx Hy [Hf1 Hf2] Htn Hs Hpk Ht.
  assert (Hother : forall t z, t <> n -> T !! t = Some z -> (t <> cur -> parked z) ->
    ~ free S ready t -> parked z).
  { intros t z Hne Hz Hpz Hnf. destruct (decide (t = cur)) as [-> | Hc]; [ | by apply Hpz].
    simplify_eq. by destruct Hpk. }
  split; try done.
  - rewrite lookup_insert_eq. by eexists.
  - intros t Ht'. apply H2. apply lookup_insert_is_Some in Ht' as [<- | [_ ?]]; [by eexists | done].
  - intros t Hin. destruct (H4 t Hin) as (z & Hz & Hzs & Hzp).
    destruct (decide (t = n)) as [-> | Hne]; [done | ]. exists z.
    rewrite lookup_insert_ne by done. split_and!; [done | done | ]. intros _.
    apply (Hother t); try done. intros [? _]. done.
  - intros s q t Hq Hin. destruct (H6 s q t Hq Hin) as (z & Hz & Hzs & Hzp).
    destruct (decide (t = n)) as [-> | Hne]; [destruct Hf2; by exists s, q | ]. exists z.
    rewrite lookup_insert_ne by done. split_and!; [done | done | ]. intros _.
    apply (Hother t); try done. intros [_ Hq']. apply Hq'. by exists s, q.
  - intros t Ht'. destruct Ht as [[-> _] | (-> & Hne & Hfc)].
    + destruct (H8 t Ht') as (? & ? & ? & ?). split_and!; try done; [congruence | ].
      apply lookup_insert_is_Some. destruct (decide (n = t)); [by left | by right].
    + injection Ht' as <-. destruct Hfc. split_and!; try done.
      rewrite lookup_insert_ne by done. by eexists.
  - intros t z Hz Hne. rewrite lookup_insert_ne in Hz by done.
    destruct (decide (t = cur)) as [-> | Hc]; [congruence | by eapply H9].
  - intros t z Hz. destruct (decide (t = n)) as [-> | Hne];
      [rewrite lookup_insert_eq in Hz; injection Hz as <-; exact (H10 n y Hy) | rewrite lookup_insert_ne in Hz by done; by eauto].
  - intros t z Hz. destruct (decide (t = n)) as [-> | Hne];
      [rewrite lookup_insert_eq in Hz; injection Hz as <-; exact (H11 n y Hy) | rewrite lookup_insert_ne in Hz by done; by eauto].
Qed.

(** A thread is created. *)
Lemma places_new T cur ready S tbd next x :
  places T cur ready S tbd next ->
  (stack x = None \/ stack x = Some STACK_FENCEPOST) -> regs_wf (userRegisters x) ->
  thread_status x <> RUNNING ->
  places (<[next := x]> T) cur ready S tbd (Datatypes.S next) /\ free S ready next /\
  tbd <> Some next /\ cur <> next.
Proof.
  intros [H1 H2 H3 H4 H5 H6 H7 H8 H9 H10 H11] Hst Hr Hs.
  assert (Hfresh : forall t, is_Some (T !! t) -> t <> next) by (intros t Ht; apply H2 in Ht; lia).
  assert (Hin : forall t z, T !! t = Some z -> <[next := x]> T !! t = Some z).
  { intros t z Hz. rewrite lookup_insert_ne; [done | ]. by symmetry; apply Hfresh; eexists. }
  split_and!.
  - split; try done.
    + destruct H1 as [z Hz]. exists z. by apply Hin.
    + intros t [<- | [_ Ht]]%lookup_insert_is_Some; [lia | ]. apply H2 in Ht. lia.
    + intros t Ht. destruct (H4 t Ht) as (z & Hz & ? & ?). exists z. by rewrite (Hin t z).
    + intros s q t Hq Ht. destruct (H6 s q t Hq Ht) as (z & Hz & ? & ?). exists z. by rewrite (Hin t z).
    + intros t Ht. destruct (H8 t Ht) as (? & [z Hz] & ? & ?). split_and!; try done. exists z. by apply Hin.
    + intros t z Hz Hne. destruct (decide (t = next)) as [-> | Hn];
        [rewrite lookup_insert_eq in Hz; by injection Hz as <- | rewrite lookup_insert_ne in Hz by done; by eauto].
    + intros t z Hz. destruct (decide (t = next)) as [-> | Hn];
        [rewrite lookup_insert_eq in Hz; by injection Hz as <- | rewrite lookup_insert_ne in Hz by done; by eauto].
    + intros t z Hz. destruct (decide (t = next)) as [-> | Hn];
        [rewrite lookup_insert_eq in Hz; by injection Hz as <- | rewrite lookup_insert_ne in Hz by done; by eauto].
  - split.
    + intros Hn. destruct (H4 _ Hn) as (z & Hz & _). by apply (Hfresh next); [eexists | ].
    + intros (s & q & Hq & Hn). destruct (H6 _ _ _ Hq Hn) as (z & Hz & _).
      by apply (Hfresh next); [eexists | ].
  - intros Hn. destruct (H8 _ Hn) as (_ & Hz & _). by apply (Hfresh next).
  - by apply Hfresh.
Qed.

(** The thread marked for deletion is deleted. *)
Lemma places_destroy T cur ready S t next :
  places T cur ready S (Some t) next -> t <> cur /\ places (delete t T) cur ready S None next.
Proof.
  intros [H1 H2 H3 H4 H5 H6 H7 H8 H9 H10 H11]. destruct (H8 t eq_refl) as (Hne & Ht & Hr & Hq).
  assert (Hdel : forall u z, delete t T !! u = Some z -> T !! u = Some z).
  { intros u z Hz. apply lookup_delete_Some in Hz as [_ Hz]. done. }
  split; [done | ]. split; try done; try by (intros; eauto).
  - by rewrite lookup_delete_ne.
  - intros u [z Hz]. apply H2. exists z. by apply Hdel.
  - intros u Hu. destruct (H4 u Hu) as (z & Hz & ? & ?). exists z.
    rewrite lookup_delete_ne by congruence. done.
  - intros s q u Hq' Hu. destruct (H6 s q u Hq' Hu) as (z & Hz & ? & ?). exists z.
    rewrite lookup_delete_ne; [done | ]. intros <-. apply Hq. by exists s, q.
Qed.

End Moves.

(** ** Saving and restoring user registers *)

Lemma ReadRegister_ok {X} i (m : Machine) (u : X) v :
  0 <= i < NumTotalRegs -> registers m !! Z.to_nat i = Some v -> ReadRegister i (m, u) = Ok (v, (m, u)).
Proof.
  intros Hi Hv. unfold ReadRegister, getreg. run. unfold ASSERT.
  rewrite (proj2 (Z.leb_le 0 i)), (proj2 (Z.ltb_lt i NumTotalRegs)) by lia. simpl.
  by rewrite (zget_lookup _ _ v) by (done || lia).
Qed.

Lemma ReadRegisters_ok n : forall i (m : Machine),
  0 <= i -> i + Z.of_nat n <= NumTotalRegs -> length (registers m) = Z.to_nat NumTotalRegs ->
  mapM ReadRegister (seqZ i (Z.of_nat n)) (m, tt) =
    Ok (take n (drop (Z.to_nat i) (registers m)), (m, tt)).
Proof.
  induction n as [ | n IH]; intros i m Hi Hn Hl; [done | ].
  rewrite seqZ_cons by lia. replace (Z.pred (Z.of_nat (S n))) with (Z.of_nat n) by lia.
  destruct (lookup_lt_is_Some_2 (registers m) (Z.to_nat i)) as [v Lv]; [lia | ].
  simpl. unfold mbind, stM_bind. rewrite (ReadRegister_ok i m tt v) by (done || lia).
  rewrite (IH (Z.succ i)) by (done || lia).
  replace (Z.to_nat (Z.succ i)) with (S (Z.to_nat i)) by lia. by rewrite (drop_S _ v (Z.to_nat i) Lv).
Qed.

Lemma write_registers_ok r : forall i (m : Machine),
  0 <= i -> i + Z.of_nat (length r) = NumTotalRegs ->
  length (registers m) = Z.to_nat NumTotalRegs ->
  write_registers i r (m, tt) =
    Ok (tt, (with_registers m (take (Z.to_nat i) (registers m) ++ r), tt)).
Proof.
  induction r as [ | v r IH]; intros i m Hi Hn Hl; cbn [write_registers length] in *.
  - rewrite take_ge by lia. rewrite app_nil_r. by destruct m.
  - unfold mbind, stM_bind. rewrite WriteRegister_ok by (done || unfold is_reg; lia).
    rewrite IH; [ | lia | lia | by rewrite upd_length]. unfold upd. cbn [registers with_registers].
    replace (Z.to_nat (i + 1)) with (S (Z.to_nat i)) by lia.
    rewrite (take_S_r _ _ v) by (apply list_lookup_insert_eq; lia).
    rewrite take_insert_ge by lia. by rewrite <- app_assoc.
Qed.

(** ** Operations on the kernel state *)

Section Operations.
Context {D : Type}.
Notation K := (Kern D).
Implicit Types k : K.

Definition set_code k (x : Thread) (c : list instr) : K :=
  with_threads k (<[currentThread k := with_code x c]> (threads k)).
Definition set_off k : K :=
  with_interrupt k (mkInterrupt IntOff (pending_of k) (handling k) (yieldOnReturn (interrupt k))
    (status (interrupt k))).
Definition with_ready k (l : list nat) : K := with_scheduler k (mkScheduler l (doomed k)).

Lemma get_thread_ok k t x : threads k !! t = Some x -> get_thread t k = Ok (x, k).
Proof. intros E. unfold get_thread, find. run. by rewrite E. Qed.

Lemma upd_thread_ok k t x f :
  threads k !! t = Some x -> upd_thread t f k = Ok (tt, with_threads k (<[t := f x]> (threads k))).
Proof. intros E. unfold upd_thread, put_thread, mbind, stM_bind. by rewrite (get_thread_ok k t x). Qed.

Lemma push_ok k x p :
  threads k !! currentThread k = Some x -> push p k = Ok (tt, set_code k x (p ++ code x)).
Proof.
  intros E. unfold push, mbind, stM_bind, gets. by rewrite (upd_thread_ok k _ x).
Qed.

Lemma fetch_ok k x i c :
  threads k !! currentThread k = Some x -> code x = i :: c -> fetch k = Ok (i, set_code k x c).
Proof.
  intros E Ec. unfold fetch, mbind, stM_bind, gets. rewrite (get_thread_ok k _ x) by done. by rewrite Ec.
Qed.

Lemma assert_off_ok k : level_of k = IntOff -> assert_off k = Ok (tt, k).
Proof. intros E. unfold assert_off, getLevel. run. unfold level_of in E. by rewrite E. Qed.

Lemma SetLevel_off k : SetLevel IntOff k = Ok (level_of k, set_off k).
Proof. done. Qed.

Lemma FindNext_nil k : level_of k = IntOff -> ready_of k = [] -> FindNextToRun k = Ok (None, k).
Proof.
  intros El Er. unfold FindNextToRun, mbind, stM_bind. rewrite assert_off_ok by done.
  unfold gets, ready_of in *. by rewrite Er.
Qed.

Lemma FindNext_cons k n l :
  level_of k = IntOff -> ready_of k = n :: l -> FindNextToRun k = Ok (Some n, with_ready k l).
Proof.
  intros El Er. unfold FindNextToRun, mbind, stM_bind. rewrite assert_off_ok by done.
  unfold gets, ready_of in *. by rewrite Er.
Qed.

Lemma ReadyToRun_ok k t y :
  level_of k = IntOff -> threads k !! t = Some y -> t ∉ ready_of k ->
  ReadyToRun t k =
    Ok (tt, with_ready (with_threads k (<[t := with_status y READY]> (threads k))) (ready_of k ++ [t])).
Proof.
  intros El Et Er. unfold ReadyToRun, list_Append, mbind, stM_bind.
  rewrite assert_off_ok by done. rewrite (upd_thread_ok k _ y) by done. unfold gets.
  unfold lift, ASSERT. unfold ready_of in *. cbn [scheduler with_threads].
  by rewrite bool_decide_eq_false_2.
Qed.

Lemma base_set_code k x c c' :
  base k c -> threads k !! currentThread k = Some x -> base (set_code k x c') c'.
Proof.
  intros [Hp Hc Hm Hs Hn] Hx. split; [ | | | done | done].
  - eapply places_set; [done | done | exact (pl_stack _ _ _ _ _ _ Hp _ _ Hx)
      | exact (pl_regs _ _ _ _ _ _ Hp _ _ Hx) | by left | done].
  - exists (with_code x c'). unfold set_code. simpl. by rewrite lookup_insert_eq.
  - destruct Hm as [Hm1 Hm2]. split; [done | ]. intros t y sp Hy Hsp. simpl in *.
    destruct (decide (t = currentThread k)) as [-> | Hne].
    + rewrite lookup_insert_eq in Hy. injection Hy as <-. by eapply (Hm2 _ x).
    + rewrite lookup_insert_ne in Hy by done. by eapply Hm2.
Qed.

Lemma cur_status_set_code k x c st :
  threads k !! currentThread k = Some x -> cur_status k st -> cur_status (set_code k x c) st.
Proof.
  intros Hx (y & Hy & Hs). simplify_eq. exists (with_code x c). simpl. by rewrite lookup_insert_eq.
Qed.

Lemma running_set_code k lv x c c' :
  running k lv c -> threads k !! currentThread k = Some x -> running (set_code k x c') lv c'.
Proof.
  intros [Hb Hl Hh Hd Hs] Hx. split; try done; [by eapply base_set_code | by apply cur_status_set_code].
Qed.

Lemma running_thread k lv c : running k lv c ->
  exists x, threads k !! currentThread k = Some x /\ code x = c /\ thread_status x = RUNNING.
Proof.
  intros [[_ (x & Hx & Hc) _ _ _] _ _ _ (y & Hy & Hs)]. simplify_eq. by exists x.
Qed.

Lemma running_off k lv c : running k lv c -> running (set_off k) IntOff c.
Proof. intros [[Hp Hc Hm Hs Hn] Hl Hh Hd Hst]. done. Qed.

Lemma running_free_cur k lv c :
  running k lv c -> free (semaphores k) (ready_of k) (currentThread k).
Proof.
  intros Hr. destruct (running_thread _ _ _ Hr) as (x & Hx & _ & Hs).
  eapply running_free; [apply Hr | done | done].
Qed.

Lemma wp_push E (Q : unit -> K -> Prop) k lv c p :
  running k lv c -> (forall k', running k' lv (p ++ c) -> Q tt k') -> wp E Q (push p) k.
Proof.
  intros Hr HQ. destruct (running_thread _ _ _ Hr) as (x & Hx & Hc & _).
  eapply wp_ok; [by apply push_ok | ]. rewrite Hc. apply HQ. by eapply running_set_code.
Qed.

(** [SetLevel] to any level, called by a running thread. *)
Definition ticks (lv now : IntStatus) : list instr :=
  if bool_decide (now = IntOn) && bool_decide (lv = IntOff) then [OneTick_] else [].

Lemma wp_SetLevel E (Q : IntStatus -> K -> Prop) k lv c now :
  running k lv c -> (forall k', running k' now (ticks lv now ++ c) -> Q lv k') ->
  wp E Q (SetLevel now) k.
Proof.
  intros Hr HQ. pose proof Hr as [_ Hl Hh _ _].
  destruct now; [eapply wp_ok; [apply SetLevel_off | ]; rewrite Hl; apply HQ; by eapply running_off | ].
  unfold SetLevel. apply wp_bind, wp_gets, wp_bind, wp_gets. unfold handling in Hh. rewrite Hh.
  apply wp_bind. eapply wp_lift; [done | ]. apply wp_bind. apply wp_modify.
  set (k1 := with_interrupt _ _).
  assert (Hr1 : running k1 IntOn c) by (destruct Hr as [[Hp Hc Hm Hs Hn] ? ? ? ?]; done).
  unfold level_of in Hl. rewrite Hl. apply wp_bind.
  assert (Ht : wp E (fun _ k' => running k' IntOn (ticks lv IntOn ++ c))
    (if bool_decide (IntOn = IntOn) && bool_decide (lv = IntOff) then push [OneTick_] else mret tt) k1).
  { unfold ticks. case_match; [by eapply wp_push | by apply wp_ret]. }
  eapply wp_mono; [exact Ht | ]. intros [] k' Hk'. apply wp_ret. by apply HQ.
Qed.

End Operations.
