(* ===== verification/ThreadsSafe.v ===== *)
(** * Steps of the thread system keep its invariant (threads/thread.cc,
      threads/scheduler.cc, threads/synch.cc, threads/alarm.cc,
      machine/timer.cc, machine/interrupt.cc)

    Interrupt handlers first: what delivering interrupts does to the kernel
    and that it comes to an end; then the switch of threads; then every
    instruction. *)

From Stdlib Require Import Sorting.Sorted.
From S2P Require Import Prelude LinkedList Machine AddrSpace Threads ThreadsInv.

#[global] Instance PendingCompare_total : TotalCompare PendingCompare.
Proof. intros x y. unfold PendingCompare. repeat case_match; bool_prop; lia. Qed.

Lemma pending_ordered x y : ordered PendingCompare x y <-> when x <= when y.
Proof. unfold ordered, PendingCompare. repeat case_match; bool_prop; lia. Qed.

(** In an ordered list what is not due at the front is not due anywhere. *)
Lemma sorted_later p l now :
  Sorted (ordered PendingCompare) (p :: l) -> now < when p -> Forall (fun q => now < when q) (p :: l).
Proof.
  revert p. induction l as [ | q l IH]; intros p Hs Hp; [by repeat constructor | ].
  apply Sorted_inv in Hs as [Hs Hh]. apply HdRel_inv, pending_ordered in Hh.
  constructor; [done | ]. apply IH; [done | lia].
Qed.

Lemma DelayedLoad_regs (m : Machine) :
  regs_wf (registers m) -> exists m', DelayedLoad 0 0 (m, tt) = Ok (tt, (m', tt)) /\ regs_wf (registers m').
Proof.
  intros [Hl Hi (d & Ld & Hd)]. unfold NumTotalRegs, LoadReg, NumGPRegs in *.
  destruct (lookup_lt_is_Some_2 (registers m) 38) as [v Lv]; [lia | ].
  pose proof (Forall_lookup_1 _ _ _ _ Hi Lv) as Hv.
  unfold DelayedLoad, getreg, setreg. run. unfold LoadReg, LoadValueReg in *.
  rewrite (zget_lookup _ 37 d), (zget_lookup _ 38 v) by (done || lia). cbn [fst snd].
  rewrite zset_in_range by lia. cbn [registers with_registers fst snd].
  rewrite zset_in_range by (rewrite length_insert; lia). cbn [registers with_registers fst snd].
  rewrite zset_in_range by (rewrite !length_insert; lia). cbn [registers with_registers fst snd].
  rewrite zset_in_range by (rewrite !length_insert; lia).
  eexists. split; [done | ]. cbn [registers with_registers]. split.
  - by rewrite !length_insert.
  - repeat apply Forall_insert; done || cint.
  - exists 0. unfold NumGPRegs, LoadReg. split; [ | lia].
    rewrite !list_lookup_insert_ne by lia. rewrite list_lookup_insert_eq; [done | ]. rewrite length_insert. lia.
Qed.

Section Handlers.
Context {D : Type}.
Notation K := (Kern D).
Implicit Types k : K.

(** What an interrupt handler may do: wake threads that wait for a semaphore,
    and schedule interrupts for later. *)
Record quiet k k' : Prop := {
  q_cur : currentThread k' = currentThread k;
  q_level : level_of k' = level_of k;
  q_doomed : doomed k' = doomed k;
  q_now : now_of k <= now_of k';
  q_queue t : in_queue (semaphores k') t -> in_queue (semaphores k) t;
  q_free t : free (semaphores k) (ready_of k) t -> free (semaphores k') (ready_of k') t;
  q_threads t : threads k' !! t = threads k !! t \/
    exists x, threads k !! t = Some x /\ threads k' !! t = Some (with_status x READY) /\
      in_queue (semaphores k) t
}.

Lemma quiet_refl k : quiet k k.
Proof. split; auto. lia. Qed.

Lemma quiet_trans k1 k2 k3 : quiet k1 k2 -> quiet k2 k3 -> quiet k1 k3.
Proof.
  intros [A1 A2 A3 A4 A5 A6 A7] [B1 B2 B3 B4 B5 B6 B7]. split; try congruence; auto; [lia | ].
  intros t. destruct (B7 t) as [-> | (y & Hy & -> & Hq)]; [apply A7 | ].
  right. destruct (A7 t) as [E | (x & Hx & E & Hq')].
  - exists y. rewrite <- E. auto.
  - exists x. rewrite E in Hy. injection Hy as <-. auto.
Qed.

(** A change of anything else. *)
Lemma quiet_frame k k' :
  currentThread k' = currentThread k -> scheduler k' = scheduler k -> level_of k' = level_of k ->
  semaphores k' = semaphores k -> threads k' = threads k -> now_of k <= now_of k' -> quiet k k'.
Proof.
  intros E1 E2 E3 E4 E5 Hn. unfold doomed, ready_of.
  split; unfold doomed, ready_of; rewrite ?E1, ?E2, ?E3, ?E4, ?E5; auto.
Qed.

Ltac frame :=
  apply quiet_frame; [done | done | done | done | done | unfold now_of in *; simpl in *; lia].

(** Interrupts scheduled by a handler are for later. *)
Definition schedules k k' : Prop :=
  exists new, pending_of k' ≡ₚ new ++ pending_of k /\
    Forall (fun p => now_of k < when p <= now_of k + 2 ^ 20) new.

(** What the interrupt module needs of a device's handler, which it calls with
    interrupts off; [faulty] are the faults of its own that it may stop with. *)
Class DeviceOk (faulty : fault -> Prop) (device : nat -> stM K unit) : Prop :=
  device_ok d k c : base k c -> level_of k = IntOff -> handling k = true -> now_of k <= LATE ->
    wp faulty (fun _ k' => base k' c /\ quiet k k' /\ handling k' = true /\ now_of k' = now_of k /\
      schedules k k') (device d) k.

Context {faulty : fault -> Prop} (RandomNumber : D -> Z * D) (device : nat -> stM K unit) `{!DeviceOk faulty device}.

Lemma wp_Schedule o d ty k c :
  base k c -> now_of k <= LATE -> 0 < d <= 2 ^ 20 ->
  wp faulty (fun _ k' => base k' c /\ quiet k k' /\ handling k' = handling k /\ now_of k' = now_of k /\
    schedules k k') (Schedule o d ty) k.
Proof.
  intros Hb Hn Hd. unfold Schedule. apply wp_bind, wp_gets, wp_bind.
  eapply wp_lift; [apply ASSERT_true, Z.ltb_lt; lia | ]. apply wp_bind, wp_gets, wp_modify.
  destruct Hb as [Hp Hc Hm Hs Hn0].
  split_and!; [split; try done; by apply sorted_insert_Sorted; [apply _ | ] | frame | done | done | ].
  eexists [_]. split; [apply sorted_insert_perm | ]. constructor; [ | done]. simpl.
  unfold LATE, now_of in *. pow2. change (2 ^ 20) with 1048576 in *. cint.
Qed.

Lemma wp_SetInterrupt k c :
  base k c -> now_of k <= LATE ->
  wp faulty (fun _ k' => base k' c /\ quiet k k' /\ handling k' = handling k /\ now_of k' = now_of k /\
    schedules k k') (SetInterrupt RandomNumber) k.
Proof.
  intros Hb Hn. unfold SetInterrupt. apply wp_bind, wp_gets, wp_if; intros _.
  2: { apply wp_ret. split_and!; try done; [apply quiet_refl | by exists []]. }
  apply wp_bind, wp_if; intros _.
  - apply wp_bind, wp_gets. destruct (RandomNumber (devices k)) as [r d']. apply wp_bind, wp_modify, wp_ret.
    assert (Hb' : base (with_devices k d') c) by (destruct Hb; done).
    eapply wp_mono; [apply wp_Schedule; [done | done | ] | ].
    + unfold TimerTicks. pose proof (Z.mod_pos_bound (to_u32 r) (100 * 2) ltac:(lia)).
      rewrite to_i32_id by cint. change (2 ^ 20) with 1048576. lia.
    + intros _ k' (? & Hq & ? & ? & ?). split_and!; try done. eapply quiet_trans; [ | exact Hq]. frame.
  - apply wp_ret. apply wp_Schedule; [done | done | ]. unfold TimerTicks. change (2 ^ 20) with 1048576. lia.
Qed.

Lemma wp_CallBack o k c :
  base k c -> level_of k = IntOff -> handling k = true -> now_of k <= LATE ->
  wp faulty (fun _ k' => base k' c /\ quiet k k' /\ handling k' = true /\ now_of k' = now_of k /\
    schedules k k') (CallBack RandomNumber device o) k.
Proof.
  intros Hb Hl Hh Hn. destruct o as [ | d]; [ | by apply (device_ok (device := device) d k c)].
  simpl. unfold Timer_CallBack, Alarm_CallBack. apply wp_bind, wp_bind, wp_gets.
  rewrite <- Hh. apply wp_if; intros _.
  - unfold YieldOnReturn. apply wp_bind, wp_gets, wp_bind.
    eapply wp_lift; [apply ASSERT_true; done | ]. apply wp_modify.
    set (k1 := with_interrupt _ _). assert (Hb1 : base k1 c) by (destruct Hb; done).
    eapply wp_mono; [by apply wp_SetInterrupt | ]. intros _ k' (? & Hq & ? & ? & ?).
    split_and!; try done. eapply quiet_trans; [ | exact Hq]. frame.
  - apply wp_ret. by apply wp_SetInterrupt.
Qed.

(** The interrupts that are due. *)
Definition due (now : Z) (l : list PendingInterrupt) : nat :=
  length (filter (fun p => when p <= now) l).

Lemma due_perm now l l' : l ≡ₚ l' -> due now l = due now l'.
Proof. intros H. unfold due. by rewrite H. Qed.

Lemma due_later now l l' : Forall (fun p => now < when p) l -> due now (l ++ l') = due now l'.
Proof.
  intros Hl. unfold due. induction Hl as [ | p l Hp Hl IH]; [done | ].
  simpl. rewrite filter_cons_False by lia. done.
Qed.

(** The delivery loop ends: each round delivers an interrupt that is due, and
    handlers only add interrupts for later. *)
Lemma wp_fire_loop fuel : forall k c p l,
  base k c -> level_of k = IntOff -> handling k = true -> now_of k <= LATE ->
  pending_of k = p :: l -> when p <= now_of k -> (due (now_of k) (p :: l) <= fuel)%nat ->
  wp faulty (fun _ k' => base k' c /\ quiet k k' /\ handling k' = true /\
    now_of k' = now_of k /\ Forall (fun q => now_of k < when q) (pending_of k')) (fire_loop RandomNumber device fuel) k.
Proof.
  induction fuel as [ | fuel IH]; intros k c p l Hb Hl Hh Hn Hp Hw Hd.
  { unfold due in Hd. rewrite filter_cons_True in Hd by done. simpl in Hd. lia. }
  cbn [fire_loop]. apply wp_bind, wp_gets. unfold pending_of in Hp. rewrite Hp.
  apply wp_bind, wp_modify. set (k1 := with_interrupt _ _).
  assert (Hb1 : base k1 c).
  { destruct Hb as [Hb1 Hb2 Hb3 Hb4 Hb5]. split; try done. unfold pending_of in Hb4.
    rewrite Hp in Hb4. by apply Sorted_inv in Hb4 as [? _]. }
  apply wp_bind. eapply wp_mono; [by apply (wp_CallBack _ k1 c) | ].
  intros [] k2 (Hb2 & Hq2 & Hh2 & Hn2 & new & Hperm & Hnew). apply wp_bind, wp_gets, wp_bind, wp_gets.
  change (now_of k1) with (now_of k) in *. change (pending_of k1) with l in Hperm.
  assert (Hq : quiet k k2) by (eapply quiet_trans; [ | exact Hq2]; frame).
  assert (Hd2 : due (now_of k) (pending_of k2) = due (now_of k) l).
  { rewrite (due_perm _ _ _ Hperm). apply due_later. eapply Forall_impl; [exact Hnew | ]. simpl. lia. }
  destruct (pending (interrupt k2)) as [ | n l2] eqn:E2.
  { apply wp_ret. split_and!; try done. unfold pending_of. by rewrite E2. }
  fold (now_of k2). rewrite Hn2. destruct (Z.leb_spec (when n) (now_of k)) as [Hle | Hgt].
  - eapply wp_mono; [eapply (IH k2 c n l2); try done | ].
    + rewrite (q_level _ _ Hq2). done.
    + by rewrite Hn2.
    + lia.
    + unfold pending_of in Hd2. rewrite E2 in Hd2. rewrite Hn2, Hd2. unfold due in *.
      rewrite filter_cons_True in Hd by done. simpl in Hd. lia.
    + intros [] k3 (? & Hq3 & ? & Hn3 & HF). rewrite Hn2 in *. split_and!; try done.
      by eapply quiet_trans.
  - apply wp_ret. split_and!; try done. destruct Hb2 as [_ _ _ Hs2 _].
    unfold pending_of in *. rewrite E2 in *. by apply sorted_later.
Qed.

(** Nothing is due. *)
Definition caught_up k : Prop := Forall (fun q => now_of k < when q) (pending_of k).

Lemma machine_step k c m m' :
  base k c -> machine k = Some m -> regs_wf (registers m') -> base (with_machine k (Some m')) c.
Proof.
  intros [Hp Hc [Hm1 Hm2] Hs Hn] Em Hr. split; try done. split.
  - intros m2 [= <-]. done.
  - intros t x sp Hx Hsp. by eexists.
Qed.

Lemma wp_fire k c p l :
  base k c -> level_of k = IntOff -> now_of k <= LATE ->
  pending_of k = p :: l -> when p <= now_of k ->
  wp faulty (fun _ k' => base k' c /\ quiet k k' /\ handling k' = false /\ now_of k' = now_of k /\ caught_up k')
    (fire RandomNumber device) k.
Proof.
  intros Hb Hl Hn Hp Hw. unfold fire. apply wp_bind, wp_gets, wp_bind.
  assert (HM : wp faulty (fun _ k' => base k' c /\ quiet k k' /\ interrupt k' = interrupt k /\ stats k' = stats k)
    (match machine k with None => mret tt | Some _ => on_machine (DelayedLoad 0 0) end) k).
  { destruct (machine k) as [m | ] eqn:Em; [ | apply wp_ret; split_and!; try done; apply quiet_refl].
    destruct (DelayedLoad_regs m) as (m' & E & Hr'); [by apply (b_machine _ _ Hb) | ].
    unfold on_machine. apply wp_bind, wp_gets. rewrite Em. apply wp_bind, wp_lift with m; [done | ].
    apply wp_bind. eapply wp_lift; [exact E | ]. apply wp_bind, wp_modify, wp_ret.
    split_and!; try done; [by eapply machine_step | frame]. }
  eapply wp_mono; [exact HM | ]. intros [] k1 (Hb1 & Hq1 & Ei & Es).
  apply wp_bind, wp_modify, wp_bind, wp_gets. set (k2 := with_interrupt _ _).
  assert (Hb2 : base k2 c) by (destruct Hb1; done).
  assert (Ep : pending_of k2 = p :: l) by (unfold pending_of, k2; simpl; by rewrite Ei).
  assert (En : now_of k2 = now_of k) by (unfold now_of, k2; simpl; by rewrite Es).
  change (pending (interrupt k2)) with (pending_of k2). rewrite Ep.
  apply wp_bind. eapply wp_mono.
  - eapply (wp_fire_loop (length (p :: l)) k2 c p l); rewrite ?En; try done.
    + unfold level_of, k2. simpl. by rewrite Ei.
    + unfold due. apply length_filter.
  - intros [] k3 (Hb3 & Hq3 & Hh3 & Hn3 & HF). apply wp_modify. set (k4 := with_interrupt _ _).
    split_and!; [by destruct Hb3 | | done | | ].
    + eapply quiet_trans; [exact Hq1 | ]. eapply quiet_trans; [ | eapply quiet_trans; [exact Hq3 | frame]]. frame.
    + change (now_of k4) with (now_of k3). congruence.
    + unfold caught_up. change (now_of k4) with (now_of k3). by rewrite Hn3.
Qed.

Lemma wp_CheckIfDue adv k c :
  base k c -> level_of k = IntOff -> handling k = false -> before LATE k ->
  wp faulty (fun b k' => base k' c /\ quiet k k' /\ handling k' = false /\ caught_up k' /\
    (b = false -> adv = true -> pending_of k' = [])) (CheckIfDue RandomNumber device adv) k.
Proof.
  intros Hb Hl Hh [Hn Hr]. unfold CheckIfDue. apply wp_bind.
  eapply wp_ok; [by apply assert_off_ok | ]. apply wp_bind, wp_gets, wp_bind, wp_gets.
  fold (pending_of k). destruct (pending_of k) as [ | p l] eqn:Ep.
  { apply wp_ret. unfold caught_up. rewrite Ep. split_and!; try done. apply quiet_refl. }
  fold (now_of k). destruct (Z.ltb_spec (now_of k) (when p)) as [Hlt | Hge].
  - destruct adv; cbn [negb].
    2: { apply wp_ret. split_and!; try done; [apply quiet_refl | ]. unfold caught_up. rewrite Ep.
         apply sorted_later; [ | done]. rewrite <- Ep. apply Hb. }
    apply wp_bind, wp_modify. set (k1 := with_stats _ _).
    assert (Hq1 : quiet k k1) by frame.
    assert (Hb1 : base k1 c).
    { destruct Hb as [Hb1 Hb2 Hb3 Hb4 Hb5]. split; try done. unfold now_of, k1 in *. simpl. lia. }
    apply wp_bind. eapply wp_mono; [apply (wp_fire k1 c p l); try done | ].
    + apply Forall_cons in Hr as [? _]. done.
    + intros [] k' (? & ? & ? & ? & ?). apply wp_ret. split_and!; try done. by eapply quiet_trans.
  - apply wp_bind. eapply wp_mono; [by apply (wp_fire k c p l) | ].
    intros [] k' (? & ? & ? & ? & ?). by apply wp_ret.
Qed.

(** Handlers do not disturb a running thread. *)
Lemma quiet_status k k' c st :
  base k c -> quiet k k' -> ~ in_queue (semaphores k) (currentThread k) ->
  cur_status k st -> cur_status k' st.
Proof.
  intros Hb Hq Hf (x & Hx & Hs). exists x. rewrite (q_cur _ _ Hq).
  destruct (q_threads _ _ Hq (currentThread k)) as [-> | (y & _ & _ & Hin)]; [done | by destruct Hf].
Qed.

Lemma wp_OneTick k c :
  running k IntOn c -> room k ->
  wp faulty (fun _ k' => (running k' IntOn c \/
      exists st, running k' IntOn (Yield :: SetStatus_ st :: c)) /\ now_of k < now_of k' /\ caught_up k')
    (OneTick RandomNumber device) k.
Proof.
  intros Hr Hroom. pose proof Hr as [Hb Hl Hh Hd Hs]. unfold OneTick.
  apply wp_bind, wp_gets, wp_bind, wp_modify, wp_bind, wp_modify.
  set (k1 := with_interrupt _ _).
  assert (Hn1 : now_of k < now_of k1 <= LATE).
  { destruct Hroom as [Hn _], Hb as [_ _ _ _ Hn0]. unfold now_of, k1, tick in *. simpl.
    unfold HORIZON, LATE, SystemTick, UserTick in *. pow2.
    change (2 ^ 20) with 1048576 in *. change (2 ^ 21) with 2097152 in *.
    case_bool_decide; simpl; rewrite to_i32_id by (unfold is_i32; pow2; lia); lia. }
  assert (Hb1 : base k1 c).
  { destruct Hb as [Hb1 Hb2 Hb3 Hb4 Hb5]. split; try done. lia. }
  assert (Hl1 : before LATE k1).
  { split; [lia | ]. destruct Hroom as [_ HF]. eapply Forall_impl; [exact HF | ]. simpl. intros p Hp.
    unfold HORIZON, LATE in *. change (2 ^ 20) with 1048576 in *. change (2 ^ 21) with 2097152 in *. lia. }
  apply wp_bind. eapply wp_mono; [by apply (wp_CheckIfDue false k1 c) | ].
  intros b k2 (Hb2 & Hq2 & Hh2 & Hc2 & _). apply wp_bind, wp_modify. set (k3 := with_interrupt _ _).
  assert (Hr3 : running k3 IntOn c).
  { split; [by destruct Hb2 | done | done | | ].
    - change (doomed k3) with (doomed k2). by rewrite (q_doomed _ _ Hq2).
    - change (cur_status k2 RUNNING). eapply quiet_status; [exact Hb1 | done | | done].
      by apply (running_free_cur k IntOn c). }
  assert (Hn3 : now_of k < now_of k3) by (change (now_of k3) with (now_of k2); pose proof (q_now _ _ Hq2); lia).
  apply wp_bind, wp_gets, wp_if; intros _; [ | by apply wp_ret; auto].
  apply wp_bind, wp_modify, wp_bind, wp_modify.
  set (k4 := with_interrupt _ _).
  assert (Hr4 : running k4 IntOn c) by (destruct Hr3 as [[] ? ? ? ?]; done).
  destruct (running_thread _ _ _ Hr4) as (x & Hx & Hcx & _).
  eapply wp_ok; [by apply push_ok | ]. rewrite Hcx. split; [ | done]. right. eexists. by eapply running_set_code.
Qed.

End Handlers.

(** ** Switching threads *)

Section Switching.
Context {D : Type}.
Notation K := (Kern D).
Implicit Types k : K.

Lemma wp_on_machine {A} (Q : A -> K -> Prop) (x : stM (Machine * unit) A) k m a m' :
  machine k = Some m -> x (m, tt) = Ok (a, (m', tt)) -> Q a (with_machine k (Some m')) ->
  wp no_fault Q (on_machine x) k.
Proof.
  intros Em E HQ. unfold on_machine. apply wp_bind, wp_gets. rewrite Em.
  apply wp_bind, wp_lift with m; [done | ]. apply wp_bind. eapply wp_lift; [exact E | ].
  apply wp_bind, wp_modify, wp_ret. done.
Qed.

(** What saving the user state changes: the registers saved in the current
    thread's record. *)
Record saved k k' (x x' : Thread) : Prop := {
  sv_frame : currentThread k' = currentThread k /\ scheduler k' = scheduler k /\
    interrupt k' = interrupt k /\ stats k' = stats k /\ semaphores k' = semaphores k /\
    nextAddress k' = nextAddress k;
  sv_threads : threads k' = <[currentThread k := x']> (threads k);
  sv_same : stack x' = stack x /\ thread_status x' = thread_status x /\ code x' = code x /\
    space x' = space x;
  sv_regs : regs_wf (userRegisters x')
}.

Lemma machine_ok_set k t x x' :
  machine_ok k -> threads k !! t = Some x -> space x' = space x ->
  machine_ok (with_threads k (<[t := x']> (threads k))).
Proof.
  intros [Hm1 Hm2] Hx Esp. split; [done | ]. intros u z sp Hz Hsp. simpl in *.
  destruct (decide (u = t)) as [-> | Hne].
  - rewrite lookup_insert_eq in Hz. injection Hz as <-. rewrite Esp in Hsp. by eapply Hm2.
  - rewrite lookup_insert_ne in Hz by done. by eapply Hm2.
Qed.

Lemma machine_ok_machine k m m' :
  machine_ok k -> machine k = Some m -> regs_wf (registers m') -> machine_ok (with_machine k (Some m')).
Proof. intros [Hm1 Hm2] Em Hr. split; [by intros ? [= <-] | by eexists]. Qed.

Lemma wp_save k x :
  machine_ok k -> threads k !! currentThread k = Some x -> regs_wf (userRegisters x) ->
  wp no_fault (fun _ k' => machine_ok k' /\ exists x', saved k k' x x')
    (match space x with
     | None => mret tt
     | Some sp => SaveUserState (currentThread k);; on_machine (SaveState sp)
     end) k.
Proof.
  intros Hm Hx Hrx. destruct (space x) as [sp | ] eqn:Esp.
  2: { apply wp_ret. split; [done | ]. exists x. split; try done. by rewrite insert_id. }
  destruct (proj2 Hm _ _ _ Hx Esp) as [m Em].
  pose proof (proj1 Hm _ Em) as Hr. pose proof (regs_length _ Hr) as Hl.
  apply wp_bind. unfold SaveUserState. apply wp_bind.
  eapply wp_on_machine; [done | | ].
  { pose proof (ReadRegisters_ok (Z.to_nat NumTotalRegs) 0 m ltac:(lia) ltac:(done) Hl) as E.
    rewrite Z2Nat.id in E by (unfold NumTotalRegs; lia). rewrite take_ge in E by (rewrite length_drop; lia).
    exact E. }
  change (drop (Z.to_nat 0) (registers m)) with (registers m).
  set (k1 := with_machine k (Some m)). set (x1 := with_registers_saved x (registers m)).
  eapply wp_ok; [by apply (upd_thread_ok k1 _ x) | ].
  eapply (wp_on_machine _ _ _ m); [done | done | ]. split.
  - eapply machine_ok_machine; [ | done | done]. by eapply machine_ok_set; [eapply machine_ok_machine | | ].
  - exists x1. by split.
Qed.

(** The kernel gives the processor to [n]. *)
Lemma wp_Run k c n (fin : bool) y :
  base k c -> level_of k = IntOff -> handling k = false -> doomed k = None ->
  ~ cur_status k RUNNING ->
  threads k !! n = Some y -> (n <> currentThread k -> parked y) ->
  free (semaphores k) (ready_of k) n ->
  (if fin then n <> currentThread k /\ free (semaphores k) (ready_of k) (currentThread k)
   else wf_code c = true /\ levels IntOff c = true) ->
  wp no_fault (fun _ => kinv) (Scheduler_Run n fin) k.
Proof.
  intros Hb Hl Hh Hd Hns Hy Hpk Hf Hfin. destruct (b_code _ _ Hb) as (x & Hx & Hc).
  unfold Scheduler_Run. apply wp_bind, wp_gets, wp_bind.
  eapply wp_ok; [by apply assert_off_ok | ]. apply wp_bind.
  eapply wp_mono with (Q := fun _ k1 => k1 = with_scheduler k (mkScheduler (ready_of k)
    (if fin then Some (currentThread k) else None))).
  { destruct fin.
    - apply wp_bind, wp_gets. unfold doomed in Hd. rewrite Hd. apply wp_bind.
      eapply wp_lift; [done | ]. by apply wp_modify.
    - apply wp_ret. destruct k. simpl in *. unfold doomed, ready_of in *. simpl in *.
      destruct scheduler; simpl in *; by subst. }
  intros [] k1 ->. set (k1 := with_scheduler _ _).
  apply wp_bind. eapply wp_ok; [by apply (get_thread_ok k1 _ x) | ]. apply wp_bind.
  eapply wp_mono; [apply (wp_save k1 x); [apply (b_machine _ _ Hb) | done |
    eapply pl_regs; [apply Hb | done]] | ].
  intros [] k2 (Hm2 & x' & Hsv). destruct Hsv as [(F1 & F2 & F3 & F4 & F5 & F6) HT (S1 & S2 & S3 & S4) Hr'].
  change (currentThread k1) with (currentThread k) in *. change (threads k1) with (threads k) in HT.
  assert (Hx' : threads k2 !! currentThread k = Some x') by (by rewrite HT, lookup_insert_eq).
  unfold CheckOverflow. apply wp_bind, wp_bind. eapply wp_ok; [by apply get_thread_ok | ].
  assert (Hst : stack x' = None \/ stack x' = Some STACK_FENCEPOST).
  { rewrite S1. eapply pl_stack; [apply Hb | done]. }
  eapply wp_mono with (Q := fun _ k' => k' = k2).
  { destruct Hst as [-> | ->]; [by apply wp_ret | by eapply wp_lift]. }
  intros [] ? ->. apply wp_bind. eapply wp_ok; [apply push_ok; by rewrite F1 | ].
  rewrite S3, Hc. cbn [app]. set (x2 := with_code x' (Switched :: c)).
  apply wp_bind, wp_modify. set (k3 := with_current _ _).
  assert (HT3 : threads k3 = <[currentThread k := x2]> (threads k)).
  { unfold k3, set_code. simpl. by rewrite F1, HT, insert_insert_eq. }
  assert (Hy2 : exists y2, threads k3 !! n = Some y2 /\ parked y2).
  { rewrite HT3. destruct (decide (n = currentThread k)) as [-> | Hne].
    - exists x2. rewrite lookup_insert_eq. split; [done | ]. destruct fin; [by destruct Hfin | ].
      exists Switched, c. destruct Hfin. by split_and!; [ | left | | ].
    - exists y. rewrite lookup_insert_ne by done. auto. }
  destruct Hy2 as (y2 & Hy2 & Hp2).
  eapply wp_ok; [by apply (upd_thread_ok k3 _ y2) | ]. set (k4 := with_threads k3 _).
  assert (Hpl : places (<[n := with_status y2 RUNNING]> (threads k3)) n (ready_of k) (semaphores k)
    (if fin then Some (currentThread k) else None) (nextAddress k)).
  { rewrite HT3 in Hy2 |- *. eapply (places_switch _ (currentThread k) _ _ None).
    - eapply places_set; [rewrite <- Hd; apply Hb | exact Hx | done | done | by left | done].
    - by rewrite lookup_insert_eq.
    - done.
    - done.
    - done.
    - simpl. rewrite S2. intros HR. apply Hns. by exists x.
    - destruct fin; [by left; destruct Hfin | right]. exists Switched, c. destruct Hfin.
      by split_and!; [ | left | | ].
    - destruct fin; [right; by destruct Hfin | by left]. }
  assert (Hm4 : machine_ok k4).
  { apply (machine_ok_set k3 n y2); [ | done | done].
    destruct (machine_ok_set k2 (currentThread k2) x' x2 Hm2) as [M1 M2]; [by rewrite F1 | done | ].
    by split. }
  apply (InvArrived k4 (with_status y2 RUNNING)).
  - split.
    + unfold k4, k3, ready_of, doomed. simpl. rewrite F2, F5, F6. exact Hpl.
    + exists (with_status y2 RUNNING). unfold k4. simpl. by rewrite lookup_insert_eq.
    + done.
    + change (pending_of k4) with (pending_of k2). unfold pending_of. rewrite F3. apply Hb.
    + change (now_of k4) with (now_of k2). unfold now_of. rewrite F4. apply Hb.
  - change (level_of k4) with (level_of k2). unfold level_of. by rewrite F3.
  - change (handling k4) with (handling k2). unfold handling. by rewrite F3.
  - unfold k4, k3. simpl. by rewrite lookup_insert_eq.
  - done.
  - done.
Qed.

(** ** Waking and sleeping *)

Lemma base_pop k c n l :
  base k c -> ready_of k = n :: l ->
  base (with_ready k l) c /\ free (semaphores k) l n /\ doomed k <> Some n /\
  exists y, threads k !! n = Some y /\ thread_status y = READY /\ (n <> currentThread k -> parked y).
Proof.
  intros [Hp Hc Hm Hs Hn] Er. rewrite Er in Hp. apply places_pop in Hp as (Hp & Hf & Hd & Hy). done.
Qed.

Definition woken k (t : nat) (y : Thread) : K :=
  with_ready (with_threads k (<[t := with_status y READY]> (threads k))) (ready_of k ++ [t]).

Lemma base_wake k c t y :
  base k c -> threads k !! t = Some y -> free (semaphores k) (ready_of k) t -> doomed k <> Some t ->
  (t <> currentThread k -> parked y) -> base (woken k t y) c.
Proof.
  intros [Hp (x & Hx & Hc) Hm Hs Hn] Hy Hf Hd Hpk. split; [ | | | done | done].
  - by apply places_wake.
  - unfold woken. simpl. destruct (decide (t = currentThread k)) as [-> | Hne].
    + exists (with_status y READY). rewrite lookup_insert_eq. by simplify_eq.
    + exists x. by rewrite lookup_insert_ne.
  - by apply (machine_ok_set k t y).
Qed.

(** The queues change without gaining a thread. *)
Lemma base_queues k c S :
  base k c ->
  (forall s x', S !! s = Some x' -> NoDup (queue x') /\
     (queue x' = [] \/ exists x, semaphores k !! s = Some x /\ queue x' ⊆ queue x)) ->
  base (with_semaphores k S) c.
Proof. intros [Hp Hc Hm Hs Hn] HS. split; try done. by eapply places_queues. Qed.

Lemma base_value k c s x v :
  base k c -> semaphores k !! s = Some x ->
  base (with_semaphores k (<[s := mkSemaphore v (queue x)]> (semaphores k))) c.
Proof.
  intros Hb Hx. apply base_queues; [done | ]. intros s' x' Hx'.
  destruct (decide (s' = s)) as [-> | Hne].
  - rewrite lookup_insert_eq in Hx'. injection Hx' as <-. split; [exact (pl_queue_nodup _ _ _ _ _ _ (b_places _ _ Hb) _ _ Hx) | ].
    right. by exists x.
  - rewrite lookup_insert_ne in Hx' by done. split; [eapply pl_queue_nodup; [apply Hb | done] | ].
    right. by exists x'.
Qed.

Lemma put_semaphore_ok k s x :
  put_semaphore s x k = Ok (tt, with_semaphores k (<[s := x]> (semaphores k))).
Proof. done. Qed.

(** The body of [V]: one waiting thread, if any, becomes ready. *)
Definition V_body (s : nat) (x : Semaphore) : stM K unit :=
  match queue x with
  | [] => put_semaphore s (mkSemaphore (to_i32 (value x + 1)) [])
  | t :: q =>
      put_semaphore s (mkSemaphore (value x) q);;
      ReadyToRun t;;
      put_semaphore s (mkSemaphore (to_i32 (value x + 1)) q)
  end.

Lemma in_queue_value S s x v t :
  S !! s = Some x -> in_queue (<[s := mkSemaphore v (queue x)]> S) t -> in_queue S t.
Proof.
  intros Hx (s' & x' & Hx' & Ht). destruct (decide (s' = s)) as [-> | Hne].
  - rewrite lookup_insert_eq in Hx'. injection Hx' as <-. by exists s, x.
  - rewrite lookup_insert_ne in Hx' by done. by exists s', x'.
Qed.

Lemma wp_V_body k c s x :
  base k c -> level_of k = IntOff -> semaphores k !! s = Some x ->
  wp no_fault (fun _ k' => base k' c /\ quiet k k' /\ interrupt k' = interrupt k /\ stats k' = stats k)
    (V_body s x) k.
Proof.
  intros Hb Hl Hx. unfold V_body. destruct (queue x) as [ | t q] eqn:Eq.
  - eapply wp_ok; [done | ]. split_and!; try done; [rewrite <- Eq; by apply base_value | ].
    assert (Hin : forall t, in_queue (<[s := mkSemaphore (to_i32 (value x + 1)) []]> (semaphores k)) t ->
      in_queue (semaphores k) t).
    { intros t Ht. rewrite <- Eq in Ht. by eapply in_queue_value. }
    split; try done; [intros t [Hf1 Hf2]; split; [done | intros Ht; by apply Hf2, Hin] | by left].
  - destruct (places_dequeue _ _ _ _ _ _ s x t q (value x) (b_places _ _ Hb) Hx Eq)
      as (Hp1 & Hf & Hd & y & Hy & Hys & Hpk).
    set (S1 := <[s := mkSemaphore (value x) q]> (semaphores k)) in *.
    assert (Hb1 : base (with_semaphores k S1) c) by (destruct Hb; by split).
    apply wp_bind. eapply wp_ok; [done | ]. apply wp_bind.
    eapply wp_ok; [apply (ReadyToRun_ok _ t y); [done | done | apply Hf] | ].
    eapply wp_ok; [done | ].
    assert (Hb2 : base (woken (with_semaphores k S1) t y) c) by (by apply base_wake).
    assert (Hin : forall u, in_queue (<[s := mkSemaphore (to_i32 (value x + 1)) q]> S1) u ->
      in_queue (semaphores k) u /\ u <> t).
    { intros u Hu. eapply (in_queue_value S1 s (mkSemaphore (value x) q)) in Hu;
        [ | by unfold S1; rewrite lookup_insert_eq].
      split; [ | by intros ->; destruct Hf].
      destruct Hu as (s' & x' & Hx' & Ht'). unfold S1 in Hx'. destruct (decide (s' = s)) as [-> | Hne].
      - rewrite lookup_insert_eq in Hx'. injection Hx' as <-. exists s, x. split; [done | ]. rewrite Eq. by right.
      - rewrite lookup_insert_ne in Hx' by done. by exists s', x'. }
    split_and!; try done.
    + apply (base_value (woken (with_semaphores k S1) t y) c s (mkSemaphore (value x) q)); [done | ].
      simpl. unfold S1. by rewrite lookup_insert_eq.
    + split; try done.
      * intros u Hu. by apply Hin.
      * intros u [Hf1 Hf2]. assert (Hut : u <> t).
        { intros ->. apply Hf2. exists s, x. split; [done | ]. rewrite Eq. left. }
        split; [ | intros Hu; by apply Hf2, Hin].
        unfold ready_of. simpl. rewrite elem_of_app, list_elem_of_singleton. intros [? | ?]; done.
      * intros u. simpl. destruct (decide (u = t)) as [-> | Hne].
        -- right. exists y. rewrite lookup_insert_eq. split_and!; try done. exists s, x.
           split; [done | ]. rewrite Eq. left.
        -- left. by rewrite lookup_insert_ne.
Qed.

(** A running thread goes on running after what handlers do. *)
Lemma running_handled k lv c k' :
  running k lv c -> base k' c -> quiet k k' -> handling k' = handling k -> running k' lv c.
Proof.
  intros Hr Hb Hq Hi. pose proof Hr as [Hb0 Hl Hh Hd Hs]. split; try done.
  - by rewrite (q_level _ _ Hq).
  - by rewrite Hi.
  - by rewrite (q_doomed _ _ Hq).
  - eapply quiet_status; [exact Hb0 | done | | done]. by eapply running_free_cur.
Qed.

Lemma running_quiet k lv c k' :
  running k lv c -> base k' c -> quiet k k' -> interrupt k' = interrupt k -> running k' lv c.
Proof. intros Hr Hb Hq Hi. eapply running_handled; [done.. | ]. unfold handling. by rewrite Hi. Qed.

Lemma Sleep_ok k x fin :
  level_of k = IntOff -> threads k !! currentThread k = Some x ->
  Thread_Sleep fin k = Ok (tt, with_threads k
    (<[currentThread k := with_code (with_status x BLOCKED) (SleepLoop fin :: code x)]> (threads k))).
Proof.
  intros Hl Hx. unfold Thread_Sleep, mbind, stM_bind. cbn [gets]. unfold gets.
  rewrite assert_off_ok by done. rewrite (upd_thread_ok k _ x) by done.
  set (k1 := with_threads k _).
  rewrite (push_ok k1 (with_status x BLOCKED)) by (unfold k1; simpl; by rewrite lookup_insert_eq).
  unfold set_code, k1. simpl. unfold with_threads at 1 2. simpl. by rewrite insert_insert_eq.
Qed.

End Switching.

(** ** The instructions *)

Section Instructions.
Context {D : Type}.
Notation K := (Kern D).
Implicit Types k : K.
Context {faulty : fault -> Prop} (RandomNumber : D -> Z * D) (device : nat -> stM K unit) `{!DeviceOk faulty device}.

Lemma kinv_run k lv c : running k lv c -> wf_code c = true -> levels lv c = true -> kinv k.
Proof. apply InvRunning. Qed.

(** Instructions that leave the interrupt level as it is. *)
Definition steady (i : instr) : bool :=
  match i with
  | SetLevel_ _ | OneTick_ | Switched | SleepLoop _ | PLoop _ | Begin | Finish => false
  | _ => true
  end.

(** Code with more of them in front. *)
Lemma push_form lv p c :
  wf_code c = true -> levels lv c = true -> forallb steady p = true ->
  wf_code (p ++ c) = true /\ levels lv (p ++ c) = true.
Proof.
  intros Hw Hl Hp. split.
  - apply wf_code_app; [ | done]. apply forallb_forall. intros i Hi.
    eapply forallb_forall in Hp; [ | exact Hi]. by destruct i.
  - induction p as [ | i p IH]; [done | ]. simpl in *. apply andb_true_iff in Hp as [Hi Hp].
    assert (after i lv = Some lv) as -> by (by destruct i). auto.
Qed.

Lemma client_steady p : forallb client p = true -> forallb steady p = true.
Proof.
  intros Hp. apply forallb_forall. intros i Hi. eapply forallb_forall in Hp; [ | exact Hi]. by destruct i.
Qed.

Lemma levels_set lv lv' c : levels lv c = true -> levels lv' (SetLevel_ lv :: c) = true.
Proof. done. Qed.

Lemma wf_inner i c : inner i = true -> wf_code c = true -> wf_code (i :: c) = true.
Proof. intros Hi Hc. apply (wf_code_app [i]); [by simpl; rewrite Hi | done]. Qed.

(** Every thread that runs was taken off the ready list. *)
Lemma wp_Yield E k lv c :
  running k lv c -> wf_code c = true -> levels lv c = true -> wp E (fun _ => kinv) Thread_Yield k.
Proof.
  intros Hr Hw Hl. pose proof Hr as [Hb Hlv Hh Hd Hs].
  assert (H : wp no_fault (fun _ => kinv) Thread_Yield k);
    [ | by destruct (wp_no_fault _ _ _ H) as (u & k' & E' & ?); eapply wp_ok].
  unfold Thread_Yield. apply wp_bind. eapply wp_ok; [apply SetLevel_off | ]. rewrite Hlv.
  pose proof (running_off _ _ _ Hr) as Hr1. set (k1 := set_off k) in *.
  apply wp_bind, wp_gets, wp_bind. change (currentThread k1) with (currentThread k).
  destruct (ready_of k1) as [ | n l] eqn:Er.
  - eapply wp_ok; [by apply FindNext_nil | ]. apply wp_bind. eapply wp_push; [done | ].
    intros k2 Hr2. apply wp_ret. by eapply kinv_run; [ | apply wf_inner | ].
  - eapply wp_ok; [by apply FindNext_cons | ].
    destruct (base_pop k1 c n l (r_base _ _ _ Hr1) Er) as (Hb2 & Hf & Hdn & y & Hy & Hys & Hpk).
    destruct (running_thread _ _ _ Hr1) as (x & Hx & Hcx & Hsx).
    pose proof (running_free_cur _ _ _ Hr1) as [Hfr Hfq]. rewrite Er in Hfr.
    assert (Hne : n <> currentThread k) by (intros ->; apply Hfr; left).
    apply wp_bind. eapply wp_ok; [by apply (push_ok (with_ready k1 l) x) | ]. rewrite Hcx.
    set (k3 := set_code _ _ _).
    assert (Hb3 : base k3 (SetLevel_ lv :: c)) by (eapply base_set_code; done).
    set (x3 := with_code x (SetLevel_ lv :: c)).
    assert (Hx3 : threads k3 !! currentThread k = Some x3) by (unfold k3; simpl; by rewrite lookup_insert_eq).
    apply wp_bind. eapply wp_ok; [apply (ReadyToRun_ok k3 _ x3); try done | ].
    { intros Hin. apply Hfr. by right. }
    set (k4 := with_ready _ _).
    assert (Hb4 : base k4 (SetLevel_ lv :: c)).
    { apply base_wake; try done; [split; [intros Hin; apply Hfr; by right | done] | ].
      change (doomed k3) with (doomed k). by rewrite Hd. }
    apply (wp_Run k4 (SetLevel_ lv :: c) n false y); try done.
    + intros (z & Hz & Hzs). unfold k4 in Hz. simpl in Hz. rewrite lookup_insert_eq in Hz.
      injection Hz as <-. done.
    + unfold k4, k3. simpl. rewrite !lookup_insert_ne by done. done.
    + destruct Hf as [Hf1 Hf2]. split; [ | done]. unfold k4, ready_of. simpl.
      rewrite elem_of_app, list_elem_of_singleton. intros [? | ?]; done.
    + split; [by apply wf_inner | done].
Qed.

(** Code to run when a switched-out thread comes back. *)
Lemma wp_Destroy k c :
  base k c -> wp no_fault (fun _ k' => base k' c /\ doomed k' = None /\ interrupt k' = interrupt k /\
    currentThread k' = currentThread k /\ threads k' !! currentThread k = threads k !! currentThread k)
    CheckToBeDestroyed k.
Proof.
  intros [Hp (x & Hx & Hc) [Hm1 Hm2] Hs Hn]. unfold CheckToBeDestroyed. apply wp_bind, wp_gets.
  fold (doomed k). destruct (doomed k) as [t | ] eqn:Ed.
  2: { apply wp_ret. split_and!; try done. split; try done; [by rewrite Ed | by exists x]. }
  apply places_destroy in Hp as [Hne Hp].
  unfold delete_Thread. apply wp_bind, wp_bind, wp_gets, wp_bind.
  eapply wp_lift; [apply ASSERT_true; by rewrite bool_decide_eq_false_2 | ].
  apply wp_modify, wp_modify. split_and!; try done.
  - split; try done.
    + exists x. simpl. by rewrite lookup_delete_ne.
    + split; [done | ]. intros u z sp Hz. simpl in Hz. apply lookup_delete_Some in Hz as [_ Hz]. by eapply Hm2.
  - simpl. by rewrite lookup_delete_ne.
Qed.

Lemma wp_Run_back k c x :
  base k c -> level_of k = IntOff -> handling k = false ->
  threads k !! currentThread k = Some x -> thread_status x = RUNNING ->
  wp no_fault (fun _ k' => running k' IntOff c) Run_back k.
Proof.
  intros Hb Hl Hh Hx Hs. unfold Run_back. apply wp_bind, wp_gets, wp_bind.
  eapply wp_ok; [by apply assert_off_ok | ]. apply wp_bind. eapply wp_mono; [by apply wp_Destroy | ].
  intros [] k1 (Hb1 & Hd1 & Hi1 & Hc1 & Ht1). rewrite Hx in Ht1.
  apply wp_bind. eapply wp_ok; [apply (get_thread_ok k1 _ x); by rewrite <- Ht1 | ].
  assert (Hr1 : running k1 IntOff c).
  { split; try done; [unfold level_of; by rewrite Hi1 | unfold handling; by rewrite Hi1 | ].
    exists x. by rewrite Hc1. }
  destruct (space x) as [sp | ] eqn:Esp; [ | by apply wp_ret].
  destruct (proj2 (b_machine _ _ Hb1) _ _ _ Ht1 Esp) as [m Em].
  pose proof (proj1 (b_machine _ _ Hb1) _ Em) as Hrm.
  pose proof (pl_regs _ _ _ _ _ _ (b_places _ _ Hb1) _ _ Ht1) as Hrx.
  apply wp_bind. unfold RestoreUserState. apply wp_bind. eapply wp_ok; [by apply get_thread_ok | ].
  eapply wp_on_machine; [done | apply write_registers_ok; [lia | | apply Hrm] | ].
  { rewrite (regs_length _ Hrx). done. }
  cbn [take app Z.to_nat]. set (m1 := with_registers m _).
  assert (Hm1 : regs_wf (registers m1)) by done.
  eapply wp_on_machine; [done | done | ].
  destruct Hr1 as [_ ? ? ? ?]. split; try done.
  eapply (machine_step _ c m1); [by eapply machine_step | done | done].
Qed.

Lemma wp_Begin k c x :
  base k c -> level_of k = IntOff -> handling k = false ->
  threads k !! currentThread k = Some x -> thread_status x = RUNNING ->
  wp no_fault (fun _ k' => running k' IntOn (OneTick_ :: c)) Thread_Begin k.
Proof.
  intros Hb Hl Hh Hx Hs. unfold Thread_Begin. apply wp_bind. eapply wp_mono; [by apply wp_Destroy | ].
  intros [] k1 (Hb1 & Hd1 & Hi1 & Hc1 & Ht1). unfold Enable. apply wp_bind.
  eapply (wp_SetLevel _ _ _ IntOff).
  - split; try done; [unfold level_of; by rewrite Hi1 | unfold handling; by rewrite Hi1 | ].
    exists x. by rewrite Hc1, Ht1.
  - intros k' Hr. by apply wp_ret.
Qed.

Definition halted (f : fault) : Prop := f = Halted \/ faulty f.

Lemma wp_faults {A} (E E' : fault -> Prop) (Q : A -> K -> Prop) (m : stM K A) k :
  wp E Q m k -> (forall f, E f -> E' f) -> wp E' Q m k.
Proof. unfold wp. destruct (m k) as [[a k'] | f]; auto. Qed.

Lemma wp_safe {A} (E : fault -> Prop) (Q : A -> K -> Prop) (m : stM K A) k :
  wp no_fault Q m k -> wp E Q m k.
Proof. unfold wp. by destruct (m k) as [[a k'] | f]. Qed.

Lemma wp_Idle k c :
  base k c -> level_of k = IntOff -> handling k = false -> room k ->
  wp halted (fun _ k' => base k' c /\ quiet k k' /\ handling k' = false /\ caught_up k')
    (Idle RandomNumber device) k.
Proof.
  intros Hb Hl Hh [Hn HF]. unfold Idle. apply wp_bind, wp_modify. set (k1 := with_interrupt _ _).
  assert (Hb1 : base k1 c) by (destruct Hb; done).
  assert (Hq1 : quiet k k1) by (apply quiet_frame; try done; unfold now_of; simpl; lia).
  assert (Hle : HORIZON <= LATE).
  { unfold HORIZON, LATE. change (2 ^ 20) with 1048576. change (2 ^ 21) with 2097152. lia. }
  apply wp_bind. eapply wp_mono; [eapply wp_faults; [apply (wp_CheckIfDue RandomNumber device true k1 c); try done | by right] | ].
  - split; [unfold now_of in *; simpl; lia | ]. eapply Forall_impl; [exact HF | ]. simpl. lia.
  - intros b k2 (Hb2 & Hq2 & Hh2 & Hc2 & _). destruct b; [ | by left]. apply wp_modify.
    split_and!; [by destruct Hb2 | | done | done].
    eapply quiet_trans; [exact Hq1 | ]. eapply quiet_trans; [exact Hq2 | ].
    by apply quiet_frame.
Qed.

(** Waiting handlers may have made the current thread ready, never running. *)
Lemma quiet_not_running k k' :
  quiet k k' -> ~ cur_status k RUNNING -> ~ cur_status k' RUNNING.
Proof.
  intros Hq Hn (x & Hx & Hs). rewrite (q_cur _ _ Hq) in Hx.
  destruct (q_threads _ _ Hq (currentThread k)) as [E | (y & _ & E & _)]; rewrite E in Hx.
  - apply Hn. by exists x.
  - by injection Hx as <-.
Qed.

Lemma base_push k c p :
  base k c -> wp no_fault (fun _ k' => base k' (p ++ c) /\ exists x, threads k !! currentThread k = Some x /\
    k' = set_code k x (p ++ c)) (push p) k.
Proof.
  intros Hb. destruct (b_code _ _ Hb) as (x & Hx & Hc). eapply wp_ok; [by apply push_ok | ].
  rewrite Hc. split; [by eapply base_set_code | by exists x].
Qed.

Lemma cur_status_code k x c st :
  threads k !! currentThread k = Some x -> cur_status (set_code k x c) st <-> cur_status k st.
Proof.
  intros Hx. split; [ | by apply cur_status_set_code].
  intros (y & Hy & Hs). simpl in Hy. rewrite lookup_insert_eq in Hy. injection Hy as <-. by exists x.
Qed.

Lemma wp_Sleep_loop k c :
  base k c -> level_of k = IntOff -> handling k = false -> doomed k = None ->
  wf_code c = true -> levels IntOff c = true -> ~ cur_status k RUNNING -> room k ->
  wp halted (fun _ => kinv) (Sleep_loop RandomNumber device false) k.
Proof.
  intros Hb Hl Hh Hd Hw Hlv Hns Hroom. unfold Sleep_loop. apply wp_bind.
  destruct (ready_of k) as [ | n l] eqn:Er.
  - eapply wp_ok; [by apply FindNext_nil | ]. apply wp_bind. eapply wp_mono; [by apply wp_Idle | ].
    intros [] k1 (Hb1 & Hq1 & Hh1 & _). eapply wp_mono; [by apply wp_safe, base_push | ].
    intros [] k2 (Hb2 & x & Hx & ->). apply (InvSleeping _ c); try done.
    + change (level_of _) with (level_of k1). by rewrite (q_level _ _ Hq1).
    + change (doomed _) with (doomed k1). by rewrite (q_doomed _ _ Hq1).
    + rewrite cur_status_code by done. by eapply quiet_not_running.
  - eapply wp_ok; [by apply FindNext_cons | ].
    destruct (base_pop k c n l Hb Er) as (Hb1 & Hf & Hdn & y & Hy & Hys & Hpk).
    apply wp_safe. by apply (wp_Run (with_ready k l) c n false y).
Qed.

Lemma wp_Finish_loop k :
  base k [] -> level_of k = IntOff -> handling k = false -> doomed k = None ->
  cur_status k BLOCKED -> ~ in_queue (semaphores k) (currentThread k) -> room k ->
  wp halted (fun _ => kinv) (Sleep_loop RandomNumber device true) k.
Proof.
  intros Hb Hl Hh Hd Hs Hnq Hroom. unfold Sleep_loop. apply wp_bind.
  assert (Hnr : ~ cur_status k RUNNING).
  { destruct Hs as (x & Hx & Hs). intros (y & Hy & Hs'). congruence. }
  destruct (ready_of k) as [ | n l] eqn:Er.
  - eapply wp_ok; [by apply FindNext_nil | ]. apply wp_bind. eapply wp_mono; [by apply wp_Idle | ].
    intros [] k1 (Hb1 & Hq1 & Hh1 & _). eapply wp_mono; [by apply wp_safe, base_push | ].
    intros [] k2 (Hb2 & x & Hx & ->). apply InvFinished; try done.
    + change (level_of _) with (level_of k1). by rewrite (q_level _ _ Hq1).
    + change (doomed _) with (doomed k1). by rewrite (q_doomed _ _ Hq1).
    + rewrite cur_status_code by done. by apply (quiet_status k k1 []).
    + simpl. rewrite (q_cur _ _ Hq1). intros Hin. by apply Hnq, (q_queue _ _ Hq1).
  - eapply wp_ok; [by apply FindNext_cons | ].
    destruct (base_pop k [] n l Hb Er) as (Hb1 & Hf & Hdn & y & Hy & Hys & Hpk).
    assert (Hcr : currentThread k ∉ n :: l).
    { rewrite <- Er. intros Hin. destruct (pl_ready _ _ _ _ _ _ (b_places _ _ Hb) _ Hin) as (z & Hz & Hzs & _).
      destruct Hs as (x & Hx & Hs). congruence. }
    apply wp_safe. apply (wp_Run (with_ready k l) [] n true y); try done.
    split; [intros ->; apply Hcr; left | ]. split; [intros Hin; apply Hcr; by right | done].
Qed.

Lemma wp_Finish k lv :
  running k lv [] -> wp no_fault (fun _ => kinv) Thread_Finish k.
Proof.
  intros Hr. unfold Thread_Finish. apply wp_bind. eapply wp_ok; [apply SetLevel_off | ].
  pose proof (running_off _ _ _ Hr) as Hr1. set (k1 := set_off k) in *.
  destruct (running_thread _ _ _ Hr1) as (x & Hx & Hc & Hs).
  pose proof (running_free_cur _ _ _ Hr1) as Hf.
  eapply wp_ok; [by apply (Sleep_ok k1 x) | ]. rewrite Hc. set (k2 := with_threads _ _).
  destruct Hr1 as [[Hp Hcc Hm Hso Hn] Hl Hh Hd _].
  apply InvFinished; try done.
  - split; [ | | | done | done].
    + eapply places_set; [done | done | exact (pl_stack _ _ _ _ _ _ Hp _ _ Hx)
        | exact (pl_regs _ _ _ _ _ _ Hp _ _ Hx) | by right | done].
    + eexists. unfold k2. simpl. rewrite lookup_insert_eq. done.
    + by apply (machine_ok_set k1 _ x).
  - eexists. unfold k2. simpl. rewrite lookup_insert_eq. done.
  - apply Hf.
Qed.

(** A thread in [P]: it takes the semaphore or waits. *)
Lemma wp_P_loop k c s x :
  running k IntOff c -> wf_code c = true -> levels IntOff c = true -> semaphores k !! s = Some x ->
  wp no_fault (fun _ => kinv) (P_loop s) k.
Proof.
  intros Hr Hw Hl Hx. pose proof Hr as [Hb Hlv Hh Hd Hs]. unfold P_loop, get_semaphore, find.
  apply wp_bind, wp_bind, wp_gets. rewrite Hx. eapply wp_lift; [done | ].
  apply wp_if; intros _.
  2: { eapply wp_ok; [done | ]. eapply (kinv_run _ IntOff c); [ | done | done].
       split; try done. by apply base_value. }
  pose proof (running_free_cur _ _ _ Hr) as Hf.
  destruct (running_thread _ _ _ Hr) as (y & Hy & Hc & _).
  unfold list_Append. apply wp_bind, wp_gets, wp_bind, wp_bind.
  eapply wp_lift; [apply ASSERT_true; rewrite bool_decide_eq_false_2; [done | ] | ].
  { intros Hin. apply Hf. by exists s, x. }
  apply wp_ret, wp_bind. eapply wp_ok; [done | ]. set (k1 := with_semaphores _ _).
  apply wp_bind. eapply wp_ok; [by apply (push_ok k1 y) | ]. rewrite Hc.
  set (y1 := with_code y ([PLoop s] ++ c)).
  eapply wp_ok; [apply (Sleep_ok _ y1); [done | simpl; by rewrite lookup_insert_eq] | ].
  set (k2 := with_threads _ _).
  assert (HT : threads k2 = <[currentThread k := with_status (with_code y (SleepLoop false :: PLoop s :: c)) BLOCKED]>
    (threads k)) by (unfold k2; simpl; by rewrite insert_insert_eq).
  apply (InvSleeping k2 (PLoop s :: c)); try done.
  - destruct Hb as [Hp _ Hm Hso Hn]. split; [ | | | done | done].
    + rewrite HT. by apply places_enqueue.
    + eexists. rewrite HT, lookup_insert_eq. done.
    + split; [apply Hm | ]. intros t z sp Hz Hsp. rewrite HT in Hz. destruct (decide (t = currentThread k)) as [-> | Hne].
      * rewrite lookup_insert_eq in Hz. injection Hz as <-. by apply (proj2 Hm _ _ _ Hy Hsp).
      * rewrite lookup_insert_ne in Hz by done. by apply (proj2 Hm _ _ _ Hz Hsp).
  - by apply wf_inner.
  - intros (z & Hz & Hzs). rewrite HT in Hz. change (currentThread k2) with (currentThread k) in Hz.
    rewrite lookup_insert_eq in Hz. by injection Hz as <-.
Qed.

Lemma regs_zero : regs_wf (replicate (Z.to_nat NumTotalRegs) 0).
Proof.
  split; [done | apply Forall_replicate; cint | ]. exists 0. split; [done | unfold NumGPRegs; lia].
Qed.

Lemma wp_Fork k lv c f :
  running k lv c -> wf_code c = true -> levels lv c = true -> forallb client f = true ->
  wp no_fault (fun _ => kinv) (t ← new_Thread; Thread_Fork t f) k.
Proof.
  intros Hr Hw Hl Hf. pose proof Hr as [Hb Hlv Hh Hd Hs].
  destruct (root_code f Hf) as [Hrw Hrl]. set (t := nextAddress k).
  set (x1 := mkThread (Some STACK_FENCEPOST) JUST_CREATED (replicate (Z.to_nat NumTotalRegs) 0) None
    (Begin :: f ++ [Finish]) 0).
  destruct (places_new _ _ _ _ _ _ x1 (b_places _ _ Hb)) as (Hp1 & Hft & Hdt & Hct);
    [by right | apply regs_zero | done | ].
  set (k1 := with_nextAddress (with_threads k (<[t := x1]> (threads k))) (S t)).
  assert (Hr1 : running k1 lv c).
  { destruct Hb as [Hp (x & Hx & Hc) [Hm1 Hm2] Hso Hn], Hs as (y & Hy & Hs). split; try done.
    - split; try done.
      + exists x. simpl. by rewrite lookup_insert_ne.
      + split; [done | ]. intros u z sp Hz Hsp. simpl in Hz. destruct (decide (u = t)) as [-> | Hne].
        * rewrite lookup_insert_eq in Hz. by injection Hz as <-.
        * rewrite lookup_insert_ne in Hz by done. by eapply Hm2.
    - exists y. simpl. by rewrite lookup_insert_ne. }
  unfold new_Thread, new_address, Thread_Fork, StackAllocate.
  apply wp_bind, wp_bind, wp_bind, wp_gets, wp_bind, wp_modify, wp_ret, wp_bind, wp_modify, wp_ret.
  fold t. apply wp_bind. eapply wp_ok; [apply upd_thread_ok; simpl; by rewrite lookup_insert_eq | ].
  set (k2 := with_threads _ _).
  assert (Hr2 : running k2 lv c).
  { unfold k2, with_threads. simpl. rewrite insert_insert_eq. exact Hr1. }
  apply wp_bind. eapply wp_ok; [apply SetLevel_off | ]. rewrite (r_level _ _ _ Hr2).
  pose proof (running_off _ _ _ Hr2) as Hr3. set (k3 := set_off k2) in *.
  assert (Ht3 : threads k3 !! t = Some x1) by (unfold k3, k2; simpl; by rewrite lookup_insert_eq).
  apply wp_bind. eapply wp_ok; [apply (ReadyToRun_ok k3 t x1); [done | done | apply Hft] | ].
  fold (woken k3 t x1).
  assert (Hb4 : base (woken k3 t x1) c).
  { apply base_wake; [apply Hr3 | done | done | done | ]. intros _.
    exists Begin, (f ++ [Finish]). by split_and!; [ | right | | ]. }
  eapply (wp_push _ _ _ IntOff c).
  - split; try done. destruct Hs as (y & Hy & Hs). exists y.
    unfold woken, k3, k2. simpl. rewrite !lookup_insert_ne by done. done.
  - intros k5 Hr5. by eapply kinv_run; [done | apply wf_inner | ].
Qed.

(** ** The calls that clients may misuse *)

Section Clients.
Context (E : fault -> Prop).

Lemma running_frame k k' lv c :
  running k lv c -> threads k' = threads k -> currentThread k' = currentThread k ->
  scheduler k' = scheduler k -> interrupt k' = interrupt k -> stats k' = stats k ->
  machine k' = machine k -> (nextAddress k <= nextAddress k')%nat ->
  (forall s x', semaphores k' !! s = Some x' -> queue x' = [] \/ semaphores k !! s = Some x') ->
  running k' lv c.
Proof.
  intros [[Hp Hc Hm Hs Hn] Hl Hh Hd Hst] E1 E2 E3 E4 E5 E6 E7 E8.
  assert (Hp' : places (threads k) (currentThread k) (ready_of k) (semaphores k') (doomed k) (nextAddress k)).
  { eapply places_queues; [done | ]. intros s x' Hx'. destruct (E8 s x' Hx') as [Eq | Hx].
    - rewrite Eq. split; [constructor | by left].
    - split; [by eapply pl_queue_nodup | right; by exists x']. }
  unfold machine_ok, cur_status, level_of, handling, doomed, ready_of in *.
  assert (Hp2 : places (threads k') (currentThread k') (readyList (scheduler k')) (semaphores k')
    (toBeDestroyed (scheduler k')) (nextAddress k')).
  { rewrite E1, E2, E3. destruct Hp'. split; try done. intros t Ht. specialize (pl_next t Ht). lia. }
  split; [split; [exact Hp2 | ..] | ..];
    unfold machine_ok, pending_of, now_of, level_of, handling, doomed, cur_status in *;
    by rewrite ?E1, ?E2, ?E3, ?E4, ?E5, ?E6.
Qed.

Ltac same := eapply running_frame; [eassumption | done | done | done | done | done | done | simpl; lia | auto].

(** The value a thread got changes. *)
Lemma running_got k lv c x v :
  running k lv c -> threads k !! currentThread k = Some x ->
  running (with_threads k (<[currentThread k := with_got x v]> (threads k))) lv c.
Proof.
  intros Hr Hx. destruct (running_thread _ _ _ Hr) as (x' & Hx' & Hc & Hs). simplify_eq.
  pose proof (pl_stack _ _ _ _ _ _ (b_places _ _ (r_base _ _ _ Hr)) _ _ Hx) as Hsk.
  pose proof (pl_regs _ _ _ _ _ _ (b_places _ _ (r_base _ _ _ Hr)) _ _ Hx) as Hrg.
  destruct Hr as [[Hp Hcc Hm Hso Hn] ? ? ? ?]. split; try done.
  - split; try done.
    + eapply places_set; [done | done | exact Hsk | exact Hrg | by left | done].
    + eexists. simpl. rewrite lookup_insert_eq. by split.
    + by apply (machine_ok_set k _ x).
  - eexists. simpl. rewrite lookup_insert_eq. by split.
Qed.

Lemma wp_find {A} (Q : A -> K -> Prop) (o : option A) k :
  (o = None -> E Undefined) -> (forall a, o = Some a -> Q a k) -> wp E Q (find o) k.
Proof. intros HU HQ. unfold find, wp, lift. destruct o; auto. Qed.

Lemma wp_V_call k lv c s :
  running k lv c -> (semaphores k !! s = None -> E Undefined) ->
  wp E (fun _ k' => running k' IntOff (SetLevel_ lv :: c)) (V_call s) k.
Proof.
  intros Hr HU. unfold V_call. apply wp_bind.
  change (Semaphore_V s) with (oldLevel ← SetLevel IntOff; x ← get_semaphore s;
    V_body s x;; mret oldLevel : stM K IntStatus).
  apply wp_bind. eapply wp_ok; [apply SetLevel_off | ]. rewrite (r_level _ _ _ Hr).
  pose proof (running_off _ _ _ Hr) as Hr1. set (k1 := set_off k) in *.
  unfold get_semaphore. apply wp_bind, wp_bind, wp_gets, wp_find; [done | intros x Hx].
  apply wp_bind. eapply wp_mono; [apply wp_safe, (wp_V_body k1 c s x); [apply Hr1 | done | done] | ].
  intros [] k2 (Hb2 & Hq2 & Hi2 & _). apply wp_ret.
  eapply wp_push; [by eapply running_quiet | ]. done.
Qed.

Context (HU : E Undefined) (HA : E AssertFail).

Lemma wp_assert (Q : unit -> K -> Prop) (b : bool) k : (b = true -> Q tt k) -> wp E Q (lift (ASSERT b)) k.
Proof. intros HQ. unfold wp, lift. destruct b; simpl; auto. Qed.

Lemma kinv_push k lv c p :
  running k lv c -> wf_code c = true -> levels lv c = true -> forallb steady p = true ->
  wp E (fun _ => kinv) (push p) k.
Proof.
  intros Hr Hw Hl Hp. eapply wp_push; [done | ]. intros k' Hr'.
  destruct (push_form lv p c Hw Hl Hp). by eapply kinv_run.
Qed.

Lemma wp_Release k lv c l :
  running k lv c -> wp E (fun _ k' => running k' IntOff (SetLevel_ lv :: c)) (Lock_Release l) k.
Proof.
  intros Hr. unfold Lock_Release, get_lock, IsHeldByCurrentThread.
  apply wp_bind, wp_bind, wp_gets, wp_find; [done | intros x Hx].
  apply wp_bind, wp_bind, wp_gets, wp_ret, wp_bind, wp_assert. intros _.
  apply wp_bind, wp_modify. apply wp_V_call; [same | done].
Qed.

Lemma kinv_restore k lv c :
  running k IntOff (SetLevel_ lv :: c) -> wf_code c = true -> levels lv c = true -> kinv k.
Proof. intros Hr Hw Hl. by eapply kinv_run; [done | apply wf_inner | ]. Qed.

Lemma wp_Signal k lv c cv l :
  running k lv c -> wf_code c = true -> levels lv c = true ->
  wp E (fun _ => kinv) (Condition_Signal cv l) k.
Proof.
  intros Hr Hw Hl. unfold Condition_Signal, get_lock, get_condition, IsHeldByCurrentThread.
  apply wp_bind, wp_bind, wp_gets, wp_find; [done | intros x Hx].
  apply wp_bind, wp_bind, wp_gets, wp_ret, wp_bind, wp_assert. intros _.
  apply wp_bind, wp_bind, wp_gets, wp_find; [done | intros q Hq].
  destruct q as [ | w q]; [apply wp_ret; by eapply kinv_run | ].
  apply wp_bind, wp_modify. eapply wp_mono; [apply (wp_V_call _ lv c); [same | done] | ].
  intros [] k' Hr'. by eapply kinv_restore.
Qed.

Lemma wp_Wait k lv c cv l :
  running k lv c -> wf_code c = true -> levels lv c = true ->
  wp E (fun _ => kinv) (Condition_Wait cv l) k.
Proof.
  intros Hr Hw Hl. unfold Condition_Wait, get_lock, get_condition, IsHeldByCurrentThread, new_Semaphore, new_address.
  apply wp_bind, wp_bind, wp_gets, wp_find; [done | intros x Hx].
  apply wp_bind, wp_bind, wp_gets, wp_ret, wp_bind, wp_assert. intros _.
  apply wp_bind, wp_bind, wp_bind, wp_gets, wp_bind, wp_modify, wp_ret, wp_bind, wp_modify, wp_ret.
  apply wp_bind, wp_bind, wp_gets, wp_find; [done | intros q Hq].
  unfold list_Append. apply wp_bind, wp_bind, wp_assert. intros _. apply wp_ret, wp_bind, wp_modify.
  apply wp_bind. eapply (wp_push _ _ _ lv c).
  - eapply running_frame; [exact Hr | done | done | done | done | done | done | simpl; lia | ].
    simpl. intros s' x' Hx'. destruct (decide (s' = nextAddress k)) as [-> | Hne].
    + rewrite lookup_insert_eq in Hx'. injection Hx' as <-. by left.
    + rewrite lookup_insert_ne in Hx' by done. by right.
  - intros k' Hr'. eapply wp_mono; [by apply wp_Release | ]. intros [] k2 Hr2.
    destruct (push_form lv [P (nextAddress k); Acquire l; DeleteSemaphore (nextAddress k)] c Hw Hl eq_refl).
    by eapply kinv_restore.
Qed.

End Clients.

(** *** Every instruction *)

(** What the scheduler needs of a call of a device by a thread: it leaves the
    thread running, perhaps with calls to make; it may fail an assertion of its
    own. *)
Class RequestOk (request : nat -> Z -> stM K unit) : Prop :=
  request_ok d arg k lv c : running k lv c -> room k ->
    wp (fun f => f = Undefined \/ f = AssertFail)
      (fun _ k' => exists p, forallb client p = true /\ running k' lv (p ++ c)) (request d arg) k.

Context (request : nat -> Z -> stM K unit) `{!RequestOk request}.
Context (procs : nat -> Z -> list instr).
Hypothesis procs_client : forall f a, forallb client (procs f a) = true.

(** The faults an instruction may stop with.  Instructions of the scheduler
    and of the interrupt module have none, but for Halt and those of the
    devices' handlers themselves; [P] and [V] have
    none on a semaphore that exists; a call a client misuses (a lock it does
    not hold, an object that does not exist, a failed assertion of its own)
    may fail. *)
Definition admits k (i : instr) (f : fault) : Prop :=
  match i with
  | Halt => f = Halted
  | SleepLoop _ => f = Halted \/ faulty f
  | OneTick_ => faulty f
  | Yield | Fork _ _ | P _ | Print _ | NewSemaphore _ _ | Call _ _ | SetLevel_ _ | SetStatus_ _
  | Switched | Begin | Finish => False
  | V s | PLoop s => f = Undefined /\ semaphores k !! s = None
  | _ => f = Undefined \/ f = AssertFail
  end.

Ltac same := eapply running_frame; [eassumption | done | done | done | done | done | done | simpl; lia | auto].
Ltac deref := apply wp_bind, wp_bind, wp_gets, wp_find; [by left | intros ? ?].

Lemma wp_exec k lv i c :
  running k lv c -> room k -> inner i = true -> after i lv = Some lv -> steady i = true ->
  wf_code c = true -> levels lv c = true ->
  wp (admits k i) (fun _ => kinv) (exec RandomNumber device request procs i) k.
Proof.
  intros Hr Hroom Hi Ha Hst Hw Hl. destruct i; try done; cbn [exec admits].
  - by eapply wp_Yield.
  - apply wp_safe. by eapply wp_Fork.
  - (* P *) unfold Semaphore_P. apply wp_bind. eapply wp_ok; [apply SetLevel_off | ].
    rewrite (r_level _ _ _ Hr). eapply wp_push; [by eapply running_off | ]. intros k' Hr'.
    eapply kinv_run; [done | | done]. by repeat apply wf_inner.
  - (* V *) eapply wp_mono; [by eapply wp_V_call | ]. intros [] k' Hr'. by eapply kinv_restore.
  - unfold Lock_Acquire, get_lock. deref. by eapply kinv_push.
  - eapply wp_mono; [eapply wp_Release; [by left | by right | done] | ].
    intros [] k' Hr'. by eapply kinv_restore.
  - by eapply wp_Wait; [left | right | ..].
  - by eapply wp_Signal; [left | right | ..].
  - unfold Condition_Broadcast, get_condition. deref. case_match; [apply wp_ret; by eapply kinv_run | ].
    apply wp_bind. eapply wp_push; [done | ]. intros k' Hr'.
    destruct (push_form lv [Broadcast c0 l] c Hw Hl eq_refl). by eapply wp_Signal; [left | right | ..].
  - unfold SynchList_Append, get_synchList. deref. by eapply kinv_push.
  - unfold SynchList_RemoveFront, get_synchList. deref. by eapply kinv_push.
  - (* NewSemaphore *) eapply wp_ok; [done | ]. eapply kinv_run; [ | done | done]. eapply running_frame; try done.
    simpl. intros s' x' Hx'. destruct (decide (s' = s)) as [-> | Hne].
    + rewrite lookup_insert_eq in Hx'. injection Hx' as <-. by left.
    + rewrite lookup_insert_ne in Hx' by done. by right.
  - (* DeleteSemaphore *) unfold delete_Semaphore, get_semaphore. deref. apply wp_modify.
    eapply kinv_run; [ | done | done]. eapply running_frame; try done.
    simpl. intros s' x' Hx'. apply lookup_delete_Some in Hx' as [_ ?]. by right.
  - unfold get_semaphore. deref. apply wp_assert; [by right | ]. intros _. by eapply kinv_run.
  - (* NewSynchList *) unfold new_SynchList, put_semaphore, put_lock, put_condition, put_synchList.
    apply wp_bind, wp_modify, wp_bind, wp_modify, wp_bind, wp_modify, wp_modify.
    eapply kinv_run; [ | done | done]. eapply running_frame; try done.
    simpl. intros s' x' Hx'. destruct (decide (s' = s)) as [-> | Hne].
    + rewrite lookup_insert_eq in Hx'. injection Hx' as <-. by left.
    + rewrite lookup_insert_ne in Hx' by done. by right.
  - (* DeleteSynchList *) unfold delete_SynchList, get_synchList, get_lock, delete_Semaphore, get_semaphore.
    deref. deref. apply wp_bind, wp_modify. apply wp_bind. deref. apply wp_modify, wp_bind, wp_modify, wp_modify.
    eapply kinv_run; [ | done | done]. eapply running_frame; try done.
    simpl. intros s' x' Hx'. apply lookup_delete_Some in Hx' as [_ ?]. by right.
  - unfold get_synchList. deref. apply wp_assert; [by right | ]. intros _. by eapply kinv_run.
  - apply wp_modify. eapply kinv_run; [same | done | done].
  - (* AssertGot *) apply wp_bind, wp_gets. unfold get_thread. deref. apply wp_assert; [by right | ].
    intros _. by eapply kinv_run.
  - (* AppendGot *) apply wp_bind, wp_gets. unfold get_thread. deref.
    unfold SynchList_Append, get_synchList. deref. by eapply kinv_push.
  - (* Request *) eapply wp_mono; [by apply (request_ok _ _ k lv c) | ]. intros [] k' (p & Hp & Hr').
    destruct (push_form lv p c Hw Hl (client_steady p Hp)). by eapply kinv_run.
  - (* Call *) eapply kinv_push; [done.. | ]. apply client_steady, procs_client.
  - (* SetStatus_ *) apply wp_modify. destruct Hr as [[] ? ? ? ?]. by apply (InvRunning _ lv c).
  - (* SetHolder *) unfold set_holder, get_lock. apply wp_bind, wp_gets. deref. apply wp_modify.
    eapply kinv_run; [same | done | done].
  - (* ListAppend *) unfold list_append, get_synchList, list_Append. deref.
    apply wp_bind, wp_bind, wp_assert; [by right | ]. intros _. apply wp_ret, wp_modify.
    eapply kinv_run; [same | done | done].
  - (* ListWait *) unfold list_wait, get_synchList. deref. case_match; [by eapply kinv_push | ].
    apply wp_ret. by eapply kinv_run.
  - (* ListTake *) unfold list_take, get_synchList. deref. case_match; [by right | ].
    apply wp_bind, wp_modify, wp_bind, wp_gets. set (k1 := with_synchLists _ _).
    assert (Hr1 : running k1 lv c) by (unfold k1; same).
    destruct (running_thread _ _ _ Hr1) as (x & Hx & _).
    eapply wp_ok; [by apply (upd_thread_ok k1 _ x) | ]. eapply kinv_run; [ | done | done]. by apply running_got.
Qed.

Definition next_instr k : option instr :=
  x ← threads k !! currentThread k; head (code x).

Definition step_admits k (f : fault) : Prop := exists i, next_instr k = Some i /\ admits k i f.

Lemma wp_fetch (Q : unit -> K -> Prop) k x i c :
  threads k !! currentThread k = Some x -> code x = i :: c ->
  wp (admits k i) Q (exec RandomNumber device request procs i) (set_code k x c) ->
  wp (step_admits k) Q (step RandomNumber device request procs) k.
Proof.
  intros Hx Hc H. unfold step. apply wp_bind. eapply wp_ok; [by apply (fetch_ok k x) | ].
  unfold wp in *. destruct (exec _ _ _ _ _ _) as [[a k'] | f]; [done | ]. exists i. split; [ | done].
  unfold next_instr. rewrite Hx. simpl. by rewrite Hc.
Qed.

(** A running thread's step. *)
Lemma step_running k lv i c :
  running k lv (i :: c) -> wf_code (i :: c) = true -> levels lv (i :: c) = true -> room k ->
  wp (step_admits k) (fun _ => kinv) (step RandomNumber device request procs) k.
Proof.
  intros Hr Hw Hl Hroom. destruct (running_thread _ _ _ Hr) as (x & Hx & Hc & _).
  apply (wp_fetch _ k x i c); [done | done | ].
  pose proof (running_set_code _ _ _ _ c Hr Hx) as Hr1. set (k1 := set_code k x c) in *.
  assert (Hroom1 : room k1) by done. cbn [levels] in Hl. change (admits k i) with (admits k1 i).
  destruct (wf_code_cons _ _ Hw) as [(-> & [-> | ->]) | [Hi Hwc]].
  - cbn [exec]. apply wp_safe. by eapply wp_Finish.
  - done.
  - destruct i; try done.
    all: try (apply (wp_exec k1 lv _ c); done).
    + (* SetLevel_ *) cbn [exec]. apply wp_bind. eapply wp_SetLevel; [done | ]. intros k2 Hr2. apply wp_ret.
      cbn [after] in Hl. unfold ticks in Hr2. destruct now, lv; cbn in Hr2; try by eapply kinv_run.
    + (* OneTick_ *) cbn [after] in Hl. case_bool_decide as E; [subst lv | done].
      cbn [exec]. eapply wp_mono; [by apply (wp_OneTick RandomNumber device k1 c) | ].
      intros [] k2 ([Hr2 | (st & Hr2)] & _); [by eapply kinv_run | ].
      eapply kinv_run; [done | by apply wf_inner; [done | apply wf_inner] | done].
    + (* PLoop *) cbn [after] in Hl. case_bool_decide as E; [subst lv | done]. cbn [exec].
      destruct (semaphores k !! s) as [y | ] eqn:Es.
      * apply wp_safe. by eapply wp_P_loop.
      * unfold P_loop, get_semaphore, find. unfold wp, mbind, stM_bind, gets.
        change (semaphores k1) with (semaphores k). rewrite Es. done.
Qed.

(** A thread that was just switched to. *)
Lemma step_arrived k x :
  base k (code x) -> level_of k = IntOff -> handling k = false ->
  threads k !! currentThread k = Some x -> parked x -> thread_status x = RUNNING ->
  wp (step_admits k) (fun _ => kinv) (step RandomNumber device request procs) k.
Proof.
  intros Hb Hl Hh Hx (i & b & Hc & Hi & Hw & Hlv) Hs. apply (wp_fetch _ k x i b); [done | done | ].
  assert (Hb1 : base (set_code k x b) b) by (by eapply base_set_code).
  assert (Hx1 : threads (set_code k x b) !! currentThread k = Some (with_code x b))
    by (simpl; by rewrite lookup_insert_eq).
  rewrite Hc in Hlv. cbn [levels] in Hlv. apply wp_safe. destruct Hi as [-> | ->]; cbn [exec].
  - eapply wp_mono; [by eapply wp_Run_back | ]. intros [] k' Hr. by eapply kinv_run.
  - eapply wp_mono; [by eapply wp_Begin | ]. intros [] k' Hr.
    eapply kinv_run; [done | by apply wf_inner | done].
Qed.

Lemma step_inv k :
  kinv k -> room k -> wp (step_admits k) (fun _ => kinv) (step RandomNumber device request procs) k.
Proof.
  intros Hk Hroom. destruct Hk as [lv c Hr Hw Hl | x Hb Hl Hh Hx Hp Hs | c Hb Hl Hh Hd Hw Hlv Hns | Hb Hl Hh Hd Hs Hq].
  - destruct c as [ | i c]; [done | ]. by eapply step_running.
  - by eapply step_arrived.
  - destruct (b_code _ _ Hb) as (x & Hx & Hc). apply (wp_fetch _ k x _ _ Hx Hc). cbn [exec].
    apply wp_Sleep_loop with c; try done; [by eapply base_set_code | ]. by rewrite cur_status_code.
  - destruct (b_code _ _ Hb) as (x & Hx & Hc). apply (wp_fetch _ k x _ _ Hx Hc). cbn [exec].
    apply wp_Finish_loop; try done; [by eapply base_set_code | by apply cur_status_set_code].
Qed.

(** *** Reachable states *)

Inductive reachable k0 : K -> Prop :=
  | reach_start : reachable k0 k0
  | reach_step k k' : reachable k0 k -> room k -> step RandomNumber device request procs k = Ok (tt, k') ->
      reachable k0 k'.

Lemma reachable_inv k0 k : kinv k0 -> reachable k0 k -> kinv k.
Proof.
  intros H0 Hr. induction Hr as [ | k k' _ IH Hroom E]; [done | ].
  pose proof (step_inv k IH Hroom) as H. unfold wp in H. by rewrite E in H.
Qed.

(** C1: In every state the thread system reaches, before the clock runs out:
    the next step either leads to a state in which the scheduler's invariant
    still holds, or stops for a reason its instruction admits.  So no assertion
    of the scheduler, of thread switching, of interrupt delivery or of the
    ready list and semaphore queues ever fires, interrupt delivery never
    loops, and no freed thread is ever used, whatever the threads call and
    wherever time slices fall. *)
Theorem scheduler_safe k0 k :
  kinv k0 -> reachable k0 k -> room k ->
  wp (step_admits k) (fun _ => kinv) (step RandomNumber device request procs) k.
Proof. intros H0 Hr Hroom. apply step_inv; [by eapply reachable_inv | done]. Qed.

Lemma kinv_places k : kinv k ->
  places (threads k) (currentThread k) (ready_of k) (semaphores k) (doomed k) (nextAddress k).
Proof. by intros [? ? [[] ? ? ? ?] | ? [] | ? [] | []]. Qed.

(** C9: In every reachable state each thread is in one place and its status
    says which: a thread on the ready list is READY, is there once and waits
    for nothing; a thread on a semaphore's queue is BLOCKED, is there once and
    on no other queue; only the current thread can be RUNNING, and then it is
    on no list; a thread about to be deleted is not running and on no list. *)
Theorem one_place k0 k t :
  kinv k0 -> reachable k0 k ->
  NoDup (ready_of k) /\
  (t ∈ ready_of k -> ~ in_queue (semaphores k) t /\
     exists x, threads k !! t = Some x /\ thread_status x = READY) /\
  (forall s q, semaphores k !! s = Some q -> NoDup (queue q) /\
     (t ∈ queue q -> (exists x, threads k !! t = Some x /\ thread_status x = BLOCKED) /\
        forall s' q', semaphores k !! s' = Some q' -> t ∈ queue q' -> s' = s)) /\
  (forall x, threads k !! t = Some x -> thread_status x = RUNNING ->
     t = currentThread k /\ t ∉ ready_of k /\ ~ in_queue (semaphores k) t) /\
  (doomed k = Some t -> t <> currentThread k /\ t ∉ ready_of k /\ ~ in_queue (semaphores k) t).
Proof.
  intros H0 Hr. pose proof (kinv_places _ (reachable_inv _ _ H0 Hr)) as Hp. split_and!.
  - apply Hp.
  - intros Ht. destruct (pl_ready _ _ _ _ _ _ Hp t Ht) as (x & Hx & Hs & _). split; [ | by exists x].
    intros (s & q & Hq & Hin). destruct (pl_queue _ _ _ _ _ _ Hp _ _ _ Hq Hin) as (? & ? & ? & _). congruence.
  - intros s q Hq. split; [by eapply pl_queue_nodup | ]. intros Ht. split.
    + destruct (pl_queue _ _ _ _ _ _ Hp _ _ _ Hq Ht) as (x & ? & ? & _). by exists x.
    + intros s' q' Hq' Ht'. by eapply (pl_queue_one _ _ _ _ _ _ Hp s' q' s q t).
  - intros x Hx Hs. assert (t = currentThread k) as ->.
    { destruct (decide (t = currentThread k)); [done | ]. by destruct (pl_running _ _ _ _ _ _ Hp t x). }
    split; [done | ]. by eapply running_free.
  - intros Hd. by destruct (pl_destroy _ _ _ _ _ _ Hp t Hd) as (? & _ & ? & ?).
Qed.

End Instructions.
