(* ===== verification/ThreadsTest.v ===== *)
(** * The thread system on concrete programs (threads/thread.cc,
      threads/synch.cc, threads/synchlist.cc, threads/kernel.cc)

    The kernel's own self test of threads, semaphores, locks, conditions and
    synchronised lists, run to its end; a device
    whose handler is a V; and the invariant on the initial kernel. *)

From Stdlib Require Import Sorting.Sorted.
From S2P Require Import Prelude LinkedList Machine AddrSpace Threads ThreadsInv ThreadsSafe.

(** ** The initial kernel *)

Lemma client_levels c lv : forallb client c = true -> levels lv (c ++ [Halt]) = true.
Proof.
  intros Hc. induction c as [ | i c IH]; [done | ]. simpl in *. apply andb_true_iff in Hc as [Hi Hc].
  rewrite client_after by done. auto.
Qed.

Lemma client_wf c : forallb client c = true -> wf_code (c ++ [Halt]) = true.
Proof.
  intros Hc. apply wf_code_app; [ | done]. apply forallb_forall. intros i Hi. apply client_inner.
  by eapply forallb_forall in Hc.
Qed.

Lemma new_kernel_inv {D} (d : D) rs p m main :
  forallb client main = true -> Sorted (ordered PendingCompare) p ->
  (forall x, m = Some x -> regs_wf (registers x)) ->
  kinv (new_kernel d rs p m main).
Proof.
  intros Hc Hs Hm. set (x := mkThread None RUNNING (replicate (Z.to_nat NumTotalRegs) 0) None
    (SetLevel_ IntOn :: main ++ [Halt]) 0).
  assert (Hone : forall t y, threads (new_kernel d rs p m main) !! t = Some y -> t = 0%nat /\ y = x).
  { intros t y Hy. unfold new_kernel in Hy. cbn [threads] in Hy. by apply lookup_singleton_Some in Hy as [<- <-]. }
  assert (Hx : threads (new_kernel d rs p m main) !! 0%nat = Some x) by apply lookup_singleton_eq.
  apply (InvRunning _ IntOff (SetLevel_ IntOn :: main ++ [Halt])).
  - split; try done; [ | by exists x]. split; try done; [ | by exists x | ].
    + split; try done.
      * intros t [y Hy]. apply Hone in Hy as [-> _]. simpl. lia.
      * constructor.
      * intros t Ht. by apply elem_of_nil in Ht.
      * intros t y Hy Hne. by apply Hone in Hy as [-> _].
      * intros t y Hy. apply Hone in Hy as [_ ->]. by left.
      * intros t y Hy. apply Hone in Hy as [_ ->]. apply regs_zero.
    + split; [done | ]. intros t y sp Hy Hsp. by apply Hone in Hy as [_ ->].
  - apply (wf_code_app [SetLevel_ IntOn]); [done | by apply client_wf].
  - by apply client_levels.
Qed.

(** ** A device whose handler is [V], as the handlers of the synchronised
       console, disk and network are *)

Section VDevice.
Context {D : Type}.
Notation K := (Kern D).

Definition v_device (d : nat) : stM K unit :=
  S ← gets semaphores;
  match S !! d with None => mret tt | Some _ => V_handler d end.

Lemma wp_V_handler s x k c :
  base k c -> level_of k = IntOff -> handling k = true -> semaphores k !! s = Some x ->
  wp no_fault (fun _ k' => base k' c /\ quiet k k' /\ handling k' = true /\ now_of k' = now_of k /\
    schedules k k') (V_handler s : stM K unit) k.
Proof.
  intros Hb Hl Hh Ex. unfold V_handler. apply wp_bind.
  change (Semaphore_V s) with (oldLevel ← SetLevel IntOff; x ← get_semaphore s;
    V_body s x;; mret oldLevel : stM K IntStatus).
  apply wp_bind. eapply wp_ok; [apply SetLevel_off | ]. rewrite Hl.
  assert (Hb1 : base (set_off k) c) by (destruct Hb; done).
  assert (Hq1 : quiet k (set_off k)) by (by apply quiet_frame).
  unfold get_semaphore, find. apply wp_bind, wp_bind, wp_gets. simpl. rewrite Ex.
  eapply wp_lift; [done | ]. apply wp_bind.
  eapply wp_mono; [by apply (wp_V_body (set_off k) c s x) | ]. intros [] k2 (Hb2 & Hq2 & Hi2 & Hs2).
  apply wp_ret, wp_bind. eapply wp_ok; [apply SetLevel_off | ]. apply wp_ret.
  assert (Hq3 : quiet k2 (set_off k2)).
  { apply quiet_frame; try done. unfold level_of, set_off. simpl. by rewrite Hi2. }
  split_and!.
  - by destruct Hb2.
  - eapply quiet_trans; [exact Hq1 | ]. by eapply quiet_trans.
  - unfold handling, set_off. simpl. unfold handling. by rewrite Hi2.
  - unfold now_of. simpl. by rewrite Hs2.
  - exists []. split; [ | done]. unfold pending_of, set_off. simpl. unfold pending_of. by rewrite Hi2.
Qed.

#[global] Instance v_device_ok : DeviceOk no_fault v_device.
Proof.
  intros d k c Hb Hl Hh Hn. unfold v_device. apply wp_bind, wp_gets.
  destruct (semaphores k !! d) as [x | ] eqn:Ex; [by eapply wp_V_handler | ].
  apply wp_ret. split_and!; try done; [apply quiet_refl | by exists []].
Qed.

(** No thread calls a device. *)
Definition no_request (d : nat) (arg : Z) : stM K unit := lift (Fail AssertFail).

#[global] Instance no_request_ok : RequestOk no_request.
Proof. intros d arg k lv c _ _. by right. Qed.

End VDevice.

(** ** Running to the end *)

Section Running.
Context {D : Type} (RandomNumber : D -> Z * D) (device : nat -> stM (Kern D) unit).
Context (request : nat -> Z -> stM (Kern D) unit) (procs : nat -> Z -> list instr).

(** Whether there is time enough, as a boolean. *)
Definition has_room (k : Kern D) : bool :=
  (now_of k <=? HORIZON) && forallb (fun p => when p <=? HORIZON) (pending_of k).

(** The state after [n] steps, while there is time. *)
Fixpoint after_steps (n : nat) (k : Kern D) : option (Kern D) :=
  match n with
  | O => Some k
  | S n' =>
      if has_room k then
        match step RandomNumber device request procs k with
        | Ok (_, k') => after_steps n' k'
        | Fail _ => None
        end
      else None
  end.

Lemma has_room_ok k : has_room k = true -> room k.
Proof.
  intros [H1 H2]%andb_true_iff. split; [by apply Z.leb_le | ].
  apply Forall_forall. intros p Hp. eapply forallb_forall in H2; [by apply Z.leb_le in H2 | ].
  by apply list_elem_of_In.
Qed.

Lemma after_steps_reachable k0 n : forall k k',
  reachable RandomNumber device request procs k0 k -> after_steps n k = Some k' ->
  reachable RandomNumber device request procs k0 k'.
Proof.
  induction n as [ | n IH]; intros k k' Hr E; cbn [after_steps] in E; [by injection E as <- | ].
  destruct (has_room k) eqn:Eh; [ | done].
  destruct (step RandomNumber device request procs k) as [[[] k1] | ] eqn:Es; [ | done].
  eapply IH; [ | exact E]. eapply reach_step; [done | by apply has_room_ok | done].
Qed.

(** Steps until one fails: the fault and the last state. *)
Fixpoint run_to_end (fuel : nat) (k : Kern D) : option (fault * Kern D) :=
  match fuel with
  | O => None
  | S f =>
      match step RandomNumber device request procs k with
      | Ok (_, k') => run_to_end f k'
      | Fail e => Some (e, k)
      end
  end.

End Running.

(** The kernel that runs the thread self test: only the timer is pending. *)
Definition selftest_kernel (phase : Z) : Kern unit :=
  new_kernel tt false [mkPending TimerObj phase TimerInt] (Some (new_Machine 0)) ThreadSelfTest.

Definition no_random (d : unit) : Z * unit := (0, d).

(** What a thread printed. *)
Definition printed_by (which : Z) (out : list (list Z)) : list (list Z) :=
  filter (fun l => head l = Some which) out.

Definition five_loops (which : Z) : list (list Z) := looped which <$> seqZ 0 5.

Definition selftest_ok (phase : Z) : bool :=
  match run_to_end no_random (fun _ => mret tt) no_request test_procs 2000 (selftest_kernel phase) with
  | Some (f, k) =>
      bool_decide (f = Halted) && bool_decide (next_instr k = Some Halt) &&
      bool_decide (printed_by 0 (output k) = five_loops 0) &&
      bool_decide (printed_by 1 (output k) = five_loops 1) &&
      bool_decide (length (output k) = 10%nat)
  | None => false
  end.

(** The kernel's self test of threads, semaphores and synchronised lists
    runs to its end: every assertion in it holds, both threads of the thread
    test print their five lines in order, and the machine stops at the Halt of
    the main thread.  The timer's first interrupt is at tick 100, where
    [Kernel::Initialize] puts it. *)
Theorem thread_selftest_passes : selftest_ok TimerTicks = true.
Proof. vm_compute. reflexivity. Qed.

(** ** Witnesses *)

Lemma selftest_kernel_inv : kinv (selftest_kernel TimerTicks).
Proof.
  apply new_kernel_inv; [vm_compute; reflexivity | by repeat constructor | ].
  intros x [= <-]. apply regs_zero.
Qed.

Lemma test_procs_client f a : forallb client (test_procs f a) = true.
Proof. destruct f as [ | [ | f]]; [ | vm_compute; reflexivity..]. reflexivity. Qed.

Notation test_steps := (after_steps no_random v_device no_request test_procs).

Lemma scheduler_safe_witness :
  exists k, test_steps 120 (selftest_kernel TimerTicks) = Some k /\
    wp (step_admits (faulty := no_fault) k) (fun _ => kinv) (step no_random v_device no_request test_procs) k.
Proof.
  destruct (test_steps 120 (selftest_kernel TimerTicks)) as [k | ] eqn:E;
    [ | exfalso; vm_compute in E; discriminate E].
  exists k. split; [reflexivity | ].
  apply (scheduler_safe no_random v_device no_request test_procs test_procs_client (selftest_kernel TimerTicks) k).
  - apply selftest_kernel_inv.
  - eapply after_steps_reachable; [apply reach_start | exact E].
  - assert (H : match test_steps 120 (selftest_kernel TimerTicks) with
                | Some k => has_room k | None => false end = true) by (vm_compute; reflexivity).
    rewrite E in H. by apply has_room_ok.
Defined.

(** A state in which a thread waits for a semaphore. *)
Lemma one_place_witness :
  exists k, test_steps 120 (selftest_kernel TimerTicks) = Some k /\ NoDup (ready_of k).
Proof.
  destruct (test_steps 120 (selftest_kernel TimerTicks)) as [k | ] eqn:E;
    [ | exfalso; vm_compute in E; discriminate E].
  exists k. split; [reflexivity | ].
  apply (one_place no_random v_device no_request test_procs test_procs_client (selftest_kernel TimerTicks) k 0).
  - apply selftest_kernel_inv.
  - eapply after_steps_reachable; [apply reach_start | exact E].
Defined.

(** A kernel about to tick. *)
Definition ticking : Kern unit :=
  mkKern {[ 0%nat := mkThread None RUNNING (replicate 40 0) None [Halt] 0 ]} 0 (mkScheduler [] None)
    (mkInterrupt IntOn [mkPending TimerObj 5 TimerInt] false false SystemMode) (mkStats 0 0 0 0)
    (mkTimer false false) ∅ ∅ ∅ ∅ 1 None tt [].

Lemma ticking_running : running ticking IntOn [Halt].
Proof.
  set (x := mkThread None RUNNING (replicate 40 0) None [Halt] 0).
  assert (Hx : threads ticking !! 0%nat = Some x) by apply lookup_singleton_eq.
  assert (Hone : forall t y, threads ticking !! t = Some y -> t = 0%nat /\ y = x).
  { intros t y Hy. unfold ticking in Hy. cbn [threads] in Hy. by apply lookup_singleton_Some in Hy as [<- <-]. }
  split; try done; [ | by exists x]. split; try done; [ | by exists x | | by repeat constructor].
  - split; try done.
    + intros t [y Hy]. apply Hone in Hy as [-> _]. simpl. lia.
    + constructor.
    + intros t Ht. by apply elem_of_nil in Ht.
    + intros t y Hy Hne. by apply Hone in Hy as [-> _].
    + intros t y Hy. apply Hone in Hy as [_ ->]. by left.
    + intros t y Hy. apply Hone in Hy as [_ ->]. apply regs_zero.
  - split; [done | ]. intros t y sp Hy Hsp. by apply Hone in Hy as [_ ->].
Qed.
