(* ===== verification/Delivery.v ===== *)
(** * Delivery of interrupts (machine/interrupt.cc, machine/timer.cc,
      threads/alarm.cc)

    What a clock tick does to the devices, for devices whose handlers do not
    fail: the handler of every interrupt that is due runs, once, in the order
    of the times they were scheduled for. *)

From Stdlib Require Import Sorting.Sorted.
From S2P Require Import Prelude LinkedList Machine AddrSpace Threads ThreadsInv ThreadsSafe ThreadsTest.

Section Delivery.
Context {D : Type} (RandomNumber : D -> Z * D) (device : nat -> stM (Kern D) unit) `{!DeviceOk no_fault device}.
Notation K := (Kern D).
Implicit Types (k : K) (l : list PendingInterrupt).

(** What the call of the timer's handler means: a time slice is over, unless
    the machine is idle, and the timer goes off again later, unless it is
    disabled; nothing else of the thread system changes. *)
Record timer_fires k k' : Prop := {
  tf_yield : yieldOnReturn (interrupt k') =
    if decide (status (interrupt k) = IdleMode) then yieldOnReturn (interrupt k) else true;
  tf_again : if disable (timer k) then pending_of k' = pending_of k
    else exists p, pending_of k' ≡ₚ p :: pending_of k /\ callOnInterrupt p = TimerObj /\
      now_of k < when p <= now_of k + 2 * TimerTicks;
  tf_threads : threads k' = threads k /\ scheduler k' = scheduler k /\ semaphores k' = semaphores k
}.

(** Whom an interrupt calls, and what the call does. *)
Definition handles (o : CallBackObj) k k' : Prop :=
  match o with TimerObj => timer_fires k k' | DeviceObj d => device d k = Ok (tt, k') end.

Definition with_pending k l : K :=
  with_interrupt k (mkInterrupt (level (interrupt k)) l (inHandler (interrupt k))
    (yieldOnReturn (interrupt k)) (status (interrupt k))).

(** [delivery k l k']: from [k], the handlers of the interrupts [l] run, each
    after its interrupt was taken off the front of the list. *)
Inductive delivery : K -> list PendingInterrupt -> K -> Prop :=
  | delivery_done k : delivery k [] k
  | delivery_next k p rest k1 l k2 :
      pending_of k = p :: rest -> handles (callOnInterrupt p) (with_pending k rest) k1 ->
      delivery k1 l k2 -> delivery k (p :: l) k2.

Lemma Schedule_fires o d ty k k' :
  0 < d <= 2 * TimerTicks -> 0 <= now_of k <= LATE -> Schedule o d ty k = Ok (tt, k') ->
  exists p, pending_of k' ≡ₚ p :: pending_of k /\ callOnInterrupt p = o /\
    now_of k < when p <= now_of k + 2 * TimerTicks.
Proof.
  intros Hd Hn. unfold Schedule, set_pending, set_interrupt. run. unfold ASSERT.
  rewrite (proj2 (Z.ltb_lt 0 d)) by lia. intros [= <-].
  eexists. split; [apply sorted_insert_perm | ]. split; [done | ]. cbn [when].
  unfold now_of, LATE, TimerTicks in *. change (2 ^ 21) with 2097152 in *. change (2 ^ 20) with 1048576 in *. cint.
Qed.

Lemma Alarm_yields k u k1 :
  Alarm_CallBack k = Ok (u, k1) ->
  k1 = if decide (status (interrupt k) = IdleMode) then k
       else with_interrupt k (mkInterrupt (level (interrupt k)) (pending (interrupt k)) (inHandler (interrupt k))
         true (status (interrupt k))).
Proof.
  unfold Alarm_CallBack, YieldOnReturn, set_yieldOnReturn, set_interrupt. run. case_decide as Hs.
  - rewrite bool_decide_eq_true_2 by done. by intros [= _ <-].
  - rewrite bool_decide_eq_false_2 by done. cbn [negb]. destruct (ASSERT _); [by intros [= _ <-] | done].
Qed.

Lemma Timer_fires k c k' :
  base k c -> now_of k <= LATE -> Timer_CallBack RandomNumber k = Ok (tt, k') -> timer_fires k k'.
Proof.
  intros Hb Hn. pose proof (b_now _ _ Hb) as H0. unfold Timer_CallBack. unfold mbind at 1, stM_bind at 1.
  destruct (Alarm_CallBack k) as [[[] k1] | f] eqn:Ea; [ | done]. pose proof (Alarm_yields _ _ _ Ea) as Ha.
  assert (H1 : timer k1 = timer k /\ pending_of k1 = pending_of k /\ now_of k1 = now_of k /\
    threads k1 = threads k /\ scheduler k1 = scheduler k /\ semaphores k1 = semaphores k /\
    yieldOnReturn (interrupt k1) = if decide (status (interrupt k) = IdleMode) then yieldOnReturn (interrupt k) else true).
  { rewrite Ha. case_decide; by split_and!. }
  clear Ha Ea. destruct H1 as (Ht & Hp & Hnow & Hth & Hsc & Hse & Hy).
  unfold SetInterrupt, mbind at 1, stM_bind at 1, gets at 1. cbv beta iota. rewrite Ht.
  destruct (disable (timer k)) eqn:Ed; cbn [negb].
  { intros [= <-]. split; [done | by rewrite Ed | done]. }
  intros E.
  assert (HS : exists d k2, 0 < d <= 2 * TimerTicks /\ Schedule TimerObj d TimerInt k2 = Ok (tt, k') /\
    interrupt k2 = interrupt k1 /\ stats k2 = stats k1 /\
    threads k2 = threads k1 /\ scheduler k2 = scheduler k1 /\ semaphores k2 = semaphores k1).
  { destruct (randomize (timer k)).
    - unfold gets, modify, mbind, mret, stM_bind, stM_ret in E. destruct (RandomNumber (devices k1)) as [r d'].
      eexists _, (with_devices k1 d'). split; [ | by split_and!].
      unfold TimerTicks. pose proof (Z.mod_pos_bound (to_u32 r) (100 * 2) ltac:(lia)). rewrite to_i32_id by cint. lia.
    - eexists TimerTicks, k1. split; [unfold TimerTicks; lia | by split_and!]. }
  destruct HS as (d & k2 & Hd & Es & Hi2 & Hs2 & Ht2 & Hc2 & Hm2).
  assert (Hrest : threads k' = threads k2 /\ scheduler k' = scheduler k2 /\ semaphores k' = semaphores k2 /\
    yieldOnReturn (interrupt k') = yieldOnReturn (interrupt k2)).
  { revert Es. unfold Schedule, set_pending, set_interrupt. run. destruct (ASSERT _); [ | done]. by intros [= <-]. }
  destruct Hrest as (R1 & R2 & R3 & R4).
  assert (Hn2 : now_of k2 = now_of k) by (unfold now_of in *; by rewrite Hs2).
  destruct (Schedule_fires TimerObj d TimerInt k2 k') as (p & Hperm & Ho & Hw); [done | lia | done | ].
  split; [by rewrite R4, Hi2 | rewrite Ed; exists p | by rewrite R1, R2, R3, Ht2, Hc2, Hm2].
  rewrite Hn2 in Hw. unfold pending_of in *. rewrite Hi2 in Hperm. by rewrite <- Hp.
Qed.

Lemma CallBack_handles o k c :
  base k c -> level_of k = IntOff -> handling k = true -> now_of k <= LATE ->
  exists k', CallBack RandomNumber device o k = Ok (tt, k') /\ handles o k k' /\
    base k' c /\ quiet k k' /\ handling k' = true /\ now_of k' = now_of k /\ schedules k k'.
Proof.
  intros Hb Hl Hh Hn. destruct (wp_no_fault _ _ _ (wp_CallBack RandomNumber device o k c Hb Hl Hh Hn)) as ([] & k' & E & H).
  exists k'. split; [done | ]. split; [ | done]. destruct o; [by eapply Timer_fires | done].
Qed.

(** The interrupts among [l] that are due. *)
Definition due_now (now : Z) l : list PendingInterrupt := filter (fun p => when p <= now) l.

Lemma due_now_later now l l' : Forall (fun p => now < when p) l -> due_now now (l ++ l') = due_now now l'.
Proof.
  intros Hl. unfold due_now. rewrite filter_app. induction Hl as [ | p l Hp Hl IH]; [done | ].
  rewrite filter_cons_False by lia. done.
Qed.

Lemma due_now_none now l : Forall (fun p => now < when p) l -> due_now now l = [].
Proof. intros Hl. rewrite <- (app_nil_r l). by rewrite due_now_later. Qed.

Lemma first_due p l now : Sorted (ordered PendingCompare) (p :: l) ->
  forall l2, l2 ≡ₚ due_now now l -> Sorted (ordered PendingCompare) l2 -> Sorted (ordered PendingCompare) (p :: l2).
Proof.
  intros Hs l2 Hp H2. constructor; [done | ]. destruct l2 as [ | q l2]; constructor.
  assert (Hq : q ∈ l).
  { assert (q ∈ due_now now l) as Hq by (rewrite <- Hp; left). by apply list_elem_of_filter in Hq as [_ ?]. }
  apply Sorted_StronglySorted in Hs.
  - apply StronglySorted_inv in Hs as [_ HF]. rewrite Forall_forall in HF. by apply HF.
  - intros x y z. rewrite !pending_ordered. lia.
Qed.

Lemma fire_loop_delivers fuel : forall k c p l,
  base k c -> level_of k = IntOff -> handling k = true -> now_of k <= LATE ->
  pending_of k = p :: l -> when p <= now_of k -> (due (now_of k) (p :: l) <= fuel)%nat ->
  exists k' dl, fire_loop RandomNumber device fuel k = Ok (tt, k') /\ delivery k dl k' /\
    dl ≡ₚ due_now (now_of k) (pending_of k) /\ Sorted (ordered PendingCompare) dl.
Proof.
  induction fuel as [ | fuel IH]; intros k c p l Hb Hl Hh Hn Hp Hw Hd.
  { unfold due in Hd. rewrite filter_cons_True in Hd by done. simpl in Hd. lia. }
  set (k1 := with_pending k l). pose proof (b_sorted _ _ Hb) as Hsorted. rewrite Hp in Hsorted.
  assert (Hb1 : base k1 c).
  { destruct Hb as [Hb1 Hb2 Hb3 Hb4 Hb5]. split; try done. by apply Sorted_inv in Hsorted as [? _]. }
  destruct (CallBack_handles (callOnInterrupt p) k1 c Hb1 Hl Hh Hn)
    as (k2 & E2 & Hh2 & Hb2 & Hq2 & Hi2 & Hn2 & new & Hperm & Hnew).
  change (now_of k1) with (now_of k) in *. change (pending_of k1) with l in Hperm.
  assert (Hdue : due_now (now_of k) (pending_of k2) ≡ₚ due_now (now_of k) l).
  { unfold due_now at 1. rewrite Hperm. fold (due_now (now_of k) (new ++ l)). rewrite due_now_later; [done | ].
    eapply Forall_impl; [exact Hnew | ]. simpl. lia. }
  assert (Hstep : fire_loop RandomNumber device (S fuel) k =
    match pending_of k2 with
    | [] => Ok (tt, k2)
    | n :: _ => if when n <=? now_of k then fire_loop RandomNumber device fuel k2 else Ok (tt, k2)
    end).
  { cbn [fire_loop]. unfold mbind, stM_bind, gets. unfold pending_of in Hp. rewrite Hp.
    unfold set_pending, set_interrupt, modify. change (with_interrupt k _) with k1. rewrite E2.
    change (totalTicks (stats k2)) with (now_of k2). rewrite Hn2. unfold pending_of.
    destruct (pending (interrupt k2)); [done | ]. by case_match. }
  assert (Hnext : forall dl k', delivery k2 dl k' -> delivery k (p :: dl) k').
  { intros dl k' Hdl. by eapply delivery_next. }
  assert (Hhead : due_now (now_of k) (pending_of k) = p :: due_now (now_of k) l).
  { unfold due_now. by rewrite Hp, filter_cons_True. }
  rewrite Hstep, Hhead.
  assert (Hlast : Forall (fun q => now_of k < when q) (pending_of k2) ->
    exists k' dl, Ok (tt, k2) = Ok (tt, k') /\ delivery k dl k' /\
      dl ≡ₚ p :: due_now (now_of k) l /\ Sorted (ordered PendingCompare) dl).
  { intros HF. exists k2, [p]. split_and!; [done | apply Hnext, delivery_done | | by repeat constructor].
    rewrite <- Hdue, due_now_none by done. done. }
  destruct (pending_of k2) as [ | n l2] eqn:Ep2; [by apply Hlast | ].
  destruct (Z.leb_spec (when n) (now_of k)) as [Hle | Hgt].
  2: { apply Hlast. apply sorted_later; [ | done]. rewrite <- Ep2. apply Hb2. }
  destruct (IH k2 c n l2) as (k' & dl & E & Hdl & Hpd & Hs); try done; try lia.
  - by rewrite (q_level _ _ Hq2).
  - rewrite Hn2. assert (Hc : due (now_of k) (n :: l2) = due (now_of k) l).
    { unfold due. fold (due_now (now_of k) (n :: l2)) (due_now (now_of k) l). by rewrite Hdue. }
    rewrite Hc. unfold due in *. rewrite filter_cons_True in Hd by done. simpl in Hd. lia.
  - rewrite Hn2, Ep2, Hdue in Hpd. exists k', (p :: dl). split_and!; [done | by apply Hnext | by rewrite Hpd | ].
    by eapply first_due.
Qed.

(** The state in which the handlers start: the clock of the tick, interrupts
    off, and everything a handler looks at as it was. *)
Record handlers_start k (now : Z) k1 : Prop := {
  hs_now : now_of k1 = now;
  hs_level : level_of k1 = IntOff;
  hs_pending : pending_of k1 = pending_of k;
  hs_yield : yieldOnReturn (interrupt k1) = yieldOnReturn (interrupt k) /\
    status (interrupt k1) = status (interrupt k);
  hs_rest : threads k1 = threads k /\ currentThread k1 = currentThread k /\ scheduler k1 = scheduler k /\
    semaphores k1 = semaphores k /\ timer k1 = timer k /\ devices k1 = devices k
}.

Lemma fire_delivers k c p l :
  base k c -> level_of k = IntOff -> now_of k <= LATE -> pending_of k = p :: l -> when p <= now_of k ->
  exists k1 dl k2 k', fire RandomNumber device k = Ok (tt, k') /\ handlers_start k (now_of k) k1 /\
    handling k1 = true /\ delivery k1 dl k2 /\ dl ≡ₚ due_now (now_of k) (pending_of k) /\
    Sorted (ordered PendingCompare) dl /\
    pending_of k' = pending_of k2 /\ devices k' = devices k2 /\
    yieldOnReturn (interrupt k') = yieldOnReturn (interrupt k2).
Proof.
  intros Hb Hl Hn Hp Hw.
  assert (HM : exists k0, match machine k with None => mret tt | Some _ => on_machine (DelayedLoad 0 0) end k =
    Ok (tt, k0) /\ base k0 c /\ exists x, k0 = with_machine k x).
  { destruct (machine k) as [m | ] eqn:Em.
    - destruct (DelayedLoad_regs m) as (m' & E & Hr'); [by apply (b_machine _ _ Hb) | ].
      exists (with_machine k (Some m')). split_and!; [ | by eapply machine_step | eauto].
      unfold on_machine, find. unfold mbind, stM_bind, gets. rewrite Em. unfold lift. rewrite E. done.
    - exists k. split_and!; [done | done | exists None]. destruct k; simpl in *. by subst. }
  destruct HM as (k0 & E0 & Hb0 & x & ->).
  set (k1 := with_interrupt (with_machine k x) (mkInterrupt (level (interrupt k)) (pending (interrupt k)) true
    (yieldOnReturn (interrupt k)) (status (interrupt k)))).
  assert (Hb1 : base k1 c) by (by destruct Hb0).
  destruct (fire_loop_delivers (length (p :: l)) k1 c p l) as (k2 & dl & E2 & Hdl & Hpd & Hs); try done.
  { unfold due. apply length_filter. }
  eexists k1, dl, k2, _. split_and!; [ | by split | done | done | done | done | | | ].
  - unfold fire. unfold mbind, stM_bind, gets. rewrite E0. unfold set_inHandler, set_interrupt, modify.
    change (with_interrupt (with_machine k x) _) with k1. change (pending (interrupt k1)) with (pending_of k).
    rewrite Hp, E2. reflexivity.
  - done.
  - done.
  - done.
Qed.

Lemma tick_clock k c :
  base k c -> room k ->
  now_of (with_stats k (tick (status (interrupt k)) (stats k))) =
    (now_of k + (if decide (status (interrupt k) = SystemMode) then SystemTick else UserTick)) /\
  before LATE (with_stats k (tick (status (interrupt k)) (stats k))).
Proof.
  intros [_ _ _ _ H0] [Hn HF]. assert (Hnow : now_of (with_stats k (tick (status (interrupt k)) (stats k))) =
    now_of k + (if decide (status (interrupt k) = SystemMode) then SystemTick else UserTick)).
  { unfold now_of, tick in *. simpl. unfold HORIZON, LATE, SystemTick, UserTick in *.
    change (2 ^ 20) with 1048576 in *. change (2 ^ 21) with 2097152 in *. pow2.
    case_bool_decide; case_decide; try done; simpl; rewrite to_i32_id by (unfold is_i32; pow2; lia); lia. }
  split; [done | ]. unfold HORIZON, LATE, SystemTick, UserTick in *.
  change (2 ^ 20) with 1048576 in *. change (2 ^ 21) with 2097152 in *. pow2. split; [rewrite Hnow; case_decide; lia | ].
  eapply Forall_impl; [exact HF | ]. simpl. lia.
Qed.

Lemma CheckIfDue_delivers k c :
  base k c -> level_of k = IntOff -> handling k = false -> before LATE k ->
  exists k1 dl k2 b k', CheckIfDue RandomNumber device false k = Ok (b, k') /\
    handlers_start k (now_of k) k1 /\ delivery k1 dl k2 /\ dl ≡ₚ due_now (now_of k) (pending_of k) /\
    Sorted (ordered PendingCompare) dl /\
    pending_of k' = pending_of k2 /\ devices k' = devices k2 /\
    yieldOnReturn (interrupt k') = yieldOnReturn (interrupt k2) /\
    base k' c /\ quiet k k' /\ handling k' = false /\ caught_up k' /\ now_of k' = now_of k.
Proof.
  intros Hb Hl Hh Hlate. pose proof Hlate as [Hn HF].
  destruct (wp_no_fault _ _ _ (wp_CheckIfDue RandomNumber device false k c Hb Hl Hh Hlate))
    as (b & k' & E & Hb' & Hq & Hh' & Hc & _).
  assert (Hidle : k' = k -> due_now (now_of k) (pending_of k) = [] ->
    exists k1 dl k2 b k', CheckIfDue RandomNumber device false k = Ok (b, k') /\
    handlers_start k (now_of k) k1 /\ delivery k1 dl k2 /\ dl ≡ₚ due_now (now_of k) (pending_of k) /\
    Sorted (ordered PendingCompare) dl /\
    pending_of k' = pending_of k2 /\ devices k' = devices k2 /\
    yieldOnReturn (interrupt k') = yieldOnReturn (interrupt k2) /\
    base k' c /\ quiet k k' /\ handling k' = false /\ caught_up k' /\ now_of k' = now_of k).
  { intros -> Hnone. exists k, [], k, b, k. rewrite Hnone.
    split_and!; try done; constructor. }
  pose proof E as E'. revert E'. unfold CheckIfDue. unfold mbind at 1, stM_bind at 1.
  rewrite (assert_off_ok k Hl). unfold mbind, stM_bind, gets. fold (pending_of k).
  destruct (pending_of k) as [ | p l] eqn:Ep.
  { intros [= <- <-]. by apply Hidle. }
  fold (now_of k). destruct (Z.ltb_spec (now_of k) (when p)) as [Hlt | Hge]; cbn [negb].
  { intros [= <- <-]. apply Hidle; [done | ]. apply due_now_none, sorted_later; [ | done]. rewrite <- Ep. apply Hb. }
  destruct (fire_delivers k c p l Hb Hl Hn Ep Hge)
    as (k1 & dl & k2 & k3 & Ef & Hs1 & _ & Hdl & Hpd & Hso & Hp3 & Hd3 & Hy3).
  rewrite Ef. intros [= <- <-]. exists k1, dl, k2, true, k3.
  destruct (wp_no_fault _ _ _ (wp_fire RandomNumber device k c p l Hb Hl Hn Ep Hge))
    as ([] & k3' & Ef' & _ & _ & _ & Hn3 & _). rewrite Ef in Ef'. injection Ef' as <-.
  rewrite Ep in Hpd. by split_and!.
Qed.

(** C26: A clock tick comes to an end with every due interrupt delivered.
    Time advances by one tick; then, with interrupts off, the handlers of
    exactly the pending interrupts that are due run, each once, in the order
    of their times, a device's handler being the device's own and the timer's
    asking for the end of the time slice and setting the timer again; then
    nothing still pending is due, and the thread that was interrupted yields
    if it was asked for, and otherwise goes on where it was. *)
Theorem interrupts_delivered k c :
  running k IntOn c -> room k ->
  exists k1 dl k2 k', OneTick RandomNumber device k = Ok (tt, k') /\
    now_of k' = now_of k + (if decide (status (interrupt k) = SystemMode) then SystemTick else UserTick) /\
    handlers_start k (now_of k') k1 /\ delivery k1 dl k2 /\
    dl ≡ₚ due_now (now_of k') (pending_of k) /\ Sorted (ordered PendingCompare) dl /\
    pending_of k' = pending_of k2 /\ devices k' = devices k2 /\
    Forall (fun p => now_of k' < when p) (pending_of k') /\
    yieldOnReturn (interrupt k') = false /\
    if yieldOnReturn (interrupt k2)
    then running k' IntOn (Yield :: SetStatus_ (status (interrupt k)) :: c) /\
      status (interrupt k') = SystemMode
    else running k' IntOn c.
Proof.
  intros Hr Hroom. pose proof Hr as [Hb Hl Hh Hd Hs].
  set (kt := with_interrupt (with_stats k (tick (status (interrupt k)) (stats k)))
    (mkInterrupt IntOff (pending (interrupt k)) (inHandler (interrupt k)) (yieldOnReturn (interrupt k)) (status (interrupt k)))).
  destruct (tick_clock k c Hb Hroom) as [Hnow Hlate]. change (now_of (with_stats k _)) with (now_of kt) in *.
  assert (Hbt : base kt c).
  { destruct Hb as [Hb1 Hb2 Hb3 Hb4 Hb5]. split; try done. revert Hnow. unfold SystemTick, UserTick. case_decide; lia. }
  destruct (CheckIfDue_delivers kt c Hbt eq_refl Hh Hlate)
    as (k1 & dl & k2 & b & k3 & Ec & Hs1 & Hdl & Hpd & Hso & Hp3 & Hd3 & Hy3 & Hb3 & Hq3 & Hh3 & Hc3 & Hn3).
  assert (Hst : handlers_start k (now_of kt) k1) by (destruct Hs1; by split).
  set (k4 := with_interrupt k3 (mkInterrupt IntOn (pending (interrupt k3)) (inHandler (interrupt k3))
    (yieldOnReturn (interrupt k3)) (status (interrupt k3)))).
  assert (Hr4 : running k4 IntOn c).
  { split; [by destruct Hb3 | done | done | | ].
    - change (doomed k4) with (doomed k3). by rewrite (q_doomed _ _ Hq3).
    - change (cur_status k3 RUNNING). eapply quiet_status; [exact Hbt | done | | done].
      by apply (running_free_cur k IntOn c). }
  destruct (running_thread _ _ _ Hr4) as (x & Hx & Hcx & _).
  rewrite <- Hn3 in Hst, Hpd, Hnow.
  assert (Htick : OneTick RandomNumber device k =
    (y ← gets (fun k => yieldOnReturn (interrupt k));
     if (y : bool) then
       set_yieldOnReturn false;; set_status SystemMode;; push [Yield; SetStatus_ (status (interrupt k))]
     else mret tt) k4).
  { unfold OneTick, ChangeLevel, set_interrupt. unfold mbind, stM_bind, gets, modify.
    change (with_interrupt (with_stats k _) _) with kt. rewrite Ec. reflexivity. }
  rewrite Htick. unfold mbind, stM_bind, gets. change (yieldOnReturn (interrupt k4)) with (yieldOnReturn (interrupt k3)).
  destruct (yieldOnReturn (interrupt k3)) eqn:Ey.
  - set (k5 := with_interrupt k4 (mkInterrupt IntOn (pending (interrupt k3)) (inHandler (interrupt k3)) false SystemMode)).
    assert (Hr5 : running k5 IntOn c) by (destruct Hr4 as [[] ? ? ? ?]; done).
    exists k1, dl, k2. eexists. split.
    { unfold set_yieldOnReturn, set_status, set_interrupt, modify. change (with_interrupt (with_interrupt k4 _) _) with k5.
      by apply push_ok. }
    rewrite Hcx, <- Hy3. split_and!; try done. by eapply running_set_code.
  - exists k1, dl, k2, k4. rewrite <- Hy3. by split_and!.
Qed.
End Delivery.

(** A tick of [ticking], whose timer goes off: the tick is delivered, and the
    thread yields. *)
Lemma interrupts_delivered_witness :
  exists k', OneTick no_random v_device ticking = Ok (tt, k') /\
    running k' IntOn [Yield; SetStatus_ SystemMode; Halt].
Proof.
  destruct (interrupts_delivered no_random v_device ticking [Halt])
    as (k1 & dl & k2 & k' & E & _ & Hs & Hd & Hp & _ & _ & _ & _ & _ & Hy).
  - apply ticking_running.
  - apply has_room_ok. vm_compute. reflexivity.
  - exists k'. split; [exact E | ].
    assert (H : match OneTick no_random v_device ticking with Ok (_, k) => now_of k | Fail _ => 0 end = 10)
      by (vm_compute; reflexivity).
    rewrite E in H. rewrite H in Hp.
    change (due_now 10 (pending_of ticking)) with [mkPending TimerObj 5 TimerInt] in Hp.
    symmetry in Hp. apply Permutation_length_1_inv in Hp as ->.
    destruct (yieldOnReturn (interrupt k2)) eqn:Ey; [exact (proj1 Hy) | exfalso].
    inversion Hd as [ | k0 p rest k3 l k4 E3 Hh Hl]. subst. inversion Hl. subst.
    pose proof (tf_yield _ _ Hh) as Hty. rewrite Hty in Ey. destruct (hs_yield _ _ _ Hs) as [_ Hst]. simpl in Ey. rewrite Hst in Ey. discriminate Ey.
Defined.
