(* ===== verification/Devices.v ===== *)
(** * What a device may do to the thread system

    The handlers of the console and of the network, and what threads ask of
    these devices, do a few kinds of things: they change the device, call the
    host, schedule an interrupt, wake a thread, look at the caller.  None of
    these upsets the scheduler ([handled]), so a handler or a request built from
    them meets the interfaces [DeviceOk] and [RequestOk]. *)

From Stdlib Require Import Sorting.Sorted.
From S2P Require Import Prelude LinkedList Machine AddrSpace Threads ThreadsInv ThreadsSafe ThreadsTest.

(** A host call that fails, or an object that does not exist. *)
Definition io_fault (f : fault) : Prop := f = Undefined \/ f = AssertFail.

Lemma ASSERT_io b f : ASSERT b = Fail f -> io_fault f.
Proof. destruct b; intros [= <-]. by right. Qed.

Lemma zget_io {A} (l : list A) i f : zget l i = Fail f -> io_fault f.
Proof. unfold zget, io_fault. repeat case_match; intros [=]; auto. Qed.

Lemma ret_io {A} (a : A) f : mret (M := res) a = Fail f -> io_fault f.
Proof. done. Qed.

Lemma bind_io {A B} (m : res A) (k : A -> res B) f :
  (forall f, m = Fail f -> io_fault f) -> (forall a f, k a = Fail f -> io_fault f) -> (m ≫= k) = Fail f -> io_fault f.
Proof. destruct m as [a | g]; simpl; [by intros _ H; apply H | ]. intros H _ [= <-]. by apply H. Qed.

Lemma st_bind_io {S A B} (m : stM S A) (k : A -> stM S B) s f :
  (forall s f, m s = Fail f -> io_fault f) -> (forall a s f, k a s = Fail f -> io_fault f) ->
  (m ≫= k) s = Fail f -> io_fault f.
Proof. unfold mbind, stM_bind. destruct (m s) as [[a s'] | g] eqn:E; [by intros _ H; apply H | ]. intros H _ [= <-]. by eapply H. Qed.

Lemma lift_io {S A} (r : res A) (s : S) f : (forall f, r = Fail f -> io_fault f) -> lift r s = Fail f -> io_fault f.
Proof. unfold lift. destruct r; [done | ]. intros H [= <-]. by apply H. Qed.

Section Devices.
Context {D : Type}.
Notation K := (Kern D).
Implicit Types (k : K) (c p : list instr).

(** What is left of the scheduler's state *)
Definition handled k c k' : Prop :=
  base k' c /\ quiet k k' /\ handling k' = handling k /\ now_of k' = now_of k /\ schedules k k'.

Lemma schedules_trans k1 k2 k3 : now_of k2 = now_of k1 -> schedules k1 k2 -> schedules k2 k3 -> schedules k1 k3.
Proof.
  intros Hn (n1 & Hp1 & Hf1) (n2 & Hp2 & Hf2). exists (n2 ++ n1). split.
  - rewrite Hp2, Hp1. by rewrite app_assoc.
  - rewrite Hn in Hf2. by apply Forall_app_2.
Qed.

Lemma handled_trans k1 k2 k3 c : handled k1 c k2 -> handled k2 c k3 -> handled k1 c k3.
Proof.
  intros (? & ? & ? & ? & ?) (? & ? & ? & ? & ?). split_and!; [done | by eapply quiet_trans | congruence.. | by eapply schedules_trans].
Qed.

Lemma handled_refl k c : base k c -> handled k c k.
Proof. intros Hb. split_and!; try done; [apply quiet_refl | by exists []]. Qed.

Lemma handled_devices k c d : base k c -> handled k c (with_devices k d).
Proof. intros Hb. split_and!; try done; [by destruct Hb | by apply quiet_frame | by exists []]. Qed.

(** A thread that calls a device goes on. *)
Lemma running_after k lv c k' : running k lv c -> handled k c k' -> running k' lv c.
Proof. intros Hr (? & ? & ? & _). by eapply running_handled. Qed.

Section Calm.
Context (k0 : K) (c : list instr).
Hypothesis Hnow : now_of k0 <= LATE.
Notation calm m := (keeps io_fault (handled k0 c) anything m).

Lemma calm_lift {A} (r : res A) : (forall f, r = Fail f -> io_fault f) -> calm (lift r).
Proof. intros H. by apply keeps_lift. Qed.

Lemma calm_find {A} (o : option A) : calm (find o).
Proof. apply calm_lift. destruct o; intros f [= <-]. by left. Qed.

Lemma calm_modify (f : K -> K) : (forall k, f k = with_devices k (devices (f k))) -> calm (modify f).
Proof.
  intros Hf k Hk. apply wp_modify. split; [done | ]. rewrite Hf. eapply handled_trans; [exact Hk | ].
  apply handled_devices, Hk.
Qed.

Lemma calm_Schedule o d ty : 0 < d <= 2 ^ 20 -> calm (Schedule o d ty).
Proof.
  intros Hd k Hk. pose proof Hk as (Hb & _ & _ & Hn & _).
  eapply wp_mono; [apply (wp_Schedule o d ty k c Hb); [lia | done] | ].
  intros r k' Hk'. split; [done | ]. by eapply handled_trans.
Qed.

Lemma calm_V s : level_of k0 = IntOff -> handling k0 = true -> calm (V_handler s).
Proof.
  intros Hl Hh k Hk. pose proof Hk as (Hb & Hq & Hh' & _). destruct (semaphores k !! s) as [x | ] eqn:Ex.
  - apply wp_safe. eapply wp_mono; [eapply wp_V_handler; [exact Hb | | congruence | exact Ex] | ].
    + by destruct Hq; congruence.
    + intros r k' (? & ? & ? & ? & ?). split; [done | ]. eapply handled_trans; [exact Hk | ]. split_and!; try done. congruence.
  - unfold V_handler, Semaphore_V, get_semaphore, find. unfold wp, mbind, stM_bind. rewrite SetLevel_off. run.
    change (semaphores (set_off k)) with (semaphores k). rewrite Ex. by left.
Qed.

Lemma calm_start {A} (m : stM K A) : base k0 c -> calm m -> wp io_fault (fun _ => handled k0 c) m k0.
Proof. intros Hb Hm. eapply wp_mono; [by apply Hm, handled_refl | by intros ? ? [_ ?]]. Qed.

End Calm.

Lemma step_Request RandomNumber device request procs k d arg : next_instr k = Some (Request d arg) ->
  exists x c, threads k !! currentThread k = Some x /\ code x = Request d arg :: c /\
    step RandomNumber device request procs k = request d arg (set_code k x c).
Proof.
  unfold next_instr. intros Hi. destruct (threads k !! currentThread k) as [x | ] eqn:Hx; [ | done].
  simpl in Hi. destruct (code x) as [ | i c] eqn:Hc; [done | ]. simpl in Hi. injection Hi as ->.
  exists x, c. split_and!; [done | done | ]. unfold step, mbind, stM_bind. by rewrite (fetch_ok k x _ _ Hx Hc).
Qed.

(** *** The two interfaces *)

Lemma device_calm (device : nat -> stM K unit) :
  (forall d k0 c, now_of k0 <= LATE -> level_of k0 = IntOff -> handling k0 = true ->
     keeps io_fault (handled k0 c) anything (device d)) ->
  DeviceOk io_fault device.
Proof.
  intros H d k c Hb Hl Hh Hn. eapply wp_mono; [apply calm_start; [exact Hb | by apply H] | ].
  intros r k' (? & ? & ? & ? & ?). split_and!; try done. congruence.
Qed.

Lemma room_now (k : K) : room k -> now_of k <= LATE.
Proof. intros [H _]. unfold HORIZON, LATE in *. change (2 ^ 20) with 1048576. change (2 ^ 21) with 2097152 in H. lia. Qed.

(** A request does calm things and then, perhaps, gives its caller more to
    do. *)
Lemma request_then {A} (m : stM K A) (n : A -> stM K unit) k lv c :
  running k lv c -> now_of k <= LATE -> (forall k0, now_of k0 <= LATE -> keeps io_fault (handled k0 c) anything m) ->
  (forall a k', running k' lv c -> now_of k' <= LATE ->
     wp io_fault (fun _ k' => exists p, forallb client p = true /\ running k' lv (p ++ c)) (n a) k') ->
  wp io_fault (fun _ k' => exists p, forallb client p = true /\ running k' lv (p ++ c)) (m ≫= n) k.
Proof.
  intros Hr Hl Hm Hn. apply wp_bind.
  eapply wp_mono; [apply (calm_start k c m); [apply Hr | by apply Hm] | ].
  intros a k' Hk'. apply Hn; [by eapply running_after | ]. destruct Hk' as (_ & _ & _ & -> & _). done.
Qed.

Lemma request_push p k lv c : forallb client p = true -> running k lv c ->
  wp io_fault (fun _ k' => exists p, forallb client p = true /\ running k' lv (p ++ c)) (push p) k.
Proof. intros Hp Hr. eapply wp_push; [exact Hr | ]. intros k' Hk'. by exists p. Qed.

Lemma request_done k lv c : running k lv c ->
  wp io_fault (fun _ k' => exists p, forallb client p = true /\ running k' lv (p ++ c)) (mret tt) k.
Proof. intros Hr. apply wp_ret. by exists []. Qed.

Lemma request_calm (m : stM K unit) k lv c :
  running k lv c -> now_of k <= LATE -> (forall k0, now_of k0 <= LATE -> keeps io_fault (handled k0 c) anything m) ->
  wp io_fault (fun _ k' => exists p, forallb client p = true /\ running k' lv (p ++ c)) m k.
Proof.
  intros Hr Hl Hm. eapply wp_mono; [apply (calm_start k c m); [apply Hr | by apply Hm] | ].
  intros a k' Hk'. exists []. split; [done | ]. by eapply running_after.
Qed.

End Devices.

Create HintDb io.
#[export] Hint Resolve ASSERT_io zget_io ret_io : io.

(** Takes fallible code apart. *)
Ltac io := repeat first
  [ solve [eauto with io]
  | match goal with
    | |- ((_ ≫= _) _ = Fail _) -> _ => apply st_bind_io; [intros ? ? | intros ? ? ?]
    | |- (_ ≫= _) = Fail _ -> _ => apply bind_io; [intros ? | intros ? ?]
    | |- (lift _ _ = Fail _) -> _ => apply lift_io; intros ?
    | |- (match ?x with _ => _ end _ = Fail _) -> _ => destruct x
    | |- (match ?x with _ => _ end = Fail _) -> _ => destruct x
    end ].

Ltac calm1 :=
  match goal with
  | |- keeps _ _ _ (_ ≫= _) => eapply keeps_bind; [ | intros ? ?]
  | |- keeps _ _ ?P (mret _) => first [is_evar P; apply (keeps_ret anything); exact I | apply keeps_ret]
  | |- keeps _ _ _ (gets _) => apply (keeps_gets anything); intros; exact I
  | |- keeps _ _ _ (lift _) => apply calm_lift; solve [eauto with io]
  | |- keeps _ _ _ (find _) => apply calm_find
  | |- keeps _ _ _ (modify _) => apply calm_modify; by intros
  | |- keeps _ _ _ (Schedule _ _ _) => apply calm_Schedule; [assumption | done]
  | |- keeps _ _ _ (V_handler _) => by apply calm_V
  | |- keeps _ _ _ (if _ then _ else _) => apply keeps_if; intros ?
  | |- keeps _ _ _ (match ?x with _ => _ end) => destruct x
  | |- anything _ => exact I
  end.
Ltac calm := repeat calm1.
