(* ===== verification/Tokens.v ===== *)
(** * Token invariants of the thread system (threads/synch.cc,
      threads/synchlist.cc and the code that uses them)

    A way to reason about programs of the thread system that no interleaving
    can upset.  Tokens are kept in the values of semaphores, in the devices and
    their pending interrupts, and in what threads are still going to do: [P] owes a token of its
    semaphore, [V] has one to give, [Acquire] and [Release] of a lock likewise,
    and a request to a device may take some along.  Every step of the kernel,
    wherever the time slices fall, moves tokens about and never changes their
    sum ([step_tokens]).  A thread whose remaining code is worth all the tokens
    there are excludes every other thread. *)

From S2P Require Import Prelude LinkedList Machine AddrSpace Threads ThreadsInv ThreadsSafe.

(** ** Sums over a map *)

Section Sums.
Context {X : Type} (f : nat -> X -> Z).
Implicit Types m : gmap nat X.

Definition msum m : Z := map_fold (fun i x n => f i x + n) 0 m.

Lemma msum_new m i x : m !! i = None -> msum (<[i := x]> m) = f i x + msum m.
Proof. intros Hi. unfold msum. rewrite map_fold_insert_L; [done | intros; lia | done]. Qed.

Lemma msum_delete m i x : m !! i = Some x -> msum (delete i m) = msum m - f i x.
Proof.
  intros Hi. pose proof (msum_new (delete i m) i x (lookup_delete_eq _ _)) as H.
  rewrite insert_delete_eq, insert_id in H by done. lia.
Qed.

Lemma msum_insert m i x y : m !! i = Some y -> msum (<[i := x]> m) = msum m - f i y + f i x.
Proof.
  intros Hi. rewrite <- insert_delete_eq. rewrite msum_new by apply lookup_delete_eq.
  rewrite (msum_delete _ _ _ Hi). lia.
Qed.

Lemma msum_nonneg m : (forall i x, m !! i = Some x -> 0 <= f i x) -> 0 <= msum m.
Proof.
  unfold msum. apply (map_fold_weak_ind (fun r m => (forall i x, m !! i = Some x -> 0 <= f i x) -> 0 <= r)); [done | ].
  intros i x m' r Hi IH Hn. assert (0 <= r) by (apply IH; intros j y Hj; apply Hn; rewrite lookup_insert_ne; congruence).
  specialize (Hn i x (lookup_insert_eq _ _ _)). lia.
Qed.

Lemma msum_ge m i x :
  (forall i x, m !! i = Some x -> 0 <= f i x) -> m !! i = Some x -> f i x <= msum m.
Proof.
  intros Hn Hi. pose proof (msum_delete _ _ _ Hi).
  assert (0 <= msum (delete i m)); [ | lia]. apply msum_nonneg. intros j y [_ Hj]%lookup_delete_Some. eauto.
Qed.

Lemma msum_ge2 m i j x y :
  (forall i x, m !! i = Some x -> 0 <= f i x) -> m !! i = Some x -> m !! j = Some y -> i <> j ->
  f i x + f j y <= msum m.
Proof.
  intros Hn Hi Hj Hne. pose proof (msum_delete _ _ _ Hi).
  assert (f j y <= msum (delete i m)); [ | lia]. apply msum_ge.
  - intros l z [_ Hl]%lookup_delete_Some. eauto.
  - by rewrite lookup_delete_ne.
Qed.

Lemma msum_zero m i x : m !! i = Some x -> f i x = 0 -> msum (delete i m) = msum m.
Proof. intros Hi Hz. rewrite (msum_delete _ _ _ Hi). lia. Qed.

Lemma msum_null m : (forall i x, m !! i = Some x -> f i x = 0) -> msum m = 0.
Proof.
  intros H. unfold msum. revert H. apply (map_fold_weak_ind (fun r m => (forall i x, m !! i = Some x -> f i x = 0) -> r = 0)); [done | ].
  intros i x m' r Hi IH Hn. rewrite IH; [by rewrite (Hn i x (lookup_insert_eq _ _ _)) | ].
  intros j y Hj. apply (Hn j). rewrite lookup_insert_ne; congruence.
Qed.

End Sums.

(** ** Accounts

    What one thing of each kind is worth: a unit of a semaphore's value, a
    lock, the lock of a synchronised list, a request to a device, an interrupt
    that a device has pending, and a state of the devices. *)

Record accounts (D : Type) := mkAccounts {
  of_sem : nat -> Z;
  of_lock : nat -> Z;
  of_list : nat -> Z;
  of_request : nat -> Z -> Z;
  of_interrupt : nat -> Z;
  of_devices : D -> Z
}.
Arguments mkAccounts {D} _ _ _ _ _ _.
Arguments of_sem {D} _ _.
Arguments of_lock {D} _ _.
Arguments of_list {D} _ _.
Arguments of_request {D} _ _ _.
Arguments of_interrupt {D} _ _.
Arguments of_devices {D} _ _.

Section Accounts.
Context {D : Type} (a : accounts D).
Notation K := (Kern D).
Implicit Types (k : K) (c p : list instr).

(** The tokens an instruction sets free less those it takes. *)
Definition worth (i : instr) : Z :=
  match i with
  | P s | PLoop s => - of_sem a s
  | V s => of_sem a s
  | Acquire l => - of_lock a l
  | Release l => of_lock a l
  | Request d arg => of_request a d arg
  | _ => 0
  end.

Fixpoint worths c : Z := match c with [] => 0 | i :: c' => worth i + worths c' end.

(** What the code after an instruction must be worth: a thread waits for a
    condition inside the brackets of the lock. *)
Definition demand (i : instr) : Z :=
  match i with Wait _ l => of_lock a l | ListWait q => of_list a q | _ => 0 end.

(** Code that never owes tokens it will not give back. *)
Fixpoint solvent c : Prop :=
  match c with
  | [] => True
  | i :: c' => 0 <= worth i + worths c' /\ demand i <= worths c' /\ solvent c'
  end.

(** Objects with tokens are neither made nor destroyed on the way. *)
Definition modest (i : instr) : Prop :=
  match i with
  | NewSemaphore s _ | DeleteSemaphore s => of_sem a s = 0
  | NewSynchList q l s _ => of_sem a s = 0 /\ of_lock a l = 0 /\ of_list a q = 0
  | DeleteSynchList q => of_list a q = 0
  | _ => True
  end.

Definition pledge (p : PendingInterrupt) : Z :=
  match callOnInterrupt p with TimerObj => 0 | DeviceObj d => of_interrupt a d end.

Definition pledges (l : list PendingInterrupt) : Z := foldr (fun i n => pledge i + n) 0 l.

Definition total k : Z :=
  msum (fun _ x => worths (code x)) (threads k) +
  msum (fun s x => of_sem a s * value x) (semaphores k) +
  pledges (pending_of k) + of_devices a (devices k).

(** [n] tokens in all, and the accounts are in order. *)
Record tokens (n : Z) k : Prop := {
  tk_total : total k = n;
  tk_code t x : threads k !! t = Some x -> solvent (code x) /\ Forall modest (code x);
  tk_value s x : semaphores k !! s = Some x -> of_sem a s <> 0 -> 0 <= value x;
  tk_locks l x : locks k !! l = Some x -> of_sem a (lock_semaphore x) = of_lock a l;
  tk_conditions cv q s : conditions k !! cv = Some q -> s ∈ q -> of_sem a s = 0;
  tk_lists q x : synchLists k !! q = Some x -> of_lock a (list_lock x) = of_list a q;
  tk_fresh s : (nextAddress k <= s)%nat -> of_sem a s = 0;
  tk_doomed t x : doomed k = Some t -> threads k !! t = Some x -> worths (code x) = 0
}.

Lemma worths_app p c : worths (p ++ c) = worths p + worths c.
Proof. induction p as [ | i p IH]; simpl; lia. Qed.

Lemma pledges_perm l l' : l ≡ₚ l' -> pledges l = pledges l'.
Proof. unfold pledges. induction 1; simpl; lia. Qed.

Lemma pledges_nonneg l : (forall d, 0 <= of_interrupt a d) -> 0 <= pledges l.
Proof.
  intros Hd. unfold pledges. induction l as [ | p l IH]; simpl; [lia | ].
  assert (0 <= pledge p) by (unfold pledge; case_match; [lia | done]). lia.
Qed.

Lemma solvent_nonneg c : solvent c -> 0 <= worths c.
Proof. destruct c; simpl; [lia | tauto]. Qed.

Lemma solvent_app p c : solvent p -> solvent c -> solvent (p ++ c).
Proof.
  intros Hp Hc. induction p as [ | i p IH]; [done | ]. simpl in *. destruct Hp as (H1 & H2 & H3).
  rewrite worths_app. pose proof (solvent_nonneg _ Hc). split_and!; [lia | lia | auto].
Qed.

End Accounts.

(** Accounts of the devices alone: neither code nor semaphores are worth
    anything. *)
Section Codeless.
Context {D : Type} (a : accounts D).

Definition codeless : Prop :=
  (forall s, of_sem a s = 0) /\ (forall l, of_lock a l = 0) /\ (forall q, of_list a q = 0) /\
  (forall d arg, of_request a d arg = 0).
Hypothesis Ha : codeless.

Lemma codeless_worths c : worths a c = 0.
Proof.
  destruct Ha as (H1 & H2 & H3 & H4). induction c as [ | i c IH]; [done | ]. cbn [worths]. rewrite IH.
  destruct i; cbn [worth]; rewrite ?H1, ?H2, ?H4; done.
Qed.

Lemma codeless_code c : solvent a c /\ Forall (modest a) c.
Proof.
  pose proof Ha as (H1 & H2 & H3 & H4). induction c as [ | i c [IH1 IH2]]; [by split | ]. split.
  - cbn [solvent]. rewrite codeless_worths. split_and!; [ | | done].
    + destruct i; cbn [worth]; rewrite ?H1, ?H2, ?H4; done.
    + destruct i; cbn [demand]; rewrite ?H2, ?H3; done.
  - constructor; [ | done]. destruct i; cbn [modest]; auto.
Qed.

Lemma codeless_total (k : Kern D) : total a k = pledges a (pending_of k) + of_devices a (devices k).
Proof.
  unfold total. rewrite !msum_null; [lia | | ]; intros; [ | apply codeless_worths].
  destruct Ha as (-> & _). lia.
Qed.

Lemma codeless_tokens (k : Kern D) : tokens a (pledges a (pending_of k) + of_devices a (devices k)) k.
Proof.
  pose proof Ha as (H1 & H2 & H3 & H4). split; intros; rewrite ?H1, ?H2, ?H3; try done.
  - apply codeless_total.
  - apply codeless_code.
  - by exfalso; auto.
  - apply codeless_worths.
Qed.

End Codeless.

(** ** Operations of the kernel *)

Definition any_fault (f : fault) : Prop := True.

Section Conservation.
Context {D : Type} (a : accounts D).
Notation K := (Kern D).
Implicit Types (k : K) (c p : list instr).
Notation Tok n := (tokens a n).

Hypothesis units : forall s, 0 <= of_sem a s <= 1.
Hypothesis assets : forall d, 0 <= of_devices a d.
Hypothesis claims : forall d, 0 <= of_interrupt a d.

(** *** Changes of one part of the state *)

(** A step that changes neither code, values, objects nor devices. *)
Lemma tokens_frame n k k' :
  Tok n k -> threads k' = threads k -> semaphores k' = semaphores k -> locks k' = locks k ->
  conditions k' = conditions k -> synchLists k' = synchLists k -> nextAddress k' = nextAddress k ->
  devices k' = devices k -> doomed k' = doomed k -> pending_of k' = pending_of k -> Tok n k'.
Proof.
  intros [] E1 E2 E3 E4 E5 E6 E7 E8 E9. unfold total in *.
  split; unfold total; rewrite ?E1, ?E2, ?E3, ?E4, ?E5, ?E6, ?E7, ?E8, ?E9; eauto.
Qed.

(** The record of a thread changes, with code worth [v] more. *)
Lemma tokens_thread n v k t x x' :
  Tok n k -> threads k !! t = Some x -> worths a (code x') = worths a (code x) + v ->
  solvent a (code x') -> Forall (modest a) (code x') -> (v = 0 \/ doomed k <> Some t) ->
  Tok (n + v) (with_threads k (<[t := x']> (threads k))).
Proof.
  intros [Ht Hc Hv Hl Hcv Hq Hf Hd] Hx Hw Hs Hm Hdt. split; try done.
  - unfold total, pending_of in *. simpl. rewrite (msum_insert _ _ _ _ _ Hx). lia.
  - simpl. intros u y Hy. destruct (decide (u = t)) as [-> | Hne].
    + rewrite lookup_insert_eq in Hy. by simplify_eq.
    + rewrite lookup_insert_ne in Hy by done. eauto.
  - simpl. intros u y Hu Hy. change (doomed k = Some u) in Hu. destruct (decide (u = t)) as [-> | Hne].
    + rewrite lookup_insert_eq in Hy. simplify_eq. destruct Hdt as [-> | ?]; [ | done].
      rewrite Hw, (Hd t x) by done. lia.
    + rewrite lookup_insert_ne in Hy by done. eauto.
Qed.

Lemma tokens_same_code n k t x x' :
  Tok n k -> threads k !! t = Some x -> code x' = code x ->
  Tok n (with_threads k (<[t := x']> (threads k))).
Proof.
  intros Hk Hx Hc. replace n with (n + 0) by lia. destruct (tk_code _ _ _ Hk _ _ Hx) as [? ?].
  eapply tokens_thread; [done | done | | | | by left]; rewrite Hc; [lia | done | done].
Qed.

(** The value of a semaphore changes. *)
Lemma tokens_semaphore n k s x x' :
  Tok n k -> semaphores k !! s = Some x -> (of_sem a s <> 0 -> 0 <= value x') ->
  Tok (n + of_sem a s * (value x' - value x)) (with_semaphores k (<[s := x']> (semaphores k))).
Proof.
  intros [Ht Hc Hv Hl Hcv Hq Hf Hd] Hx Hx'. split; try done.
  - unfold total, pending_of in *. simpl. rewrite (msum_insert _ _ _ _ _ Hx). lia.
  - simpl. intros u y Hy Hu. destruct (decide (u = s)) as [-> | Hne].
    + rewrite lookup_insert_eq in Hy. simplify_eq. auto.
    + rewrite lookup_insert_ne in Hy by done. eauto.
Qed.

(** A worthless semaphore appears, changes or goes. *)
Lemma tokens_put_worthless n k s x' :
  Tok n k -> of_sem a s = 0 -> Tok n (with_semaphores k (<[s := x']> (semaphores k))).
Proof.
  intros [Ht Hc Hv Hl Hcv Hq Hf Hd] Hz. split; try done.
  - unfold total, pending_of in *. simpl. destruct (semaphores k !! s) as [x | ] eqn:Ex.
    + rewrite (msum_insert _ _ _ _ _ Ex), Hz. lia.
    + rewrite (msum_new _ _ _ _ Ex), Hz. lia.
  - simpl. intros u y Hy Hu. destruct (decide (u = s)) as [-> | Hne]; [done | ].
    rewrite lookup_insert_ne in Hy by done. eauto.
Qed.

Lemma tokens_delete_worthless n k s :
  Tok n k -> of_sem a s = 0 -> Tok n (with_semaphores k (delete s (semaphores k))).
Proof.
  intros [Ht Hc Hv Hl Hcv Hq Hf Hd] Hz. split; try done.
  - unfold total, pending_of in *. simpl. destruct (semaphores k !! s) as [x | ] eqn:Ex.
    + rewrite (msum_delete _ _ _ _ Ex), Hz. lia.
    + by rewrite delete_id.
  - simpl. intros u y [_ Hy]%lookup_delete_Some. eauto.
Qed.

Lemma tokens_locks n k l x :
  Tok n k -> of_sem a (lock_semaphore x) = of_lock a l -> Tok n (with_locks k (<[l := x]> (locks k))).
Proof.
  intros [] Hx. split; try done. simpl. intros l' y Hy. destruct (decide (l' = l)) as [-> | Hne].
  - rewrite lookup_insert_eq in Hy. by simplify_eq.
  - rewrite lookup_insert_ne in Hy by done. eauto.
Qed.

Lemma tokens_conditions n k cv q :
  Tok n k -> (forall s, s ∈ q -> of_sem a s = 0) -> Tok n (with_conditions k (<[cv := q]> (conditions k))).
Proof.
  intros [] Hx. split; try done. simpl. intros c' y s Hy. destruct (decide (c' = cv)) as [-> | Hne].
  - rewrite lookup_insert_eq in Hy. simplify_eq. auto.
  - rewrite lookup_insert_ne in Hy by done. eauto.
Qed.

Lemma tokens_lists n k q x :
  Tok n k -> of_lock a (list_lock x) = of_list a q -> Tok n (with_synchLists k (<[q := x]> (synchLists k))).
Proof.
  intros [] Hx. split; try done. simpl. intros q' y Hy. destruct (decide (q' = q)) as [-> | Hne].
  - rewrite lookup_insert_eq in Hy. by simplify_eq.
  - rewrite lookup_insert_ne in Hy by done. eauto.
Qed.

Lemma tokens_devices n k d :
  Tok n k -> Tok (n + (of_devices a d - of_devices a (devices k))) (with_devices k d).
Proof. intros []. split; try done. unfold total, pending_of in *. simpl. lia. Qed.

Lemma tokens_set_devices n k d m :
  Tok n k -> m = n + (of_devices a d - of_devices a (devices k)) -> Tok m (with_devices k d).
Proof. intros Hk ->. by apply tokens_devices. Qed.

(** The values of a semaphore worth something are bounded by the tokens. *)
Lemma tokens_value_bound n k s x :
  Tok n k -> semaphores k !! s = Some x -> 0 < of_sem a s -> 0 <= value x <= n.
Proof.
  intros [Ht Hc Hv _ _ _ _ _] Hx Hs. pose proof (Hv s x Hx ltac:(lia)) as H0. split; [done | ].
  assert (H1 : 0 <= msum (fun _ x => worths a (code x)) (threads k))
    by (apply msum_nonneg; intros t y Hy; apply solvent_nonneg; by destruct (Hc t y Hy)).
  assert (H2 : of_sem a s * value x <= msum (fun s x => of_sem a s * value x) (semaphores k)).
  { apply (msum_ge (fun s x => of_sem a s * value x)); [ | done]. intros u y Hy.
    destruct (decide (of_sem a u = 0)) as [-> | Hu]; [lia | ].
    pose proof (Hv u y Hy Hu). pose proof (units u). nia. }
  unfold total in Ht. pose proof (assets (devices k)). pose proof (pledges_nonneg a (pending_of k) claims). nia.
Qed.

(** *** Steps that move no tokens *)

Notation still n m := (keeps any_fault (Tok n) anything m).

Lemma still_lift {A} n (r : res A) : still n (lift r).
Proof. by apply keeps_lift. Qed.

Lemma still_find {A} n (o : option A) : still n (find o).
Proof. apply still_lift. Qed.

Lemma still_frame n (f : K -> K) :
  (forall k, threads (f k) = threads k /\ semaphores (f k) = semaphores k /\ locks (f k) = locks k /\
     conditions (f k) = conditions k /\ synchLists (f k) = synchLists k /\
     nextAddress (f k) = nextAddress k /\ devices (f k) = devices k /\ doomed (f k) = doomed k /\
     pending_of (f k) = pending_of k) ->
  still n (modify f).
Proof.
  intros Hf k Hk. apply wp_modify. split; [done | ]. destruct (Hf k) as (? & ? & ? & ? & ? & ? & ? & ? & ?).
  by eapply tokens_frame.
Qed.

Lemma still_upd n t f : (forall x, code (f x) = code x) -> still n (upd_thread t f).
Proof.
  intros Hf k Hk. unfold upd_thread, get_thread, put_thread, find, wp. run.
  destruct (threads k !! t) as [x | ] eqn:Ex; [ | done]. split; [done | ]. by eapply tokens_same_code.
Qed.

(** Code pushed, worth [v]. *)
Lemma push_tokens n k p :
  Tok n k -> (forall x, threads k !! currentThread k = Some x -> solvent a (p ++ code x)) ->
  Forall (modest a) p -> (worths a p = 0 \/ doomed k <> Some (currentThread k)) ->
  wp any_fault (fun _ k' => Tok (n + worths a p) k') (push p) k.
Proof.
  intros Hk Hs Hm Hd. unfold push, upd_thread, get_thread, put_thread, find, wp. run.
  destruct (threads k !! currentThread k) as [x | ] eqn:Ex; [ | done].
  destruct (tk_code _ _ _ Hk _ _ Ex) as [_ Hmx].
  eapply tokens_thread; [done | done | | | | done]; cbn [code with_code].
  - rewrite worths_app. lia.
  - by apply Hs.
  - by apply Forall_app_2.
Qed.

Lemma still_push n p : worths a p = 0 -> solvent a p -> Forall (modest a) p -> still n (push p).
Proof.
  intros Hw Hs Hm k Hk. eapply wp_mono; [eapply push_tokens; [done | | done | by left] | ].
  - intros x Hx. apply solvent_app; [done | ]. by destruct (tk_code _ _ _ Hk _ _ Hx).
  - cbv beta. intros r k' Hk'. rewrite Hw, Z.add_0_r in Hk'. done.
Qed.

End Conservation.

Ltac tok1 :=
  match goal with
  | |- keeps _ _ _ (_ ≫= _) => eapply keeps_bind; [ | intros ? ?]
  | |- keeps _ _ ?P (mret _) => first [is_evar P; apply (keeps_ret anything); exact I | apply keeps_ret]
  | |- keeps _ _ _ (lift _) => apply still_lift
  | |- keeps _ _ _ (find _) => apply still_find
  | |- keeps _ _ _ (gets _) => apply (keeps_gets anything); intros; exact I
  | |- keeps _ _ _ (modify _) => apply still_frame; by intros
  | |- keeps _ _ _ (upd_thread _ _) => apply still_upd; by intros
  | |- keeps _ _ _ (push _) => apply still_push; [done | by (simpl; split_and?; lia) | by repeat constructor]
  | |- keeps _ _ _ (if _ then _ else _) => apply keeps_if; intros ?
  | |- keeps _ _ _ (match ?x with _ => _ end) => destruct x
  | |- anything _ => exact I
  end.
Ltac tok := repeat first [tok1 | solve [eauto with tokens]].
Create HintDb tokens.

Section Neutral.
Context {D : Type} (a : accounts D).
Notation K := (Kern D).
Notation still n m := (keeps any_fault (tokens a n) anything m).

Lemma still_SetLevel n now : still n (SetLevel now : stM K _).
Proof. unfold SetLevel, getLevel, ChangeLevel, set_interrupt. tok. Qed.

Lemma still_ReadyToRun n t : still n (ReadyToRun t : stM K _).
Proof. unfold ReadyToRun, assert_off, getLevel, list_Append, set_readyList. tok. Qed.

Lemma still_FindNext n : still n (FindNextToRun : stM K _).
Proof. unfold FindNextToRun, assert_off, getLevel, set_readyList. tok. Qed.

Lemma still_on_machine {A} n (x : stM (Machine * unit) A) : still n (on_machine x : stM K _).
Proof. unfold on_machine. tok. Qed.

End Neutral.
#[export] Hint Resolve still_SetLevel still_ReadyToRun still_FindNext still_on_machine : tokens.

(** *** Semaphores *)

(** Values, claims and assets are never negative, and a unit of a semaphore is
    worth at most one token. *)
Class Fair {D} (a : accounts D) : Prop := {
  sem_unit s : 0 <= of_sem a s <= 1;
  lock_nonneg l : 0 <= of_lock a l;
  devices_nonneg d : 0 <= of_devices a d;
  interrupt_nonneg d : 0 <= of_interrupt a d
}.

Section Semaphores.
Context {D : Type} (a : accounts D) `{!Fair a}.
Notation K := (Kern D).
Notation Tok n := (tokens a n).
Notation still n m := (keeps any_fault (Tok n) anything m).

Lemma ReadyToRun_tokens n k t : Tok n k ->
  wp any_fault (fun _ k' => Tok n k' /\ semaphores k' = semaphores k) (ReadyToRun t) k.
Proof.
  intros Hk. unfold ReadyToRun, assert_off, getLevel, upd_thread, get_thread, put_thread, find, list_Append,
    set_readyList, wp. run. unfold ASSERT.
  destruct (bool_decide (_ = IntOff)); [ | done]. destruct (threads k !! t) as [x | ] eqn:Ex; [ | done].
  cbn [scheduler with_threads]. destruct (negb _); [ | done]. split; [ | done].
  eapply (tokens_frame a n (with_threads k (<[t := with_status x READY]> (threads k)))); try done.
  by eapply tokens_same_code.
Qed.

Lemma tokens_up n k s x q :
  n < 2 ^ 30 -> Tok n k -> semaphores k !! s = Some x ->
  Tok (n + of_sem a s) (with_semaphores k (<[s := mkSemaphore (to_i32 (value x + 1)) q]> (semaphores k))).
Proof.
  intros Hn Hk Hx. pose proof (sem_unit s) as Hs. destruct (decide (of_sem a s = 0)) as [Hz | Hz].
  - rewrite Hz, Z.add_0_r. by apply tokens_put_worthless.
  - destruct (tokens_value_bound a (fun s => sem_unit s) (fun d => devices_nonneg d) (fun d => interrupt_nonneg d) n k s x Hk Hx) as [H0 H1]; [lia | ].
    assert (He : to_i32 (value x + 1) = value x + 1).
    { apply to_i32_id. unfold is_i32. change (2 ^ 30) with 1073741824 in Hn. pow2. lia. }
    rewrite He. replace (n + of_sem a s)
      with (n + of_sem a s * (value (mkSemaphore (value x + 1) q) - value x)) by (simpl; lia).
    apply tokens_semaphore; [done | done | simpl; lia].
Qed.

Lemma tokens_queue n k s x q :
  Tok n k -> semaphores k !! s = Some x ->
  Tok n (with_semaphores k (<[s := mkSemaphore (value x) q]> (semaphores k))).
Proof.
  intros Hk Hx. replace n with (n + of_sem a s * (value (mkSemaphore (value x) q) - value x)) by (simpl; lia).
  apply tokens_semaphore; [done | done | ]. cbn [value]. intros Hz. exact (tk_value _ _ _ Hk s x Hx Hz).
Qed.

Lemma V_tokens n k s : n < 2 ^ 30 -> Tok n k ->
  wp any_fault (fun _ => Tok (n + of_sem a s)) (Semaphore_V s) k.
Proof.
  intros Hn Hk. unfold Semaphore_V. apply wp_bind. eapply wp_ok; [apply SetLevel_off | ].
  assert (Hk1 : Tok n (set_off k)) by (by eapply tokens_frame). set (k1 := set_off k) in *.
  unfold get_semaphore. apply wp_bind, wp_bind, wp_gets. unfold wp at 1, find, lift.
  destruct (semaphores k1 !! s) as [x | ] eqn:Ex; [ | done]. apply wp_bind.
  destruct (queue x) as [ | t q].
  { apply wp_modify, wp_ret. by apply tokens_up. }
  apply wp_bind, wp_modify, wp_bind.
  eapply wp_mono; [apply ReadyToRun_tokens; by apply tokens_queue | ]. cbv beta. intros r k2 [Hk2 Hs2].
  unfold put_semaphore. apply wp_modify, wp_ret.
  change (value x) with (value (mkSemaphore (value x) q)). apply tokens_up; [done | done | ].
  rewrite Hs2. simpl. by rewrite lookup_insert_eq.
Qed.

Lemma V_call_tokens n k s : n < 2 ^ 30 -> Tok n k ->
  wp any_fault (fun _ => Tok (n + of_sem a s)) (V_call s) k.
Proof.
  intros Hn Hk. unfold V_call. apply wp_bind. eapply wp_mono; [by apply V_tokens | ].
  cbv beta. intros lv k1 Hk1. eapply wp_mono; [apply (fun H : still _ _ => H k1 Hk1); tok | by intros ? ? [_ ?]].
Qed.

(** [V] by an interrupt handler *)
Lemma V_handler_tokens n k s : n < 2 ^ 30 -> Tok n k ->
  wp any_fault (fun _ => Tok (n + of_sem a s)) (V_handler s) k.
Proof.
  intros Hn Hk. unfold V_handler. apply wp_bind. eapply wp_mono; [by apply V_tokens | ].
  cbv beta. intros lv k1 Hk1. apply wp_bind. eapply wp_mono; [by apply still_SetLevel | ].
  intros ? ? [_ ?]. by apply wp_ret.
Qed.

Lemma tokens_parts n k : Tok n k ->
  0 <= msum (fun _ x => worths a (code x)) (threads k) /\
  0 <= msum (fun s x => of_sem a s * value x) (semaphores k).
Proof.
  intros [Ht Hc Hv _ _ _ _ _]. split; apply msum_nonneg.
  - intros t y Hy. apply solvent_nonneg. by destruct (Hc t y Hy).
  - intros s y Hy. destruct (decide (of_sem a s = 0)) as [-> | Hs]; [lia | ].
    pose proof (Hv s y Hy Hs). pose proof (sem_unit s). nia.
Qed.

Lemma tokens_assets n k : Tok n k -> of_devices a (devices k) + pledges a (pending_of k) <= n.
Proof. intros Hk. pose proof (tokens_parts n k Hk). pose proof (tk_total _ _ _ Hk) as Ht. unfold total in Ht. lia. Qed.

End Semaphores.

(** *** Steps of the scheduler and of interrupt delivery *)

(** What [n] tokens need of the devices: a handler puts the tokens of its
    interrupt somewhere, a request brings those it is worth, and random numbers
    are free. *)
Class DeviceTokens {D} (a : accounts D) (n : Z) (RandomNumber : D -> Z * D)
    (device : nat -> stM (Kern D) unit) (request : nat -> Z -> stM (Kern D) unit) : Prop := {
  #[global] tokens_fair :: Fair a;
  tokens_bound : n < 2 ^ 30;
  random_free d : of_devices a (RandomNumber d).2 = of_devices a d;
  device_tokens d k : tokens a (n - of_interrupt a d) k -> wp any_fault (fun _ => tokens a n) (device d) k;
  request_tokens d arg k : tokens a (n - of_request a d arg) k ->
    wp any_fault (fun _ => tokens a n) (request d arg) k
}.

Section Scheduling.
Context {D : Type} (a : accounts D) (RandomNumber : D -> Z * D) (device : nat -> stM (Kern D) unit).
Context (request : nat -> Z -> stM (Kern D) unit) (N : Z) `{!DeviceTokens a N RandomNumber device request}.
Notation K := (Kern D).
Notation Tok n := (tokens a n).
Notation still n m := (keeps any_fault (Tok n) anything m).

(** The thread that is deleted has nothing. *)
Lemma still_Destroy n : still n CheckToBeDestroyed.
Proof.
  intros k Hk. unfold CheckToBeDestroyed, wp. run.
  destruct (toBeDestroyed (scheduler k)) as [t | ] eqn:Ed; [ | done].
  unfold delete_Thread. run. unfold ASSERT. destruct (negb _); [ | done]. split; [done | ].
  pose proof (tk_doomed _ _ _ Hk t) as Hz. destruct Hk. split; try done.
  - unfold total, pending_of in *. simpl. destruct (threads k !! t) as [x | ] eqn:Ex; [ | by rewrite delete_id].
    rewrite (msum_delete _ _ _ _ Ex). specialize (Hz x Ed eq_refl). lia.
  - simpl. intros u y [_ Hy]%lookup_delete_Some. eauto.
Qed.

Lemma still_Run n k t (fin : bool) :
  Tok n k -> (fin = true -> exists x, threads k !! currentThread k = Some x /\ worths a (code x) = 0) ->
  wp any_fault (fun _ k' => Tok n k') (Scheduler_Run t fin) k.
Proof.
  intros Hk Hfin. unfold Scheduler_Run. apply wp_bind, wp_gets.
  assert (Hrest : forall k1, Tok n k1 -> wp any_fault (fun _ k' => Tok n k')
    (x ← get_thread (currentThread k);
     match space x with
     | None => mret tt
     | Some sp => SaveUserState (currentThread k);; on_machine (SaveState sp)
     end;;
     CheckOverflow (currentThread k);; push [Switched];; modify (fun k => with_current k t);;
     upd_thread t (fun y => with_status y RUNNING)) k1).
  { intros k1 Hk1. eapply wp_mono; [apply (fun H : still n _ => H k1 Hk1) | by intros ? ? [_ ?]].
    unfold SaveUserState, CheckOverflow, get_thread. tok. }
  unfold assert_off, getLevel. apply wp_bind, wp_bind, wp_gets. unfold wp at 1, lift, ASSERT.
  destruct (bool_decide _); [ | done]. apply wp_bind. destruct fin; [ | by apply Hrest].
  apply wp_bind, wp_gets, wp_bind. unfold wp at 1, lift, ASSERT. destruct (bool_decide _); [ | done].
  apply wp_modify, Hrest. destruct (Hfin eq_refl) as (x & Hx & Hw). destruct Hk. split; try done.
  unfold doomed. simpl. intros u y [= <-] Hy. congruence.
Qed.

Lemma still_Run_back n : still n Run_back.
Proof.
  unfold Run_back, assert_off, getLevel, RestoreUserState, get_thread.
  repeat first [tok1 | apply still_Destroy | solve [eauto with tokens] | progress unfold get_thread].
Qed.

Lemma Schedule_tokens n k o d ty : Tok n k ->
  wp any_fault (fun _ => Tok (n + pledge a (mkPending o 0 ty))) (Schedule o d ty) k.
Proof.
  intros Hk. unfold Schedule. apply wp_bind, wp_gets, wp_bind. unfold wp at 1, lift, ASSERT.
  destruct (0 <? d); [ | done]. apply wp_bind, wp_gets. unfold set_pending, set_interrupt. apply wp_modify.
  destruct Hk. split; try done. unfold total, pending_of in *. simpl.
  rewrite (pledges_perm a _ _ (sorted_insert_perm PendingCompare _ _)). simpl.
  change (pledge a (mkPending o (to_i32 (totalTicks (stats k) + d)) ty)) with (pledge a (mkPending o 0 ty)).
  unfold pending_of in *. lia.
Qed.

Lemma still_timer n d : still n (Schedule TimerObj d TimerInt).
Proof.
  intros k Hk. eapply wp_mono; [by apply Schedule_tokens | ]. cbv beta. intros r k'. simpl.
  rewrite Z.add_0_r. done.
Qed.

Lemma still_random n k r d' : Tok n k -> RandomNumber (devices k) = (r, d') -> Tok n (with_devices k d').
Proof.
  intros Hk E. replace n with (n + (of_devices a d' - of_devices a (devices k))); [by apply tokens_devices | ].
  pose proof (random_free (devices k)) as H. rewrite E in H. simpl in H. lia.
Qed.

Lemma still_SetInterrupt n : still n (SetInterrupt RandomNumber).
Proof.
  intros k Hk. unfold SetInterrupt. apply wp_bind, wp_gets. destruct (negb _); [ | by apply wp_ret].
  apply wp_bind. destruct (randomize _).
  - apply wp_bind, wp_gets. destruct (RandomNumber (devices k)) as [r d'] eqn:E.
    apply wp_bind, wp_modify, wp_ret. apply still_timer. by eapply still_random.
  - apply wp_ret. by apply still_timer.
Qed.

(** The interrupt delivered is no longer pending; its tokens are found
    elsewhere. *)
Lemma CallBack_tokens p k :
  Tok (N - pledge a p) k -> wp any_fault (fun _ => Tok N) (CallBack RandomNumber device (callOnInterrupt p)) k.
Proof.
  unfold pledge. destruct (callOnInterrupt p) as [ | d]; [ | cbn [CallBack]; apply device_tokens].
  rewrite Z.sub_0_r. intros Hk. eapply wp_mono; [apply (fun H : still N _ => H k Hk) | by intros ? ? [_ ?]].
  unfold CallBack, Timer_CallBack, Alarm_CallBack, YieldOnReturn, set_yieldOnReturn, set_interrupt.
  repeat first [tok1 | apply still_SetInterrupt].
Qed.

Lemma still_fire_loop fuel : still N (fire_loop RandomNumber device fuel).
Proof.
  induction fuel as [ | fuel IH]; [apply still_lift | ]. cbn [fire_loop]. intros k Hk.
  apply wp_bind, wp_gets. destruct (pending (interrupt k)) as [ | p l] eqn:Ep; [done | ].
  unfold set_pending, set_interrupt. apply wp_bind, wp_modify, wp_bind.
  eapply wp_mono; [apply (CallBack_tokens p) | ].
  - pose proof (tk_total _ _ _ Hk) as Ht. destruct Hk. split; try done. unfold total, pending_of in *. simpl.
    rewrite Ep in Ht. simpl in Ht. lia.
  - cbv beta. intros r k1 Hk1. apply wp_bind, wp_gets, wp_bind, wp_gets.
    destruct (pending (interrupt k1)) as [ | p' l']; [by apply wp_ret | ].
    destruct (when p' <=? _); [by apply IH | by apply wp_ret].
Qed.

Lemma still_CheckIfDue adv : still N (CheckIfDue RandomNumber device adv).
Proof.
  unfold CheckIfDue, assert_off, getLevel, fire, set_inHandler, set_interrupt.
  repeat first [tok1 | apply still_fire_loop | apply still_on_machine].
Qed.

Lemma still_OneTick : still N (OneTick RandomNumber device).
Proof.
  unfold OneTick, ChangeLevel, set_yieldOnReturn, set_status, set_interrupt.
  repeat first [tok1 | apply still_CheckIfDue].
Qed.

Lemma still_Idle : still N (Idle RandomNumber device).
Proof.
  unfold Idle, set_status, set_interrupt, Interrupt_Halt.
  repeat first [tok1 | apply still_CheckIfDue].
Qed.

(** The code pushed is not worth less than the tokens the thread still gets. *)
Lemma push_owing n k p c :
  Tok (n - worths a p) k -> (exists x, threads k !! currentThread k = Some x /\ code x = c) ->
  solvent a (p ++ c) -> Forall (modest a) p -> doomed k <> Some (currentThread k) ->
  wp any_fault (fun _ => Tok n) (push p) k.
Proof.
  intros Hk (x & Hx & Hc) Hs Hm Hd. eapply wp_mono.
  - eapply push_tokens; [exact Hk | | done | by right]. intros y Hy. rewrite Hx in Hy. by simplify_eq.
  - cbv beta. intros r k'. by replace (n - worths a p + worths a p) with n by lia.
Qed.

Lemma P_loop_tokens n k s c :
  n < 2 ^ 30 -> Tok (n + of_sem a s) k -> (exists x, threads k !! currentThread k = Some x /\ code x = c) ->
  solvent a (PLoop s :: c) -> doomed k <> Some (currentThread k) ->
  wp any_fault (fun _ => Tok n) (P_loop s) k.
Proof.
  intros Hn Hk Hc Hs Hd. unfold P_loop, get_semaphore. apply wp_bind, wp_bind, wp_gets. unfold wp at 1, find, lift.
  destruct (semaphores k !! s) as [x | ] eqn:Hx; [ | done].
  destruct (Z.eqb_spec (value x) 0) as [Hz | Hz].
  - apply wp_bind, wp_gets, wp_bind. unfold list_Append. apply wp_bind. unfold wp at 1, lift, ASSERT.
    destruct (negb _); [ | done]. apply wp_ret, wp_bind, wp_modify, wp_bind.
    eapply wp_mono; [eapply (push_owing n _ [PLoop s] c) | ].
    + replace (n - worths a [PLoop s]) with (n + of_sem a s) by (simpl; lia). by apply tokens_queue.
    + done.
    + done.
    + repeat constructor.
    + done.
    + cbv beta. intros r k1 Hk1. unfold Thread_Sleep, assert_off, getLevel.
      eapply wp_mono; [apply (fun H : still n _ => H k1 Hk1); tok | by intros ? ? [_ ?]].
  - unfold put_semaphore. apply wp_modify. pose proof (sem_unit s) as Hu.
    destruct (decide (of_sem a s = 0)) as [Hw | Hw].
    { rewrite Hw, Z.add_0_r in Hk. by apply tokens_put_worthless. }
    destruct (tokens_value_bound a (fun s => sem_unit s) (fun d => devices_nonneg d) (fun d => interrupt_nonneg d) _ k s x Hk Hx) as [H0 H1]; [lia | ].
    assert (He : to_i32 (value x - 1) = value x - 1).
    { apply to_i32_id. unfold is_i32. change (2 ^ 30) with 1073741824 in Hn. pow2. lia. }
    rewrite He.
    replace n with (n + of_sem a s + of_sem a s * (value (mkSemaphore (value x - 1) (queue x)) - value x)) by (simpl; lia).
    apply tokens_semaphore; [done | done | simpl; lia].
Qed.

(** *** Locks, conditions, lists and threads *)

Definition at_code (k : K) (c : list instr) : Prop := exists x, threads k !! currentThread k = Some x /\ code x = c.

Lemma Release_tokens n k l : n < 2 ^ 30 -> Tok (n - of_lock a l) k ->
  wp any_fault (fun _ => Tok n) (Lock_Release l) k.
Proof.
  intros Hn Hk. unfold Lock_Release, get_lock, IsHeldByCurrentThread.
  apply wp_bind, wp_bind, wp_gets. unfold wp at 1, find, lift.
  destruct (locks k !! l) as [x | ] eqn:Hx; [ | done]. pose proof (tk_locks _ _ _ Hk l x Hx) as Hl.
  apply wp_bind, wp_bind, wp_gets, wp_ret, wp_bind. unfold wp at 1, lift, ASSERT.
  destruct (bool_decide _); [ | done]. apply wp_bind, wp_modify.
  pose proof (sem_unit (lock_semaphore x)).
  eapply wp_mono; [apply (V_call_tokens a (n - of_lock a l)); [lia | by apply tokens_locks] | ].
  cbv beta. intros r k'. rewrite Hl. by replace (n - of_lock a l + of_lock a l) with n by lia.
Qed.

Lemma Acquire_tokens n k l c :
  Tok (n + of_lock a l) k -> at_code k c -> solvent a (Acquire l :: c) -> doomed k <> Some (currentThread k) ->
  wp any_fault (fun _ => Tok n) (Lock_Acquire l) k.
Proof.
  intros Hk Hc (H1 & _ & H3) Hd. unfold Lock_Acquire, get_lock. apply wp_bind, wp_bind, wp_gets.
  unfold wp at 1, find, lift. destruct (locks k !! l) as [x | ] eqn:Hx; [ | done].
  pose proof (tk_locks _ _ _ Hk l x Hx) as Hl. cbn [worth] in H1. pose proof (solvent_nonneg _ _ H3).
  apply (push_owing n k _ c); [ | done | | by repeat constructor | done].
  - simpl. rewrite Hl. by replace (n - (- of_lock a l + (0 + 0))) with (n + of_lock a l) by lia.
  - simpl. rewrite Hl. split_and!; try lia. done.
Qed.

Lemma Signal_tokens n k cv l : n < 2 ^ 30 -> Tok n k ->
  wp any_fault (fun _ => Tok n) (Condition_Signal cv l) k.
Proof.
  intros Hn Hk. unfold Condition_Signal, get_lock, get_condition, IsHeldByCurrentThread.
  apply wp_bind, wp_bind, wp_gets. unfold wp at 1, find, lift. destruct (locks k !! l); [ | done].
  apply wp_bind, wp_bind, wp_gets, wp_ret, wp_bind. unfold wp at 1, lift, ASSERT. destruct (bool_decide _); [ | done].
  apply wp_bind, wp_bind, wp_gets. unfold wp at 1, find, lift.
  destruct (conditions k !! cv) as [[ | w q] | ] eqn:Hq; [by apply wp_ret | | done].
  apply wp_bind, wp_modify.
  pose proof (tk_conditions _ _ _ Hk cv _ w Hq ltac:(left)) as Hw.
  eapply wp_mono; [apply (V_call_tokens a n); [done | ] | ].
  - apply tokens_conditions; [done | ]. intros s Hs. apply (tk_conditions _ _ _ Hk cv _ s Hq). by right.
  - cbv beta. intros r k'. by rewrite Hw, Z.add_0_r.
Qed.

(** Taking a new address *)
Lemma tokens_new_address n k : Tok n k -> Tok n (with_nextAddress k (S (nextAddress k))).
Proof. intros []. split; try done. simpl. intros s Hs. apply tk_fresh0. lia. Qed.

Lemma Wait_tokens n k cv l c : n < 2 ^ 30 -> Tok n k -> at_code k c ->
  solvent a (Wait cv l :: c) -> doomed k <> Some (currentThread k) ->
  wp any_fault (fun _ => Tok n) (Condition_Wait cv l) k.
Proof.
  intros Hn Hk Hc (_ & H2 & H3) Hd. unfold Condition_Wait, get_lock, IsHeldByCurrentThread.
  apply wp_bind, wp_bind, wp_gets. unfold wp at 1, find, lift. destruct (locks k !! l) as [x | ] eqn:Hx; [ | done].
  pose proof (tk_locks _ _ _ Hk l x Hx) as Hl. pose proof (sem_unit (lock_semaphore x)).
  apply wp_bind, wp_bind, wp_gets, wp_ret, wp_bind. unfold wp at 1, lift, ASSERT. destruct (bool_decide _); [ | done].
  assert (Hw : of_sem a (nextAddress k) = 0) by (apply (tk_fresh _ _ _ Hk); lia).
  apply wp_bind. unfold new_Semaphore, new_address. apply wp_bind, wp_bind, wp_gets, wp_bind, wp_modify, wp_ret.
  apply wp_bind, wp_modify, wp_ret. set (w := nextAddress k) in *.
  assert (Hk1 : Tok n (with_semaphores (with_nextAddress k (S w)) (<[w := mkSemaphore 0 []]> (semaphores k)))).
  { apply (tokens_put_worthless a n (with_nextAddress k (S w))); [by apply tokens_new_address | done]. }
  set (k1 := with_semaphores _ _) in *.
  apply wp_bind. unfold get_condition. apply wp_bind, wp_gets. unfold wp at 1, find, lift.
  destruct (conditions k1 !! cv) as [q | ] eqn:Hq; [ | done].
  apply wp_bind. unfold list_Append. apply wp_bind. unfold wp at 1, lift, ASSERT. destruct (negb _); [ | done].
  apply wp_ret, wp_bind, wp_modify, wp_bind. cbn [demand] in H2. pose proof (solvent_nonneg _ _ H3).
  eapply wp_mono; [apply (push_owing (n - of_lock a l) _ _ c) | ].
  - cbn [worths worth]. rewrite Hw. replace (n - of_lock a l - (- 0 + (- of_lock a l + (0 + 0)))) with n by lia.
    apply (tokens_conditions a n k1); [done | ]. intros s [Hs | ->%list_elem_of_singleton]%elem_of_app; [ | done].
    by apply (tk_conditions _ _ _ Hk1 cv q).
  - done.
  - simpl. rewrite Hw. split_and!; try lia. done.
  - by repeat constructor.
  - done.
  - cbv beta. intros r k2 Hk2. by apply Release_tokens.
Qed.

Lemma Fork_tokens n k f : Tok n k -> threads k !! nextAddress k = None ->
  worths a f = 0 -> solvent a f -> Forall (modest a) f ->
  wp any_fault (fun _ => Tok n) (t ← new_Thread; Thread_Fork t f) k.
Proof.
  intros Hk Hnew Hw Hs Hm. unfold new_Thread, new_address.
  apply wp_bind, wp_bind, wp_bind, wp_gets, wp_bind, wp_modify, wp_ret, wp_bind, wp_modify, wp_ret.
  pose proof (tokens_new_address n k Hk) as Hk1. set (k1 := with_nextAddress k _) in *.
  set (t := nextAddress k) in *. set (x := mkThread None _ _ _ _ _).
  assert (Hk2 : Tok n (with_threads k1 (<[t := x]> (threads k1)))).
  { destruct Hk1 as [Ht Hc Hv Hl Hcv Hq Hf Hd]. split; try done.
    - unfold total, pending_of in *. simpl in *. rewrite msum_new by done. simpl. lia.
    - simpl. intros u y Hy. destruct (decide (u = t)) as [-> | Hne].
      + rewrite lookup_insert_eq in Hy. by simplify_eq.
      + rewrite lookup_insert_ne in Hy by done. by apply (Hc u).
    - simpl. intros u y Hu Hy. destruct (decide (u = t)) as [-> | Hne].
      + rewrite lookup_insert_eq in Hy. by simplify_eq.
      + rewrite lookup_insert_ne in Hy by done. by apply (Hd u). }
  set (k2 := with_threads _ _) in *. unfold Thread_Fork. apply wp_bind.
  eapply wp_ok; [by apply (upd_thread_ok k2 t x); simpl; rewrite lookup_insert_eq | ].
  eapply wp_mono; [apply (fun H : still n _ => H _) | by intros ? ? [_ ?]]; [tok | ].
  replace n with (n + 0) by lia. eapply tokens_thread; [done | by simpl; rewrite lookup_insert_eq | .. | by left].
  - simpl. rewrite worths_app, Hw. simpl. lia.
  - simpl. rewrite worths_app, Hw. simpl. split_and!; [lia | lia | ]. apply solvent_app; [done | ]. simpl. lia.
  - simpl. constructor; [done | ]. apply Forall_app_2; [done | by repeat constructor].
Qed.

(** *** Every instruction *)

Context (procs : nat -> Z -> list instr).

(** The procedures of the threads keep their accounts in order. *)
Definition procs_tokens : Prop :=
  forall f arg, worths a (procs f arg) = 0 /\ solvent a (procs f arg) /\ Forall (modest a) (procs f arg).

Lemma codeless_procs : codeless a -> procs_tokens.
Proof. intros Ha f arg. split_and!; [by apply codeless_worths | by apply codeless_code..]. Qed.

Hypothesis procs_ok : procs_tokens.

Lemma still_wp {A} n k (m : stM K A) : still n m -> Tok n k -> wp any_fault (fun _ => Tok n) m k.
Proof. intros Hm Hk. eapply wp_mono; [by apply Hm | by intros ? ? [_ ?]]. Qed.

(** Looking an object up, and going on if it is there. *)
Lemma wp_found {X Y} (Q : Y -> K -> Prop) (get : K -> gmap nat X) i (m : X -> stM K Y) k :
  (forall x, get k !! i = Some x -> wp any_fault Q (m x) k) ->
  wp any_fault Q ((y ← gets get; find (y !! i)) ≫= m) k.
Proof.
  intros H. apply wp_bind, wp_bind, wp_gets. unfold wp at 1, find, lift. by destruct (get k !! i) eqn:E; [apply H | ].
Qed.

Lemma wp_asserted {Y} (Q : Y -> K -> Prop) b (m : unit -> stM K Y) k :
  wp any_fault Q (m tt) k -> wp any_fault Q (lift (ASSERT b) ≫= m) k.
Proof. intros H. apply wp_bind. unfold wp at 1, lift, ASSERT. by destruct b. Qed.

Lemma SynchAppend_tokens n k q item : Tok n k ->
  wp any_fault (fun _ => Tok n) (SynchList_Append q item) k.
Proof.
  intros Hk. apply wp_found. intros x Hx. pose proof (tk_lists _ _ _ Hk q x Hx) as Hq. pose proof (lock_nonneg (list_lock x)).
  apply still_wp; [ | done]. apply still_push.
  - simpl. lia.
  - simpl. split_and!; try done; lia.
  - by repeat constructor.
Qed.

Lemma exec_tokens k i c :
  Tok (N - worth a i) k -> at_code k c -> solvent a (i :: c) -> modest a i ->
  doomed k <> Some (currentThread k) -> threads k !! nextAddress k = None -> (i = SleepLoop true -> c = []) ->
  wp any_fault (fun _ => Tok N) (exec RandomNumber device request procs i) k.
Proof.
  set (n := N). assert (Hn : n < 2 ^ 30) by apply tokens_bound.
  intros Hk Hc Hs Hm Hd Hnew Hlast. pose proof Hs as (H1 & H2 & H3).
  pose proof (solvent_nonneg _ _ H3) as H4.
  destruct i; cbn [exec worth demand modest] in *; try rewrite Z.sub_0_r in Hk.
  - (* Yield *) unfold Thread_Yield. apply wp_bind. eapply wp_ok; [apply SetLevel_off | ].
    assert (Hk1 : Tok n (set_off k)) by (by eapply tokens_frame). apply wp_bind, wp_gets.
    apply wp_bind. eapply wp_mono; [apply still_wp; [apply still_FindNext | exact Hk1] | ].
    cbv beta. intros nx k2 Hk2. apply wp_bind. eapply wp_mono; [apply still_wp; [tok | exact Hk2] | ].
    cbv beta. intros r k3 Hk3. destruct nx as [t | ]; [ | by apply wp_ret]. apply wp_bind.
    eapply wp_mono; [apply still_wp; [tok | exact Hk3] | ]. cbv beta. intros r' k4 Hk4. by apply still_Run.
  - destruct (procs_ok func arg) as (? & ? & ?). by apply Fork_tokens.
  - (* P *) unfold Semaphore_P. apply wp_bind. eapply wp_ok; [apply SetLevel_off | ].
    apply (push_owing n _ _ c); [ | done | | by repeat constructor | done].
    + apply (tokens_frame a _ k); try done. simpl.
      by replace (n - (- of_sem a s + (0 + 0))) with (n - - of_sem a s) by lia.
    + simpl. split_and!; try done; lia.
  - eapply wp_mono; [apply (V_call_tokens a (n - of_sem a s)); [pose proof (sem_unit s); lia | done] | ].
    cbv beta. intros r k'. by replace (n - of_sem a s + of_sem a s) with n by lia.
  - apply (Acquire_tokens n k l c); try done. by replace (n + of_lock a l) with (n - - of_lock a l) by lia.
  - by apply Release_tokens.
  - by apply (Wait_tokens n k _ _ c).
  - by apply Signal_tokens.
  - apply wp_found. intros q Hq. destruct q as [ | w q]; [by apply wp_ret | ]. apply wp_bind.
    eapply wp_mono; [apply still_wp; [tok | exact Hk] | ]. cbv beta. intros r k1 Hk1. by apply Signal_tokens.
  - by apply SynchAppend_tokens.
  - apply wp_found. intros x Hx. pose proof (tk_lists _ _ _ Hk q x Hx) as Hq. pose proof (lock_nonneg (list_lock x)).
    apply still_wp; [ | done]. apply still_push; [simpl; lia | | by repeat constructor].
    simpl. split_and!; try done; lia.
  - apply wp_modify. by apply tokens_put_worthless.
  - apply wp_found. intros x Hx. apply wp_modify. by apply tokens_delete_worthless.
  - apply wp_found. intros x Hx. apply still_wp; [tok | done].
  - destruct Hm as (Hm1 & Hm2 & Hm3). unfold new_SynchList.
    apply wp_bind, wp_modify, wp_bind, wp_modify, wp_bind, wp_modify, wp_modify.
    apply tokens_lists; [ | simpl; lia]. apply tokens_conditions; [ | by intros ? ?%not_elem_of_nil].
    apply tokens_locks; [ | simpl; lia]. by apply tokens_put_worthless.
  - apply wp_found. intros x Hx. apply wp_found. intros y Hy.
    pose proof (tk_lists _ _ _ Hk q x Hx) as Hq. pose proof (lock_nonneg (list_lock x)). pose proof (tk_locks _ _ _ Hk _ y Hy) as Hl.
    apply wp_bind, wp_modify, wp_bind, wp_found. intros z Hz. apply wp_modify, wp_bind, wp_modify, wp_modify.
    assert (Hk1 : Tok n (with_semaphores k (delete (lock_semaphore y) (semaphores k))))
      by (apply tokens_delete_worthless; [done | lia]).
    destruct Hk1. split; try done; simpl.
    + intros l z' [_ ?]%lookup_delete_Some. eauto.
    + intros cv z' s' [_ ?]%lookup_delete_Some. eauto.
    + intros q' z' [_ ?]%lookup_delete_Some. eauto.
  - apply wp_found. intros x Hx. apply still_wp; [tok | done].
  - apply still_wp; [tok | done].
  - apply wp_bind, wp_gets, wp_found. intros x Hx. apply still_wp; [tok | done].
  - apply wp_bind, wp_gets, wp_found. intros x Hx. by apply SynchAppend_tokens.
  - by apply request_tokens.
  - destruct (procs_ok func arg) as (? & ? & ?). apply still_wp; [by apply still_push | done].
  - apply still_wp; [unfold Interrupt_Halt; tok | done].
  - apply still_wp; [tok | done].
  - apply still_wp; [apply still_OneTick | done].
  - apply still_wp; [unfold set_status, set_interrupt; tok | done].
  - apply still_wp; [by eapply still_Run_back | done].
  - (* SleepLoop *) unfold Sleep_loop. apply wp_bind.
    unfold FindNextToRun, assert_off, getLevel. apply wp_bind, wp_bind, wp_gets.
    unfold wp at 1, lift, ASSERT. destruct (bool_decide _); [ | done].
    apply wp_bind, wp_gets. destruct (readyList (scheduler k)) as [ | t l].
    + apply wp_ret. apply still_wp; [ | done]. repeat first [tok1 | apply still_Idle].
    + apply wp_bind, wp_modify, wp_ret. apply still_Run; [by eapply tokens_frame | ].
      intros ->. destruct Hc as (x & Hx & Hcx). exists x. split; [done | ]. by rewrite Hcx, Hlast.
  - apply still_wp; [ | done]. unfold Thread_Begin, Enable. repeat first [tok1 | apply still_Destroy | solve [eauto with tokens]].
  - apply still_wp; [ | done]. unfold Thread_Finish, Thread_Sleep, assert_off, getLevel. tok.
  - apply (P_loop_tokens n k s c); try done. by replace (n + of_sem a s) with (n - - of_sem a s) by lia.
  - apply wp_bind, wp_gets, wp_found. intros x Hx. apply wp_modify.
    apply tokens_locks; [done | ]. apply (tk_locks _ _ _ Hk l x Hx).
  - apply wp_found. intros x Hx. unfold list_Append. apply wp_bind, wp_asserted, wp_ret, wp_modify.
    apply tokens_lists; [done | ]. apply (tk_lists _ _ _ Hk q x Hx).
  - apply wp_found. intros x Hx. pose proof (tk_lists _ _ _ Hk q x Hx) as Hq. pose proof (lock_nonneg (list_lock x)).
    destruct (items x); [ | by apply wp_ret].
    eapply wp_mono; [eapply (push_owing n k _ c); [ | done | | by repeat constructor | done] | done].
    + simpl. by replace (n - (0 + (0 + 0))) with n by lia.
    + simpl. split_and!; try done; lia.
  - apply wp_found. intros x Hx. destruct (items x) as [ | it l]; [done | ].
    apply wp_bind, wp_modify, wp_bind, wp_gets. apply still_wp; [tok | ].
    apply tokens_lists; [done | ]. apply (tk_lists _ _ _ Hk q x Hx).
Qed.

(** *** Steps and reachable states *)

Lemma kinv_facts (k : K) x i c : kinv k -> threads k !! currentThread k = Some x -> code x = i :: c ->
  doomed k <> Some (currentThread k) /\ threads k !! nextAddress k = None /\ (i = SleepLoop true -> c = []).
Proof.
  intros Hk Hx Hc. pose proof (kinv_places k Hk) as Hp. split_and!.
  - intros Hd. by destruct (pl_destroy _ _ _ _ _ _ Hp _ Hd).
  - apply eq_None_not_Some. intros Hs%(pl_next _ _ _ _ _ _ Hp). lia.
  - intros ->. destruct Hk as [lv c' Hr Hw _ | y Hb _ _ Hy (j & b & Hj & Hs & _) _ | c' Hb | Hb].
    + destruct (running_thread _ _ _ Hr) as (y & Hy & Hcy & _). assert (c' = SleepLoop true :: c) as -> by congruence.
      by apply wf_code_cons in Hw as [(_ & [? | ?]) | [? _]].
    + assert (SleepLoop true :: c = j :: b) as [= <- _] by congruence. by destruct Hs.
    + destruct (b_code _ _ Hb) as (y & Hy & Hcy). congruence.
    + destruct (b_code _ _ Hb) as (y & Hy & Hcy). congruence.
Qed.

(** A step of the kernel moves tokens and changes their number never. *)
Lemma step_tokens k : kinv k -> Tok N k ->
  wp any_fault (fun _ => Tok N) (step RandomNumber device request procs) k.
Proof.
  intros Hk Ht. unfold step, fetch. apply wp_bind, wp_bind, wp_gets, wp_found. intros x Hx.
  destruct (code x) as [ | i c] eqn:Hc; [done | ]. apply wp_bind, wp_modify, wp_ret.
  destruct (kinv_facts k x i c Hk Hx Hc) as (Hd & Hnew & Hl).
  destruct (tk_code _ _ _ Ht _ _ Hx) as [Hs Hm]. rewrite Hc in Hs, Hm. apply Forall_cons in Hm as [Hm Hms].
  pose proof Hs as (_ & _ & Hs').
  apply (exec_tokens _ i c); try done.
  - replace (N - worth a i) with (N + - worth a i) by lia.
    apply (tokens_thread a N _ k _ x); [done | done | | done | done | by right].
    rewrite Hc. simpl. lia.
  - exists (with_code x c). simpl. by rewrite lookup_insert_eq.
  - simpl. rewrite lookup_insert_ne; [done | ]. intros E. rewrite E in Hx. congruence.
Qed.

Lemma reachable_tokens {faulty} `{!DeviceOk faulty device, !RequestOk request} k0 k :
  (forall f arg, forallb client (procs f arg) = true) ->
  kinv k0 -> Tok N k0 -> reachable RandomNumber device request procs k0 k -> kinv k /\ Tok N k.
Proof.
  intros Hcl H0 Ht Hr. split; [by eapply reachable_inv | ].
  induction Hr as [ | k k' Hr IH Hroom E]; [done | ].
  assert (kinv k) as Hk by (by eapply reachable_inv).
  pose proof (step_tokens k Hk IH) as H. unfold wp in H. by rewrite E in H.
Qed.

(** *** What the tokens there are leave for others *)

(** A thread whose code is worth all of them. *)
Lemma tokens_all n k t x :
  Tok n k -> threads k !! t = Some x -> n <= worths a (code x) ->
  (forall t' x', threads k !! t' = Some x' -> t' <> t -> worths a (code x') = 0) /\
  (forall s y, semaphores k !! s = Some y -> of_sem a s <> 0 -> value y = 0) /\
  pledges a (pending_of k) = 0 /\ of_devices a (devices k) = 0.
Proof.
  intros Hk Hx Hn. pose proof (pledges_nonneg a (pending_of k) (fun d => interrupt_nonneg d)) as Hp. pose proof (tokens_parts a n k Hk) as [H1 H2]. pose proof (devices_nonneg (devices k)) as H3.
  pose proof (tk_total _ _ _ Hk) as Ht. unfold total in Ht.
  assert (Hc : forall t x, threads k !! t = Some x -> 0 <= worths a (code x)).
  { intros u y Hy. apply solvent_nonneg. by destruct (tk_code _ _ _ Hk u y Hy). }
  pose proof (msum_ge (fun _ x => worths a (code x)) _ _ _ Hc Hx) as H4. cbv beta in H4. split_and!; [ | | lia | lia].
  - intros t' x' Hx' Hne. pose proof (Hc t' x' Hx').
    pose proof (msum_ge2 (fun _ x => worths a (code x)) _ _ _ _ _ Hc Hx Hx' ltac:(done)) as H5. cbv beta in H5. lia.
  - intros s y Hy Hs. pose proof (sem_unit s). pose proof (tk_value _ _ _ Hk s y Hy Hs).
    assert (of_sem a s * value y <= msum (fun s x => of_sem a s * value x) (semaphores k)); [ | nia].
    apply (msum_ge (fun s x => of_sem a s * value x)); [ | done]. intros u z Hz.
    destruct (decide (of_sem a u = 0)) as [-> | Hu]; [lia | ].
    pose proof (tk_value _ _ _ Hk u z Hz Hu). pose proof (sem_unit u). nia.
Qed.

End Scheduling.

(** ** Invariants of the devices

    A token for each state of the devices that breaks an invariant: there never
    is one. *)

Section Flag.
Context {D : Type} (I : D -> Prop) `{!forall d, Decision (I d)}.
Implicit Types k : Kern D.

Definition flag_accounts : accounts D :=
  mkAccounts (fun _ => 0) (fun _ => 0) (fun _ => 0) (fun _ _ => 0) (fun _ => 0) (fun d => if decide (I d) then 0 else 1).

#[global] Instance flag_fair : Fair flag_accounts.
Proof. split; simpl; intros; try case_decide; lia. Qed.

Lemma flag_codeless : codeless flag_accounts.
Proof. done. Qed.

Lemma flag_pledges l : pledges flag_accounts l = 0.
Proof. induction l as [ | p l IH]; [done | ]. simpl. rewrite IH. unfold pledge. by destruct (callOnInterrupt p). Qed.

Lemma flag_holds k : tokens flag_accounts 0 k <-> I (devices k).
Proof.
  pose proof (codeless_tokens _ flag_codeless k) as Hc. rewrite flag_pledges in Hc. split.
  - intros Hk. pose proof (tk_total _ _ _ Hk) as Ht. rewrite (codeless_total _ flag_codeless), flag_pledges in Ht.
    simpl in Ht. by case_decide.
  - intros HI. cbn [of_devices flag_accounts] in Hc. by rewrite decide_True in Hc.
Qed.

Notation flag m := (keeps any_fault (tokens flag_accounts 0) anything m).

Lemma flag_modify (f : Kern D -> Kern D) : (forall k, I (devices k) -> I (devices (f k))) -> flag (modify f).
Proof. intros Hf k Hk%flag_holds. apply wp_modify. split; [done | ]. apply flag_holds. auto. Qed.

Lemma flag_Schedule o d ty : flag (Schedule o d ty).
Proof.
  intros k Hk. eapply wp_mono; [by apply Schedule_tokens | ]. cbv beta. intros r k'.
  by replace (pledge flag_accounts (mkPending o 0 ty)) with 0 by (by destruct o).
Qed.

Lemma flag_V v : flag (V_handler v).
Proof. intros k Hk. eapply wp_mono; [by apply (V_handler_tokens flag_accounts 0) | done]. Qed.

End Flag.
