(* ===== verification/Fifo.v ===== *)
(** * The ready list is served in order (threads/scheduler.cc)

    A thread on the ready list is overtaken by nobody: what is put on the list
    goes to its end, whatever threads, devices and handlers do, and only
    [FindNextToRun] takes a thread off, from the front, to run it.  So a ready
    thread runs as soon as the processor has been given away once for each
    thread in front of it and once more. *)

From S2P Require Import Prelude LinkedList Machine AddrSpace Threads ThreadsInv ThreadsSafe ThreadsTest Devices Tokens.

Section Fifo.
Context {D : Type}.
Notation K := (Kern D).
Implicit Types (k : K) (l : list nat).

(** [l] is still at the front of the ready list. *)
Definition grows l k : Prop := l `prefix_of` ready_of k.

Notation fifo l m := (keeps any_fault (grows l) anything m).

Lemma fifo_lift {A} l (r : res A) : fifo l (lift r).
Proof. by apply keeps_lift. Qed.

Lemma fifo_frame l (f : K -> K) : (forall k, ready_of (f k) = ready_of k) -> fifo l (modify f).
Proof. intros Hf k Hk. apply wp_modify. split; [done | ]. unfold grows. by rewrite Hf. Qed.

Lemma fifo_upd l t f : fifo l (upd_thread t f).
Proof.
  intros k Hk. unfold upd_thread, get_thread, put_thread, find, wp. run. by destruct (threads k !! t).
Qed.

End Fifo.

Ltac fifo1 :=
  match goal with
  | |- keeps _ _ _ (_ ≫= _) => eapply keeps_bind; [ | intros ? ?]
  | |- keeps _ _ ?P (mret _) => first [is_evar P; apply (keeps_ret anything); exact I | apply keeps_ret]
  | |- keeps _ _ _ (lift _) => apply fifo_lift
  | |- keeps _ _ _ (find _) => apply fifo_lift
  | |- keeps _ _ _ (gets _) => apply (keeps_gets anything); intros; exact I
  | |- keeps _ _ _ (modify _) => apply fifo_frame; by intros
  | |- keeps _ _ _ (upd_thread _ _) => apply fifo_upd
  | |- keeps _ _ _ (push _) => unfold push
  | |- keeps _ _ _ (if _ then _ else _) => apply keeps_if; intros ?
  | |- keeps _ _ _ (match ?x with _ => _ end) => destruct x
  | |- anything _ => exact I
  end.
Create HintDb fifo.
Ltac fifo := repeat first [fifo1 | solve [eauto with fifo]
  | progress unfold push, get_thread, get_semaphore, get_lock, get_condition, get_synchList, put_thread, put_semaphore,
      put_lock, put_condition, put_synchList, assert_off, getLevel, ChangeLevel, set_interrupt, set_status, set_pending,
      set_inHandler, set_yieldOnReturn, set_toBeDestroyed, list_Append, new_address, IsHeldByCurrentThread, new_Thread, Thread_Fork, StackAllocate, Semaphore_P, Lock_Acquire,
      Condition_Wait, new_Semaphore, Condition_Broadcast, SynchList_RemoveFront, delete_Semaphore, new_SynchList,
      delete_SynchList, Interrupt_Halt, OneTick, Thread_Begin, Enable, Thread_Finish, Thread_Sleep, P_loop, set_holder,
      list_append, list_wait, list_take].

Section Operations.
Context {D : Type}.
Notation K := (Kern D).
Implicit Types (k : K) (l : list nat).
Notation fifo l m := (keeps any_fault (grows (D := D) l) anything m).

Lemma fifo_ReadyToRun l t : fifo l (ReadyToRun t).
Proof.
  unfold ReadyToRun. eapply keeps_bind; [fifo | intros ? _]. eapply keeps_bind; [fifo | intros ? _].
  intros k Hk. apply wp_bind, wp_gets, wp_bind. unfold list_Append. apply wp_bind. unfold wp at 1, lift, ASSERT.
  destruct (negb _); [ | done]. apply wp_ret, wp_modify. split; [done | ]. by apply prefix_app_r.
Qed.
#[local] Hint Resolve fifo_ReadyToRun : fifo.

Lemma fifo_SetLevel l now : fifo l (SetLevel now).
Proof. unfold SetLevel. fifo. Qed.
#[local] Hint Resolve fifo_SetLevel : fifo.

Lemma fifo_on_machine {A} l (x : stM (Machine * unit) A) : fifo l (on_machine x).
Proof. unfold on_machine. fifo. Qed.
#[local] Hint Resolve fifo_on_machine : fifo.

Lemma fifo_Run l t b : fifo l (Scheduler_Run t b).
Proof. unfold Scheduler_Run, SaveUserState, CheckOverflow. fifo. Qed.

Lemma fifo_Destroy l : fifo l CheckToBeDestroyed.
Proof. unfold CheckToBeDestroyed, delete_Thread. fifo. Qed.
#[local] Hint Resolve fifo_Run fifo_Destroy : fifo.

Lemma fifo_Run_back l : fifo l Run_back.
Proof. unfold Run_back, RestoreUserState. fifo. Qed.

Lemma fifo_Schedule l o d ty : fifo l (Schedule o d ty).
Proof. unfold Schedule. fifo. Qed.

Lemma fifo_Semaphore_V l s : fifo l (Semaphore_V s).
Proof. unfold Semaphore_V. fifo. Qed.
#[local] Hint Resolve fifo_Run_back fifo_Schedule fifo_Semaphore_V : fifo.

Lemma fifo_V_handler l s : fifo l (V_handler s).
Proof. unfold V_handler. fifo. Qed.

Lemma fifo_V_call l s : fifo l (V_call s).
Proof. unfold V_call. fifo. Qed.
#[local] Hint Resolve fifo_V_handler fifo_V_call : fifo.

Lemma fifo_Release l s : fifo l (Lock_Release s).
Proof. unfold Lock_Release. fifo. Qed.

Lemma fifo_Signal l c s : fifo l (Condition_Signal c s).
Proof. unfold Condition_Signal. fifo. Qed.

Lemma fifo_Append l q i : fifo l (SynchList_Append q i).
Proof. unfold SynchList_Append. fifo. Qed.

(** *** The devices, and every instruction *)

(** Handlers and requests put threads at the end of the ready list. *)
Class DeviceFifo (device : nat -> stM K unit) (request : nat -> Z -> stM K unit) : Prop := {
  device_fifo d l : fifo l (device d);
  request_fifo d arg l : fifo l (request d arg)
}.

Context (RandomNumber : D -> Z * D) (device : nat -> stM K unit) (request : nat -> Z -> stM K unit).
Context (procs : nat -> Z -> list instr) `{!DeviceFifo device request}.

Lemma fifo_CallBack l o : fifo l (CallBack RandomNumber device o).
Proof.
  destruct o as [ | d]; cbn [CallBack]; [ | apply device_fifo]. unfold Timer_CallBack, Alarm_CallBack, YieldOnReturn, SetInterrupt. fifo.
Qed.
#[local] Hint Resolve fifo_CallBack : fifo.

Lemma fifo_fire_loop l fuel : fifo l (fire_loop RandomNumber device fuel).
Proof. induction fuel as [ | fuel IH]; cbn [fire_loop]; fifo. Qed.
#[local] Hint Resolve fifo_fire_loop : fifo.

Lemma fifo_CheckIfDue l adv : fifo l (CheckIfDue RandomNumber device adv).
Proof. unfold CheckIfDue, fire. fifo. Qed.
#[local] Hint Resolve fifo_CheckIfDue : fifo.

(** The first thread of [l] was taken off and runs. *)
Definition taken l k : Prop := exists t l', l = t :: l' /\ currentThread k = t /\ grows l' k.

(** The step gives the processor away. *)
Definition gives_way k : bool :=
  match next_instr k with
  | Some Yield | Some (SleepLoop _) => negb (bool_decide (ready_of k = []))
  | _ => false
  end.

Lemma wp_any {A} (m : stM K A) k : wp any_fault (fun _ _ => True) m k.
Proof. unfold wp. by destruct (m k) as [[] | ]. Qed.

Lemma wp_and {A} (Q R : A -> K -> Prop) (m : stM K A) k :
  wp any_fault Q m k -> wp any_fault R m k -> wp any_fault (fun a k' => Q a k' /\ R a k') m k.
Proof. unfold wp. by destruct (m k) as [[] | ]. Qed.

Lemma Run_current t b k : wp any_fault (fun _ k' => currentThread k' = t) (Scheduler_Run t b) k.
Proof.
  unfold Scheduler_Run. do 7 (apply wp_bind; eapply wp_mono; [apply wp_any | intros ? ? _]).
  apply wp_bind, wp_modify. unfold upd_thread, get_thread, put_thread, find, wp. run.
  by destruct (threads _ !! t).
Qed.

Lemma Run_taken t l b k : grows l k -> wp any_fault (fun _ => taken (t :: l)) (Scheduler_Run t b) k.
Proof.
  intros Hk. eapply wp_mono; [apply wp_and; [apply (Run_current t) | by apply (fifo_Run l)] | ].
  intros r k' [Hc [_ Hg]]. by exists t, l.
Qed.

(** [FindNextToRun] takes the first thread. *)
Lemma wp_FindNext (Q : option nat -> K -> Prop) k :
  (ready_of k = [] -> Q None k) ->
  (forall t l k', ready_of k = t :: l -> ready_of k' = l -> Q (Some t) k') -> wp any_fault Q FindNextToRun k.
Proof.
  intros H1 H2. unfold FindNextToRun. apply wp_bind. unfold assert_off, getLevel. apply wp_bind, wp_gets.
  unfold wp at 1, lift, ASSERT. destruct (bool_decide _); [ | done]. apply wp_bind, wp_gets.
  change (readyList (scheduler k)) with (ready_of k). destruct (ready_of k) as [ | t l] eqn:E; [by apply wp_ret, H1 | ].
  apply wp_bind, wp_modify, wp_ret. by apply (H2 t l).
Qed.

(** What a step that may give the processor away does to the ready list. *)
Definition after_turn l k : Prop := if bool_decide (l = []) then True else taken l k.

Lemma Yield_turn k : wp any_fault (fun _ => after_turn (ready_of k)) Thread_Yield k.
Proof.
  unfold Thread_Yield. apply wp_bind. eapply wp_ok; [apply SetLevel_off | ]. apply wp_bind, wp_gets, wp_bind.
  apply wp_FindNext; change (ready_of (set_off k)) with (ready_of k).
  - intros E. eapply wp_mono; [apply wp_any | ]. intros ? ? _. by rewrite E.
  - intros t l k' E Hk'. rewrite E. apply wp_bind. unfold after_turn. rewrite bool_decide_eq_false_2 by done.
    eapply wp_mono; [apply (fifo_upd l); unfold grows; by rewrite Hk' | ]. intros ? k2 [_ Hk2]. apply wp_bind.
    eapply wp_mono; [by apply (fifo_ReadyToRun l) | ]. intros ? k3 [_ Hk3]. by apply Run_taken.
Qed.

Lemma Sleep_turn b k : wp any_fault (fun _ => after_turn (ready_of k)) (Sleep_loop RandomNumber device b) k.
Proof.
  unfold Sleep_loop. apply wp_bind, wp_FindNext.
  - intros E. eapply wp_mono; [apply wp_any | ]. intros ? ? _. by rewrite E.
  - intros t l k' E Hk'. rewrite E. unfold after_turn. rewrite bool_decide_eq_false_2 by done.
    apply Run_taken. unfold grows. by rewrite Hk'.
Qed.

#[local] Hint Resolve fifo_Release fifo_Signal fifo_Append : fifo.

Lemma exec_fifo l i : i <> Yield -> (forall b, i <> SleepLoop b) -> fifo l (exec RandomNumber device request procs i).
Proof.
  intros Hy Hs. destruct i; cbn [exec]; try done.
  all: try (by destruct (Hs finishing)); try apply request_fifo; fifo.
Qed.

(** A step takes the first thread of the list when it gives the processor away,
    and otherwise leaves the list as it was, but for threads added at its
    end. *)
Lemma step_fifo k :
  wp any_fault (fun _ k' => if gives_way k then taken (ready_of k) k' else grows (ready_of k) k')
    (step RandomNumber device request procs) k.
Proof.
  unfold step, fetch. apply wp_bind, wp_bind, wp_gets, wp_bind. unfold get_thread. apply wp_bind, wp_gets.
  unfold wp at 1, find, lift. unfold gives_way, next_instr.
  destruct (threads k !! currentThread k) as [x | ]; [ | done]. cbn [mbind option_bind].
  destruct (code x) as [ | i c]; [done | ]. apply wp_bind, wp_modify, wp_ret. cbn [head].
  set (k1 := with_threads k _). change (ready_of k) with (ready_of k1).
  assert (Hgrow : grows (ready_of k1) k1) by (unfold grows; reflexivity).
  assert (Hturn : forall k', after_turn (ready_of k1) k' ->
    if negb (bool_decide (ready_of k1 = [])) then taken (ready_of k1) k' else grows (ready_of k1) k').
  { intros k'. unfold after_turn. destruct (bool_decide_reflect (ready_of k1 = [])) as [-> | _]; [ | done].
    intros _. apply prefix_nil. }
  assert (i = Yield \/ (exists b, i = SleepLoop b) \/ (i <> Yield /\ forall b, i <> SleepLoop b))
    as [-> | [[b ->] | [Hy Hs]]] by (destruct i; naive_solver).
  - eapply wp_mono; [apply Yield_turn | ]. intros r k'. apply Hturn.
  - eapply wp_mono; [apply Sleep_turn | ]. intros r k'. apply Hturn.
  - eapply wp_mono; [by apply (exec_fifo (ready_of k1) i) | ].
    intros r k' [_ Hk']. destruct i; done || (by destruct (Hs finishing)).
Qed.

(** *** Executions *)

(** [execution k n ks]: from [k] the steps lead through the states [ks], and
    the processor was given away [n] times. *)
Inductive execution : K -> nat -> list K -> Prop :=
  | execution_end k : execution k 0 [k]
  | execution_step k k' n ks : step RandomNumber device request procs k = Ok (tt, k') -> execution k' n ks ->
      execution k ((if gives_way k then 1 else 0) + n) (k :: ks).

(** C13: Every ready thread gets its turn.  If [t] is on the ready list behind
    [l], then in any execution, whatever the threads, the devices and the timer
    do, by the time the processor has been given away (by Yield, by a time slice
    or by going to sleep) once more than [l] is long, [t] has run. *)
Theorem ready_runs k n ks t l l'
    (Hready : ready_of k = l ++ t :: l') (Hexec : execution k n ks) (Hn : (length l < n)%nat) :
  exists k', k' ∈ ks /\ currentThread k' = t.
Proof.
  assert (Hg : grows (l ++ [t]) k) by (exists l'; by rewrite Hready, <- app_assoc).
  clear Hready. revert l Hg Hn. induction Hexec as [k | k k1 n ks E Hrest IH]; intros l Hg Hn; [simpl in Hn; lia | ].
  pose proof (step_fifo k) as H. unfold wp in H. rewrite E in H. destruct Hg as [l2 Hr].
  destruct (gives_way k).
  - destruct H as (h & rest & Hh & Hc & Hg). rewrite Hr in Hh. destruct l as [ | h' l].
    + injection Hh as <- _. exists k1. split; [ | done]. right. by destruct Hrest; left.
    + injection Hh as -> <-. destruct (IH l) as (k' & Hk' & Ht); [ | simpl in Hn; lia | ].
      * unfold grows in *. by eapply prefix_app_l.
      * exists k'. split; [by right | done].
  - destruct (IH l) as (k' & Hk' & Ht); [ | simpl in Hn; lia | exists k'; split; [by right | done]].
    unfold grows in *. rewrite Hr in H. by eapply prefix_app_l.
Qed.

End Operations.

(** For the code of devices *)
Ltac fifo_dev1 :=
  first [fifo1 | match goal with
    | |- keeps _ _ _ (Schedule _ _ _) => apply fifo_Schedule
    | |- keeps _ _ _ (V_handler _) => apply fifo_V_handler
    end].

(** ** Witness: the self test of threads *)

#[global] Instance v_device_fifo {D} : DeviceFifo (D := D) v_device no_request.
Proof.
  split; intros; [ | unfold no_request; fifo]. intros k Hk. unfold v_device.
  apply wp_bind, wp_gets. case_match; [by apply fifo_V_handler | by apply wp_ret].
Qed.

(** The states of the next [m] steps *)
Fixpoint execute {D} (RandomNumber : D -> Z * D) device request procs (m : nat) (k : Kern D) : option (nat * list (Kern D)) :=
  match m with
  | O => Some (0%nat, [k])
  | S m' =>
      match step RandomNumber device request procs k with
      | Ok (_, k') =>
          '(n, ks) ← execute RandomNumber device request procs m' k';
          Some (((if gives_way k then 1 else 0) + n)%nat, k :: ks)
      | Fail _ => None
      end
  end.

Lemma execute_execution {D} (RandomNumber : D -> Z * D) device request procs m k n ks :
  execute RandomNumber device request procs m k = Some (n, ks) -> execution RandomNumber device request procs k n ks.
Proof.
  revert k n ks. induction m as [ | m IH]; intros k n ks; cbn [execute]; [intros [= <- <-]; constructor | ].
  destruct (step _ _ _ _ k) as [[[] k'] | ] eqn:E; [ | done].
  destruct (execute _ _ _ _ m k') as [[n' ks'] | ] eqn:E'; [ | done]. intros [= <- <-].
  by apply (execution_step _ _ _ _ k k'); [ | apply IH].
Qed.

(** After three steps the forked thread is ready; it runs within the next
    five. *)
Lemma ready_runs_witness :
  exists k n ks, test_steps 3 (selftest_kernel TimerTicks) = Some k /\ ready_of k = [2000%nat] /\
    execution no_random v_device no_request test_procs k n ks /\ exists k', k' ∈ ks /\ currentThread k' = 2000%nat.
Proof.
  destruct (test_steps 3 (selftest_kernel TimerTicks)) as [k | ] eqn:E; [ | exfalso; vm_compute in E; discriminate E].
  assert (H : match test_steps 3 (selftest_kernel TimerTicks) with
    | Some k => bool_decide (ready_of k = [2000%nat]) &&
        match execute no_random v_device no_request test_procs 5 k with Some (n, _) => bool_decide (n = 1%nat) | None => false end
    | None => false end = true) by (vm_compute; reflexivity).
  rewrite E in H. apply andb_true_iff in H as [Hr H]. apply bool_decide_eq_true in Hr.
  destruct (execute no_random v_device no_request test_procs 5 k) as [[n ks] | ] eqn:Ee; [ | discriminate H].
  apply bool_decide_eq_true in H. pose proof (execute_execution _ _ _ _ _ _ _ _ Ee) as Hx.
  exists k, n, ks. split_and!; [reflexivity | exact Hr | exact Hx | ].
  apply (ready_runs no_random v_device no_request test_procs k n ks 2000%nat [] [] Hr Hx). rewrite H. simpl. lia.
Defined.
