(* ===== verification/Switch.v ===== *)
(** * A user program does not see the switches (threads/scheduler.cc,
      threads/thread.cc, userprog/addrspace.cc)

    [Scheduler::Run] saves the user registers of the thread that gives the
    processor away and restores them, and the page table, when the thread runs
    again.  In between, other threads, user programs among them, use the same
    machine.  This file shows that the thread finds the machine's registers as
    it left them, and its own page table in place (the table as the thread
    record holds it: here it has no use and dirty bits set since). *)

From S2P Require Import Prelude LinkedList Machine AddrSpace Threads ThreadsInv ThreadsSafe ThreadsTest Devices Tokens Fifo.

(** *** Starting a program in a thread

    [AddrSpace::Execute] up to [Machine::Run], for the current thread of the
    kernel *)

Definition with_space (x : Thread) (sp : AddrSpace) : Thread :=
  mkThread (stack x) (thread_status x) (userRegisters x) (Some sp) (code x) (got x).

Definition Thread_Execute {D} (sp : AddrSpace) : stM (Kern D) unit :=
  t ← gets currentThread;
  upd_thread t (fun x => with_space x sp);;
  on_machine (InitRegisters sp);;
  on_machine (RestoreState sp).

(** A thread that has been switched out, with registers [R] saved *)
Definition put_away (R : list Z) (sp : option AddrSpace) (C : list instr) (y : Thread) : Prop :=
  userRegisters y = R /\ space y = sp /\ code y = C.

Section Held.
Context {D : Type}.
Notation K := (Kern D).
Implicit Types k : K.
Context (t : nat) (R : list Z) (sp : option AddrSpace) (C : list instr).

(** Thread [t], unless it was deleted, is put away. *)
Definition held k : Prop := (forall y, threads k !! t = Some y -> put_away R sp C y) /\ (t < nextAddress k)%nat.

(** Another thread runs. *)
Definition holds k : Prop := held k /\ currentThread k <> t.

Notation hold m := (keeps any_fault holds anything m).

Lemma held_frame k k' : held k -> threads k' = threads k -> (nextAddress k <= nextAddress k')%nat -> held k'.
Proof. intros [H1 H2] E1 E2. split; [by rewrite E1 | lia]. Qed.

Lemma hold_lift {A} (r : res A) : hold (lift r).
Proof. by apply keeps_lift. Qed.

Lemma hold_frame (f : K -> K) :
  (forall k, threads (f k) = threads k) -> (forall k, (nextAddress k <= nextAddress (f k))%nat) ->
  (forall k, currentThread (f k) = currentThread k) -> hold (modify f).
Proof. intros H1 H2 H3 k [Hk Hc]. apply wp_modify. split; [done | ]. split; [by eapply held_frame | by rewrite H3]. Qed.

(** A thread changes: another one, or in a way that does not matter. *)
Lemma held_set k v x : held k -> (v = t -> put_away R sp C x) -> held (with_threads k (<[v := x]> (threads k))).
Proof.
  intros [H1 H2] Hv. split; [ | done]. intros y Hy. simpl in Hy. apply lookup_insert_Some in Hy as [[-> <-] | [_ Hy]]; auto.
Qed.

Lemma hold_upd v (f : Thread -> Thread) : (v = t -> forall x, put_away R sp C x -> put_away R sp C (f x)) -> hold (upd_thread v f).
Proof.
  intros Hf k [Hk Hc]. unfold upd_thread, get_thread, put_thread, find, wp. run. destruct (threads k !! v) as [x | ] eqn:Hx; [ | done].
  split; [done | ]. split; [ | done]. apply held_set; [done | ]. intros ->. apply Hf; [done | ]. by apply Hk.
Qed.

Lemma hold_current {B} (P : B -> Prop) (m : nat -> stM K B) :
  (forall v, v <> t -> keeps any_fault holds P (m v)) -> keeps any_fault holds P (v ← gets currentThread; m v).
Proof. intros Hm k Hk. apply wp_bind, wp_gets. apply Hm; [apply Hk | done]. Qed.

Lemma hold_push p : hold (push p).
Proof. unfold push. apply hold_current. intros v Hv. by apply hold_upd. Qed.

Lemma hold_new_address : hold new_address.
Proof.
  intros k [Hk Hc]. unfold new_address. apply wp_bind, wp_gets, wp_bind, wp_modify, wp_ret. split; [done | ].
  split; [ | done]. apply (held_frame k); [done | done | simpl; lia].
Qed.

End Held.

Ltac hold1 :=
  match goal with
  | |- keeps _ _ _ (gets currentThread ≫= _) => apply hold_current; intros ? ?
  | |- keeps _ _ _ (_ ≫= _) => eapply keeps_bind; [ | intros ? ?]
  | |- keeps _ _ ?P (mret _) => first [is_evar P; apply (keeps_ret anything); exact I | apply keeps_ret]
  | |- keeps _ _ _ (lift _) => apply hold_lift
  | |- keeps _ _ _ (find _) => apply hold_lift
  | |- keeps _ _ _ (gets _) => apply (keeps_gets anything); intros; exact I
  | |- keeps _ _ _ (modify _) => apply hold_frame; first [solve [auto] | by intros; simpl; lia]
  | |- keeps _ _ _ (upd_thread _ _) => apply hold_upd; solve [by intros | intros _ ? [? [? ?]]; by split_and!]
  | |- keeps _ _ _ (push _) => apply hold_push
  | |- keeps _ _ _ new_address => apply hold_new_address
  | |- keeps _ _ _ (if _ then _ else _) => apply keeps_if; intros ?
  | |- keeps _ _ _ (match ?x with _ => _ end) => destruct x
  | |- anything _ => exact I
  end.
Create HintDb hold.
Ltac hold := repeat first [hold1 | solve [eauto with hold]
  | progress unfold get_thread, get_semaphore, get_lock, get_condition, get_synchList, put_semaphore,
      put_lock, put_condition, put_synchList, assert_off, getLevel, ChangeLevel, set_interrupt, set_status, set_pending,
      set_inHandler, set_yieldOnReturn, set_toBeDestroyed, set_readyList, list_Append, IsHeldByCurrentThread, Semaphore_P, Lock_Acquire,
      Condition_Wait, new_Semaphore, Condition_Broadcast, SynchList_RemoveFront, delete_Semaphore, new_SynchList,
      delete_SynchList, Interrupt_Halt, OneTick, Thread_Begin, Enable, Thread_Finish, Thread_Sleep, P_loop, set_holder,
      list_append, list_wait, list_take].

Section Operations.
Context {D : Type}.
Notation K := (Kern D).
Implicit Types k : K.

Section One.
Context (t : nat) (R : list Z) (sp : option AddrSpace) (C : list instr).
Notation hold m := (keeps any_fault (holds (D := D) t R sp C) anything m).

Lemma hold_ReadyToRun u : hold (ReadyToRun u).
Proof. unfold ReadyToRun. hold. Qed.
#[local] Hint Resolve hold_ReadyToRun : hold.

Lemma hold_SetLevel now : hold (SetLevel now).
Proof. unfold SetLevel. hold. Qed.
#[local] Hint Resolve hold_SetLevel : hold.

Lemma hold_on_machine {A} (x : stM (Machine * unit) A) : hold (on_machine x).
Proof. unfold on_machine. hold. Qed.
#[local] Hint Resolve hold_on_machine : hold.

Lemma hold_delete u : hold (delete_Thread u).
Proof.
  unfold delete_Thread. apply hold_current. intros v Hv. eapply keeps_bind; [hold | intros ? _].
  intros k [[H1 H2] Hc]. apply wp_modify. split; [done | ]. split; [ | done]. split; [ | done].
  intros y Hy. simpl in Hy. apply lookup_delete_Some in Hy as [_ Hy]. by apply H1.
Qed.
#[local] Hint Resolve hold_delete : hold.

Lemma hold_Destroy : hold CheckToBeDestroyed.
Proof. unfold CheckToBeDestroyed. hold. Qed.
#[local] Hint Resolve hold_Destroy : hold.

Lemma hold_Run_back : hold Run_back.
Proof. unfold Run_back, RestoreUserState. hold. Qed.

Lemma hold_Schedule o d ty : hold (Schedule o d ty).
Proof. unfold Schedule. hold. Qed.

Lemma hold_Semaphore_V s : hold (Semaphore_V s).
Proof. unfold Semaphore_V. hold. Qed.
#[local] Hint Resolve hold_Run_back hold_Schedule hold_Semaphore_V : hold.

Lemma hold_V_handler s : hold (V_handler s).
Proof. unfold V_handler. hold. Qed.

Lemma hold_V_call s : hold (V_call s).
Proof. unfold V_call. hold. Qed.
#[local] Hint Resolve hold_V_handler hold_V_call : hold.

Lemma hold_Release l : hold (Lock_Release l).
Proof. unfold Lock_Release. hold. Qed.

Lemma hold_Signal c l : hold (Condition_Signal c l).
Proof. unfold Condition_Signal. hold. Qed.

Lemma hold_Append q i : hold (SynchList_Append q i).
Proof. unfold SynchList_Append. hold. Qed.

(** A new thread has a new address. *)
Lemma hold_new_Thread : keeps any_fault (holds (D := D) t R sp C) (fun u => u <> t) new_Thread.
Proof.
  intros k [Hk Hc]. unfold new_Thread, new_address, put_thread. apply wp_bind, wp_bind, wp_gets, wp_bind, wp_modify, wp_ret, wp_bind, wp_modify, wp_ret.
  pose proof (proj2 Hk). split; [lia | ]. split; [ | done]. apply held_set; [ | intros; lia]. apply (held_frame t R sp C k); [done | done | simpl; lia].
Qed.

Lemma hold_Fork u f : u <> t -> hold (Thread_Fork u f).
Proof. intros Hu. unfold Thread_Fork, StackAllocate. hold. Qed.

#[local] Hint Resolve hold_Release hold_Signal hold_Append : hold.

Lemma hold_FindNext : hold FindNextToRun.
Proof. unfold FindNextToRun. hold. Qed.
#[local] Hint Resolve hold_FindNext : hold.

(** *** Giving the processor to the next thread, which may be [t] *)

Definition leaves {A} (m : stM K A) : Prop := forall k, holds t R sp C k -> wp any_fault (fun _ => held t R sp C) m k.

Lemma leaves_hold {A} (P : A -> Prop) (m : stM K A) : keeps any_fault (holds t R sp C) P m -> leaves m.
Proof. intros H k Hk. eapply wp_mono; [by apply H | ]. by intros ? ? [_ [? _]]. Qed.

Lemma leaves_bind {A B} (P : A -> Prop) (m : stM K A) (f : A -> stM K B) :
  keeps any_fault (holds t R sp C) P m -> (forall a, P a -> leaves (f a)) -> leaves (m ≫= f).
Proof. intros Hm Hf k Hk. apply wp_bind. eapply wp_mono; [by apply Hm | ]. intros a k' [Ha Hk']. by apply Hf. Qed.

Lemma leaves_current {B} (m : nat -> stM K B) : (forall v, v <> t -> leaves (m v)) -> leaves (v ← gets currentThread; m v).
Proof. intros Hm k Hk. apply wp_bind, wp_gets. apply Hm; [apply Hk | done]. Qed.

Lemma leaves_Run n b : leaves (Scheduler_Run n b).
Proof.
  unfold Scheduler_Run. apply leaves_current. intros old Hold. unfold SaveUserState, CheckOverflow.
  do 6 (eapply leaves_bind; [hold | intros ? _]).
  intros k [Hk _]. apply wp_bind, wp_modify. unfold upd_thread, get_thread, put_thread, find, wp. run.
  change (threads (with_current k n)) with (threads k). destruct (threads k !! n) as [x | ] eqn:Hx; [ | done]. apply (held_set t R sp C (with_current k n)); [done | ].
  intros ->. destruct (proj1 Hk x Hx) as [? [? ?]]. by split_and!.
Qed.

Lemma leaves_Yield : leaves Thread_Yield.
Proof.
  unfold Thread_Yield. eapply leaves_bind; [hold | intros lv _]. apply leaves_current. intros this Hthis.
  do 2 (eapply leaves_bind; [hold | intros ? _]). destruct a as [n | ]; [ | by eapply leaves_hold, (keeps_ret anything)].
  eapply leaves_bind; [hold | intros ? _]. apply leaves_Run.
Qed.

End One.

(** *** Every instruction of another thread *)

(** Handlers and requests leave the threads that do not run as they are. *)
Class DeviceHolds (device : nat -> stM K unit) (request : nat -> Z -> stM K unit) : Prop := {
  device_holds t R sp C d : keeps any_fault (holds (D := D) t R sp C) anything (device d);
  request_holds t R sp C d arg : keeps any_fault (holds (D := D) t R sp C) anything (request d arg)
}.

Context (RandomNumber : D -> Z * D) (device : nat -> stM K unit) (request : nat -> Z -> stM K unit).
Context (procs : nat -> Z -> list instr) `{!DeviceHolds device request}.
Context (t : nat) (R : list Z) (sp : option AddrSpace) (C : list instr).
Notation hold m := (keeps any_fault (holds (D := D) t R sp C) anything m).
#[local] Hint Resolve hold_ReadyToRun hold_SetLevel hold_on_machine hold_delete hold_Destroy hold_Run_back hold_Schedule
  hold_Semaphore_V hold_V_handler hold_V_call hold_Release hold_Signal hold_Append hold_FindNext : hold.

Lemma hold_CallBack o : hold (CallBack RandomNumber device o).
Proof.
  destruct o as [ | d]; cbn [CallBack]; [ | apply device_holds]. unfold Timer_CallBack, Alarm_CallBack, YieldOnReturn, SetInterrupt. hold.
Qed.
#[local] Hint Resolve hold_CallBack : hold.

Lemma hold_fire_loop fuel : hold (fire_loop RandomNumber device fuel).
Proof. induction fuel as [ | fuel IH]; cbn [fire_loop]; hold. Qed.
#[local] Hint Resolve hold_fire_loop : hold.

Lemma hold_CheckIfDue adv : hold (CheckIfDue RandomNumber device adv).
Proof. unfold CheckIfDue, fire. hold. Qed.
#[local] Hint Resolve hold_CheckIfDue : hold.

Lemma leaves_Sleep b : leaves t R sp C (Sleep_loop RandomNumber device b).
Proof.
  unfold Sleep_loop. eapply leaves_bind; [hold | intros n _]. destruct n as [n | ]; [apply leaves_Run | ].
  apply (leaves_hold _ _ _ _ anything). unfold Idle. hold.
Qed.

Lemma exec_leaves i : leaves t R sp C (exec RandomNumber device request procs i).
Proof.
  destruct i; cbn [exec]; try apply leaves_Yield; try apply leaves_Sleep; apply (leaves_hold _ _ _ _ anything);
    try apply request_holds; try (hold; fail).
  eapply keeps_bind; [apply hold_new_Thread | intros u Hu]. by apply hold_Fork.
Qed.

Lemma step_away k : holds t R sp C k -> wp any_fault (fun _ => held t R sp C) (step RandomNumber device request procs) k.
Proof.
  apply (leaves_bind _ _ _ _ anything); [ | intros i _; apply exec_leaves].
  unfold fetch. apply hold_current. intros v Hv. eapply keeps_bind; [hold | intros x _].
  destruct (code x) as [ | i c]; [hold | ]. eapply keeps_bind with (P := anything); [ | intros ? _; hold].
  intros k1 [Hk Hc]. apply wp_modify. split; [exact I | ]. split; [apply held_set; [exact Hk | by intros ->] | exact Hc].
Qed.

End Operations.

(** ** The thread that gives the processor away *)

Lemma wp_then {S A B} {E : fault -> Prop} {I : S -> Prop} {P : A -> Prop} (Q : B -> S -> Prop) (m : stM S A) (f : A -> stM S B) s :
  keeps E I P m -> I s -> (forall a s', P a -> I s' -> wp E Q (f a) s') -> wp E Q (m ≫= f) s.
Proof. intros Hm Hs Hf. apply wp_bind. eapply wp_mono; [by apply Hm | ]. intros a s' [Ha Hs']. by apply Hf. Qed.

Section Saving.
Context {D : Type}.
Notation K := (Kern D).
Implicit Types k : K.
Context (t : nat) (m : Machine).

(** [t] runs, its record satisfies [P], and the machine is [m]. *)
Definition in_use (P : Thread -> Prop) k : Prop :=
  machine k = Some m /\ currentThread k = t /\ (t < nextAddress k)%nat /\ exists x, threads k !! t = Some x /\ P x.

Definition uses (sp : AddrSpace) (c : list instr) (x : Thread) : Prop := space x = Some sp /\ code x = c.

Notation use P m := (keeps any_fault (in_use P) anything m).

Lemma use_frame P (f : K -> K) :
  (forall k, threads (f k) = threads k) -> (forall k, nextAddress (f k) = nextAddress k) ->
  (forall k, currentThread (f k) = currentThread k) -> (forall k, machine (f k) = machine k) -> use P (modify f).
Proof. intros H1 H2 H3 H4 k Hk. apply wp_modify. split; [done | ]. unfold in_use. by rewrite H1, H2, H3, H4. Qed.

Lemma use_upd P v f : (forall x, P x -> P (f x)) -> use P (upd_thread v f).
Proof.
  intros Hf k (H1 & H2 & H3 & x & Hx & HP). unfold upd_thread, get_thread, put_thread, find, wp. run.
  destruct (threads k !! v) as [y | ] eqn:Hy; [ | done]. split; [done | ]. split_and!; [done | done | done | ].
  destruct (decide (v = t)) as [-> | Hne]; [exists (f y) | exists x]; simpl.
  - rewrite lookup_insert_eq. simplify_eq. by split; [ | apply Hf].
  - by rewrite lookup_insert_ne.
Qed.

End Saving.

Ltac use1 :=
  match goal with
  | |- keeps _ _ _ (_ ≫= _) => eapply keeps_bind; [ | intros ? ?]
  | |- keeps _ _ ?P (mret _) => first [is_evar P; apply (keeps_ret anything); exact I | apply keeps_ret]
  | |- keeps _ _ _ (lift _) => by apply (keeps_lift anything)
  | |- keeps _ _ _ (find _) => by apply (keeps_lift anything)
  | |- keeps _ _ _ (gets _) => apply (keeps_gets anything); intros; exact I
  | |- keeps _ _ _ (modify _) => apply use_frame; by intros
  | |- keeps _ _ _ (upd_thread _ _) => apply use_upd; by intros
  | |- keeps _ _ _ (if _ then _ else _) => apply keeps_if; intros ?
  | |- keeps _ _ _ (match ?x with _ => _ end) => destruct x
  | |- anything _ => exact I
  end.
Ltac use := repeat first [use1 | progress unfold get_thread, assert_off, getLevel, ChangeLevel, set_interrupt, set_status,
  set_toBeDestroyed, set_readyList, list_Append, push, SetLevel, ReadyToRun, FindNextToRun, CheckOverflow].

Section Switching.
Context {D : Type}.
Notation K := (Kern D).
Implicit Types k : K.
Context (t : nat) (m : Machine) (sp : AddrSpace).
Hypothesis Hm : regs_wf (registers m).
Notation use c m' := (keeps any_fault (in_use (D := D) t m (uses sp c)) anything m').

(** [t] is put away, with the registers [m] had. *)
Definition kept_away k : Prop := exists C, held t (registers m) (Some sp) (Switched :: C) k.

Lemma saves c k : in_use t m (uses sp c) k ->
  wp any_fault (fun _ => in_use t m (fun x => uses sp c x /\ userRegisters x = registers m)) (SaveUserState t) k.
Proof.
  intros (H1 & H2 & H3 & x & Hx & Hsp). unfold SaveUserState. apply wp_bind. pose proof (regs_length _ Hm) as Hl.
  apply wp_safe. eapply wp_on_machine; [done | | ].
  { pose proof (ReadRegisters_ok (Z.to_nat NumTotalRegs) 0 m ltac:(lia) ltac:(done) Hl) as E.
    rewrite Z2Nat.id in E by (unfold NumTotalRegs; lia). rewrite take_ge in E by (rewrite length_drop; lia). exact E. }
  eapply wp_ok; [by apply (upd_thread_ok (with_machine k (Some m)) _ x) | ].
  split_and!; [done | done | done | ]. eexists. simpl. rewrite lookup_insert_eq. done.
Qed.

Lemma Run_saves n b c k : in_use t m (uses sp c) k ->
  wp any_fault (fun _ => held t (registers m) (Some sp) (Switched :: c)) (Scheduler_Run n b) k.
Proof.
  intros Hk. unfold Scheduler_Run. apply wp_bind, wp_gets. rewrite (proj1 (proj2 Hk)).
  apply (wp_then (I := in_use t m (uses sp c)) (P := anything)); [use | exact Hk | ]. intros _ k1 _ Hk1.
  apply (wp_then (I := in_use t m (uses sp c)) (P := anything)); [use | exact Hk1 | ]. intros _ k2 _ Hk2. destruct Hk2 as (H1 & H2 & H3 & x & Hx & Hsp & Hc). apply wp_bind.
  eapply wp_ok; [by apply (get_thread_ok k2 _ x) | ]. rewrite Hsp. apply wp_bind, wp_bind.
  eapply wp_mono; [apply (saves c); split_and!; [done.. | by exists x] | ]. intros [] k3 Hk3.
  set (P := fun y => uses sp c y /\ userRegisters y = registers m) in *.
  assert (Hsave : keeps any_fault (in_use t m P) anything (on_machine (SaveState sp) : stM K unit)).
  { intros k' Hk'. apply wp_safe. eapply (wp_on_machine _ _ _ m); [exact (proj1 Hk') | reflexivity | ]. split; [done | ].
    destruct Hk' as (? & ? & ? & ?). by split_and!. }
  eapply wp_mono; [by apply Hsave | ]. intros _ k4 [_ Hk4]. 
  eapply (wp_then (I := in_use t m P) (P := anything)); [use | exact Hk4 | ]. intros _ k5 _ (G1 & G2 & G3 & y & Hy & (Hsy & Hcy) & Hry).
  apply wp_bind. unfold push. apply wp_bind, wp_gets. rewrite G2. eapply wp_ok; [by apply (upd_thread_ok k5 _ y) | ].
  apply wp_bind, wp_modify. set (k6 := with_current _ _).
  assert (Hk6 : held t (registers m) (Some sp) (Switched :: c) k6).
  { split; [ | done]. intros z Hz. simpl in Hz. rewrite lookup_insert_eq in Hz. injection Hz as <-. simpl. by rewrite <- Hcy. }
  unfold upd_thread, get_thread, put_thread, find, wp. run.
  destruct (threads k6 !! n) as [z | ] eqn:Hz; [ | done]. apply held_set; [done | ].
  intros ->. destruct (proj1 Hk6 z Hz) as [? [? ?]]. by split_and!.
Qed.

Lemma use_set_code k x c c' :
  in_use t m (uses sp c) k -> threads k !! t = Some x -> in_use t m (uses sp c') (set_code k x c').
Proof.
  intros (H1 & H2 & H3 & y & Hy & Hsp & Hc) Hx. simplify_eq. split_and!; [done | done | done | ].
  exists (with_code y c'). split; [ | done]. simpl. by rewrite lookup_insert_eq.
Qed.

Lemma use_push p c k : in_use t m (uses sp c) k -> wp any_fault (fun _ => in_use t m (uses sp (p ++ c))) (push p) k.
Proof.
  intros (H1 & H2 & H3 & y & Hy & Hsp & Hc). unfold push. apply wp_bind, wp_gets. rewrite H2.
  eapply wp_ok; [by apply (upd_thread_ok k _ y) | ]. split_and!; [done | done | done | ].
  eexists. simpl. rewrite lookup_insert_eq. split; [done | ]. split; [done | ]. simpl. by rewrite Hc.
Qed.

Lemma Yield_saves c k : in_use t m (uses sp c) k -> ready_of k <> [] ->
  wp any_fault (fun _ => held t (registers m) (Some sp) (Switched :: SetLevel_ (level_of k) :: c)) Thread_Yield k.
Proof.
  intros Hk Hr. unfold Thread_Yield. apply wp_bind. eapply wp_ok; [apply SetLevel_off | ]. apply wp_bind, wp_gets, wp_bind.
  eapply wp_mono; [apply wp_and | ].
  - assert (Hu : use c FindNextToRun) by use. by apply (Hu (set_off k)).
  - apply (wp_FindNext (fun r _ => r <> None)); [ | done]. by intros E.
  - intros [n | ] k1 [[_ Hk1] Hn]; [ | done]. apply wp_bind. eapply wp_mono; [by apply use_push | ].
    intros [] k2 Hk2. apply (wp_then (I := in_use t m (uses sp (SetLevel_ (level_of k) :: c))) (P := anything)); [use | done | ].
    intros [] k3 _ Hk3. by apply Run_saves.
Qed.

Lemma Sleep_saves RandomNumber device b c k : in_use t m (uses sp c) k -> ready_of k <> [] ->
  wp any_fault (fun _ => held t (registers m) (Some sp) (Switched :: c)) (Sleep_loop RandomNumber device b) k.
Proof.
  intros Hk Hr. unfold Sleep_loop. apply wp_bind. eapply wp_mono; [apply wp_and | ].
  - assert (Hu : use c FindNextToRun) by use. by apply Hu.
  - apply (wp_FindNext (fun r _ => r <> None)); [ | done]. by intros E.
  - intros [n | ] k1 [[_ Hk1] Hn]; [by apply Run_saves | done].
Qed.

Lemma gives_way_saves RandomNumber device request procs k c0 : in_use t m (uses sp c0) k -> gives_way k = true ->
  wp any_fault (fun _ => kept_away) (step RandomNumber device request procs) k.
Proof.
  intros Hk Hg. pose proof Hk as (_ & Hc & _ & x & Hx & _). unfold gives_way, next_instr in Hg. rewrite Hc, Hx in Hg.
  cbn [mbind option_bind] in Hg. destruct (code x) as [ | i c] eqn:Ec; [done | ]. cbn [head] in Hg.
  pose proof (use_set_code k x c0 c Hk Hx) as Hk1.
  unfold step. apply wp_bind. eapply wp_ok; [apply (fetch_ok k x i c); [by rewrite Hc | done] | ].
  destruct i; try done; cbn [exec]; apply negb_true_iff, bool_decide_eq_false in Hg.
  - eapply wp_mono; [by apply (Yield_saves c) | intros ? ? H; eexists; exact H].
  - eapply wp_mono; [by apply (Sleep_saves _ _ _ c) | intros ? ? H; eexists; exact H].
Qed.

End Switching.

(** ** Away and back *)

Section Back.
Context {D : Type}.
Notation K := (Kern D).
Implicit Types k : K.

Lemma kinv_ok k : kinv k -> machine_ok k.
Proof. by intros [? ? [[] ? ? ? ?] | ? [] | ? [] | []]. Qed.

Lemma kinv_machine k m m' : kinv k -> machine k = Some m -> regs_wf (registers m') -> kinv (with_machine k (Some m')).
Proof.
  intros Hk Em Hr. pose proof (fun c Hb => machine_step k c m m' Hb Em Hr) as H.
  destruct Hk as [lv c [Hb] Hw Hl | x Hb ? ? Hx | c Hb | Hb].
  - apply (InvRunning _ lv c); [ | done | done]. split; try done. by apply H.
  - apply (InvArrived _ x); try done. by apply H.
  - apply (InvSleeping _ c); try done. by apply H.
  - apply InvFinished; try done. by apply H.
Qed.

Context (t : nat) (R : list Z) (sp : AddrSpace).
Hypothesis HR : length R = Z.to_nat NumTotalRegs.

(** The running thread was put away with [R], and there is a machine. *)
Definition due_back k : Prop :=
  (exists m, machine k = Some m /\ length (registers m) = Z.to_nat NumTotalRegs) /\ currentThread k = t /\
  forall y, threads k !! t = Some y -> userRegisters y = R /\ space y = Some sp.

(** The machine as the thread left it *)
Definition restored k : Prop := exists m, machine k = Some m /\ registers m = R /\
  pageTable m = Some (space_pageTable sp) /\ pageTableSize m = numPages sp.

Lemma due_frame (f : K -> K) : (forall k, machine (f k) = machine k) -> (forall k, currentThread (f k) = currentThread k) ->
  (forall k, threads (f k) = threads k) -> keeps any_fault due_back anything (modify f).
Proof. intros H1 H2 H3 k Hk. apply wp_modify. split; [done | ]. unfold due_back. by rewrite H1, H2, H3. Qed.

Lemma due_Destroy : keeps any_fault due_back anything CheckToBeDestroyed.
Proof.
  unfold CheckToBeDestroyed. eapply keeps_bind; [by apply (keeps_gets anything) | intros [u | ] _]; [ | by apply (keeps_ret anything)].
  eapply keeps_bind with (P := anything); [ | intros _ _; by apply due_frame].
  unfold delete_Thread. do 2 (eapply keeps_bind; [first [by apply (keeps_gets anything) | by apply (keeps_lift anything)] | intros ? _]).
  intros k (H1 & H2 & H3). apply wp_modify. split; [done | ]. split_and!; [done | done | ].
  intros y Hy. simpl in Hy. apply lookup_delete_Some in Hy as [_ Hy]. by apply H3.
Qed.

Lemma Run_back_restores k : due_back k -> wp any_fault (fun _ => restored) Run_back k.
Proof.
  intros Hk. unfold Run_back. apply wp_bind, wp_gets. rewrite (proj1 (proj2 Hk)).
  apply (wp_then (I := due_back) (P := anything)); [ | done | clear k Hk; intros _ k _ Hk].
  { unfold assert_off, getLevel. eapply keeps_bind; [by apply (keeps_gets anything) | intros ? _; by apply (keeps_lift anything)]. }
  apply (wp_then (I := due_back) (P := anything)); [apply due_Destroy | done | clear k Hk; intros _ k _ Hk].
  destruct Hk as ((m & Em & Hl) & Hc & H). apply wp_bind. destruct (threads k !! t) as [y | ] eqn:Hy.
  2: { unfold get_thread, find, wp. run. by rewrite Hy. }
  destruct (H y eq_refl) as [Hr Hsp]. eapply wp_ok; [by apply (get_thread_ok k _ y) | ]. rewrite Hsp.
  apply wp_bind. unfold RestoreUserState. apply wp_bind. eapply wp_ok; [by apply (get_thread_ok k _ y) | ]. rewrite Hr.
  apply wp_safe. eapply wp_on_machine; [done | apply write_registers_ok; [lia | by rewrite HR | done] | ].
  apply wp_safe. eapply wp_on_machine; [done | done | ]. by eexists.
Qed.

End Back.

(** *** The theorem *)

Section Preserved.
Context {D : Type} {faulty : fault -> Prop}.
Notation K := (Kern D).
Implicit Types k : K.
Context (RandomNumber : D -> Z * D) (device : nat -> stM K unit) (request : nat -> Z -> stM K unit).
Context (procs : nat -> Z -> list instr) `{!DeviceOk faulty device, !RequestOk request, !DeviceHolds device request}.
Hypothesis Hclient : forall f a, forallb client (procs f a) = true.
Notation step := (step RandomNumber device request procs).

(** [away t k k']: from [k] to [k'], [t] does not run.  Others do: they take
    steps of the kernel, and their programs use the machine. *)
Inductive away (t : nat) : K -> K -> Prop :=
  | away_end k : away t k k
  | away_step k k1 k' : currentThread k <> t -> room k -> step k = Ok (tt, k1) -> away t k1 k' -> away t k k'
  | away_user k m m1 k' : currentThread k <> t -> machine k = Some m -> regs_wf (registers m1) ->
      away t (with_machine k (Some m1)) k' -> away t k k'.

Lemma away_held t R sp C k k' : away t k k' -> kinv k -> held t R sp C k -> kinv k' /\ held t R sp C k'.
Proof.
  induction 1 as [k | k k1 k' Hc Hr E _ IH | k m m1 k' Hc Em Hm _ IH]; intros Hk Hh; [done | apply IH | apply IH].
  - pose proof (step_inv RandomNumber device request procs Hclient k Hk Hr) as H. unfold wp in H. by rewrite E in H.
  - pose proof (step_away RandomNumber device request procs t R sp C k (conj Hh Hc)) as H. unfold wp in H. by rewrite E in H.
  - by eapply kinv_machine.
  - by eapply held_frame; [exact Hh | | ].
Qed.

(** C10: A user program does not see that it was switched out.  When a thread
    with an address space gives the processor away, then however long the other
    threads run and whatever they and their programs do to the machine, the
    thread's first step once it has the processor again leaves in the machine
    every register as it was when the thread gave way, and the page table of its
    own space. *)
Theorem user_state_preserved t k0 k1 k2 k3 m x sp
    (Hk : kinv k0) (Hroom : room k0) (Hcur : currentThread k0 = t)
    (Hx : threads k0 !! t = Some x) (Hsp : space x = Some sp) (Hm : machine k0 = Some m)
    (Hgive : gives_way k0 = true) (Hstep : step k0 = Ok (tt, k1))
    (Haway : away t k1 k2) (Hback : currentThread k2 = t) (Hstep2 : step k2 = Ok (tt, k3)) :
  exists m3, machine k3 = Some m3 /\ registers m3 = registers m /\
    pageTable m3 = Some (space_pageTable sp) /\ pageTableSize m3 = numPages sp.
Proof.
  pose proof (proj1 (kinv_ok k0 Hk) _ Hm) as Hw. pose proof (pl_next _ _ _ _ _ _ (kinv_places k0 Hk) t (ex_intro _ _ Hx)) as Hn.
  pose proof (gives_way_saves t m sp Hw RandomNumber device request procs k0 (code x)) as H. unfold wp in H. rewrite Hstep in H.
  destruct H as [C Hh]; [split_and!; [done.. | by exists x] | done | ].
  pose proof (step_inv RandomNumber device request procs Hclient k0 Hk Hroom) as H. unfold wp in H. rewrite Hstep in H.
  destruct (away_held t _ _ _ k1 k2 Haway H Hh) as [Hk2 [Hh2 _]].
  destruct (pl_cur _ _ _ _ _ _ (kinv_places k2 Hk2)) as [y Hy]. rewrite Hback in Hy.
  destruct (Hh2 y Hy) as (Hr & Hs & Hc). destruct (proj2 (kinv_ok k2 Hk2) t y sp Hy Hs) as [m2 Em2].
  pose proof (Run_back_restores t (registers m) sp (regs_length _ Hw) (set_code k2 y C)) as Hrun. unfold wp in Hrun.
  assert (E : Run_back (set_code k2 y C) = Ok (tt, k3)).
  { rewrite <- Hstep2. unfold Threads.step, mbind, stM_bind. by rewrite (fetch_ok k2 y Switched C) by (rewrite ?Hback; done). }
  rewrite E in Hrun. apply Hrun. split_and!; [ | done | ].
  - exists m2. split; [done | ]. apply regs_length. by apply (kinv_ok k2).
  - intros z Hz. simpl in Hz. rewrite Hback, lookup_insert_eq in Hz. by injection Hz as <-.
Qed.

End Preserved.

(** For the code of devices *)
Ltac hold_dev1 :=
  first [hold1 | match goal with
    | |- keeps _ _ _ (Schedule _ _ _) => apply hold_Schedule
    | |- keeps _ _ _ (V_handler _) => apply hold_V_handler
    end].

(** ** Programs as threads *)

#[global] Instance v_device_holds {D} : DeviceHolds (D := D) v_device no_request.
Proof.
  split; intros; [ | unfold no_request; hold]. intros k Hk. unfold v_device.
  apply wp_bind, wp_gets. case_match; [by apply hold_V_handler | by apply wp_ret].
Qed.

Section Programs.
Context {D : Type} (spaces : list AddrSpace).
Notation K := (Kern D).
Implicit Types k : K.

(** Request [d] starts the program of space [d]. *)
Definition exec_request (d : nat) (arg : Z) : stM K unit :=
  match spaces !! d with Some sp => Thread_Execute sp | None => lift (Fail AssertFail) end.

Lemma InitRegisters_ok sp m : length (registers m) = Z.to_nat NumTotalRegs ->
  exists m', InitRegisters sp (m, tt) = Ok (tt, (m', tt)) /\ regs_wf (registers m').
Proof.
  intros Hl. pose proof (start_ok sp m tt Hl) as E. pose proof (started_regs sp m) as Hr.
  generalize dependent (started m sp). intros ms E Hr. unfold mbind, stM_bind in E. destruct (InitRegisters sp (m, tt)) as [[[] [m' []]] | ]; [ | done].
  exists m'. split; [done | ]. injection E as E. by rewrite <- E in Hr.
Qed.

Lemma running_space k lv c x sp m :
  running k lv c -> threads k !! currentThread k = Some x -> machine k = Some m ->
  running (with_threads k (<[currentThread k := with_space x sp]> (threads k))) lv c.
Proof.
  intros Hr Hx Em. destruct (running_thread _ _ _ Hr) as (x' & Hx' & Hc & Hs). simplify_eq.
  pose proof (pl_stack _ _ _ _ _ _ (b_places _ _ (r_base _ _ _ Hr)) _ _ Hx) as Hsk.
  pose proof (pl_regs _ _ _ _ _ _ (b_places _ _ (r_base _ _ _ Hr)) _ _ Hx) as Hrg.
  destruct Hr as [[Hp Hcc Hm Hso Hn] ? ? ? ?]. split; try done.
  - split; try done.
    + eapply places_set; [done | done | exact Hsk | exact Hrg | by left | done].
    + eexists. simpl. rewrite lookup_insert_eq. by split.
    + split; [apply Hm | by eexists].
  - eexists. simpl. rewrite lookup_insert_eq. by split.
Qed.

Lemma running_machine k lv c m m' : running k lv c -> machine k = Some m -> regs_wf (registers m') ->
  running (with_machine k (Some m')) lv c.
Proof. intros [Hb ? ? ? ?] Em Hr. split; try done. by eapply machine_step. Qed.

#[global] Instance exec_request_ok : RequestOk exec_request.
Proof.
  intros d arg k lv c Hr _. unfold exec_request. destruct (spaces !! d) as [sp | ]; [ | by right].
  destruct (running_thread _ _ _ Hr) as (x & Hx & _). unfold Thread_Execute. apply wp_bind, wp_gets, wp_bind.
  eapply wp_ok; [by apply (upd_thread_ok k _ x) | ]. destruct (machine k) as [m | ] eqn:Em.
  2: { apply wp_bind. unfold on_machine. apply wp_bind, wp_gets. cbn [machine with_threads]. rewrite Em. by left. }
  pose proof (proj1 (b_machine _ _ (r_base _ _ _ Hr)) m Em) as Hm.
  destruct (InitRegisters_ok sp m (regs_length _ Hm)) as (m1 & E1 & Hm1).
  apply wp_safe, wp_bind. eapply wp_on_machine; [done | exact E1 | ].
  eapply wp_on_machine; [done | done | ]. exists []. split; [done | ].
  eapply running_machine; [eapply running_machine; [by eapply running_space | done | exact Hm1] | done | done].
Qed.

#[global] Instance exec_request_holds : DeviceHolds v_device exec_request.
Proof.
  split; intros; [apply (device_holds (request := no_request)) | ]. unfold exec_request, Thread_Execute.
  destruct (spaces !! d); [ | hold]. apply hold_current. intros v Hv. eapply keeps_bind; [by apply hold_upd | intros ? _].
  eapply keeps_bind; [apply hold_on_machine | intros ? _]. apply hold_on_machine.
Qed.

End Programs.

Definition space_of (pages : Z) : AddrSpace := mkAddrSpace (identity_entry <$> seqZ 0 NumPhysPages) pages.

(** Two threads run programs of two and of five pages and yield. *)
Definition program_procs (func : nat) (arg : Z) : list instr := [Request func arg; Yield].

Definition programs_kernel : Kern unit :=
  new_kernel tt false [mkPending TimerObj TimerTicks TimerInt] (Some (new_Machine 0))
    (Fork 1 0 :: program_procs 0 0).

Notation program_step := (step no_random v_device (exec_request [space_of 2; space_of 5]) program_procs).
Notation program_steps := (after_steps no_random v_device (exec_request [space_of 2; space_of 5]) program_procs).

(** The program that runs has [v] in a register. *)
Definition program_regs (v : Z) : list Z := <[7%nat := v]> (replicate (Z.to_nat NumTotalRegs) 0).
Definition poke (v : Z) (k : Kern unit) : Kern unit :=
  match machine k with Some m => with_machine k (Some (with_registers m (program_regs v))) | None => k end.

Lemma program_procs_client f a : forallb client (program_procs f a) = true.
Proof. reflexivity. Qed.

(** [n] steps while [t] does not run *)
Fixpoint away_for (t n : nat) (k : Kern unit) : option (Kern unit) :=
  match n with
  | O => Some k
  | S n' =>
      if bool_decide (currentThread k <> t) && has_room k then
        match program_step k with Ok (_, k') => away_for t n' k' | Fail _ => None end
      else None
  end.

Lemma away_for_away t n : forall k k1 k', away_for t n k = Some k1 ->
  away no_random v_device (exec_request [space_of 2; space_of 5]) program_procs t k1 k' ->
  away no_random v_device (exec_request [space_of 2; space_of 5]) program_procs t k k'.
Proof.
  induction n as [ | n IH]; intros k k1 k' E Ha; cbn [away_for] in E; [by injection E as -> | ].
  destruct (bool_decide _ && has_room k) eqn:Eb; [ | done].
  destruct (program_step k) as [[[] k2] | ] eqn:Es; [ | done]. apply andb_true_iff in Eb as [Ec Er].
  eapply away_step; [by apply bool_decide_eq_true in Ec | by apply has_room_ok | done | by eapply IH].
Qed.

Lemma program_regs_wf v : is_i32 v -> regs_wf (program_regs v).
Proof.
  intros Hv. split; [unfold program_regs; by rewrite length_insert | | by exists 0].
  apply Forall_insert; [apply (regs_i32 _ regs_zero) | done].
Qed.

Lemma poke_kinv v k m : is_i32 v -> kinv k -> machine k = Some m -> kinv (poke v k).
Proof. intros Hv Hk Em. unfold poke. rewrite Em. by eapply kinv_machine; [ | | apply program_regs_wf]. Qed.

(** The first program has 42 in a register when it gives way; the second puts
    9 there before it gives way in its turn. *)
Definition programs_run : option (Kern unit * Kern unit * Kern unit * Kern unit * Kern unit) :=
  k ← program_steps 6 programs_kernel;
  match program_step (poke 42 k) with
  | Ok (_, k1) =>
      ka ← away_for 0 3 k1;
      k2 ← away_for 0 1 (poke 9 ka);
      match program_step k2 with Ok (_, k3) => Some (k, k1, ka, k2, k3) | Fail _ => None end
  | Fail _ => None
  end.

Definition runs_first (k : Kern unit) : bool := bool_decide (currentThread k = 0%nat).
Definition has_machine (k : Kern unit) : bool := bool_decide (is_Some (machine k)).

Definition programs_ran : bool :=
  match programs_run with
  | Some (k, _, ka, k2, _) =>
      has_machine k && has_room (poke 42 k) && runs_first (poke 42 k) && gives_way (poke 42 k) &&
      has_machine ka && negb (runs_first ka) && runs_first k2 &&
      match threads (poke 42 k) !! 0%nat with
      | Some x => match space x with Some sp => numPages sp =? 2 | None => false end
      | None => false
      end
  | None => false
  end.

Lemma user_state_preserved_witness :
  exists k k1 ka k2 k3 m3, programs_run = Some (k, k1, ka, k2, k3) /\ machine k3 = Some m3 /\
    registers m3 = program_regs 42 /\ pageTableSize m3 = 2.
Proof.
  assert (H : programs_ran = true) by (vm_compute; reflexivity). unfold programs_ran in H.
  destruct programs_run as [[[[[k k1] ka] k2] k3] | ] eqn:Erun; [ | discriminate H].
  exists k, k1, ka, k2, k3. unfold programs_run in Erun.
  destruct (program_steps 6 programs_kernel) as [k' | ] eqn:Ek; [ | discriminate Erun]. cbn [mbind option_bind] in Erun.
  destruct (program_step (poke 42 k')) as [[[] k1'] | ] eqn:E1; [ | discriminate Erun].
  destruct (away_for 0 3 k1') as [ka' | ] eqn:Ea; [ | discriminate Erun]. cbn [mbind option_bind] in Erun.
  destruct (away_for 0 1 (poke 9 ka')) as [k2' | ] eqn:E2; [ | discriminate Erun]. cbn [mbind option_bind] in Erun.
  destruct (program_step k2') as [[[] k3'] | ] eqn:E3; [ | discriminate Erun]. injection Erun as -> -> -> -> ->.
  repeat (apply andb_true_iff in H as [H ?]). apply bool_decide_eq_true in H as [m Em].
  repeat match goal with E : has_machine ka = true |- _ => apply bool_decide_eq_true in E as [ma Ema]
    | E : runs_first _ = true |- _ => apply bool_decide_eq_true in E
    | E : negb (runs_first _) = true |- _ => apply negb_true_iff, bool_decide_eq_false in E end.
  destruct (threads (poke 42 k) !! 0%nat) as [x | ] eqn:Hx; [ | discriminate].
  destruct (space x) as [sp | ] eqn:Hsp; [ | discriminate].
  destruct (user_state_preserved no_random v_device (exec_request [space_of 2; space_of 5]) program_procs
    program_procs_client 0%nat (poke 42 k) k1 k2 k3 (with_registers m (program_regs 42)) x sp) as (m3 & Hm3 & Hr & _ & Hp); try assumption.
  - apply (poke_kinv 42 k m); [cint | | exact Em]. apply (reachable_inv no_random v_device (exec_request [space_of 2; space_of 5]) program_procs program_procs_client programs_kernel);
      [ | eapply after_steps_reachable; [apply reach_start | exact Ek]].
    apply new_kernel_inv; [reflexivity | by repeat constructor | ]. intros y [= <-]. apply regs_zero.
  - apply has_room_ok. assumption.
  - unfold poke. rewrite Em. reflexivity.
  - eapply away_for_away; [exact Ea | ]. eapply (away_user _ _ _ _ _ ka ma (with_registers ma (program_regs 9))); [assumption | exact Ema | apply (program_regs_wf 9); cint | ].
    replace (with_machine ka _) with (poke 9 ka) by (unfold poke; rewrite Ema; reflexivity).
    eapply away_for_away; [exact E2 | apply away_end].
  - exists m3. split_and!; [reflexivity | exact Hm3 | exact Hr | rewrite Hp; apply Z.eqb_eq; assumption].
Defined.
