(* ===== verification/Run.v ===== *)
(** * A user program runs as if it had the machine to itself
      (machine/mipssim.cc: [Machine::Run]; userprog/addrspace.cc: [Execute])

    [Machine::Run] executes an instruction of the program, lets the clock tick,
    and so on for ever.  At a tick interrupts are delivered, and the timer may
    give the processor to other threads.  This file puts the loop into the
    thread system and shows that a program whose thread is switched out in this
    way, with other threads of the kernel running in between, executes the same
    instructions with the same effects as one that is never interrupted, except
    that an interrupt completes a pending load.

    The devices of the kernel are those of the system calls, [Kernel], and
    others [X].  System calls are executed as one step: the console of [Kernel]
    does not make its caller wait.  The debugger's single step is in
    Debugger.v. *)

From S2P Require Import Prelude LinkedList Machine Mips MipsSafety FileSysStub Syscall SyscallNum SyscallSafety AddrSpace Threads ThreadsInv ThreadsSafe ThreadsTest Devices Tokens Fifo Switch.

(** Random numbers come from the other devices. *)
Definition RandomOf {S X} (Random : X -> Z * X) (d : S * X) : Z * (S * X) :=
  let '(z, x) := Random d.2 in (z, (d.1, x)).

Section Run.
Context {U C X : Type} (ux : UnixOps U) `{!Console C}.
Notation D := (Kernel U C * X)%type.
Notation K := (Kern D).
Implicit Types k : K.

(** [machine->pageTable] points to the table of the space of the running
    program: what the machine writes there is in the space. *)
Definition share_table (m : Machine) (x : Thread) : Thread :=
  match pageTable m with
  | Some pt => with_space x (mkAddrSpace pt (pageTableSize m))
  | None => x
  end.

(** The machine and the kernel's part in system calls, with the status that the
    interrupt module keeps *)
Definition on_user {A} (x : stM (Machine * Kernel U C) A) : stM K A :=
  m ← gets machine;
  m ← find m;
  d ← gets devices;
  st ← gets (fun k => status (interrupt k));
  '(a, s) ← lift (x (m, setStatus st d.1));
  modify (fun k => with_machine k (Some s.1));;
  modify (fun k => with_devices k (s.2, d.2));;
  set_status (Syscall.status s.2);;
  t ← gets currentThread;
  upd_thread t (share_table s.1);;
  mret a.

(** One round of the loop of [Machine::Run]: the thread's code goes on with
    [OneTick_], which ends the round, and the next round. *)
Definition Run_round : stM K unit :=
  on_user (OneInstruction setStatus (ExceptionHandler ux));;
  push [OneTick_; Request 0 0].

Definition Machine_Run : stM K unit :=
  set_status UserMode;;
  push [Request 0 0; OneTick_].

(** Request 0 is a round of [Machine::Run], and request [S i] is
    [AddrSpace::Execute] of space [i]. *)
Definition run_request (spaces : list AddrSpace) (d : nat) (arg : Z) : stM K unit :=
  match d with
  | O => Run_round
  | S i => match spaces !! i with Some sp => Thread_Execute sp;; Machine_Run | None => lift (Fail AssertFail) end
  end.

(** The program alone: for each element of [l] an instruction, and after it,
    where the element says so, an interrupt. *)
Fixpoint interrupted (l : list bool) : stM (Machine * Kernel U C) unit :=
  match l with
  | [] => mret tt
  | b :: l' =>
      OneInstruction setStatus (ExceptionHandler ux);;
      (if b then DelayedLoad 0 0 else mret tt);;
      interrupted l'
  end.

Lemma interrupted_app l l' s : interrupted (l ++ l') s = (interrupted l;; interrupted l') s.
Proof.
  revert s. induction l as [ | b l IH]; intros s; [done | ]. cbn [app interrupted]. unfold mbind, stM_bind in *.
  destruct (OneInstruction _ _ s) as [[[] s1] | ]; [ | done].
  destruct ((if b then DelayedLoad 0 0 else mret tt) s1) as [[[] s2] | ]; [ | done]. apply IH.
Qed.

End Run.

(** ** An interrupt completes a pending load, once *)

Lemma upd_id m n v : machine_wf m -> is_reg n -> reg m n = v -> upd m n v = m.
Proof.
  intros [[Hl _ _] _ _ _] Hn <-. unfold upd, reg, is_reg, NumTotalRegs in *.
  rewrite list_insert_id by (apply list_lookup_lookup_total_lt; lia). by destruct m.
Qed.

(** The machine before and after an interrupt *)
Definition flushed (m m' : Machine) : Prop := m' = m \/ m' = delayed m 0 0.

Lemma flushed_wf m m' : machine_wf m -> flushed m m' -> machine_wf m'.
Proof. intros Hm [-> | ->]; [done | ]. apply delayed_steps; [done | unfold NumGPRegs; lia | cint]. Qed.

Lemma delayed_twice m : machine_wf m -> delayed (delayed m 0 0) 0 0 = delayed m 0 0.
Proof.
  intros Hm. destruct (DelayedLoad_ok m tt 0 0 Hm) as (_ & Hw & H0); [unfold NumGPRegs; lia | cint | ].
  destruct (delayed_steps m 0 0 Hm) as (H1 & H2 & H3 & _); [unfold NumGPRegs; lia | cint | ].
  assert (HL : reg (delayed m 0 0) LoadReg = 0).
  { unfold delayed. rewrite reg_upd_ne, reg_upd_ne, reg_upd_eq by (done || regs). done. }
  assert (HV : reg (delayed m 0 0) LoadValueReg = 0).
  { unfold delayed. rewrite reg_upd_ne, reg_upd_eq by (done || regs). done. }
  unfold delayed at 1. rewrite HL, HV. set (m1 := delayed m 0 0) in *.
  rewrite (upd_id m1 0 0), (upd_id m1 LoadReg 0), (upd_id m1 LoadValueReg 0), (upd_id m1 0 0) by (done || regs). done.
Qed.

Lemma flushed_again m m' : machine_wf m -> flushed m m' -> flushed m (delayed m' 0 0).
Proof. intros Hm [-> | ->]; right; [done | by apply delayed_twice]. Qed.

(** ** Code that changes only registers *)

Definition same_but_regs (m m' : Machine) : Prop :=
  m' = with_registers m (registers m') /\ length (registers m') = length (registers m).

Lemma same_refl m : same_but_regs m m.
Proof. by destruct m. Qed.

Lemma same_trans m1 m2 m3 : same_but_regs m1 m2 -> same_but_regs m2 m3 -> same_but_regs m1 m3.
Proof. intros [E1 L1] [E2 L2]. split; [ | congruence]. rewrite E2, E1. done. Qed.

Definition regs_only {A} (x : stM (Machine * unit) A) : Prop :=
  forall s a s', x s = Ok (a, s') -> same_but_regs s.1 s'.1.

Lemma regs_only_bind {A B} (x : stM (Machine * unit) A) (f : A -> stM (Machine * unit) B) :
  regs_only x -> (forall a, regs_only (f a)) -> regs_only (x ≫= f).
Proof.
  intros Hx Hf s b s' E. unfold mbind, stM_bind in E. destruct (x s) as [[a s1] | ] eqn:E1; [ | done].
  eapply same_trans; [by eapply Hx | by eapply Hf].
Qed.

Lemma regs_only_ret {A} (a : A) : regs_only (mret a).
Proof. intros s b s' [= <- <-]. apply same_refl. Qed.

Lemma regs_only_lift {A} (r : res A) : regs_only (lift r).
Proof. intros s b s'. unfold lift. destruct r; [ | done]. intros [= <- <-]. apply same_refl. Qed.

Lemma regs_only_getreg n : regs_only (getreg n).
Proof. intros s b s'. unfold getreg. run. destruct (zget _ n); [ | done]. intros [= <- <-]. apply same_refl. Qed.

Lemma regs_only_setreg n v : regs_only (setreg n v).
Proof.
  intros s b s'. unfold setreg, zset. run. destruct (_ && _); [ | done]. intros [= <- <-].
  split; [done | ]. simpl. apply length_insert.
Qed.

Create HintDb regs_only.
#[export] Hint Resolve regs_only_bind regs_only_ret regs_only_lift regs_only_getreg regs_only_setreg : regs_only.

Lemma regs_only_DelayedLoad r v : regs_only (DelayedLoad r v).
Proof. unfold DelayedLoad. auto 12 with regs_only. Qed.

Lemma regs_only_write r : forall i, regs_only (write_registers i r).
Proof. induction r as [ | v r IH]; intros i; cbn [write_registers]; unfold WriteRegister; auto with regs_only. Qed.

Lemma regs_only_read l : regs_only (mapM ReadRegister l).
Proof. induction l as [ | n l IH]; simpl; unfold ReadRegister; auto 8 with regs_only. Qed.
#[export] Hint Resolve regs_only_DelayedLoad regs_only_write regs_only_read : regs_only.

(** ** What the kernel leaves alone

    Thread [t] runs the only user program.  Kernel code changes no memory and no
    table of the machine, and nothing of what system calls work on. *)

Section World.
Context {C0 X : Type}.
Notation D := (C0 * X)%type.
Notation K := (Kern D).
Implicit Types k : K.
Context (t : nat) (m : Machine) (sp : AddrSpace) (d : C0).

Definition space_for (u : nat) : option AddrSpace := if decide (u = t) then Some sp else None.

Definition world k : Prop :=
  (exists m', machine k = Some m' /\ same_but_regs m m') /\ (devices k).1 = d /\ (t < nextAddress k)%nat /\
  forall u x, threads k !! u = Some x -> space x = space_for u.

Notation wd m' := (keeps any_fault world anything m').

Lemma world_lift {A} (r : res A) : wd (lift r).
Proof. by apply keeps_lift. Qed.

Lemma world_frame (f : K -> K) :
  (forall k, threads (f k) = threads k) -> (forall k, nextAddress (f k) = nextAddress k) ->
  (forall k, machine (f k) = machine k) -> (forall k, devices (f k) = devices k) -> wd (modify f).
Proof. intros H1 H2 H3 H4 k Hk. apply wp_modify. split; [done | ]. unfold world. by rewrite H1, H2, H3, H4. Qed.

Lemma world_set k u x : world k -> space x = space_for u -> world (with_threads k (<[u := x]> (threads k))).
Proof.
  intros (H1 & H2 & H3 & H4) Hx. split_and!; [done | done | done | ]. intros v y Hy. simpl in Hy.
  apply lookup_insert_Some in Hy as [[-> <-] | [_ Hy]]; auto.
Qed.

Lemma world_upd u (f : Thread -> Thread) : (forall x, space (f x) = space x) -> wd (upd_thread u f).
Proof.
  intros Hf k Hk. unfold upd_thread, get_thread, put_thread, find, wp. run. destruct (threads k !! u) as [x | ] eqn:Hx; [ | done].
  split; [done | ]. apply world_set; [done | ]. rewrite Hf. by apply Hk.
Qed.

Lemma world_new_address : keeps any_fault world (fun u => u <> t) new_address.
Proof.
  intros k (H1 & H2 & H3 & H4). unfold new_address. apply wp_bind, wp_gets, wp_bind, wp_modify, wp_ret.
  split; [lia | ]. split_and!; [done | done | simpl; lia | done].
Qed.

Lemma world_machine k m1 m2 : world k -> machine k = Some m1 -> same_but_regs m1 m2 -> world (with_machine k (Some m2)).
Proof.
  intros ((m' & Em & Hm) & H2 & H3 & H4) E Hs. simplify_eq. split_and!; [ | done | done | done].
  exists m2. split; [done | by eapply same_trans].
Qed.

Lemma world_on_machine {A} (x : stM (Machine * unit) A) : regs_only x -> wd (on_machine x).
Proof.
  intros Hx k Hk. unfold on_machine, find, wp. run. destruct (machine k) as [m1 | ] eqn:Em; [ | done]. run.
  destruct (x (m1, tt)) as [[a s] | ] eqn:E; [ | done]. split; [done | ]. apply (world_machine k m1); [done | done | ].
  exact (Hx _ _ _ E).
Qed.

Hypothesis Hshare : pageTable m = Some (space_pageTable sp) /\ pageTableSize m = numPages sp.

(** The table that is restored is the one in place. *)
Lemma world_restore : wd (on_machine (RestoreState sp)).
Proof.
  intros k Hk. pose proof Hk as ((m1 & Em & Hm) & _). unfold on_machine, find, wp. run. rewrite Em. run.
  split; [done | ]. apply (world_machine k m1); [done | done | ]. destruct Hm as [E _]. destruct Hshare as [H1 H2].
  assert (H3 : pageTable m1 = Some (space_pageTable sp)) by (rewrite E; done).
  assert (H4 : pageTableSize m1 = numPages sp) by (rewrite E; done). split; [ | done].
  simpl. rewrite <- H3, <- H4. by destruct m1.
Qed.

End World.

Ltac wd1 :=
  match goal with
  | |- keeps _ _ _ (_ ≫= _) => eapply keeps_bind; [ | intros ? ?]
  | |- keeps _ _ ?P (mret _) => first [is_evar P; apply (keeps_ret anything); exact I | apply keeps_ret]
  | |- keeps _ _ _ (lift _) => apply world_lift
  | |- keeps _ _ _ (find _) => apply world_lift
  | |- keeps _ _ _ (gets _) => apply (keeps_gets anything); intros; exact I
  | |- keeps _ _ _ (modify _) => apply world_frame; by intros
  | |- keeps _ _ _ (upd_thread _ _) => apply world_upd; by intros
  | |- keeps _ _ _ new_address => apply world_new_address
  | |- keeps _ _ _ (on_machine _) => apply world_on_machine; solve [eauto with regs_only]
  | |- keeps _ _ _ (if _ then _ else _) => apply keeps_if; intros ?
  | |- keeps _ _ _ (match ?x with _ => _ end) => destruct x
  | |- anything _ => exact I
  end.
Create HintDb wd.
Ltac wd := repeat first [wd1 | solve [eauto with wd]
  | progress unfold push, get_thread, get_semaphore, get_lock, get_condition, get_synchList, put_semaphore,
      put_lock, put_condition, put_synchList, assert_off, getLevel, ChangeLevel, set_interrupt, set_status, set_pending,
      set_inHandler, set_yieldOnReturn, set_toBeDestroyed, set_readyList, list_Append, IsHeldByCurrentThread, Semaphore_P, Lock_Acquire,
      Condition_Wait, new_Semaphore, Condition_Broadcast, SynchList_RemoveFront, delete_Semaphore, new_SynchList,
      delete_SynchList, Interrupt_Halt, OneTick, Thread_Begin, Enable, Thread_Finish, Thread_Sleep, P_loop, set_holder,
      list_append, list_wait, list_take, SetLevel, ReadyToRun, Schedule, Semaphore_V, V_handler, V_call, Lock_Release,
      Condition_Signal, SynchList_Append, FindNextToRun, CheckOverflow, SaveUserState].

(** *** While the user thread ticks *)

Section Marked.
Context {D : Type}.
Notation K := (Kern D).
Implicit Types k : K.
Context (t : nat) (m : Machine) (st : MachineStatus) (c : list instr).

(** [t] is inside [OneTick], with [c] to do afterwards; the machine is [m], or
    that after an interrupt. *)
Definition marked k : Prop :=
  currentThread k = t /\ level_of k = IntOff /\ status (interrupt k) = st /\
  (exists m', machine k = Some m' /\ flushed m m') /\ exists x, threads k !! t = Some x /\ code x = c.

Notation mk m' := (keeps any_fault marked anything m').

Lemma marked_frame (f : K -> K) :
  (forall k, threads (f k) = threads k) -> (forall k, currentThread (f k) = currentThread k) ->
  (forall k, level_of (f k) = level_of k) -> (forall k, status (interrupt (f k)) = status (interrupt k)) ->
  (forall k, machine (f k) = machine k) -> mk (modify f).
Proof. intros H1 H2 H3 H4 H5 k Hk. apply wp_modify. split; [done | ]. unfold marked. by rewrite H1, H2, H3, H4, H5. Qed.

Lemma marked_upd u (f : Thread -> Thread) : (forall x, code (f x) = code x) -> mk (upd_thread u f).
Proof.
  intros Hf k (H1 & H2 & H3 & H4 & x & Hx & Hc). unfold upd_thread, get_thread, put_thread, find, wp. run.
  destruct (threads k !! u) as [y | ] eqn:Hy; [ | done]. split; [done | ]. split_and!; [done.. | ].
  destruct (decide (u = t)) as [-> | Hne]; [exists (f y) | exists x]; simpl.
  - rewrite lookup_insert_eq. simplify_eq. by rewrite Hf.
  - by rewrite lookup_insert_ne.
Qed.

Lemma marked_SetLevel : keeps any_fault marked (fun lv => lv = IntOff) (SetLevel IntOff).
Proof.
  intros k (H1 & H2 & H3 & H4 & H5). eapply wp_ok; [apply SetLevel_off | ]. split; [done | ]. by split_and!.
Qed.

Hypothesis Hm : machine_wf m.

Lemma marked_flush : mk (on_machine (DelayedLoad 0 0)).
Proof.
  intros k (H1 & H2 & H3 & (m' & Em & Hf) & H5). pose proof (flushed_wf m m' Hm Hf) as Hw.
  destruct (DelayedLoad_ok m' tt 0 0 Hw) as (E & _); [unfold NumGPRegs; lia | cint | ].
  apply wp_safe. eapply wp_on_machine; [exact Em | exact E | ]. split; [done | ]. split_and!; [done.. | | done].
  eexists. split; [done | by apply flushed_again].
Qed.

End Marked.

Ltac mk1 :=
  match goal with
  | |- keeps _ _ _ (_ ≫= _) => eapply keeps_bind; [ | intros ? ?]
  | |- keeps _ _ ?P (mret _) => first [is_evar P; apply (keeps_ret anything); exact I | apply keeps_ret; done]
  | |- keeps _ _ _ (lift _) => by apply (keeps_lift anything)
  | |- keeps _ _ _ (find _) => by apply (keeps_lift anything)
  | |- keeps _ _ _ (gets _) => apply (keeps_gets anything); intros; exact I
  | |- keeps _ _ _ (modify _) => apply marked_frame; by intros
  | |- keeps _ _ _ (upd_thread _ _) => apply marked_upd; by intros
  | |- keeps _ _ _ (SetLevel IntOff) => apply marked_SetLevel
  | |- keeps _ _ _ (if _ then _ else _) => apply keeps_if; intros ?
  | |- keeps _ _ _ (match ?x with _ => _ end) => destruct x
  | |- anything _ => exact I
  end.
Create HintDb mk.
Ltac mk := repeat first [mk1 | solve [eauto with mk]
  | progress unfold get_thread, get_semaphore, put_semaphore, assert_off, getLevel, set_interrupt, set_pending,
      set_inHandler, set_yieldOnReturn, set_readyList, list_Append, ReadyToRun, Schedule].

Section MarkedOperations.
Context {D : Type}.
Context (t : nat) (m : Machine) (st : MachineStatus) (c : list instr).
Notation mk m' := (keeps any_fault (marked (D := D) t m st c) anything m').

Lemma marked_Semaphore_V s : keeps any_fault (marked (D := D) t m st c) (fun lv => lv = IntOff) (Semaphore_V s).
Proof.
  unfold Semaphore_V. eapply keeps_bind; [apply marked_SetLevel | intros lv Hlv]. eapply keeps_bind; [mk | intros x _].
  eapply keeps_bind with (P := anything); [mk | intros ? _; by apply keeps_ret].
Qed.

Lemma marked_V_handler s : mk (V_handler s).
Proof.
  unfold V_handler. eapply keeps_bind; [apply marked_Semaphore_V | intros lv ->].
  eapply keeps_bind; [apply marked_SetLevel | intros ? _; by apply (keeps_ret anything)].
Qed.

End MarkedOperations.

Section WorldOperations.
Context {C0 X : Type} (Random : X -> Z * X).
Notation D := (C0 * X)%type.
Notation K := (Kern D).
Implicit Types k : K.
Context (t : nat) (m : Machine) (sp : AddrSpace) (d : C0).
Notation wd m' := (keeps any_fault (world (X := X) t m sp d) anything m').

Lemma world_new_Thread : wd new_Thread.
Proof.
  unfold new_Thread. eapply keeps_bind; [apply world_new_address | intros u Hu].
  eapply keeps_bind with (P := anything); [ | intros ? _; by apply (keeps_ret anything)].
  intros k Hk. apply wp_modify. split; [done | ]. apply world_set; [done | ]. unfold space_for. by rewrite decide_False.
Qed.

Lemma world_Fork u f : wd (Thread_Fork u f).
Proof. unfold Thread_Fork, StackAllocate. wd. Qed.

Lemma world_delete u : wd (modify (fun k => with_threads k (delete u (threads k)))).
Proof.
  intros k (H1 & H2 & H3 & H4). apply wp_modify. split; [exact I | ]. split_and!; [done | done | done | ].
  intros v y Hy. simpl in Hy. apply lookup_delete_Some in Hy as [_ Hy]. by apply H4.
Qed.

Lemma world_Destroy : wd CheckToBeDestroyed.
Proof. unfold CheckToBeDestroyed, delete_Thread. wd. apply world_delete. Qed.

(** A thread's space is [sp], or it has none. *)
Lemma world_get u : keeps any_fault (world (X := X) t m sp d) (fun x => space x = None \/ space x = Some sp) (get_thread u).
Proof.
  intros k Hk. unfold get_thread, find, wp. run. destruct (threads k !! u) as [x | ] eqn:Hx; [ | done]. split; [ | done].
  destruct Hk as (_ & _ & _ & H). rewrite (H u x Hx). unfold space_for. destruct (decide _); auto.
Qed.

Hypothesis Hshare : pageTable m = Some (space_pageTable sp) /\ pageTableSize m = numPages sp.

Lemma world_SaveState : wd (on_machine (SaveState sp)).
Proof. apply world_on_machine. apply regs_only_ret. Qed.

Lemma world_Run n b : wd (Scheduler_Run n b).
Proof.
  unfold Scheduler_Run. do 3 (eapply keeps_bind; [wd | intros ? _]). eapply keeps_bind; [apply world_get | intros x Hx].
  eapply keeps_bind with (P := anything); [ | intros ? _; wd].
  destruct Hx as [-> | ->]; [wd | ]. eapply keeps_bind; [wd | intros ? _]. apply world_SaveState.
Qed.

Lemma world_Run_back : wd Run_back.
Proof.
  unfold Run_back. do 2 (eapply keeps_bind; [wd | intros ? _]). eapply keeps_bind; [apply world_Destroy | intros ? _].
  eapply keeps_bind; [apply world_get | intros x Hx]. destruct Hx as [-> | ->]; [wd | ].
  eapply keeps_bind; [unfold RestoreUserState; wd | intros ? _]. by apply world_restore.
Qed.
#[local] Hint Resolve world_Run world_Run_back world_Fork world_new_Thread world_Destroy : wd.

(** Devices other than those of the system calls *)
Class DeviceAside (device : nat -> stM K unit) : Prop := {
  device_aside t m sp d i : keeps any_fault (world (X := X) t m sp d) anything (device i);
  device_marked t m st c i : keeps any_fault (marked t m st c) anything (device i)
}.

Context (device : nat -> stM K unit) (request : nat -> Z -> stM K unit) (procs : nat -> Z -> list instr) `{!DeviceAside device}.

Lemma world_SetInterrupt : wd (SetInterrupt (RandomOf Random)).
Proof.
  unfold SetInterrupt. eapply keeps_bind; [wd | intros tm _]. destruct (negb _); [ | wd].
  eapply keeps_bind with (P := anything); [ | intros ? _; wd]. destruct (randomize tm); [ | wd].
  intros k Hk. apply wp_bind, wp_gets. unfold RandomOf. destruct (Random (devices k).2) as [z x].
  apply wp_bind, wp_modify, wp_ret. split; [done | ]. destruct Hk as (? & ? & ? & ?). by split_and!.
Qed.
#[local] Hint Resolve world_SetInterrupt : wd.

Lemma world_CallBack o : wd (CallBack (RandomOf Random) device o).
Proof.
  destruct o as [ | i]; cbn [CallBack]; [ | apply device_aside]. unfold Timer_CallBack, Alarm_CallBack, YieldOnReturn. wd.
Qed.
#[local] Hint Resolve world_CallBack : wd.

Lemma world_fire_loop fuel : wd (fire_loop (RandomOf Random) device fuel).
Proof. induction fuel as [ | fuel IH]; cbn [fire_loop]; wd. Qed.
#[local] Hint Resolve world_fire_loop : wd.

Lemma world_CheckIfDue adv : wd (CheckIfDue (RandomOf Random) device adv).
Proof. unfold CheckIfDue, fire. wd. Qed.
#[local] Hint Resolve world_CheckIfDue : wd.

Lemma world_exec i : (forall d' a, i <> Request d' a) -> wd (exec (RandomOf Random) device request procs i).
Proof.
  intros Hi. destruct i; cbn [exec]; unfold Thread_Yield, Sleep_loop, Idle; try (by destruct (Hi d0 arg)); wd.
Qed.

(** *** Ticking *)

Context (st : MachineStatus) (c : list instr).
Hypothesis Hm : machine_wf m.
Notation mk m' := (keeps any_fault (marked (D := D) t m st c) anything m').

Lemma marked_CallBack o : mk (CallBack (RandomOf Random) device o).
Proof.
  destruct o as [ | i]; cbn [CallBack]; [ | apply device_marked].
  unfold Timer_CallBack, Alarm_CallBack, YieldOnReturn, SetInterrupt. mk.
Qed.
#[local] Hint Resolve marked_CallBack marked_flush : mk.

Lemma marked_fire_loop fuel : mk (fire_loop (RandomOf Random) device fuel).
Proof. induction fuel as [ | fuel IH]; cbn [fire_loop]; mk. Qed.
#[local] Hint Resolve marked_fire_loop : mk.

Lemma marked_CheckIfDue adv : mk (CheckIfDue (RandomOf Random) device adv).
Proof. unfold CheckIfDue, fire. mk. Qed.

End WorldOperations.

(** ** The user thread's own code *)

(** What the thread does between two instructions of its program *)
Definition between (i : instr) : bool :=
  match i with OneTick_ | Yield | SetStatus_ _ | SetLevel_ _ => true | _ => false end.

(** The status when [p] has been executed *)
Fixpoint final (p : list instr) (st : MachineStatus) : MachineStatus :=
  match p with [] => st | SetStatus_ st' :: p' => final p' st' | _ :: p' => final p' st end.

Definition restores (p : list instr) : bool := existsb (fun i => match i with SetStatus_ _ => true | _ => false end) p.

(** The status is set again after each [Yield]. *)
Fixpoint covered (p : list instr) : bool :=
  match p with [] => true | Yield :: p' => restores p' && covered p' | _ :: p' => covered p' end.

Lemma final_restores p st st' : restores p = true -> final p st = final p st'.
Proof. revert st st'. induction p as [ | i p IH]; intros st st'; [done | ]. destruct i; cbn; auto. Qed.

Definition loop_code (c : list instr) : list instr := Request 0 0 :: OneTick_ :: c.

Section Sliced.
Context {U C X : Type} (ux : UnixOps U) `{!Console C} (Random : X -> Z * X).
Notation St := (Machine * Kernel U C)%type.
Notation K := (Kern (Kernel U C * X)).
Implicit Types (k : K) (s : St).
Context (device : nat -> stM K unit) (procs : nat -> Z -> list instr) (spaces : list AddrSpace).
Context `{!DeviceAside device, !DeviceHolds device no_request}.
Notation request := (run_request ux spaces).
Notation step := (step (RandomOf Random) device request procs).

(** *** The run of the program *)

Definition ran (s0 : St) (l : list bool) (s : St) : Prop := interrupted ux l s0 = Ok (tt, s).

Lemma instruction_inv s s' : user_inv kernel_inv s ->
  OneInstruction setStatus (ExceptionHandler ux) s = Ok (tt, s') -> user_inv kernel_inv s'.
Proof.
  destruct s as [m d]. intros Hs E. pose proof (OneInstruction_inv setStatus (ExceptionHandler ux) ends kernel_inv m d Hs) as H.
  unfold wp in H. by rewrite E in H.
Qed.

Lemma flush_ok s : machine_wf s.1 -> DelayedLoad 0 0 s = Ok (tt, (delayed s.1 0 0, s.2)).
Proof. destruct s as [m d]. intros Hm. apply DelayedLoad_ok; [done | unfold NumGPRegs; lia | cint]. Qed.

Lemma flush_inv s : user_inv kernel_inv s -> user_inv kernel_inv (delayed s.1 0 0, s.2).
Proof.
  intros (Hm & _ & Hk). destruct (DelayedLoad_ok s.1 s.2 0 0 Hm) as (_ & ? & ?); [unfold NumGPRegs; lia | cint | ].
  by split_and!.
Qed.

Lemma ran_inv s0 l s : user_inv kernel_inv s0 -> ran s0 l s -> user_inv kernel_inv s.
Proof.
  unfold ran. revert s0. induction l as [ | b l IH]; intros s0 H0 E; cbn [interrupted] in E; [by injection E as <- | ].
  unfold mbind, stM_bind in E. destruct (OneInstruction _ _ s0) as [[[] s1] | ] eqn:E1; [ | done].
  pose proof (instruction_inv s0 s1 H0 E1) as H1. destruct b; [ | by eapply IH].
  rewrite flush_ok in E by apply H1. eapply IH; [by apply flush_inv | exact E].
Qed.

Lemma ran_snoc s0 l b s : ran s0 (l ++ [b]) s <-> exists s1 s2, ran s0 l s1 /\
  OneInstruction setStatus (ExceptionHandler ux) s1 = Ok (tt, s2) /\ (if b then DelayedLoad 0 0 s2 else Ok (tt, s2)) = Ok (tt, s).
Proof.
  unfold ran. rewrite interrupted_app. cbn [interrupted]. unfold mbind, stM_bind.
  destruct (interrupted ux l s0) as [[[] s1] | ]; [ | split; [done | by intros (? & ? & ? & _)]].
  split.
  - destruct (OneInstruction _ _ s1) as [[[] s2] | ] eqn:E1; [ | done]. intros E. exists s1, s2. split_and!; [done | done | ].
    destruct b; [ | done]. by destruct (DelayedLoad 0 0 s2) as [[[] ?] | ].
  - intros (s1' & s2 & [= <-] & -> & E). destruct b; [ | done]. by rewrite E.
Qed.

(** An interrupt after the last instruction *)
Lemma ran_flush s0 l s m' : user_inv kernel_inv s0 -> ran s0 l s -> l <> [] -> flushed s.1 m' ->
  exists l', length l' = length l /\ ran s0 l' (m', s.2).
Proof.
  intros H0 Hl Hne [-> | ->]; [exists l; by destruct s | ]. destruct (exists_last Hne) as (l1 & b & ->).
  exists (l1 ++ [true]). split; [by rewrite !length_app | ]. apply ran_snoc in Hl as (s1 & s2 & Hs1 & E1 & E2).
  pose proof (instruction_inv s1 s2 (ran_inv _ _ _ H0 Hs1) E1) as (Hw & _).
  apply ran_snoc. exists s1, s2. split_and!; [done | done | ]. rewrite flush_ok by done. destruct b.
  - rewrite flush_ok in E2 by done. injection E2 as <-. cbn [fst snd]. by rewrite delayed_twice.
  - injection E2 as <-. by destruct s2.
Qed.

(** *** The thread and the program *)

Context (t : nat).

Definition shares (m : Machine) (sp : AddrSpace) : Prop :=
  pageTable m = Some (space_pageTable sp) /\ pageTableSize m = numPages sp.

(** [t] has the processor and the machine is that of the program. *)
Record live s (p c : list instr) k : Prop := {
  lv_current : currentThread k = t;
  lv_machine : machine k = Some s.1;
  lv_kernel : setStatus (final p (status (interrupt k))) (devices k).1 = s.2;
  lv_code : exists x, threads k !! t = Some x /\ code x = p ++ loop_code c;
  lv_world : exists sp, shares s.1 sp /\ world t s.1 sp (devices k).1 k
}.

(** [t] is switched out. *)
Record gone s (p c : list instr) k : Prop := {
  gn_kernel : setStatus (final p SystemMode) (devices k).1 = s.2;
  gn_restores : restores p = true;
  gn_world : exists sp, shares s.1 sp /\ held t (registers s.1) (Some sp) (Switched :: p ++ loop_code c) k /\
    world t s.1 sp (devices k).1 k
}.

(** After [n] instructions *)
Definition follows (s0 : St) (n : nat) k : Prop :=
  exists l s p c, length l = n /\ ran s0 l s /\ forallb between p = true /\ covered p = true /\ (l = [] -> p = []) /\
    (live s p c k \/ gone s p c k).

Lemma world_set_code m sp d k x c : world t m sp d k -> threads k !! currentThread k = Some x -> world t m sp d (set_code k x c).
Proof. intros Hw Hx. apply world_set; [done | ]. apply (proj2 (proj2 (proj2 Hw)) _ _ Hx). Qed.

(** A step other than a round of [Machine::Run] *)
Definition ordinary k : Prop := forall d a, next_instr k <> Some (Request d a).

Lemma step_ordinary k : ordinary k -> step k = Threads.step (RandomOf Random) device no_request procs k.
Proof.
  intros Ho. unfold Threads.step, mbind, stM_bind. destruct (fetch k) as [[i k1] | ] eqn:E; [ | done].
  destruct i; try done. exfalso. unfold fetch, get_thread, find, mbind, stM_bind, gets, lift in E. unfold ordinary, next_instr in Ho.
  destruct (threads k !! currentThread k) as [x | ]; [ | done]. cbn in E, Ho. destruct (code x) as [ | i c]; [done | ].
  injection E as -> _. by apply (Ho d arg).
Qed.

Lemma world_step m sp d k : shares m sp -> world t m sp d k -> ordinary k -> wp any_fault (fun _ => world t m sp d) step k.
Proof.
  intros Hsh Hw Ho. unfold wp. rewrite (step_ordinary k Ho). change (wp any_fault (fun _ => world t m sp d)
    (Threads.step (RandomOf Random) device no_request procs) k).
  destruct (threads k !! currentThread k) as [x | ] eqn:Hx.
  2: { unfold wp, Threads.step, fetch, get_thread, find. run. by rewrite Hx. }
  destruct (code x) as [ | i c] eqn:Hc.
  { unfold wp, Threads.step, mbind, stM_bind. unfold fetch, mbind, stM_bind, gets. by rewrite (get_thread_ok k _ x), Hc. }
  unfold Threads.step. apply wp_bind. eapply wp_ok; [by apply (fetch_ok k x i c) | ].
  eapply wp_mono; [apply (world_exec Random t m sp d Hsh device no_request procs i) | by intros ? ? [_ ?]].
  - intros d' a ->. apply (Ho d' a). unfold next_instr. rewrite Hx. cbn. by rewrite Hc.
  - by apply world_set_code.
Qed.

Lemma gone_step s p c k k' : gone s p c k -> currentThread k <> t -> ordinary k -> step k = Ok (tt, k') -> gone s p c k'.
Proof.
  intros [H1 H2 (sp & Hsh & Hh & Hw)] Hc Ho E. pose proof (world_step s.1 sp _ k Hsh Hw Ho) as H. unfold wp in H. rewrite E in H.
  pose proof (proj1 (proj2 H)) as Ed. rewrite step_ordinary in E by done.
  pose proof (step_away (RandomOf Random) device no_request procs t _ _ _ k (conj Hh Hc)) as H'. unfold wp in H'. rewrite E in H'.
  split; [by rewrite Ed | done | ]. exists sp. by rewrite Ed.
Qed.

(** *** The thread runs again *)

Definition coded (c : list instr) k : Prop := currentThread k = t /\ exists x, threads k !! t = Some x /\ code x = c.

Lemma coded_frame c (f : K -> K) : (forall k, threads (f k) = threads k) -> (forall k, currentThread (f k) = currentThread k) ->
  keeps any_fault (coded c) anything (modify f).
Proof. intros H1 H2 k Hk. apply wp_modify. split; [done | ]. unfold coded. by rewrite H1, H2. Qed.

Lemma coded_machine c {A} (x : stM (Machine * unit) A) : keeps any_fault (coded c) anything (on_machine x).
Proof.
  unfold on_machine. repeat (eapply keeps_bind; [first [by apply (keeps_gets anything) | by apply (keeps_lift anything)] | intros ? _]).
  match goal with |- keeps _ _ _ (let '(_, _) := ?r in _) => destruct r end.
  eapply keeps_bind; [by apply coded_frame | intros ? _; by apply (keeps_ret anything)].
Qed.

Lemma coded_delete c u : keeps any_fault (coded c) anything (delete_Thread u).
Proof.
  intros k [Hc (x & Hx & Hcode)]. unfold delete_Thread. apply wp_bind, wp_gets, wp_bind. unfold wp at 1, lift, ASSERT.
  destruct (bool_decide_reflect (u = currentThread k)) as [ | Hne]; [done | ]. apply wp_modify. split; [done | ]. split; [done | ].
  exists x. split; [ | done]. simpl. rewrite lookup_delete_ne; [done | congruence].
Qed.

Lemma coded_Run_back c : keeps any_fault (coded c) anything Run_back.
Proof.
  unfold Run_back. eapply keeps_bind; [by apply (keeps_gets anything) | intros u _].
  eapply keeps_bind; [unfold assert_off, getLevel; eapply keeps_bind; [by apply (keeps_gets anything) | intros ? _; by apply (keeps_lift anything)] | intros ? _].
  eapply keeps_bind with (P := anything); [ | intros ? _].
  { unfold CheckToBeDestroyed. eapply keeps_bind; [by apply (keeps_gets anything) | intros [v | ] _]; [ | by apply (keeps_ret anything)].
    eapply keeps_bind; [apply coded_delete | intros ? _]. by apply coded_frame. }
  eapply keeps_bind with (P := anything); [ | intros x _].
  { unfold get_thread. eapply keeps_bind; [by apply (keeps_gets anything) | intros ? _; by apply (keeps_lift anything)]. }
  destruct (space x); [ | by apply (keeps_ret anything)]. eapply keeps_bind with (P := anything); [ | intros ? _; apply coded_machine].
  unfold RestoreUserState, get_thread. eapply keeps_bind; [ | intros ? _; apply coded_machine].
  eapply keeps_bind; [by apply (keeps_gets anything) | intros ? _; by apply (keeps_lift anything)].
Qed.

Lemma step_at k x i c : currentThread k = t -> threads k !! t = Some x -> code x = i :: c ->
  step k = exec (RandomOf Random) device request procs i (set_code k x c).
Proof.
  intros <- Hx Hc. unfold Threads.step, mbind, stM_bind. by rewrite (fetch_ok k x i c Hx Hc).
Qed.

Lemma coded_set_code k x c : currentThread k = t -> threads k !! t = Some x -> coded c (set_code k x c).
Proof. intros Hc Hx. split; [done | ]. exists (with_code x c). simpl. by rewrite Hc, lookup_insert_eq. Qed.

Lemma back_step s p c k k' : user_inv kernel_inv s -> gone s p c k -> currentThread k = t -> step k = Ok (tt, k') -> live s p c k'.
Proof.
  intros Hs [H1 H2 (sp & Hsh & Hh & Hw)] Hc E.
  destruct (threads k !! t) as [x | ] eqn:Hx.
  2: { exfalso. unfold Threads.step, fetch, get_thread, find in E. run. by rewrite Hc, Hx in E. }
  destruct (proj1 Hh x Hx) as (Hr & Hsp & Hcode). rewrite (step_at k x Switched (p ++ loop_code c)) in E by done. cbn [exec] in E.
  set (k1 := set_code k x (p ++ loop_code c)) in *.
  assert (Hw1 : world t s.1 sp (devices k).1 k1) by (apply world_set_code; [done | by rewrite Hc]).
  pose proof (world_Run_back t s.1 sp (devices k).1 Hsh k1 Hw1) as H. unfold wp in H. rewrite E in H. destruct H as [_ H].
  pose proof (coded_Run_back _ k1 (coded_set_code k x _ Hc Hx)) as Hcd. unfold wp in Hcd. rewrite E in Hcd. destruct Hcd as [_ [Hcd1 Hcd2]].
  pose proof (proj1 (proj2 H)) as Ed. destruct Hs as (Hwf & _). pose proof (regs_length _ (wf_regs _ Hwf)) as Hl.
  pose proof (Run_back_restores t (registers s.1) sp Hl k1) as Hrest. unfold wp in Hrest. rewrite E in Hrest.
  destruct Hrest as (m3 & Em3 & Hr3 & _).
  { destruct Hw1 as ((m1 & Em1 & _ & Hl1) & _). split_and!; [exists m1; split; [done | congruence] | done | ].
    intros y Hy. simpl in Hy. rewrite Hc, lookup_insert_eq in Hy. by injection Hy as <-. }
  split; [done | | | done | exists sp; by rewrite Ed].
  - destruct H as ((m4 & Em4 & Em & _) & _). rewrite Em4 in Em3. injection Em3 as ->. rewrite Em4, Em, Hr3. by destruct s.1.
  - rewrite Ed, <- H1. f_equal. by apply final_restores.
Qed.

(** *** The thread's own steps *)

(** [t] runs, with [q] to do, on machine [m] in status [st]. *)
Definition on (m : Machine) (q : list instr) (st : MachineStatus) k : Prop :=
  machine k = Some m /\ status (interrupt k) = st /\ coded q k.

Lemma on_push p m q st k : on m q st k -> wp any_fault (fun _ => on m (p ++ q) st) (push p) k.
Proof.
  intros (H1 & H2 & H3 & x & Hx & Hc). unfold push. apply wp_bind, wp_gets. rewrite H3.
  eapply wp_ok; [by apply (upd_thread_ok k _ x) | ]. split; [done | ]. split; [done | ]. split; [done | ].
  eexists. simpl. rewrite lookup_insert_eq. split; [done | ]. simpl. by rewrite Hc.
Qed.

Lemma shares_same m m' sp : same_but_regs m m' -> shares m sp -> shares m' sp.
Proof. intros [-> _] [? ?]. done. Qed.

Lemma world_here m m' sp d k : world t m sp d k -> machine k = Some m' -> world t m' sp d k /\ same_but_regs m m'.
Proof.
  intros ((m1 & E1 & Hs) & H2 & H3 & H4) E. assert (m1 = m') as -> by congruence. split; [ | done]. split_and!; [ | done..].
  exists m'. split; [done | apply same_refl].
Qed.

Lemma live_on s m' p c k k' sp st : shares s.1 sp -> world t s.1 sp (devices k).1 k' -> on m' (p ++ loop_code c) st k' ->
  setStatus (final p st) (devices k).1 = s.2 -> live (m', s.2) p c k'.
Proof.
  intros Hsh Hw (Hm & Hst & Hc & x & Hx & Hcode) Hk. destruct (world_here _ _ _ _ _ Hw Hm) as [Hw' Hsame].
  pose proof (proj1 (proj2 Hw)) as Ed. split; cbn [fst snd]; [done | done | by rewrite Hst, Ed | by exists x | ].
  exists sp. rewrite Ed. split; [by eapply shares_same | done].
Qed.

Lemma live_start s i p c k : live s (i :: p) c k -> exists k1 sp, step k = exec (RandomOf Random) device request procs i k1 /\
  on s.1 (p ++ loop_code c) (status (interrupt k)) k1 /\ devices k1 = devices k /\ level_of k1 = level_of k /\ ready_of k1 = ready_of k /\
  shares s.1 sp /\ world t s.1 sp (devices k).1 k1.
Proof.
  intros [H1 H2 H3 (x & Hx & Hc) (sp & Hsh & Hw)]. exists (set_code k x (p ++ loop_code c)), sp.
  split_and!; try done; [by apply step_at | split; [done | split; [done | by apply coded_set_code]] | ].
  apply world_set_code; [done | by rewrite H1].
Qed.

Lemma live_ordinary s i p c k : live s (i :: p) c k -> between i = true -> ordinary k.
Proof.
  intros [H1 _ _ (x & Hx & Hc) _] Hi d a. unfold next_instr. rewrite H1, Hx. cbn. rewrite Hc. cbn. by destruct i.
Qed.

Lemma exec_world m sp d i k1 k' : shares m sp -> world t m sp d k1 -> between i = true ->
  exec (RandomOf Random) device request procs i k1 = Ok (tt, k') -> world t m sp d k'.
Proof.
  intros Hsh Hw Hi E. pose proof (world_exec Random t m sp d Hsh device request procs i) as H.
  specialize (H ltac:(by intros ? ? ->) k1 Hw). unfold wp in H. rewrite E in H. apply H.
Qed.

Lemma live_SetStatus s st p c k k' : live s (SetStatus_ st :: p) c k -> step k = Ok (tt, k') -> live s p c k'.
Proof.
  intros Hl E. pose proof (lv_kernel _ _ _ _ Hl) as Hk.
  destruct (live_start _ _ _ _ _ Hl) as (k1 & sp & E1 & (Hm & _ & Hc) & _ & _ & _ & Hsh & Hw). rewrite E1 in E.
  pose proof (exec_world _ _ _ (SetStatus_ st) _ _ Hsh Hw eq_refl E) as Hw'. injection E as <-. destruct s as [m d].
  by apply (live_on (m, d) m p c k _ sp st).
Qed.

Lemma live_SetLevel s lv p c k k' : live s (SetLevel_ lv :: p) c k -> step k = Ok (tt, k') ->
  live s p c k' \/ live s (OneTick_ :: p) c k'.
Proof.
  intros Hl E. pose proof (lv_kernel _ _ _ _ Hl) as Hk.
  destruct (live_start _ _ _ _ _ Hl) as (k1 & sp & E1 & Hon & _ & _ & _ & Hsh & Hw). rewrite E1 in E.
  pose proof (exec_world _ _ _ (SetLevel_ lv) _ _ Hsh Hw eq_refl E) as Hw'. set (st := status (interrupt k)) in *.
  assert (H : wp any_fault (fun _ k2 => on s.1 (p ++ loop_code c) st k2 \/ on s.1 ((OneTick_ :: p) ++ loop_code c) st k2)
    (exec (RandomOf Random) device request procs (SetLevel_ lv)) k1).
  { cbn [exec]. unfold SetLevel. apply wp_bind, wp_bind. unfold getLevel. apply wp_gets, wp_bind, wp_gets, wp_bind.
    unfold wp at 1, lift, ASSERT. destruct (_ || _); [ | done]. unfold ChangeLevel, set_interrupt. apply wp_bind, wp_modify, wp_bind.
    destruct (_ && _).
    - eapply wp_mono; [by apply (on_push [OneTick_] s.1 (p ++ loop_code c) st) | ].
      intros [] k2 Hk2. apply wp_ret, wp_ret. by right.
    - apply wp_ret, wp_ret, wp_ret. by left. }
  unfold wp in H. rewrite E in H. destruct s as [m d]. destruct H as [H | H]; [left | right]; by eapply (live_on (m, d) m).
Qed.

Lemma tick_marked m q st k : on m q st k -> machine_wf m ->
  wp any_fault (fun _ k' => exists m', flushed m m' /\ (on m' q st k' \/ on m' (Yield :: SetStatus_ st :: q) SystemMode k'))
    (OneTick (RandomOf Random) device) k.
Proof.
  intros (Hm & Hst & Hc & x & Hx & Hcode) Hwf. unfold OneTick. apply wp_bind, wp_gets. rewrite Hst.
  apply wp_bind, wp_modify, wp_bind. unfold ChangeLevel, set_interrupt. apply wp_modify.
  apply (wp_then (I := marked t m st q) (P := anything)).
  { by apply marked_CheckIfDue. }
  { split; [done | ]. split; [done | ]. split; [done | ]. split; [exists m; split; [done | by left] | by exists x]. }
  intros b k1 _ (G1 & G2 & G3 & (m' & Em & Hf) & y & Hy & Hcy). apply wp_bind, wp_modify, wp_bind, wp_gets.
  destruct (yieldOnReturn _).
  - unfold set_yieldOnReturn, set_status, set_interrupt. apply wp_bind, wp_modify, wp_bind, wp_modify.
    eapply wp_mono; [apply (on_push [Yield; SetStatus_ st] m' q SystemMode); split; [done | ]; split; [done | ]; split; [done | by exists y] | ].
    intros [] k2 Hk2. exists m'. split; [done | by right].
  - apply wp_ret. exists m'. split; [done | left]. split; [done | ]. split; [done | ]. split; [done | by exists y].
Qed.

Lemma live_OneTick s p c k k' : user_inv kernel_inv s -> live s (OneTick_ :: p) c k -> step k = Ok (tt, k') ->
  exists m', flushed s.1 m' /\ (live (m', s.2) p c k' \/
    live (m', s.2) (Yield :: SetStatus_ (status (interrupt k)) :: p) c k').
Proof.
  intros (Hwf & _) Hl E. pose proof (lv_kernel _ _ _ _ Hl) as Hk.
  destruct (live_start _ _ _ _ _ Hl) as (k1 & sp & E1 & Hon & _ & _ & _ & Hsh & Hw). rewrite E1 in E.
  pose proof (exec_world _ _ _ OneTick_ _ _ Hsh Hw eq_refl E) as Hw'. set (st := status (interrupt k)) in *.
  pose proof (tick_marked s.1 (p ++ loop_code c) st k1 Hon Hwf) as H. unfold wp in H. cbn [exec] in E. rewrite E in H.
  destruct H as (m' & Hf & H). exists m'. split; [done | ].
  destruct H as [H | H]; [left | right]; by eapply live_on.
Qed.

Lemma live_Yield s p c k k' : user_inv kernel_inv s -> live s (Yield :: p) c k -> restores p = true -> step k = Ok (tt, k') ->
  live s (SetLevel_ (level_of k) :: p) c k' \/ gone s (SetLevel_ (level_of k) :: p) c k'.
Proof.
  intros (Hwf & _) Hl Hr E. pose proof (lv_kernel _ _ _ _ Hl) as Hk.
  destruct (live_start _ _ _ _ _ Hl) as (k1 & sp & E1 & Hon & _ & Elv & Erd & Hsh & Hw). rewrite E1 in E.
  pose proof (exec_world _ _ _ Yield _ _ Hsh Hw eq_refl E) as Hw'. set (st := status (interrupt k)) in *. cbn [exec] in E.
  rewrite <- Elv. destruct (decide (ready_of k1 = [])) as [Er | Er].
  - left. assert (H : wp any_fault (fun _ => on s.1 ((SetLevel_ (level_of k1) :: p) ++ loop_code c) st) Thread_Yield k1).
    { unfold Thread_Yield. apply wp_bind. eapply wp_ok; [apply SetLevel_off | ]. apply wp_bind, wp_gets, wp_bind.
      eapply wp_ok; [by apply FindNext_nil | ]. apply wp_bind.
      eapply wp_mono; [by apply (on_push [SetLevel_ (level_of k1)] s.1 (p ++ loop_code c) st) | ]. intros [] k2 Hk2. by apply wp_ret. }
    unfold wp in H. rewrite E in H. destruct s as [m d]. by eapply (live_on (m, d) m).
  - right. destruct Hon as (Hm & _ & Hc & x & Hx & Hcode).
    assert (Hu : in_use t s.1 (uses sp (p ++ loop_code c)) k1).
    { destruct Hw as (_ & _ & Hn & Hsp). split_and!; [done | done | done | ]. exists x. split; [done | ]. split; [ | done].
      rewrite (Hsp t x Hx). unfold space_for. by rewrite decide_True. }
    pose proof (Yield_saves t s.1 sp (wf_regs _ Hwf) (p ++ loop_code c) k1 Hu Er) as H. unfold wp in H. rewrite E in H.
    pose proof (proj1 (proj2 Hw')) as Ed. split; [ | done | exists sp; by rewrite Ed].
    rewrite Ed, <- Hk. cbn [final]. f_equal. by apply final_restores.
Qed.

(** An instruction of the program *)
Lemma round_live s c k1 sp : user_inv kernel_inv s -> on s.1 (OneTick_ :: c) (status (interrupt k1)) k1 ->
  setStatus (status (interrupt k1)) (devices k1).1 = s.2 -> world t s.1 sp (devices k1).1 k1 ->
  wp any_fault (fun _ k' => exists s', OneInstruction setStatus (ExceptionHandler ux) s = Ok (tt, s') /\ live s' [OneTick_] c k')
    (Run_round ux) k1.
Proof.
  intros Hs (Hm & _ & Hc & x & Hx & Hcode) Hk Hw. unfold Run_round, on_user. apply wp_bind, wp_bind, wp_gets. rewrite Hm.
  apply wp_bind. eapply wp_lift; [done | ]. apply wp_bind, wp_gets, wp_bind, wp_gets, wp_bind. rewrite Hk, <- surjective_pairing.
  unfold wp at 1, lift. destruct (OneInstruction setStatus (ExceptionHandler ux) s) as [[[] s'] | ] eqn:Ei; [ | done].
  pose proof (instruction_inv s s' Hs Ei) as (Hwf & _).
  assert (exists pt, pageTable s'.1 = Some pt) as [pt Hpt].
  { destruct (wf_space _ Hwf) as [Ht _]. pose proof (wf_tables _ Hwf) as Htb. unfold tables_wf in Htb. rewrite Ht in Htb.
    destruct (pageTable s'.1); [by eexists | done]. }
  set (sp' := mkAddrSpace pt (pageTableSize s'.1)). unfold set_status, set_interrupt.
  apply wp_bind, wp_modify, wp_bind, wp_modify, wp_bind, wp_modify, wp_bind, wp_gets, wp_bind. set (k2 := with_interrupt _ _).
  change (currentThread k2) with (currentThread k1). rewrite Hc. eapply wp_ok; [by apply (upd_thread_ok k2 _ x) | ]. apply wp_ret.
  set (k3 := with_threads k2 _).
  assert (Hon : on s'.1 (OneTick_ :: c) (Syscall.status s'.2) k3).
  { split; [done | ]. split; [done | ]. split; [done | ]. exists (share_table s'.1 x). split; [simpl; by rewrite lookup_insert_eq | ].
    unfold share_table. by rewrite Hpt. }
  assert (Hw3 : world t s'.1 sp' s'.2 k3).
  { destruct Hw as (_ & _ & Hn & Hsp). split; [exists s'.1; split; [done | apply same_refl] | ]. split; [done | ]. split; [done | ].
    intros u z Hz. simpl in Hz. apply lookup_insert_Some in Hz as [[<- <-] | [Hne Hz]].
    - unfold share_table, space_for. by rewrite Hpt, decide_True.
    - rewrite (Hsp u z Hz). unfold space_for. by rewrite !decide_False by congruence. }
  eapply wp_mono; [apply wp_and; [by apply (on_push [OneTick_; Request 0 0] _ _ _ _ Hon) | ] | ].
  { assert (Hp : keeps any_fault (world (X := X) t s'.1 sp' s'.2) anything (push [OneTick_; Request 0 0])) by wd. by apply Hp. }
  intros [] k4 [Hon4 [_ Hw4]]. exists s'. split; [done | ]. pose proof (proj1 (proj2 Hw4)) as Ed.
  replace s' with (s'.1, s'.2) by (by destruct s').
  apply (live_on s' s'.1 [OneTick_] c k4 k4 sp' (Syscall.status s'.2)); [done | by rewrite Ed | done | ]. rewrite Ed. by destruct s' as [? []].
Qed.

Lemma live_round s c k k' : user_inv kernel_inv s -> live s [] c k -> step k = Ok (tt, k') ->
  exists s', OneInstruction setStatus (ExceptionHandler ux) s = Ok (tt, s') /\ live s' [OneTick_] c k'.
Proof.
  intros Hs [H1 H2 H3 (x & Hx & Hc) (sp & Hsh & Hw)] E. rewrite (step_at k x (Request 0 0) (OneTick_ :: c)) in E by done.
  pose proof (round_live s c (set_code k x (OneTick_ :: c)) sp Hs) as H. unfold wp in H.
  cbn [exec run_request] in E. rewrite E in H. apply H; [ | done | ].
  - split; [done | ]. split; [done | ]. by apply coded_set_code.
  - apply world_set_code; [done | by rewrite H1].
Qed.

(** *** Executions *)

(** [t] is the only thread that runs a program. *)
Definition sole k : Prop :=
  match next_instr k with Some (Request d _) => d = 0%nat /\ currentThread k = t | _ => True end.

Definition rounds k : nat := match next_instr k with Some (Request _ _) => 1 | _ => 0 end.

(** [sliced ok n k0 k]: steps of all threads, from states that satisfy [ok],
    lead from [k0] to [k], among them [n] rounds of [Machine::Run]. *)
Inductive sliced (ok : K -> Prop) : nat -> K -> K -> Prop :=
  | sliced_start k : sliced ok 0 k k
  | sliced_step n k0 k k' : sliced ok n k0 k -> ok k -> sole k -> step k = Ok (tt, k') -> sliced ok (n + rounds k) k0 k'.

Lemma sole_ordinary k : sole k -> currentThread k <> t -> ordinary k.
Proof. intros Hs Hc d a E. unfold sole in Hs. rewrite E in Hs. by destruct Hs. Qed.

Lemma ordinary_rounds k : ordinary k -> rounds k = 0%nat.
Proof. intros Ho. unfold rounds. destruct (next_instr k) as [[] | ] eqn:E; try done. by destruct (Ho d arg). Qed.

Lemma gone_ordinary s p c k : gone s p c k -> currentThread k = t -> ordinary k.
Proof.
  intros [_ _ (sp & _ & [Hh _] & _)] Hc d a. unfold next_instr. rewrite Hc. destruct (threads k !! t) as [x | ] eqn:Hx; [ | done].
  destruct (Hh x eq_refl) as (_ & _ & Hcode). cbn. by rewrite Hcode.
Qed.

Lemma follows_step s0 n k k' : user_inv kernel_inv s0 -> follows s0 n k -> sole k -> step k = Ok (tt, k') -> follows s0 (n + rounds k) k'.
Proof.
  intros H0 (l & s & p & c & <- & Hl & Hb & Hcv & Hne & [Hlv | Hgn]) Hs E; pose proof (ran_inv _ _ _ H0 Hl) as Hu.
  - destruct p as [ | i p].
    + destruct (live_round s c k k' Hu Hlv E) as (s' & Ei & Hlv'). exists (l ++ [false]), s', [OneTick_], c.
      split_and!; [ | apply ran_snoc; by exists s, s' | done | done | by destruct l | by left].
      rewrite length_app. f_equal. unfold rounds, next_instr. destruct Hlv as [H1 _ _ (x & Hx & Hc) _]. rewrite H1, Hx. cbn. by rewrite Hc.
    + cbn in Hb. apply andb_true_iff in Hb as [Hi Hb]. rewrite (ordinary_rounds k), Nat.add_0_r by (by eapply live_ordinary).
      destruct i; try done; cbn [covered] in Hcv.
      * apply andb_true_iff in Hcv as [Hr Hcv]. exists l, s, (SetLevel_ (level_of k) :: p), c.
        split_and!; try done; [by intros ?%Hne | by apply live_Yield].
      * destruct (live_SetLevel s now p c k k' Hlv E) as [H | H]; [exists l, s, p, c | exists l, s, (OneTick_ :: p), c];
          split_and!; try done; try (by intros ?%Hne); by left.
      * destruct (live_OneTick s p c k k' Hu Hlv E) as (m' & Hf & H).
        destruct (ran_flush s0 l s m' H0 Hl) as (l' & El & Hl'); [by intros ?%Hne | done | ].
        assert (Hne' : l' <> []). { intros ->. assert (Hnil : l = []) by (by destruct l). by apply Hne in Hnil. }
        rewrite <- El.
        destruct H as [H | H]; [exists l', (m', s.2), p, c | exists l', (m', s.2), (Yield :: SetStatus_ (status (interrupt k)) :: p), c];
          split_and!; try done; by left.
      * exists l, s, p, c. split_and!; try done; [by intros ?%Hne | left; by eapply live_SetStatus].
  - exists l, s, p, c. destruct (decide (currentThread k = t)) as [Hc | Hc].
    + rewrite (ordinary_rounds k), Nat.add_0_r by (by eapply gone_ordinary). split_and!; try done. left. by eapply back_step.
    + pose proof (sole_ordinary k Hs Hc) as Ho. rewrite (ordinary_rounds k), Nat.add_0_r by done. split_and!; try done.
      right. by eapply gone_step.
Qed.

(** The kernel when [Machine::Run] begins in thread [t], with the machine [m]
    and the space [sp] of the program *)
Record starts (m : Machine) (sp : AddrSpace) (c : list instr) k : Prop := {
  st_current : currentThread k = t;
  st_machine : machine k = Some m;
  st_space : shares m sp;
  st_code : exists x, threads k !! t = Some x /\ code x = loop_code c;
  st_spaces : forall u x, threads k !! u = Some x -> space x = if decide (u = t) then Some sp else None;
  st_address : (t < nextAddress k)%nat
}.

(** [AddrSpace::Execute] leaves the kernel so. *)
Lemma Execute_starts i arg sp m k x : spaces !! i = Some sp -> currentThread k = t -> threads k !! t = Some x ->
  (forall u y, threads k !! u = Some y -> space y = None) -> (t < nextAddress k)%nat -> machine k = Some m ->
  length (registers m) = Z.to_nat NumTotalRegs ->
  wp no_fault (fun _ k' => starts (started m sp) sp (code x) k' /\ status (interrupt k') = UserMode /\ devices k' = devices k)
    (request (S i) arg) k.
Proof.
  intros Hi Hc Hx Hsp Hn Hm Hl. cbn [run_request]. rewrite Hi. unfold Thread_Execute, Machine_Run.
  apply wp_bind, wp_bind, wp_gets, wp_bind. rewrite Hc. eapply wp_ok; [by apply (upd_thread_ok k _ x) | ].
  pose proof (start_ok sp m tt Hl) as E. unfold mbind, stM_bind in E.
  destruct (InitRegisters sp (m, tt)) as [[[] [m1 []]] | ] eqn:E1; [ | done].
  apply wp_bind. eapply wp_on_machine; [done | exact E1 | ]. eapply wp_on_machine; [done | exact E | ].
  unfold set_status, set_interrupt. apply wp_bind, wp_modify. unfold push. apply wp_bind, wp_gets. set (k1 := with_interrupt _ _).
  change (currentThread k1) with (currentThread k). rewrite Hc.
  eapply wp_ok; [apply (upd_thread_ok k1 _ (with_space x sp)); simpl; by rewrite lookup_insert_eq | ].
  split; [ | done]. split; [done | done | done | | | done].
  - eexists. simpl. by rewrite lookup_insert_eq.
  - intros u y Hy. simpl in Hy. apply lookup_insert_Some in Hy as [[<- <-] | [Hne Hy]]; [by rewrite decide_True | ].
    apply lookup_insert_Some in Hy as [[-> _] | [_ Hy]]; [done | ]. rewrite decide_False by done. by eapply Hsp.
Qed.

Definition program_state k (m : Machine) : St := (m, setStatus (status (interrupt k)) (devices k).1).

Lemma starts_follows m0 sp c k0 : starts m0 sp c k0 -> follows (program_state k0 m0) 0 k0.
Proof.
  intros [S1 S2 S3 S4 S5 S6]. exists [], (program_state k0 m0), [], c. split_and!; try done. left.
  split; [done | done | done | done | ]. exists sp. split; [done | ]. split; [ | done]. exists m0. split; [done | apply same_refl].
Qed.

Lemma sliced_follows ok m0 sp c n k0 k : starts m0 sp c k0 -> user_inv kernel_inv (program_state k0 m0) -> sliced ok n k0 k ->
  follows (program_state k0 m0) n k.
Proof.
  intros Hst Hu Hrun. induction Hrun as [k0 | n k0 k k' Hrun IH Hok Hs E]; [by eapply starts_follows | ].
  apply follows_step; [done | by apply IH | done | done].
Qed.

(** C4: A program runs as if it had the machine to itself.  However the timer
    and the other threads, none of which runs a program, slice the time of its
    thread, when the thread is about to execute its next instruction the
    machine, the files and the console are what [n] instructions of the program
    make of them without any of this, where [n] is the number of rounds
    [Machine::Run] has made, except that an interrupt between two
    instructions completes a pending load. *)
Theorem time_slices_invisible ok m0 sp c k0 n k
    (Hstart : starts m0 sp c k0) (Huser : user_inv kernel_inv (program_state k0 m0)) (Hrun : sliced ok n k0 k)
    (Hcur : currentThread k = t) (Hnext : next_instr k = Some (Request 0 0)) :
  exists m l, machine k = Some m /\ length l = n /\
    interrupted ux l (program_state k0 m0) = Ok (tt, program_state k m).
Proof.
  destruct (sliced_follows ok m0 sp c n k0 k Hstart Huser Hrun) as (l & s & p & c' & Hl & Hr & Hb & _ & _ & [Hlv | Hgn]).
  - destruct p as [ | i p]; [ | by destruct (live_ordinary s i p c' k Hlv ltac:(by apply andb_true_iff in Hb as [? _]) _ _ Hnext)].
    destruct Hlv as [_ Hm Hk _ _]. exists s.1, l. split_and!; [done | done | ]. unfold ran in Hr. rewrite Hr.
    unfold program_state. cbn [final] in Hk. by rewrite Hk, <- surjective_pairing.
  - by destruct (gone_ordinary s p c' k Hgn Hcur _ _ Hnext).
Qed.

(** *** Safety *)

Context {faulty : fault -> Prop} `{!DeviceOk faulty device}.
Hypothesis Hclient : forall f a, forallb client (procs f a) = true.

Lemma kinv_loop c k : kinv k -> coded (loop_code c) k -> running k IntOn (loop_code c) /\ wf_code (OneTick_ :: c) = true /\ levels IntOn (OneTick_ :: c) = true.
Proof.
  intros Hk [Ht (x & Hx & Hc)]. rewrite <- Ht in Hx.
  assert (Hcode : forall c', base k c' -> c' = loop_code c).
  { intros c' [_ (y & Hy & <-) _ _ _]. by simplify_eq. }
  destruct Hk as [lv c' Hr Hw Hl | y Hb _ _ Hy (i & b & Ei & Hi & _) _ | c' Hb | Hb].
  - pose proof (Hcode c' (r_base _ _ _ Hr)) as ->. cbn [loop_code levels after] in Hl.
    case_bool_decide as E; [subst lv | done]. split; [exact Hr | ]. split; [ | done]. by destruct (wf_code_cons _ _ Hw) as [[? _] | [_ ?]].
  - simplify_eq. rewrite Hc in Ei. injection Ei as <- _. by destruct Hi.
  - by pose proof (Hcode _ Hb).
  - by pose proof (Hcode _ Hb).
Qed.

Lemma round_inv s c k : user_inv kernel_inv s -> live s [] c k -> kinv k -> wp ends (fun _ => kinv) step k.
Proof.
  intros Hs [H1 H2 H3 (x & Hx & Hc) _] Hk. destruct (kinv_loop c k Hk) as (Hr & Hw & Hl); [by split; [ | exists x] | ].
  unfold wp. rewrite (step_at k x (Request 0 0) (OneTick_ :: c)) by done. cbn [exec run_request].
  set (k1 := set_code k x (OneTick_ :: c)).
  assert (Hr1 : running k1 IntOn (OneTick_ :: c)) by (eapply running_set_code; [done | by rewrite H1]).
  change (wp ends (fun _ => kinv) (Run_round ux) k1). unfold Run_round, on_user. apply wp_bind, wp_bind, wp_gets.
  change (machine k1) with (machine k). rewrite H2. apply wp_bind. eapply wp_lift; [done | ]. apply wp_bind, wp_gets, wp_bind, wp_gets, wp_bind.
  change (setStatus (status (interrupt k1)) (devices k1).1) with (setStatus (final [] (status (interrupt k))) (devices k).1).
  rewrite H3, <- surjective_pairing. destruct s as [m d].
  pose proof (OneInstruction_inv setStatus (ExceptionHandler ux) ends kernel_inv m d Hs) as Hi.
  unfold wp in Hi. unfold wp at 1, lift. destruct (OneInstruction setStatus (ExceptionHandler ux) (m, d)) as [[[] s'] | f].
  2: { by destruct Hi as [? | [-> _]]. }
  destruct Hi as (Hwf & _). unfold set_status, set_interrupt. apply wp_bind, wp_modify, wp_bind, wp_modify, wp_bind, wp_modify, wp_bind, wp_gets, wp_bind.
  set (k2 := with_interrupt _ _).
  assert (Hr2 : running k2 IntOn (OneTick_ :: c)).
  { pose proof (running_machine k1 IntOn _ m s'.1 Hr1 H2 (wf_regs _ Hwf)) as [Hb ? ? ? ?]. split; try done. destruct Hb. by split. }
  destruct (running_thread _ _ _ Hr2) as (y & Hy & _). eapply wp_ok; [by apply (upd_thread_ok k2 _ y) | ]. apply wp_ret.
  assert (Hr3 : running (with_threads k2 (<[currentThread k2 := share_table s'.1 y]> (threads k2))) IntOn (OneTick_ :: c)).
  { unfold share_table. destruct (pageTable s'.1); [by apply (running_space k2 _ _ _ _ s'.1) | ].
    rewrite insert_id by done. generalize dependent k2. by intros []. }
  eapply wp_push; [exact Hr3 | ]. intros k4 Hr4. eapply kinv_run; [exact Hr4 | by apply wf_inner; [ | apply wf_inner] | done].
Qed.

(** A step of any kind *)
Lemma follows_safe s0 n k : user_inv kernel_inv s0 -> follows s0 n k -> kinv k -> room k -> sole k ->
  wp (fun f => step_admits (faulty := faulty) k f \/ rounds k = 1%nat /\ ends f) (fun _ => kinv) step k.
Proof.
  intros H0 (l & s & p & c & _ & Hr & Hb & _ & _ & Hlg) Hk Hroom Hs.
  assert (Ho : ordinary k \/ p = [] /\ live s p c k).
  { destruct Hlg as [Hlv | Hgn]; [destruct p as [ | i p]; [by right | left] | left].
    - eapply live_ordinary; [exact Hlv | by apply andb_true_iff in Hb as [? _]].
    - destruct (decide (currentThread k = t)); [by eapply gone_ordinary | by apply sole_ordinary]. }
  destruct Ho as [Ho | [-> Hlv]].
  - pose proof (step_inv (faulty := faulty) (RandomOf Random) device no_request procs Hclient k Hk Hroom) as H.
    unfold wp in *. rewrite step_ordinary by done. destruct (Threads.step _ _ _ _ k) as [[] | f]; [done | by left].
  - pose proof (round_inv s c k (ran_inv _ _ _ H0 Hr) Hlv Hk) as H. unfold wp in *. destruct (step k) as [[] | f]; [done | right].
    split; [ | done]. destruct Hlv as [H1 _ _ (x & Hx & Hc) _]. unfold rounds, next_instr. rewrite H1, Hx. cbn. by rewrite Hc.
Qed.

Lemma sliced_kinv m0 sp c n k0 k : kinv k0 -> starts m0 sp c k0 -> user_inv kernel_inv (program_state k0 m0) -> sliced room n k0 k -> kinv k.
Proof.
  intros Hk Hst Hu Hrun. induction Hrun as [k0 | n k0 k k' Hrun IH Hr Hs E]; [done | ].
  pose proof (follows_safe _ n k Hu (sliced_follows _ _ _ _ _ _ _ Hst Hu Hrun) (IH Hk Hst Hu) Hr Hs) as H. unfold wp in H. by rewrite E in H.
Qed.

(** C5: The kernel stays sound under user programs.  In any execution in which
    one thread runs a program and others run kernel code, time slices included,
    the next step keeps the scheduler's invariant, or stops: for a reason
    [scheduler_safe] admits, or because the instruction of the program stops
    the kernel, by Halt or with a fault of a system call, and never by a loop
    that does not end. *)
Theorem run_safe m0 sp c k0 n k
    (Hk : kinv k0) (Hstart : starts m0 sp c k0) (Huser : user_inv kernel_inv (program_state k0 m0))
    (Hrun : sliced room n k0 k) (Hroom : room k) (Hsole : sole k) :
  wp (fun f => step_admits (faulty := faulty) k f \/ rounds k = 1%nat /\ ends f) (fun _ => kinv) step k.
Proof.
  eapply follows_safe; [exact Huser | by eapply sliced_follows | by eapply sliced_kinv | done | done].
Qed.

End Sliced.

(** ** Witness: a loop that counts, and a thread that yields *)

#[global] Instance v_device_aside {C0 X} : DeviceAside (C0 := C0) (X := X) v_device.
Proof.
  split; intros.
  - unfold v_device. wd.
  - intros k Hk. unfold v_device. apply wp_bind, wp_gets. case_match; [by apply marked_V_handler | by apply wp_ret].
Qed.

(** lw $3,0($0); addiu $2,$2,1; j 0; nop *)
Definition counting_program : list Z := [0; 0; 3; 140; 1; 0; 66; 36; 0; 0; 0; 8; 0; 0; 0; 0].

Definition counting_space : AddrSpace := mkAddrSpace (identity_entry <$> seqZ 0 NumPhysPages) 2.

Definition counting_boot : Machine :=
  with_memory (new_Machine 0) (counting_program ++ replicate (Z.to_nat MemorySize - length counting_program) 0).

Definition counting_threads : gmap nat Thread :=
  {[ 0%nat := mkThread None RUNNING (replicate (Z.to_nat NumTotalRegs) 0) (Some counting_space) (loop_code [Halt]) 0;
     2000%nat := mkThread (Some STACK_FENCEPOST) READY (replicate (Z.to_nat NumTotalRegs) 0) None [Begin; Yield; Yield; Finish] 0 ]}.

(** The timer goes off after five instructions. *)
Definition counting_kernel : Kern (Kernel host streams * unit) :=
  mkKern counting_threads 0 (mkScheduler [2000%nat] None)
    (mkInterrupt IntOn [mkPending TimerObj 5 TimerInt] false false UserMode) (mkStats 0 0 0 0)
    (mkTimer false false) ∅ ∅ ∅ ∅ 2001 (Some (started counting_boot counting_space)) (example_kernel, tt) [].

Notation counting_step := (step (RandomOf no_random) v_device (run_request host_ops []) (fun _ _ => [])).

(** [n] steps, and the number of rounds among them *)
Fixpoint slices (n : nat) (k : Kern (Kernel host streams * unit)) : option (nat * Kern (Kernel host streams * unit)) :=
  match n with
  | O => Some (0%nat, k)
  | S n' =>
      '(r, k1) ← slices n' k;
      if match next_instr k1 with
         | Some (Request d _) => bool_decide (d = 0%nat) && bool_decide (currentThread k1 = 0%nat)
         | _ => true
         end && has_room k1
      then match counting_step k1 with Ok (_, k') => Some ((r + rounds k1)%nat, k') | Fail _ => None end
      else None
  end.

Lemma slices_sliced n : forall k r k', slices n k = Some (r, k') ->
  sliced host_ops no_random v_device (fun _ _ => []) [] 0 room r k k'.
Proof.
  induction n as [ | n IH]; intros k r k' E; cbn [slices] in E; [injection E as <- <-; constructor | ].
  destruct (slices n k) as [[r1 k1] | ] eqn:E1; [ | done]. cbn [mbind option_bind] in E.
  destruct (_ && has_room k1) eqn:Es; [ | done]. apply andb_true_iff in Es as [Es Hr].
  destruct (counting_step k1) as [[[] k2] | ] eqn:E2; [ | done]. injection E as <- <-.
  eapply sliced_step; [by apply IH | by apply has_room_ok | | done]. unfold sole. destruct (next_instr k1) as [[] | ]; try done.
  apply andb_true_iff in Es as [H1 H2]. by apply bool_decide_eq_true in H1, H2.
Qed.

Lemma counting_starts : starts 0 (started counting_boot counting_space) counting_space [Halt] counting_kernel.
Proof.
  split; [done | done | done | by eexists | | simpl; lia]. intros u x Hx. cbn [threads counting_kernel] in Hx. unfold counting_threads in Hx.
  apply lookup_insert_Some in Hx as [[<- <-] | [Hne Hx]]; [done | ].
  apply lookup_singleton_Some in Hx as [<- <-]. done.
Qed.

Lemma counting_user : user_inv kernel_inv (program_state counting_kernel (started counting_boot counting_space)).
Proof.
  apply started_inv; [ | done | unfold NumPhysPages; simpl; lia]. split; [done | | done | done]. split.
  - unfold counting_boot, with_memory. cbn [mainMemory fst]. by rewrite length_app, length_replicate.
  - apply Forall_app. split; [by repeat constructor | ]. apply Forall_replicate. unfold is_byte. lia.
Qed.

(** After 22 steps, with two switches, the program has executed seven
    instructions. *)
Lemma time_slices_invisible_witness :
  exists k m l, slices 22 counting_kernel = Some (7%nat, k) /\ machine k = Some m /\ length l = 7%nat /\
    interrupted host_ops l (program_state counting_kernel (started counting_boot counting_space)) = Ok (tt, program_state k m).
Proof.
  assert (H : match slices 22 counting_kernel with
    | Some (r, k) => bool_decide (r = 7%nat) && bool_decide (currentThread k = 0%nat) && bool_decide (next_instr k = Some (Request 0 0))
    | None => false end = true) by (vm_compute; reflexivity).
  destruct (slices 22 counting_kernel) as [[r k] | ] eqn:E; [ | discriminate H]. apply andb_true_iff in H as [H H3].
  apply andb_true_iff in H as [H1 H2]. apply bool_decide_eq_true in H1, H2, H3. subst r.
  destruct (time_slices_invisible host_ops no_random v_device (fun _ _ => []) [] 0%nat room _ _ _ counting_kernel 7%nat k
    counting_starts counting_user (slices_sliced 22 _ _ _ E) H2 H3) as (m & l & Hm & Hl & Hr).
  exists k, m, l. split_and!; [reflexivity | exact Hm | exact Hl | exact Hr].
Defined.

Lemma counting_thread u x : counting_threads !! u = Some x ->
  u = 0%nat /\ thread_status x = RUNNING /\ stack x = None /\ code x = loop_code [Halt] /\ userRegisters x = replicate (Z.to_nat NumTotalRegs) 0 \/
  u = 2000%nat /\ thread_status x = READY /\ stack x = Some STACK_FENCEPOST /\ parked x /\ userRegisters x = replicate (Z.to_nat NumTotalRegs) 0.
Proof.
  unfold counting_threads. intros Hx. apply lookup_insert_Some in Hx as [[<- <-] | [_ Hx]]; [by left | right].
  apply lookup_singleton_Some in Hx as [<- <-]. split_and!; try done. by exists Begin, [Yield; Yield; Finish]; split_and!; [ | right | | ].
Qed.

Lemma counting_kinv : kinv counting_kernel.
Proof.
  apply (InvRunning _ IntOn (loop_code [Halt])); [ | done | done]. split; try done; [ | by eexists].
  split; [ | by eexists | | by repeat constructor | done].
  - assert (H2 : exists x, counting_threads !! 2000%nat = Some x /\ thread_status x = READY).
    { by eexists. }
    split; try done.
    + intros u [x Hx]. destruct (counting_thread u x Hx) as [[-> _] | [-> _]]; simpl; lia.
    + apply NoDup_singleton.
    + intros u ->%list_elem_of_singleton. destruct H2 as (x & Hx & Hs). exists x. split_and!; [done | done | ].
      intros _. by destruct (counting_thread _ _ Hx) as [[? _] | (_ & _ & _ & ? & _)].
    + intros u x Hx Hne. destruct (counting_thread u x Hx) as [[-> _] | (_ & -> & _)]; done.
    + intros u x Hx. destruct (counting_thread u x Hx) as [(_ & _ & -> & _) | (_ & _ & -> & _)]; auto.
    + intros u x Hx. destruct (counting_thread u x Hx) as [(_ & _ & _ & _ & ->) | (_ & _ & _ & _ & ->)]; apply regs_zero.
  - split; [intros m [= <-]; apply started_regs | by eexists].
Qed.

(** The next step after those 22 is an instruction of the program. *)
Lemma run_safe_witness :
  exists k, slices 22 counting_kernel = Some (7%nat, k) /\
    wp (fun f => step_admits (faulty := no_fault) k f \/ rounds k = 1%nat /\ ends f) (fun _ => kinv) counting_step k.
Proof.
  assert (H : match slices 22 counting_kernel with
    | Some (r, k) => bool_decide (r = 7%nat) && has_room k && bool_decide (currentThread k = 0%nat) && bool_decide (next_instr k = Some (Request 0 0))
    | None => false end = true) by (vm_compute; reflexivity).
  destruct (slices 22 counting_kernel) as [[r k] | ] eqn:E; [ | discriminate H].
  repeat (apply andb_true_iff in H as [H ?]). apply bool_decide_eq_true in H. subst r. exists k. split; [reflexivity | ].
  apply (run_safe host_ops no_random v_device (fun _ _ => []) [] 0%nat (fun _ _ => eq_refl) (started counting_boot counting_space)
    counting_space [Halt] counting_kernel 7%nat k); [exact counting_kinv | exact counting_starts | exact counting_user
    | exact (slices_sliced 22 _ _ _ E) | by apply has_room_ok | ].
  unfold sole. match goal with H : bool_decide (next_instr k = _) = true |- _ => apply bool_decide_eq_true in H as -> end.
  split; [reflexivity | ]. match goal with H : bool_decide (currentThread k = _) = true |- _ => exact (proj1 (bool_decide_eq_true _) H) end.
Defined.
