(* ===== verification/Exclusion.v ===== *)
(** * Mutual exclusion (threads/synch.cc, class Lock; threads/synchlist.cc)

    A lock is a semaphore of one token.  A thread is inside the lock when what
    it still has to do gives the lock's token back: more [Release]s than
    [Acquire]s lie ahead of it.  At most one thread is inside, whatever the
    threads do in between and wherever they are preempted, as long as their
    procedures bracket [Acquire] and [Release] and leave the lock's own
    semaphore alone. *)

From Stdlib Require Import Sorting.Sorted.
From S2P Require Import Prelude LinkedList Machine AddrSpace Threads ThreadsInv ThreadsSafe ThreadsTest Tokens.

(** The token of lock [l], whose semaphore is [s] and which guards the
    synchronised lists [qs]. *)
Definition lock_accounts {D} (l s : nat) (qs : list nat) : accounts D :=
  mkAccounts (fun x => if decide (x = s) then 1 else 0) (fun x => if decide (x = l) then 1 else 0)
    (fun q => if decide (q ∈ qs) then 1 else 0) (fun _ _ => 0) (fun _ => 0) (fun _ => 0).

Section Exclusion.
Context {D : Type} (RandomNumber : D -> Z * D) (device : nat -> stM (Kern D) unit).
Context (request : nat -> Z -> stM (Kern D) unit) (procs : nat -> Z -> list instr).
Context {faulty : fault -> Prop} `{!DeviceOk faulty device, !RequestOk request}.
Notation K := (Kern D).
Context (l s : nat) (qs : list nat).
Notation acc := (lock_accounts (D := D) l s qs).
Context `{!DeviceTokens acc 1 RandomNumber device request}.

(** More [Release]s than [Acquire]s of the lock lie ahead; a [P] of its
    semaphore that is under way counts as an [Acquire]. *)
Definition inside (c : list instr) : Prop := 0 < worths acc c.

(** C11: Mutual exclusion.  Start from a kernel in which the lock is free, no
    other lock shares its semaphore, and every procedure brackets its Acquires
    and Releases, waits for the lock's condition only between them, and neither
    deletes the lock nor uses its semaphore.  Then in every reachable state, if
    a thread is inside the lock, no other thread is, and the lock's semaphore
    is 0, so that every other thread that comes to acquire it waits. *)
Theorem mutual_exclusion k0 k t x
    (Hclient : forall f arg, forallb client (procs f arg) = true)
    (Hprocs : procs_tokens acc procs) (H0 : kinv k0) (Hfree : tokens acc 1 k0)
    (Hr : reachable RandomNumber device request procs k0 k)
    (Hx : threads k !! t = Some x) (Hin : inside (code x)) :
  (forall t' x', threads k !! t' = Some x' -> t' <> t -> ~ inside (code x')) /\
  (forall y, semaphores k !! s = Some y -> value y = 0).
Proof.
  destruct (reachable_tokens acc RandomNumber device request 1 procs Hprocs k0 k) as [_ Hk]; try done.
  unfold inside in *.
  destruct (tokens_all acc RandomNumber device request 1 1 k t x Hk Hx) as (H1 & H2 & _); [lia | ]. split.
  - intros t' x' Hx' Hne. rewrite (H1 t' x' Hx' Hne). lia.
  - intros y Hy. apply (H2 s y Hy). simpl. by rewrite decide_True.
Qed.

End Exclusion.

(** ** A device behind a lock

    The display and the network are used the same way: a thread acquires lock
    [l], whose semaphore is [s], makes request [r] of device [d], waits on
    semaphore [w] for the device's interrupt, and releases the lock.  One token
    is in the lock, with the thread inside, or in the interrupt that tells that
    thread to go on. *)

Section Serial.
Context {D : Type} (l s w r d : nat).
Notation K := (Kern D).

Definition serial_accounts : accounts D :=
  mkAccounts (fun x => if decide (x = s \/ x = w) then 1 else 0) (fun x => if decide (x = l) then 1 else 0) (fun _ => 0)
    (fun x _ => if decide (x = r) then 1 else 0) (fun x => if decide (x = d) then 1 else 0) (fun _ => 0).

#[global] Instance serial_fair : Fair serial_accounts.
Proof. split; simpl; intros; try case_decide; lia. Qed.

Lemma serial_sem : of_sem serial_accounts w = 1.
Proof. cbn [of_sem serial_accounts]. rewrite decide_True; tauto. Qed.

Lemma serial_other x : x <> s -> x <> w -> of_sem serial_accounts x = 0.
Proof. intros. cbn [of_sem serial_accounts]. rewrite decide_False; tauto. Qed.

Lemma serial_lock : of_lock serial_accounts l = 1.
Proof. cbn [of_lock serial_accounts]. by rewrite decide_True. Qed.

Lemma serial_request arg : of_request serial_accounts r arg = 1.
Proof. cbn [of_request serial_accounts]. by rewrite decide_True. Qed.

(** The way to use the device, with code before and after that moves no
    tokens. *)
Lemma serial_use (a : Z) p :
  worths serial_accounts p = 0 -> solvent serial_accounts p ->
  let c := [Acquire l; Request r a; P w; Release l] ++ p in
  worths serial_accounts c = 0 /\ solvent serial_accounts c.
Proof.
  intros Hw Hs. cbn [app worths worth solvent demand]. rewrite serial_sem, serial_lock, serial_request, Hw.
  split_and!; try lia. done.
Qed.

(** No interrupt of the device is pending. *)
Definition quiet_device (k : K) : Prop := Forall (fun p => callOnInterrupt p <> DeviceObj d) (pending_of k).

Lemma no_pledges (a : accounts D) (Ha : forall x, of_interrupt a x = of_interrupt serial_accounts x) (k : K) :
  quiet_device k <-> pledges a (pending_of k) = 0.
Proof.
  unfold quiet_device. induction (pending_of k) as [ | p ps IH]; [by split | ]. rewrite Forall_cons, IH.
  assert (Hp : 0 <= pledges a ps) by (apply pledges_nonneg; intros x; rewrite Ha; apply interrupt_nonneg).
  change (pledges a (p :: ps)) with (pledge a p + pledges a ps).
  unfold pledge. destruct (callOnInterrupt p) as [ | x]; [naive_solver | ].
  rewrite Ha. simpl. destruct (decide (x = d)) as [-> | Hd]; [ | naive_solver]. split; [by intros [[] ?] | lia].
Qed.

Context (RandomNumber : D -> Z * D) (device : nat -> stM K unit) (request : nat -> Z -> stM K unit).
Context (procs : nat -> Z -> list instr).
Context {faulty : fault -> Prop} `{!DeviceOk faulty device, !RequestOk request}.
Context `{!DeviceTokens serial_accounts 1 RandomNumber device request}.

(** Whoever is about to use the device is alone, and the device is quiet. *)
Lemma serial_exclusive k0 k arg
    (Hclient : forall f arg, forallb client (procs f arg) = true)
    (Hprocs : procs_tokens serial_accounts procs) (H0 : kinv k0) (Hfree : tokens serial_accounts 1 k0)
    (Hr : reachable RandomNumber device request procs k0 k)
    (Hnext : next_instr k = Some (Request r arg)) :
  quiet_device k /\
  forall t x i c, threads k !! t = Some x -> t <> currentThread k -> code x = i :: c -> forall arg', i <> Request r arg'.
Proof.
  destruct (reachable_tokens serial_accounts _ _ _ 1 procs Hprocs k0 k Hclient H0 Hfree Hr) as [_ Hk].
  unfold next_instr in Hnext. destruct (threads k !! currentThread k) as [x | ] eqn:Hx; [ | done].
  simpl in Hnext. destruct (code x) as [ | i c] eqn:Hc; [done | ]. simpl in Hnext. injection Hnext as ->.
  assert (Hworth : forall t x i c, threads k !! t = Some x -> code x = i :: c -> forall arg', i = Request r arg' ->
    1 <= worths serial_accounts (code x)).
  { intros t' x' i' c' Hx' Hc' arg' ->. destruct (tk_code _ _ _ Hk _ _ Hx') as [Hs _]. rewrite Hc' in *.
    destruct Hs as (_ & _ & Hs). pose proof (solvent_nonneg _ _ Hs). cbn [worths worth]. rewrite serial_request. lia. }
  destruct (tokens_all serial_accounts _ _ _ 1 1 k _ x Hk Hx) as (H1 & _ & Hp & _); [by eapply Hworth | ].
  split; [by apply (no_pledges serial_accounts) | ].
  intros t' x' i' c' Hx' Hne Hc' arg' ->. specialize (Hworth _ _ _ _ Hx' Hc' _ eq_refl). rewrite (H1 t' x' Hx' Hne) in Hworth. lia.
Qed.

End Serial.

(** ** Witness: two threads that share a lock *)

Definition idle_device {D} (d : nat) : stM (Kern D) unit := mret tt.

#[global] Instance idle_device_ok {D} : DeviceOk (D := D) no_fault idle_device.
Proof.
  intros d k c Hb Hl Hh Hn. apply wp_ret. split_and!; try done; [apply quiet_refl | by exists []].
Qed.

#[global] Instance idle_tokens l s qs :
  DeviceTokens (lock_accounts (D := unit) l s qs) 1 no_random idle_device no_request.
Proof.
  split; [split | ..]; simpl; intros; try (case_decide; lia); try done.
Qed.

(** Lock 20 with semaphore 21; both threads go through it twice and are made
    to yield inside. *)
Definition visit (n : Z) : list instr := [Acquire 20; Print [n]; Yield; Release 20].
Definition lock_procs (f : nat) (arg : Z) : list instr := visit arg ++ visit arg.

Definition lock_kernel : Kern unit :=
  with_locks (with_semaphores (new_kernel tt false [mkPending TimerObj TimerTicks TimerInt] (Some (new_Machine 0))
      (Fork 0 1 :: lock_procs 0 2))
    {[ 21%nat := mkSemaphore 1 [] ]}) {[ 20%nat := mkLock 21 None ]}.

Lemma lock_procs_client f arg : forallb client (lock_procs f arg) = true.
Proof. reflexivity. Qed.

Lemma lock_procs_tokens : procs_tokens (lock_accounts (D := unit) 20 21 []) lock_procs.
Proof. intros f arg. split_and!; [reflexivity | simpl; split_and!; lia || done | by repeat constructor]. Qed.

(** A kernel whose main thread has made some semaphores and locks. *)
Lemma new_objects_inv {D} (d : D) rs p m main sems lks :
  kinv (new_kernel d rs p m main) -> (forall s x, sems !! s = Some x -> queue x = []) ->
  kinv (with_locks (with_semaphores (new_kernel d rs p m main) sems) lks).
Proof.
  intros H Hq. destruct H as [lv c Hr Hw Hl | x _ _ _ Hx (i & b & Hc & Hi & _) _ | c Hb | Hb].
  - apply (InvRunning _ lv c); [ | done | done]. eapply running_frame; try done.
    simpl. intros s x' Hs. left. eauto.
  - exfalso. cbn in Hx. rewrite lookup_singleton_eq in Hx. simplify_eq. cbn in Hc. simplify_eq. by destruct Hi.
  - exfalso. destruct (b_code _ _ Hb) as (x & Hx & Hc). cbn in Hx. rewrite lookup_singleton_eq in Hx. by simplify_eq.
  - exfalso. destruct (b_code _ _ Hb) as (x & Hx & Hc). cbn in Hx. rewrite lookup_singleton_eq in Hx. by simplify_eq.
Qed.

Lemma lock_kernel_inv : kinv lock_kernel.
Proof.
  apply new_objects_inv.
  - apply new_kernel_inv; [reflexivity | by repeat constructor | ]. intros x [= <-]. apply regs_zero.
  - by intros s x [<- <-]%lookup_singleton_Some.
Qed.

Lemma lock_kernel_tokens : tokens (lock_accounts 20 21 []) 1 lock_kernel.
Proof.
  split.
  - vm_compute. reflexivity.
  - simpl. intros t x [<- <-]%lookup_singleton_Some. cbn [code]. split; [simpl; split_and!; lia || done | by repeat constructor].
  - simpl. intros s x [<- <-]%lookup_singleton_Some _. simpl. lia.
  - simpl. intros l x [<- <-]%lookup_singleton_Some. reflexivity.
  - simpl. intros cv q s Hq. by rewrite lookup_empty in Hq.
  - simpl. intros q x Hq. by rewrite lookup_empty in Hq.
  - simpl. intros s Hs. rewrite decide_False; [done | lia].
  - done.
Qed.

Notation lock_steps := (after_steps no_random idle_device no_request lock_procs).

(** A state in which the main thread is inside and the forked thread waits. *)
Lemma mutual_exclusion_witness :
  exists k x, lock_steps 18 lock_kernel = Some k /\ threads k !! 0%nat = Some x /\ inside (D := unit) 20 21 [] (code x) /\
    forall y, semaphores k !! 21%nat = Some y -> value y = 0.
Proof.
  destruct (lock_steps 18 lock_kernel) as [k | ] eqn:E; [ | exfalso; vm_compute in E; discriminate E].
  assert (H : match lock_steps 18 lock_kernel with
    | Some k => match threads k !! 0%nat with
                | Some x => 0 <? worths (lock_accounts (D := unit) 20 21 []) (code x) | None => false end
    | None => false end = true) by (vm_compute; reflexivity).
  rewrite E in H. destruct (threads k !! 0%nat) as [x | ] eqn:Ex; [ | discriminate H].
  apply Z.ltb_lt in H. exists k, x. split_and!; [reflexivity | exact Ex | exact H | ].
  apply (mutual_exclusion no_random idle_device no_request lock_procs 20 21 [] lock_kernel k 0%nat x).
  - apply lock_procs_client.
  - apply lock_procs_tokens.
  - apply lock_kernel_inv.
  - apply lock_kernel_tokens.
  - eapply after_steps_reachable; [apply reach_start | exact E].
  - exact Ex.
  - exact H.
Defined.
