(* ===== verification/SynchApply.v ===== *)
(** * SynchList::Apply (threads/synchlist.cc)

    A call of [Apply] is the code [SynchList_Apply]: it takes the lock of the
    list, calls the function on every item and gives the lock back.  The calls
    of the function are one step of the thread, request [q] for list [q]. *)

From S2P Require Import Prelude LinkedList Machine AddrSpace Threads ThreadsInv ThreadsSafe ThreadsTest Devices Tokens Exclusion.

Section Apply.
Context {D : Type} (func : Z -> list Z).
Notation K := (Kern D).
Implicit Types k : K.

(** [list->Apply(func)], where [func] prints *)
Definition list_Apply (q : nat) : stM K unit :=
  x ← get_synchList q;
  modify (fun k => with_output k (output k ++ (func <$> items x))).

Definition apply_request (q : nat) (arg : Z) : stM K unit := list_Apply q.

(** [SynchList::Apply] on list [q], whose lock is [l] *)
Definition SynchList_Apply (q l : nat) : list instr := [Acquire l; Request q 0; Release l].

Lemma list_Apply_ok q x k : synchLists k !! q = Some x ->
  list_Apply q k = Ok (tt, with_output k (output k ++ (func <$> items x))).
Proof. intros Hx. unfold list_Apply, get_synchList, find. run. by rewrite Hx. Qed.

#[global] Instance apply_request_ok : RequestOk apply_request.
Proof.
  intros q arg k lv c Hr _. unfold apply_request. destruct (synchLists k !! q) as [x | ] eqn:Hx.
  - eapply wp_ok; [by apply list_Apply_ok | ]. exists []. split; [done | ]. eapply running_frame; try done. by right.
  - unfold list_Apply, get_synchList, find, wp. run. rewrite Hx. by left.
Qed.

#[global] Instance apply_tokens (l s : nat) (qs : list nat) (RandomNumber : D -> Z * D) :
  DeviceTokens (lock_accounts (D := D) l s qs) 1 RandomNumber idle_device apply_request.
Proof.
  split; [split | ..]; simpl; intros; try (case_decide; lia); try done; rewrite Z.sub_0_r in *.
  unfold apply_request, list_Apply, get_synchList, find, wp. run. destruct (synchLists k !! d) as [x | ]; [ | done].
  match goal with H : tokens _ _ _ |- _ => destruct H end. by split.
Qed.

Context (RandomNumber : D -> Z * D) (procs : nat -> Z -> list instr) (l s : nat) (qs : list nat).
Notation acc := (lock_accounts (D := D) l s qs).

(** In every reachable state of any program of threads that brackets Acquire
    and Release of the list's lock: a thread in [Apply] that is about to call
    the function is alone inside the lock, and the function is called on every
    item of the list, in order, with no other thread's step between. *)
Theorem apply_exclusive k0 k x q c y
    (Hclient : forall f arg, forallb client (procs f arg) = true)
    (Hprocs : procs_tokens acc procs) (H0 : kinv k0) (Hfree : tokens acc 1 k0)
    (Hr : reachable RandomNumber idle_device apply_request procs k0 k)
    (Hx : threads k !! currentThread k = Some x) (Hc : code x = Request q 0 :: Release l :: c)
    (Hy : synchLists k !! q = Some y) :
  (forall t' x', threads k !! t' = Some x' -> t' <> currentThread k -> ~ inside l s qs (D := D) (code x')) /\
  exists k', step RandomNumber idle_device apply_request procs k = Ok (tt, k') /\
    output k' = output k ++ (func <$> items y) /\ synchLists k' = synchLists k.
Proof.
  destruct (reachable_tokens acc RandomNumber idle_device apply_request 1 procs Hprocs k0 k Hclient H0 Hfree Hr) as [_ Hk].
  split.
  - destruct (tk_code _ _ _ Hk _ _ Hx) as [Hs _]. rewrite Hc in Hs. pose proof Hs as (_ & _ & _ & _ & Hs').
    pose proof (solvent_nonneg _ _ Hs') as Hn.
    destruct (tokens_all acc RandomNumber idle_device apply_request 1 1 k _ x Hk Hx) as (H1 & _).
    { rewrite Hc. cbn [worths worth]. simpl. rewrite decide_True by done. lia. }
    intros t' x' Hx' Hne. unfold inside. rewrite (H1 t' x' Hx' Hne). lia.
  - unfold step, mbind, stM_bind. rewrite (fetch_ok k x (Request q 0) (Release l :: c) Hx Hc). cbn [exec]. unfold apply_request.
    rewrite (list_Apply_ok q y) by done. by eexists.
Qed.

End Apply.

(** ** A thread that appends while another applies *)

Definition apply_procs (f : nat) (arg : Z) : list instr := [SynchAppend 30 arg; SynchAppend 30 (arg + 1)].

(** The main thread forks it, gives way, and applies to the list, twice. *)
Definition apply_kernel : Kern unit :=
  new_kernel tt false [mkPending TimerObj TimerTicks TimerInt] (Some (new_Machine 0))
    ([NewSynchList 30 20 21 22; Fork 0 7] ++ SynchList_Apply 30 20 ++ [Yield] ++ SynchList_Apply 30 20).

Example apply_prints :
  match run_to_end no_random idle_device (apply_request (fun v => [v])) apply_procs 200 apply_kernel with
  | Some (f, k) => (f, output k) = (Halted, [[7]; [8]])
  | None => False
  end.
Proof. vm_compute. reflexivity. Qed.
