(* ===== verification/Wakeup.v ===== *)
(** * No wakeup is lost (threads/synch.cc, class Semaphore)

    [V] increments a semaphore and makes the first waiting thread ready, which
    then looks at the value again in the while loop of [P]; another thread may
    have come first.  So there may be threads waiting although the value is not
    zero.  This file shows that this does no harm: whenever threads wait on a
    semaphore, each unit of its value has a thread that is awake, running or on
    the ready list, and about to look at it.

    [PLoop s] in a thread's code is its next test of semaphore [s]. *)

From S2P Require Import Prelude LinkedList Machine AddrSpace Threads ThreadsInv ThreadsSafe ThreadsTest Devices Tokens Fifo Exclusion.

(** ** The shape of code *)

(** No test under way *)
Definition clean (c : list instr) : Prop := Forall (fun i => match i with PLoop _ => False | _ => True end) c.

(** At most one test is under way: the thread makes it next, or as soon as it
    runs again. *)
Definition shaped (c : list instr) : Prop :=
  clean c \/ exists s c', clean c' /\ (c = PLoop s :: c' \/ c = Switched :: PLoop s :: c' \/ c = SleepLoop false :: PLoop s :: c').

Lemma clean_not c s : clean c -> PLoop s ∉ c.
Proof. intros Hc Hin. by eapply Forall_forall in Hc; [ | exact Hin]. Qed.

Lemma client_clean c : forallb client c = true -> clean c.
Proof.
  intros Hc. apply Forall_forall. intros i Hi. apply list_elem_of_In in Hi. eapply forallb_forall in Hc; [ | exact Hi].
  by destruct i.
Qed.

Lemma shaped_tail i c : shaped (i :: c) -> i <> Switched -> i <> SleepLoop false -> clean c.
Proof.
  intros [[_ Hc]%Forall_cons | (s & c' & Hc & [[= -> ->] | [[= -> ->] | [= -> ->]]])] H1 H2; done.
Qed.

Lemma shaped_rest i c : shaped (i :: c) -> shaped c.
Proof.
  intros [[_ Hc]%Forall_cons | (s & c' & Hc & [[= -> ->] | [[= -> ->] | [= -> ->]]])].
  - by left.
  - by left.
  - right. exists s, c'. auto.
  - right. exists s, c'. auto.
Qed.

Section Wakeup.
Context {D : Type}.
Notation K := (Kern D).
Implicit Types (k : K) (c : list instr) (w : list nat).

(** What every thread has still to do *)
Definition codes k : gmap nat (list instr) := code <$> threads k.

Section Semaphore.
Context (s : nat) (N : Z).

(** The semaphore stays: it is not made again, nor deleted; and synchronised
    lists, whose locks have semaphores too, are not deleted. *)
Definition spares (i : instr) : Prop :=
  match i with
  | NewSemaphore s' _ | DeleteSemaphore s' | NewSynchList _ _ s' _ => s' <> s
  | DeleteSynchList _ => False
  | _ => True
  end.

(** The threads with a test of [s] ahead of them, in [P] *)
Definition testing (C : gmap nat (list instr)) : gset nat := dom (filter (fun e => PLoop s ∈ e.2) C).

Lemma elem_of_testing C t : t ∈ testing C <-> exists c, C !! t = Some c /\ PLoop s ∈ c.
Proof.
  unfold testing. rewrite elem_of_dom. split.
  - intros [c Hc]. apply map_lookup_filter_Some in Hc. by exists c.
  - intros (c & Hc & Hp). exists c. by apply map_lookup_filter_Some.
Qed.

(** Threads on the ready list, threads in the queue of the semaphore and the
    threads [w] are all that test the semaphore; the queue and the value
    together are no more than these. *)
Record watched w k : Prop := {
  wd_sem : is_Some (semaphores k !! s);
  wd_addr : (s < nextAddress k)%nat;
  wd_code t c : codes k !! t = Some c -> shaped c /\ Forall spares c;
  wd_queue x t : semaphores k !! s = Some x -> t ∈ queue x -> t ∈ testing (codes k);
  wd_nodup x : semaphores k !! s = Some x -> NoDup (queue x);
  wd_value x : semaphores k !! s = Some x -> queue x <> [] ->
    0 <= value x /\ value x + Z.of_nat (length (queue x)) <= Z.of_nat (size (testing (codes k)));
  wd_doomed t : doomed k = Some t -> t ∉ testing (codes k);
  wd_place t : t ∈ testing (codes k) -> t ∈ w \/ t ∈ ready_of k \/ exists x, semaphores k !! s = Some x /\ t ∈ queue x
}.

Definition few k : Prop := Z.of_nat (size (threads k)) <= N.
Hypothesis HN : N < 2 ^ 31 - 1.

Lemma testing_few k : few k -> Z.of_nat (size (testing (codes k))) <= N.
Proof.
  intros Hf. assert (size (testing (codes k)) <= size (dom (codes k)))%nat as H.
  { apply subseteq_size. unfold testing. apply dom_filter_subseteq. }
  unfold few in Hf. unfold codes in H at 2. rewrite dom_fmap, size_dom in H. lia.
Qed.

(** ** Changes of one part of the state *)

Lemma watched_frame w w' k k' :
  watched w k -> codes k' = codes k -> semaphores k' !! s = semaphores k !! s -> (nextAddress k <= nextAddress k')%nat ->
  (forall t, t ∈ ready_of k -> t ∈ w' \/ t ∈ ready_of k') -> (forall t, t ∈ w -> t ∈ w' \/ t ∈ ready_of k') ->
  (doomed k' = doomed k \/ doomed k' = None) -> watched w' k'.
Proof.
  intros [] E1 E2 E3 Hr Hw Hd. split; rewrite ?E1, ?E2; eauto; [lia | | ].
  - intros t Ht. destruct Hd as [Hd | Hd]; [apply wd_doomed0 | ]; congruence.
  - intros t Ht. destruct (wd_place0 t Ht) as [H | [H | H]]; [destruct (Hw t H); auto | destruct (Hr t H); auto | auto].
Qed.

Lemma watched_mono w w' k : watched w k -> w ⊆ w' -> watched w' k.
Proof. intros Hk Hw. apply (watched_frame w w' k k); auto. Qed.

(** A thread that does not test needs no place. *)
Lemma watched_drop w t k : watched (t :: w) k -> t ∉ testing (codes k) -> watched w k.
Proof.
  intros [] Ht. split; eauto. intros u Hu. destruct (wd_place0 u Hu) as [[-> | H]%elem_of_cons | H]; [done | auto | auto].
Qed.

Lemma codes_thread k t x : codes (with_threads k (<[t := x]> (threads k))) = <[t := code x]> (codes k).
Proof. unfold codes. simpl. apply fmap_insert. Qed.

(** The code of a thread changes.  A test that comes in is one of an awake
    thread. *)
Lemma testing_more C t c c' :
  C !! t = Some c -> (PLoop s ∈ c -> PLoop s ∈ c') ->
  testing C ⊆ testing (<[t := c']> C) /\ forall u, u ∈ testing (<[t := c']> C) -> u ∈ testing C \/ (u = t /\ PLoop s ∈ c').
Proof.
  intros Hc H. split.
  - intros u (d & Hd & Hp)%elem_of_testing. apply elem_of_testing. destruct (decide (u = t)) as [-> | Hne].
    + exists c'. rewrite lookup_insert_eq. simplify_eq. auto.
    + exists d. by rewrite lookup_insert_ne.
  - intros u (d & Hd & Hp)%elem_of_testing. apply lookup_insert_Some in Hd as [[<- <-] | [_ Hd]]; [auto | ].
    left. apply elem_of_testing. eauto.
Qed.

Lemma watched_code w k k' t c c' :
  watched w k -> codes k !! t = Some c -> codes k' = <[t := c']> (codes k) -> shaped c' -> Forall spares c' ->
  (PLoop s ∈ c -> PLoop s ∈ c') -> (PLoop s ∈ c' -> PLoop s ∈ c \/ (t ∈ w /\ doomed k <> Some t)) ->
  semaphores k' !! s = semaphores k !! s -> nextAddress k' = nextAddress k -> scheduler k' = scheduler k -> watched w k'.
Proof.
  intros [] Hc E Hsh Hsp H1 H2 E2 E3 E4. destruct (testing_more _ _ _ _ Hc H1) as [Hsub Hnew].
  assert (Hnew' : forall u, u ∈ testing (<[t := c']> (codes k)) -> u ∈ testing (codes k) \/ (u = t /\ t ∈ w /\ doomed k <> Some t)).
  { intros u Hu. destruct (Hnew u Hu) as [ | [-> Hp]]; [auto | ]. destruct (H2 Hp); [ | auto]. left. apply elem_of_testing. eauto. }
  unfold doomed, ready_of in *. split; unfold doomed, ready_of; rewrite ?E2, ?E3, ?E4, ?E; eauto.
  - intros u d Hd. apply lookup_insert_Some in Hd as [[<- <-] | [_ Hd]]; eauto.
  - intros x Hx Hq. destruct (wd_value0 x Hx Hq). split; [done | ]. pose proof (subseteq_size _ _ Hsub). lia.
  - intros u Hu Hin. destruct (Hnew' u Hin) as [ | (-> & _ & Hd)]; [ | done]. by eapply wd_doomed0.
  - intros u Hu. destruct (Hnew' u Hu) as [ | (-> & Hw & _)]; auto.
Qed.

(** ** What code keeps while one thread runs

    The current thread stays [t], with code in [X] ahead of it.  Interrupt
    handlers, with interrupts [off], leave the code of all threads alone. *)
Definition kept w t (X : list instr -> Prop) (off : bool) k : Prop :=
  watched w k /\ few k /\ currentThread k = t /\ (exists c, codes k !! t = Some c /\ X c) /\ (off = true -> level_of k = IntOff).

Section Kept.
Context (w : list nat) (t : nat) (X : list instr -> Prop) (off : bool).
Notation wakes m := (keeps any_fault (kept w t X off) anything m).

Lemma few_codes k k' : few k -> codes k' = codes k -> few k'.
Proof. unfold few. intros H E. rewrite <- (map_size_fmap code (threads k')). fold (codes k'). rewrite E. unfold codes. by rewrite map_size_fmap. Qed.

Lemma kept_frame k k' :
  kept w t X off k -> codes k' = codes k -> semaphores k' !! s = semaphores k !! s -> (nextAddress k <= nextAddress k')%nat ->
  (forall u, u ∈ ready_of k -> u ∈ ready_of k') -> (doomed k' = doomed k \/ doomed k' = None) ->
  currentThread k' = currentThread k -> (off = true -> level_of k' = level_of k) -> kept w t X off k'.
Proof.
  intros (Hw & Hf & Hc & HX & Hl) E1 E2 E3 E4 E5 E6 E7. split_and!.
  - apply (watched_frame w w k k'); auto.
  - by eapply few_codes.
  - congruence.
  - by rewrite E1.
  - intros Ho. rewrite E7; auto.
Qed.

Lemma wakes_frame (f : K -> K) :
  (forall k, codes (f k) = codes k) -> (forall k, semaphores (f k) !! s = semaphores k !! s) ->
  (forall k, (nextAddress k <= nextAddress (f k))%nat) -> (forall k u, u ∈ ready_of k -> u ∈ ready_of (f k)) ->
  (forall k, doomed (f k) = doomed k \/ doomed (f k) = None) -> (forall k, currentThread (f k) = currentThread k) ->
  (off = true -> forall k, level_of (f k) = level_of k) -> wakes (modify f).
Proof. intros H1 H2 H3 H4 H5 H6 H7 k Hk. apply wp_modify. split; [done | ]. apply (kept_frame k); auto. Qed.

Lemma wakes_lift {A} (r : res A) : wakes (lift r).
Proof. by apply keeps_lift. Qed.

Lemma codes_same k u x y : threads k !! u = Some x -> code y = code x -> codes (with_threads k (<[u := y]> (threads k))) = codes k.
Proof. intros Hx Hy. rewrite codes_thread, Hy. apply insert_id. unfold codes. by rewrite lookup_fmap, Hx. Qed.

Lemma wakes_upd u f : (forall x, code (f x) = code x) -> wakes (upd_thread u f).
Proof.
  intros Hf k Hk. unfold upd_thread, get_thread, put_thread, find, wp. run. destruct (threads k !! u) as [x | ] eqn:Hx; [ | done].
  split; [done | ]. apply (kept_frame k); auto. by eapply codes_same.
Qed.

Lemma wakes_put_semaphore s' x : s' <> s -> wakes (put_semaphore s' x).
Proof. intros Hne. apply wakes_frame; auto. intros k. simpl. by rewrite lookup_insert_ne. Qed.

End Kept.
End Semaphore.
End Wakeup.

Ltac wakes1 :=
  match goal with
  | |- keeps _ _ _ (_ ≫= _) => eapply keeps_bind; [ | intros ? ?]
  | |- keeps _ _ ?P (mret _) => first [is_evar P; apply (keeps_ret anything); exact I | apply keeps_ret]
  | |- keeps _ _ _ (lift _) => apply wakes_lift
  | |- keeps _ _ _ (find _) => apply wakes_lift
  | |- keeps _ _ _ (gets _) => apply (keeps_gets anything); intros; exact I
  | |- keeps _ _ _ (modify _) => apply wakes_frame; first [solve [auto] | by intros]
  | |- keeps _ _ _ (upd_thread _ _) => apply wakes_upd; by intros
  | |- keeps _ _ _ (if _ then _ else _) => apply keeps_if; intros ?
  | |- keeps _ _ _ (match ?x with _ => _ end) => destruct x
  | |- anything _ => exact I
  end.
Create HintDb wakes.
Ltac wakes := repeat first [wakes1 | solve [eauto with wakes]
  | progress unfold get_thread, get_semaphore, get_lock, get_condition, get_synchList, put_lock, put_condition, put_synchList,
      assert_off, getLevel, set_interrupt, set_status, set_pending, set_inHandler, set_yieldOnReturn, list_Append,
      new_address, IsHeldByCurrentThread, Interrupt_Halt, set_holder, list_append, list_take].

Section Operations.
Context {D : Type}.
Notation K := (Kern D).
Implicit Types (k : K) (c : list instr) (w : list nat).
Context (s : nat) (N : Z) (HN : N < 2 ^ 31 - 1).

Section Any.
Context (w : list nat) (t : nat) (X : list instr -> Prop) (off : bool).
Notation wakes m := (keeps any_fault (kept (D := D) s N w t X off) anything m).

Lemma wakes_ReadyToRun u : wakes (ReadyToRun u).
Proof.
  unfold ReadyToRun. eapply keeps_bind; [wakes | intros ? _]. eapply keeps_bind; [wakes | intros ? _].
  intros k Hk. apply wp_bind, wp_gets, wp_bind. unfold list_Append. apply wp_bind. unfold wp at 1, lift, ASSERT.
  destruct (negb _); [ | done]. apply wp_ret, wp_modify. split; [done | ]. apply (kept_frame s N w t X off k); auto.
  intros v Hv. unfold ready_of. simpl. by apply elem_of_app; left.
Qed.

(** Turning interrupts off *)
Lemma wakes_off : keeps any_fault (kept (D := D) s N w t X off) (fun lv => off = true -> lv = IntOff) (SetLevel IntOff).
Proof.
  intros k Hk. eapply wp_ok; [apply SetLevel_off | ]. split; [by apply Hk | ]. apply (kept_frame s N w t X off k); auto.
  intros Ho. simpl. symmetry. by apply Hk.
Qed.

Lemma wakes_on_machine {A} (x : stM (Machine * unit) A) : wakes (on_machine x).
Proof. unfold on_machine. wakes. Qed.

Lemma wakes_Schedule o d ty : wakes (Schedule o d ty).
Proof. unfold Schedule. wakes. Qed.

Lemma level_set_semaphores k x : level_of (with_semaphores k x) = level_of k.
Proof. done. Qed.

(** [V] of the semaphore: the first waiting thread becomes ready, and the value
    one more, which it or another will find. *)
Lemma V_watched k x u q :
  kept s N w t X off k -> semaphores k !! s = Some x -> queue x = u :: q ->
  forall k', codes k' = codes k -> semaphores k' = <[s := mkSemaphore (to_i32 (value x + 1)) q]> (semaphores k) ->
  nextAddress k' = nextAddress k -> currentThread k' = currentThread k -> level_of k' = level_of k ->
  ready_of k' = ready_of k ++ [u] -> doomed k' = doomed k -> kept s N w t X off k'.
Proof.
  intros (Hw & Hf & Hc & HX & Hl) Hx Hq k' E1 E2 E3 E4 E5 E6 E7. split_and!; [ | by eapply few_codes | congruence | by rewrite E1 | rewrite E5; done].
  destruct (wd_value s w k Hw x Hx) as [Hv Ht]; [by rewrite Hq | ]. pose proof (testing_few s N k Hf) as Hn.
  rewrite Hq in Ht. simpl in Ht. pose proof (wd_nodup s w k Hw x Hx) as Hnd. rewrite Hq in Hnd. apply NoDup_cons in Hnd as [Hu Hnd].
  assert (to_i32 (value x + 1) = value x + 1) as Ei by (apply to_i32_id; unfold is_i32; lia).
  destruct Hw. split; rewrite ?E1, ?E2, ?E3, ?lookup_insert_eq; eauto.
  - intros y v [= <-] Hv'. simpl in Hv'. eapply wd_queue0; [exact Hx | rewrite Hq; by right].
  - by intros y [= <-].
  - intros y [= <-] _. simpl. rewrite Ei. lia.
  - rewrite E7. eauto.
  - intros v Hv'. rewrite E6. destruct (wd_place0 v Hv') as [H | [H | (y & Hy & H)]]; [auto | right; left; apply elem_of_app; auto | ].
    assert (y = x) as -> by congruence. rewrite Hq in H. apply elem_of_cons in H as [-> | H].
    + right. left. apply elem_of_app. right. by left.
    + right. right. eexists. by split.
Qed.

(** [V] of an empty queue *)
Lemma V_empty k x :
  kept s N w t X off k -> semaphores k !! s = Some x -> queue x = [] -> forall v,
  kept s N w t X off (with_semaphores k (<[s := mkSemaphore v []]> (semaphores k))).
Proof.
  intros (Hw & Hf & Hc & HX & Hl) Hx Hq v. split_and!; [ | done | done | done | done]. destruct Hw.
  split; simpl; rewrite ?lookup_insert_eq; eauto.
  - intros y u [= <-] Hu. by apply not_elem_of_nil in Hu.
  - intros y [= <-]. apply NoDup_nil_2.
  - intros y [= <-]. by simpl.
  - intros u Hu. change (ready_of (with_semaphores k _)) with (ready_of k).
    destruct (wd_place0 u Hu) as [H | [H | (y & Hy & H)]]; [auto | auto | ].
    assert (y = x) as -> by congruence. rewrite Hq in H. by apply not_elem_of_nil in H.
Qed.

(** What [ReadyToRun] does when it returns *)
Lemma ReadyToRun_effect (Q : unit -> K -> Prop) u k :
  (forall k', codes k' = codes k -> semaphores k' = semaphores k -> nextAddress k' = nextAddress k ->
     currentThread k' = currentThread k -> level_of k' = level_of k -> ready_of k' = ready_of k ++ [u] ->
     doomed k' = doomed k -> Q tt k') -> wp any_fault Q (ReadyToRun u) k.
Proof.
  intros HQ. unfold ReadyToRun, assert_off, getLevel, upd_thread, get_thread, put_thread, set_readyList, list_Append, find, wp.
  run. unfold ASSERT. destruct (bool_decide _); [ | done]. destruct (threads k !! u) as [x | ] eqn:Hx; [ | done].
  cbn [scheduler with_threads]. destruct (negb _); [ | done]. apply HQ; try done. by eapply codes_same.
Qed.

Lemma V_other s' x : s' <> s ->
  wakes (match queue x with
    | [] => put_semaphore s' (mkSemaphore (to_i32 (value x + 1)) [])
    | u :: q => put_semaphore s' (mkSemaphore (value x) q);; ReadyToRun u;; put_semaphore s' (mkSemaphore (to_i32 (value x + 1)) q)
    end).
Proof. intros Hne. destruct (queue x); wakes; try (by apply wakes_put_semaphore); apply wakes_ReadyToRun. Qed.

Lemma wakes_V s' : keeps any_fault (kept (D := D) s N w t X off) (fun lv => off = true -> lv = IntOff) (Semaphore_V s').
Proof.
  unfold Semaphore_V. eapply keeps_bind; [apply wakes_off | intros lv Hlv]. intros k Hk.
  apply wp_bind. unfold get_semaphore, find. apply wp_bind, wp_gets. unfold wp at 1, lift.
  destruct (semaphores k !! s') as [x | ] eqn:Hx; [ | done]. apply wp_bind. destruct (decide (s' = s)) as [-> | Hne].
  - destruct (queue x) as [ | u q] eqn:Hq.
    + apply wp_modify, wp_ret. split; [done | ]. by eapply V_empty.
    + apply wp_bind, wp_modify, wp_bind, ReadyToRun_effect. intros k' E1 E2 E3 E4 E5 E6 E7.
      apply wp_modify, wp_ret. split; [done | ]. apply (V_watched k x u q Hk Hx Hq); try done.
      simpl. rewrite E2. simpl. by rewrite insert_insert_eq.
  - eapply wp_mono; [apply V_other; done | ]. intros a k' [_ Hk']. by apply wp_ret.
Qed.

End Any.
#[local] Hint Resolve wakes_ReadyToRun wakes_on_machine wakes_Schedule : wakes.

(** *** Handlers *)

Lemma wakes_V_handler w t X s' : keeps any_fault (kept (D := D) s N w t X true) anything (V_handler s').
Proof.
  unfold V_handler. eapply keeps_bind; [apply wakes_V | intros lv Hlv]. rewrite Hlv by done.
  eapply keeps_bind; [apply wakes_off | intros ? _]. wakes.
Qed.

(** A device's handler wakes threads as [V] does and leaves their code alone; a
    request may put code before what the calling thread has to do. *)
Class DeviceWakes (device : nat -> stM K unit) (request : nat -> Z -> stM K unit) : Prop := {
  device_wakes d w t X : keeps any_fault (kept s N w t X true) anything (device d);
  request_wakes d arg w t : t ∈ w -> keeps any_fault (kept s N w t clean false) anything (request d arg)
}.

Context (RandomNumber : D -> Z * D) (device : nat -> stM K unit) (request : nat -> Z -> stM K unit).
Context (procs : nat -> Z -> list instr) `{!DeviceWakes device request}.
Hypothesis Hprocs : forall f a, clean (procs f a) /\ Forall (spares s) (procs f a).

Section Handlers.
Context (w : list nat) (t : nat) (X : list instr -> Prop).
Notation wakes m := (keeps any_fault (kept (D := D) s N w t X true) anything m).

Lemma wakes_CallBack o : wakes (CallBack RandomNumber device o).
Proof.
  destruct o as [ | d]; cbn [CallBack]; [ | apply device_wakes]. unfold Timer_CallBack, Alarm_CallBack, YieldOnReturn, SetInterrupt. wakes.
Qed.

Lemma wakes_fire_loop fuel : wakes (fire_loop RandomNumber device fuel).
Proof. induction fuel as [ | fuel IH]; cbn [fire_loop]; wakes. apply wakes_CallBack. Qed.

Lemma wakes_CheckIfDue adv : wakes (CheckIfDue RandomNumber device adv).
Proof. unfold CheckIfDue, fire. wakes; apply wakes_fire_loop. Qed.

Lemma wakes_Idle : wakes (Idle RandomNumber device).
Proof. unfold Idle. eapply keeps_bind; [wakes | intros ? _]. eapply keeps_bind; [apply wakes_CheckIfDue | intros b _]. wakes. Qed.

End Handlers.

(** The thread that has finished is deleted. *)
Lemma wakes_Destroy w t X off : keeps any_fault (kept (D := D) s N w t X off) anything CheckToBeDestroyed.
Proof.
  intros k (Hw & Hf & Hc & HX & Hl). unfold CheckToBeDestroyed. apply wp_bind, wp_gets.
  change (toBeDestroyed (scheduler k)) with (doomed k). destruct (doomed k) as [u | ] eqn:Hd; [ | by apply wp_ret].
  unfold delete_Thread. apply wp_bind, wp_bind, wp_gets, wp_bind. unfold wp at 1, lift, ASSERT.
  destruct (bool_decide_reflect (u = currentThread k)) as [ | Hne]; [done | ]. cbn [negb]. apply wp_modify, wp_modify.
  set (k' := with_scheduler _ _). assert (E : codes k' = delete u (codes k)) by (unfold k', codes; simpl; apply fmap_delete).
  pose proof (wd_doomed s w k Hw u Hd) as Hu. rewrite Hc in Hne.
  assert (Et : testing s (codes k') = testing s (codes k)).
  { apply leibniz_equiv. intros v. rewrite E, !elem_of_testing. destruct (decide (v = u)) as [-> | Hv].
    - rewrite lookup_delete_eq. rewrite elem_of_testing in Hu. naive_solver.
    - by rewrite lookup_delete_ne. }
  split; [done | ]. split_and!; [ | | done | rewrite E, lookup_delete_ne by done; done | done].
  - destruct Hw. split; rewrite ?Et; try done.
    intros v c Hv. rewrite E in Hv. apply lookup_delete_Some in Hv as [_ Hv]. eauto.
  - unfold few, k' in *. simpl. etransitivity; [ | exact Hf]. apply inj_le, map_subseteq_size, delete_subseteq.
Qed.
#[local] Hint Resolve wakes_Destroy : wakes.

Lemma wakes_Run_back w t X off : keeps any_fault (kept (D := D) s N w t X off) anything Run_back.
Proof. unfold Run_back, RestoreUserState. wakes. Qed.

(** *** Ordinary instructions *)

Section Ordinary.
Context (w : list nat) (t : nat) (Ht : t ∈ w).
Notation wakes m := (keeps any_fault (kept (D := D) s N w t clean false) anything m).

Lemma clean_app c c' : clean c -> clean c' -> clean (c ++ c').
Proof. intros H1 H2. by apply Forall_app. Qed.

Lemma wakes_push p : clean p -> Forall (spares s) p -> wakes (push p).
Proof.
  intros Hp Hs k (Hw & Hf & Hc & (c & Hcode & HX) & Hl). unfold push, upd_thread, get_thread, put_thread, find, wp. run.
  rewrite Hc. destruct (threads k !! t) as [x | ] eqn:Hx; [ | done].
  unfold codes in Hcode. rewrite lookup_fmap, Hx in Hcode. injection Hcode as Hcode. rewrite Hcode.
  set (k' := with_threads k _). assert (E : codes k' = <[t := p ++ c]> (codes k)) by apply codes_thread.
  assert (Hcc : codes k !! t = Some c) by (unfold codes; rewrite lookup_fmap, Hx; by rewrite <- Hcode).
  split; [done | ]. split_and!; [ | | done | exists (p ++ c) | done].
  - eapply (watched_code s w k k' t c (p ++ c)); try done.
    + left. by apply clean_app.
    + apply Forall_app. split; [done | ]. by apply (wd_code s w k Hw t c).
    + intros H. exfalso. by eapply clean_not.
    + intros H. exfalso. eapply clean_not; [ | exact H]. by apply clean_app.
  - unfold few. rewrite <- (map_size_fmap code (threads k')). fold (codes k'). rewrite E.
    rewrite map_size_insert_Some by (by exists c). unfold codes. by rewrite map_size_fmap.
  - rewrite E, lookup_insert_eq. split; [done | by apply clean_app].
Qed.

Ltac ordinary := repeat first [wakes1 | solve [eauto with wakes]
  | match goal with |- keeps _ _ _ (push _) => apply wakes_push; repeat constructor; try assumption end
  | progress unfold get_thread, get_semaphore, get_lock, get_condition, get_synchList, put_lock, put_condition, put_synchList,
      assert_off, getLevel, ChangeLevel, set_interrupt, set_status, set_yieldOnReturn, list_Append, IsHeldByCurrentThread].

Lemma wakes_SetLevel now : wakes (SetLevel now).
Proof. unfold SetLevel. ordinary. Qed.
#[local] Hint Resolve wakes_SetLevel : wakes.

Lemma wakes_V_call s' : wakes (V_call s').
Proof. unfold V_call. eapply keeps_bind; [apply wakes_V | intros lv _]. ordinary. Qed.
#[local] Hint Resolve wakes_V_call : wakes.

Lemma wakes_Release l : wakes (Lock_Release l).
Proof. unfold Lock_Release. ordinary. Qed.
#[local] Hint Resolve wakes_Release : wakes.

Lemma wakes_Signal cv l : wakes (Condition_Signal cv l).
Proof. unfold Condition_Signal. ordinary. Qed.
#[local] Hint Resolve wakes_Signal : wakes.

Lemma wakes_new_Semaphore v : keeps any_fault (kept (D := D) s N w t clean false) (fun a => a <> s) (new_Semaphore v).
Proof.
  intros k Hk. unfold new_Semaphore, new_address. apply wp_bind, wp_bind, wp_gets, wp_bind, wp_modify, wp_ret, wp_bind, wp_modify, wp_ret.
  destruct Hk as (Hw & Hk). pose proof (wd_addr s w k Hw). split; [lia | ].
  apply (kept_frame s N w t clean false k); try done; auto; [ | simpl; lia]. simpl. rewrite lookup_insert_ne by lia. done.
Qed.

Lemma wakes_Wait cv l : wakes (Condition_Wait cv l).
Proof.
  unfold Condition_Wait. do 3 (eapply keeps_bind; [ordinary | intros ? _]).
  eapply keeps_bind; [apply wakes_new_Semaphore | intros waiter Hwaiter]. ordinary.
Qed.

Lemma wakes_OneTick : wakes (OneTick RandomNumber device).
Proof.
  intros k (Hw & Hf & Hc & HX & _). unfold OneTick, ChangeLevel, set_interrupt. apply wp_bind, wp_gets, wp_bind, wp_modify, wp_bind, wp_modify, wp_bind.
  eapply wp_mono; [apply (wakes_CheckIfDue w t clean false) | ].
  { split_and!; try done. apply (watched_frame s w w k); auto. }
  intros b k' [_ (Hw' & Hf' & Hc' & HX' & _)]. assert (Hk' : kept s N w t clean false k') by (split_and!; done).
  match goal with |- wp _ _ ?m k' => enough (H : wakes m) by exact (H k' Hk') end. ordinary.
Qed.

(** The instructions that neither test a semaphore nor change threads *)
Definition ordinary_instr (i : instr) : Prop :=
  match i with Yield | Fork _ _ | P _ | PLoop _ | SleepLoop _ | Switched => False | _ => True end.

Lemma wakes_Append q i : wakes (SynchList_Append q i).
Proof. unfold SynchList_Append. ordinary. Qed.
#[local] Hint Resolve wakes_Append wakes_OneTick wakes_Wait : wakes.

(** Every one of them *)
Lemma wakes_exec i : ordinary_instr i -> spares s i -> wakes (exec RandomNumber device request procs i).
Proof.
  intros Ho Hs. destruct i; cbn [exec]; try done; try (by apply request_wakes).
  all: unfold Lock_Acquire, Condition_Broadcast, SynchList_RemoveFront, delete_Semaphore, new_SynchList, Interrupt_Halt, Thread_Begin, Enable,
    Thread_Finish, Thread_Sleep, set_holder, list_append, list_wait, list_take; ordinary.
  - by apply wakes_put_semaphore.
  - apply wakes_frame; auto; try done. intros k. simpl. by rewrite lookup_delete_ne.
  - by apply wakes_put_semaphore.
  - apply Hprocs.
  - apply Hprocs.
Qed.

End Ordinary.

(** *** The instructions that test or switch *)

(** The current thread is awake, unless it is about to look for another thread
    to run in its place. *)
Definition awake k : list nat :=
  match codes k !! currentThread k with Some (SleepLoop _ :: _) => [] | _ => [currentThread k] end.

Definition ready_to_test k : Prop := watched s (awake k) k.

Lemma settled k c :
  watched s [currentThread k] k -> codes k !! currentThread k = Some c ->
  (clean c \/ (forall b c', c <> SleepLoop b :: c')) -> ready_to_test k.
Proof.
  intros Hw Hc H. unfold ready_to_test, awake. rewrite Hc. destruct c as [ | i c']; [done | ].
  destruct i; try done. destruct H as [H | H]; [ | by destruct (H finishing c')].
  eapply watched_drop; [exact Hw | ]. rewrite elem_of_testing. intros (d & Hd & Hp). simplify_eq. by eapply clean_not.
Qed.

Lemma kept_settled k t : kept s N [t] t clean false k -> ready_to_test k.
Proof. intros (Hw & _ & <- & (c & Hc & HX) & _). eapply settled; [done | done | by left]. Qed.

(** What [push] does when it returns *)
Lemma push_effect (Q : unit -> K -> Prop) p c k :
  codes k !! currentThread k = Some c ->
  (forall k', codes k' = <[currentThread k := p ++ c]> (codes k) -> semaphores k' = semaphores k -> nextAddress k' = nextAddress k ->
     currentThread k' = currentThread k -> scheduler k' = scheduler k -> interrupt k' = interrupt k -> Q tt k') ->
  wp any_fault Q (push p) k.
Proof.
  intros Hc HQ. unfold push, upd_thread, get_thread, put_thread, find, wp. run.
  destruct (threads k !! currentThread k) as [x | ] eqn:Hx; [ | done]. apply HQ; try done.
  rewrite codes_thread. simpl. unfold codes in Hc. rewrite lookup_fmap, Hx in Hc. by injection Hc as <-.
Qed.

(** Calling [P]: a test lies ahead. *)
Lemma wakes_P k s' t :
  kept s N [t] t clean false k -> doomed k <> Some t -> wp any_fault (fun _ => ready_to_test) (Semaphore_P s') k.
Proof.
  intros (Hw & Hf & Hc & (c & Hcode & HX) & _) Hd. unfold Semaphore_P. apply wp_bind. eapply wp_ok; [apply SetLevel_off | ].
  eapply push_effect; [simpl; by rewrite Hc | ]. intros k2 E1 E2 E3 E4 E5 E6. simpl in E1, E4. rewrite Hc in E1, E4.
  assert (Hc2 : codes k2 !! currentThread k2 = Some (PLoop s' :: SetLevel_ (level_of k) :: c)) by (rewrite E4, E1; apply lookup_insert_eq).
  eapply settled; [ | exact Hc2 | by right]. rewrite E4. destruct (wd_code s _ k Hw t c Hcode) as [_ Hs].
  eapply (watched_code s [t] k k2 t c); try done.
  - right. exists s', (SetLevel_ (level_of k) :: c). split; [by constructor | by left].
  - by repeat constructor.
  - intros H. exfalso. by eapply clean_not.
  - right. split; [by left | done].
  - by rewrite E2.
Qed.

(** *** One test *)

(** The state [k'] is [k] but for the code of one thread and the semaphores. *)
Record differs k k' : Prop := {
  df_next : nextAddress k' = nextAddress k;
  df_current : currentThread k' = currentThread k;
  df_scheduler : scheduler k' = scheduler k
}.

Lemma P_loop_effect (Q : unit -> K -> Prop) s' t c k :
  currentThread k = t -> codes k !! t = Some c ->
  (forall x k', semaphores k !! s' = Some x -> value x = 0 -> t ∉ queue x ->
     codes k' = <[t := SleepLoop false :: PLoop s' :: c]> (codes k) ->
     semaphores k' = <[s' := mkSemaphore (value x) (queue x ++ [t])]> (semaphores k) -> differs k k' -> Q tt k') ->
  (forall x, semaphores k !! s' = Some x -> value x <> 0 ->
     Q tt (with_semaphores k (<[s' := mkSemaphore (to_i32 (value x - 1)) (queue x)]> (semaphores k)))) ->
  wp any_fault Q (P_loop s') k.
Proof.
  intros Ht Hc H1 H2. unfold P_loop, get_semaphore, find. apply wp_bind, wp_bind, wp_gets. unfold wp at 1, lift.
  destruct (semaphores k !! s') as [x | ] eqn:Hx; [ | done]. destruct (Z.eqb_spec (value x) 0) as [Hv | Hv]; [ | apply wp_modify; by apply H2].
  apply wp_bind, wp_gets. unfold list_Append. apply wp_bind, wp_bind. unfold wp at 1, lift, ASSERT.
  destruct (bool_decide_reflect (currentThread k ∈ queue x)) as [ | Hq]; [done | ]. cbn [negb]. apply wp_ret, wp_bind, wp_modify, wp_bind.
  eapply push_effect; [simpl; rewrite Ht; exact Hc | ]. intros k1 E1 E2 E3 E4 E5 E6. simpl in E1, E2, E3, E4, E5. rewrite Ht in E1, E4, E2, Hq.
  unfold Thread_Sleep. apply wp_bind, wp_gets, wp_bind. unfold assert_off, getLevel. apply wp_bind, wp_gets. unfold wp at 1, lift, ASSERT.
  destruct (bool_decide _); [ | done]. apply wp_bind. unfold upd_thread, get_thread, find. apply wp_bind, wp_bind, wp_gets. unfold wp at 1, lift.
  destruct (threads k1 !! currentThread k1) as [y | ] eqn:Hy; [ | done]. apply wp_modify. rewrite E4 in Hy |- *.
  assert (Ec : codes (with_threads k1 (<[t := with_status y BLOCKED]> (threads k1))) = codes k1) by (by eapply codes_same).
  eapply push_effect; [simpl; rewrite E4, Ec, E1; apply lookup_insert_eq | ]. intros k2 F1 F2 F3 F4 F5 F6. simpl in F2, F3, F4, F5.
  cbn [currentThread with_threads] in F1. rewrite E4 in F1. apply (H1 x); [done | done | done | | congruence | split; congruence].
  rewrite F1, Ec, E1, insert_insert_eq. done.
Qed.

(** The thread finds 0 and queues. *)
Lemma watched_block k k' t c x :
  watched s [t] k -> codes k !! t = Some (PLoop s :: c) -> semaphores k !! s = Some x -> value x = 0 -> t ∉ queue x ->
  codes k' = <[t := SleepLoop false :: PLoop s :: c]> (codes k) ->
  semaphores k' = <[s := mkSemaphore (value x) (queue x ++ [t])]> (semaphores k) -> differs k k' -> watched s [] k'.
Proof.
  intros Hw Hc Hx Hv Hq E1 E2 [D1 D2 D3]. destruct (wd_code s _ k Hw t _ Hc) as [Hsh [_ Hsp]%Forall_cons].
  pose proof (shaped_tail _ _ Hsh ltac:(done) ltac:(done)) as Hcl.
  destruct (testing_more s (codes k) t _ (SleepLoop false :: PLoop s :: c) Hc) as [Hsub Hnew]; [intros _; right; by left | ].
  assert (Ht : t ∈ testing s (codes k)) by (apply elem_of_testing; eexists; split; [exact Hc | by left]).
  assert (Et : testing s (codes k') = testing s (codes k)).
  { rewrite E1. apply leibniz_equiv. apply set_equiv_subseteq. split; [ | done]. intros u Hu. destruct (Hnew u Hu) as [ | [-> _]]; done. }
  destruct Hw. unfold doomed, ready_of in *.
  split; unfold doomed, ready_of; rewrite ?Et, ?E2, ?D1, ?D3, ?lookup_insert_eq; eauto.
  - intros u d Hd. rewrite E1 in Hd. apply lookup_insert_Some in Hd as [[<- <-] | [_ Hd]]; [ | eauto]. split; [ | by repeat constructor].
    right. exists s, c. auto.
  - intros y u [= <-] Hu. apply elem_of_app in Hu as [Hu | ->%list_elem_of_singleton]; [by eapply wd_queue0 | done].
  - intros y [= <-]. apply NoDup_app. split_and!; [by apply wd_nodup0 | | apply NoDup_singleton].
    intros u Hu ->%list_elem_of_singleton. done.
  - intros y [= <-] _. cbn [value queue]. rewrite Hv. split; [done | ].
    assert (Hnd : NoDup (queue x ++ [t])).
    { apply NoDup_app. split_and!; [by apply wd_nodup0 | | apply NoDup_singleton]. intros u Hu ->%list_elem_of_singleton. done. }
    rewrite <- (size_list_to_set (C := gset nat)) by done.
    assert (size (list_to_set (queue x ++ [t]) : gset nat) <= size (testing s (codes k)))%nat; [ | lia]. apply subseteq_size.
    intros u Hu. apply elem_of_list_to_set, elem_of_app in Hu as [Hu | ->%list_elem_of_singleton]; [by eapply wd_queue0 | done].
  - intros u Hu. destruct (wd_place0 u Hu) as [->%list_elem_of_singleton | [H | (y & Hy & H)]].
    + right. right. eexists. split; [done | ]. apply elem_of_app. right. by left.
    + auto.
    + right. right. simplify_eq. eexists. split; [done | ]. apply elem_of_app. by left.
Qed.

(** The thread finds a unit and takes it. *)
Lemma watched_take k k' t c x :
  watched s [t] k -> few N k -> codes k !! t = Some (PLoop s :: c) -> semaphores k !! s = Some x -> value x <> 0 -> t ∉ queue x ->
  codes k' = <[t := c]> (codes k) -> semaphores k' = <[s := mkSemaphore (to_i32 (value x - 1)) (queue x)]> (semaphores k) ->
  differs k k' -> watched s [t] k'.
Proof.
  intros Hw Hf Hc Hx Hv Hq E1 E2 [D1 D2 D3]. destruct (wd_code s _ k Hw t _ Hc) as [Hsh [_ Hsp]%Forall_cons].
  pose proof (shaped_tail _ _ Hsh ltac:(done) ltac:(done)) as Hcl. pose proof (testing_few s N k Hf) as Hn.
  assert (Ht : t ∈ testing s (codes k)) by (apply elem_of_testing; eexists; split; [exact Hc | by left]).
  assert (Et : forall u, u ∈ testing s (codes k') <-> u ∈ testing s (codes k) /\ u <> t).
  { intros u. rewrite E1, !elem_of_testing. destruct (decide (u = t)) as [-> | Hne].
    - rewrite lookup_insert_eq. split; [ | naive_solver]. intros (d & [= <-] & Hp). by apply clean_not in Hp.
    - rewrite lookup_insert_ne by done. naive_solver. }
  assert (Es : size (testing s (codes k)) = S (size (testing s (codes k')))).
  { transitivity (size ({[t]} ∪ testing s (codes k') : gset nat)).
    - f_equal. apply leibniz_equiv. intros u. rewrite elem_of_union, elem_of_singleton, Et. destruct (decide (u = t)); naive_solver.
    - rewrite size_union; [by rewrite size_singleton | ]. intros u ->%elem_of_singleton [_ ?]%Et. done. }
  destruct Hw. unfold doomed, ready_of in *.
  split; unfold doomed, ready_of; rewrite ?E2, ?D1, ?D3, ?lookup_insert_eq; eauto.
  - intros u d Hd. rewrite E1 in Hd. apply lookup_insert_Some in Hd as [[<- <-] | [_ Hd]]; [ | eauto]. split; [by left | done].
  - intros y u [= <-] Hu. apply Et. split; [by eapply wd_queue0 | ]. intros ->. done.
  - intros y [= <-]. cbn [queue]. by apply wd_nodup0.
  - intros y [= <-] Hne. cbn [value queue] in *. destruct (wd_value0 x Hx Hne) as [H0 H1].
    rewrite to_i32_id by (unfold is_i32; lia). lia.
  - intros u Hu [Hu' _]%Et. by eapply wd_doomed0.
  - intros u [Hu Hne]%Et. destruct (wd_place0 u Hu) as [H | [H | (y & Hy & H)]]; [auto | auto | ].
    right. right. simplify_eq. eexists. by split.
Qed.

(** After the test the thread waits with its next test ahead, or goes on. *)
Lemma wakes_PLoop k k1 t s' c :
  watched s [t] k -> few N k -> currentThread k = t -> codes k !! t = Some (PLoop s' :: c) ->
  (forall x, semaphores k !! s = Some x -> t ∉ queue x) ->
  codes k1 = <[t := c]> (codes k) -> semaphores k1 = semaphores k -> differs k k1 ->
  wp any_fault (fun _ => ready_to_test) (P_loop s') k1.
Proof.
  intros Hw Hf Ht Hc Hq E1 E2 [D1 D2 D3]. destruct (wd_code s _ k Hw t _ Hc) as [Hsh [_ Hsp]%Forall_cons].
  pose proof (shaped_tail _ _ Hsh ltac:(done) ltac:(done)) as Hcl. rewrite Ht in D2.
  apply (P_loop_effect _ s' t c); [done | rewrite E1; apply lookup_insert_eq | | ].
  - intros x k' Hx Hv Hnq F1 F2 [G1 G2 G3]. rewrite E1, insert_insert_eq in F1. rewrite E2 in Hx, F2.
    unfold ready_to_test, awake. rewrite F1, G2, D2, lookup_insert_eq. destruct (decide (s' = s)) as [-> | Hne].
    + eapply (watched_block k k' t c x); try done. split; congruence.
    + apply (watched_drop s [] t).
      * eapply (watched_code s [t] k k' t); [done | exact Hc | exact F1 | | | | | | congruence | congruence].
        -- right. exists s', c. auto.
        -- by repeat constructor.
        -- intros [[= ->] | H]%elem_of_cons; [done | by apply clean_not in H].
        -- intros [[=] | [[= ->] | H]%elem_of_cons]%elem_of_cons; [done | by apply clean_not in H].
        -- rewrite F2. by rewrite lookup_insert_ne.
      * rewrite elem_of_testing, F1, lookup_insert_eq. intros (d & [= <-] & Hp).
        apply elem_of_cons in Hp as [Hp | Hp]; [done | ]. apply elem_of_cons in Hp as [Hp | Hp]; [congruence | by apply clean_not in Hp].
  - intros x Hx Hv. rewrite E2 in Hx |- *. set (k' := with_semaphores _ _). eapply (settled k' c); [ | | by left].
    2:{ unfold k'. simpl. change (codes (with_semaphores k1 _)) with (codes k1). rewrite D2, E1. apply lookup_insert_eq. }
    change (currentThread k') with (currentThread k1). rewrite D2. destruct (decide (s' = s)) as [-> | Hne].
    + eapply (watched_take k k' t c x); try done; [by apply Hq | split; simpl; congruence].
    + eapply (watched_code s [t] k k' t); [done | exact Hc | exact E1 | by left | done | | | | done | done].
      * intros [[= ->] | H]%elem_of_cons; [done | by apply clean_not in H].
      * intros H. by apply clean_not in H.
      * unfold k'. simpl. by rewrite lookup_insert_ne.
Qed.

(** *** Giving the processor away *)

(** Nothing that matters here has changed. *)
Definition alike k0 k : Prop :=
  codes k = codes k0 /\ semaphores k = semaphores k0 /\ nextAddress k = nextAddress k0 /\ currentThread k = currentThread k0 /\
  ready_of k = ready_of k0 /\ doomed k = doomed k0.

Lemma alike_on_machine {A} k0 (x : stM (Machine * unit) A) : keeps any_fault (alike k0) anything (on_machine x).
Proof.
  intros k Hk. unfold on_machine, find, wp. run. destruct (machine k) as [m | ]; [ | done]. by destruct (x (m, tt)) as [[a [m' []]] | ].
Qed.

Lemma alike_Save k0 t : keeps any_fault (alike k0) anything (SaveUserState t).
Proof.
  unfold SaveUserState. eapply keeps_bind; [apply alike_on_machine | intros r _]. intros k Hk.
  unfold upd_thread, get_thread, put_thread, find, wp. run. destruct (threads k !! t) as [x | ] eqn:Hx; [ | done]. split; [done | ].
  destruct Hk as (E & Hk). split; [ | done]. rewrite <- E. by eapply codes_same.
Qed.

Lemma alike_user k0 t (sp : option AddrSpace) :
  keeps any_fault (alike k0) anything (match sp with None => mret tt | Some a => SaveUserState t;; on_machine (SaveState a) end).
Proof.
  destruct sp; [ | by apply keeps_ret]. eapply keeps_bind; [apply alike_Save | intros ? _]. apply alike_on_machine.
Qed.

(** The next thread starts or goes on: what [Scheduler::Run] does *)
Lemma Run_effect (Q : unit -> K -> Prop) n (fin : bool) c k :
  codes k !! currentThread k = Some c ->
  (forall k', codes k' = <[currentThread k := Switched :: c]> (codes k) -> semaphores k' = semaphores k -> nextAddress k' = nextAddress k ->
     currentThread k' = n -> ready_of k' = ready_of k -> doomed k' = (if fin then Some (currentThread k) else doomed k) -> Q tt k') ->
  wp any_fault Q (Scheduler_Run n fin) k.
Proof.
  intros Hc HQ. unfold Scheduler_Run. apply wp_bind, wp_gets, wp_bind. unfold assert_off, getLevel. apply wp_bind, wp_gets.
  unfold wp at 1, lift, ASSERT. destruct (bool_decide _); [ | done]. apply wp_bind.
  set (k0 := with_scheduler k (mkScheduler (ready_of k) (if fin then Some (currentThread k) else doomed k))).
  apply (wp_mono (fun _ => alike k0)).
  { destruct fin; [ | by apply wp_ret]. apply wp_bind, wp_gets, wp_bind. unfold wp at 1, lift, ASSERT. destruct (bool_decide _); [ | done]. by apply wp_modify. }
  intros _ k1 H1. apply wp_bind. unfold get_thread, find. apply wp_bind, wp_gets. unfold wp at 1, lift.
  destruct (threads k1 !! currentThread k) as [x | ] eqn:Hx; [ | done]. apply wp_bind. eapply wp_mono; [apply (alike_user k0), H1 | ].
  intros _ k2 [_ H2]. apply wp_bind. apply (wp_mono (fun _ => alike k0)).
  { unfold CheckOverflow, get_thread, find. apply wp_bind, wp_bind, wp_gets. unfold wp at 1, lift. destruct (threads k2 !! _) as [y | ]; [ | done].
    destruct (stack y); [ | by apply wp_ret]. unfold wp, lift, ASSERT. by destruct (_ =? _). }
  intros _ k3 (E1 & E2 & E3 & E4 & E5 & E6). apply wp_bind. eapply push_effect; [rewrite E4, E1; exact Hc | ].
  intros k4 F1 F2 F3 F4 F5 F6. apply wp_bind, wp_modify. unfold upd_thread, get_thread, put_thread, find, wp. run.
  change (threads (with_current k4 n)) with (threads k4). destruct (threads k4 !! n) as [y | ] eqn:Hy; [ | done]. apply HQ; simpl; try congruence.
  - transitivity (codes (with_current k4 n)); [by eapply (codes_same (with_current k4 n)) | ].
    change (codes (with_current k4 n)) with (codes k4). by rewrite F1, E4, E1.
  - by rewrite F2.
  - by rewrite F3.
  - transitivity (ready_of k3); [ | exact E5]. unfold ready_of. by rewrite <- F5.
  - transitivity (doomed k3); [ | exact E6]. unfold doomed. by rewrite <- F5.
Qed.

(** A thread that was parked does not start by going to sleep. *)
Definition no_sleeper k n : Prop := forall c b c', codes k !! n = Some c -> c <> SleepLoop b :: c'.

(** The switch: the old thread has its place, the new one is awake. *)
Lemma wakes_Run w n fin c k :
  watched s (n :: w) k -> codes k !! currentThread k = Some c -> clean c \/ (exists c', clean c' /\ exists s', c = PLoop s' :: c') ->
  (n <> currentThread k -> no_sleeper k n) -> (forall t, t ∈ w -> t ∈ ready_of k) -> (fin = true -> currentThread k ∉ testing s (codes k)) ->
  wp any_fault (fun _ => ready_to_test) (Scheduler_Run n fin) k.
Proof.
  intros Hw Hc Hcl Hn Hr Hf. apply (Run_effect _ n fin c); [done | ]. intros k' E1 E2 E3 E4 E5 E6.
  destruct (wd_code s _ k Hw _ _ Hc) as [_ Hsp]. assert (Hin : PLoop s ∈ Switched :: c <-> PLoop s ∈ c) by set_solver.
  assert (Et : testing s (codes k') = testing s (codes k)).
  { rewrite E1. destruct (testing_more s (codes k) (currentThread k) c (Switched :: c) Hc) as [H1 H2]; [by intros ?; right | ].
    apply leibniz_equiv, set_equiv_subseteq. split; [ | done]. intros u Hu. destruct (H2 u Hu) as [ | [-> Hp]]; [done | ].
    apply elem_of_testing. exists c. split; [done | by apply Hin]. }
  assert (Hw' : watched s [n] k').
  { destruct Hw. split; rewrite ?Et, ?E2, ?E3, ?E5; eauto.
    - intros t d Hd. rewrite E1 in Hd. apply lookup_insert_Some in Hd as [[<- <-] | [_ Hd]]; [ | eauto]. split; [ | by constructor].
      destruct Hcl as [Hcl | (c' & Hc' & s' & ->)]; [left; by constructor | right; exists s', c'; auto].
    - intros t Ht. rewrite E6 in Ht. destruct fin; [injection Ht as <-; by apply Hf | eauto].
    - intros t Ht. destruct (wd_place0 t Ht) as [[-> | H]%elem_of_cons | H]; [left; by left | right; left; by apply Hr | auto]. }
  destruct (codes k' !! n) as [d | ] eqn:Hd.
  - eapply (settled k' d); rewrite ?E4; [done | done | right]. intros b d' ->. rewrite E1 in Hd.
    apply lookup_insert_Some in Hd as [[_ [=]] | [Hne Hd]]. by apply (Hn (not_eq_sym Hne) _ b d' Hd).
  - unfold ready_to_test, awake. by rewrite E4, Hd.
Qed.

Lemma FindNext_effect (Q : option nat -> K -> Prop) k :
  (level_of k = IntOff -> ready_of k = [] -> Q None k) ->
  (forall n l, level_of k = IntOff -> ready_of k = n :: l -> Q (Some n) (with_ready k l)) -> wp any_fault Q FindNextToRun k.
Proof.
  intros H1 H2. unfold FindNextToRun. apply wp_bind. unfold assert_off, getLevel. apply wp_bind, wp_gets.
  unfold wp at 1, lift, ASSERT. destruct (bool_decide_reflect (level (interrupt k) = IntOff)) as [Hl | ]; [ | done]. apply wp_bind, wp_gets.
  change (readyList (scheduler k)) with (ready_of k). destruct (ready_of k) as [ | n l] eqn:E; [by apply wp_ret, H1 | ].
  apply wp_bind, wp_modify, wp_ret. by apply (H2 n l).
Qed.

Lemma wakes_Yield k t :
  kept s N [t] t clean false k -> (forall n, n ∈ ready_of k -> n <> t -> no_sleeper k n) ->
  wp any_fault (fun _ => ready_to_test) Thread_Yield k.
Proof.
  intros Hk Hp. pose proof Hk as (Hw & Hf & Hc & (c & Hcode & HX) & _). unfold Thread_Yield. apply wp_bind. eapply wp_ok; [apply SetLevel_off | ].
  apply wp_bind, wp_gets, wp_bind. apply FindNext_effect.
  - intros _ _. apply wp_bind. eapply wp_mono; [apply (wakes_push [t] t [SetLevel_ (level_of k)]); [by repeat constructor.. | ] | ].
    { apply (kept_frame s N [t] t clean false k); auto. done. }
    intros _ k' [_ Hk']. apply wp_ret. by eapply kept_settled.
  - intros n l _ Hr. change (ready_of (set_off k)) with (ready_of k) in Hr. apply wp_bind. simpl. rewrite Hc.
    eapply push_effect; [simpl; rewrite Hc; exact Hcode | ]. intros k1 E1 E2 E3 E4 E5 E6. simpl in E1, E2, E3, E4, E5. rewrite Hc in E1, E4.
    destruct (wd_code s _ k Hw t c Hcode) as [_ Hsp]. assert (Hcl : clean (SetLevel_ (level_of k) :: c)) by (by constructor).
    assert (Hw1 : watched s [n; t] k1).
    { eapply (watched_code s [n; t] (with_ready k l) k1 t c); try done.
      - apply (watched_frame s [t] [n; t] k); auto; unfold ready_of; simpl.
        + intros u Hu. change (u ∈ ready_of k) in Hu. rewrite Hr in Hu. apply elem_of_cons in Hu as [-> | Hu]; [left; by left | by right].
        + intros u ->%list_elem_of_singleton. left. right. by left.
      - by left.
      - by constructor.
      - intros H. by apply clean_not in H.
      - intros H. by apply clean_not in H.
      - by rewrite E2. }
    apply wp_bind, ReadyToRun_effect. intros k2 F1 F2 F3 F4 F5 F6 F7.
    apply (wakes_Run [t] n false (SetLevel_ (level_of k) :: c)).
    + apply (watched_frame s [n; t] [n; t] k1); auto; [by rewrite F2 | lia | ]. intros u Hu. right. rewrite F6. apply elem_of_app. by left.
    + rewrite F4, E4, F1, E1. apply lookup_insert_eq.
    + by left.
    + rewrite F4, E4. intros Hne d b d' Hd. rewrite F1, E1, lookup_insert_ne in Hd by done. apply (Hp n); [rewrite Hr; by left | done | exact Hd].
    + intros u ->%list_elem_of_singleton. rewrite F6. apply elem_of_app. right. by left.
    + done.
Qed.

(** What follows [SleepLoop]: a test, or none *)
Lemma shaped_sleep b c : shaped (SleepLoop b :: c) -> clean c \/ (b = false /\ exists c', clean c' /\ exists s', c = PLoop s' :: c').
Proof.
  intros [[_ H]%Forall_cons | (s' & c' & Hc & [[=] | [[=] | [= -> ->]]])]; [by left | right; eauto].
Qed.

Lemma wakes_Sleep k t b c :
  watched s [] k -> few N k -> currentThread k = t -> codes k !! t = Some c -> shaped (SleepLoop b :: c) -> Forall (spares s) (SleepLoop b :: c) ->
  (forall n, n ∈ ready_of k -> n <> t -> no_sleeper k n) -> wp any_fault (fun _ => ready_to_test) (Sleep_loop RandomNumber device b) k.
Proof.
  intros Hw Hf Hc Hcode Hsh Hsp Hp. unfold Sleep_loop. apply wp_bind, FindNext_effect.
  - intros Hl _. apply wp_bind. eapply wp_mono; [apply (wakes_Idle [] t (eq c)) | ].
    { split_and!; try done. by exists c. }
    intros _ k1 [_ (Hw1 & _ & Hc1 & (d & Hd & <-) & _)]. eapply push_effect; [rewrite Hc1; exact Hd | ].
    intros k2 E1 E2 E3 E4 E5 E6. rewrite Hc1 in E1, E4. unfold ready_to_test, awake. rewrite E4, E1, lookup_insert_eq.
    eapply (watched_code s [] k1 k2 t c); [done.. | | | | |].
    + intros H. by right.
    + intros H. left. by apply elem_of_cons in H as [ | ].
    + by rewrite E2.
    + done.
    + done.
  - intros n l _ Hr. apply (wakes_Run [] n b c).
    + apply (watched_frame s [] [n] k); auto; unfold ready_of; simpl; [ | intros u Hu; by apply not_elem_of_nil in Hu].
      intros u Hu. change (u ∈ ready_of k) in Hu. rewrite Hr in Hu. apply elem_of_cons in Hu as [-> | Hu]; [left; by left | by right].
    + simpl. by rewrite Hc.
    + destruct (shaped_sleep b c Hsh) as [ | [_ ?]]; [by left | by right].
    + simpl. rewrite Hc. intros Hne. apply Hp; [rewrite Hr; by left | done].
    + intros u Hu. by apply not_elem_of_nil in Hu.
    + intros ->. simpl. rewrite Hc, elem_of_testing. change (codes (with_ready k l)) with (codes k). rewrite Hcode.
      intros (d & [= <-] & Hin). destruct (shaped_sleep true c Hsh) as [Hcl | [[=] _]]. by apply clean_not in Hin.
Qed.

Lemma wakes_Switched k t c :
  watched s [t] k -> few N k -> currentThread k = t -> codes k !! t = Some c -> shaped (Switched :: c) ->
  wp any_fault (fun _ => ready_to_test) Run_back k.
Proof.
  intros Hw Hf Hc Hcode Hsh. eapply wp_mono; [apply (wakes_Run_back [t] t (eq c) false) | ].
  { split_and!; try done. by exists c. }
  intros _ k' [_ (Hw' & _ & Hc' & (d & Hd & <-) & _)]. eapply (settled k' c); rewrite ?Hc'; [done | done | ].
  destruct Hsh as [[_ H]%Forall_cons | (s' & c' & _ & [[=] | [[= ->] | [=]]])]; [by left | by right].
Qed.

(** A new thread tests nothing yet. *)
Lemma watched_new w k k' a c :
  watched s w k -> codes k !! a = None -> codes k' = <[a := c]> (codes k) -> clean c -> Forall (spares s) c ->
  semaphores k' = semaphores k -> (nextAddress k <= nextAddress k')%nat -> scheduler k' = scheduler k -> watched s w k'.
Proof.
  intros [] Ha E1 Hc Hs E2 E3 E4. assert (Et : testing s (codes k') = testing s (codes k)).
  { rewrite E1. apply leibniz_equiv. intros u. rewrite !elem_of_testing. destruct (decide (u = a)) as [-> | Hne].
    - rewrite lookup_insert_eq, Ha. split; [ | naive_solver]. intros (d & [= <-] & H). by apply clean_not in H.
    - by rewrite lookup_insert_ne. }
  unfold doomed, ready_of in *. split; unfold doomed, ready_of; rewrite ?Et, ?E2, ?E4; eauto; [lia | ].
  intros t d Hd. rewrite E1 in Hd. apply lookup_insert_Some in Hd as [[<- <-] | [_ Hd]]; [ | eauto]. split; [by left | done].
Qed.

Lemma wakes_Fork k t f a :
  kept s N [t] t clean false k -> threads k !! nextAddress k = None ->
  wp any_fault (fun _ => ready_to_test) (u ← new_Thread; Thread_Fork u (procs f a)) k.
Proof.
  intros (Hw & Hf & Hc & (c & Hcode & HX) & _) Hnew. destruct (Hprocs f a) as [Hp1 Hp2]. set (u := nextAddress k) in *.
  assert (Hcu : codes k !! u = None) by (unfold codes; by rewrite lookup_fmap, Hnew).
  assert (Hne : t <> u) by (intros ->; congruence).
  unfold new_Thread, new_address, put_thread, Thread_Fork, StackAllocate, upd_thread, get_thread, find.
  apply wp_bind, wp_bind, wp_bind, wp_gets, wp_bind, wp_modify, wp_ret, wp_bind, wp_modify, wp_ret, wp_bind, wp_bind, wp_bind, wp_gets. fold u.
  unfold wp at 1, lift. simpl. rewrite lookup_insert_eq. apply wp_modify, wp_bind. eapply wp_ok; [apply SetLevel_off | ]. apply wp_bind.
  set (k1 := set_off _). assert (E1 : codes k1 = <[u := Begin :: procs f a ++ [Finish]]> (codes k)).
  { unfold k1, codes. simpl. by rewrite insert_insert_eq, fmap_insert. }
  assert (Hw1 : watched s [t] k1).
  { apply (watched_new [t] k k1 u (Begin :: procs f a ++ [Finish])); try done; [ | | simpl; lia].
    - constructor; [done | ]. apply clean_app; [done | by repeat constructor].
    - constructor; [done | ]. apply Forall_app. split; [done | by repeat constructor]. }
  apply ReadyToRun_effect. intros k2 F1 F2 F3 F4 F5 F6 F7. simpl in F4. rewrite Hc in F4.
  assert (Hcode2 : codes k2 !! t = Some c) by (rewrite F1, E1, lookup_insert_ne; done).
  eapply push_effect; [rewrite F4; exact Hcode2 | ]. intros k3 G1 G2 G3 G4 G5 G6. rewrite F4 in G1, G4.
  assert (Hcl : forall lv, clean (SetLevel_ lv :: c)) by (intros lv; by constructor).
  eapply (settled k3); rewrite ?G4; [ | rewrite G1; apply lookup_insert_eq | left; apply Hcl].
  eapply (watched_code s [t] k2 k3 t c); [ | done | exact G1 | by left; apply Hcl | | | | by rewrite G2 | done | done].
  - apply (watched_frame s [t] [t] k1); auto; [by rewrite F2 | rewrite F3; lia | ]. intros v Hv. right. rewrite F6. apply elem_of_app. by left.
  - constructor; [done | ]. by apply (wd_code s _ k Hw t c).
  - intros H. by apply clean_not in H.
  - intros H. apply clean_not in H; [done | apply Hcl].
Qed.

(** *** A step *)

Lemma ready_parked k n : kinv k -> n ∈ ready_of k -> n <> currentThread k -> no_sleeper k n.
Proof.
  intros Hk Hn Hne c b c' Hc. destruct (pl_ready _ _ _ _ _ _ (kinv_places _ Hk) n Hn) as (x & Hx & _ & Hp).
  destruct (Hp Hne) as (i & d & Hd & Hi & _). unfold codes in Hc. rewrite lookup_fmap, Hx in Hc. injection Hc as <-. rewrite Hd.
  intros [= -> _]. by destruct Hi.
Qed.

(** A thread that is not about to sleep waits nowhere. *)
Lemma awake_unqueued k i c x : kinv k -> codes k !! currentThread k = Some (i :: c) -> (forall b, i <> SleepLoop b) ->
  semaphores k !! s = Some x -> currentThread k ∉ queue x.
Proof.
  intros Hk Hc Hi Hx Hin. assert (cur_status k RUNNING) as (y & Hy & Hs).
  { unfold codes in Hc. rewrite lookup_fmap in Hc. destruct Hk as [lv d Hr _ _ | y _ _ _ Hy _ Hs | d Hb _ _ _ _ _ _ | Hb _ _ _ _ _].
    - apply Hr.
    - by exists y.
    - destruct (b_code _ _ Hb) as (y & Hy & Ey). rewrite Hy in Hc. injection Hc as Hc. rewrite Ey in Hc. injection Hc as <- _. by destruct (Hi false).
    - destruct (b_code _ _ Hb) as (y & Hy & Ey). rewrite Hy in Hc. injection Hc as Hc. rewrite Ey in Hc. injection Hc as <- _. by destruct (Hi true). }
  destruct (running_free _ _ _ _ _ _ _ (kinv_places _ Hk) Hy Hs) as [_ Hq]. apply Hq. by exists s, x.
Qed.

Lemma wakes_step k : kinv k -> few N k -> ready_to_test k ->
  wp any_fault (fun _ => ready_to_test) (step RandomNumber device request procs) k.
Proof.
  intros Hk Hf Hw. unfold step, fetch. apply wp_bind, wp_bind, wp_gets, wp_bind. unfold get_thread, find. apply wp_bind, wp_gets. unfold wp at 1, lift.
  set (t := currentThread k). destruct (threads k !! t) as [x | ] eqn:Hx; [ | done]. destruct (code x) as [ | i c] eqn:Ex; [done | ].
  apply wp_bind, wp_modify, wp_ret. set (k1 := with_threads k _).
  assert (Hc : codes k !! t = Some (i :: c)) by (unfold codes; rewrite lookup_fmap, Hx; simpl; by rewrite Ex).
  assert (E1 : codes k1 = <[t := c]> (codes k)) by apply codes_thread.
  assert (Hc1 : codes k1 !! t = Some c) by (rewrite E1; apply lookup_insert_eq).
  assert (Hf1 : few N k1) by (unfold few, k1; simpl; rewrite map_size_insert_Some; [done | by exists x]).
  assert (Hp : forall n, n ∈ ready_of k1 -> n <> t -> no_sleeper k1 n).
  { intros n Hn Hne d b d' Hd. rewrite E1, lookup_insert_ne in Hd by done. by apply (ready_parked k n Hk Hn Hne d b d'). }
  unfold ready_to_test, awake in Hw. fold t in Hw. rewrite Hc in Hw.
  assert (Hfetch : forall w, watched s w k -> (forall s', i <> PLoop s') -> watched s w k1 /\ shaped (i :: c) /\ Forall (spares s) (i :: c)).
  { intros w Hwk Hi. destruct (wd_code s _ k Hwk t _ Hc) as [Hsh Hsp]. split; [ | done].
    eapply (watched_code s w k k1 t); [done | exact Hc | exact E1 | by eapply shaped_rest | by apply Forall_cons in Hsp as [_ ?] | | | done | done | done].
    - intros [H | H]%elem_of_cons; [by destruct (Hi s) | done].
    - intros H. left. by right. }
  assert (Hcase : (exists b, i = SleepLoop b) \/ (exists s', i = PLoop s') \/ i = Switched \/
    ((forall b, i <> SleepLoop b) /\ (forall s', i <> PLoop s') /\ i <> Switched)) 
    by (destruct i; first [left; eexists; reflexivity | right; left; eexists; reflexivity | right; right; left; reflexivity
      | right; right; right; split_and!; intros; discriminate]).
  destruct Hcase as [[b ->] | [[s' ->] | [-> | (Hi1 & Hi2 & Hi3)]]]; cbn [exec].
  - destruct (Hfetch _ Hw ltac:(done)) as (Hw1 & Hsh & Hsp). by apply (wakes_Sleep k1 t b c).
  - apply (wakes_PLoop k k1 t s' c); try done. intros y Hy. by eapply awake_unqueued.
  - destruct (Hfetch _ Hw ltac:(done)) as (Hw1 & Hsh & Hsp). by apply (wakes_Switched k1 t c).
  - assert (Hw' : watched s [t] k) by (destruct i; try done; by destruct (Hi1 finishing)).
    destruct (Hfetch _ Hw' Hi2) as (Hw1 & Hsh & [Hsi _]%Forall_cons).
    assert (Hk1 : kept s N [t] t clean false k1) by (split_and!; try done; exists c; split; [done | by eapply shaped_tail]).
    pose proof (kinv_places _ Hk) as Hpl.
    assert (Ho : ordinary_instr i \/ i = Yield \/ (exists s', i = P s') \/ (exists f a, i = Fork f a)).
    { destruct i; first [left; exact I | right; left; reflexivity | right; right; left; eexists; reflexivity
        | right; right; right; eexists _, _; reflexivity
        | exfalso; first [by apply Hi3 | by destruct (Hi1 finishing) | by eapply Hi2]]. }
    destruct Ho as [Ho | [-> | [[s' ->] | (f & a & ->)]]]; cbn [exec].
    + eapply wp_mono; [apply (wakes_exec [t] t); [by left | done | done | exact Hk1] | ]. intros _ k' [_ Hk']. by eapply kept_settled.
    + by apply (wakes_Yield k1 t).
    + apply (wakes_P k1 s' t Hk1). intros Hd. by destruct (pl_destroy _ _ _ _ _ _ Hpl t Hd).
    + apply (wakes_Fork k1 t f a Hk1). simpl. destruct (<[t := _]> (threads k) !! nextAddress k) as [y | ] eqn:Hy; [ | done].
      assert (is_Some (threads k !! nextAddress k)) as Hs.
      { apply lookup_insert_Some in Hy as [[<- _] | [_ Hy]]; [by exists x | by exists y]. }
      apply (pl_next _ _ _ _ _ _ Hpl) in Hs. lia.
Qed.

(** *** Executions *)

Context {faulty : fault -> Prop} `{!DeviceOk faulty device, !RequestOk request}.
Hypothesis Hclient : forall f a, forallb client (procs f a) = true.

Lemma execution_wakes k n ks :
  execution RandomNumber device request procs k n ks -> kinv k -> ready_to_test k ->
  (forall k', k' ∈ ks -> room k' /\ few N k') -> forall k', k' ∈ ks -> ready_to_test k'.
Proof.
  intros Hx. induction Hx as [k | k k1 n ks E Hx IH]; intros Hk Hw Hf k' Hin.
  - by apply list_elem_of_singleton in Hin as ->.
  - destruct (Hf k) as [Hr Hfk]; [by left | ]. apply elem_of_cons in Hin as [-> | Hin]; [done | ]. apply IH; auto.
    + pose proof (step_inv RandomNumber device request procs Hclient k Hk Hr) as H. unfold wp in H. by rewrite E in H.
    + pose proof (wakes_step k Hk Hfk Hw) as H. unfold wp in H. by rewrite E in H.
    + intros k2 H2. apply Hf. by right.
Qed.

(** A kernel in which nobody has called [P] yet *)
Definition fresh k : Prop :=
  (exists x, semaphores k !! s = Some x /\ queue x = []) /\ (s < nextAddress k)%nat /\
  forall t y, threads k !! t = Some y -> clean (code y) /\ Forall (spares s) (code y).

Lemma fresh_ready k : fresh k -> ready_to_test k.
Proof.
  intros ((x & Hx & Hq) & Ha & Hc).
  assert (Hcode : forall t c, codes k !! t = Some c -> clean c /\ Forall (spares s) c).
  { intros t c Htc. unfold codes in Htc. rewrite lookup_fmap in Htc. destruct (threads k !! t) as [y | ] eqn:Hy; [ | done].
    injection Htc as <-. by eapply Hc. }
  assert (Ht : forall t, t ∉ testing s (codes k)).
  { intros t (c & Htc & Hp)%elem_of_testing. destruct (Hcode t c Htc) as [H _]. by apply clean_not in Hp. }
  split; eauto.
  - intros t c Htc. destruct (Hcode t c Htc). split; [by left | done].
  - intros y t Hy Hin. simplify_eq. rewrite Hq in Hin. by apply not_elem_of_nil in Hin.
  - intros y Hy. simplify_eq. rewrite Hq. apply NoDup_nil_2.
  - intros y Hy Hne. by simplify_eq.
  - intros t Hin. by destruct (Ht t).
Qed.

(** C12: No wakeup is lost.  A V that finds threads waiting makes only the first
    of them ready, and another thread may take the unit before it runs; so
    threads can be waiting although the value is not 0.  In every state of every
    execution, whenever threads wait on a semaphore, its value is not negative
    and there are as many threads as its value that do not wait, run or are on
    the ready list, and have the test of the semaphore's value ahead of them:
    every unit that was signalled will be found. *)
Theorem no_lost_wakeup k0 n ks k x
    (H0 : kinv k0) (Hfresh : fresh k0) (Hexec : execution RandomNumber device request procs k0 n ks)
    (Hfew : forall k', k' ∈ ks -> room k' /\ few N k') (Hk : k ∈ ks)
    (Hx : semaphores k !! s = Some x) (Hwait : queue x <> []) :
  0 <= value x /\ exists l, NoDup l /\ Z.of_nat (length l) = value x /\
    forall t, t ∈ l -> t ∉ queue x /\ (t = currentThread k \/ t ∈ ready_of k) /\
      exists y, threads k !! t = Some y /\ PLoop s ∈ code y.
Proof.
  pose proof (execution_wakes k0 n ks Hexec H0 (fresh_ready k0 Hfresh) Hfew k Hk) as Hw.
  destruct (wd_value s _ k Hw x Hx Hwait) as [Hv Hsum]. split; [done | ].
  set (A := testing s (codes k) ∖ list_to_set (queue x)).
  assert (HA : (Z.to_nat (value x) <= size A)%nat).
  { unfold A. rewrite size_difference.
    - rewrite size_list_to_set by (by eapply wd_nodup). lia.
    - intros t Ht. apply elem_of_list_to_set in Ht. by eapply wd_queue. }
  exists (take (Z.to_nat (value x)) (elements A)).
  pose proof (take_drop (Z.to_nat (value x)) (elements A)) as Htd. split_and!.
  - pose proof (NoDup_elements A) as Hnd. rewrite <- Htd in Hnd. by apply NoDup_app in Hnd as [? _].
  - rewrite length_take. change (length (elements A)) with (size A). lia.
  - intros t Ht. assert (Hin : t ∈ A) by (apply elem_of_elements; rewrite <- Htd; apply elem_of_app; by left).
    unfold A in Hin. apply elem_of_difference in Hin as [Htest Hnq]. rewrite elem_of_list_to_set in Hnq. split_and!; [done | | ].
    + destruct (wd_place s _ k Hw t Htest) as [H | [H | (y & Hy & H)]]; [ | by right | by simplify_eq].
      left. unfold awake in H. destruct (codes k !! currentThread k) as [[ | [] c] | ];
        first [by apply list_elem_of_singleton in H | by apply not_elem_of_nil in H].
    + apply elem_of_testing in Htest as (c & Hc & Hp). unfold codes in Hc. rewrite lookup_fmap in Hc.
      destruct (threads k !! t) as [y | ] eqn:Hy; [ | done]. injection Hc as <-. by exists y.
Qed.

End Operations.

(** For the code of devices *)
Ltac wakes_dev1 :=
  first [wakes1 | match goal with
    | |- keeps _ _ _ (Schedule _ _ _) => apply wakes_Schedule
    | |- keeps _ _ _ (V_handler _) => by apply wakes_V_handler
    | |- keeps _ _ _ (push _) => apply wakes_push; first [done | simpl; by repeat constructor]
    end].

(** ** Witness: three threads at one lock *)

#[global] Instance v_device_wakes {D} s N : N < 2 ^ 31 - 1 -> DeviceWakes (D := D) s N v_device no_request.
Proof.
  intros HN. split; intros; [ | apply wakes_lift]. intros k Hk. unfold v_device.
  apply wp_bind, wp_gets. case_match; [by apply wakes_V_handler | by apply wp_ret].
Qed.

#[global] Instance idle_device_wakes {D} s N : DeviceWakes (D := D) s N idle_device no_request.
Proof. split; intros; [by apply keeps_ret | apply wakes_lift]. Qed.

(** The main thread is made to yield inside, and both others come to wait. *)
Definition crowd_kernel : Kern unit :=
  with_locks (with_semaphores (new_kernel tt false [mkPending TimerObj TimerTicks TimerInt] (Some (new_Machine 0))
      (Fork 0 1 :: Fork 0 3 :: lock_procs 0 2))
    {[ 21%nat := mkSemaphore 1 [] ]}) {[ 20%nat := mkLock 21 None ]}.

Lemma crowd_kernel_inv : kinv crowd_kernel.
Proof.
  apply new_objects_inv.
  - apply new_kernel_inv; [reflexivity | by repeat constructor | ]. intros x [= <-]. apply regs_zero.
  - by intros s x [<- <-]%lookup_singleton_Some.
Qed.

Lemma crowd_fresh : fresh 21 crowd_kernel.
Proof.
  split_and!.
  - eexists. split; [by apply lookup_singleton_eq | done].
  - apply Nat.ltb_lt. reflexivity.
  - simpl. intros t y [<- <-]%lookup_singleton_Some. split; by repeat constructor.
Qed.

Notation crowd_run m := (execute no_random idle_device no_request lock_procs m crowd_kernel).

(** The first state after [m] steps in which threads wait while the value is
    not 0 *)
Definition waits_at (ks : list (Kern unit)) : option (Kern unit) :=
  List.find (fun k => match semaphores k !! 21%nat with Some x => negb (value x =? 0) && negb (bool_decide (queue x = [])) | None => false end) ks.

Definition fits (k : Kern unit) : bool := has_room k && (Z.of_nat (size (threads k)) <=? 10).

Lemma waits_at_in ks k : waits_at ks = Some k -> k ∈ ks.
Proof. intros H. apply find_some in H as [H _]. by apply list_elem_of_In. Qed.

Lemma no_lost_wakeup_witness :
  exists k x t, semaphores k !! 21%nat = Some x /\ value x = 1 /\ queue x = [2001%nat] /\
    t ∉ queue x /\ (t = currentThread k \/ t ∈ ready_of (k : Kern unit)) /\
    exists y, threads k !! t = Some y /\ PLoop 21 ∈ code y.
Proof.
  assert (H : match crowd_run 36 with
    | Some (n, ks) => forallb fits ks && match waits_at ks with
        | Some k => match semaphores k !! 21%nat with Some x => (value x =? 1) && bool_decide (queue x = [2001%nat]) | None => false end
        | None => false end
    | None => false end = true) by (vm_compute; reflexivity).
  destruct (crowd_run 36) as [[n ks] | ] eqn:E; [ | discriminate H]. apply andb_true_iff in H as [Hf H].
  destruct (waits_at ks) as [k | ] eqn:Ek; [ | discriminate H]. destruct (semaphores k !! 21%nat) as [x | ] eqn:Ex; [ | discriminate H].
  apply andb_true_iff in H as [Hv Hq]. apply Z.eqb_eq in Hv. apply bool_decide_eq_true in Hq.
  destruct (no_lost_wakeup (D := unit) 21 10 ltac:(reflexivity) no_random idle_device no_request lock_procs
    ltac:(intros f a; split; by repeat constructor) ltac:(intros; reflexivity) crowd_kernel n ks k x) as [_ (l & Hnd & Hlen & Hl)].
  - exact crowd_kernel_inv.
  - exact crowd_fresh.
  - exact (execute_execution _ _ _ _ _ _ _ _ E).
  - intros k' Hk'. apply list_elem_of_In in Hk'. pose proof (proj1 (forallb_forall _ _) Hf k' Hk') as Hfit.
    apply andb_true_iff in Hfit as [Hr Hz]. split; [exact (has_room_ok k' Hr) | exact (proj1 (Z.leb_le _ _) Hz)].
  - exact (waits_at_in ks k Ek).
  - exact Ex.
  - rewrite Hq. discriminate.
  - destruct l as [ | t l]; [rewrite Hv in Hlen; discriminate Hlen | ]. exists k, x, t. destruct (Hl t ltac:(left)) as (H1 & H2 & H3).
    split_and!; [exact Ex | exact Hv | exact Hq | exact H1 | exact H2 | exact H3].
Defined.
