(* ===== verification/Console.v ===== *)
(** * The console (machine/console.h, machine/console.cc,
      userprog/synchconsole.h, userprog/synchconsole.cc, the console test of
      threads/kernel.cc, PollFile of lib/sysdep.cc)

    The keyboard and the display are UNIX files; a character takes time, so
    each device calls back by an interrupt.  The synchronised console lets any
    number of threads use them: a lock around each device, and a semaphore on
    which the thread inside waits for the interrupt.  Devices 0 and 1 of the
    thread system are the keyboard and the display; a thread calls them with
    [Request]. *)

From Stdlib Require Import Sorting.Sorted.
From S2P Require Import Prelude LinkedList Machine FileSysStub AddrSpace Threads ThreadsInv ThreadsSafe ThreadsTest Devices Tokens Fifo Switch Exclusion Wakeup.

Definition ConsoleTime : Z := 100.
Definition EOF : Z := -1.

(** ** State *)

Record ConsoleInput := mkConsoleInput { readFileNo : Z; incoming : Z }.
Record ConsoleOutput := mkConsoleOutput { writeFileNo : Z; putBusy : bool }.

(** [lock] and [waitFor] of a synchronised console *)
Record SynchConsole := mkSynchConsole { console_lock : nat; waitFor : nat }.

(** The host, the two devices, and their counts in [Statistics]. *)
Record Consoles (U : Type) := mkConsoles {
  c_host : U;
  consoleInput : ConsoleInput;
  consoleOutput : ConsoleOutput;
  numConsoleCharsRead : Z;
  numConsoleCharsWritten : Z
}.
Arguments mkConsoles {U} _ _ _ _ _.
Arguments c_host {U} _.
Arguments consoleInput {U} _.
Arguments consoleOutput {U} _.
Arguments numConsoleCharsRead {U} _.
Arguments numConsoleCharsWritten {U} _.

(** select(2) on one descriptor with no time to wait: how many are ready. *)
Record PollOps (U : Type) := { sys_select : Z -> U -> Z * U }.
Arguments sys_select {U} _ _ _.

Section Console.
Context {U : Type} (ux : UnixOps U) (px : PollOps U).
Notation K := (Kern (Consoles U)).

Definition keyboard : nat := 0.
Definition display : nat := 1.
Definition echo_test : nat := 2.

(** A call of the host *)
Definition on_host {A} (m : stM U A) : stM K A :=
  d ← gets devices;
  '(a, u) ← lift (m (c_host d));
  modify (fun k => with_devices k (mkConsoles u (consoleInput d) (consoleOutput d)
    (numConsoleCharsRead d) (numConsoleCharsWritten d)));;
  mret a.

Definition set_input (x : ConsoleInput) : stM K unit :=
  modify (fun k => let d := devices k in with_devices k (mkConsoles (c_host d) x (consoleOutput d)
    (numConsoleCharsRead d) (numConsoleCharsWritten d))).
Definition set_output (x : ConsoleOutput) : stM K unit :=
  modify (fun k => let d := devices k in with_devices k (mkConsoles (c_host d) (consoleInput d) x
    (numConsoleCharsRead d) (numConsoleCharsWritten d))).
Definition count_read : stM K unit :=
  modify (fun k => let d := devices k in with_devices k (mkConsoles (c_host d) (consoleInput d)
    (consoleOutput d) (to_i32 (numConsoleCharsRead d + 1)) (numConsoleCharsWritten d))).
Definition count_written : stM K unit :=
  modify (fun k => let d := devices k in with_devices k (mkConsoles (c_host d) (consoleInput d)
    (consoleOutput d) (numConsoleCharsRead d) (to_i32 (numConsoleCharsWritten d + 1)))).

(** lib/sysdep.cc *)
Definition PollFile (fd : Z) : stM U bool :=
  retVal ← unix (sys_select px fd);
  lift (ASSERT ((retVal =? 0) || (retVal =? 1)));;
  mret (negb (retVal =? 0)).

(** What [RandomNumber] of the timer draws from *)
Definition console_random (d : Consoles U) : Z * Consoles U :=
  let '(r, u) := sys_rand ux (c_host d) in
  (to_u32 r, mkConsoles u (consoleInput d) (consoleOutput d) (numConsoleCharsRead d) (numConsoleCharsWritten d)).

(** ** machine/console.cc *)

(** The constructors; a NULL file name is stdin or stdout. *)
Definition new_ConsoleInput (readFile : option filename) : stM K unit :=
  fd ← match readFile with
       | None => mret 0
       | Some name => on_host (OpenForReadWrite ux name true)
       end;
  set_input (mkConsoleInput fd EOF);;
  Schedule (DeviceObj keyboard) ConsoleTime ConsoleReadInt.

Definition delete_ConsoleInput : stM K unit :=
  d ← gets devices;
  let fd := readFileNo (consoleInput d) in
  if negb (fd =? 0) then on_host (sysdep_Close ux fd);; mret tt else mret tt.

Definition new_ConsoleOutput (writeFile : option filename) : stM K unit :=
  fd ← match writeFile with
       | None => mret 1
       | Some name => on_host (OpenForWrite ux name)
       end;
  set_output (mkConsoleOutput fd false).

Definition delete_ConsoleOutput : stM K unit :=
  d ← gets devices;
  let fd := writeFileNo (consoleOutput d) in
  if negb (fd =? 1) then on_host (sysdep_Close ux fd);; mret tt else mret tt.

(** The interrupt handler of the keyboard; [callWhenAvail] is the call back of
    the synchronised console. *)
Definition ConsoleInput_CallBack (callWhenAvail : stM K unit) : stM K unit :=
  d ← gets devices;
  let fd := readFileNo (consoleInput d) in
  lift (ASSERT (incoming (consoleInput d) =? EOF));;
  ready ← on_host (PollFile fd);
  if negb ready then Schedule (DeviceObj keyboard) ConsoleTime ConsoleReadInt
  else
    '(readCount, bytes) ← on_host (ReadPartial ux fd 1);
    (if readCount =? 0 then mret tt
     else
       lift (ASSERT (readCount =? 1));;
       c ← lift (zget bytes 0);
       set_input (mkConsoleInput fd (to_i8 c));;
       count_read);;
    callWhenAvail.

Definition ConsoleInput_GetChar : stM K Z :=
  d ← gets devices;
  let ch := incoming (consoleInput d) in
  (if negb (ch =? EOF) then Schedule (DeviceObj keyboard) ConsoleTime ConsoleReadInt else mret tt);;
  set_input (mkConsoleInput (readFileNo (consoleInput d)) EOF);;
  mret ch.

Definition ConsoleOutput_CallBack (callWhenDone : stM K unit) : stM K unit :=
  d ← gets devices;
  set_output (mkConsoleOutput (writeFileNo (consoleOutput d)) false);;
  count_written;;
  callWhenDone.

Definition ConsoleOutput_PutChar (ch : Z) : stM K unit :=
  d ← gets devices;
  let fd := writeFileNo (consoleOutput d) in
  lift (ASSERT (negb (putBusy (consoleOutput d))));;
  on_host (WriteFile ux fd [to_u8 ch] 1);;
  set_output (mkConsoleOutput fd true);;
  Schedule (DeviceObj display) ConsoleTime ConsoleWriteInt.

(** ** userprog/synchconsole.cc *)

(** [Lock::Lock] of threads/synch.cc *)
Definition new_Lock : stM K nat :=
  s ← new_Semaphore 1;
  l ← new_address;
  put_lock l (mkLock s None);;
  mret l.

Definition delete_Lock (l : nat) : stM K unit :=
  x ← get_lock l;
  delete_Semaphore (lock_semaphore x);;
  modify (fun k => with_locks k (delete l (locks k))).

Definition new_SynchConsoleInput (inputFile : option filename) : stM K SynchConsole :=
  new_ConsoleInput inputFile;;
  l ← new_Lock;
  w ← new_Semaphore 0;
  mret (mkSynchConsole l w).

Definition new_SynchConsoleOutput (outputFile : option filename) : stM K SynchConsole :=
  new_ConsoleOutput outputFile;;
  l ← new_Lock;
  w ← new_Semaphore 0;
  mret (mkSynchConsole l w).

Definition delete_SynchConsoleInput (c : SynchConsole) : stM K unit :=
  delete_ConsoleInput;; delete_Lock (console_lock c);; delete_Semaphore (waitFor c).

Definition delete_SynchConsoleOutput (c : SynchConsole) : stM K unit :=
  delete_ConsoleOutput;; delete_Lock (console_lock c);; delete_Semaphore (waitFor c).

(** [CallBack] of both classes *)
Definition SynchConsole_CallBack (c : SynchConsole) : stM K unit := V_handler (waitFor c).

(** What a thread that calls [GetChar] or [PutChar] does; the character read is
    the value it got. *)
Definition SynchConsoleInput_GetChar (c : SynchConsole) : list instr :=
  [Acquire (console_lock c); P (waitFor c); Request keyboard 0; Release (console_lock c)].

Definition SynchConsoleOutput_PutChar (c : SynchConsole) (ch : Z) : list instr :=
  [Acquire (console_lock c); Request display ch; P (waitFor c); Release (console_lock c)].

(** ** The devices of the kernel *)

Context (synchConsoleIn synchConsoleOut : SynchConsole).

Definition console_device (d : nat) : stM K unit :=
  match d with
  | 0%nat => ConsoleInput_CallBack (SynchConsole_CallBack synchConsoleIn)
  | 1%nat => ConsoleOutput_CallBack (SynchConsole_CallBack synchConsoleOut)
  | _ => mret tt
  end.

(** The loop of [Kernel::ConsoleTest] after [GetChar]: echo the character and
    go round again, unless it was the end of file. *)
Definition console_echo (loop : nat) : stM K unit :=
  t ← gets currentThread;
  x ← get_thread t;
  if negb (got x =? EOF) then push (SynchConsoleOutput_PutChar synchConsoleOut (got x) ++ [Call loop 0])
  else mret tt.

Definition console_request (d : nat) (arg : Z) : stM K unit :=
  match d with
  | 0%nat => ch ← ConsoleInput_GetChar; t ← gets currentThread; upd_thread t (fun x => with_got x ch)
  | 1%nat => ConsoleOutput_PutChar (to_i8 arg)
  | 2%nat => console_echo (Z.to_nat arg)
  | _ => lift (Fail AssertFail)
  end.

(** [Kernel::ConsoleTest], as procedure [loop] *)
Definition ConsoleTest (loop : nat) : list instr :=
  SynchConsoleInput_GetChar synchConsoleIn ++ [Request echo_test (Z.of_nat loop)].

(** ** What the devices do to the thread system *)

Lemma wp_on_host {A} E (Q : A -> K -> Prop) (m : stM U A) k :
  (forall f, m (c_host (devices k)) = Fail f -> E f) ->
  (forall a u, m (c_host (devices k)) = Ok (a, u) ->
     Q a (with_devices k (mkConsoles u (consoleInput (devices k)) (consoleOutput (devices k))
       (numConsoleCharsRead (devices k)) (numConsoleCharsWritten (devices k))))) ->
  wp E Q (on_host m) k.
Proof.
  intros HF HQ. unfold on_host, wp. run. destruct (m (c_host (devices k))) as [[x u] | f] eqn:E'; [ | by apply HF].
  by apply HQ.
Qed.

(** The calls of the host end in these faults only. *)
Lemma PollFile_io fd u f : PollFile fd u = Fail f -> io_fault f.
Proof.
  unfold PollFile, unix. run. destruct (sys_select px fd u) as [r u']. unfold ASSERT.
  destruct ((r =? 0) || (r =? 1)); intros [= <-]. by right.
Qed.

Lemma WriteFile_fault fd b n u f : WriteFile ux fd b n u = Fail f -> io_fault f.
Proof.
  unfold WriteFile, unix. run. destruct (sys_write ux fd b n u) as [r u']. unfold ASSERT.
  destruct (r =? n); intros [= <-]. by right.
Qed.

Lemma ReadPartial_io fd n u f : ReadPartial ux fd n u = Fail f -> io_fault f.
Proof. done. Qed.

#[local] Hint Resolve PollFile_io WriteFile_fault ReadPartial_io : io.

Lemma calm_on_host {A} k0 c (m : stM U A) :
  (forall u f, m u = Fail f -> io_fault f) -> keeps io_fault (handled (D := Consoles U) k0 c) anything (on_host m).
Proof.
  intros Hm. unfold on_host. apply (keeps_bind anything); [calm | ]. intros d _.
  apply (keeps_bind anything); [apply calm_lift; intros f; apply Hm | ]. intros [a u] _. calm.
Qed.

Ltac console := repeat first [calm1 | apply calm_on_host; solve [eauto with io] | progress unfold set_input, set_output].

#[global] Instance console_device_ok : DeviceOk io_fault console_device.
Proof.
  apply device_calm. intros d k0 c Hn Hl Hh. destruct d as [ | [ | d]]; cbn [console_device]; [ | | calm].
  - unfold ConsoleInput_CallBack, SynchConsole_CallBack, count_read. console.
  - unfold ConsoleOutput_CallBack, SynchConsole_CallBack, count_written. console.
Qed.

#[global] Instance console_request_ok : RequestOk console_request.
Proof.
  intros d arg k lv c Hr Hl%room_now. destruct d as [ | [ | [ | d]]]; cbn [console_request]; [ | | | by right].
  - apply request_then; [done | done | intros k0 Hn; unfold ConsoleInput_GetChar; console | ].
    intros ch k1 Hk1 _. apply wp_bind, wp_gets.
    destruct (running_thread _ _ _ Hk1) as (x & Hx & _). eapply wp_ok; [by apply (upd_thread_ok k1 _ x) | ].
    exists []. split; [done | ]. by apply running_got.
  - apply request_calm; [done | done | ]. intros k0 Hn. unfold ConsoleOutput_PutChar. console.
  - unfold console_echo, get_thread. apply request_then; [done | done | intros k0 Hn; calm | ]. intros t k1 Hk1 Hl1.
    apply request_then; [done | done | intros k0 Hn; calm | ]. intros x k2 Hk2 _.
    destruct (negb _); [by apply request_push | by apply request_done].
Qed.

Lemma fifo_on_host {A} l (m : stM U A) : keeps any_fault (grows l) anything (on_host m).
Proof. unfold on_host. fifo. Qed.

(** Nor do they upset the order of the ready list. *)
#[global] Instance console_fifo : DeviceFifo console_device console_request.
Proof.
  split; intros d; [intros l | intros arg l]; destruct d as [ | [ | [ | d]]]; cbn [console_device console_request];
    repeat first [fifo_dev1 | match goal with |- keeps _ _ _ (on_host _) => apply fifo_on_host end
      | progress unfold ConsoleInput_CallBack, ConsoleOutput_CallBack, SynchConsole_CallBack, ConsoleInput_GetChar,
          ConsoleOutput_PutChar, console_echo, set_input, set_output, count_read, count_written, get_thread].
Qed.

(** Nor do they touch a thread that does not run. *)
Lemma hold_on_host {A} t R sp C (m : stM U A) : keeps any_fault (holds t R sp C) anything (on_host m).
Proof. unfold on_host. hold. Qed.

#[global] Instance console_holds : DeviceHolds console_device console_request.
Proof.
  split; intros t R sp C d; [ | intros arg]; destruct d as [ | [ | [ | d]]]; cbn [console_device console_request];
    repeat first [hold_dev1 | match goal with |- keeps _ _ _ (on_host _) => apply hold_on_host end
      | progress unfold ConsoleInput_CallBack, ConsoleOutput_CallBack, SynchConsole_CallBack, ConsoleInput_GetChar,
          ConsoleOutput_PutChar, console_echo, set_input, set_output, count_read, count_written, get_thread].
Qed.

(** Nor do they lose a wakeup of any semaphore. *)
Lemma wakes_on_host {A} s N w t X off (m : stM U A) : keeps any_fault (kept s N w t X off) anything (on_host m).
Proof. unfold on_host. wakes. Qed.

#[global] Instance console_wakes s N : N < 2 ^ 31 - 1 -> DeviceWakes s N console_device console_request.
Proof.
  intros HN. split; intros d; [intros w t X | intros arg w t Ht]; destruct d as [ | [ | [ | d]]]; cbn [console_device console_request];
    repeat first [wakes_dev1 | match goal with |- keeps _ _ _ (on_host _) => apply wakes_on_host end
      | progress unfold ConsoleInput_CallBack, ConsoleOutput_CallBack, SynchConsole_CallBack, ConsoleInput_GetChar,
          ConsoleOutput_PutChar, console_echo, set_input, set_output, count_read, count_written, get_thread, SynchConsoleOutput_PutChar].
Qed.

End Console.

(** ** One character at a time

    Two accounts.  The display's token is in its lock, with the thread inside,
    or in the interrupt that tells that thread to go on; and the device is free
    or has an interrupt pending. *)

Section Display.
Context {U : Type} (ux : UnixOps U) (px : PollOps U) (cin cout : SynchConsole).
(** the semaphore of the display's lock *)
Context (s : nat).
Notation K := (Kern (Consoles U)).
Notation w := (waitFor cout).

Notation display_accounts := (serial_accounts (D := Consoles U) (console_lock cout) s w display display).

Definition busy_accounts : accounts (Consoles U) :=
  mkAccounts (fun _ => 0) (fun _ => 0) (fun _ => 0) (fun _ _ => 0)
    (fun d => if decide (d = display) then 1 else 0)
    (fun d => if putBusy (consoleOutput d) then 0 else 1).

(** The keyboard has a semaphore of its own. *)
Hypothesis Hin : waitFor cin <> s /\ waitFor cin <> w.

#[global] Instance busy_fair : Fair busy_accounts.
Proof. split; simpl; intros; try case_decide; try destruct (putBusy _); lia. Qed.

(** *** What leaves the display alone *)

Section Still.
Context (a : accounts (Consoles U)) `{!Fair a}.
Hypothesis keyboard_free : of_interrupt a keyboard = 0.
(** The account looks only at the display. *)
Hypothesis display_only : forall d d' : Consoles U,
  consoleOutput d' = consoleOutput d -> of_devices a d' = of_devices a d.
Notation still n m := (keeps any_fault (tokens a n) anything m).

Lemma tokens_display n (k : K) d :
  tokens a n k -> consoleOutput d = consoleOutput (devices k) -> tokens a n (with_devices k d).
Proof.
  intros Hk Hd. pose proof (tokens_devices a n k d Hk) as H. rewrite (display_only _ _ Hd) in H.
  by rewrite Z.sub_diag, Z.add_0_r in H.
Qed.

Lemma still_on_host {A} n (m : stM U A) : still n (on_host m).
Proof.
  intros k Hk. apply wp_on_host; [done | ]. intros x u _. split; [done | ]. by apply tokens_display.
Qed.

Lemma still_input n x : still n (set_input x).
Proof. intros k Hk. apply wp_modify. split; [done | ]. by apply tokens_display. Qed.

Lemma still_count_read n : still n count_read.
Proof. intros k Hk. apply wp_modify. split; [done | ]. by apply tokens_display. Qed.

Lemma still_keyboard n ty : still n (Schedule (DeviceObj keyboard) ConsoleTime ty).
Proof.
  intros k Hk. eapply wp_mono; [by apply Schedule_tokens | ]. cbv beta. intros r k'.
  unfold pledge. cbn [callOnInterrupt]. rewrite keyboard_free, Z.add_0_r. done.
Qed.

Lemma still_V n v : n < 2 ^ 30 -> of_sem a v = 0 -> still n (V_handler v).
Proof.
  intros Hn Hv k Hk. eapply wp_mono; [by apply V_handler_tokens | ]. cbv beta. intros r k'. by rewrite Hv, Z.add_0_r.
Qed.

Lemma still_input_CallBack n : n < 2 ^ 30 -> of_sem a (waitFor cin) = 0 ->
  still n (ConsoleInput_CallBack ux px (SynchConsole_CallBack cin)).
Proof.
  intros Hn Hv. unfold ConsoleInput_CallBack, SynchConsole_CallBack.
  repeat first [tok1 | apply still_on_host | apply still_input | apply still_count_read | apply still_keyboard | by apply still_V].
Qed.

Lemma still_GetChar n : still n (ch ← ConsoleInput_GetChar; t ← gets currentThread; upd_thread t (fun x => with_got x ch)).
Proof.
  unfold ConsoleInput_GetChar. repeat first [tok1 | apply still_keyboard | apply still_input].
Qed.

End Still.

(** *** The two accounts *)

Lemma still_echo (a : accounts (Consoles U)) n loop :
  (forall ch, worths a (SynchConsoleOutput_PutChar cout ch) = 0 /\ solvent a (SynchConsoleOutput_PutChar cout ch)) ->
  keeps any_fault (tokens a n) anything (console_echo cout loop).
Proof.
  intros Hp. unfold console_echo, get_thread. repeat tok1.
  destruct (Hp (got a1)) as [Hw Hs]. apply still_push.
  - rewrite worths_app, Hw. done.
  - by apply solvent_app; [ | simpl].
  - by repeat constructor.
Qed.

Notation device := (console_device ux px cin cout).
Notation request := (console_request ux cout).

#[global] Instance display_tokens : DeviceTokens display_accounts 1 (console_random ux) device request.
Proof.
  split; [apply _ | done | done | ..].
  - intros d k Hk. destruct d as [ | [ | d]]; cbn [console_device].
    + change (1 - _) with 1 in Hk. apply still_wp; [ | done]. destruct Hin.
      apply (still_input_CallBack display_accounts); try done. by apply serial_other.
    + change (1 - _) with 0 in Hk. unfold ConsoleOutput_CallBack, SynchConsole_CallBack.
      apply wp_bind, wp_gets, wp_bind, wp_modify, wp_bind, wp_modify.
      eapply wp_mono; [apply (V_handler_tokens display_accounts 0); [done | ] | ].
      * eapply tokens_set_devices; [by eapply tokens_set_devices | ]; done.
      * cbv beta. intros r k'. by rewrite serial_sem.
    + change (1 - _) with 1 in Hk. by apply wp_ret.
  - intros d arg k Hk. destruct d as [ | [ | [ | d]]]; cbn [console_request]; [ | | | done].
    + change (1 - _) with 1 in Hk. apply still_wp; [ | done]. by apply still_GetChar.
    + change (1 - _) with 0 in Hk. unfold ConsoleOutput_PutChar. apply wp_bind, wp_gets.
      apply wp_asserted, wp_bind, wp_on_host; [done | ]. intros r u _. apply wp_bind, wp_modify.
      apply (Schedule_tokens display_accounts 0).
      eapply tokens_set_devices; [by eapply tokens_set_devices | ]; done.
    + change (1 - _) with 1 in Hk. apply still_wp; [ | done]. apply still_echo. intros ch.
      apply (serial_use (D := Consoles U) (console_lock cout) s w display display ch []); done.
Qed.

#[global] Instance busy_tokens : DeviceTokens busy_accounts 1 (console_random ux) device request.
Proof.
  split; [apply _ | done | ..].
  - intros d. unfold console_random. by destruct (sys_rand ux (c_host d)).
  - intros d k Hk. destruct d as [ | [ | d]]; cbn [console_device].
    + change (1 - _) with 1 in Hk. apply still_wp; [ | done]. apply (still_input_CallBack busy_accounts); try done.
      simpl. intros d d' ->. done.
    + change (1 - _) with 0 in Hk. unfold ConsoleOutput_CallBack, SynchConsole_CallBack.
      apply wp_bind, wp_gets, wp_bind, wp_modify, wp_bind, wp_modify.
      apply still_wp; [by apply (still_V busy_accounts) | ].
      pose proof (tokens_assets busy_accounts 0 k Hk) as Hb.
      pose proof (pledges_nonneg busy_accounts (pending_of k) (fun d => interrupt_nonneg d)) as Hp.
      eapply tokens_set_devices; [by eapply tokens_set_devices | ]. simpl in *. destruct (putBusy _); lia.
    + change (1 - _) with 1 in Hk. by apply wp_ret.
  - intros d arg k Hk. change (1 - _) with 1 in Hk. destruct d as [ | [ | [ | d]]]; cbn [console_request]; [ | | | done].
    + apply still_wp; [ | done]. apply still_GetChar; [done | ]. simpl. intros d d' ->. done.
    + unfold ConsoleOutput_PutChar. apply wp_bind, wp_gets, wp_bind. unfold wp at 1, lift, ASSERT.
      destruct (putBusy _) eqn:Eb; [done | ]. apply wp_bind, wp_on_host; [done | ]. intros r u _. apply wp_bind, wp_modify.
      apply (Schedule_tokens busy_accounts 0).
      eapply tokens_set_devices; [by eapply tokens_set_devices | ]. simpl. rewrite Eb. lia.
    + apply still_wp; [ | done]. apply still_echo. intros ch. simpl. split_and!; lia || done.
Qed.

(** *** The display is never written while it is busy *)

Context (procs : nat -> Z -> list instr).
Notation step := (step (console_random ux) device request procs).

(** The display is idle and its lock free. *)
Record display_ready (k : K) : Prop := {
  ready_lock : tokens display_accounts 1 k;
  ready_idle : putBusy (consoleOutput (devices k)) = false;
  ready_quiet : quiet_device display k
}.

Lemma busy_codeless : codeless busy_accounts.
Proof. done. Qed.

Lemma busy_start k : display_ready k -> tokens busy_accounts 1 k.
Proof.
  intros [_ Hi Hp]. apply (no_pledges (console_lock cout) s w display display busy_accounts) in Hp; [ | done].
  pose proof (codeless_tokens _ busy_codeless k) as H. cbn [of_devices busy_accounts] in H. by rewrite Hp, Hi in H.
Qed.

Lemma PutChar_ok ch k u :
  putBusy (consoleOutput (devices k)) = false ->
  sys_write ux (writeFileNo (consoleOutput (devices k))) [to_u8 ch] 1 (c_host (devices k)) = (1, u) ->
  exists k', ConsoleOutput_PutChar ux ch k = Ok (tt, k') /\ c_host (devices k') = u /\
    putBusy (consoleOutput (devices k')) = true.
Proof.
  intros Hb Hw. unfold ConsoleOutput_PutChar, on_host, WriteFile, unix, Schedule. run. rewrite Hb. cbn [ASSERT negb].
  rewrite Hw. cbn. eexists. split; [reflexivity | ]. done.
Qed.

(** C25: The display is written one character at a time.  Let any number of
    threads print with SynchConsoleOutput::PutChar, from a kernel in which the
    display is idle and its lock free.  Whenever a thread is about to hand a
    character to ConsoleOutput::PutChar, the device is not busy and has no
    interrupt pending, so its assertion holds; if the host writes the byte, the
    call returns, the byte has been written and the device is busy. *)
Theorem putchar_exclusive k0 k ch
    (Hclient : forall f arg, forallb client (procs f arg) = true)
    (Hprocs : procs_tokens display_accounts procs) (H0 : kinv k0) (Hready : display_ready k0)
    (Hr : reachable (console_random ux) device request procs k0 k)
    (Hnext : next_instr k = Some (Request display ch)) :
  putBusy (consoleOutput (devices k)) = false /\
  quiet_device display k /\
  forall u, sys_write ux (writeFileNo (consoleOutput (devices k))) [to_u8 (to_i8 ch)] 1 (c_host (devices k)) = (1, u) ->
    exists k', step k = Ok (tt, k') /\ c_host (devices k') = u /\ putBusy (consoleOutput (devices k')) = true.
Proof.
  destruct (step_Request (console_random ux) device request procs _ _ _ Hnext) as (x & c & Hx & Hc & Hstep).
  destruct (serial_exclusive (console_lock cout) s w display display _ _ _ procs k0 k ch Hclient Hprocs H0
    (ready_lock _ Hready) Hr Hnext) as [Hq _].
  destruct (reachable_tokens busy_accounts _ _ _ 1 procs (codeless_procs _ _ busy_codeless) k0 k Hclient H0
    (busy_start _ Hready) Hr) as [_ Hk].
  pose proof Hq as Hp. apply (no_pledges (console_lock cout) s w display display busy_accounts) in Hp; [ | done].
  assert (Hfree : putBusy (consoleOutput (devices k)) = false).
  { pose proof (tk_total _ _ _ Hk) as Ht. rewrite (codeless_total _ busy_codeless), Hp in Ht. simpl in Ht. by destruct (putBusy _). }
  split_and!; [done | done | ]. intros u Hu. rewrite Hstep. by apply PutChar_ok.
Qed.

End Display.

(** ** Witness: two threads that print *)

Definition test_in : SynchConsole := mkSynchConsole 23 24.
Definition test_out : SynchConsole := mkSynchConsole 20 22.
Definition always_ready : PollOps host := {| sys_select fd u := (1, u) |}.

(** Each thread prints two characters. *)
Definition print_procs (f : nat) (arg : Z) : list instr :=
  SynchConsoleOutput_PutChar test_out (Z.of_nat f) ++ SynchConsoleOutput_PutChar test_out arg.

Definition print_kernel : Kern (Consoles host) :=
  with_locks (with_semaphores
      (new_kernel (mkConsoles host0 (mkConsoleInput 0 EOF) (mkConsoleOutput 1 false) 0 0) false
        [mkPending TimerObj TimerTicks TimerInt] (Some (new_Machine 0)) (Fork 65 66 :: print_procs 67 68))
    {[ 21%nat := mkSemaphore 1 []; 22%nat := mkSemaphore 0 [] ]}) {[ 20%nat := mkLock 21 None ]}.

Notation print_steps :=
  (after_steps (console_random host_ops) (console_device host_ops always_ready test_in test_out)
     (console_request host_ops test_out) print_procs).

Notation print_accounts := (serial_accounts (D := Consoles host) 20 21 22 display display).

Lemma print_procs_client f arg : forallb client (print_procs f arg) = true.
Proof. reflexivity. Qed.

Lemma print_procs_tokens : procs_tokens print_accounts print_procs.
Proof. intros f arg. split_and!; [reflexivity | simpl; split_and!; lia || done | by repeat constructor]. Qed.

Lemma print_kernel_inv : kinv print_kernel.
Proof.
  apply new_objects_inv.
  - apply new_kernel_inv; [reflexivity | by repeat constructor | ]. intros x [= <-]. apply regs_zero.
  - intros s x [[<- <-] | [_ [<- <-]%lookup_singleton_Some]]%lookup_insert_Some; done.
Qed.

Lemma print_kernel_ready : display_ready test_out 21 print_kernel.
Proof.
  split; [split | done | by repeat constructor].
  - vm_compute. reflexivity.
  - simpl. intros t x [<- <-]%lookup_singleton_Some. cbn [code]. split; [simpl; split_and!; lia || done | by repeat constructor].
  - simpl. intros s x [[<- <-] | [_ [<- <-]%lookup_singleton_Some]]%lookup_insert_Some _; simpl; lia.
  - simpl. intros l x [<- <-]%lookup_singleton_Some. reflexivity.
  - simpl. intros cv q s Hq. by rewrite lookup_empty in Hq.
  - simpl. intros q x Hq. by rewrite lookup_empty in Hq.
  - cbn [nextAddress print_kernel with_locks with_semaphores new_kernel]. intros s Hs.
    apply serial_other; cbn [waitFor test_out]; lia.
  - done.
Qed.

(** A state in which the main thread is about to print its second character,
    while the forked thread waits for the display. *)
Lemma putchar_exclusive_witness :
  exists k, print_steps 36 print_kernel = Some k /\ next_instr k = Some (Request display 68) /\
    putBusy (consoleOutput (devices k)) = false.
Proof.
  destruct (print_steps 36 print_kernel) as [k | ] eqn:E; [ | exfalso; vm_compute in E; discriminate E].
  assert (H : match print_steps 36 print_kernel with
    | Some k => bool_decide (next_instr k = Some (Request display 68)) | None => false end = true)
    by (vm_compute; reflexivity).
  rewrite E in H. apply bool_decide_eq_true in H. exists k. split_and!; [reflexivity | exact H | ].
  refine (proj1 (putchar_exclusive host_ops always_ready test_in test_out 21 _ print_procs print_kernel k 68 _ _ _ _ _ _)).
  - split; discriminate.
  - apply print_procs_client.
  - apply print_procs_tokens.
  - apply print_kernel_inv.
  - apply print_kernel_ready.
  - eapply after_steps_reachable; [apply reach_start | exact E].
  - exact H.
Defined.
