(* ===== verification/Network.v ===== *)
(** * The network and the post office (machine/network.h, machine/network.cc,
      network/post.h, network/post.cc, the sockets of lib/sysdep.cc, the network
      test of threads/kernel.cc)

    A network device carries packets of 64 bytes between kernels, each a UNIX
    process with a socket named after its machine.  The post office puts mail
    boxes on top: a postal worker thread takes each packet that arrives apart
    and puts the mail into the box it is for; senders take turns.

    Devices 0 and 1 of the thread system are the network's two halves; what a
    thread does between two points at which it may be switched out is a
    [Request].  The sockets are the host's: fields of [SocketOps]. *)

From Stdlib Require Import Floats.SpecFloat.
From Stdlib Require Import Sorting.Sorted.
From S2P Require Import Prelude LinkedList Machine FileSysStub AddrSpace Disk FileHdr Directory Threads ThreadsInv ThreadsSafe ThreadsTest Devices Tokens Exclusion Console.

Definition NetworkTime : Z := 100.

(** ** Data on the wire *)

Record PacketHeader := mkPacket { pkt_to : Z; pkt_from : Z; pkt_length : Z }.
Record MailHeader := mkMailHeader { mail_to : Z; mail_from : Z; mail_length : Z }.

Definition sizeof_PacketHeader : Z := 12.
Definition sizeof_MailHeader : Z := 12.
Definition MaxWireSize : Z := 64.
Definition MaxPacketSize : Z := MaxWireSize - sizeof_PacketHeader.
Definition MaxMailSize : Z := MaxPacketSize - sizeof_MailHeader.

(** The headers as bytes, and [*(PacketHeader * )buffer] *)
Definition packet_bytes (h : PacketHeader) : list Z := ints_bytes [pkt_to h; pkt_from h; pkt_length h].
Definition mail_bytes (h : MailHeader) : list Z := ints_bytes [mail_to h; mail_from h; mail_length h].

Definition packet_at (b : list Z) : PacketHeader :=
  mkPacket (to_i32 (word_of b 0)) (to_i32 (word_of b 1)) (word_of b 2).
Definition mail_at (b : list Z) : MailHeader :=
  mkMailHeader (to_i32 (word_of b 0)) (to_i32 (word_of b 1)) (word_of b 2).

(** bcopy(3): [n] bytes of [src] to [dst] at [off] *)
Definition bcopy (src dst : list Z) (off n : Z) : res (list Z) :=
  if n <=? Z.of_nat (length src) then buf_write dst off (take (Z.to_nat n) src) else Fail Undefined.

(** The decimal digits of sprintf's [%d] *)
Fixpoint digits (fuel : nat) (n : Z) (acc : list Z) : list Z :=
  match fuel with
  | O => acc
  | S fuel' => let acc := (48 + n mod 10) :: acc in if n <? 10 then acc else digits fuel' (n / 10) acc
  end.
Definition show_int (n : Z) : list Z := if n <? 0 then 45 :: digits 10 (- n) [] else digits 10 n [].

(** ["SOCKET_%d"] *)
Definition socket_name (n : Z) : filename := [83; 79; 67; 75; 69; 84; 95] ++ show_int n.

(** ** lib/sysdep.cc *)

(** The calls on sockets: socket(2), bind(2), recvfrom(2) with what it puts into
    the buffer, sendto(2) and sleep(3). *)
Record SocketOps (U : Type) := {
  sys_socket : U -> Z * U;
  sys_bind : Z -> filename -> U -> Z * U;
  sys_recvfrom : Z -> Z -> U -> Z * list Z * U;
  sys_sendto : Z -> list Z -> filename -> U -> Z * U;
  sys_sleep : Z -> U -> U
}.
Arguments sys_socket {U} _ _.
Arguments sys_bind {U} _ _ _ _.
Arguments sys_recvfrom {U} _ _ _ _.
Arguments sys_sendto {U} _ _ _ _ _.
Arguments sys_sleep {U} _ _ _.

Section Sockets.
Context {U : Type} (ux : UnixOps U) (px : PollOps U) (sx : SocketOps U).

Definition Delay (seconds : Z) : stM U unit := modify (sys_sleep sx seconds).

Definition OpenSocket : stM U Z :=
  sockID ← unix (sys_socket sx);
  lift (ASSERT (0 <=? sockID));;
  mret sockID.

Definition CloseSocket (sockID : Z) : stM U unit := unix (sys_close ux sockID);; mret tt.

(** The name in a [struct sockaddr_un], whose [sun_path] has 108 bytes *)
Definition InitSocketName (name : filename) : res filename :=
  if Z.of_nat (length name) <? 108 then Ok name else Fail Undefined.

Definition AssignNameToSocket (socketName : filename) (sockID : Z) : stM U unit :=
  unix (sys_unlink ux socketName);;
  uName ← lift (InitSocketName socketName);
  retVal ← unix (sys_bind sx sockID uName);
  lift (ASSERT (0 <=? retVal)).

Definition DeAssignNameToSocket (socketName : filename) : stM U unit := unix (sys_unlink ux socketName);; mret tt.

Definition PollSocket (sockID : Z) : stM U bool := PollFile px sockID.

(** The buffer after the call *)
Definition ReadFromSocket (sockID : Z) (buffer : list Z) (packetSize : Z) : stM U (list Z) :=
  '(retVal, bytes) ← unix (sys_recvfrom sx sockID packetSize);
  lift (ASSERT (retVal =? packetSize));;
  lift (buf_write buffer 0 bytes).

Fixpoint send_tries (n : nat) (sockID : Z) (buffer : list Z) (packetSize : Z) (uName : filename) : stM U unit :=
  match n with
  | O => mret tt
  | S n' =>
      retVal ← unix (sys_sendto sx sockID (take (Z.to_nat packetSize) buffer) uName);
      if retVal =? packetSize then mret tt
      else
        lift (ASSERT (retVal <? 0));;
        Delay 1;;
        send_tries n' sockID buffer packetSize uName
  end.

Definition SendToSocket (sockID : Z) (buffer : list Z) (packetSize : Z) (toName : filename) : stM U unit :=
  uName ← lift (InitSocketName toName);
  send_tries 10 sockID buffer packetSize uName.

End Sockets.

(** ** State *)

Record NetworkInput := mkNetworkInput {
  in_sock : Z;
  sockName : filename;
  packetAvail : bool;
  inHdr : PacketHeader;
  inbox : list Z
}.

(** [chanceToWork] is a [double]. *)
Record NetworkOutput := mkNetworkOutput { out_sock : Z; chanceToWork : spec_float; sendBusy : bool }.

Record Mail := mkMail { pktHdr : PacketHeader; mailHdr : MailHeader; mail_data : list Z }.

(** The heap of [Mail]s, and the variables of the calls in progress: the postal
    worker's buffer, what each thread passes to [Send], the header and buffer of
    each [Send] in progress, and what each thread got from [Receive]. *)
Record Post := mkPost {
  mails : gmap Z Mail;
  nextMail : Z;
  worker_buffer : list Z;
  drafts : gmap nat (PacketHeader * MailHeader * list Z);
  sends : gmap Z (PacketHeader * list Z);
  letters : gmap nat (PacketHeader * MailHeader * list Z)
}.

Definition with_mails (p : Post) (m : gmap Z Mail) : Post :=
  mkPost m (nextMail p) (worker_buffer p) (drafts p) (sends p) (letters p).
Definition with_nextMail (p : Post) (n : Z) : Post :=
  mkPost (mails p) n (worker_buffer p) (drafts p) (sends p) (letters p).
Definition with_buffer (p : Post) (b : list Z) : Post :=
  mkPost (mails p) (nextMail p) b (drafts p) (sends p) (letters p).
Definition with_drafts (p : Post) d : Post :=
  mkPost (mails p) (nextMail p) (worker_buffer p) d (sends p) (letters p).
Definition with_sends (p : Post) s : Post :=
  mkPost (mails p) (nextMail p) (worker_buffer p) (drafts p) s (letters p).
Definition with_letters (p : Post) l : Post :=
  mkPost (mails p) (nextMail p) (worker_buffer p) (drafts p) (sends p) l.

Record Net (U : Type) := mkNet {
  n_host : U;
  networkIn : NetworkInput;
  networkOut : NetworkOutput;
  numPacketsRecvd : Z;
  numPacketsSent : Z;
  post : Post
}.
Arguments mkNet {U} _ _ _ _ _ _.
Arguments n_host {U} _.
Arguments networkIn {U} _.
Arguments networkOut {U} _.
Arguments numPacketsRecvd {U} _.
Arguments numPacketsSent {U} _.
Arguments post {U} _.

(** Where the objects of the post office are. *)
Record PostOffice := mkPostOffice {
  messageAvailable : nat;
  boxes : list nat;
  numBoxes : Z;
  messageSent : nat;
  sendLock : nat
}.

Definition net_in : nat := 0.
Definition net_out : nat := 1.

(** [double]s *)
Definition double_of (n : Z) : spec_float := binary_normalize 53 1024 n 0 false.
Definition double_mul (x y : spec_float) : spec_float := SFmul 53 1024 x y.

Section Network.
Context {U : Type} (ux : UnixOps U) (px : PollOps U) (sx : SocketOps U).
(** What uninitialised memory holds, and the number of this machine *)
Context (uninit : nat -> Z) (hostName : Z).
Notation K := (Kern (Net U)).

Definition net_host {A} (m : stM U A) : stM K A :=
  d ← gets devices;
  '(a, u) ← lift (m (n_host d));
  modify (fun k => with_devices k (mkNet u (networkIn d) (networkOut d) (numPacketsRecvd d) (numPacketsSent d) (post d)));;
  mret a.

Definition upd_net (f : Net U -> Net U) : stM K unit := modify (fun k => with_devices k (f (devices k))).

Definition set_in (x : NetworkInput) : stM K unit :=
  upd_net (fun d => mkNet (n_host d) x (networkOut d) (numPacketsRecvd d) (numPacketsSent d) (post d)).
Definition set_out (x : NetworkOutput) : stM K unit :=
  upd_net (fun d => mkNet (n_host d) (networkIn d) x (numPacketsRecvd d) (numPacketsSent d) (post d)).
Definition count_recvd : stM K unit :=
  upd_net (fun d => mkNet (n_host d) (networkIn d) (networkOut d) (to_i32 (numPacketsRecvd d + 1)) (numPacketsSent d) (post d)).
Definition count_sent : stM K unit :=
  upd_net (fun d => mkNet (n_host d) (networkIn d) (networkOut d) (numPacketsRecvd d) (to_i32 (numPacketsSent d + 1)) (post d)).
Definition upd_post (f : Post -> Post) : stM K unit :=
  upd_net (fun d => mkNet (n_host d) (networkIn d) (networkOut d) (numPacketsRecvd d) (numPacketsSent d) (f (post d))).

(** What [RandomNumber] of the timer draws from *)
Definition net_random (d : Net U) : Z * Net U :=
  let '(r, u) := sys_rand ux (n_host d) in
  (to_u32 r, mkNet u (networkIn d) (networkOut d) (numPacketsRecvd d) (numPacketsSent d) (post d)).

Definition RandomNumber : stM K Z := r ← net_host (unix (sys_rand ux)); mret (to_u32 r).

(** ** machine/network.cc *)

Definition new_NetworkInput : stM K unit :=
  sock ← net_host (OpenSocket sx);
  let name := socket_name hostName in
  let b := new_buf uninit MaxWireSize in
  let h := packet_at b in
  set_in (mkNetworkInput sock name false (mkPacket (pkt_to h) (pkt_from h) 0) (take (Z.to_nat MaxPacketSize) b));;
  net_host (AssignNameToSocket ux sx name sock);;
  Schedule (DeviceObj net_in) NetworkTime NetworkRecvInt.

Definition delete_NetworkInput : stM K unit :=
  d ← gets devices;
  net_host (CloseSocket ux (in_sock (networkIn d)));;
  net_host (DeAssignNameToSocket ux (sockName (networkIn d))).

Definition NetworkInput_CallBack (callWhenAvail : stM K unit) : stM K unit :=
  Schedule (DeviceObj net_in) NetworkTime NetworkRecvInt;;
  d ← gets devices;
  let x := networkIn d in
  if negb (pkt_length (inHdr x) =? 0) then mret tt
  else
    avail ← net_host (PollSocket px (in_sock x));
    if negb avail then mret tt
    else
      buffer ← net_host (ReadFromSocket sx (in_sock x) (new_buf uninit MaxWireSize) MaxWireSize);
      let h := packet_at buffer in
      lift (ASSERT ((pkt_to h =? hostName) && (pkt_length h <=? MaxPacketSize)));;
      b ← lift (bcopy (drop (Z.to_nat sizeof_PacketHeader) buffer) (inbox x) 0 (pkt_length h));
      set_in (mkNetworkInput (in_sock x) (sockName x) (packetAvail x) h b);;
      count_recvd;;
      callWhenAvail.

(** The header, and [data] after the call *)
Definition NetworkInput_Receive (data : list Z) : stM K (PacketHeader * list Z) :=
  d ← gets devices;
  let x := networkIn d in
  let hdr := inHdr x in
  set_in (mkNetworkInput (in_sock x) (sockName x) (packetAvail x) (mkPacket (pkt_to hdr) (pkt_from hdr) 0) (inbox x));;
  if negb (pkt_length hdr =? 0) then
    data ← lift (bcopy (inbox x) data 0 (pkt_length hdr));
    mret (hdr, data)
  else mret (hdr, data).

Definition new_NetworkOutput (reliability : spec_float) : stM K unit :=
  let chance := if SFltb reliability (double_of 0) then double_of 0
                else if SFltb (double_of 1) reliability then double_of 1 else reliability in
  sock ← net_host (OpenSocket sx);
  set_out (mkNetworkOutput sock chance false).

Definition delete_NetworkOutput : stM K unit :=
  d ← gets devices;
  net_host (CloseSocket ux (out_sock (networkOut d))).

Definition NetworkOutput_CallBack (callWhenDone : stM K unit) : stM K unit :=
  d ← gets devices;
  let x := networkOut d in
  set_out (mkNetworkOutput (out_sock x) (chanceToWork x) false);;
  count_sent;;
  callWhenDone.

(** The packet as it goes out *)
Definition wire_packet (hdr : PacketHeader) (data : list Z) : res (list Z) :=
  buffer ← buf_write (new_buf uninit MaxWireSize) 0 (packet_bytes hdr);
  bcopy data buffer sizeof_PacketHeader (pkt_length hdr).

(** [RandomNumber() % 100 >= chanceToWork * 100] *)
Definition lost (chance : spec_float) (r : Z) : bool :=
  SFleb (double_mul chance (double_of 100)) (double_of (r mod 100)).

Definition NetworkOutput_Send (hdr : PacketHeader) (data : list Z) : stM K unit :=
  let toName := socket_name (pkt_to hdr) in
  d ← gets devices;
  let x := networkOut d in
  lift (ASSERT (negb (sendBusy x) && (0 <? pkt_length hdr) && (pkt_length hdr <=? MaxPacketSize) &&
    (pkt_from hdr =? hostName)));;
  Schedule (DeviceObj net_out) NetworkTime NetworkSendInt;;
  r ← RandomNumber;
  if lost (chanceToWork x) r then mret tt
  else
    buffer ← lift (wire_packet hdr data);
    net_host (SendToSocket sx (out_sock x) buffer MaxWireSize toName).

(** ** network/post.cc *)

Definition new_Mail (pktH : PacketHeader) (mailH : MailHeader) (msgData : list Z) : res Mail :=
  ASSERT (mail_length mailH <=? MaxMailSize);;
  data ← bcopy msgData (new_buf uninit MaxMailSize) 0 (mail_length mailH);
  mret (mkMail pktH mailH data).

(** A mail box is a synchronised list; the four parts of the list are made at
    new addresses. *)
Definition new_MailBox : stM K nat :=
  l ← new_address; s ← new_address; c ← new_address; q ← new_address;
  new_SynchList q l s c;;
  mret q.

Definition delete_MailBox (q : nat) : stM K unit := delete_SynchList q.

(** The address of a new object *)
Definition new_post_address : stM K Z :=
  d ← gets devices;
  let a := nextMail (post d) in
  upd_post (fun p => with_nextMail p (a + 1));;
  mret a.

(** [Put] up to the call of [Append], which the thread then makes. *)
Definition MailBox_Put (q : nat) (pktH : PacketHeader) (mailH : MailHeader) (data : list Z) : stM K unit :=
  mail ← lift (new_Mail pktH mailH data);
  a ← new_post_address;
  upd_post (fun p => with_mails p (<[a := mail]> (mails p)));;
  push [SynchAppend q a].

(** [Get] after [RemoveFront] has returned; the variables of the caller are its
    letter. *)
Definition MailBox_Get : stM K MailHeader :=
  t ← gets currentThread;
  x ← get_thread t;
  d ← gets devices;
  mail ← find (mails (post d) !! got x);
  let old := match letters (post d) !! t with Some (_, _, b) => b | None => new_buf uninit MaxMailSize end in
  data ← lift (bcopy (mail_data mail) old 0 (mail_length (mailHdr mail)));
  upd_post (fun p => with_letters p (<[t := (pktHdr mail, mailHdr mail, data)]> (letters p)));;
  upd_post (fun p => with_mails p (delete (got x) (mails p)));;
  mret (mailHdr mail).

(** The requests threads make *)
Definition deliver : nat := 0.
Definition net_send : nat := 1.
Definition take_letter : nat := 2.
Definition post_send : nat := 3.
Definition free_buffer : nat := 4.
Definition open_office : nat := 5.
Definition post_receive : nat := 6.
Definition test_start : nat := 7.
Definition test_reply : nat := 8.
Definition test_done : nat := 9.

(** [PostOfficeInput::PostalDelivery]: the worker makes its buffer, and goes
    round for ever, as procedure [loop]. *)
Definition PostalDelivery (loop : nat) : list instr := [Request open_office 0; Call loop 0].
Definition postal_round (po : PostOffice) (loop : nat) : list instr :=
  [P (messageAvailable po); Request deliver 0; Call loop 0].

Definition open_buffer : stM K unit := upd_post (fun p => with_buffer p (new_buf uninit MaxPacketSize)).

(** A round after [P] *)
Definition deliver_packet (po : PostOffice) : stM K unit :=
  d ← gets devices;
  '(pktH, buffer) ← NetworkInput_Receive (worker_buffer (post d));
  upd_post (fun p => with_buffer p buffer);;
  let mailH := mail_at buffer in
  lift (ASSERT ((0 <=? mail_to mailH) && (mail_to mailH <? numBoxes po)));;
  lift (ASSERT (mail_length mailH <=? MaxMailSize));;
  q ← lift (zget (boxes po) (mail_to mailH));
  MailBox_Put q pktH mailH (drop (Z.to_nat sizeof_MailHeader) buffer).

Definition new_boxes (n : nat) : stM K (list nat) :=
  fold_right (fun _ m => q ← new_MailBox; qs ← m; mret (q :: qs)) (mret []) (seq 0 n).

Definition new_PostOfficeInput (nBoxes : Z) (loop : nat) : stM K (nat * list nat) :=
  s ← new_Semaphore 0;
  qs ← new_boxes (Z.to_nat nBoxes);
  new_NetworkInput;;
  t ← new_Thread;
  Thread_Fork t (PostalDelivery loop);;
  mret (s, qs).

Definition delete_boxes (qs : list nat) : stM K unit :=
  fold_right (fun q m => m;; delete_MailBox q) (mret tt) qs.

Definition delete_PostOfficeInput (po : PostOffice) : stM K unit :=
  delete_NetworkInput;; delete_boxes (boxes po).

(** [PostOfficeInput::Receive]: the call of [RemoveFront], and what follows. *)
Definition PostOfficeInput_Receive (po : PostOffice) (box : Z) : stM K unit :=
  lift (ASSERT ((0 <=? box) && (box <? numBoxes po)));;
  q ← lift (zget (boxes po) box);
  push [SynchRemoveFront q; Request take_letter 0].

Definition finish_receive : stM K unit :=
  mailH ← MailBox_Get;
  lift (ASSERT (mail_length mailH <=? MaxMailSize)).

Definition PostOfficeInput_CallBack (po : PostOffice) : stM K unit := V_handler (messageAvailable po).

Definition new_PostOfficeOutput (reliability : spec_float) : stM K (nat * nat) :=
  s ← new_Semaphore 0;
  sem ← new_Semaphore 1;
  l ← new_address;
  put_lock l (mkLock sem None);;
  new_NetworkOutput reliability;;
  mret (s, l).

Definition delete_PostOfficeOutput (po : PostOffice) : stM K unit :=
  delete_NetworkOutput;;
  delete_Semaphore (messageSent po);;
  x ← get_lock (sendLock po);
  delete_Semaphore (lock_semaphore x);;
  modify (fun k => with_locks k (delete (sendLock po) (locks k))).

(** The header and the buffer [Send] fills in *)
Definition post_packet (pktH : PacketHeader) (mailH : MailHeader) (data : list Z) : res (PacketHeader * list Z) :=
  ASSERT (mail_length mailH <=? MaxMailSize);;
  ASSERT (0 <=? mail_to mailH);;
  let pktH := mkPacket (pkt_to pktH) hostName (to_u32 (mail_length mailH + sizeof_MailHeader)) in
  buffer ← buf_write (new_buf uninit MaxPacketSize) 0 (mail_bytes mailH);
  buffer ← bcopy data buffer sizeof_MailHeader (mail_length mailH);
  mret (pktH, buffer).

(** [PostOfficeOutput::Send] with the thread's draft *)
Definition PostOfficeOutput_Send (po : PostOffice) : stM K unit :=
  t ← gets currentThread;
  d ← gets devices;
  '(pktH, mailH, data) ← find (drafts (post d) !! t);
  packet ← lift (post_packet pktH mailH data);
  a ← new_post_address;
  upd_post (fun p => with_sends p (<[a := packet]> (sends p)));;
  push [Acquire (sendLock po); Request net_send a; P (messageSent po); Release (sendLock po); Request free_buffer a].

(** [network->Send(pktHdr, buffer)] and [delete [] buffer] in it *)
Definition send_buffer (a : Z) : stM K unit :=
  d ← gets devices;
  '(pktH, buffer) ← find (sends (post d) !! a);
  NetworkOutput_Send pktH buffer.

Definition delete_buffer (a : Z) : stM K unit := upd_post (fun p => with_sends p (delete a (sends p))).

Definition PostOfficeOutput_CallBack (po : PostOffice) : stM K unit := V_handler (messageSent po).

(** ** threads/kernel.cc: [Kernel::NetworkTest] *)

Definition hello : list Z := [72; 101; 108; 108; 111; 32; 116; 104; 101; 114; 101; 33; 0].
Definition got_it : list Z := [71; 111; 116; 32; 105; 116; 33; 0].

(** The characters of a C string in a buffer *)
Fixpoint cstring (b : list Z) : res (list Z) :=
  match b with
  | [] => Fail Undefined
  | c :: b' => if c =? 0 then mret [] else s ← cstring b'; mret (c :: s)
  end.

(** The line printed for a letter *)
Definition got_line (l : PacketHeader * MailHeader * list Z) : res (list Z) :=
  let '(pktH, mailH, buffer) := l in
  s ← cstring buffer;
  mret ([71; 111; 116; 58; 32] ++ s ++ [32; 58; 32; 102; 114; 111; 109; 32] ++ show_int (pkt_from pktH) ++
        [44; 32; 98; 111; 120; 32] ++ show_int (mail_from mailH) ++ [10]).

Definition set_draft (l : PacketHeader * MailHeader * list Z) : stM K unit :=
  t ← gets currentThread;
  upd_post (fun p => with_drafts p (<[t := l]> (drafts p))).

Definition my_letter : stM K (PacketHeader * MailHeader * list Z) :=
  t ← gets currentThread;
  d ← gets devices;
  find (letters (post d) !! t).

(** The three stretches of the test between its calls *)
Definition NetworkTest : stM K unit :=
  if (hostName =? 0) || (hostName =? 1) then
    let farHost := if hostName =? 0 then 1 else 0 in
    let h := packet_at (new_buf uninit MaxWireSize) in
    set_draft (mkPacket farHost (pkt_from h) (pkt_length h), mkMailHeader 0 1 13, hello);;
    push [Request post_send 0; Request post_receive 0; Request test_reply 0]
  else mret tt.

Definition NetworkTest_reply : stM K unit :=
  l ← my_letter;
  line ← lift (got_line l);
  let '(pktH, mailH, _) := l in
  let h := packet_at (new_buf uninit MaxWireSize) in
  set_draft (mkPacket (pkt_from pktH) (pkt_from h) (pkt_length h), mkMailHeader (mail_from mailH) 1 8, got_it);;
  push [Print line; Request post_send 0; Request post_receive 1; Request test_done 0].

Definition NetworkTest_done : stM K unit :=
  l ← my_letter;
  line ← lift (got_line l);
  push [Print line].

(** ** The devices of the kernel *)

Context (po : PostOffice).

Definition net_device (d : nat) : stM K unit :=
  match d with
  | 0%nat => NetworkInput_CallBack (PostOfficeInput_CallBack po)
  | 1%nat => NetworkOutput_CallBack (PostOfficeOutput_CallBack po)
  | _ => mret tt
  end.

Definition net_request (d : nat) (arg : Z) : stM K unit :=
  match d with
  | 0%nat => deliver_packet po
  | 1%nat => send_buffer arg
  | 2%nat => finish_receive
  | 3%nat => PostOfficeOutput_Send po
  | 4%nat => delete_buffer arg
  | 5%nat => open_buffer
  | 6%nat => PostOfficeInput_Receive po arg
  | 7%nat => NetworkTest
  | 8%nat => NetworkTest_reply
  | 9%nat => NetworkTest_done
  | _ => lift (Fail AssertFail)
  end.

End Network.
