(* ===== verification/Post.v ===== *)
(** * What the network and the post office guarantee

    The devices of Network.v meet the interfaces of the thread system; senders
    never overlap; what is sent is what is received; and the network test runs
    on two machines. *)

From Stdlib Require Import Sorting.Sorted.
From S2P Require Import Prelude LinkedList Machine FileSysStub AddrSpace Disk FileHdr OpenFile Directory Threads ThreadsInv ThreadsSafe ThreadsTest Devices Tokens Fifo Switch Exclusion Console Network.

Section Post.
Context {U : Type} (ux : UnixOps U) (px : PollOps U) (sx : SocketOps U).
Context (uninit : nat -> Z) (hostName : Z) (po : PostOffice).
Notation K := (Kern (Net U)).
Notation device := (net_device px sx uninit hostName po).
Notation request := (net_request ux sx uninit hostName po).

(** ** The thread system can run them *)

Lemma bcopy_io src dst off n f : bcopy src dst off n = Fail f -> io_fault f.
Proof. unfold bcopy, buf_write, io_fault. repeat case_match; intros [=]; auto. Qed.

Lemma buf_write_io buf off b f : buf_write buf off b = Fail f -> io_fault f.
Proof. unfold buf_write, io_fault. repeat case_match; intros [=]; auto. Qed.

#[local] Hint Resolve bcopy_io buf_write_io : io.

Lemma wire_packet_io h b f : wire_packet uninit h b = Fail f -> io_fault f.
Proof. unfold wire_packet. io. Qed.

Lemma post_packet_io pktH mailH b f : post_packet uninit hostName pktH mailH b = Fail f -> io_fault f.
Proof. unfold post_packet. io. Qed.

Lemma unix_io {A} (g : U -> A * U) u f : unix g u = Fail f -> io_fault f.
Proof. done. Qed.

Lemma PollSocket_io fd u f : PollSocket px fd u = Fail f -> io_fault f.
Proof. apply PollFile_io. Qed.

#[local] Hint Resolve unix_io PollSocket_io : io.

Lemma ReadFromSocket_io fd b n u f : ReadFromSocket sx fd b n u = Fail f -> io_fault f.
Proof. unfold ReadFromSocket. io. Qed.

Lemma send_tries_io n fd b size name u f : send_tries sx n fd b size name u = Fail f -> io_fault f.
Proof.
  revert u f. induction n as [ | n IH]; intros u f; [done | ]. cbn [send_tries]. unfold Delay. io; done.
Qed.

Lemma SendToSocket_io fd b size name u f : SendToSocket sx fd b size name u = Fail f -> io_fault f.
Proof.
  unfold SendToSocket. io; [ | by apply send_tries_io].
  unfold InitSocketName, io_fault. case_match; intros [=]; auto.
Qed.

Lemma new_Mail_io pktH mailH b f : new_Mail uninit pktH mailH b = Fail f -> io_fault f.
Proof. unfold new_Mail. io. Qed.

Lemma cstring_io b f : cstring b = Fail f -> io_fault f.
Proof.
  revert f. induction b as [ | ch b IH]; intros f; simpl; [intros [= <-]; by left | ]. case_match; io.
Qed.

Lemma got_line_io l f : got_line l = Fail f -> io_fault f.
Proof. destruct l as [[p m] b]. apply bind_io; [apply cstring_io | done]. Qed.

#[local] Hint Resolve wire_packet_io post_packet_io ReadFromSocket_io SendToSocket_io new_Mail_io got_line_io : io.

Lemma calm_net_host {A} k0 c (m : stM U A) :
  (forall u f, m u = Fail f -> io_fault f) -> keeps io_fault (handled (D := Net U) k0 c) anything (net_host m).
Proof.
  intros Hm. unfold net_host. apply (keeps_bind anything); [calm | ]. intros d _.
  apply (keeps_bind anything); [apply calm_lift; intros f; apply Hm | ]. intros [a u] _. calm.
Qed.

Ltac net := repeat first [calm1 | apply calm_net_host; solve [eauto with io]
  | progress unfold upd_post, set_in, set_out, count_recvd, count_sent, upd_net, get_thread, RandomNumber,
      new_post_address, set_draft, my_letter].

#[global] Instance net_device_ok : DeviceOk io_fault device.
Proof.
  apply device_calm. intros d k0 c Hn Hl Hh. destruct d as [ | [ | d]]; cbn [net_device]; [ | | calm].
  - unfold NetworkInput_CallBack, PostOfficeInput_CallBack. net.
  - unfold NetworkOutput_CallBack, PostOfficeOutput_CallBack. net.
Qed.

Ltac after_calm := apply request_then; [done | done | intros ? ?; net | intros ? ? ? ?].
Ltac request_tac := repeat first
  [ by apply request_push | by apply request_done
  | match goal with |- wp _ _ (match ?x with _ => _ end) _ => destruct x end
  | after_calm ].

#[global] Instance net_request_ok : RequestOk request.
Proof.
  intros d arg k lv c Hr Hl%room_now.
  destruct d as [ | [ | [ | [ | [ | [ | [ | [ | [ | [ | d]]]]]]]]]]; cbn [net_request]; [.. | by right].
  - unfold deliver_packet, NetworkInput_Receive, MailBox_Put. request_tac.
  - unfold send_buffer, NetworkOutput_Send. apply request_calm; [done | done | ]. intros k0 Hn. net.
  - unfold finish_receive, MailBox_Get. apply request_calm; [done | done | ]. intros k0 Hn. net.
  - unfold PostOfficeOutput_Send. request_tac.
  - apply request_calm; [done | done | ]. intros k0 Hn. unfold delete_buffer. net.
  - apply request_calm; [done | done | ]. intros k0 Hn. unfold open_buffer. net.
  - unfold PostOfficeInput_Receive. request_tac.
  - unfold NetworkTest. request_tac.
  - unfold NetworkTest_reply. request_tac.
  - unfold NetworkTest_done. request_tac.
Qed.

Lemma fifo_net_host {A} l (m : stM U A) : keeps any_fault (grows l) anything (net_host m).
Proof. unfold net_host. fifo. Qed.

(** Takes the code of the network apart with [tac]. *)
Ltac net_with tac := repeat first [tac
  | progress unfold get_thread, upd_post, set_in, set_out, count_recvd, count_sent, upd_net, RandomNumber, new_post_address, set_draft,
      my_letter, deliver_packet, NetworkInput_Receive, MailBox_Put, send_buffer, NetworkOutput_Send, finish_receive,
      MailBox_Get, PostOfficeOutput_Send, delete_buffer, open_buffer, PostOfficeInput_Receive, NetworkTest,
      NetworkTest_reply, NetworkTest_done].

Ltac net_fifo := net_with ltac:(first [fifo_dev1 | match goal with |- keeps _ _ _ (net_host _) => apply fifo_net_host end]).

(** Nor do they upset the order of the ready list. *)
#[global] Instance net_fifo_ok : DeviceFifo device request.
Proof.
  split; intros d; [intros l | intros arg l].
  - destruct d as [ | [ | d]]; cbn [net_device];
      unfold NetworkInput_CallBack, PostOfficeInput_CallBack, NetworkOutput_CallBack, PostOfficeOutput_CallBack; net_fifo.
  - destruct d as [ | [ | [ | [ | [ | [ | [ | [ | [ | [ | d]]]]]]]]]]; cbn [net_request]; net_fifo.
Qed.

(** Nor do they touch a thread that does not run. *)
Lemma hold_net_host {A} t R sp C (m : stM U A) : keeps any_fault (holds t R sp C) anything (net_host m).
Proof. unfold net_host. hold. Qed.

Ltac net_hold := net_with ltac:(first [hold_dev1 | match goal with |- keeps _ _ _ (net_host _) => apply hold_net_host end]).

#[global] Instance net_holds : DeviceHolds device request.
Proof.
  split; intros t R sp C d; [ | intros arg].
  - destruct d as [ | [ | d]]; cbn [net_device];
      unfold NetworkInput_CallBack, PostOfficeInput_CallBack, NetworkOutput_CallBack, PostOfficeOutput_CallBack; net_hold.
  - destruct d as [ | [ | [ | [ | [ | [ | [ | [ | [ | [ | d]]]]]]]]]]; cbn [net_request]; net_hold.
Qed.

(** ** Senders take turns *)

Section Turns.
(** the semaphore of the send lock *)
Context (s : nat).
Notation acc := (serial_accounts (D := Net U) (sendLock po) s (messageSent po) net_send net_out).
Notation still n m := (keeps any_fault (tokens acc n) anything m).
Hypothesis Havail : messageAvailable po <> s /\ messageAvailable po <> messageSent po.

Lemma still_net n (f : K -> K) : (forall k, f k = with_devices k (devices (f k))) -> still n (modify f).
Proof.
  intros Hf k Hk. apply wp_modify. split; [done | ]. rewrite Hf.
  pose proof (tokens_devices acc n k (devices (f k)) Hk) as H. by rewrite Z.sub_diag, Z.add_0_r in H.
Qed.

Lemma still_net_host {A} n (m : stM U A) : still n (net_host m).
Proof. unfold net_host. repeat first [tok1 | by apply still_net]. Qed.

Lemma still_poll n : still n (Schedule (DeviceObj net_in) NetworkTime NetworkRecvInt).
Proof.
  intros k Hk. eapply wp_mono; [by apply Schedule_tokens | ]. cbv beta. intros r k'. simpl. by rewrite Z.add_0_r.
Qed.

Lemma still_available n : n < 2 ^ 30 -> still n (V_handler (messageAvailable po)).
Proof.
  intros Hn k Hk. eapply wp_mono; [by apply (V_handler_tokens acc) | ]. cbv beta. intros r k'. destruct Havail.
  rewrite serial_other by done. by rewrite Z.add_0_r.
Qed.

Ltac turns := repeat first [tok1 | apply still_net; by intros | apply still_net_host
  | progress unfold upd_post, set_in, set_out, count_recvd, count_sent, upd_net, get_thread, RandomNumber,
      new_post_address, set_draft, my_letter].

#[global] Instance net_tokens : DeviceTokens acc 1 (net_random ux) device request.
Proof.
  split; [apply _ | done | done | ..].
  - intros d k Hk. destruct d as [ | [ | d]]; cbn [net_device].
    + change (1 - _) with 1 in Hk. apply still_wp; [ | done].
      unfold NetworkInput_CallBack, PostOfficeInput_CallBack. turns; first [apply still_poll | by apply still_available].
    + change (1 - _) with 0 in Hk. unfold NetworkOutput_CallBack, PostOfficeOutput_CallBack.
      apply wp_bind, wp_gets, wp_bind. eapply wp_mono; [apply still_wp; [turns | exact Hk] | ].
      cbv beta. intros r k1 Hk1. apply wp_bind. eapply wp_mono; [apply still_wp; [turns | exact Hk1] | ].
      cbv beta. intros r' k2 Hk2. eapply wp_mono; [by apply (V_handler_tokens acc 0) | ].
      cbv beta. intros r'' k3. by rewrite serial_sem.
    + change (1 - _) with 1 in Hk. by apply wp_ret.
  - intros d arg k Hk. destruct (decide (d = net_send)) as [-> | Hd].
    + rewrite serial_request in Hk. change (1 - 1) with 0 in Hk. cbn [net_request net_send].
      unfold send_buffer. apply wp_bind, wp_gets, wp_bind. unfold wp at 1, find, lift.
      destruct (_ !! arg) as [[h b] | ]; [ | done]. unfold NetworkOutput_Send. apply wp_bind, wp_gets, wp_asserted, wp_bind.
      eapply wp_mono; [by apply (Schedule_tokens acc 0) | ]. cbv beta. intros r k1 Hk1.
      apply still_wp; [turns | exact Hk1].
    + assert (Hz : of_request acc d arg = 0) by (cbn [of_request serial_accounts]; by rewrite decide_False).
      rewrite Hz, Z.sub_0_r in Hk. apply still_wp; [ | done]. clear Hz Hk k.
      destruct d as [ | [ | [ | [ | [ | [ | [ | [ | [ | [ | d]]]]]]]]]]; cbn [net_request]; [.. | by intros k Hk]; try done.
      * unfold deliver_packet, NetworkInput_Receive, MailBox_Put. turns.
      * unfold finish_receive, MailBox_Get. turns.
      * unfold PostOfficeOutput_Send. turns. apply still_push; [.. | by repeat constructor];
          by apply (serial_use (D := Net U) (sendLock po) s (messageSent po) net_send net_out a2 [Request free_buffer a2]).
      * unfold delete_buffer. turns.
      * unfold open_buffer. turns.
      * unfold PostOfficeInput_Receive. turns.
      * unfold NetworkTest. turns.
      * unfold NetworkTest_reply. turns.
      * unfold NetworkTest_done. turns.
Qed.

End Turns.

(** *** Sending comes to an end *)

(** Datagram sockets: a message is sent whole or not at all. *)
Class SocketLaws : Prop := {
  sendto_whole fd b name u : (sys_sendto sx fd b name u).1 = Z.of_nat (length b) \/ (sys_sendto sx fd b name u).1 < 0
}.

Lemma digits_length fuel n acc : (length (digits fuel n acc) <= fuel + length acc)%nat.
Proof.
  revert n acc. induction fuel as [ | fuel IH]; intros n acc; simpl; [lia | ]. case_match; simpl; [lia | ].
  specialize (IH (n / 10) ((48 + n mod 10) :: acc)). simpl in IH. lia.
Qed.

Lemma socket_name_fits n : InitSocketName (socket_name n) = Ok (socket_name n).
Proof.
  unfold InitSocketName, socket_name, show_int. rewrite length_app.
  replace (_ <? 108) with true; [done | ]. symmetry. apply Z.ltb_lt.
  pose proof (digits_length 10 (- n) []). pose proof (digits_length 10 n []).
  cbn [length] in *. case_match; cbn [length]; lia.
Qed.

Lemma send_tries_ok `{!SocketLaws} n fd b name u :
  exists u', send_tries sx n fd b (Z.of_nat (length b)) name u = Ok (tt, u').
Proof.
  revert u. induction n as [ | n IH]; intros u; [by exists u | ]. cbn [send_tries]. unfold unix, Delay. run.
  rewrite Nat2Z.id, firstn_all. pose proof (sendto_whole fd b name u) as Hs.
  destruct (sys_sendto sx fd b name u) as [r u'] eqn:E. simpl in Hs.
  destruct (Z.eqb_spec r (Z.of_nat (length b))) as [_ | Hne]; [by exists u' | ].
  rewrite ASSERT_true by (apply Z.ltb_lt; tauto). apply IH.
Qed.

Lemma splice_after (q c b : list Z) : splice (q ++ c) (length q) b = q ++ b ++ drop (length b) c.
Proof.
  unfold splice. rewrite length_app, take_app_le by (rewrite length_app; lia). rewrite take_app_length. by rewrite drop_app_add.
Qed.

Lemma bcopy_ok src dst off n :
  0 <= n <= Z.of_nat (length src) -> 0 <= off -> off + n <= Z.of_nat (length dst) ->
  bcopy src dst off n = Ok (splice dst (Z.to_nat off) (take (Z.to_nat n) src)).
Proof.
  intros Hn Ho Hd. unfold bcopy. rewrite (proj2 (Z.leb_le _ _)) by lia. apply buf_write_ok; [done | ].
  rewrite length_take. lia.
Qed.

(** A header in front of [n] bytes of data, in a buffer of [size] bytes *)
Definition packed (hdr : list Z) (n : Z) (data : list Z) (size : Z) : list Z :=
  hdr ++ take (Z.to_nat n) data ++ drop (Z.to_nat n) (drop 12 (new_buf uninit size)).

Lemma length_packed hdr n data size :
  length hdr = 12%nat -> 0 <= n <= Z.of_nat (length data) -> n + 12 <= size -> length (packed hdr n data size) = Z.to_nat size.
Proof.
  intros Hh Hn Hs. unfold packed. rewrite !length_app, length_take, !length_drop, length_new_buf, Hh. lia.
Qed.

Lemma pack_ok hdr n data size : length hdr = 12%nat -> 0 <= n <= Z.of_nat (length data) -> n + 12 <= size ->
  (b ← buf_write (new_buf uninit size) 0 hdr; bcopy data b 12 n) = Ok (packed hdr n data size).
Proof.
  intros Hh Hn Hs. pose proof (length_new_buf uninit size) as Hl. rewrite buf_write_ok by lia. cbn [mbind res_bind].
  rewrite splice_front, Hh. rewrite bcopy_ok; [ | done | lia | rewrite length_app, length_drop, Hh; lia].
  change (Z.to_nat 12) with 12%nat. rewrite <- Hh at 2. rewrite splice_after. unfold packed. do 3 f_equal.
  rewrite length_take. f_equal. lia.
Qed.

Lemma wire_packet_ok h b : 0 <= pkt_length h <= MaxPacketSize -> pkt_length h <= Z.of_nat (length b) ->
  wire_packet uninit h b = Ok (packed (packet_bytes h) (pkt_length h) b MaxWireSize).
Proof.
  intros Hl Hb. apply pack_ok; [done | lia | ]. unfold MaxPacketSize, MaxWireSize, sizeof_PacketHeader in *. lia.
Qed.

(** A call of the host that succeeds changes nothing else. *)
Lemma wp_net_host {A} (Q : A -> K -> Prop) (m : stM U A) k x u :
  m (n_host (devices k)) = Ok (x, u) ->
  (forall k', pending_of k' = pending_of k -> Q x k') -> wp no_fault Q (net_host m) k.
Proof. intros E HQ. unfold net_host, wp. run. rewrite E. by apply HQ. Qed.

Lemma Send_ok `{!SocketLaws} h b k :
  sendBusy (networkOut (devices k)) = false -> 0 < pkt_length h <= MaxPacketSize -> pkt_from h = hostName ->
  pkt_length h <= Z.of_nat (length b) ->
  exists k', NetworkOutput_Send ux sx uninit hostName h b k = Ok (tt, k') /\ ~ quiet_device net_out k'.
Proof.
  intros Hf Hl Hh Hb.
  assert (Hwp : wp no_fault (fun _ k' => ~ quiet_device net_out k') (NetworkOutput_Send ux sx uninit hostName h b) k).
  2:{ apply wp_no_fault in Hwp as ([] & k' & E & Hk'). by exists k'. }
  unfold NetworkOutput_Send. apply wp_bind, wp_gets, wp_bind. eapply wp_lift.
  { apply ASSERT_true. by rewrite Hf, Hh, Z.eqb_refl, (proj2 (Z.ltb_lt _ _)), (proj2 (Z.leb_le _ _)) by lia. }
  unfold Schedule. apply wp_bind, wp_bind, wp_gets, wp_bind. eapply wp_lift; [done | ]. apply wp_bind, wp_gets, wp_modify.
  set (k1 := with_interrupt _ _).
  assert (Hk1 : ~ quiet_device net_out k1).
  { unfold quiet_device, k1, pending_of. cbn. rewrite (sorted_insert_perm PendingCompare). by intros [[] _]%Forall_cons. }
  unfold RandomNumber. destruct (sys_rand ux (n_host (devices k1))) as [r u] eqn:Er.
  apply wp_bind, wp_bind. eapply wp_net_host; [unfold unix; by rewrite Er | ]. intros k2 Hp2. apply wp_ret.
  assert (Hk2 : ~ quiet_device net_out k2) by (unfold quiet_device in *; by rewrite Hp2).
  destruct (lost _ _); [by apply wp_ret | ]. apply wp_bind. eapply wp_lift; [by apply wire_packet_ok; lia | ].
  unfold SendToSocket. destruct (send_tries_ok 10 (out_sock (networkOut (devices k)))
    (packed (packet_bytes h) (pkt_length h) b MaxWireSize) (socket_name (pkt_to h)) (n_host (devices k2))) as [u' Eu].
  rewrite length_packed in Eu; [ | done | lia | unfold MaxPacketSize, MaxWireSize, sizeof_PacketHeader in *; lia].
  eapply wp_net_host; [run; rewrite socket_name_fits; exact Eu | ]. intros k3 Hp3. unfold quiet_device in *. by rewrite Hp3.
Qed.

(** *** The busy flag, and the packets under way *)

(** A packet fit to be sent *)
Definition good_packet (p : PacketHeader * list Z) : Prop :=
  0 < pkt_length p.1 <= MaxPacketSize /\ pkt_from p.1 = hostName /\ pkt_length p.1 <= Z.of_nat (length p.2).

Definition idle (d : Net U) : Prop :=
  sendBusy (networkOut d) = false /\ map_Forall (fun _ p => good_packet p) (sends (post d)) /\
  map_Forall (fun _ l => 0 <= mail_length l.1.2) (drafts (post d)).

#[global] Instance idle_dec d : Decision (idle d).
Proof. unfold idle, good_packet. apply _. Defined.

Notation flag m := (keeps any_fault (tokens (flag_accounts idle) 0) anything m).

Lemma flag_host {A} (m : stM U A) : flag (net_host m).
Proof.
  intros k Hk%flag_holds. unfold net_host. apply wp_bind, wp_gets, wp_bind. unfold wp at 1, lift.
  destruct (m (n_host (devices k))) as [[x u] | ]; [ | done]. apply wp_bind, wp_modify, wp_ret. split; [done | ].
  by apply flag_holds.
Qed.

Lemma flag_draft l : 0 <= mail_length l.1.2 -> flag (set_draft (U := U) l).
Proof.
  intros Hl. unfold set_draft. apply (keeps_bind anything); [tok1 | ]. intros t _.
  apply flag_modify. intros k (H1 & H2 & H3). split_and!; [done | done | ]. by apply map_Forall_insert_2.
Qed.

Ltac flags := repeat first [tok1 | apply flag_modify; by intros ? (? & ? & ?) | apply flag_host | by apply flag_draft | apply flag_Schedule | by apply flag_V
  | progress unfold upd_post, set_in, set_out, count_recvd, count_sent, upd_net, get_thread, RandomNumber,
      new_post_address, my_letter].

(** What [PostOfficeOutput::Send] gives to the network *)
Lemma post_packet_ok pktH mailH data :
  0 <= mail_length mailH <= MaxMailSize -> mail_length mailH <= Z.of_nat (length data) -> 0 <= mail_to mailH ->
  post_packet uninit hostName pktH mailH data =
    Ok (mkPacket (pkt_to pktH) hostName (mail_length mailH + 12), packed (mail_bytes mailH) (mail_length mailH) data MaxPacketSize).
Proof.
  intros Hl Hd Ht. unfold post_packet. rewrite !ASSERT_true by (apply Z.leb_le; lia). cbn [mbind res_bind].
  pose proof (pack_ok (mail_bytes mailH) (mail_length mailH) data MaxPacketSize) as Hp. change sizeof_MailHeader with 12.
  change MaxMailSize with 40 in Hl. change MaxPacketSize with 52 in *.
  destruct (buf_write _ 0 (mail_bytes mailH)) as [c | ]; cbn [mbind res_bind] in *; [rewrite Hp by (done || lia) | by specialize (Hp eq_refl ltac:(lia) ltac:(lia))].
  cbn [mbind res_bind mret res_ret]. rewrite to_u32_id; [done | ]. unfold is_u32. pow2. lia.
Qed.

Lemma post_packet_good pktH mailH data packet : 0 <= mail_length mailH ->
  post_packet uninit hostName pktH mailH data = Ok packet -> good_packet packet.
Proof.
  intros Hl E. pose proof E as E'. unfold post_packet, ASSERT in E'.
  destruct (Z.leb_spec (mail_length mailH) MaxMailSize) as [Hm | ]; [ | done].
  destruct (Z.leb_spec 0 (mail_to mailH)) as [Ht | ]; [ | done]. cbn [mbind res_bind] in E'.
  destruct (Z.leb_spec (mail_length mailH) (Z.of_nat (length data))) as [Hd | Hd].
  - rewrite post_packet_ok in E by (done || lia). injection E as <-. change MaxMailSize with 40 in Hm.
    unfold good_packet. cbn [fst snd pkt_length pkt_from]. change MaxPacketSize with 52. rewrite length_packed by (done || lia). lia.
  - exfalso. destruct (buf_write _ _ _) as [c | ]; [ | done]. cbn [mbind res_bind] in E'. unfold bcopy in E'.
    rewrite (proj2 (Z.leb_gt _ _)) in E' by done. done.
Qed.

Lemma flag_Send : flag (PostOfficeOutput_Send uninit hostName po).
Proof.
  intros k Hk. pose proof Hk as (_ & _ & Hd)%flag_holds. unfold PostOfficeOutput_Send. apply wp_bind, wp_gets, wp_bind, wp_gets, wp_bind.
  unfold wp at 1, find, lift. destruct (drafts _ !! _) as [[[pktH mailH] data] | ] eqn:El; [ | done].
  apply wp_bind. unfold wp at 1, lift. destruct (post_packet _ _ _ _ _) as [packet | ] eqn:Ep; [ | done].
  apply post_packet_good in Ep; [ | exact (Hd _ _ El)].
  revert k Hk Hd El. intros k Hk _ _. revert k Hk. change (flag (a ← new_post_address (U := U);
    upd_post (fun p => with_sends p (<[a := packet]> (sends p)));;
    push [Acquire (sendLock po); Request net_send a; P (messageSent po); Release (sendLock po); Request free_buffer a])).
  apply (keeps_bind anything); [flags | ]. intros a _. apply (keeps_bind anything); [ | intros _ _; flags].
  apply flag_modify. intros k (H1 & H2 & H3). split_and!; [done | | done]. by apply map_Forall_insert_2.
Qed.

Lemma flag_delete a : flag (delete_buffer (U := U) a).
Proof.
  apply flag_modify. intros k (H1 & H2 & H3). split_and!; [done | | done]. by apply map_Forall_delete.
Qed.

#[global] Instance flag_tokens : DeviceTokens (flag_accounts idle) 0 (net_random ux) device request.
Proof.
  split; [apply _ | done | ..].
  - intros d. unfold net_random. by destruct (sys_rand ux (n_host d)).
  - intros d k Hk. apply still_wp; [ | done]. destruct d as [ | [ | d]]; cbn [net_device]; [ | | flags].
    + unfold NetworkInput_CallBack, PostOfficeInput_CallBack. flags.
    + unfold NetworkOutput_CallBack, PostOfficeOutput_CallBack. flags.
  - intros d arg k Hk. apply still_wp; [ | done]. clear Hk k.
    destruct d as [ | [ | [ | [ | [ | [ | [ | [ | [ | [ | d]]]]]]]]]]; cbn [net_request]; [.. | by intros k Hk].
    + unfold deliver_packet, NetworkInput_Receive, MailBox_Put. flags.
    + unfold send_buffer, NetworkOutput_Send. flags.
    + unfold finish_receive, MailBox_Get. flags.
    + apply flag_Send.
    + apply flag_delete.
    + unfold open_buffer. flags.
    + unfold PostOfficeInput_Receive. flags.
    + unfold NetworkTest. flags.
    + unfold NetworkTest_reply. flags.
    + unfold NetworkTest_done. flags.
Qed.

(** *** One packet at a time *)

Section Exclusive.
Context (s : nat) (procs : nat -> Z -> list instr) `{!SocketLaws}.
Notation acc := (serial_accounts (D := Net U) (sendLock po) s (messageSent po) net_send net_out).
(** Packets that arrive are announced on a semaphore of their own. *)
Hypothesis Havail : messageAvailable po <> s /\ messageAvailable po <> messageSent po.

(** C24: The network is handed one packet at a time.  Let any number of threads
    send mail with PostOfficeOutput::Send, from a kernel in which the network is
    idle and the send lock free.  Whenever a thread is about to hand its packet
    to NetworkOutput::Send, no other thread is, the device has no interrupt
    pending and is not busy; every clause of the assertion there holds; and the
    call returns, whether the packet is lost, delivered or refused ten times by
    the receiver's socket, with the interrupt pending that lets the sender go
    on. *)
Theorem send_exclusive k0 k a packet
    (Hclient : forall f arg, forallb client (procs f arg) = true)
    (Hprocs : procs_tokens acc procs) (H0 : kinv k0) (Hfree : tokens acc 1 k0) (Hidle : idle (devices k0))
    (Hr : reachable (net_random ux) device request procs k0 k)
    (Hnext : next_instr k = Some (Request net_send a)) (Hpacket : sends (post (devices k)) !! a = Some packet) :
  quiet_device net_out k /\ sendBusy (networkOut (devices k)) = false /\
  (forall t x i c, threads k !! t = Some x -> t <> currentThread k -> code x = i :: c ->
     forall a', i <> Request net_send a') /\
  exists k', step (net_random ux) device request procs k = Ok (tt, k') /\ ~ quiet_device net_out k'.
Proof.
  pose proof (net_tokens s Havail) as Htok.
  destruct (serial_exclusive (sendLock po) s (messageSent po) net_send net_out _ _ _ procs k0 k a Hclient Hprocs H0 Hfree Hr
    Hnext) as [Hq Hothers].
  destruct (reachable_tokens (flag_accounts idle) _ _ _ 0 procs (codeless_procs _ _ (flag_codeless idle)) k0 k Hclient H0
    (proj2 (flag_holds idle k0) Hidle) Hr) as [_ Hk]. apply flag_holds in Hk as (Hbusy & Hgood & _).
  destruct (Hgood a packet Hpacket) as (Hl & Hh & Hb). destruct packet as [h b].
  split_and!; [done | done | done | ].
  destruct (step_Request (net_random ux) device request procs k net_send a Hnext) as (x & c & _ & _ & ->).
  cbn [net_request net_send]. unfold send_buffer, mbind at 1, stM_bind at 1, gets at 1, mbind at 1, stM_bind at 1, find, lift.
  change (devices (set_code k x c)) with (devices k). rewrite Hpacket. by apply Send_ok.
Qed.

End Exclusive.

End Post.

(** ** What is sent is what is received *)

Lemma word_of_app a rest i : (4 * i + 4 <= length a)%nat -> word_of (a ++ rest) i = word_of a i.
Proof.
  intros Hl. unfold word_of, bytes_uint. rewrite drop_app_le by lia.
  by rewrite !lookup_total_app_l by (rewrite length_drop; lia).
Qed.

Lemma packet_at_bytes h rest :
  is_i32 (pkt_to h) -> is_i32 (pkt_from h) -> is_u32 (pkt_length h) -> packet_at (packet_bytes h ++ rest) = h.
Proof.
  intros H1 H2 H3. unfold packet_at, packet_bytes. rewrite !word_of_app by (rewrite length_ints_bytes; simpl; lia).
  rewrite (word_of_ints _ 0 (pkt_to h)), (word_of_ints _ 1 (pkt_from h)), (word_of_ints _ 2 (pkt_length h)) by done. destruct h as [t f l]; cbn [pkt_to pkt_from pkt_length] in *.
  by rewrite (to_u32_id l), !to_i32_u32, !to_i32_id.
Qed.

Lemma mail_at_bytes h rest :
  is_i32 (mail_to h) -> is_i32 (mail_from h) -> is_u32 (mail_length h) -> mail_at (mail_bytes h ++ rest) = h.
Proof.
  intros H1 H2 H3. pose proof (packet_at_bytes (mkPacket (mail_to h) (mail_from h) (mail_length h)) rest H1 H2 H3) as H.
  change (mail_at (mail_bytes h ++ rest)) with (let p := packet_at (packet_bytes (mkPacket (mail_to h) (mail_from h) (mail_length h)) ++ rest)
    in mkMailHeader (pkt_to p) (pkt_from p) (pkt_length p)). rewrite H. by destruct h.
Qed.

Lemma length_buf_write buf off b c : buf_write buf off b = Ok c -> length c = length buf.
Proof.
  unfold buf_write. case_match eqn:E; [ | done]. intros [= <-]. apply andb_true_iff in E as [H1%Z.leb_le H2%Z.leb_le].
  apply length_splice. lia.
Qed.

Lemma length_wire uninit h data w : wire_packet uninit h data = Ok w -> length w = 64%nat.
Proof.
  unfold wire_packet. destruct (buf_write _ 0 _) as [c | ] eqn:Ec; [ | done]. cbn [mbind res_bind]. unfold bcopy.
  case_match; [ | done]. intros Ew. by rewrite (length_buf_write _ _ _ _ Ew), (length_buf_write _ _ _ _ Ec), length_new_buf.
Qed.

Section Roundtrip.
Context {U : Type} (px : PollOps U) (sx : SocketOps U) (uninit : nat -> Z) (hostName : Z) (po : PostOffice).
(** the sender: its machine and its memory, and what it sends *)
Context (from : Z) (uninit' : nat -> Z) (pktH : PacketHeader) (mailH : MailHeader) (data : list Z).
Notation K := (Kern (Net U)).
Notation n := (mail_length mailH).

(** The header of the packet, and the packet in the device, in a mail, and in
    the receiver's variables *)
Definition sent_header : PacketHeader := mkPacket (pkt_to pktH) from (n + 12).
Definition has_packet (b : list Z) (x : NetworkInput) : Prop :=
  inHdr x = sent_header /\ take (Z.to_nat (n + 12)) (inbox x) = take (Z.to_nat (n + 12)) b /\ length (inbox x) = 52%nat.
Definition has_mail (m : Mail) : Prop :=
  pktHdr m = sent_header /\ mailHdr m = mailH /\ take (Z.to_nat n) (mail_data m) = take (Z.to_nat n) data /\
  length (mail_data m) = 40%nat.
Definition has_letter (l : PacketHeader * MailHeader * list Z) : Prop :=
  l.1.1 = sent_header /\ l.1.2 = mailH /\ take (Z.to_nat n) l.2 = take (Z.to_nat n) data.

(** The network at the receiver: nothing buffered, and [w] is next at the
    socket. *)
Definition incoming_packet (w : list Z) (k : K) : Prop :=
  let x := networkIn (devices k) in
  pkt_length (inHdr x) = 0 /\ length (inbox x) = 52%nat /\
  (sys_select px (in_sock x) (n_host (devices k))).1 = 1 /\
  (sys_recvfrom sx (in_sock x) MaxWireSize (sys_select px (in_sock x) (n_host (devices k))).2).1 = (MaxWireSize, w).

Hypothesis Hlen : 0 <= n <= MaxMailSize.
Hypothesis Hdata : n <= Z.of_nat (length data).
Hypothesis Hto : 0 <= mail_to mailH < numBoxes po.
Hypothesis Hboxes : numBoxes po = Z.of_nat (length (boxes po)).
Hypothesis Hhost : pkt_to pktH = hostName.
Hypothesis Hrange : is_i32 from /\ is_i32 hostName /\ is_i32 (mail_to mailH) /\ is_i32 (mail_from mailH).

Notation b := (packed uninit' (mail_bytes mailH) n data MaxPacketSize).
Notation w := (packed uninit' (packet_bytes sent_header) (n + 12) b MaxWireSize).

Lemma sent_packet : post_packet uninit' from pktH mailH data = Ok (sent_header, b) /\ wire_packet uninit' sent_header b = Ok w.
Proof.
  change MaxMailSize with 40 in Hlen. split; [apply post_packet_ok; done || lia | ].
  apply wire_packet_ok; cbn [sent_header pkt_length]; change MaxPacketSize with 52; [lia | ]. rewrite length_packed by (done || lia). lia.
Qed.

Lemma length_sent : length b = 52%nat /\ length w = 64%nat.
Proof.
  change MaxMailSize with 40 in Hlen. assert (Hb : length b = 52%nat) by (rewrite length_packed; [done | done | lia | change MaxPacketSize with 52; lia]).
  split; [done | ]. rewrite (length_packed uninit' (packet_bytes sent_header) (n + 12) b MaxWireSize); [done | done | lia | unfold MaxWireSize; lia].
Qed.

Lemma wire_parts : packet_at w = sent_header /\ take (Z.to_nat (n + 12)) (drop 12 w) = take (Z.to_nat (n + 12)) b.
Proof.
  change MaxMailSize with 40 in Hlen. destruct Hrange as (H1 & H2 & _). destruct length_sent as [Hb _]. split.
  - unfold packed at 1. apply packet_at_bytes; cbn [sent_header pkt_to pkt_from pkt_length]; [by rewrite Hhost | done | ].
    unfold is_u32. pow2. lia.
  - unfold packed at 1. rewrite drop_app_length'; [ | done]. rewrite take_app_length'; [done | ]. rewrite length_take. lia.
Qed.

Lemma Schedule_devices o d ty (k : K) : 0 < d -> exists k', Schedule o d ty k = Ok (tt, k') /\ devices k' = devices k.
Proof.
  intros Hd. unfold Schedule. run. rewrite ASSERT_true by (by apply Z.ltb_lt). eexists. split; [reflexivity | done].
Qed.

Lemma net_host_eq {A} (m : stM U A) (k : K) x u : m (n_host (devices k)) = Ok (x, u) ->
  exists k', net_host m k = Ok (x, k') /\ networkIn (devices k') = networkIn (devices k) /\ n_host (devices k') = u.
Proof. intros E. unfold net_host. run. rewrite E. eexists. split; [reflexivity | done]. Qed.

Lemma bind_step {S A B} (m : stM S A) (f : A -> stM S B) s x s' r : m s = Ok (x, s') -> f x s' = r -> (m ≫= f) s = r.
Proof. intros E <-. unfold mbind, stM_bind. by rewrite E. Qed.

Lemma received_packet callback k : incoming_packet w k ->
  exists k', NetworkInput_CallBack px sx uninit hostName callback k = callback k' /\ has_packet b (networkIn (devices k')).
Proof.
  intros (H0 & Hin & Hsel & Hrecv). destruct length_sent as [Hb Hw]. destruct wire_parts as [Hp Ht].
  change MaxMailSize with 40 in Hlen.
  destruct (Schedule_devices (DeviceObj net_in) NetworkTime NetworkRecvInt k) as (k1 & E1 & Ed); [done | ].
  destruct (sys_select px _ _) as [r u1] eqn:Es. cbn [fst snd] in Hsel, Hrecv. subst r.
  destruct (net_host_eq (PollSocket px (in_sock (networkIn (devices k)))) k1 true u1) as (k2 & E2 & _ & Hu2).
  { unfold PollSocket, PollFile, unix. run. rewrite Ed, Es. done. }
  destruct (sys_recvfrom sx _ _ _) as [[r bs] u2] eqn:Er. cbn [fst] in Hrecv. injection Hrecv as -> ->.
  destruct (net_host_eq (ReadFromSocket sx (in_sock (networkIn (devices k))) (new_buf uninit MaxWireSize) MaxWireSize) k2 w u2)
    as (k3 & E3 & _ & _).
  { unfold ReadFromSocket. eapply bind_step; [unfold unix; rewrite Hu2, Er; reflexivity | ]. cbv beta iota.
    eapply bind_step; [reflexivity | ]. unfold lift. rewrite buf_write_ok; [ | done | rewrite length_new_buf, Hw; by vm_compute].
    change (Z.to_nat 0) with 0%nat. rewrite splice_front, drop_ge by (rewrite length_new_buf, Hw; vm_compute; lia). by rewrite app_nil_r. }
  eexists. split.
  { unfold NetworkInput_CallBack. eapply bind_step; [exact E1 | ]. eapply bind_step; [reflexivity | ]. cbv zeta. rewrite Ed, H0.
    eapply bind_step; [exact E2 | ]. eapply bind_step; [exact E3 | ]. cbv zeta. rewrite Hp.
    eapply bind_step; [unfold lift; rewrite ASSERT_true; [reflexivity | ] | ].
    { cbn [sent_header pkt_to pkt_length]. rewrite Hhost, Z.eqb_refl. apply Z.leb_le. change MaxPacketSize with 52. lia. }
    eapply bind_step; [unfold lift; rewrite bcopy_ok; [reflexivity | ..] | ].
    - rewrite length_drop, Hw. cbn [sent_header pkt_length]. change (Z.to_nat sizeof_PacketHeader) with 12%nat. lia.
    - done.
    - rewrite Hin. cbn [sent_header pkt_length]. lia.
    - reflexivity. }
  unfold has_packet. cbn [devices with_devices networkIn inHdr inbox]. change (pkt_length sent_header) with (n + 12).
  change (Z.to_nat sizeof_PacketHeader) with 12%nat. change (Z.to_nat 0) with 0%nat. rewrite Ht. split_and!; [done | | ].
  - rewrite splice_front. rewrite take_app_length'; [done | ]. rewrite length_take. lia.
  - rewrite length_splice; [done | ]. rewrite length_take, Hb, Hin. lia.
Qed.

Lemma body_parts : take (Z.to_nat (n + 12)) b = mail_bytes mailH ++ take (Z.to_nat n) data.
Proof.
  unfold packed. rewrite app_assoc. apply take_app_length'. rewrite length_app, length_take.
  change (length (mail_bytes mailH)) with 12%nat. lia.
Qed.

Lemma delivered_mail (k : K) x : has_packet b (networkIn (devices k)) -> length (worker_buffer (post (devices k))) = 52%nat ->
  threads k !! currentThread k = Some x ->
  exists (k' : K) q m, deliver_packet uninit po k = Ok (tt, k') /\ boxes po !! Z.to_nat (mail_to mailH) = Some q /\
    mails (post (devices k')) !! nextMail (post (devices k)) = Some m /\ has_mail m /\
    next_instr k' = Some (SynchAppend q (nextMail (post (devices k)))) /\ pkt_length (inHdr (networkIn (devices k'))) = 0.
Proof.
  intros (Hh & Ht & Hin) Hbuf Hx. change MaxMailSize with 40 in Hlen. destruct Hrange as (_ & _ & Hr1 & Hr2).
  set (buf := splice (worker_buffer (post (devices k))) 0 (mail_bytes mailH ++ take (Z.to_nat n) data)).
  assert (Hl0 : length (mail_bytes mailH ++ take (Z.to_nat n) data) = Z.to_nat (n + 12)).
  { rewrite length_app, length_take. change (length (mail_bytes mailH)) with 12%nat. lia. }
  assert (Hl : length buf = 52%nat) by (unfold buf; rewrite length_splice; [done | rewrite Hl0; lia]).
  assert (Hm : mail_at buf = mailH).
  { unfold buf. rewrite splice_front, <- app_assoc. apply mail_at_bytes; [done | done | ]. unfold is_u32. pow2. lia. }
  assert (Hd : take (Z.to_nat n) (drop 12 buf) = take (Z.to_nat n) data).
  { unfold buf. rewrite splice_front, <- app_assoc. rewrite drop_app_length'; [ | done].
    apply take_app_length'. rewrite length_take. lia. }
  destruct (lookup_lt_is_Some_2 (boxes po) (Z.to_nat (mail_to mailH))) as [q Hq]; [lia | ].
  eexists _, q, (mkMail sent_header mailH (splice (new_buf uninit MaxMailSize) 0 (take (Z.to_nat n) data))). split.
  - unfold deliver_packet. eapply bind_step; [reflexivity | ]. eapply bind_step.
    { unfold NetworkInput_Receive. eapply bind_step; [reflexivity | ]. cbv zeta. rewrite Hh. eapply bind_step; [reflexivity | ].
      rewrite (proj2 (Z.eqb_neq _ _)) by (cbn [sent_header pkt_length]; lia). cbn [negb].
      eapply bind_step; [ | reflexivity]. unfold lift. rewrite bcopy_ok by (cbn [sent_header pkt_length]; lia).
      change (pkt_length sent_header) with (n + 12). rewrite Ht, body_parts. reflexivity. }
    cbv beta iota. change (splice _ _ _) with buf. eapply bind_step; [reflexivity | ]. cbv zeta. rewrite Hm.
    eapply bind_step; [unfold lift; rewrite ASSERT_true; [reflexivity | ] | ].
    { apply andb_true_iff. split; [apply Z.leb_le | apply Z.ltb_lt]; lia. }
    eapply bind_step; [unfold lift; rewrite ASSERT_true; [reflexivity | ] | ]. { apply Z.leb_le. by apply Hlen. }
    eapply bind_step; [unfold lift, zget; rewrite (proj2 (Z.leb_le _ _)), Hq by lia; reflexivity | ].
    unfold MailBox_Put. eapply bind_step.
    { unfold lift, new_Mail. rewrite ASSERT_true by (apply Z.leb_le; by apply Hlen). cbn [mbind res_bind].
      change (Z.to_nat sizeof_MailHeader) with 12%nat.
      rewrite bcopy_ok by (rewrite ?length_drop, ?Hl, ?length_new_buf; change (Z.to_nat MaxMailSize) with 40%nat; lia).
      rewrite Hd. reflexivity. }
    eapply bind_step; [unfold new_post_address; do 2 (eapply bind_step; [reflexivity | ]); reflexivity | ].
    eapply bind_step; [reflexivity | ]. unfold push. eapply bind_step; [reflexivity | ]. eapply upd_thread_ok. exact Hx.
  - split_and!; [done | | | | ].
    + cbn. by rewrite lookup_insert_eq.
    + unfold has_mail. cbn [pktHdr mailHdr mail_data]. split_and!; [done | done | | ].
      * rewrite splice_front. apply take_app_length'. rewrite length_take. lia.
      * rewrite length_splice; rewrite length_new_buf; [done | ]. rewrite length_take. change (Z.to_nat MaxMailSize) with 40%nat. lia.
    + unfold next_instr. cbn. by rewrite lookup_insert_eq.
    + done.
Qed.

(** The receiver's buffer holds a mail. *)
Definition roomy (k : K) : Prop :=
  forall l, letters (post (devices k)) !! currentThread k = Some l -> (40 <= length l.2)%nat.

Lemma received_letter (k : K) x m : threads k !! currentThread k = Some x ->
  mails (post (devices k)) !! got x = Some m -> has_mail m -> roomy k ->
  exists k' l, finish_receive uninit k = Ok (tt, k') /\ letters (post (devices k')) !! currentThread k = Some l /\
    has_letter l /\ mails (post (devices k')) !! got x = None.
Proof.
  intros Hx Hm (H1 & H2 & H3 & H4) Hroom. change MaxMailSize with 40 in Hlen.
  set (old := match letters (post (devices k)) !! currentThread k with Some (_, _, b) => b | None => new_buf uninit MaxMailSize end).
  assert (Hold : (40 <= length old)%nat).
  { unfold old. destruct (letters _ !! _) as [[[p m'] bs] | ] eqn:El; [exact (Hroom _ El) | ]. by rewrite length_new_buf. }
  eexists _, (sent_header, mailH, splice old 0 (take (Z.to_nat n) data)). split.
  - unfold finish_receive. eapply bind_step.
    + unfold MailBox_Get. eapply bind_step; [reflexivity | ]. eapply bind_step.
      { unfold get_thread. eapply bind_step; [reflexivity | ]. unfold find. rewrite Hx. reflexivity. }
      eapply bind_step; [reflexivity | ]. eapply bind_step; [unfold find; rewrite Hm; reflexivity | ]. cbv zeta.
      eapply bind_step; [unfold lift; rewrite H2; fold old; rewrite bcopy_ok by lia; rewrite H3; reflexivity | ].
      eapply bind_step; [reflexivity | ]. eapply bind_step; [reflexivity | ]. reflexivity.
    + rewrite H2. unfold lift. rewrite ASSERT_true; [reflexivity | ]. apply Z.leb_le. by apply Hlen.
  - cbn. rewrite lookup_insert_eq, lookup_delete_eq, ?H1, ?H2. split_and!; [done | | done].
    split_and!; [done | done | ]. cbn [snd]. rewrite splice_front. apply take_app_length'. rewrite length_take. lia.
Qed.

(** C23: Mail gets through unchanged.  Take any mail for a box of this machine,
    sent from any machine.  PostOfficeOutput::Send and NetworkOutput::Send there
    turn it into 64 bytes.  When these bytes are next at this machine's socket
    and nothing is buffered, the network's interrupt handler takes the packet in
    and calls the post office; the postal worker then puts a Mail with the
    original headers and data at the end of the box it is for, and leaves the
    device free for the next packet; and the thread that removes it from the box
    ends up with the original headers and data in its variables, and the Mail
    deleted.  None of the assertions on the way fails.  Uninitialised memory of
    either machine does not matter. *)
Theorem mail_roundtrip :
  exists bytes wire,
    post_packet uninit' from pktH mailH data = Ok (sent_header, bytes) /\
    wire_packet uninit' sent_header bytes = Ok wire /\
    (forall callback k, incoming_packet wire k ->
       exists k', NetworkInput_CallBack px sx uninit hostName callback k = callback k' /\
         has_packet bytes (networkIn (devices k'))) /\
    (forall (k : K) x, has_packet bytes (networkIn (devices k)) -> length (worker_buffer (post (devices k))) = 52%nat ->
       threads k !! currentThread k = Some x ->
       exists k' q m, deliver_packet uninit po k = Ok (tt, k') /\ boxes po !! Z.to_nat (mail_to mailH) = Some q /\
         mails (post (devices k')) !! nextMail (post (devices k)) = Some m /\ has_mail m /\
         next_instr k' = Some (SynchAppend q (nextMail (post (devices k)))) /\
         pkt_length (inHdr (networkIn (devices k'))) = 0) /\
    (forall (k : K) x m, threads k !! currentThread k = Some x -> mails (post (devices k)) !! got x = Some m ->
       has_mail m -> roomy k ->
       exists k' l, finish_receive uninit k = Ok (tt, k') /\ letters (post (devices k')) !! currentThread k = Some l /\
         has_letter l /\ mails (post (devices k')) !! got x = None).
Proof.
  destruct sent_packet as [E1 E2]. exists b, w. split_and!; [done | done | | | ].
  - apply received_packet.
  - apply delivered_mail.
  - apply received_letter.
Qed.

End Roundtrip.

(** ** Two machines

    A host with sockets: names, and the datagrams waiting at each socket. *)

Record wires := mkWires { w_names : gmap filename Z; w_queues : gmap Z (list (list Z)); w_next : Z }.

Definition wires_ops : UnixOps wires := {|
  sys_open _ _ u := (-1, u);
  sys_close fd u := (0, mkWires (w_names u) (delete fd (w_queues u)) (w_next u));
  sys_read _ _ u := (-1, [], u);
  sys_write _ _ _ u := (-1, u);
  sys_lseek _ _ _ u := (-1, u);
  sys_fstat_ino _ _ := None;
  sys_fcntl_getfl _ _ := -1;
  sys_unlink name u := (if decide (is_Some (w_names u !! name)) then 0 else -1, mkWires (delete name (w_names u)) (w_queues u) (w_next u));
  sys_rand u := (4, u);
  sys_new n u := true
|}.

Definition wires_poll : PollOps wires := {|
  sys_select fd u := (match w_queues u !! fd with Some (_ :: _) => 1 | _ => 0 end, u)
|}.

Definition wires_sockets : SocketOps wires := {|
  sys_socket u := (w_next u, mkWires (w_names u) (<[w_next u := []]> (w_queues u)) (w_next u + 1));
  sys_bind fd name u := (0, mkWires (<[name := fd]> (w_names u)) (w_queues u) (w_next u));
  sys_recvfrom fd n u :=
    match w_queues u !! fd with
    | Some (b :: bs) => (Z.of_nat (length (take (Z.to_nat n) b)), take (Z.to_nat n) b, mkWires (w_names u) (<[fd := bs]> (w_queues u)) (w_next u))
    | _ => (-1, [], u)
    end;
  sys_sendto fd b name u :=
    match w_names u !! name with
    | Some d => (Z.of_nat (length b), mkWires (w_names u) (<[d := default [] (w_queues u !! d) ++ [b]]> (w_queues u)) (w_next u))
    | None => (-1, u)
    end;
  sys_sleep _ u := u
|}.

Definition net_uninit (i : nat) : Z := Z.of_nat i + 170.

(** Machine [host] as [Kernel::Initialize] leaves it, about to run the test;
    procedure 1 is a round of the postal worker. *)
Definition boot_net (host : Z) (u : wires) : res (PostOffice * Kern (Net wires)) :=
  let no_in := mkNetworkInput (-1) [] false (mkPacket 0 0 0) [] in
  let no_out := mkNetworkOutput (-1) (double_of 0) false in
  let d := mkNet u no_in no_out 0 0 (mkPost ∅ 1 [] ∅ ∅ ∅) in
  let k := new_kernel d false [mkPending TimerObj TimerTicks TimerInt] (Some (new_Machine 0)) [Request test_start 0] in
  '((avail, qs), k) ← new_PostOfficeInput wires_ops wires_sockets net_uninit host 10 1 k;
  '((sent, l), k) ← new_PostOfficeOutput wires_sockets (double_of 1) k;
  mret (mkPostOffice avail qs 10 sent l, k).

Definition net_procs (po : PostOffice) (f : nat) (arg : Z) : list instr := postal_round po 1.

(** A step of one machine; a machine that has halted stays as it is. *)
Definition net_step (host : Z) (m : PostOffice * Kern (Net wires)) (u : wires) : res ((PostOffice * Kern (Net wires)) * wires) :=
  let '(po, k) := m in
  let d := devices k in
  let k := with_devices k (mkNet u (networkIn d) (networkOut d) (numPacketsRecvd d) (numPacketsSent d) (post d)) in
  match step (net_random wires_ops) (net_device wires_poll wires_sockets net_uninit host po)
     (net_request wires_ops wires_sockets net_uninit host po) (net_procs po) k with
  | Ok (_, k') => Ok ((po, k'), n_host (devices k'))
  | Fail Halted => Ok ((po, k), u)
  | Fail f => Fail f
  end.

(** The two machines take turns. *)
Fixpoint net_run (n : nat) (a b : PostOffice * Kern (Net wires)) (u : wires) : res (list (list Z) * list (list Z)) :=
  match n with
  | O => Ok (output a.2, output b.2)
  | S n' =>
      '(a, u) ← net_step 0 a u;
      '(b, u) ← net_step 1 b u;
      net_run n' a b u
  end.

Definition network_test (n : nat) : res (list (list Z) * list (list Z)) :=
  a ← boot_net 0 (mkWires ∅ ∅ 3);
  b ← boot_net 1 (n_host (devices a.2));
  net_run n a b (n_host (devices b.2)).

(** The two lines a machine prints: the letter of the other machine, and its
    acknowledgement. *)
Definition test_lines (other : Z) : list (res (list Z)) :=
  [got_line (mkPacket 0 other 0, mkMailHeader 0 1 13, hello); got_line (mkPacket 0 other 0, mkMailHeader 1 1 8, got_it)].

(** The network test runs on two machines.  Machines 0 and 1, started as
    Kernel::Initialize starts them (post office, postal worker and timer) on a
    host that delivers datagrams, and taking steps in turn, both go through
    Kernel::NetworkTest: each prints the other's greeting and then the other's
    acknowledgement, with the sender's machine and mail box, and neither meets a
    failed assertion. *)
Theorem network_test_passes :
  exists out0 out1, network_test 200 = Ok (out0, out1) /\ Ok <$> out0 = test_lines 1 /\ Ok <$> out1 = test_lines 0.
Proof. eexists _, _. split; [vm_compute; reflexivity | ]. split; vm_compute; reflexivity. Qed.

(** ** Witnesses *)

#[global] Instance wires_laws : SocketLaws wires_sockets.
Proof. split. intros fd b name u. simpl. case_match; [left | right]; simpl; lia. Qed.

(** A machine with send lock 20 (semaphore 21) and the semaphores 22 and 23 for
    packets sent and packets that have arrived; both its threads send mail. *)
Definition mail_office : PostOffice := mkPostOffice 23 [] 0 22 20.
Definition mail_draft : PacketHeader * MailHeader * list Z := (mkPacket 1 0 0, mkMailHeader 0 1 13, hello).

Definition mail_net : Net wires :=
  mkNet (mkWires {[ socket_name 1 := 4 ]} {[ 3 := []; 4 := [] ]} 5)
    (mkNetworkInput 3 (socket_name 0) false (mkPacket 0 0 0) (replicate 52 0))
    (mkNetworkOutput 3 (double_of 1) false) 0 0
    (mkPost ∅ 1 (replicate 52 0) {[ 0%nat := mail_draft; 2000%nat := mail_draft ]} ∅ ∅).

Definition mail_procs (f : nat) (arg : Z) : list instr := [Request post_send 0].

Definition mail_kernel : Kern (Net wires) :=
  with_locks (with_semaphores
      (new_kernel mail_net false [mkPending TimerObj TimerTicks TimerInt] (Some (new_Machine 0)) (Fork 0 0 :: mail_procs 0 0))
    {[ 21%nat := mkSemaphore 1 []; 22%nat := mkSemaphore 0 []; 23%nat := mkSemaphore 0 [] ]}) {[ 20%nat := mkLock 21 None ]}.

Notation mail_steps := (after_steps (net_random wires_ops) (net_device wires_poll wires_sockets net_uninit 0 mail_office)
  (net_request wires_ops wires_sockets net_uninit 0 mail_office) mail_procs).
Notation mail_accounts := (serial_accounts (D := Net wires) 20 21 22 net_send net_out).

Lemma mail_kernel_inv : kinv mail_kernel.
Proof.
  apply new_objects_inv.
  - apply new_kernel_inv; [reflexivity | by repeat constructor | ]. intros x [= <-]. apply regs_zero.
  - intros s x Hs. repeat (apply lookup_insert_Some in Hs as [[<- <-] | [_ Hs]]; [done | ]).
    by apply lookup_singleton_Some in Hs as [<- <-].
Qed.

Lemma mail_procs_tokens : procs_tokens mail_accounts mail_procs.
Proof. intros f arg. split_and!; [reflexivity | simpl; split_and!; lia || done | by repeat constructor]. Qed.

Lemma mail_kernel_tokens : tokens mail_accounts 1 mail_kernel.
Proof.
  split.
  - vm_compute. reflexivity.
  - simpl. intros t x [<- <-]%lookup_singleton_Some. cbn [code]. split; [simpl; split_and!; lia || done | by repeat constructor].
  - simpl. intros s x Hs _. repeat (apply lookup_insert_Some in Hs as [[<- <-] | [_ Hs]]; [simpl; lia | ]).
    apply lookup_singleton_Some in Hs as [<- <-]. simpl. lia.
  - simpl. intros l x [<- <-]%lookup_singleton_Some. reflexivity.
  - simpl. intros cv q s Hq. by rewrite lookup_empty in Hq.
  - simpl. intros q x Hq. by rewrite lookup_empty in Hq.
  - cbn [nextAddress mail_kernel with_locks with_semaphores new_kernel]. intros s Hs. apply serial_other; lia.
  - done.
Qed.

Lemma mail_idle : idle 0 mail_net.
Proof. apply (bool_decide_unpack _). vm_compute. exact I. Qed.

(** The main thread is about to send. *)
Lemma send_exclusive_witness :
  exists k, mail_steps 12 mail_kernel = Some k /\ next_instr k = Some (Request net_send 1) /\ quiet_device net_out k.
Proof.
  destruct (mail_steps 12 mail_kernel) as [k | ] eqn:E; [ | exfalso; vm_compute in E; discriminate E].
  assert (H : match mail_steps 12 mail_kernel with
    | Some k => bool_decide (next_instr k = Some (Request net_send 1)) && bool_decide (is_Some (sends (post (devices k)) !! 1))
    | None => false end = true) by (vm_compute; reflexivity).
  rewrite E in H. apply andb_true_iff in H as [H1 H2]. apply bool_decide_eq_true in H1, H2. destruct H2 as [p Hp].
  exists k. split_and!; [reflexivity | exact H1 | ].
  refine (proj1 (send_exclusive wires_ops wires_poll wires_sockets net_uninit 0 mail_office 21 mail_procs _ mail_kernel k 1 p
    _ _ _ _ _ _ _ _)).
  - split; discriminate.
  - reflexivity.
  - apply mail_procs_tokens.
  - apply mail_kernel_inv.
  - apply mail_kernel_tokens.
  - apply mail_idle.
  - eapply after_steps_reachable; [apply reach_start | exact E].
  - exact H1.
  - exact Hp.
Defined.

(** Machine 0 with a packet of machine 1 at its socket *)
Definition mail_boxes : PostOffice := mkPostOffice 23 [30; 31]%nat 2 22 20.
Definition mail_waiting (wire : list Z) : Kern (Net wires) :=
  with_devices mail_kernel (mkNet (mkWires ∅ {[ 3 := [wire] ]} 5) (networkIn mail_net) (networkOut mail_net) 0 0 (post mail_net)).

Lemma mail_roundtrip_witness :
  exists wire k', incoming_packet wires_poll wires_sockets wire (mail_waiting wire) /\
    NetworkInput_CallBack wires_poll wires_sockets net_uninit 0 (mret tt) (mail_waiting wire) = Ok (tt, k') /\
    pkt_from (inHdr (networkIn (devices k'))) = 1.
Proof.
  destruct (mail_roundtrip wires_poll wires_sockets net_uninit 0 mail_boxes 1 (fun i => 7) (mkPacket 0 0 0) (mkMailHeader 1 0 13)
    hello) as (bytes & wire & _ & Ew & Hin & _).
  - vm_compute. split; discriminate.
  - vm_compute. discriminate.
  - vm_compute. split; [discriminate | reflexivity].
  - reflexivity.
  - reflexivity.
  - vm_compute. repeat split; discriminate.
  - assert (Hi : incoming_packet wires_poll wires_sockets wire (mail_waiting wire)).
    { pose proof (length_wire (fun i => 7) _ _ _ Ew) as Hl.
      do 64 (destruct wire as [ | ? wire]; [discriminate Hl | ]). destruct wire; [ | discriminate Hl].
      split_and!; reflexivity. }
    destruct (Hin (mret tt) (mail_waiting wire) Hi) as (k' & Ek & (Hh & _)).
    exists wire, k'. split_and!; [exact Hi | exact Ek | by rewrite Hh].
Defined.
