(* ===== verification/Main.v ===== *)
(** * The command line and the file commands (threads/main.cc, the
      constructor of threads/kernel.cc; printing of lib/bitmap.cc,
      filesys/filehdr.cc, filesys/directory.cc and filesys/filesys.cc)

    [main] looks for its own options among the arguments and then hands all of
    them to the constructor of [Kernel], which looks for those that set kernel
    parameters.  Without FILESYS_STUB it then removes, copies in, dumps, lists
    and prints files of the Nachos file system as the options ask.

    The state has the store of sectors the file system is on, the UNIX files
    (the one that holds the disk apart) and what was printed. *)

From Stdlib Require Import Floats.SpecFloat.
From Stdlib Require Import Strings.Ascii Strings.String.
From stdpp Require Import strings.
From S2P Require Import Prelude Network LibTest Bitmap FileSysStub AddrSpace Disk FileHdr OpenFile Directory FileSys FileSysInv FileSysSpec.

(** The characters of a literal, and a C string as a [string]. *)
Definition chars (s : string) : list Z := (fun c => Z.of_nat (nat_of_ascii c)) <$> list_ascii_of_string s.
Definition to_string (l : list Z) : string := string_of_list_ascii ((fun c => ascii_of_nat (Z.to_nat c)) <$> l).

Definition newline : list Z := [10].

(** ["%x"] of an [unsigned char] *)
Definition hex_digit (n : Z) : Z := if n <? 10 then 48 + n else 97 + (n - 10).
Definition show_hex (b : Z) : list Z := if b <? 16 then [hex_digit b] else [hex_digit (b / 16); hex_digit (b mod 16)].

(** ** The C library's [atof] *)

(** The value of a digit, in base 10 or 16 *)
Definition digit (base c : Z) : option Z :=
  if (48 <=? c) && (c <=? 57) then Some (c - 48)
  else if (base =? 16) && (97 <=? c) && (c <=? 102) then Some (c - 87)
  else if (base =? 16) && (65 <=? c) && (c <=? 70) then Some (c - 55)
  else None.

(** The number the digits at the front make, how many they are, and the rest *)
Fixpoint scan (base acc : Z) (n : nat) (s : list Z) : Z * nat * list Z :=
  match s with
  | c :: s' => match digit base c with Some d => scan base (base * acc + d) (S n) s' | None => (acc, n, s) end
  | [] => (acc, n, [])
  end.

(** A mantissa: its digits as a number, how many there are, how many after the
    point, and the rest *)
Definition mantissa (base : Z) (s : list Z) : Z * nat * nat * list Z :=
  let '(m, n, s1) := scan base 0 0 s in
  match s1 with
  | 46 :: s2 => let '(m', k, s3) := scan base m 0 s2 in (m', (n + k)%nat, k, s3)
  | _ => (m, n, 0%nat, s1)
  end.

(** An exponent after the letter [e], in either case; 0 where there is none *)
Definition exponent (e : Z) (s : list Z) : Z :=
  match s with
  | c :: s1 =>
      if (c =? e) || (c =? e - 32) then
        match s1 with
        | 45 :: s2 => - (scan 10 0 0 s2).1.1
        | 43 :: s2 => (scan 10 0 0 s2).1.1
        | _ => (scan 10 0 0 s1).1.1
        end
      else 0
  | [] => 0
  end.

(** The double nearest to [m * b ^ e / d], with a sign *)
Definition nearest (sign : bool) (m b e d : Z) : spec_float :=
  let num := m * b ^ (Z.max 0 e) in
  let den := d * b ^ (Z.max 0 (- e)) in
  match num, den with
  | Zpos p, Zpos q => SFdiv 53 1024 (S754_finite sign p 0) (S754_finite false q 0)
  | _, _ => S754_zero sign
  end.

Definition lower (c : Z) : Z := if (65 <=? c) && (c <=? 90) then c + 32 else c.

Definition unsigned_float (sign : bool) (s : list Z) : spec_float :=
  let word := lower <$> take 3 s in
  if bool_decide (word = chars "inf") then S754_infinity sign
  else if bool_decide (word = chars "nan") then S754_nan
  else
    let hex := match s with 48 :: c :: s' => if (lower c =? 120) && (0 <? (mantissa 16 s').1.1.2)%nat then Some s' else None | _ => None end in
    match hex with
    | Some s' => let '(m, _, k, rest) := mantissa 16 s' in nearest sign m 2 (exponent 112 rest) (16 ^ Z.of_nat k)
    | None => let '(m, _, k, rest) := mantissa 10 s in nearest sign m 10 (exponent 101 rest) (10 ^ Z.of_nat k)
    end.

Fixpoint atof (s : list Z) : spec_float :=
  match s with
  | c :: s' =>
      if (c =? 32) || ((9 <=? c) && (c <=? 13)) then atof s'
      else if c =? 45 then unsigned_float true s'
      else if c =? 43 then unsigned_float false s'
      else unsigned_float false s
  | [] => double_of 0
  end.

Example atof_samples : atof (chars " 0.5") = SFdiv 53 1024 (double_of 1) (double_of 2) /\ atof (chars "-1e1x") = double_of (-10) /\
  atof (chars "0x1.8p1") = double_of 3 /\ atof (chars "x") = double_of 0 /\ atof (chars "0.1") = SFdiv 53 1024 (double_of 1) (double_of 10).
Proof. vm_compute. auto. Qed.

(** ** Arguments *)

(** What the constructor of [Kernel] sets; [seed] is what [RandomInit] was
    last called with. *)
Record Kernel := mkKernel {
  randomSlice : bool;
  debugUserProg : bool;
  consoleIn : option filename;
  consoleOut : option filename;
  formatFlag : bool;
  reliability : spec_float;
  hostName : Z;
  seed : option Z
}.

Definition default_Kernel : Kernel := mkKernel false false None None false (double_of 1) 0 None.

(** The local variables of [main] *)
Record Flags := mkFlags {
  debugArg : list Z;
  userProgName : option filename;
  threadTestFlag : bool;
  consoleTestFlag : bool;
  networkTestFlag : bool;
  copyUnixFileName : option filename;
  copyNachosFileName : option filename;
  printFileName : option filename;
  removeFileName : option filename;
  dirListFlag : bool;
  dumpFlag : bool
}.

Definition default_Flags : Flags := mkFlags [] None false false false None None None None false false.

(** [strcmp(arg, s) == 0] *)
Definition is_option (arg : list Z) (s : string) : bool := bool_decide (arg = chars s).

Section Setting.
Context (k : Kernel).
Definition set_seed (v : Z) : Kernel := mkKernel true (debugUserProg k) (consoleIn k) (consoleOut k) (formatFlag k) (reliability k) (hostName k) (Some v).
Definition set_debugUserProg : Kernel := mkKernel (randomSlice k) true (consoleIn k) (consoleOut k) (formatFlag k) (reliability k) (hostName k) (seed k).
Definition set_consoleIn (v : filename) : Kernel := mkKernel (randomSlice k) (debugUserProg k) (Some v) (consoleOut k) (formatFlag k) (reliability k) (hostName k) (seed k).
Definition set_consoleOut (v : filename) : Kernel := mkKernel (randomSlice k) (debugUserProg k) (consoleIn k) (Some v) (formatFlag k) (reliability k) (hostName k) (seed k).
Definition set_formatFlag : Kernel := mkKernel (randomSlice k) (debugUserProg k) (consoleIn k) (consoleOut k) true (reliability k) (hostName k) (seed k).
Definition set_reliability (v : spec_float) : Kernel := mkKernel (randomSlice k) (debugUserProg k) (consoleIn k) (consoleOut k) (formatFlag k) v (hostName k) (seed k).
Definition set_hostName (v : Z) : Kernel := mkKernel (randomSlice k) (debugUserProg k) (consoleIn k) (consoleOut k) (formatFlag k) (reliability k) v (seed k).
End Setting.

(** [Kernel::Kernel]: the loop over the arguments after the first, with what it
    prints *)
Definition kernel_usage : list Z :=
  chars "Partial usage: nachos [-rs randomSeed]" ++ newline ++ chars "Partial usage: nachos [-s]" ++ newline ++
  chars "Partial usage: nachos [-ci consoleIn] [-co consoleOut]" ++ newline ++
  chars "Partial usage: nachos [-nf]" ++ newline ++ chars "Partial usage: nachos [-n #] [-m #]" ++ newline.

Fixpoint kernel_args (argv : list (list Z)) (k : Kernel) : stM (list Z) Kernel :=
  match argv with
  | [] => mret k
  | arg :: rest =>
      let value (f : list Z -> Kernel) := match rest with v :: rest' => kernel_args rest' (f v) | [] => lift (Fail AssertFail) end in
      if is_option arg "-rs" then value (fun v => set_seed k (atoi (to_string v)))
      else if is_option arg "-s" then kernel_args rest (set_debugUserProg k)
      else if is_option arg "-ci" then value (set_consoleIn k)
      else if is_option arg "-co" then value (set_consoleOut k)
      else if is_option arg "-f" then kernel_args rest (set_formatFlag k)
      else if is_option arg "-n" then value (fun v => set_reliability k (atof v))
      else if is_option arg "-m" then value (fun v => set_hostName k (atoi (to_string v)))
      else if is_option arg "-u" then modify (fun out => out ++ kernel_usage);; kernel_args rest k
      else kernel_args rest k
  end.

Definition new_Kernel (argv : list (list Z)) : stM (list Z) Kernel := kernel_args (tl argv) default_Kernel.

Section Flagging.
Context (a : Flags).
Definition set_debugArg (v : list Z) : Flags := mkFlags v (userProgName a) (threadTestFlag a) (consoleTestFlag a) (networkTestFlag a) (copyUnixFileName a) (copyNachosFileName a) (printFileName a) (removeFileName a) (dirListFlag a) (dumpFlag a).
Definition set_userProgName (v : filename) : Flags := mkFlags (debugArg a) (Some v) (threadTestFlag a) (consoleTestFlag a) (networkTestFlag a) (copyUnixFileName a) (copyNachosFileName a) (printFileName a) (removeFileName a) (dirListFlag a) (dumpFlag a).
Definition set_threadTestFlag : Flags := mkFlags (debugArg a) (userProgName a) true (consoleTestFlag a) (networkTestFlag a) (copyUnixFileName a) (copyNachosFileName a) (printFileName a) (removeFileName a) (dirListFlag a) (dumpFlag a).
Definition set_consoleTestFlag : Flags := mkFlags (debugArg a) (userProgName a) (threadTestFlag a) true (networkTestFlag a) (copyUnixFileName a) (copyNachosFileName a) (printFileName a) (removeFileName a) (dirListFlag a) (dumpFlag a).
Definition set_networkTestFlag : Flags := mkFlags (debugArg a) (userProgName a) (threadTestFlag a) (consoleTestFlag a) true (copyUnixFileName a) (copyNachosFileName a) (printFileName a) (removeFileName a) (dirListFlag a) (dumpFlag a).
Definition set_copy (v w : filename) : Flags := mkFlags (debugArg a) (userProgName a) (threadTestFlag a) (consoleTestFlag a) (networkTestFlag a) (Some v) (Some w) (printFileName a) (removeFileName a) (dirListFlag a) (dumpFlag a).
Definition set_printFileName (v : filename) : Flags := mkFlags (debugArg a) (userProgName a) (threadTestFlag a) (consoleTestFlag a) (networkTestFlag a) (copyUnixFileName a) (copyNachosFileName a) (Some v) (removeFileName a) (dirListFlag a) (dumpFlag a).
Definition set_removeFileName (v : filename) : Flags := mkFlags (debugArg a) (userProgName a) (threadTestFlag a) (consoleTestFlag a) (networkTestFlag a) (copyUnixFileName a) (copyNachosFileName a) (printFileName a) (Some v) (dirListFlag a) (dumpFlag a).
Definition set_dirListFlag : Flags := mkFlags (debugArg a) (userProgName a) (threadTestFlag a) (consoleTestFlag a) (networkTestFlag a) (copyUnixFileName a) (copyNachosFileName a) (printFileName a) (removeFileName a) true (dumpFlag a).
Definition set_dumpFlag : Flags := mkFlags (debugArg a) (userProgName a) (threadTestFlag a) (consoleTestFlag a) (networkTestFlag a) (copyUnixFileName a) (copyNachosFileName a) (printFileName a) (removeFileName a) (dirListFlag a) true.
End Flagging.

Definition copyright : list Z :=
  chars "Copyright (c) 1992-1993 The Regents of the University of California.  All rights reserved.".

Definition main_usage : list Z :=
  chars "Partial usage: nachos [-z -d debugFlags]" ++ newline ++ chars "Partial usage: nachos [-x programName]" ++ newline ++
  chars "Partial usage: nachos [-K] [-C] [-N]" ++ newline ++ chars "Partial usage: nachos [-cp UnixFile NachosFile]" ++ newline ++
  chars "Partial usage: nachos [-p fileName] [-r fileName]" ++ newline ++ chars "Partial usage: nachos [-l] [-D]" ++ newline.

(** The loop of [main] over the arguments after the first *)
Fixpoint main_args (argv : list (list Z)) (a : Flags) : stM (list Z) Flags :=
  match argv with
  | [] => mret a
  | arg :: rest =>
      let value (f : list Z -> Flags) := match rest with v :: rest' => main_args rest' (f v) | [] => lift (Fail AssertFail) end in
      if is_option arg "-d" then value (set_debugArg a)
      else if is_option arg "-z" then modify (fun out => out ++ copyright ++ newline);; main_args rest a
      else if is_option arg "-x" then value (set_userProgName a)
      else if is_option arg "-K" then main_args rest (set_threadTestFlag a)
      else if is_option arg "-C" then main_args rest (set_consoleTestFlag a)
      else if is_option arg "-N" then main_args rest (set_networkTestFlag a)
      else if is_option arg "-cp" then
        match rest with v :: w :: rest' => main_args rest' (set_copy a v w) | _ => lift (Fail AssertFail) end
      else if is_option arg "-p" then value (set_printFileName a)
      else if is_option arg "-r" then value (set_removeFileName a)
      else if is_option arg "-l" then main_args rest (set_dirListFlag a)
      else if is_option arg "-D" then main_args rest (set_dumpFlag a)
      else if is_option arg "-u" then modify (fun out => out ++ main_usage);; main_args rest a
      else main_args rest a
  end.

(** ** File commands *)

Definition TransferSize : Z := 128.

Record Sys (S U : Type) := mkSys { sys_disk : S; sys_unix : U; sys_out : list Z }.
Arguments mkSys {S U} _ _ _.
Arguments sys_disk {S U} _.
Arguments sys_unix {S U} _.
Arguments sys_out {S U} _.

Section Commands.
Context {S U : Type} `{!SectorDisk S} (ux : UnixOps U) (uninit : nat -> Z).
Notation M := (stM (Sys S U)).

Definition on_disk {A} (m : stM S A) : M A := fun x =>
  match m (sys_disk x) with Ok (a, s) => Ok (a, mkSys s (sys_unix x) (sys_out x)) | Fail f => Fail f end.
Definition on_unix {A} (m : stM U A) : M A := fun x =>
  match m (sys_unix x) with Ok (a, u) => Ok (a, mkSys (sys_disk x) u (sys_out x)) | Fail f => Fail f end.
Definition printf (text : list Z) : M unit := modify (fun x => mkSys (sys_disk x) (sys_unix x) (sys_out x ++ text)).

(** *** Printing *)

Definition Bitmap_Print (b : Bitmap) : M unit :=
  printf (chars "Bitmap set:" ++ newline);;
  text ← lift (for_up 0 (numBits b) (fun i out => t ← Test b i; mret (if (t : bool) then out ++ show_int i ++ chars ", " else out)) []);
  printf (text ++ newline).

(** One byte of a file *)
Definition show_byte (c : Z) : list Z := if (32 <=? c) && (c <=? 126) then [c] else 92 :: show_hex c.

(** [for (i = k = 0; i < numSectors; i++)]: [left] is [numBytes - k]. *)
Fixpoint print_sectors (h : FileHeader) (n : nat) (i left : Z) : M unit :=
  match n with
  | O => mret tt
  | Datatypes.S n' =>
      s ← lift (zget (dataSectors h) i);
      data ← on_disk (ReadSector s);
      printf (concat (show_byte <$> take (Z.to_nat left) data) ++ newline);;
      print_sectors h n' (i + 1) (left - Z.min (Z.max 0 left) SectorSize)
  end.

Definition FileHeader_Print (h : FileHeader) : M unit :=
  printf (chars "FileHeader contents.  File size: " ++ show_int (numBytes h) ++ chars ".  File blocks:" ++ newline);;
  blocks ← lift (for_up 0 (numSectors h) (fun i out => s ← zget (dataSectors h) i; mret (out ++ show_int s ++ chars " ")) []);
  printf (blocks ++ newline ++ chars "File contents:" ++ newline);;
  print_sectors h (Z.to_nat (numSectors h)) 0 (numBytes h).

(** The loop of [Directory::Print] *)
Fixpoint print_entries (t : list DirectoryEntry) (n : nat) (i : Z) : M unit :=
  match n with
  | O => mret tt
  | Datatypes.S n' =>
      e ← lift (zget t i);
      (if inUse e then
         name ← lift (c_string (name e));
         printf (chars "Name: " ++ name ++ chars ", Sector: " ++ show_int (sector e) ++ newline);;
         hdr ← on_disk (Header_FetchFrom (sector e));
         FileHeader_Print hdr
       else mret tt);;
      print_entries t n' (i + 1)
  end.

Definition Directory_Print (d : Directory) : M unit :=
  printf (chars "Directory contents:" ++ newline);;
  print_entries (table d) (Z.to_nat (tableSize d)) 0;;
  printf newline.

(** [FileSystem::Print] *)
Definition FileSystem_Print (fs : FileSystem) : M unit :=
  freeMap ← on_disk (fetch_PersistentBitmap uninit (freeMapFile fs) NumSectors);
  printf (chars "Bit map file header:" ++ newline);;
  bitHdr ← on_disk (Header_FetchFrom FreeMapSector);
  FileHeader_Print bitHdr;;
  printf (chars "Directory file header:" ++ newline);;
  dirHdr ← on_disk (Header_FetchFrom DirectorySector);
  FileHeader_Print dirHdr;;
  Bitmap_Print freeMap;;
  directory ← on_disk (fetch_directory uninit fs);
  Directory_Print directory.

(** [FileSystem::List]: what it prints *)
Definition FileSystem_print_list (fs : FileSystem) : M unit :=
  names ← on_disk (FileSystem_List uninit fs);
  printf (concat ((fun n => n ++ newline) <$> names)).

(** *** Copying and printing a file *)

(** [while ((amountRead = ReadPartial(fd, buffer, TransferSize)) > 0)
    openFile->Write(buffer, amountRead)].  [buffer] holds what the last read
    left beyond the bytes of this one. *)
Fixpoint copy_loop (fuel : nat) (fd : Z) (openFile : OpenFile) (buffer : list Z) : M unit :=
  match fuel with
  | O => lift (Fail OutOfFuel)
  | Datatypes.S f =>
      '(amountRead, bytes) ← on_unix (ReadPartial ux fd TransferSize);
      if 0 <? amountRead then
        buffer ← lift (buf_write buffer 0 bytes);
        '(_, openFile) ← on_disk (OpenFile_Write uninit openFile buffer amountRead);
        copy_loop f fd openFile buffer
      else mret tt
  end.

Definition Copy (fuel : nat) (fs : FileSystem) (from to : filename) : M unit :=
  fd ← on_unix (OpenForReadWrite ux from false);
  if fd <? 0 then printf (chars "Copy: couldn't open input file " ++ from ++ newline)
  else
    on_unix (Lseek ux fd 0 2);;
    fileLength ← on_unix (Tell ux fd);
    on_unix (Lseek ux fd 0 0);;
    created ← on_disk (FileSystem_Create uninit fs to fileLength);
    if negb created then
      printf (chars "Copy: couldn't create output file " ++ to ++ newline);;
      on_unix (sysdep_Close ux fd);; mret tt
    else
      openFile ← on_disk (FileSystem_Open uninit fs to);
      match openFile with
      | None => lift (Fail AssertFail)
      | Some f =>
          copy_loop fuel fd f (new_buf uninit TransferSize);;
          on_unix (sysdep_Close ux fd);; mret tt
      end.

(** [while ((amountRead = openFile->Read(buffer, TransferSize)) > 0)], each byte
    printed *)
Fixpoint print_loop (fuel : nat) (openFile : OpenFile) (buffer : list Z) : M unit :=
  match fuel with
  | O => lift (Fail OutOfFuel)
  | Datatypes.S f =>
      '(amountRead, bytes, openFile) ← on_disk (OpenFile_Read openFile TransferSize);
      if 0 <? amountRead then
        buffer ← lift (buf_write buffer 0 bytes);
        text ← lift (buf_read buffer 0 amountRead);
        printf text;;
        print_loop f openFile buffer
      else mret tt
  end.

Definition Print (fuel : nat) (fs : FileSystem) (name : filename) : M unit :=
  openFile ← on_disk (FileSystem_Open uninit fs name);
  match openFile with
  | None => printf (chars "Print: unable to open file " ++ name ++ newline)
  | Some f => print_loop fuel f (new_buf uninit TransferSize)
  end.

(** *** What [main] does with the file system *)

Definition when_given {A} (o : option A) (f : A -> M unit) : M unit :=
  match o with Some a => f a | None => mret tt end.

Definition main_files (fuel : nat) (fs : FileSystem) (a : Flags) : M unit :=
  when_given (removeFileName a) (fun n => on_disk (FileSystem_Remove uninit fs n);; mret tt);;
  when_given (copyUnixFileName a) (fun from => when_given (copyNachosFileName a) (Copy fuel fs from));;
  (if dumpFlag a then FileSystem_Print fs else mret tt);;
  (if dirListFlag a then FileSystem_print_list fs else mret tt);;
  when_given (printFileName a) (Print fuel fs).

(** [main] up to there: arguments, kernel parameters, the file system of
    [Kernel::Initialize], and the file commands. *)
Definition on_out {A} (m : stM (list Z) A) : M A := fun x =>
  match m (sys_out x) with Ok (a, o) => Ok (a, mkSys (sys_disk x) (sys_unix x) o) | Fail f => Fail f end.

Definition main (fuel : nat) (argv : list (list Z)) : M (Flags * Kernel) :=
  a ← on_out (main_args (tl argv) default_Flags);
  k ← on_out (new_Kernel argv);
  fs ← on_disk (new_FileSystem uninit (formatFlag k));
  main_files fuel fs a;;
  mret (a, k).

End Commands.

(** ** What the commands do *)

(** What copying relies on the host for, besides [UnixFiles]: lseek(2) to the
    end and to the current position, and that reading moves on. *)
Class UnixSeek {U : Type} (ux : UnixOps U) (fd_file : Z -> U -> option (list Z * Z)) : Prop := {
  seek_files :: UnixFiles ux fd_file;
  lseek_end fd u c p : fd_file fd u = Some (c, p) ->
    exists u', sys_lseek ux fd 0 2 u = (Z.of_nat (length c), u') /\ fd_file fd u' = Some (c, Z.of_nat (length c));
  lseek_here fd u c p : fd_file fd u = Some (c, p) -> 0 <= p ->
    exists u', sys_lseek ux fd 0 1 u = (p, u') /\ fd_file fd u' = Some (c, p);
  read_on fd u c p n : fd_file fd u = Some (c, p) -> 0 <= p -> 0 <= n ->
    exists u', let bs := take (Z.to_nat n) (drop (Z.to_nat p) c) in
    sys_read ux fd n u = (Z.of_nat (length bs), bs, u') /\ fd_file fd u' = Some (c, p + Z.of_nat (length bs))
}.

Section CommandProperties.
Context {S U : Type} `{!SectorDisk S} (ux : UnixOps U) (uninit : nat -> Z).
Context (fd_file : Z -> U -> option (list Z * Z)) `{!UnixSeek ux fd_file}.
Implicit Types (s : S) (u : U) (out : list Z) (fs : FileSystem) (ds : list (list Z)) (t : list DirectoryEntry).

Lemma on_disk_ok {A} (m : stM S A) s s' u out a :
  m s = Ok (a, s') -> on_disk m (mkSys s u out) = Ok (a, mkSys s' u out).
Proof. intros E. unfold on_disk. cbn [sys_disk]. by rewrite E. Qed.

Lemma on_unix_ok {A} (m : stM U A) s u u' out a :
  m u = Ok (a, u') -> on_unix (S := S) m (mkSys s u out) = Ok (a, mkSys s u' out).
Proof. intros E. unfold on_unix. cbn [sys_unix]. by rewrite E. Qed.

Lemma then_ok {St A B} (m : stM St A) (f : A -> stM St B) x y a : m x = Ok (a, y) -> (m ≫= f) x = f a y.
Proof. intros E. unfold mbind, stM_bind. by rewrite E. Qed.

(** What [buffer] holds after [b] was read into it *)
Lemma fill_buffer buffer b :
  (length b <= length buffer)%nat ->
  buf_write buffer 0 b = Ok (b ++ drop (length b) buffer) /\ length (b ++ drop (length b) buffer) = length buffer.
Proof.
  intros Hl. rewrite buf_write_ok by lia. change (Z.to_nat 0) with 0%nat. rewrite splice_front.
  split; [done | ]. rewrite length_app, length_drop. lia.
Qed.

Lemma hdr_small h : hdr_ok h -> 0 <= numBytes h <= MaxFileSize.
Proof.
  intros Hok. destruct (numBytes_bound _ Hok). pose proof (ok_direct _ Hok). unfold MaxFileSize, SectorSize in *.
  change NumDirect with 30 in *. split; [ | lia]. apply Hok.
Qed.

(** Reading the rest of a file prints it. *)
Lemma print_loop_ok fuel : forall s u out ds h (p : nat) buffer,
  contents s ds -> hdr_ok h -> length buffer = 128%nat -> (length (file_data ds h) - p < fuel)%nat ->
  (p <= length (file_data ds h))%nat ->
  exists s', print_loop fuel (mkOpenFile h (Z.of_nat p)) buffer (mkSys s u out) =
    Ok (tt, mkSys s' u (out ++ drop p (file_data ds h))) /\ contents s' ds.
Proof.
  induction fuel as [ | fuel IH]; intros s u out ds h p buffer Hc Hok Hb Hf Hp; [lia | ].
  pose proof (hdr_small h Hok) as Hn. pose proof (length_file_data ds h) as Hl.
  unfold MaxFileSize, SectorSize in Hn. change NumDirect with 30 in Hn.
  destruct (ReadAt_spec s ds (mkOpenFile h (Z.of_nat p)) TransferSize (Z.of_nat p) Hc Hok) as (s1 & E & Hc1);
    [lia | unfold is_i32, TransferSize; lia | ].
  cbn [hdr] in E. rewrite (trimmed_within ds) in E by done. set (c := file_data ds h) in *.
  set (m := within c TransferSize (Z.of_nat p)) in *. set (bs := take (Z.to_nat m) (drop (Z.to_nat (Z.of_nat p)) c)) in *.
  assert (0 <= m <= TransferSize /\ (0 < m -> Z.of_nat p + m <= Z.of_nat (length c)) /\ (m <= 0 -> length c = p)) as (Hm & Hin & Hend).
  { unfold m, within. destruct ((TransferSize <=? 0) || _) eqn:Eb; bool_prop; unfold TransferSize in *; lia. }
  assert (length bs = Z.to_nat m) as Hbs by (unfold bs; rewrite length_take, length_drop, Nat2Z.id; lia).
  cbn [print_loop]. unfold OpenFile_Read. cbn [seekPosition hdr].
  erewrite then_ok; [ | apply on_disk_ok; erewrite then_ok by exact E; cbn [seekPosition hdr]; unfold lift;
    rewrite int_op_ok by (unfold is_i32; unfold TransferSize in *; lia); reflexivity].
  cbv beta iota. destruct (Z.ltb_spec 0 m) as [Hpos | Hz].
  - destruct (fill_buffer buffer bs) as [Ew Hlen]; [unfold TransferSize in *; lia | ].
    erewrite then_ok by (unfold lift; rewrite Ew; reflexivity).
    erewrite then_ok by (unfold lift; rewrite buf_read_ok by (rewrite ?Hlen; unfold TransferSize in *; lia); reflexivity).
    change (Z.to_nat 0) with 0%nat. rewrite drop_0, take_app_length' by done.
    erewrite then_ok by (unfold printf, modify; reflexivity). cbn [sys_disk sys_unix sys_out].
    destruct (IH s1 u (out ++ bs) ds h (p + Z.to_nat m)%nat (bs ++ drop (length bs) buffer)) as (s2 & E2 & Hc2);
      [done | done | lia | fold c; lia.. | ].
    exists s2. split; [ | done]. replace (Z.of_nat (p + Z.to_nat m)) with (Z.of_nat p + m) in E2 by lia.
    rewrite E2. fold c. rewrite <- app_assoc. do 4 f_equal. unfold bs. rewrite Nat2Z.id, <- drop_drop. apply take_drop.
  - exists s1. split; [ | done]. rewrite drop_ge by (fold c; lia). by rewrite app_nil_r.
Qed.

(** Print prints the contents of a file, or says that there is none. *)
Lemma Print_ok fuel s u out fs ds t bm name :
  fs_inv s fs ds t bm -> name_wf name -> (Z.to_nat MaxFileSize < fuel)%nat ->
  exists s', Print uninit fuel fs name (mkSys s u out) = Ok (tt, mkSys s' u (out ++
    match fs_files ds t !! take 9 name with
    | Some c => c
    | None => chars "Print: unable to open file " ++ name ++ newline
    end)) /\ contents s' ds.
Proof.
  intros Hi Hw Hf. unfold Print.
  destruct (FS_Open_spec uninit s fs ds t bm name Hi Hw) as (s1 & Hc1 & [(e & He & Hk & E) | [Hk E]]).
  - erewrite then_ok by (apply on_disk_ok, E). destruct (entry_hdr _ _ _ _ _ _ Hi He) as [Hok _].
    pose proof (hdr_small _ Hok). pose proof (length_file_data ds (hdr_at ds (sector e))).
    rewrite <- Hk, (files_lookup_Some _ _ _ _ _ _ Hi He).
    destruct (print_loop_ok fuel s1 u out ds _ 0 (new_buf uninit TransferSize) Hc1 Hok) as (s2 & E2 & Hc2);
      [done | lia.. | ]. exists s2. rewrite drop_0 in E2. done.
  - erewrite then_ok by (apply on_disk_ok, E). rewrite files_lookup_None by done. by exists s1.
Qed.

(** One chunk of a copy: the bytes [bs] that come next in [c] are written. *)
Lemma copy_chunk s u out fs ds t bm e c bs (p : nat) buffer :
  let h := hdr_at ds (sector e) in
  fs_inv s fs ds t bm -> e ∈ used t -> Forall is_byte bs -> Forall is_byte buffer -> length buffer = 128%nat ->
  length (file_data ds h) = length c -> take p (file_data ds h) = take p c ->
  (p + length bs <= length c)%nat -> (0 < length bs <= 128)%nat -> bs = take (length bs) (drop p c) ->
  exists s' ds', on_disk (OpenFile_Write uninit (mkOpenFile h (Z.of_nat p)) (bs ++ drop (length bs) buffer) (Z.of_nat (length bs))) (mkSys s u out) =
      Ok ((Z.of_nat (length bs), mkOpenFile h (Z.of_nat (p + length bs))), mkSys s' u out) /\
    fs_inv s' fs ds' t bm /\ hdr_at ds' (sector e) = h /\
    fs_files ds' t = <[entry_key e := file_data ds' h]> (fs_files ds t) /\
    length (file_data ds' h) = length c /\ take (p + length bs) (file_data ds' h) = take (p + length bs) c.
Proof.
  intros h Hi He Hbs Hbuf Hb Hl Ht Hp Hn Ebs. destruct (entry_hdr _ _ _ _ _ _ Hi He) as [Hok _]. fold h in Hok.
  pose proof (hdr_small h Hok) as Hs. pose proof (length_file_data ds h) as Hlen.
  unfold MaxFileSize, SectorSize in Hs. change NumDirect with 30 in Hs.
  destruct (FS_Write_spec uninit s fs ds t bm e (bs ++ drop (length bs) buffer) (Z.of_nat (length bs)) (Z.of_nat p) Hi He)
    as (s' & ds' & E & Hi' & Eh & Ef).
  { lia. } { unfold is_i32. lia. } { rewrite length_app. lia. } { apply Forall_app. split; [done | by apply Forall_drop]. }
  fold h in E, Ef, Eh. assert (trimmed h (Z.of_nat (length bs)) (Z.of_nat p) = Z.of_nat (length bs)) as Etr.
  { unfold trimmed. rewrite (proj2 (Z.leb_gt _ _)), (proj2 (Z.leb_gt _ _)) by lia. cbn [orb]. lia. }
  rewrite Etr, !Nat2Z.id, take_app_length in Ef. rewrite Etr in E. clear Etr.
  assert (Hd : file_data ds' h = take p (file_data ds h) ++ bs ++ drop (p + length bs) (file_data ds h)).
  { pose proof (files_lookup_Some _ _ _ _ _ _ Hi' He) as Hlk. rewrite Ef, lookup_insert_eq, Eh in Hlk. by injection Hlk. }
  exists s', ds'. split_and!; try done.
  - apply on_disk_ok. unfold OpenFile_Write. cbn [seekPosition hdr]. erewrite then_ok by exact E.
    unfold lift. erewrite then_ok; [ | rewrite int_op_ok by (unfold is_i32; lia); reflexivity].
    unfold mret, stM_ret. do 4 f_equal. lia.
  - by rewrite Hd.
  - rewrite Hd, !length_app, length_take, length_drop. lia.
  - rewrite Hd, Ht, app_assoc, take_app_length' by (rewrite length_app, length_take; lia).
    rewrite Ebs at 1. by rewrite take_take_drop.
Qed.

Lemma copy_loop_ok fs t bm e c fd out : e ∈ used t -> Forall is_byte c -> forall fuel s u ds (p : nat) buffer,
  let h := hdr_at ds (sector e) in
  fs_inv s fs ds t bm -> fd_file fd u = Some (c, Z.of_nat p) -> Forall is_byte buffer -> length buffer = 128%nat ->
  length (file_data ds h) = length c -> take p (file_data ds h) = take p c ->
  (p <= length c)%nat -> (length c - p < fuel)%nat ->
  exists s' u' ds' p', copy_loop ux uninit fuel fd (mkOpenFile h (Z.of_nat p)) buffer (mkSys s u out) = Ok (tt, mkSys s' u' out) /\
    fs_inv s' fs ds' t bm /\ fs_files ds' t = <[entry_key e := c]> (fs_files ds t) /\ fd_file fd u' = Some (c, p').
Proof.
  intros He Hc. induction fuel as [ | fuel IH]; intros s u ds p buffer h Hi Hu Hbuf Hb Hl Ht Hp Hf; [lia | ].
  destruct (read_on fd u c (Z.of_nat p) TransferSize Hu ltac:(lia) ltac:(done)) as (u1 & E1 & Hu1).
  rewrite Nat2Z.id in E1, Hu1. change (Z.to_nat TransferSize) with 128%nat in *.
  set (bs := take 128 (drop p c)) in *. assert (Hlen : length bs = Nat.min 128 (length c - p)) by (unfold bs; by rewrite length_take, length_drop).
  cbn [copy_loop]. erewrite then_ok.
  2:{ apply on_unix_ok. unfold ReadPartial, unix. rewrite E1, to_i32_id by (unfold is_i32; lia). reflexivity. }
  cbv beta iota. destruct (Z.ltb_spec 0 (Z.of_nat (length bs))) as [Hpos | Hz].
  - destruct (fill_buffer buffer bs) as [Ew Hw]; [lia | ]. erewrite then_ok by (unfold lift; rewrite Ew; reflexivity).
    destruct (copy_chunk s u1 out fs ds t bm e c bs p buffer) as (s2 & ds2 & E2 & Hi2 & Eh & Ef & Hl2 & Ht2); try done.
    { by apply Forall_take, Forall_drop. } { lia. } { lia. } 
    { transitivity (take (length bs) bs); [by rewrite take_ge | ]. unfold bs at 2. rewrite take_take. f_equal. lia. }
    erewrite then_ok by exact E2. cbv beta iota. fold h in Eh, Ef, Hl2, Ht2.
    destruct (IH s2 u1 ds2 (p + length bs)%nat (bs ++ drop (length bs) buffer)) as (s3 & u3 & ds3 & p3 & E3 & Hi3 & Ef3 & Hu3); rewrite ?Eh; try done.
    { rewrite Hu1. do 2 f_equal. lia. } { apply Forall_app. split; [by apply Forall_take, Forall_drop | by apply Forall_drop]. }
    { by rewrite Hw. } { lia. } { lia. }
    rewrite Eh in E3. exists s3, u3, ds3, p3. split_and!; [exact E3 | done | | done].
    by rewrite Ef3, Ef, insert_insert_eq.
  - assert (p = length c) as -> by lia. rewrite !take_ge in Ht by lia.
    eexists s, u1, ds, _. split_and!; [done | done | | exact Hu1].
    rewrite insert_id; [done | ]. rewrite (files_lookup_Some _ _ _ _ _ _ Hi He). by rewrite <- Ht.
Qed.

(** The length of a UNIX file, found by seeking to its end *)
Lemma file_length_ok {B} (f : Z -> stM (Sys S U) B) s u out fd c p :
  fd_file fd u = Some (c, p) -> is_i32 (Z.of_nat (length c)) ->
  exists u', fd_file fd u' = Some (c, 0) /\
    (on_unix (Lseek ux fd 0 2);; fileLength ← on_unix (Tell ux fd); on_unix (Lseek ux fd 0 0);; f fileLength) (mkSys s u out) =
      f (Z.of_nat (length c)) (mkSys s u' out).
Proof.
  intros Hu Hl. destruct (lseek_end fd u c p Hu) as (u1 & E1 & Hu1).
  destruct (lseek_here fd u1 c _ Hu1 ltac:(lia)) as (u2 & E2 & Hu2).
  destruct (lseek_file fd u2 c _ 0 Hu2 ltac:(lia)) as (u3 & E3 & Hu3). exists u3. split; [exact Hu3 | ].
  erewrite then_ok by (apply on_unix_ok; unfold Lseek, unix; erewrite then_ok by (rewrite E1; reflexivity);
    unfold lift, ASSERT; rewrite (proj2 (Z.leb_le _ _)) by lia; reflexivity).
  erewrite then_ok by (apply on_unix_ok; unfold Tell, unix; erewrite then_ok by (rewrite E2; reflexivity);
    rewrite to_i32_id by done; reflexivity).
  erewrite then_ok by (apply on_unix_ok; unfold Lseek, unix; erewrite then_ok by (rewrite E3; reflexivity); reflexivity).
  done.
Qed.

Lemma unix_close_ok s u out fd c p :
  fd_file fd u = Some (c, p) -> exists u', (on_unix (S := S) (sysdep_Close ux fd);; mret tt) (mkSys s u out) = Ok (tt, mkSys s u' out).
Proof.
  intros Hu. destruct (close_file fd u c p Hu) as (u' & E). exists u'.
  erewrite then_ok by (apply on_unix_ok; unfold sysdep_Close, unix; erewrite then_ok by (rewrite E; reflexivity); reflexivity).
  done.
Qed.

(** Copy makes a file with the contents of the UNIX file, or says why not. *)
Lemma Copy_ok fuel s u u1 out fs ds t bm from to fd c :
  fs_inv s fs ds t bm -> name_wf to -> sys_open ux from O_RDWR u = (fd, u1) -> 0 <= fd ->
  fd_file fd u1 = Some (c, 0) -> Forall is_byte c -> Z.of_nat (length c) <= MaxFileSize -> (length c < fuel)%nat ->
  if create_fails (fs_files ds t) to (Z.of_nat (length c)) then
    exists s' u', Copy ux uninit fuel fs from to (mkSys s u out) =
      Ok (tt, mkSys s' u' (out ++ chars "Copy: couldn't create output file " ++ to ++ newline)) /\ contents s' ds
  else
    exists s' u' ds' t' bm', Copy ux uninit fuel fs from to (mkSys s u out) = Ok (tt, mkSys s' u' out) /\
      fs_inv s' fs ds' t' bm' /\ fs_files ds' t' = <[take 9 to := c]> (fs_files ds t).
Proof.
  intros Hi Hw Eo Hfd Hu Hby Hsz Hf. unfold Copy.
  erewrite then_ok by (apply on_unix_ok; unfold OpenForReadWrite, unix; erewrite then_ok by (rewrite Eo; reflexivity); reflexivity).
  rewrite (proj2 (Z.ltb_ge _ _)) by lia. unfold MaxFileSize, SectorSize in Hsz. change NumDirect with 30 in Hsz.
  edestruct (file_length_ok (B := unit)) as (u2 & Hu2 & ->); [exact Hu | unfold is_i32; lia | ].
  pose proof (FS_Create_spec uninit s fs ds t bm to (Z.of_nat (length c)) Hi Hw ltac:(lia)) as Hc.
  cbv zeta in Hc. rewrite <- (create_fails_code _ _ _ _ _ _ _ Hi), small_enough in Hc
    by (unfold MaxFileSize, SectorSize; change NumDirect with 30; lia).
  destruct (create_fails (fs_files ds t) to (Z.of_nat (length c))).
  - destruct Hc as (s1 & Ec & Hc1). erewrite then_ok by (apply on_disk_ok, Ec). cbn [negb].
    destruct (unix_close_ok s1 u2 (out ++ chars "Copy: couldn't create output file " ++ to ++ newline) fd c 0 Hu2) as (u3 & E3).
    exists s1, u3. split; [ | done]. erewrite then_ok by (unfold printf, modify; reflexivity). exact E3.
  - destruct Hc as (s1 & ds1 & t1 & bm1 & d & Ec & Hi1 & Ef1 & Hd). erewrite then_ok by (apply on_disk_ok, Ec). cbn [negb].
    destruct (FS_Open_spec uninit s1 fs ds1 t1 bm1 to Hi1 Hw) as (s2 & Hc2 & [(e & He & Hk & E2) | [Hk _]]).
    2:{ apply (files_lookup_None ds1) in Hk. by rewrite Ef1, lookup_insert_eq in Hk. }
    erewrite then_ok by (apply on_disk_ok, E2). pose proof (inv_state _ _ _ _ _ _ Hi1 Hc2) as Hi2.
    pose proof (files_lookup_Some _ _ _ _ _ _ Hi1 He) as Hlk. rewrite Hk, Ef1, lookup_insert_eq in Hlk. injection Hlk as Hlk.
    destruct (copy_loop_ok fs t1 bm1 e c fd out He Hby fuel s2 u2 ds1 0 (new_buf uninit TransferSize))
      as (s3 & u3 & ds3 & p3 & E3 & Hi3 & Ef3 & Hu3); try done.
    { apply new_buf_bytes. } { rewrite <- Hlk. lia. } { lia. } { lia. }
    destruct (unix_close_ok s3 u3 out fd c p3 Hu3) as (u4 & E4).
    exists s3, u4, ds3, t1, bm1. split_and!; [ | done | by rewrite Ef3, Hk, Ef1, insert_insert_eq].
    erewrite then_ok by exact E3. exact E4.
Qed.

(** C21: Copying in and printing.  On every consistent file system, whatever
    uninitialised memory holds, Copy of a UNIX file of at most MaxFileSize bytes
    that can be opened either makes a Nachos file that holds exactly its bytes,
    prints nothing and changes no other file, and Print of that file then prints
    exactly these bytes; or, just when Create has to fail (the name is taken,
    ten files exist, the disk is full), says so and leaves every sector as it
    was.  No assertion fails, and as many rounds of the loops as there are bytes,
    and one, are enough. *)
Theorem copy_then_print fuel s u u1 out fs ds t bm from to fd c
    (Hi : fs_inv s fs ds t bm) (Hw : name_wf to) (Hopen : sys_open ux from O_RDWR u = (fd, u1)) (Hfd : 0 <= fd)
    (Hu : fd_file fd u1 = Some (c, 0)) (Hby : Forall is_byte c) (Hsz : Z.of_nat (length c) <= MaxFileSize)
    (Hfuel : (Z.to_nat MaxFileSize < fuel)%nat) :
  if create_fails (fs_files ds t) to (Z.of_nat (length c)) then
    exists s' u', Copy ux uninit fuel fs from to (mkSys s u out) =
      Ok (tt, mkSys s' u' (out ++ chars "Copy: couldn't create output file " ++ to ++ newline)) /\ contents s' ds
  else
    exists s' u' ds' t' bm' s'', Copy ux uninit fuel fs from to (mkSys s u out) = Ok (tt, mkSys s' u' out) /\
      fs_inv s' fs ds' t' bm' /\ fs_files ds' t' = <[take 9 to := c]> (fs_files ds t) /\
      Print uninit fuel fs to (mkSys s' u' out) = Ok (tt, mkSys s'' u' (out ++ c)).
Proof.
  assert (length c < fuel)%nat as Hf by lia.
  pose proof (Copy_ok fuel s u u1 out fs ds t bm from to fd c Hi Hw Hopen Hfd Hu Hby Hsz Hf) as H.
  destruct (create_fails _ _ _); [exact H | ]. destruct H as (s' & u' & ds' & t' & bm' & E & Hi' & Ef).
  destruct (Print_ok fuel s' u' out fs ds' t' bm' to Hi' Hw Hfuel) as (s'' & E' & _).
  rewrite Ef, lookup_insert_eq in E'. exists s', u', ds', t', bm', s''. split_and!; done.
Qed.

(** *** The whole program *)

Definition kernel_options : list (list Z) := chars <$> ["-rs"; "-s"; "-ci"; "-co"; "-f"; "-n"; "-m"; "-u"]%string.

Lemma kernel_skips arg rest k : arg ∉ kernel_options -> kernel_args (arg :: rest) k = kernel_args rest k.
Proof.
  intros Hn. assert (forall o, chars o ∈ kernel_options -> is_option arg o = false) as Ho.
  { intros o Hin. apply bool_decide_eq_false_2. by intros ->. }
  cbn [kernel_args]. rewrite !Ho; [done | unfold kernel_options; rewrite !fmap_cons; set_solver..].
Qed.

Lemma create_empty to size : 0 <= size <= MaxFileSize -> create_fails ∅ to size = false.
Proof.
  intros Hs. unfold create_fails. rewrite lookup_empty. pose proof (small_enough size Hs) as Hd. apply Z.leb_le in Hd.
  change (sectors_used ∅) with 5. change NumDirect with 30 in Hd. change NumSectors with 1024.
  rewrite (proj2 (Z.ltb_ge _ _)) by lia. done.
Qed.

(** C22: The command line [nachos -f -cp from to -p to], on a disk with anything
    on it: main and the Kernel constructor find the options meant for each of
    them, the disk is formatted, the UNIX file copied in and printed: what
    appears is exactly the contents of the UNIX file. *)
Theorem format_copy_print fuel s u u1 out ds nachos from to fd c
    (Hs : contents s ds) (Hw : name_wf to) (Hfrom : from ∉ kernel_options) (Hto : to ∉ kernel_options)
    (Hopen : sys_open ux from O_RDWR u = (fd, u1)) (Hfd : 0 <= fd) (Hu : fd_file fd u1 = Some (c, 0))
    (Hby : Forall is_byte c) (Hsz : Z.of_nat (length c) <= MaxFileSize) (Hfuel : (Z.to_nat MaxFileSize < fuel)%nat) :
  exists a k s' u', main ux uninit fuel [nachos; chars "-f"; chars "-cp"; from; to; chars "-p"; to] (mkSys s u out) =
    Ok ((a, k), mkSys s' u' (out ++ c)).
Proof.
  set (a := set_printFileName (set_copy default_Flags from to) to). set (k := set_formatFlag default_Kernel).
  assert (Hk : kernel_args [chars "-f"; chars "-cp"; from; to; chars "-p"; to] default_Kernel out = Ok (k, out)).
  { change (kernel_args [from; to; chars "-p"; to] k out = Ok (k, out)). rewrite !kernel_skips by done.
    change (kernel_args [to] k out = Ok (k, out)). by rewrite kernel_skips. }
  destruct (format_spec uninit s ds Hs) as (s1 & fs & ds1 & t1 & bm1 & E1 & Hi1 & Hu1).
  assert (fs_files ds1 t1 = ∅) as He by (unfold fs_files; by rewrite Hu1).
  pose proof (Copy_ok fuel s1 u u1 out fs ds1 t1 bm1 from to fd c Hi1 Hw Hopen Hfd Hu Hby Hsz ltac:(lia)) as H.
  rewrite He, create_empty in H by lia. destruct H as (s2 & u2 & ds2 & t2 & bm2 & E2 & Hi2 & Ef2).
  destruct (Print_ok fuel s2 u2 out fs ds2 t2 bm2 to Hi2 Hw Hfuel) as (s3 & E3 & _). rewrite Ef2, lookup_insert_eq in E3.
  exists a, k, s3, u2. unfold main.
  erewrite then_ok by (unfold on_out; cbn [sys_out tl]; reflexivity). cbn [sys_disk sys_unix].
  erewrite then_ok by (unfold on_out, new_Kernel; cbn [sys_out tl]; rewrite Hk; reflexivity). cbn [sys_disk sys_unix].
  erewrite then_ok by (apply on_disk_ok; exact E1). fold a.
  erewrite then_ok; [reflexivity | ]. unfold main_files.
  change (removeFileName a) with (@None filename). change (copyUnixFileName a) with (Some from).
  change (copyNachosFileName a) with (Some to). change (printFileName a) with (Some to). cbn [when_given dumpFlag dirListFlag].
  erewrite then_ok by reflexivity. erewrite then_ok by exact E2. erewrite then_ok by reflexivity. erewrite then_ok by reflexivity. exact E3.
Qed.

End CommandProperties.

(** ** Witnesses *)

#[global] Instance host_seek : UnixSeek host_ops host_file.
Proof.
  split; [apply _ | ..].
  - intros fd h c p (ino & E & <-)%host_file_fd. simpl. unfold host_lseek. rewrite E.
    change (2 =? 0) with false; change (2 =? 1) with false; cbn iota.
    rewrite Z.add_0_r, (proj2 (Z.ltb_ge _ _)) by lia. eexists. split; [done | ]. unfold host_file. simpl. by rewrite lookup_insert_eq.
  - intros fd h c p (ino & E & <-)%host_file_fd Hp. simpl. unfold host_lseek. rewrite E.
    change (1 =? 0) with false; change (1 =? 1) with true; cbn iota.
    rewrite Z.add_0_r, (proj2 (Z.ltb_ge _ _)) by lia. eexists. split; [done | ]. unfold host_file. simpl. by rewrite lookup_insert_eq.
  - intros fd h c p n (ino & E & <-)%host_file_fd Hp Hn. simpl. unfold host_read. rewrite E.
    eexists. split; [done | ]. unfold host_file. simpl. by rewrite lookup_insert_eq.
Qed.

#[local] Instance copy_store : SectorDisk (SynchDisk FileSysStub.host) := synchdisk_sectors host_ops host_file id.

(** A UNIX file [a] of 130 bytes *)
Definition copy_text : list Z := replicate 130 65.
Definition copy_host : FileSysStub.host := mkHost {[ [97] := 1 ]} {[ 1 := copy_text ]} ∅.

Lemma copy_opens : exists h, sys_open host_ops [97] O_RDWR copy_host = (0, h) /\ host_file 0 h = Some (copy_text, 0).
Proof. eexists. split; vm_compute; reflexivity. Qed.

Lemma copy_text_ok : Forall is_byte copy_text /\ Z.of_nat (length copy_text) <= MaxFileSize.
Proof. split; [by apply Forall_replicate | done]. Qed.

Lemma copy_then_print_witness :
  exists s s' s'' u' fs, let x := mkSys s' u' [] in
    Copy (S := SynchDisk FileSysStub.host) host_ops demo_memory 5000 fs [97] [98] (mkSys s copy_host []) = Ok (tt, x) /\
    Print (S := SynchDisk FileSysStub.host) demo_memory 5000 fs [98] x = Ok (tt, mkSys s'' u' copy_text).
Proof.
  destruct demo_disk as (s & d & _ & Hd).
  assert (contents s (sectors_of d)) as Hs by (exists d; split; [exact Hd | reflexivity]).
  destruct (format_spec demo_memory s _ Hs) as (s1 & fs & ds1 & t1 & bm1 & _ & Hi1 & Hu1).
  destruct copy_opens as (h & Eo & Hh). destruct copy_text_ok as [Hb Hz].
  pose proof (copy_then_print host_ops demo_memory host_file 5000 s1 copy_host h [] fs ds1 t1 bm1 [97] [98] 0 copy_text
    Hi1 ltac:(by repeat constructor) Eo ltac:(done) Hh Hb Hz ltac:(vm_compute; lia)) as H.
  assert (fs_files ds1 t1 = ∅) as He by (unfold fs_files; by rewrite Hu1).
  rewrite He, create_empty in H by (split; [lia | exact Hz]).
  destruct H as (s' & u' & _ & _ & _ & s'' & E1 & _ & _ & E2). exists s1, s', s'', u', fs. split; [exact E1 | exact E2].
Defined.

Lemma format_copy_print_witness :
  exists s a k s' u', main (S := SynchDisk FileSysStub.host) host_ops demo_memory 5000
    [chars "nachos"; chars "-f"; chars "-cp"; [97]; [98]; chars "-p"; [98]] (mkSys s copy_host []) = Ok ((a, k), mkSys s' u' copy_text).
Proof.
  destruct demo_disk as (s & d & _ & Hd).
  assert (contents s (sectors_of d)) as Hs by (exists d; split; [exact Hd | reflexivity]).
  destruct copy_opens as (h & Eo & Hh). destruct copy_text_ok as [Hb Hz]. exists s.
  apply (format_copy_print host_ops demo_memory host_file 5000 s copy_host h [] _ (chars "nachos") [97] [98] 0 copy_text Hs).
  - by repeat constructor.
  - apply (bool_decide_unpack _). vm_compute. exact I.
  - apply (bool_decide_unpack _). vm_compute. exact I.
  - exact Eo.
  - done.
  - exact Hh.
  - exact Hb.
  - exact Hz.
  - vm_compute. lia.
Defined.

(** The two scans disagree on [nachos -cp -f b]: main copies the UNIX file
    [-f], and the constructor of Kernel takes its name for the option that
    formats the disk. *)
Theorem name_taken_for_option out :
  (exists a, main_args [chars "-cp"; chars "-f"; [98]] default_Flags out = Ok (a, out) /\ copyUnixFileName a = Some (chars "-f")) /\
  (exists k, new_Kernel [chars "nachos"; chars "-cp"; chars "-f"; [98]] out = Ok (k, out) /\ formatFlag k = true).
Proof.
  split; [exists (set_copy default_Flags (chars "-f") [98]) | exists (set_formatFlag default_Kernel)]; split; vm_compute; reflexivity.
Qed.
