(* ===== verification/Debugger.v ===== *)
(** * The debugger of the machine and what it prints (machine/machine.cc,
      machine/interrupt.cc, machine/stats.cc, lib/debug.cc)

    With the option -s the machine enters [Machine::Debugger] after each user
    instruction, or once a given time has come.  It reads commands from the
    standard input, an input stream of the C++ library: a stream from which
    nothing could be read, or whose end was met, is bad, and nothing is read
    from it again. *)

From Stdlib Require Import Strings.Ascii Strings.String.
From stdpp Require Import strings.
From S2P Require Import Prelude Network Machine AddrSpace Threads ThreadsInv Main.

(** ** lib/debug.cc *)

(** A C string ends at the first NUL. *)
Fixpoint c_str (s : list Z) : list Z :=
  match s with [] => [] | c :: s' => if c =? 0 then [] else c :: c_str s' end.

(** [strchr(s, c) != 0]: the NUL at the end is found too. *)
Definition strchr (s : list Z) (c : Z) : bool := (c =? 0) || existsb (Z.eqb c) (c_str s).

(** [Debug::IsEnabled], with the flags of [Debug::Debug] *)
Definition IsEnabled (enableFlags : option (list Z)) (flag : Z) : bool :=
  match enableFlags with
  | Some s => strchr s flag || strchr s 43
  | None => false
  end.

(** What [DEBUG] writes to the standard error *)
Definition DEBUG (enableFlags : option (list Z)) (flag : Z) (expr : list Z) : list Z :=
  if negb (IsEnabled enableFlags flag) then [] else expr ++ newline.

(** Without flags nothing is written; with [+] among them everything is. *)
Lemma DEBUG_flags flag expr s : DEBUG None flag expr = [] /\ (existsb (Z.eqb 43) (c_str s) = true -> DEBUG (Some s) flag expr = expr ++ newline).
Proof. split; [done | ]. intros H. unfold DEBUG, IsEnabled, strchr. rewrite H. cbn. by rewrite orb_true_r. Qed.

(** ** Dumps *)

Definition intLevelNames (lv : IntStatus) : string := match lv with IntOff => "off" | IntOn => "on" end.

Definition intTypeNames (ty : IntType) : string :=
  match ty with
  | TimerInt => "timer" | DiskInt => "disk" | ConsoleWriteInt => "console write" | ConsoleReadInt => "console read"
  | NetworkSendInt => "network send" | NetworkRecvInt => "network recv"
  end.

Definition PrintPending (p : PendingInterrupt) : list Z :=
  chars "Interrupt handler " ++ chars (intTypeNames (type p)) ++ chars ", scheduled at " ++ show_int (when p).

(** [Interrupt::DumpState] *)
Definition Interrupt_DumpState (i : Interrupt) (totalTicks : Z) : list Z :=
  chars "Time: " ++ show_int totalTicks ++ chars ", interrupts " ++ chars (intLevelNames (level i)) ++ newline ++
  chars "Pending interrupts:" ++ newline ++ concat (PrintPending <$> pending i) ++
  newline ++ chars "End of pending interrupts" ++ newline.

Definition tab : list Z := [9].

(** One register of [Machine::DumpState] *)
Definition show_register (m : Machine) (i : Z) : res (list Z) :=
  v ← zget (registers m) i;
  mret (tab ++ (if i =? StackReg then chars "SP(" ++ show_int i ++ chars ")"
                else if i =? RetAddrReg then chars "RA(" ++ show_int i ++ chars ")"
                else show_int i) ++ chars ":" ++ tab ++ show_int v ++ (if i mod 4 =? 3 then newline else [])).

Definition show_named (m : Machine) (name : string) (i : Z) : res (list Z) :=
  v ← zget (registers m) i;
  mret (tab ++ chars name ++ chars ":" ++ tab ++ show_int v).

Definition Machine_DumpState (m : Machine) : res (list Z) :=
  out ← for_up 0 NumGPRegs (fun i out => t ← show_register m i; mret (out ++ t)) (chars "Machine registers:" ++ newline);
  hi ← show_named m "Hi" HiReg;
  lo ← show_named m "Lo" LoReg;
  pc ← show_named m "PC" PCReg;
  npc ← show_named m "NextPC" NextPCReg;
  ppc ← show_named m "PrevPC" PrevPCReg;
  load ← show_named m "Load" LoadReg;
  loadv ← show_named m "LoadV" LoadValueReg;
  mret (out ++ hi ++ lo ++ pc ++ npc ++ ppc ++ load ++ loadv ++ newline).

(** ** Statistics *)

(** The counters of class Statistics that devices keep, as printed *)
Record Counters := mkCounters {
  numDiskReads : Z; numDiskWrites : Z; numConsoleCharsRead : Z; numConsoleCharsWritten : Z;
  numPageFaults : Z; numPacketsSent : Z; numPacketsRecvd : Z
}.

Definition new_Statistics : Statistics * Counters := (mkStats 0 0 0 0, mkCounters 0 0 0 0 0 0 0).

Definition Statistics_Print (s : Statistics) (c : Counters) : list Z :=
  chars "Ticks: total " ++ show_int (totalTicks s) ++ chars ", idle " ++ show_int (idleTicks s) ++
  chars ", system " ++ show_int (systemTicks s) ++ chars ", user " ++ show_int (userTicks s) ++ newline ++
  chars "Disk I/O: reads " ++ show_int (numDiskReads c) ++ chars ", writes " ++ show_int (numDiskWrites c) ++ newline ++
  chars "Console I/O: reads " ++ show_int (numConsoleCharsRead c) ++
  chars ", writes " ++ show_int (numConsoleCharsWritten c) ++ newline ++
  chars "Paging: faults " ++ show_int (numPageFaults c) ++ newline ++
  chars "Network I/O: packets received " ++ show_int (numPacketsRecvd c) ++
  chars ", sent " ++ show_int (numPacketsSent c) ++ newline.

(** What [Interrupt::Halt] prints before it ends *)
Definition Halt_output (s : Statistics) (c : Counters) : list Z :=
  chars "Machine halting!" ++ newline ++ newline ++ Statistics_Print s c.

(** ** Standard input *)

Record Istream := mkIstream { text : list Z; bad : bool }.

(** The characters before the end of the line, at most [n] *)
Fixpoint line (n : nat) (s : list Z) : list Z :=
  match n, s with
  | S n', c :: s' => if c =? 10 then [] else c :: line n' s'
  | _, _ => []
  end.

(** [cin.get(buf, n)]: what it stores before the NUL, and the stream; it does
    not take the end of the line.  The stream is bad when nothing was read or
    the end was met. *)
Definition get_line (n : Z) (c : Istream) : list Z * Istream :=
  if bad c then ([], c)
  else
    let l := line (Z.to_nat (n - 1)) (text c) in
    let rest := drop (length l) (text c) in
    (l, mkIstream rest (bool_decide (l = []) || bool_decide (rest = []))).

(** [cin.get()] *)
Definition get_char (c : Istream) : Istream :=
  if bad c then c
  else match text c with [] => mkIstream [] true | _ :: s => mkIstream s false end.

Fixpoint skip_space (s : list Z) : list Z :=
  match s with c :: s' => if (c =? 32) || ((9 <=? c) && (c <=? 13)) then skip_space s' else s | [] => [] end.

Definition scan_sign (s : list Z) : bool * list Z :=
  match s with 45 :: s' => (true, s') | 43 :: s' => (false, s') | _ => (false, s) end.

(** [sscanf(buf, "%d", &num) == 1] and [num]; a number that does not fit has no
    defined result. *)
Definition sscanf_int (buf : list Z) : res (option Z) :=
  let '(neg, s) := scan_sign (skip_space buf) in
  let '(v, n, _) := scan 10 0 0 s in
  if (n =? 0)%nat then mret None else v ← int_op (if neg : bool then - v else v); mret (Some v).

(** ** The debugger *)

Record Debug := mkDebug { cin : Istream; cout : list Z; singleStep : bool; runUntilTime : Z }.

Notation M := (stM Debug).

Definition print (t : list Z) : M unit :=
  modify (fun s => mkDebug (cin s) (cout s ++ t) (singleStep s) (runUntilTime s)).

Definition help : list Z :=
  chars "Machine commands:" ++ newline ++ chars "    <return>  execute one instruction" ++ newline ++
  chars "    <number>  run until the given timer tick" ++ newline ++ chars "    c         run until completion" ++ newline ++
  chars "    ?         print help message" ++ newline.

(** The switch on the command, once it is not a number: whether the loop is
    done *)
Definition command (buf : list Z) : M bool :=
  modify (fun s => mkDebug (cin s) (cout s) (singleStep s) 0);;
  match buf with
  | [] => mret true
  | c :: _ =>
      if c =? 99 then modify (fun s => mkDebug (cin s) (cout s) false (runUntilTime s));; mret true
      else if c =? 63 then print help;; mret false
      else print (chars "Unknown command: " ++ buf ++ newline);; print (chars "Type ? for help." ++ newline);; mret false
  end.

Fixpoint debug_loop (fuel : nat) (totalTicks : Z) : M unit :=
  match fuel with
  | O => lift (Fail OutOfFuel)
  | S f =>
      print (show_int totalTicks ++ chars ">");;
      c ← gets cin;
      let '(l, c) := get_line 80 c in
      modify (fun s => mkDebug c (cout s) (singleStep s) (runUntilTime s));;
      let buf := c_str l in
      num ← lift (sscanf_int buf);
      done ← match num with
             | Some num => modify (fun s => mkDebug (cin s) (cout s) (singleStep s) num);; mret true
             | None => command buf
             end;
      modify (fun s => mkDebug (get_char (cin s)) (cout s) (singleStep s) (runUntilTime s));;
      if (done : bool) then mret tt else debug_loop f totalTicks
  end.

(** [Machine::Debugger], with the state it dumps *)
Definition Debugger (i : Interrupt) (totalTicks : Z) (m : Machine) : M unit :=
  print (Interrupt_DumpState i totalTicks);;
  regs ← lift (Machine_DumpState m);
  print regs;;
  c ← gets cin;
  debug_loop (S (length (text c))) totalTicks.

(** The end of a round of [Machine::Run] *)
Definition Run_debug (i : Interrupt) (totalTicks : Z) (m : Machine) : M unit :=
  s ← gets (fun s => s);
  if singleStep s && (runUntilTime s <=? totalTicks) then Debugger i totalTicks m else mret tt.

(** ** The debugger comes back *)

Lemma show_named_ok m name i : length (registers m) = Z.to_nat NumTotalRegs -> 0 <= i < NumTotalRegs ->
  exists t, show_named m name i = Ok t.
Proof.
  intros Hl Hi. unfold show_named, NumTotalRegs in *.
  destruct (zget_in_range (registers m) i) as (v & _ & ->); [lia | ]. by eexists.
Qed.

Lemma Machine_DumpState_ok m : length (registers m) = Z.to_nat NumTotalRegs -> exists t, Machine_DumpState m = Ok t.
Proof.
  intros Hl. unfold Machine_DumpState.
  edestruct (for_up_inv (fun _ (_ : list Z) => True) (fun i out => t ← show_register m i; mret (out ++ t)) 0 NumGPRegs)
    as (out & -> & _); [unfold NumGPRegs; lia | | exact I | ].
  { intros j out Hj _. unfold show_register, NumGPRegs, NumTotalRegs in *.
    destruct (zget_in_range (registers m) j) as (v & _ & ->); [lia | ]. by eexists. }
  rsimp.
  repeat match goal with |- context [show_named m ?n ?i] =>
    destruct (show_named_ok m n i Hl) as [? ->]; [vm_compute; split; congruence | ]; rsimp end. by eexists.
Qed.

(** What is left of the input *)
Definition rest_of (c c' : Istream) : Prop := text c' `suffix_of` text c /\ (bad c = true -> c' = c).

Lemma rest_refl c : rest_of c c.
Proof. by split. Qed.

Lemma rest_trans c1 c2 c3 : rest_of c1 c2 -> rest_of c2 c3 -> rest_of c1 c3.
Proof. intros [H1 B1] [H2 B2]. split; [by etrans | ]. intros Hb. rewrite B2; rewrite B1; done. Qed.

Lemma get_line_rest n c : rest_of c (get_line n c).2.
Proof.
  unfold get_line. destruct (bad c) eqn:Hb; [apply rest_refl | ]. split; [ | by rewrite Hb]. simpl. apply suffix_drop.
Qed.

Lemma get_char_rest c : rest_of c (get_char c).
Proof.
  unfold get_char. destruct (bad c) eqn:Hb; [apply rest_refl | ]. split; [ | by rewrite Hb].
  destruct (text c) as [ | x s]; [done | ]. simpl. by exists [x].
Qed.

(** A line that is not empty is shorter by its characters. *)
Lemma get_line_shorter n c l c' : get_line n c = (l, c') -> l <> [] -> (length (text c') < length (text c))%nat.
Proof.
  unfold get_line. destruct (bad c); intros [= <- <-]; [done | ]. simpl. rewrite length_drop.
  intros Hl. destruct (line _ (text c)) as [ | x l] eqn:E; [done | ]. simpl.
  destruct (text c); [by destruct (Z.to_nat (n - 1)) | ]. simpl. lia.
Qed.

Definition keeps_rest (s : Debug) (s' : Debug) : Prop := rest_of (cin s) (cin s') /\ cout s `prefix_of` cout s'.

Lemma sscanf_nil : sscanf_int [] = Ok None.
Proof. reflexivity. Qed.

Lemma int_op_undefined z f : int_op z = Fail f -> f = Undefined.
Proof. unfold int_op. destruct (_ && _); congruence. Qed.

Lemma sscanf_fail buf f : sscanf_int buf = Fail f -> f = Undefined.
Proof.
  unfold sscanf_int. destruct (scan_sign _) as [neg s]. destruct (scan 10 0 0 s) as [[v n] r].
  destruct (n =? 0)%nat; [done | ]. unfold mbind, res_bind. destruct (int_op _) eqn:E; [done | ]. intros [= <-]. by eapply int_op_undefined.
Qed.

(** A command that leaves the loop going has characters. *)
Lemma command_wp E buf (Q : bool -> Debug -> Prop) s :
  (forall b s', cin s' = cin s -> cout s `prefix_of` cout s' -> (b = false -> buf <> []) -> Q b s') -> wp E Q (command buf) s.
Proof.
  intros HQ. unfold command, print. apply wp_bind, wp_modify. destruct buf as [ | c buf]; [by apply wp_ret, HQ | ].
  destruct (c =? 99); [by apply wp_bind, wp_modify, wp_ret, HQ | ].
  destruct (c =? 63); [apply wp_bind, wp_modify, wp_ret, HQ; try done; simpl; by apply prefix_app_r | ].
  apply wp_bind, wp_modify, wp_bind, wp_modify, wp_ret, HQ; try done. simpl. rewrite <- app_assoc. by apply prefix_app_r.
Qed.

Lemma debug_loop_ok fuel ticks : forall s, (length (text (cin s)) < fuel)%nat ->
  wp (fun f => f = Undefined) (fun _ => keeps_rest s) (debug_loop fuel ticks) s.
Proof.
  induction fuel as [ | fuel IH]; intros s Hf; [lia | ]. cbn [debug_loop]. unfold print. apply wp_bind, wp_modify, wp_bind, wp_gets.
  cbn [cin]. destruct (get_line 80 (cin s)) as [l c] eqn:El. apply wp_bind, wp_modify, wp_bind.
  pose proof (get_line_rest 80 (cin s)) as Hrest. rewrite El in Hrest. cbn [snd] in Hrest.
  destruct (sscanf_int (c_str l)) as [num | f] eqn:Es; [ | by apply sscanf_fail in Es].
  eapply wp_lift; [done | ]. apply wp_bind. set (s1 := mkDebug _ _ _ _).
  assert (H1 : cin s1 = c /\ cout s `prefix_of` cout s1) by (split; [done | simpl; by apply prefix_app_r]). clearbody s1.
  assert (Hend : forall (b : bool) s2, cin s2 = c -> cout s `prefix_of` cout s2 -> (b = false -> l <> []) ->
    wp (fun f => f = Undefined) (fun _ => keeps_rest s)
      (modify (fun s => mkDebug (get_char (cin s)) (cout s) (singleStep s) (runUntilTime s));;
       if b then mret tt else debug_loop fuel ticks) s2).
  { intros b s2 Ec Ho Hb. apply wp_bind, wp_modify. set (s3 := mkDebug _ _ _ _).
    assert (Hk : keeps_rest s s3).
    { split; [ | done]. simpl. rewrite Ec. eapply rest_trans; [exact Hrest | apply get_char_rest]. }
    destruct b; [by apply wp_ret | ]. pose proof (get_line_shorter _ _ _ _ El (Hb eq_refl)) as Hlt.
    eapply wp_mono; [apply IH | ].
    - simpl. rewrite Ec. pose proof (suffix_length _ _ (proj1 (get_char_rest c))). lia.
    - intros [] s4 [Hr Ho4]. split; [eapply rest_trans; [apply Hk | done] | by etrans; [apply Hk | ]]. }
  destruct num as [num | ].
  - destruct H1. apply wp_bind, wp_modify, wp_ret. by apply (Hend true).
  - apply command_wp. intros b s2 Ec Ho Hb. destruct H1 as [H1 H1']. apply Hend; [congruence | by etrans | ].
    intros Hb' ->. by apply (Hb Hb').
Qed.

(** The debugger comes back whatever is typed, unless a number does not fit an
    int; it takes from the front of the input, and nothing once the stream is
    bad. *)
Theorem debugger_returns i ticks m s : length (registers m) = Z.to_nat NumTotalRegs ->
  wp (fun f => f = Undefined) (fun _ => keeps_rest s) (Debugger i ticks m) s.
Proof.
  intros Hl. unfold Debugger, print. apply wp_bind, wp_modify, wp_bind. destruct (Machine_DumpState_ok m Hl) as [regs ->].
  eapply wp_lift; [done | ]. apply wp_bind, wp_modify, wp_bind, wp_gets.
  eapply wp_mono; [apply debug_loop_ok; simpl; lia | ]. intros [] s' [Hr Ho]. split; [done | ].
  etrans; [ | exact Ho]. simpl. rewrite <- app_assoc. by apply prefix_app_r.
Qed.

(** ** <return> is the last command *)

(** On a bad stream the debugger asks and comes back at once, as if <return>
    had been typed. *)
Lemma debugger_deaf i ticks m s : length (registers m) = Z.to_nat NumTotalRegs -> bad (cin s) = true ->
  exists out, Debugger i ticks m s = Ok (tt, mkDebug (cin s) (cout s ++ out) (singleStep s) 0).
Proof.
  intros Hl Hb. destruct (Machine_DumpState_ok m Hl) as [regs E].
  unfold Debugger, print, lift, gets, modify, mbind, mret, stM_bind, stM_ret. rewrite E. cbn [cin cout debug_loop].
  unfold print, lift, gets, modify, mbind, mret, stM_bind, stM_ret. cbn [cin]. unfold get_line. rewrite Hb.
  cbn [c_str]. rewrite sscanf_nil. cbn [command cin cout singleStep runUntilTime].
  unfold command, modify, mbind, mret, stM_bind, stM_ret. cbn [cin cout singleStep runUntilTime]. unfold get_char. rewrite Hb.
  eexists. by rewrite <- !app_assoc.
Qed.

(** A round of [Machine::Run] and another, with the debugger after each *)
Fixpoint Run_debug_all (calls : list (Interrupt * Z * Machine)) : M unit :=
  match calls with
  | [] => mret tt
  | (i, ticks, m) :: calls' => Run_debug i ticks m;; Run_debug_all calls'
  end.

Lemma deaf_for_ever calls : forall s, Forall (fun x => length (registers x.2) = Z.to_nat NumTotalRegs) calls ->
  bad (cin s) = true -> exists out t, Run_debug_all calls s = Ok (tt, mkDebug (cin s) (cout s ++ out) (singleStep s) t).
Proof.
  induction calls as [ | [[i ticks] m] calls IH]; intros s Hl Hb; cbn [Run_debug_all].
  { exists [], (runUntilTime s). rewrite app_nil_r. by destruct s. }
  apply Forall_cons in Hl as [Hm Hl]. cbn [snd] in Hm. unfold Run_debug, gets, mbind, stM_bind.
  destruct (singleStep s && (runUntilTime s <=? ticks)).
  - destruct (debugger_deaf i ticks m s Hm Hb) as [out ->]. edestruct (IH (mkDebug (cin s) (cout s ++ out) (singleStep s) 0)) as (out' & t & ->); [done | done | ].
    cbn [cin cout singleStep]. exists (out ++ out'), t. by rewrite app_assoc.
  - unfold mret, stM_ret. by apply IH.
Qed.

(** The command <return> is said to execute one instruction.  An empty line
    makes the stream bad: the program is stopped never again, and nothing that
    is typed afterwards is read, whatever time and instructions follow. *)
Theorem return_is_final i ticks m s rest calls :
  length (registers m) = Z.to_nat NumTotalRegs -> Forall (fun x => length (registers x.2) = Z.to_nat NumTotalRegs) calls ->
  cin s = mkIstream (10 :: rest) false ->
  exists out t, (Debugger i ticks m;; Run_debug_all calls) s =
    Ok (tt, mkDebug (mkIstream (10 :: rest) true) (cout s ++ out) (singleStep s) t).
Proof.
  intros Hl Hc Hs. destruct (Machine_DumpState_ok m Hl) as [regs E].
  assert (H1 : exists out, Debugger i ticks m s = Ok (tt, mkDebug (mkIstream (10 :: rest) true) (cout s ++ out) (singleStep s) 0)).
  { unfold Debugger, print, lift, gets, modify, mbind, mret, stM_bind, stM_ret. rewrite E. cbn [cin cout debug_loop].
    unfold print, lift, gets, modify, mbind, mret, stM_bind, stM_ret. cbn [cin]. rewrite Hs. eexists.
    cbn. by rewrite <- !app_assoc. }
  destruct H1 as [out E1]. unfold mbind, stM_bind. rewrite E1.
  edestruct (deaf_for_ever calls (mkDebug (mkIstream (10 :: rest) true) (cout s ++ out) (singleStep s) 0)) as (out' & t & ->); [done | done | ].
  cbn [cin cout singleStep]. exists (out ++ out'), t. by rewrite app_assoc.
Qed.

(** A number and [c] are obeyed. *)
Example debugger_obeys :
  let i := mkInterrupt IntOn [] false false UserMode in
  match (Debugger i 7 (new_Machine 0);; Debugger i 8 (new_Machine 0)) (mkDebug (mkIstream (chars "?" ++ newline ++ chars "120" ++ newline ++ chars "c" ++ newline) false) [] true 0) with
  | Ok (_, s) => (singleStep s, text (cin s)) = (false, [])
  | Fail _ => False
  end.
Proof. vm_compute. reflexivity. Qed.
